(* ===== verification/_CoqProject ===== *)
-Q . S2P
Prelude.v
Bitmap.v
ResPool.v
DrcList.v
ResMap.v
ConvertQ.v
GlobalRes.v
DrcTypes.v
KeyStore.v
UtilThms.v
BufCtrl.v
DrcPage.v
PageInv.v
PageProps.v
PageFun.v
PageThms.v
DrcDcs.v
DcsThms.v
DcsEdp.v
EdpThms.v
DrcLock.v
LockProps.v
LockThms.v
LockSpec.v
DrcLocal.v
LocalThms.v
DrcTxn.v
LocalDemo.v
Threads.v
DlsTxn.v
DrcDls.v
DlsInv.v
DlsRules.v
DlsProps.v
DlsClients.v
DlsLive.v
DlsThms.v
DrcPart.v
PartProps.v
PartThms.v
RemasterThms.v
PartDemo.v
DrcMgrt.v
MgrtProps.v
MgrtThms.v
MgrtDemo.v
DrcRcy.v
RcyProps.v
RcySend.v
RcyThms.v
RcyLock.v
RcyDemo.v
DrcAssign.v
AssignThms.v
AssignDemo.v
