(* ===== verification/Prelude.v ===== *)
(** * Cantian: the distributed resource catalog, verified

    Cantian lets several instances of a database share its pages and locks.
    Which instance may use what is decided by the distributed resource catalog
    (DRC): every page and every lock belongs to one of 1024 partitions, every
    partition has a master instance, and the master keeps one resource per page
    or lock: who owns it and in which mode, whose request is being converted,
    and who waits.  This library models the catalog, the page transfers and the
    distributed locks on top of it, function by function, and proves the properties the rest of
    the system relies on.  Names of definitions are those of the source.

    ** The parts and how they interact

    - Pools, lists, maps (src/pkg/src/cluster/dtc_drc_util.[ch]): resources
      live in pools of fixed-size items, are chained into hash buckets and into
      one list per partition.
    - The page catalog (dtc_drc.c, with two loops of dtc_dcs.c): requests,
      claims, conversions, releases, recycling and clean-up of pages.
    - Page transfers (dtc_dcs.c): the messages between the session that needs a
      page, the master and the owner, over the buffer controls of the instances
      (knl_buffer.h, knl_buffer_access.c).
    - Earlier dirty pages (dtc_ckpt.c, dtc_dcs.c): how a page that was given away
      while dirty is written by its owner and forgotten by the others.
    - The lock catalog (dtc_drc.c): the same as the page catalog, for locks.
    - Local lock resources (dtc_drc.c): what an instance knows of the locks it
      uses; transaction waits (dtc_drc.c, dtc_dls.c, knl_tran.c).
    - Distributed spin locks and latches (dtc_dls.c): the sessions that take
      and give back locks through the local resources, the messages to the
      master, and the requests of the master to the owners.
    - The partition table (dtc_drc.c): how partitions are distributed, and
      which of them move when instances join, leave or fail; migration
      (dtc_drc.c): how the pages and locks of a partition get from the old
      master to the new one; recovery (dtc_drc.c): how the new master of a
      partition whose master has failed learns from the buffers and local locks
      of the others what it has to keep; assignment (dtc_drc.c): how the plan
      of the reformer gets to the instances that carry it out.

    ** How the code is modelled

    C integers are [Z], wrapped by [u8] to [u64] where the code computes in that
    width.  Arrays and pools are lists with checked access.  A function returns
    an [outcome]: [Done], or [Crash] for a failed knl_panic, an access out of
    bounds, a bad shift or a null pointer; status_t is a value.  Pointers to
    items are item indices, so aliasing through a pool is the code's aliasing.
    Statistics, log lines and SYNC_POINT test hooks are left out.  What a
    function reads from elsewhere (configuration, reform and recovery state) is
    an argument, once per read where it may change between two reads.

    Concurrency is modelled in two ways.  A handler of the page or lock catalog
    that gives up its bucket lock has a window there: an argument, a function
    that stands for everything other threads do; theorems quantify over the
    windows that keep the invariant.  The distributed locks and the transaction
    waits are programs of atomic actions ([Threads]): any number of threads
    interleave in any order, and theorems quantify over all reachable
    configurations.

    ** The files

    - [Prelude]: integers, outcomes, arrays, tactics, hints.
      [Bitmap]: 64-bit sets of instances and the hashes.
      [ResPool], [DrcList], [ResMap], [ConvertQ], [GlobalRes]: the data
      structures, each with its representation predicate; the classes
      [ResItem], [ResKey] and [GlobalItem] are what one layer promises the next.
      [KeyStore]: maps without partition lists.  [UtilThms]: small instances.
    - [DrcTypes]: the resources, identifiers and admission checks.
    - [DrcPage]: the page catalog.  [PageInv]: its decisions on one resource;
      [PageProps]: its handlers under interference; [PageFun]: their effect on
      the view of the catalog; [PageThms]: the theorems.
    - [BufCtrl]: buffer controls.  [DrcDcs]: the messages of the three sides of a
      page transfer, on [BufCtrl] and [DrcPage]; [DcsThms]: the theorems.
      [DcsEdp]: earlier dirty pages; [EdpThms]: the theorems.
    - [DrcLock]: the lock catalog.  [LockProps], [LockThms]: its lemmas and
      theorems.  [LockSpec]: an abstract lock manager and the simulation.
    - [DrcLocal], [LocalThms]: local lock resources.  [DrcTxn]: transaction
      waits at the catalog.  [LocalDemo]: small instances of both.
    - [Threads]: interleaving programs and their logic.  [DlsTxn]: the wait
      protocol.  [DrcDls]: dtc_dls.c.  [DlsInv]: the invariant of the cluster;
      [DlsRules]: a rule per action; [DlsProps], [DlsClients]: every program
      keeps the invariant; [DlsLive]: total correctness of a hand-over;
      [DlsThms]: the theorems.
    - [DrcPart]: the partition table.  [PartProps], [PartThms], [RemasterThms]:
      its lemmas and theorems.  [PartDemo]: small instances.
    - [DrcMgrt]: migration, one loop for pages and locks over the class
      [MgrtRes].  [MgrtProps]: packing, unpacking and freeing for any resource
      that keeps [MgrtLaws]; [MgrtThms]: pages and locks keep them, and the
      theorems.  [MgrtDemo]: a move between two small catalogs.
    - [DrcRcy]: recovery.  [RcyProps]: what reports say of a page, and that its
      resource says the same; [RcySend]: reports are complete; [RcyThms]: the
      instances that stay as a system of steps, with the theorems on pages and
      on the wait of the recovery step; [RcyLock]: locks.  [RcyDemo]: three
      instances that recover a fourth.
    - [DrcAssign]: the assignment of the planned tasks and the messages of a
      remaster.  [AssignThms]: what a plan looks like, and its theorems.
      [AssignDemo]: small instances.

    ** What the theorems show

    - Pages: in every state that the handlers of normal operation reach a page
      has at most one writer, and no copy beside an exclusive owner; every
      handler is safe under any interference that keeps the invariant, and in
      the windows of a request or claim the conversion of its own page; what
      request, claim, release and clean-up do is stated branch by branch.
    - Page transfers: an owner that sends a page to a writer can no longer write
      it, one that fails to send keeps it; the log of a changed page is on disk
      before the page leaves (the answer has, besides the fields of the source,
      the state of the log at the moment it is sent); at the end of an exchange the requester has the
      owner's page, copies that exclude it were dropped, and the master records
      just that; a dropped copy cannot be
      used and no changed page is dropped.
    - Earlier dirty pages: groups stay sorted and within bounds and lose no page;
      the master tells exactly the instances concerned, and forgets exactly what
      it told them of; the owner writes, or reports, or passes over each request
      it takes.  When the group of pages to write becomes full, the requests
      behind are lost.
    - Locks: the catalog implements, handler by handler, an abstract lock
      manager, with the same replies; requests are converted first come, first
      served, and none is lost; an exclusive lock has one owner; what claim and
      clean-up do is stated.  A local lock is recycled only when that is safe.
    - Distributed locks: however sessions of all instances interleave, and
      whatever messages are lost, at most one session is inside a spin lock,
      and an exclusive latch excludes all others; the master's directory
      contains every owner; a lock nobody uses is handed over to the session
      that asks for it, by a run that ends.  An error message read as an answer
      and a forced share latch break exclusion; both runs are exhibited.
    - Transactions: no wake-up is lost between an instance that asks to wait
      and the session that ends the transaction.
    - Partitions: every partition has exactly one live master and the load is
      balanced after every sequence of reforms with one kind of change each, outside of
      reformer mode; a reform moves no partition that need not move.  Two other
      reforms in which the code goes wrong are exhibited; the wait for all
      instances ends.
    - Assignment: after a reform with one kind of change every instance has
      exactly the tasks of the plan that are its own.  Of a second message with
      tasks only the number is taken over; a reform with a join and a departure
      that loses tasks in this way is exhibited.
    - Migration: whichever messages of a partition arrive, in any order and any
      number of times, the importer ends up with resources that agree with those of the exporter
      field by field, or none, and takes the partition for complete exactly when
      it is; then the exporter frees it and nothing else.
    - Recovery: when every instance has its reports acknowledged, in whatever
      order reports and acknowledgements travelled, the catalogs of the new
      masters say of every page what the buffer controls say, and unless a report was
      dropped that point can be reached; the recovery step ends.  Locks are
      rebuilt if a master enters its own before the reports of others; the other
      order, and threads that share their buffer of reports, lose owners.
    - Pools and maps: allocation and release, lookup after add and remove, batch
      operations equal to single ones, and the two bounds checks that are one
      too weak.

    ** Bounds and fuel

    Loops whose bound is in the data (queues, buckets, partition lists, bitmaps)
    get exactly that bound as fuel, and it is proved enough.  Loops that wait
    for other threads take their number of turns as an argument: running out
    leaves the thread where it is ([Spin], or [None] for the polls of a lock
    request), which safety theorems allow and [DlsLive] shows not to happen in a
    hand-over.  The exporter of a partition reads a resource that is being
    converted again after every sleep, with what other threads do in between as
    an argument; it holds the lock of the partition all the while, so that the
    code leaves little that they can do.  The waits of the reformer and of the recovery step end by their
    own timeouts, and the number of turns is proved.  Theorems hold for any pool size the initialiser accepts
    (up to 2^31 items for maps), for 64 instances and 1024 partitions.

    ** Not modelled

    The handlers of a reform (clean-up, migration, recovery) are not steps of the
    reachability theorem of the page catalog; each has its own theorems.  Sends
    that can only be logged when they fail (the wake-ups of transaction waits)
    are taken as sent.  Page change numbers (CHECK_PAGE_PCN) are not modelled.

    Of dtc_dcs.c the network, the retries of a request, the batch requests of the
    prefetch and the pages for consistent reads; messages of a wrong size, which
    are dropped; the buffer pool and its latches (a handler works on a control
    under its latch, and the page transfers are composed in one order, not
    interleaved); in recovery, the interleaving of the threads of one instance
    that report pages (they share nothing but the catalog, which each enters
    page by page under its locks) and a report that arrives in the middle of
    the instance's own; the thread that drives the phases of a remaster (the
    handlers of its messages are modelled, their interleaving is not); the
    counter variants of the spin locks
    (dls_spin_add and others) and the granted-map messages of table locks; the
    sending side of a transaction wait; the reform itself (src/pkg/src/rc);
    statistics and views; the paged memory pool of dtc_drc_util.c, which wraps
    malloc.  The storage engine, the SQL engine, the cluster management service
    and the tools are systems of their own. *)

From stdpp Require Import prelude list.
From Stdlib Require Export ZArith Lia.

(** ** Scopes and machine integers

    C integers are [Z]; a value of an unsigned w-bit type is kept in
    [0, 2^w) by the wrapping functions below, which are applied exactly where
    the C code computes in that type. *)

Declare Scope drc_scope.
Delimit Scope drc_scope with drc.
Open Scope Z_scope.
Open Scope drc_scope.

Definition u8 (z : Z) : Z := z mod 2 ^ 8.
Definition u16 (z : Z) : Z := z mod 2 ^ 16.
Definition u32 (z : Z) : Z := z mod 2 ^ 32.
Definition u64 (z : Z) : Z := z mod 2 ^ 64.

Definition CT_INVALID_ID8 : Z := 255.
Definition CT_INVALID_ID16 : Z := 65535.
Definition CT_INVALID_ID32 : Z := 4294967295.
Definition CT_INVALID_ID64 : Z := 18446744073709551615.
Definition CT_MAX_INSTANCES : Z := 64.

Lemma u32_small z : 0 <= z < 2 ^ 32 -> u32 z = z.
Proof. apply Z.mod_small. Qed.

Lemma u32_range z : 0 <= u32 z < 2 ^ 32.
Proof. apply Z.mod_pos_bound. lia. Qed.

Lemma u16_small z : 0 <= z < 2 ^ 16 -> u16 z = z.
Proof. apply Z.mod_small. Qed.

Lemma u8_small z : 0 <= z < 2 ^ 8 -> u8 z = z.
Proof. apply Z.mod_small. Qed.

Lemma u64_range z : 0 <= u64 z < 2 ^ 64.
Proof. apply Z.mod_pos_bound. lia. Qed.

(** ** status_t *)

Inductive status_t := CT_SUCCESS | CT_ERROR.

#[export] Instance status_t_eq_dec : EqDecision status_t.
Proof. solve_decision. Defined.

(** ** Outcomes

    Every operation returns [Done] with its result, or [Crash]: [KnlPanic] is a
    failed [knl_panic] (the process dies on purpose), [OutOfBounds] an access
    past the end of an array or pool, [BadShift] a shift by a count not below
    the width of the operand, which C leaves undefined, [NullPointer] an access
    through a null pointer, and [OutOfFuel] the end of a loop's fuel. *)

Inductive crash := KnlPanic | OutOfBounds | BadShift | NullPointer | OutOfFuel.

Inductive outcome (A : Type) :=
| Done (a : A)
| Crash (c : crash).
Arguments Done {A} a.
Arguments Crash {A} c.

#[export] Instance outcome_ret : MRet outcome := fun A a => Done a.
#[export] Instance outcome_bind : MBind outcome :=
  fun A B f m => match m with Done a => f a | Crash c => Crash c end.

Lemma Done_inj {A} (a b : A) : Done a = Done b -> a = b.
Proof. by injection 1. Qed.

(** [knl_panic(cond)]: crash unless [cond] holds. *)
Definition knl_panic (cond : bool) : outcome unit :=
  if cond then Done tt else Crash KnlPanic.

(** One step of the monad by rewriting: unlike [cbn], it leaves no conversion
    problem that would make the kernel evaluate the operations involved. *)
Lemma outcome_ret_bind {A B} (a : A) (f : A -> outcome B) : (Done a ≫= f) = f a.
Proof. reflexivity. Qed.

Ltac ostep := rewrite outcome_ret_bind; cbv beta match.

Lemma bind_Done {A B} (m : outcome A) (f : A -> outcome B) b :
  (m ≫= f) = Done b <-> exists a, m = Done a /\ f a = Done b.
Proof.
  destruct m as [a | c]; cbn; split.
  - eauto.
  - intros (a' & [= ->] & H). done.
  - done.
  - intros (a' & H & _). done.
Qed.

Lemma knl_panic_Done cond : knl_panic cond = Done tt <-> cond = true.
Proof. destruct cond; cbn; split; done. Qed.

Lemma knl_panic_true cond u : knl_panic cond = Done u -> cond = true.
Proof. by destruct cond. Qed.

(** ** Arrays indexed by machine integers

    [l .[i]] is the [i]-th element, [None] when [i] is out of range;
    [l .[i <- x]] updates in place and does nothing out of range, so the
    accesses of the code go through [arr_get] and [arr_set], which crash
    there. *)

Definition lookupZ {A} (l : list A) (i : Z) : option A :=
  if (0 <=? i) && (i <? Z.of_nat (length l)) then l !! Z.to_nat i else None.

Definition insertZ {A} (l : list A) (i : Z) (x : A) : list A :=
  if (0 <=? i) && (i <? Z.of_nat (length l)) then <[Z.to_nat i := x]> l else l.

Notation "l .[ i ]" := (lookupZ l i) (at level 1, left associativity, format "l .[ i ]") : drc_scope.
Notation "l .[ i <- x ]" := (insertZ l i x) (at level 1, left associativity, format "l .[ i  <-  x ]") : drc_scope.

Definition arr_get {A} (l : list A) (i : Z) : outcome A :=
  match l.[i] with Some x => Done x | None => Crash OutOfBounds end.

Definition arr_set {A} (l : list A) (i : Z) (x : A) : outcome (list A) :=
  match l.[i] with Some _ => Done (l.[i <- x]) | None => Crash OutOfBounds end.

Section arrays.
Context {A : Type}.
Implicit Types (l : list A) (i j : Z) (x y : A).

Lemma lookupZ_Some l i x :
  l.[i] = Some x <-> 0 <= i /\ l !! Z.to_nat i = Some x.
Proof.
  unfold lookupZ. destruct (Z.leb_spec 0 i), (Z.ltb_spec i (Z.of_nat (length l)));
    cbn; split; try done; try (intros [? ?]; lia); try tauto.
  intros [_ H1%lookup_lt_Some]. lia.
Qed.

Lemma lookupZ_lt l i x : l.[i] = Some x -> 0 <= i < Z.of_nat (length l).
Proof. intros [? H%lookup_lt_Some]%lookupZ_Some. lia. Qed.

Lemma lookupZ_is_Some l i : 0 <= i < Z.of_nat (length l) -> exists x, l.[i] = Some x.
Proof.
  intros Hi. destruct (lookup_lt_is_Some_2 l (Z.to_nat i)) as [x Hx]; [lia |].
  exists x. apply lookupZ_Some. split; [lia | done].
Qed.

Lemma length_insertZ l i x : length (l.[i <- x]) = length l.
Proof. unfold insertZ. destruct (_ && _); [apply length_insert | done]. Qed.

Lemma lookupZ_insertZ_eq l i x :
  0 <= i < Z.of_nat (length l) -> (l.[i <- x]).[i] = Some x.
Proof.
  intros Hi. apply lookupZ_Some. split; [lia |]. unfold insertZ.
  destruct (Z.leb_spec 0 i), (Z.ltb_spec i (Z.of_nat (length l))); cbn; try lia.
  apply list_lookup_insert_eq. lia.
Qed.

Lemma lookupZ_insertZ_ne l i j x : i <> j -> (l.[i <- x]).[j] = l.[j].
Proof.
  intros Hij. unfold insertZ.
  destruct (Z.leb_spec 0 i), (Z.ltb_spec i (Z.of_nat (length l))); cbn; try done.
  unfold lookupZ. rewrite length_insert.
  destruct (Z.leb_spec 0 j), (Z.ltb_spec j (Z.of_nat (length l))); cbn; try done.
  apply list_lookup_insert_ne. lia.
Qed.

Lemma lookupZ_insertZ_Some l i j x y :
  (l.[i <- x]).[j] = Some y ->
  (i = j /\ x = y) \/ (i <> j /\ l.[j] = Some y).
Proof.
  intros H. destruct (decide (i = j)) as [-> |]; [| right; by rewrite lookupZ_insertZ_ne in H].
  left. pose proof (lookupZ_lt _ _ _ H) as Hlt. rewrite length_insertZ in Hlt.
  rewrite lookupZ_insertZ_eq in H by done. by simplify_eq.
Qed.

Lemma insertZ_insertZ l i x y : (l.[i <- x]).[i <- y] = l.[i <- y].
Proof.
  unfold insertZ at 1 3. rewrite length_insertZ. unfold insertZ.
  destruct (_ && _); [apply list_insert_insert_eq | done].
Qed.

Lemma insertZ_id l i x : l.[i] = Some x -> l.[i <- x] = l.
Proof.
  intros [? H]%lookupZ_Some. unfold insertZ.
  destruct (_ && _); [by apply list_insert_id | done].
Qed.

Lemma arr_get_Done l i x : arr_get l i = Done x <-> l.[i] = Some x.
Proof. unfold arr_get. destruct (l.[i]); split; intros; by simplify_eq. Qed.

Lemma arr_get_eq l i x : l.[i] = Some x -> arr_get l i = Done x.
Proof. apply arr_get_Done. Qed.

Lemma arr_set_eq l i x y : l.[i] = Some y -> arr_set l i x = Done (l.[i <- x]).
Proof. unfold arr_set. by intros ->. Qed.

Lemma arr_set_Done l i x l' :
  arr_set l i x = Done l' -> l' = l.[i <- x] /\ 0 <= i < Z.of_nat (length l).
Proof.
  unfold arr_set. destruct (l.[i]) eqn:E; intros; simplify_eq.
  split; [done |]. by eapply lookupZ_lt.
Qed.
End arrays.

Lemma lookupZ_middle {A} (l1 l2 : list A) x : (l1 ++ x :: l2).[Z.of_nat (length l1)] = Some x.
Proof. apply lookupZ_Some. split; [lia |]. rewrite Nat2Z.id. by apply list_lookup_middle. Qed.

(** ** Ranges of a list *)

(** The elements from [i] on, up to [j]. *)
Definition slice {A} (i j : Z) (l : list A) : list A := take (Z.to_nat (j - i)) (drop (Z.to_nat i) l).

Lemma slice_app {A} i j l (tasks : list A) : 0 <= i <= j -> j <= l -> slice i j tasks ++ slice j l tasks = slice i l tasks.
Proof.
  intros Hi Hj. unfold slice. replace (drop (Z.to_nat j) tasks) with (drop (Z.to_nat (j - i)) (drop (Z.to_nat i) tasks)) by (rewrite drop_drop; f_equal; lia).
  rewrite take_take_drop. f_equal. lia.
Qed.

Lemma slice_cons {A} i n (tasks : list A) t : 0 <= i -> tasks.[i] = Some t -> slice i (i + Z.of_nat (S n)) tasks = t :: slice (i + 1) (i + 1 + Z.of_nat n) tasks.
Proof.
  intros Hi [_ Ht]%lookupZ_Some. unfold slice. rewrite (drop_S _ _ _ Ht). replace (Z.to_nat (i + Z.of_nat (S n) - i)) with (S n) by lia.
  replace (Z.to_nat (i + 1 + Z.of_nat n - (i + 1))) with n by lia. by replace (S (Z.to_nat i)) with (Z.to_nat (i + 1)) by lia.
Qed.

Lemma slice_all {A} (l : list A) : slice 0 (Z.of_nat (length l)) l = l.
Proof. unfold slice. rewrite Z.sub_0_r, Nat2Z.id. apply take_ge, Nat.le_refl. Qed.

Lemma slice_nil {A} i (l : list A) : slice i i l = [].
Proof. unfold slice. by rewrite Z.sub_diag. Qed.

(** ** Automation *)

Create HintDb drc.
Create Rewrite HintDb drc.
#[export] Hint Rewrite @length_insertZ : drc.
#[export] Hint Resolve lookupZ_lt : drc.

(** Split a successful run of a monadic body into the runs of its steps. *)
Ltac outcome_inv :=
  repeat match goal with
  | H : (?m ≫= ?f) = Done ?b |- _ =>
      let a := fresh "a" in let H1 := fresh "Hrun" in let H2 := fresh "Hrun" in
      apply bind_Done in H; destruct H as (a & H1 & H2); cbn in H2
  | H : Done _ = Done _ |- _ => injection H as H; subst
  | H : Crash _ = Done _ |- _ => discriminate H
  | H : knl_panic _ = Done ?u |- _ => destruct u; apply knl_panic_Done in H
  | H : (_, _) = (_, _) |- _ => injection H; clear H; intros; subst
  | p : (_ * _)%type |- _ => destruct p
  end.

(** ** Lists *)

Lemma concat_insert_perm {A} (ls : list (list A)) (i : nat) x y :
  ls !! i = Some x -> y ++ concat ls ≡ₚ x ++ concat (<[i := y]> ls).
Proof.
  revert i. induction ls as [| l ls IH]; intros [| i] H; cbn in *; simplify_eq.
  - rewrite !(assoc_L (++)). by rewrite (comm (++) y x).
  - rewrite (assoc (++) y l), (comm (++) y l), <- (assoc (++) l y), (IH i H).
    rewrite (assoc (++) l x), (comm (++) l x). by rewrite <- (assoc (++) x l).
Qed.

Lemma concat_insertZ_perm {A} (ls : list (list A)) (i : Z) x y :
  ls.[i] = Some x -> y ++ concat ls ≡ₚ x ++ concat (ls.[i <- y]).
Proof.
  intros Hx. pose proof (lookupZ_lt _ _ _ Hx) as Hlt.
  apply lookupZ_Some in Hx as [? Hx]. unfold insertZ.
  destruct (Z.leb_spec 0 i), (Z.ltb_spec i (Z.of_nat (length ls))); cbn; try lia.
  by apply concat_insert_perm.
Qed.
