(* ===== verification/Bitmap.v ===== *)
(** * Instance bitmaps and resource hashes (dtc_drc_util.h)

    A 64-bit word records a set of cluster instances ([readonly_copies],
    [edp_map], [granted_map], [ins_map]).  The operations are those of
    src/pkg/src/cluster/dtc_drc_util.h; [inst_set] is the set of instances a
    word stands for and the lemmas relate each operation to its set operation.
    The two hash functions that choose a bucket and a partition follow. *)

From stdpp Require Import prelude list gmap.
From S2P Require Import Prelude.

Open Scope Z_scope.
Open Scope drc_scope.

(** ** Operations *)

Definition drc_bitmap64_set (bitmap num : Z) : outcome Z :=
  if CT_MAX_INSTANCES <=? num then Crash BadShift
  else Done (Z.lor bitmap (Z.shiftl 1 num)).

Definition drc_bitmap64_clear (bitmap num : Z) : outcome Z :=
  if CT_MAX_INSTANCES <=? num then Crash BadShift
  else Done (Z.land bitmap (u64 (Z.lnot (Z.shiftl 1 num)))).

Definition drc_bitmap64_exist (bitmap num : Z) : outcome bool :=
  if CT_MAX_INSTANCES <=? num then Crash BadShift
  else Done (negb (Z.land bitmap (Z.shiftl 1 num) =? 0)).

(** The loop of [drc_select_one_instance_from_readonly_copy]: [n] iterations
    are left and [index] is the next instance to test. *)
Fixpoint drc_select_from (n : nat) (index readonly_copy : Z) : outcome Z :=
  match n with
  | O => Done CT_INVALID_ID8
  | S n => b ← drc_bitmap64_exist readonly_copy index;
           if (b : bool) then Done index else drc_select_from n (index + 1) readonly_copy
  end.

Definition drc_select_one_instance_from_readonly_copy (readonly_copy : Z) : outcome Z :=
  drc_select_from (Z.to_nat CT_MAX_INSTANCES) 0 readonly_copy.

Definition HASH_SEED : Z := 2166136261.

(** cm_hash.h *)
Definition cm_hash_uint32 (i32_input range : Z) : Z :=
  let i32 := u32 (i32_input * HASH_SEED) in
  if 0 <? range then i32 mod range else i32.

Definition drc_page_id_hash (file page range : Z) : Z :=
  u32 (u32 (HASH_SEED * file) + u32 (HASH_SEED * page)) mod range.

(** [id] lists the values of the [char]s of the key as the C compiler promotes
    them to [int], so the definition covers signed and unsigned [char]. *)
Definition drc_resource_id_hash (id : list Z) (range : Z) : Z :=
  fold_left (fun hash c => u32 (u32 (hash * 131) + c)) id 0 mod range.

(** ** The set of instances a bitmap stands for *)

Definition bitmap_ok (bm : Z) : Prop := 0 <= bm < 2 ^ 64.

Definition inst_set (bm : Z) : gset Z :=
  list_to_set (filter (fun i => Z.testbit bm i = true) (seqZ 0 CT_MAX_INSTANCES)).

Lemma elem_of_inst_set bm i : i ∈ inst_set bm <-> 0 <= i < CT_MAX_INSTANCES /\ Z.testbit bm i = true.
Proof.
  unfold inst_set. rewrite elem_of_list_to_set, list_elem_of_filter, elem_of_seqZ. split; intros; split; lia || tauto.
Qed.

Lemma testbit_high bm i : bitmap_ok bm -> 64 <= i -> Z.testbit bm i = false.
Proof.
  intros [H0 H1] Hi. destruct (decide (bm = 0)) as [-> |]; [apply Z.bits_0 |].
  apply Z.bits_above_log2; [done |]. apply Z.log2_lt_pow2 in H1; lia.
Qed.

Lemma bitmap_ok_bits bm : 0 <= bm -> (forall i, 64 <= i -> Z.testbit bm i = false) -> bitmap_ok bm.
Proof.
  intros H0 Hb. split; [done |].
  destruct (decide (bm = 0)) as [-> |]; [lia |]. apply Z.log2_lt_pow2; [lia |].
  destruct (decide (Z.log2 bm < 64)) as [| Hge]; [done |].
  specialize (Hb (Z.log2 bm)). rewrite Z.bit_log2 in Hb by lia. discriminate Hb. lia.
Qed.

Lemma testbit_shiftl1 k i : 0 <= k -> 0 <= i -> Z.testbit (Z.shiftl 1 k) i = bool_decide (i = k).
Proof.
  intros Hk Hi. rewrite Z.shiftl_1_l, Z.pow2_bits_eqb by done.
  case_bool_decide; [subst; apply Z.eqb_refl | apply Z.eqb_neq; lia].
Qed.

Lemma testbit_clear_mask k i :
  0 <= i -> 0 <= k < 64 ->
  Z.testbit (u64 (Z.lnot (Z.shiftl 1 k))) i = bool_decide (i < 64 /\ i <> k).
Proof.
  intros Hi Hk. unfold u64. destruct (decide (i < 64)).
  - rewrite Z.mod_pow2_bits_low, Z.lnot_spec, testbit_shiftl1 by lia.
    repeat case_bool_decide; tauto || done.
  - rewrite Z.mod_pow2_bits_high by lia. case_bool_decide; lia || done.
Qed.

Section ops.
Context (bm num : Z).
Hypothesis Hbm : bitmap_ok bm.
Hypothesis Hnum : 0 <= num < CT_MAX_INSTANCES.

Lemma drc_bitmap64_set_Done :
  exists bm', drc_bitmap64_set bm num = Done bm' /\ bitmap_ok bm' /\
    inst_set bm' = {[num]} ∪ inst_set bm /\ bm' <> 0.
Proof.
  unfold CT_MAX_INSTANCES in *. destruct Hbm as [H0 H1]. unfold drc_bitmap64_set.
  destruct (Z.leb_spec CT_MAX_INSTANCES num); [unfold CT_MAX_INSTANCES in *; lia |].
  eexists; split; [done |]. split_and!.
  - apply bitmap_ok_bits.
    + apply Z.lor_nonneg. split; [lia |]. apply Z.shiftl_nonneg. lia.
    + intros i Hi. rewrite Z.lor_spec, testbit_shiftl1, testbit_high by (done || lia).
      case_bool_decide; [lia | done].
  - apply set_eq. intros i. rewrite elem_of_union, elem_of_singleton, !elem_of_inst_set. unfold CT_MAX_INSTANCES.
    destruct (decide (0 <= i < 64)); [| split; intuition lia].
    rewrite Z.lor_spec, testbit_shiftl1, orb_true_iff, bool_decide_eq_true by lia. intuition lia.
  - intros E. apply (f_equal (fun z => Z.testbit z num)) in E.
    rewrite Z.lor_spec, testbit_shiftl1, Z.bits_0, bool_decide_true, orb_true_r in E by lia. done.
Qed.

Lemma drc_bitmap64_clear_Done :
  exists bm', drc_bitmap64_clear bm num = Done bm' /\ bitmap_ok bm' /\
    inst_set bm' = inst_set bm ∖ {[num]} /\ (bm = 0 -> bm' = 0).
Proof.
  unfold drc_bitmap64_clear. destruct (Z.leb_spec CT_MAX_INSTANCES num); [lia |].
  unfold CT_MAX_INSTANCES in *. destruct Hbm as [H0 H1].
  eexists; split; [done |]. split_and!.
  - apply bitmap_ok_bits; [apply Z.land_nonneg; lia |].
    intros i Hi. by rewrite Z.land_spec, testbit_high by (done || lia).
  - apply set_eq. intros i. rewrite elem_of_difference, elem_of_singleton, !elem_of_inst_set. unfold CT_MAX_INSTANCES.
    destruct (decide (0 <= i < 64)); [| split; intuition lia].
    rewrite Z.land_spec, testbit_clear_mask, andb_true_iff, bool_decide_eq_true by lia. intuition lia.
  - intros ->. apply Z.land_0_l.
Qed.

Lemma drc_bitmap64_exist_Done :
  drc_bitmap64_exist bm num = Done (bool_decide (num ∈ inst_set bm)).
Proof.
  unfold drc_bitmap64_exist. destruct (Z.leb_spec CT_MAX_INSTANCES num); [lia |].
  f_equal. unfold CT_MAX_INSTANCES in *.
  assert (Hz : Z.land bm (Z.shiftl 1 num) = 0 <-> Z.testbit bm num = false).
  { split; intros E.
    - apply (f_equal (fun z => Z.testbit z num)) in E.
      rewrite Z.land_spec, testbit_shiftl1, Z.bits_0, bool_decide_true, andb_true_r in E by lia. done.
    - apply Z.bits_inj'. intros i Hi. rewrite Z.land_spec, testbit_shiftl1, Z.bits_0 by lia.
      case_bool_decide; subst; [by rewrite E | apply andb_false_r]. }
  case_bool_decide as Hin; rewrite elem_of_inst_set in Hin; unfold CT_MAX_INSTANCES in *.
  - apply negb_true_iff, Z.eqb_neq. rewrite Hz. destruct Hin as [_ ->]. done.
  - apply negb_false_iff, Z.eqb_eq, Hz. apply not_true_is_false. naive_solver.
Qed.
End ops.

Lemma inst_set_0 : inst_set 0 = ∅.
Proof. apply set_eq. intros i. rewrite elem_of_inst_set, Z.bits_0. set_solver. Qed.

Lemma inst_set_empty bm : bitmap_ok bm -> inst_set bm = ∅ -> bm = 0.
Proof.
  intros Hok He. apply Z.bits_inj'. intros i Hi. rewrite Z.bits_0.
  destruct (decide (i < 64)); [| apply testbit_high; [done | lia]].
  apply not_true_is_false. intros Ht. enough (i ∈ inst_set bm) by set_solver.
  apply elem_of_inst_set. unfold CT_MAX_INSTANCES. split; [lia | done].
Qed.

(** ** Selecting one instance *)

Lemma drc_select_from_spec n index bm :
  bitmap_ok bm -> 0 <= index -> index + Z.of_nat n = CT_MAX_INSTANCES ->
  exists r, drc_select_from n index bm = Done r /\
    ((r = CT_INVALID_ID8 /\ forall i, index <= i -> i ∉ inst_set bm) \/
     (index <= r /\ r ∈ inst_set bm /\ forall i, index <= i < r -> i ∉ inst_set bm)).
Proof.
  intros Hok. revert index. induction n as [| n IH]; intros index Hi Hn; cbn [drc_select_from].
  - exists CT_INVALID_ID8. split; [done |]. left. split; [done |]. intros i Hge.
    rewrite elem_of_inst_set. lia.
  - rewrite drc_bitmap64_exist_Done by (done || lia). cbn. case_bool_decide as Hin.
    + exists index. split; [done |]. right. split_and!; [lia | done | lia].
    + destruct (IH (index + 1)) as (r & -> & Hr); [lia | lia |].
      exists r. split; [done |]. destruct Hr as [[-> Hr] | (Hge & Hr & Hlt)].
      * left. split; [done |]. intros i Hi'. destruct (decide (i = index)) as [-> |]; [done | apply Hr; lia].
      * right. split_and!; [lia | done |]. intros i Hi'.
        destruct (decide (i = index)) as [-> |]; [done | apply Hlt; lia].
Qed.

Lemma drc_select_one_Done bm :
  bitmap_ok bm -> bm <> 0 ->
  exists r, drc_select_one_instance_from_readonly_copy bm = Done r /\
    r ∈ inst_set bm /\ forall i, i ∈ inst_set bm -> r <= i.
Proof.
  intros Hok Hne. destruct (drc_select_from_spec (Z.to_nat CT_MAX_INSTANCES) 0 bm) as (r & Hrun & Hr);
    [done | lia | unfold CT_MAX_INSTANCES; lia |].
  exists r. split; [done |]. destruct Hr as [[-> Hr] | (_ & Hr & Hlt)].
  - exfalso. apply Hne, inst_set_empty; [done |]. apply set_eq. intros i. split; [| set_solver].
    intros Hi. exfalso. apply (Hr i); [| done]. apply elem_of_inst_set in Hi. lia.
  - split; [done |]. intros i Hi. destruct (decide (r <= i)); [done |].
    exfalso. apply (Hlt i); [| done]. apply elem_of_inst_set in Hi. lia.
Qed.

(** ** Hash ranges *)

Lemma drc_page_id_hash_range file page range :
  0 < range -> 0 <= drc_page_id_hash file page range < range.
Proof. apply Z.mod_pos_bound. Qed.

Lemma drc_resource_id_hash_range id range :
  0 < range -> 0 <= drc_resource_id_hash id range < range.
Proof. apply Z.mod_pos_bound. Qed.

Lemma cm_hash_uint32_range x range : 0 < range -> 0 <= cm_hash_uint32 x range < range.
Proof.
  intros Hr. unfold cm_hash_uint32. destruct (Z.ltb_spec 0 range); [| lia].
  by apply Z.mod_pos_bound.
Qed.
