(* ===== verification/ResPool.v ===== *)
(** * Resource pools (drc_res_pool_t, dtc_drc_util.c)

    A pool is an array of [item_num] items.  The first 32-bit field of every
    item links the free items into a list headed by [free_list]; an allocated
    item reuses the same field for its own chain.  [ResItem] is that
    convention ("should be the first field") as an interface: what a type of
    items promises to the pool, and all the pool relies on. *)

From stdpp Require Import prelude list.
From S2P Require Import Prelude.

Open Scope Z_scope.
Open Scope drc_scope.

(** ** Items with a first-field link *)

Class ResItem (A : Type) := {
  item_next : A -> Z;
  set_item_next : Z -> A -> A;
  item_zero : A;
  item_next_set n a : item_next (set_item_next n a) = n;
  set_item_next_set n m a : set_item_next n (set_item_next m a) = set_item_next n a;
  set_item_next_id a : set_item_next (item_next a) a = a;
}.

(** ** Data and operations *)

Record drc_res_pool (A : Type) := mk_pool {
  inited : bool;
  free_list : Z;
  item_num : Z;
  used_num : Z;
  item_size : Z;
  addr : list A;
  recycle_pos : Z;
}.
Arguments mk_pool {A}.
Arguments inited {A}.
Arguments free_list {A}.
Arguments item_num {A}.
Arguments used_num {A}.
Arguments item_size {A}.
Arguments addr {A}.
Arguments recycle_pos {A}.

(** [pool] with its free list, use count and items replaced. *)
Definition pool_with {A} (p : drc_res_pool A) (fl used : Z) (items : list A) : drc_res_pool A :=
  mk_pool (inited p) fl (item_num p) used (item_size p) items (recycle_pos p).

Definition pool_set_addr {A} (p : drc_res_pool A) (items : list A) : drc_res_pool A :=
  pool_with p (free_list p) (used_num p) items.

Definition pool_set_recycle_pos {A} (p : drc_res_pool A) (pos : Z) : drc_res_pool A :=
  mk_pool (inited p) (free_list p) (item_num p) (used_num p) (item_size p) (addr p) pos.

(** sizeof(drc_res_block_header_t) *)
Definition block_header_size : Z := 4.

Section operations.
Context {A : Type} `{ResItem A}.
Implicit Types (pool : drc_res_pool A) (items : list A).

(** DRC_GET_RES_ADDR_BY_ID, read and written back *)
Definition DRC_GET_RES_ADDR_BY_ID pool (id : Z) : outcome A := arr_get (addr pool) id.

Definition drc_res_put pool (id : Z) (a : A) : outcome (drc_res_pool A) :=
  items ← arr_set (addr pool) id a; Done (pool_set_addr pool items).

(** The linking loop of [drc_res_pool_init]: [n] iterations left, [block] is item [i]. *)
Fixpoint drc_res_pool_link (n : nat) (i : Z) items : outcome (list A) :=
  match n with
  | O => block ← arr_get items i;
         arr_set items i (set_item_next CT_INVALID_ID32 block)
  | S n => block ← arr_get items i;
           items ← arr_set items i (set_item_next (u32 (i + 1)) block);
           drc_res_pool_link n (u32 (i + 1)) items
  end.

Definition drc_res_pool_init pool (size num : Z) (malloc_ok : bool) : outcome (status_t * drc_res_pool A) :=
  if inited pool then Done (CT_ERROR, pool)
  else if size <? block_header_size then Done (CT_ERROR, pool)
  else if negb malloc_ok then Done (CT_ERROR, pool)
  else items ← drc_res_pool_link (Z.to_nat (u32 (num - 1))) 0 (replicate (Z.to_nat num) item_zero);
       Done (CT_SUCCESS, mk_pool true 0 num 0 size items 0).

Definition drc_res_pool_destroy pool : drc_res_pool A :=
  if negb (inited pool) then pool
  else mk_pool false 0 0 0 0 [] (recycle_pos pool).

Definition drc_res_pool_alloc_item pool : outcome (Z * drc_res_pool A) :=
  if negb (inited pool) then Done (CT_INVALID_ID32, pool)
  else let id := free_list pool in
       if id =? CT_INVALID_ID32 then Done (CT_INVALID_ID32, pool)
       else block ← arr_get (addr pool) (free_list pool);
            Done (id, pool_with pool (item_next block) (u32 (used_num pool + 1)) (addr pool)).

Fixpoint alloc_batch_loop (n : nat) (id : Z) (idx : list Z) pool : outcome (list Z * drc_res_pool A) :=
  match n with
  | O => Done (idx, pool)
  | S n => block ← arr_get (addr pool) (free_list pool);
           alloc_batch_loop n (item_next block) (idx ++ [id])
             (pool_with pool (item_next block) (u32 (used_num pool + 1)) (addr pool))
  end.

Definition drc_res_pool_alloc_batch_item pool (num : Z) : outcome (status_t * list Z * drc_res_pool A) :=
  if negb (inited pool) then Done (CT_ERROR, [], pool)
  else if (item_num pool <? num) || (item_num pool <? u32 (used_num pool + num)) then Done (CT_ERROR, [], pool)
  else let id := free_list pool in
       if id =? CT_INVALID_ID32 then Done (CT_ERROR, [], pool)
       else '(idx, pool) ← alloc_batch_loop (Z.to_nat num) id [] pool;
            Done (CT_SUCCESS, idx, pool).

Definition drc_res_pool_free_item pool (id : Z) : outcome (drc_res_pool A) :=
  if negb (inited pool) then Done pool
  else block ← arr_get (addr pool) id;
       items ← arr_set (addr pool) id (set_item_next (free_list pool) block);
       Done (pool_with pool id (u32 (used_num pool - 1)) items).

Fixpoint free_batch_loop (ids : list Z) pool : outcome (drc_res_pool A) :=
  match ids with
  | [] => Done pool
  | id :: ids =>
      if item_num pool <? id then Done pool
      else block ← arr_get (addr pool) id;
           items ← arr_set (addr pool) id (set_item_next (free_list pool) block);
           free_batch_loop ids (pool_with pool id (u32 (used_num pool - 1)) items)
  end.

(** [ids] holds the first [num] entries of the array argument. *)
Definition drc_res_pool_free_batch_item pool (ids : list Z) : outcome (drc_res_pool A) :=
  if negb (inited pool) then Done pool
  else if used_num pool <? Z.of_nat (length ids) then Done pool
  else free_batch_loop ids pool.
End operations.

(** ** Chains threaded through the first field *)

Section chains.
Context {A : Type} `{ResItem A}.
Implicit Types (items : list A) (ids : list Z).

(** Following the links from [hd] visits exactly [ids] and ends in CT_INVALID_ID32. *)
Fixpoint chain items (hd : Z) ids : Prop :=
  match ids with
  | [] => hd = CT_INVALID_ID32
  | i :: ids => hd = i /\ exists a, items.[i] = Some a /\ chain items (item_next a) ids
  end.

Lemma chain_lookup items hd ids i :
  chain items hd ids -> i ∈ ids -> exists a, items.[i] = Some a.
Proof.
  revert hd. induction ids as [| j ids IH]; cbn; intros hd; [set_solver |].
  intros (-> & a & Ha & Hc) [-> | Hi]%elem_of_cons; eauto.
Qed.

Lemma chain_range items hd ids :
  chain items hd ids -> Forall (fun i => 0 <= i < Z.of_nat (length items)) ids.
Proof.
  intros Hc. apply Forall_forall. intros i Hi.
  destruct (chain_lookup _ _ _ _ Hc Hi) as [a Ha]. by eapply lookupZ_lt.
Qed.

Lemma chain_insert_ne items hd ids i a :
  i ∉ ids -> chain items hd ids -> chain (items.[i <- a]) hd ids.
Proof.
  revert hd. induction ids as [| j ids IH]; cbn; intros hd Hi; [done |].
  intros (-> & b & Hb & Hc). split; [done |]. exists b.
  rewrite lookupZ_insertZ_ne by set_solver. split; [done |]. apply IH; [set_solver | done].
Qed.

Lemma chain_insert_next items hd ids i a b :
  items.[i] = Some b -> item_next a = item_next b ->
  chain items hd ids -> chain (items.[i <- a]) hd ids.
Proof.
  intros Hb Hn. revert hd. induction ids as [| j ids IH]; cbn; intros hd; [done |].
  intros (-> & c & Hc & Hch). split; [done |]. destruct (decide (i = j)) as [-> |].
  - exists a. rewrite lookupZ_insertZ_eq by (by eapply lookupZ_lt). split; [done |].
    simplify_eq. rewrite Hn. auto.
  - exists c. rewrite lookupZ_insertZ_ne by done. auto.
Qed.

(** A link field determines the chain. *)
Lemma chain_unique items hd ids ids' :
  Z.of_nat (length items) <= CT_INVALID_ID32 ->
  chain items hd ids -> chain items hd ids' -> ids = ids'.
Proof.
  intros Hlen. revert hd ids'. induction ids as [| i ids IH]; intros hd [| j ids']; cbn; try done.
  - intros -> [<- (a & Ha & _)]. apply lookupZ_lt in Ha. lia.
  - intros [-> (a & Ha & _)] ->. apply lookupZ_lt in Ha. lia.
  - intros (-> & a & Ha & Hc) (<- & b & Hb & Hc'). simplify_eq. f_equal. by eapply IH.
Qed.

(** Appending one item after the last of a chain. *)
Lemma chain_snoc items hd ids l j al aj :
  chain items hd (ids ++ [l]) -> NoDup (ids ++ [l]) -> j ∉ ids ++ [l] ->
  items.[l] = Some al -> items.[j] = Some aj -> item_next aj = CT_INVALID_ID32 ->
  chain (items.[l <- set_item_next j al]) hd ((ids ++ [l]) ++ [j]).
Proof.
  intros Hc Hnd Hj Hl Haj Hnil. revert hd Hc. induction ids as [| i ids IH]; cbn in *; intros hd.
  - intros (-> & a & Ha & Hn). simplify_eq. split; [done |].
    exists (set_item_next j al). rewrite lookupZ_insertZ_eq by (by eapply lookupZ_lt).
    split; [done |]. rewrite item_next_set. split; [done |]. exists aj.
    rewrite lookupZ_insertZ_ne by set_solver. by rewrite Hnil.
  - apply NoDup_cons in Hnd as [Hi Hnd]. intros (-> & a & Ha & Hc). split; [done |].
    exists a. rewrite lookupZ_insertZ_ne by set_solver. split; [done |].
    apply IH; [done | set_solver | done].
Qed.
End chains.

(** ** Invariant *)

(** [fl] lists the free items in the order in which they will be handed out. *)
Record pool_wf {A} `{ResItem A} (p : drc_res_pool A) (fl : list Z) : Prop := mk_pool_wf {
  pw_inited : inited p = true;
  pw_len : Z.of_nat (length (addr p)) = item_num p;
  pw_max : item_num p <= CT_INVALID_ID32;
  pw_chain : chain (addr p) (free_list p) fl;
  pw_nodup : NoDup fl;
  pw_used : used_num p + Z.of_nat (length fl) = item_num p;
}.

Section facts.
Context {A : Type} `{ResItem A}.
Implicit Types (p : drc_res_pool A) (fl : list Z).

Lemma pool_wf_range p fl i : pool_wf p fl -> i ∈ fl -> 0 <= i < item_num p.
Proof.
  intros Hwf Hi. pose proof (chain_range _ _ _ (pw_chain _ _ Hwf)) as HF.
  rewrite Forall_forall in HF. rewrite <- (pw_len _ _ Hwf). auto.
Qed.

(** Distinct free ids fit in the pool, so the use count never goes negative. *)
Lemma pool_wf_fits p fl : pool_wf p fl -> 0 <= used_num p <= item_num p.
Proof.
  intros Hwf. assert (Hle : (length fl <= length (seqZ 0 (item_num p)))%nat).
  { apply submseteq_length, NoDup_submseteq; [exact (pw_nodup _ _ Hwf) |].
    intros i Hi. apply elem_of_seqZ. pose proof (pool_wf_range _ _ _ Hwf Hi). lia. }
  rewrite length_seqZ in Hle.
  pose proof (pw_used _ _ Hwf). pose proof (pw_len _ _ Hwf). lia.
Qed.

Lemma free_list_nil p fl : pool_wf p fl -> free_list p = CT_INVALID_ID32 <-> fl = [].
Proof.
  intros Hwf. pose proof (pw_chain _ _ Hwf) as Hc. destruct fl as [| i fl]; cbn in Hc; [done |].
  destruct Hc as (-> & a & Ha & _). apply lookupZ_lt in Ha.
  pose proof (pw_len _ _ Hwf). pose proof (pw_max _ _ Hwf). split; [lia | done].
Qed.

(** *** What each operation does to the list of free items *)

Lemma alloc_item_cons p i fl :
  pool_wf p (i :: fl) ->
  exists p', drc_res_pool_alloc_item p = Done (i, p') /\ pool_wf p' fl /\
    addr p' = addr p /\ item_num p' = item_num p /\ used_num p' = used_num p + 1 /\
    recycle_pos p' = recycle_pos p.
Proof.
  intros Hwf. pose proof (pool_wf_fits _ _ Hwf) as Hu. destruct Hwf as [Hin Hlen Hmax Hc Hnd Hus].
  cbn in Hc, Hus. destruct Hc as (Hhd & a & Ha & Hc). unfold drc_res_pool_alloc_item. rewrite Hin, Hhd. cbn.
  pose proof (lookupZ_lt _ _ _ Ha). unfold CT_INVALID_ID32 in *.
  destruct (Z.eqb_spec i 4294967295) as [-> | _]; [lia |].
  rewrite (arr_get_eq _ _ _ Ha). cbn. eexists. split; [done |].
  apply NoDup_cons in Hnd as [_ Hnd]. split; [| cbn; rewrite u32_small by lia; done].
  constructor; cbn; try done. rewrite u32_small by lia. lia.
Qed.

Lemma alloc_item_nil p :
  pool_wf p [] -> drc_res_pool_alloc_item p = Done (CT_INVALID_ID32, p).
Proof.
  intros [Hin _ _ Hc _ _]. cbn in Hc. unfold drc_res_pool_alloc_item. by rewrite Hin, Hc.
Qed.

Lemma alloc_item_spec p fl :
  pool_wf p fl ->
  exists i p', drc_res_pool_alloc_item p = Done (i, p') /\
    addr p' = addr p /\ item_num p' = item_num p /\ recycle_pos p' = recycle_pos p /\
    ((fl = [] /\ i = CT_INVALID_ID32 /\ p' = p) \/ (exists fl', fl = i :: fl' /\ i <> CT_INVALID_ID32 /\ pool_wf p' fl')).
Proof.
  intros Hwf. destruct fl as [| i fl].
  - exists CT_INVALID_ID32, p. rewrite alloc_item_nil by done. naive_solver.
  - destruct (alloc_item_cons _ _ _ Hwf) as (p' & Hrun & Hwf' & Ha & Hn & _ & Hr).
    exists i, p'. split_and!; try done. right. exists fl. split_and!; try done.
    pose proof (pool_wf_range _ _ i Hwf). pose proof (pw_max _ _ Hwf). set_solver by lia.
Qed.

Lemma free_item_Done p fl i a :
  pool_wf p fl -> (addr p).[i] = Some a -> i ∉ fl ->
  exists p', drc_res_pool_free_item p i = Done p' /\ pool_wf p' (i :: fl) /\
    addr p' = (addr p).[i <- set_item_next (free_list p) a] /\
    item_num p' = item_num p /\ recycle_pos p' = recycle_pos p.
Proof.
  intros Hwf Ha Hi. pose proof (lookupZ_lt _ _ _ Ha) as Hlt.
  unfold drc_res_pool_free_item. rewrite (pw_inited _ _ Hwf). cbn.
  rewrite (arr_get_eq _ _ _ Ha). cbn. rewrite (arr_set_eq _ _ _ _ Ha). cbn.
  eexists. split; [done |]. split; [| done].
  assert (Hle : (length (i :: fl) <= length (seqZ 0 (item_num p)))%nat).
  { apply submseteq_length, NoDup_submseteq; [apply NoDup_cons; split; [done | exact (pw_nodup _ _ Hwf)] |].
    intros j [-> | Hj]%elem_of_cons; apply elem_of_seqZ; rewrite Z.add_0_l.
    - rewrite <- (pw_len _ _ Hwf). done.
    - by eapply pool_wf_range. }
  rewrite length_seqZ in Hle. destruct Hwf as [Hin Hlen Hmax Hc Hnd Hus]. cbn in Hle.
  constructor; cbn; try done.
  - by rewrite length_insertZ.
  - split; [done |]. eexists. rewrite lookupZ_insertZ_eq by done. split; [done |].
    rewrite item_next_set. by apply chain_insert_ne.
  - apply NoDup_cons. done.
  - unfold CT_INVALID_ID32 in *. rewrite u32_small by lia. lia.
Qed.

(** Writing an item back without touching its link keeps the pool well formed. *)
Lemma pool_wf_put p fl i a b :
  pool_wf p fl -> (addr p).[i] = Some a -> (i ∈ fl -> item_next b = item_next a) ->
  pool_wf (pool_set_addr p ((addr p).[i <- b])) fl.
Proof.
  intros [Hin Hlen Hmax Hc Hnd Hus] Ha Hb. constructor; cbn; try done.
  - by rewrite length_insertZ.
  - destruct (decide (i ∈ fl)) as [Hi | Hi].
    + eapply chain_insert_next; eauto.
    + by apply chain_insert_ne.
Qed.

(** *** Batch operations are iterated single operations *)

Lemma alloc_batch_loop_spec p fl taken idx :
  pool_wf p (taken ++ fl) ->
  exists p', alloc_batch_loop (length taken) (free_list p) idx p = Done (idx ++ taken, p') /\
    pool_wf p' fl /\ addr p' = addr p /\ item_num p' = item_num p.
Proof.
  revert p idx. induction taken as [| i taken IH]; intros p idx Hwf; cbn.
  - exists p. by rewrite app_nil_r.
  - destruct (alloc_item_cons p i (taken ++ fl) Hwf) as (p1 & Hrun & Hwf1 & Ha1 & Hn1 & _).
    unfold drc_res_pool_alloc_item in Hrun. rewrite (pw_inited _ _ Hwf) in Hrun. cbn in Hrun.
    destruct Hwf as [_ Hlen Hmax Hc _ _]. cbn in Hc. destruct Hc as (Hhd & a & Ha & Hc).
    rewrite Hhd in *. pose proof (lookupZ_lt _ _ _ Ha) as Hlt.
    destruct (Z.eqb_spec i CT_INVALID_ID32) as [Hbad | _]; [lia |].
    rewrite (arr_get_eq _ _ _ Ha) in *. cbn in Hrun |- *. injection Hrun as Hp. subst p1.
    destruct (IH _ (idx ++ [i]) Hwf1) as (p2 & Hrun2 & Hwf2 & Ha2 & Hn2).
    exists p2. cbn in *. rewrite Hrun2, <- (assoc_L (++)). split_and!; try done.
Qed.

Lemma pool_wf_inited p fl : pool_wf p fl -> negb (inited p) = false.
Proof. intros Hwf. by rewrite (pw_inited _ _ Hwf). Qed.

(** The link loop of the initialiser produces the chain 0, 1, ..., n. *)
Lemma link_spec n i items :
  0 <= i -> i + Z.of_nat n + 1 = Z.of_nat (length items) -> Z.of_nat (length items) <= CT_INVALID_ID32 ->
  exists items', drc_res_pool_link n i items = Done items' /\ length items' = length items /\
    chain items' i (seqZ i (Z.of_nat n + 1)) /\ (forall j, j < i -> items'.[j] = items.[j]).
Proof.
  revert i items. induction n as [| n IH]; intros i items Hi Hn Hmax; cbn [drc_res_pool_link].
  - destruct (lookupZ_is_Some items i) as [a Ha]; [lia |].
    rewrite (arr_get_eq _ _ _ Ha). cbn. rewrite (arr_set_eq _ _ _ _ Ha).
    eexists. split; [done |]. rewrite length_insertZ. split; [done |]. split.
    + rewrite seqZ_cons by lia. cbn. split; [done |]. eexists.
      rewrite lookupZ_insertZ_eq by lia. split; [done |]. by rewrite item_next_set.
    + intros j Hj. apply lookupZ_insertZ_ne. lia.
  - destruct (lookupZ_is_Some items i) as [a Ha]; [lia |].
    rewrite (arr_get_eq _ _ _ Ha). cbn. rewrite (arr_set_eq _ _ _ _ Ha). cbn.
    unfold CT_INVALID_ID32 in *. rewrite u32_small by lia.
    destruct (IH (i + 1) (items.[i <- set_item_next (i + 1) a])) as (items' & Hrun & Hlen & Hc & Hlt);
      [lia | rewrite length_insertZ; lia | rewrite length_insertZ; lia |].
    rewrite length_insertZ in Hlen. exists items'. rewrite Hrun. split_and!; [done | done | |].
    + rewrite seqZ_cons by lia. cbn. split; [done |]. exists (set_item_next (i + 1) a).
      rewrite Hlt by lia. rewrite lookupZ_insertZ_eq by lia. split; [done |].
      rewrite item_next_set. replace (Z.pred (Z.of_nat (S n) + 1)) with (Z.of_nat n + 1) by lia.
      by rewrite <- Z.add_1_r.
    + intros j Hj. rewrite Hlt by lia. apply lookupZ_insertZ_ne. lia.
Qed.

Lemma free_batch_loop_spec p fl ids :
  pool_wf p fl -> NoDup ids -> (forall i, i ∈ ids -> i ∉ fl /\ 0 <= i < item_num p) ->
  exists p', free_batch_loop ids p = Done p' /\ pool_wf p' (reverse ids ++ fl) /\
    item_num p' = item_num p /\ (forall j, j ∉ ids -> (addr p').[j] = (addr p).[j]).
Proof.
  revert p fl. induction ids as [| i ids IH]; intros p fl Hwf Hnd Hids; cbn [free_batch_loop].
  - exists p. done.
  - rewrite reverse_cons, <- (assoc_L (++)).
    apply NoDup_cons in Hnd as [Hi Hnd]. destruct (Hids i) as [Hfl Hr]; [set_solver |].
    destruct (Z.ltb_spec (item_num p) i); [lia |].
    destruct (lookupZ_is_Some (addr p) i) as [a Ha]; [by rewrite (pw_len _ _ Hwf) |].
    destruct (free_item_Done p fl i a Hwf Ha Hfl) as (p1 & Hrun & Hwf1 & Ha1 & Hn1 & _).
    unfold drc_res_pool_free_item in Hrun. rewrite (pool_wf_inited _ _ Hwf) in Hrun. cbn in Hrun.
    rewrite (arr_get_eq _ _ _ Ha) in *. cbn in Hrun |- *. rewrite (arr_set_eq _ _ _ _ Ha) in *.
    cbn in Hrun |- *. simplify_eq.
    edestruct (IH _ _ Hwf1 Hnd) as (p' & Hrun & Hwf' & Hn' & Ha').
    { intros j Hj. destruct (Hids j) as [? ?]; [set_solver |]. rewrite Hn1. set_solver. }
    exists p'. rewrite Hrun. split_and!; try done.
    intros j Hj. rewrite Ha' by set_solver. rewrite Ha1. apply lookupZ_insertZ_ne. set_solver.
Qed.
End facts.

(** ** The pool as a whole *)

Section pool.
Context {A : Type} `{ResItem A}.
Implicit Types (p : drc_res_pool A) (fl : list Z).

(** The link loop changes links only. *)
Lemma link_items n i (items items' : list A) j a :
  drc_res_pool_link n i items = Done items' -> items.[j] = Some a -> exists x, items'.[j] = Some (set_item_next x a).
Proof.
  revert i items a. induction n as [| n IH]; intros i items a; cbn [drc_res_pool_link];
    intros (b & Hb%arr_get_Done & Hrun)%bind_Done Ha.
  - apply arr_set_Done in Hrun as [-> _]. destruct (decide (i = j)) as [<- |].
    + simplify_eq. eexists. rewrite lookupZ_insertZ_eq; [done | by eapply lookupZ_lt].
    + exists (item_next a). by rewrite lookupZ_insertZ_ne, set_item_next_id.
  - apply bind_Done in Hrun as (items1 & [-> _]%arr_set_Done & Hrun). destruct (decide (i = j)) as [<- |].
    + simplify_eq. edestruct (IH _ _ (set_item_next (u32 (i + 1)) b) Hrun) as [x ->]; [apply lookupZ_insertZ_eq; by eapply lookupZ_lt |].
      exists x. by rewrite set_item_next_set.
    + eapply IH; [done |]. by rewrite lookupZ_insertZ_ne.
Qed.

Lemma pool_init_spec p size num :
  inited p = false -> block_header_size <= size -> 0 < num <= CT_INVALID_ID32 ->
  exists p', drc_res_pool_init p size num true = Done (CT_SUCCESS, p') /\ pool_wf p' (seqZ 0 num) /\
    item_num p' = num /\ used_num p' = 0 /\ recycle_pos p' = 0 /\
    forall i, 0 <= i < num -> exists n, (addr p').[i] = Some (set_item_next n item_zero).
Proof.
  intros Hin Hsz Hnum. unfold drc_res_pool_init. rewrite Hin. destruct (Z.ltb_spec size block_header_size); [lia |]. cbn.
  unfold CT_INVALID_ID32 in *. rewrite u32_small by lia.
  set (items := replicate (Z.to_nat num) item_zero).
  assert (Hlen : Z.of_nat (length items) = num) by (unfold items; rewrite length_replicate; lia).
  destruct (link_spec (Z.to_nat (num - 1)) 0 items) as (items' & Hrun & Hlen' & Hc & _); [lia | lia | unfold CT_INVALID_ID32; lia |].
  rewrite Hrun. cbn. eexists. split; [done |]. cbn. replace (Z.of_nat (Z.to_nat (num - 1)) + 1) with num in Hc by lia.
  split_and!; try done.
  - constructor; cbn; try done; [lia | unfold CT_INVALID_ID32; lia | apply NoDup_seqZ | rewrite length_seqZ; lia].
  - intros i Hi. eapply link_items; [exact Hrun |]. apply lookupZ_Some. split; [lia |].
    unfold items. apply lookup_replicate. split; [done | lia].
Qed.

(** A new pool has every item free, exactly once, and every
    item zero except for its link. *)
Theorem pool_init_all_free p size num :
  inited p = false -> block_header_size <= size -> 0 < num <= CT_INVALID_ID32 ->
  exists p', drc_res_pool_init p size num true = Done (CT_SUCCESS, p') /\ pool_wf p' (seqZ 0 num) /\ used_num p' = 0 /\
    forall i, 0 <= i < num -> exists n, (addr p').[i] = Some (set_item_next n item_zero).
Proof.
  intros Hin Hsz Hnum. destruct (pool_init_spec p size num Hin Hsz Hnum) as (p' & ? & ? & _ & ? & _ & ?). by exists p'.
Qed.

(** Allocation takes the most recently freed item, marks
    no other item, and fails without effect exactly when no item is free;
    freeing the item restores the free items and the use count. *)
Theorem pool_alloc_free p fl :
  pool_wf p fl ->
  match fl with
  | [] => drc_res_pool_alloc_item p = Done (CT_INVALID_ID32, p)
  | i :: fl' => exists p1 p2, drc_res_pool_alloc_item p = Done (i, p1) /\ pool_wf p1 fl' /\ i ∉ fl' /\ addr p1 = addr p /\
      drc_res_pool_free_item p1 i = Done p2 /\ pool_wf p2 fl /\ used_num p2 = used_num p /\
      forall j, j <> i -> (addr p2).[j] = (addr p).[j]
  end.
Proof.
  intros Hwf. destruct fl as [| i fl']; [by apply alloc_item_nil |].
  destruct (alloc_item_cons p i fl' Hwf) as (p1 & Hrun & Hwf1 & Ha1 & Hn1 & _).
  pose proof (pw_nodup _ _ Hwf) as [Hi _]%NoDup_cons. destruct (pw_chain _ _ Hwf) as (_ & a & Ha & _).
  destruct (free_item_Done p1 fl' i a Hwf1) as (p2 & Hrun2 & Hwf2 & Ha2 & Hn2 & _); [by rewrite Ha1 | done |].
  exists p1, p2. split_and!; try done.
  - pose proof (pw_used _ _ Hwf). pose proof (pw_used _ _ Hwf2). lia.
  - intros j Hj. rewrite Ha2, Ha1. by apply lookupZ_insertZ_ne.
Qed.

(** C40: a batch allocation returns that many distinct free items,
    the ones single allocations would return, or fails without effect;
    freeing the batch makes them free again.  The bound on the pool keeps
    the check of the code from wrapping around. *)
Theorem pool_alloc_batch p fl num :
  pool_wf p fl -> item_num p < 2 ^ 31 -> 0 < num ->
  if decide (num <= Z.of_nat (length fl)) then
    let ids := take (Z.to_nat num) fl in
    exists p1 p2, drc_res_pool_alloc_batch_item p num = Done (CT_SUCCESS, ids, p1) /\ NoDup ids /\
      pool_wf p1 (drop (Z.to_nat num) fl) /\ addr p1 = addr p /\
      drc_res_pool_free_batch_item p1 ids = Done p2 /\ pool_wf p2 (reverse ids ++ drop (Z.to_nat num) fl) /\
      (forall j, j ∉ ids -> (addr p2).[j] = (addr p).[j])
  else drc_res_pool_alloc_batch_item p num = Done (CT_ERROR, [], p).
Proof.
  intros Hwf Hmax Hnum. pose proof (pw_used _ _ Hwf) as Hused. pose proof (pool_wf_fits _ _ Hwf) as Hfit.
  unfold drc_res_pool_alloc_batch_item. rewrite (pool_wf_inited _ _ Hwf).
  destruct (decide (num <= Z.of_nat (length fl))) as [Hle | Hgt].
  - destruct (Z.ltb_spec (item_num p) num); [lia |]. rewrite u32_small by lia.
    destruct (Z.ltb_spec (item_num p) (used_num p + num)); [lia |]. cbn [orb].
    destruct (Z.eqb_spec (free_list p) CT_INVALID_ID32) as [Hnil%(free_list_nil _ _ Hwf) |]; [subst fl; cbn in Hle; lia |].
    set (ids := take (Z.to_nat num) fl). set (fl' := drop (Z.to_nat num) fl).
    assert (Hsplit : fl = ids ++ fl') by (unfold ids, fl'; by rewrite take_drop).
    assert (Hlen : length ids = Z.to_nat num) by (unfold ids; rewrite length_take; lia).
    rewrite Hsplit in Hwf. destruct (alloc_batch_loop_spec p fl' ids [] Hwf) as (p1 & Hrun & Hwf1 & Ha1 & Hn1).
    rewrite <- Hlen, Hrun. cbn. pose proof (pw_nodup _ _ Hwf) as (Hnd & Hd & _)%NoDup_app.
    destruct (free_batch_loop_spec p1 fl' ids Hwf1 Hnd) as (p2 & Hrun2 & Hwf2 & Hn2 & Ha2).
    { intros i Hi. split; [by apply Hd |]. rewrite Hn1. eapply pool_wf_range; [done | set_solver]. }
    exists p1, p2. split_and!; try done.
    + unfold drc_res_pool_free_batch_item. rewrite (pool_wf_inited _ _ Hwf1).
      pose proof (pw_used _ _ Hwf1) as Hu1. pose proof (pw_used _ _ Hwf) as Hu. rewrite length_app in Hu.
      destruct (Z.ltb_spec (used_num p1) (Z.of_nat (length ids))); [| done]. lia.
    + intros j Hj. by rewrite Ha2, Ha1.
  - destruct (Z.ltb_spec (item_num p) num); [done |]. rewrite u32_small by lia.
    destruct (Z.ltb_spec (item_num p) (used_num p + num)); [done | lia].
Qed.

(** Freeing a batch checks [id > item_num], so the index just
    past the last item is accepted and the write is out of bounds. *)
Theorem pool_free_batch_past_end p fl :
  pool_wf p fl -> 0 < used_num p -> drc_res_pool_free_batch_item p [item_num p] = Crash OutOfBounds.
Proof.
  intros Hwf Hu. unfold drc_res_pool_free_batch_item. rewrite (pool_wf_inited _ _ Hwf). cbn [length].
  destruct (Z.ltb_spec (used_num p) (Z.of_nat 1)); [lia |]. cbn. rewrite Z.ltb_irrefl.
  unfold arr_get. destruct (lookupZ (addr p) (item_num p)) eqn:E; [| done].
  apply lookupZ_lt in E. pose proof (pw_len _ _ Hwf). lia.
Qed.
End pool.
