(* ===== verification/DrcList.v ===== *)
(** * Doubly linked partition lists (drc_list_t, drc_list_node_t)

    The resources of one partition are linked through a [node] field inside
    the resources themselves; links are item indices.  [list_rep] relates the
    head structure and the items to the sequence of indices it stands for;
    adding and deleting refine [cons] and removal on that sequence.
    Source: src/pkg/src/cluster/dtc_drc_util.[ch]. *)

From stdpp Require Import prelude list.
From S2P Require Import Prelude ResPool.

Open Scope Z_scope.
Open Scope drc_scope.

(** ** Data and operations *)

Record drc_list := mk_list { first : Z; last : Z; count : Z }.
Record drc_list_node := mk_node { prev : Z; nnext : Z; nidx : Z }.

Definition DRC_LIST_INIT : drc_list := mk_list CT_INVALID_ID32 CT_INVALID_ID32 0.

Definition node_set_prev (p : Z) (n : drc_list_node) := mk_node p (nnext n) (nidx n).
Definition node_set_next (x : Z) (n : drc_list_node) := mk_node (prev n) x (nidx n).

(** [head] is a pointer the code dereferences only when the list is not empty. *)
Definition drc_add_list_node (l : drc_list) (node : drc_list_node) (head : option drc_list_node)
    : outcome (drc_list * drc_list_node * option drc_list_node) :=
  if count l =? 0 then
    Done (mk_list (nidx node) (nidx node) (u32 (count l + 1)),
          mk_node CT_INVALID_ID32 CT_INVALID_ID32 (nidx node), head)
  else match head with
       | None => Crash OutOfBounds
       | Some h => Done (mk_list (nidx node) (last l) (u32 (count l + 1)),
                         mk_node CT_INVALID_ID32 (first l) (nidx node),
                         Some (node_set_prev (nidx node) h))
       end.

Definition drc_delete_list_node (l : drc_list) (del_node : drc_list_node)
    (prev_node next_node : option drc_list_node)
    : drc_list * option drc_list_node * option drc_list_node :=
  match prev_node, next_node with
  | Some p, Some n =>
      (mk_list (first l) (last l) (u32 (count l - 1)),
       Some (node_set_next (nnext del_node) p), Some (node_set_prev (prev del_node) n))
  | Some p, None =>
      (mk_list (first l) (nidx p) (u32 (count l - 1)), Some (node_set_next CT_INVALID_ID32 p), None)
  | None, Some n =>
      (mk_list (nnext del_node) (last l) (u32 (count l - 1)), None, Some (node_set_prev CT_INVALID_ID32 n))
  | None, None => (mk_list CT_INVALID_ID32 CT_INVALID_ID32 (u32 (count l - 1)), None, None)
  end.

(** ** Items that carry a list node *)

Class ListItem (A : Type) `{ResItem A} := {
  node_of : A -> drc_list_node;
  set_node : drc_list_node -> A -> A;
  node_of_set n a : node_of (set_node n a) = n;
  set_node_set n m a : set_node n (set_node m a) = set_node n a;
  set_node_id a : set_node (node_of a) a = a;
  item_next_set_node n a : item_next (set_node n a) = item_next a;
  node_of_set_next n a : node_of (set_item_next n a) = node_of a;
}.

Section pool_lists.
Context {A : Type} `{ListItem A}.
Implicit Types (items : list A).

(** A node the code reaches through an index, NULL for CT_INVALID_ID32. *)
Definition node_at items (i : Z) : outcome (option drc_list_node) :=
  if i =? CT_INVALID_ID32 then Done None
  else a ← arr_get items i; Done (Some (node_of a)).

Definition put_node items (i : Z) (n : option drc_list_node) : outcome (list A) :=
  match n with
  | None => Done items
  | Some n => a ← arr_get items i; arr_set items i (set_node n a)
  end.

(** The caller's side of [drc_add_list_node]: fetch the head of a non-empty
    list, link item [i] in front of it. *)
Definition part_list_add items (l : drc_list) (i : Z) : outcome (list A * drc_list) :=
  a ← arr_get items i;
  head ← (if count l =? 0 then Done None else h ← arr_get items (first l); Done (Some (node_of h)));
  '(l', n', head') ← drc_add_list_node l (node_of a) head;
  items ← put_node items (first l) head';
  items ← put_node items i (Some n');
  Done (items, l').

(** drc_clean_page_from_res_part: fetch the neighbours of item [i], unlink it. *)
Definition part_list_delete items (l : drc_list) (i : Z) : outcome (list A * drc_list) :=
  a ← arr_get items i;
  prev_node ← node_at items (prev (node_of a));
  next_node ← node_at items (nnext (node_of a));
  let '(l', p', n') := drc_delete_list_node l (node_of a) prev_node next_node in
  items ← put_node items (prev (node_of a)) p';
  items ← put_node items (nnext (node_of a)) n';
  Done (items, l').
End pool_lists.

(** ** Segments *)

Section segments.
Context {A : Type} `{ListItem A}.
Implicit Types (items : list A) (ids : list Z).

(** From [hd], whose predecessor is [p], the nodes [ids] lead to the last
    node [q], which is followed by [nx]. *)
Fixpoint dseg items (p hd : Z) ids (q nx : Z) : Prop :=
  match ids with
  | [] => hd = nx /\ p = q
  | i :: ids => hd = i /\ exists a, items.[i] = Some a /\ prev (node_of a) = p /\
                  nidx (node_of a) = i /\ dseg items i (nnext (node_of a)) ids q nx
  end.

Definition list_rep items (l : drc_list) ids : Prop :=
  dseg items CT_INVALID_ID32 (first l) ids (last l) CT_INVALID_ID32 /\
  count l = Z.of_nat (length ids).

Lemma dseg_app items p hd ids1 ids2 q nx :
  dseg items p hd (ids1 ++ ids2) q nx <->
  exists j jn, dseg items p hd ids1 j jn /\ dseg items j jn ids2 q nx.
Proof.
  revert p hd. induction ids1 as [| i ids1 IH]; intros p hd; cbn.
  - split; [eauto | naive_solver].
  - setoid_rewrite IH. naive_solver.
Qed.

Lemma dseg_lookup items p hd ids q nx i :
  dseg items p hd ids q nx -> i ∈ ids -> exists a, items.[i] = Some a /\ nidx (node_of a) = i.
Proof.
  revert p hd. induction ids as [| j ids IH]; cbn; intros p hd; [set_solver |].
  intros (-> & a & Ha & _ & Hi & Hs) [-> | Hin]%elem_of_cons; eauto.
Qed.

Lemma dseg_fits items p hd ids q nx :
  NoDup ids -> dseg items p hd ids q nx -> (length ids <= length items)%nat.
Proof.
  intros Hnd Hs. assert (Hle : (length ids <= length (seqZ 0 (Z.of_nat (length items))))%nat).
  { apply submseteq_length, NoDup_submseteq; [done |]. intros j Hj. apply elem_of_seqZ.
    destruct (dseg_lookup _ _ _ _ _ _ _ Hs Hj) as (b & Hb & _). apply lookupZ_lt in Hb. lia. }
  rewrite length_seqZ in Hle. lia.
Qed.

(** Only the nodes of the segment matter. *)
Lemma dseg_ext items items' p hd ids q nx :
  (forall i a, i ∈ ids -> items.[i] = Some a -> exists a', items'.[i] = Some a' /\ node_of a' = node_of a) ->
  dseg items p hd ids q nx -> dseg items' p hd ids q nx.
Proof.
  revert p hd. induction ids as [| i ids IH]; cbn; intros p hd Hext; [done |].
  intros (-> & a & Ha & Hp & Hi & Hs). split; [done |].
  destruct (Hext i a) as (a' & Ha' & Hn); [set_solver | done |].
  exists a'. rewrite Hn. split_and!; try done. apply IH; [| done]. intros; apply Hext; [set_solver | done].
Qed.

Lemma dseg_insert_ne items p hd ids q nx i a :
  i ∉ ids -> dseg items p hd ids q nx -> dseg (items.[i <- a]) p hd ids q nx.
Proof.
  intros Hi. apply dseg_ext. intros j b Hj Hb. exists b.
  rewrite lookupZ_insertZ_ne by set_solver. done.
Qed.

(** Redirecting the link out of, or the link back from, a segment. *)
Lemma dseg_set_next items p hd ids x q nx nx' a :
  NoDup (ids ++ [x]) -> items.[x] = Some a -> dseg items p hd (ids ++ [x]) q nx ->
  dseg (items.[x <- set_node (node_set_next nx' (node_of a)) a]) p hd (ids ++ [x]) q nx'.
Proof.
  intros Hnd Ha. pose proof (lookupZ_lt _ _ _ Ha). apply NoDup_app in Hnd as (_ & Hx & _).
  rewrite !dseg_app. intros (j & jn & Hs1 & Hs2). exists j, jn. split.
  - apply dseg_insert_ne; [| done]. intros Hin. apply (Hx x Hin). set_solver.
  - cbn in *. destruct Hs2 as (-> & b & Hb & Hp & Hi & Hnx & Hq). simplify_eq. split; [done |].
    eexists. rewrite lookupZ_insertZ_eq by done. split; [done |]. rewrite node_of_set. cbn. done.
Qed.

Lemma dseg_set_prev items p p' hd x ids q nx a :
  x ∉ ids -> items.[x] = Some a -> dseg items p hd (x :: ids) q nx ->
  dseg (items.[x <- set_node (node_set_prev p' (node_of a)) a]) p' hd (x :: ids) q nx.
Proof.
  intros Hx Ha. pose proof (lookupZ_lt _ _ _ Ha). cbn. intros (-> & b & Hb & Hp & Hi & Hs). simplify_eq.
  split; [done |]. eexists. rewrite lookupZ_insertZ_eq by done. split; [done |].
  rewrite node_of_set. cbn. split_and!; try done. by apply dseg_insert_ne.
Qed.

Lemma dseg_first items p hd x ids q nx : dseg items p hd (x :: ids) q nx -> hd = x.
Proof. cbn. naive_solver. Qed.

Lemma dseg_last items p hd ids x q nx :
  dseg items p hd (ids ++ [x]) q nx -> q = x /\ exists a, items.[x] = Some a /\ nnext (node_of a) = nx /\ nidx (node_of a) = x.
Proof. rewrite dseg_app. cbn. intros (j & jn & _ & -> & a & Ha & _ & Hi & Hn & Hq). eauto. Qed.

(** ** Refinement *)

Lemma put_node_eq items i n a :
  items.[i] = Some a -> put_node items i (Some n) = Done (items.[i <- set_node n a]).
Proof. intros Ha. cbn. rewrite (arr_get_eq _ _ _ Ha). cbn. by rewrite (arr_set_eq _ _ _ _ Ha). Qed.

Lemma node_at_eq items i a :
  items.[i] = Some a -> i <> CT_INVALID_ID32 -> node_at items i = Done (Some (node_of a)).
Proof.
  intros Ha Hi. unfold node_at. destruct (Z.eqb_spec i CT_INVALID_ID32); [done |].
  by rewrite (arr_get_eq _ _ _ Ha).
Qed.

(** What a list operation may do to the items: only nodes change, and only
    at the given indices. *)
Definition nodes_only items items' (touched : list Z) : Prop :=
  length items' = length items /\
  (forall j, j ∉ touched -> items'.[j] = items.[j]) /\
  (forall j a, items.[j] = Some a -> exists n, items'.[j] = Some (set_node n a)) .

Lemma nodes_only_put items i n a :
  items.[i] = Some a -> nodes_only items (items.[i <- set_node n a]) [i].
Proof.
  intros Ha. split; [apply length_insertZ |]. split.
  - intros j Hj. apply lookupZ_insertZ_ne. set_solver.
  - intros j b Hb. destruct (decide (i = j)) as [<- |].
    + simplify_eq. exists n. by rewrite lookupZ_insertZ_eq by (by eapply lookupZ_lt).
    + exists (node_of b). rewrite lookupZ_insertZ_ne by done. by rewrite Hb, set_node_id.
Qed.

Lemma nodes_only_trans items1 items2 items3 t1 t2 :
  nodes_only items1 items2 t1 -> nodes_only items2 items3 t2 -> nodes_only items1 items3 (t1 ++ t2).
Proof.
  intros (Hl1 & Hj1 & Hn1) (Hl2 & Hj2 & Hn2). split; [congruence |]. split.
  - intros j Hj. rewrite Hj2, Hj1 by set_solver. done.
  - intros j a Ha. destruct (Hn1 j a Ha) as [n Hn]. destruct (Hn2 j _ Hn) as [m Hm].
    exists m. by rewrite Hm, set_node_set.
Qed.

Lemma nodes_only_weaken items items' t t' :
  t ⊆ t' -> nodes_only items items' t -> nodes_only items items' t'.
Proof. intros Ht (Hl & Hj & Hn). split_and!; try done. intros j Hin. apply Hj. set_solver. Qed.

Lemma nodes_only_refl items : nodes_only items items [].
Proof.
  split_and!; try done. intros j a Ha. exists (node_of a). by rewrite set_node_id.
Qed.

Lemma part_list_add_spec items l ids i a :
  Z.of_nat (length items) <= CT_INVALID_ID32 ->
  list_rep items l ids -> NoDup ids -> i ∉ ids ->
  items.[i] = Some a -> nidx (node_of a) = i ->
  exists items' l', part_list_add items l i = Done (items', l') /\
    list_rep items' l' (i :: ids) /\ nodes_only items items' (i :: take 1 ids).
Proof.
  intros Hmax [Hs Hcnt] Hnd Hi Ha Hidx. pose proof (lookupZ_lt _ _ _ Ha) as Hlt.
  assert (Hlen : Z.of_nat (length ids) < CT_INVALID_ID32).
  { assert (Hle : (length (i :: ids) <= length (seqZ 0 (Z.of_nat (length items))))%nat).
    { apply submseteq_length, NoDup_submseteq; [by apply NoDup_cons |].
      intros j [-> | Hj]%elem_of_cons; apply elem_of_seqZ; [lia |].
      destruct (dseg_lookup _ _ _ _ _ _ _ Hs Hj) as (b & Hb & _). apply lookupZ_lt in Hb. lia. }
    rewrite length_seqZ in Hle. cbn in Hle. lia. }
  unfold part_list_add. rewrite (arr_get_eq _ _ _ Ha). cbn. unfold CT_INVALID_ID32 in Hlen.
  unfold drc_add_list_node. destruct ids as [| h ids]; cbn [length] in *.
  - rewrite Hcnt. change (Z.of_nat 0 =? 0) with true. cbn. rewrite (arr_get_eq _ _ _ Ha). cbn. rewrite (arr_set_eq _ _ _ _ Ha). cbn.
    eexists _, _. split; [done |]. split; [| by apply nodes_only_put].
    split; [| done]. cbn. rewrite Hidx. split; [done |]. eexists. rewrite lookupZ_insertZ_eq by done.
    split; [done |]. rewrite node_of_set. cbn. done.
  - destruct (Z.eqb_spec (count l) 0); [lia |].
    pose proof (dseg_first _ _ _ _ _ _ _ Hs) as Hf.
    assert (Hh : exists b, items.[h] = Some b) by (cbn in Hs; naive_solver). destruct Hh as [b Hb].
    rewrite Hf, (arr_get_eq _ _ _ Hb). cbn. rewrite (arr_get_eq _ _ _ Hb). cbn.
    rewrite (arr_set_eq _ _ _ _ Hb). cbn.
    set (items1 := items.[h <- set_node (node_set_prev (nidx (node_of a)) (node_of b)) b]).
    assert (Ha1 : items1.[i] = Some a) by (unfold items1; rewrite lookupZ_insertZ_ne; set_solver).
    rewrite (arr_get_eq _ _ _ Ha1). cbn. rewrite (arr_set_eq _ _ _ _ Ha1). cbn.
    eexists _, _. split; [done |]. split.
    + split; cbn [first last count]; [| rewrite u32_small by lia; cbn [length]; lia].
      cbn [dseg].
      rewrite Hidx. split; [done |]. eexists.
      rewrite lookupZ_insertZ_eq by (unfold items1; by rewrite length_insertZ). split; [done |].
      rewrite node_of_set. cbn. split; [done |]. split; [done |].
      assert (Hs1 : dseg items1 i h (h :: ids) (last l) CT_INVALID_ID32).
      { rewrite Hf in Hs. unfold items1. rewrite Hidx. eapply dseg_set_prev; [| done | done].
        by apply NoDup_cons in Hnd as [? _]. }
      apply (dseg_insert_ne _ _ _ (h :: ids)); [done |]. exact Hs1.
    + apply (nodes_only_weaken _ _ ([h] ++ [i])); [set_solver |].
      apply (nodes_only_trans _ items1); by apply nodes_only_put.
Qed.

(** The neighbours of a node inside a segment, as the code looks them up. *)
Lemma dseg_prev_node items p hd ids1 i ids2 q nx :
  dseg items p hd (ids1 ++ i :: ids2) q nx ->
  exists a, items.[i] = Some a /\ nidx (node_of a) = i /\
    prev (node_of a) = default p (list.last ids1) /\ nnext (node_of a) = default nx (head ids2).
Proof.
  rewrite dseg_app. intros (j & jn & Hs1 & Hs2). cbn in Hs2.
  destruct Hs2 as (-> & a & Ha & Hp & Hi & Hs2). exists a. split_and!; try done.
  - rewrite Hp. destruct ids1 as [| x ids1 _] using rev_ind; [cbn in Hs1; naive_solver |].
    rewrite last_snoc. cbn. by apply dseg_last in Hs1 as [-> _].
  - destruct ids2 as [| x ids2]; cbn in *; naive_solver.
Qed.

Lemma nodup_split (ids1 ids2 : list Z) i :
  NoDup (ids1 ++ i :: ids2) -> i ∉ ids1 /\ i ∉ ids2 /\ NoDup ids1 /\ NoDup ids2 /\
    (forall x, x ∈ ids1 -> x ∉ ids2).
Proof.
  intros (Hn1 & Hd & Hn2)%NoDup_app. apply NoDup_cons in Hn2 as [Hi Hn2]. split_and!; try done.
  - intros Hin. apply (Hd i Hin). set_solver.
  - intros x Hx Hx2. apply (Hd x Hx). set_solver.
Qed.

Lemma count_pred_eq (ids : list Z) (n : Z) :
  n = Z.of_nat (length ids) + 1 -> n <= CT_INVALID_ID32 -> u32 (n - 1) = Z.of_nat (length ids).
Proof. unfold CT_INVALID_ID32. intros -> Hn. rewrite u32_small; lia. Qed.

(** The four shapes of a deletion, one per branch of [drc_delete_list_node]. *)
Section delete.
Context (items : list A) (l : drc_list) (i : Z) (a : A).
Hypothesis Hmax : Z.of_nat (length items) <= CT_INVALID_ID32.
Hypothesis Ha : items.[i] = Some a.

Local Ltac start_delete Hs :=
  let Ha' := fresh "Ha" in let Hi := fresh "Hidx" in let Hp := fresh "Hprev" in let Hn := fresh "Hnext" in
  pose proof (dseg_prev_node _ _ _ _ _ _ _ _ Hs) as (? & Ha' & Hi & Hp & Hn);
  rewrite Ha in Ha'; injection Ha' as <-;
  unfold part_list_delete; rewrite (arr_get_eq _ _ _ Ha); cbn [mbind outcome_bind].

Lemma delete_only :
  list_rep items l [i] ->
  part_list_delete items l i = Done (items, mk_list CT_INVALID_ID32 CT_INVALID_ID32 0).
Proof.
  intros [Hs Hcnt]. start_delete (Hs : dseg _ _ _ ([] ++ i :: []) _ _). cbn in Hprev, Hnext.
  rewrite Hprev, Hnext. cbn. rewrite Hcnt. done.
Qed.

Lemma delete_last ids1 x b :
  list_rep items l ((ids1 ++ [x]) ++ [i]) -> NoDup ((ids1 ++ [x]) ++ [i]) -> items.[x] = Some b ->
  exists l', part_list_delete items l i = Done (items.[x <- set_node (node_set_next CT_INVALID_ID32 (node_of b)) b], l') /\
    list_rep (items.[x <- set_node (node_set_next CT_INVALID_ID32 (node_of b)) b]) l' (ids1 ++ [x]).
Proof.
  intros [Hs Hcnt] Hnd Hb. pose proof (dseg_fits _ _ _ _ _ _ Hnd Hs) as Hfit.
  start_delete Hs. rewrite last_snoc in Hprev. cbn in Hprev, Hnext.
  pose proof (lookupZ_lt _ _ _ Hb). rewrite Hprev, Hnext, (node_at_eq _ _ _ Hb) by lia. cbn [mbind outcome_bind].
  unfold drc_delete_list_node. cbn. rewrite (arr_get_eq _ _ _ Hb). cbn. rewrite (arr_set_eq _ _ _ _ Hb). cbn.
  eexists. split; [done |]. apply dseg_app in Hs as (j & jn & Hs1 & Hs2).
  pose proof (dseg_last _ _ _ _ _ _ _ Hs1) as [Hj (b' & Hb' & _ & Hx)]. subst j. rewrite Hb in Hb'. simplify_eq.
  split; cbn [first last count]; [| rewrite Hcnt; apply count_pred_eq; rewrite !length_app in *; cbn in *; lia].
  rewrite Hx. eapply dseg_set_next; [| done | done]. by apply NoDup_app in Hnd as [? _].
Qed.

Lemma delete_first y ids2 b :
  list_rep items l (i :: y :: ids2) -> NoDup (i :: y :: ids2) -> items.[y] = Some b ->
  exists l', part_list_delete items l i = Done (items.[y <- set_node (node_set_prev CT_INVALID_ID32 (node_of b)) b], l') /\
    list_rep (items.[y <- set_node (node_set_prev CT_INVALID_ID32 (node_of b)) b]) l' (y :: ids2).
Proof.
  intros [Hs Hcnt] Hnd Hb. pose proof (dseg_fits _ _ _ _ _ _ Hnd Hs) as Hfit.
  start_delete (Hs : dseg _ _ _ ([] ++ i :: y :: ids2) _ _). cbn in Hprev, Hnext.
  pose proof (lookupZ_lt _ _ _ Hb). rewrite Hprev, Hnext, (node_at_eq _ _ _ Hb) by lia.
  unfold drc_delete_list_node. cbn. rewrite (arr_get_eq _ _ _ Hb). cbn. rewrite (arr_set_eq _ _ _ _ Hb). cbn.
  eexists. split; [done |]. apply NoDup_cons in Hnd as [Hi Hnd]. apply NoDup_cons in Hnd as [Hy Hnd].
  split; cbn [first last count]; [| rewrite Hcnt; apply (count_pred_eq (y :: ids2)); cbn in *; lia].
  cbn [dseg] in Hs. destruct Hs as (_ & a' & Ha'' & _ & _ & Hs). rewrite Ha in Ha''. injection Ha'' as <-.
  rewrite Hnext in *. eapply dseg_set_prev; [done | done |]. exact Hs.
Qed.

Lemma delete_mid ids1 x y ids2 b c :
  list_rep items l ((ids1 ++ [x]) ++ i :: y :: ids2) -> NoDup ((ids1 ++ [x]) ++ i :: y :: ids2) ->
  items.[x] = Some b -> items.[y] = Some c ->
  let items' := (items.[x <- set_node (node_set_next y (node_of b)) b]).[y <- set_node (node_set_prev x (node_of c)) c] in
  exists l', part_list_delete items l i = Done (items', l') /\
    list_rep items' l' ((ids1 ++ [x]) ++ y :: ids2) /\ x <> y.
Proof.
  intros [Hs Hcnt] Hnd Hb Hc. pose proof (dseg_fits _ _ _ _ _ _ Hnd Hs) as Hfit.
  start_delete Hs. rewrite last_snoc in Hprev. cbn in Hprev, Hnext.
  pose proof (lookupZ_lt _ _ _ Hb). pose proof (lookupZ_lt _ _ _ Hc).
  apply nodup_split in Hnd as (Hi1 & Hi2 & Hnd1 & Hnd2 & Hd). apply NoDup_cons in Hnd2 as [Hy Hnd2].
  assert (Hxy : x <> y) by (intros ->; apply (Hd y); set_solver).
  rewrite Hprev, Hnext, (node_at_eq _ _ _ Hb), (node_at_eq _ _ _ Hc) by lia.
  unfold drc_delete_list_node. cbn. rewrite (arr_get_eq _ _ _ Hb). cbn. rewrite (arr_set_eq _ _ _ _ Hb). cbn.
  rewrite Hnext, Hprev.
  set (items1 := items.[x <- set_node (node_set_next y (node_of b)) b]).
  assert (Hc1 : items1.[y] = Some c) by (unfold items1; by rewrite lookupZ_insertZ_ne).
  rewrite (arr_get_eq _ _ _ Hc1). cbn. rewrite (arr_set_eq _ _ _ _ Hc1). cbn.
  eexists. split; [done |]. split; [| done].
  split; cbn [first last count];
    [| rewrite Hcnt; apply count_pred_eq; rewrite ?length_app in *; cbn in *; rewrite ?length_app in *; cbn in *; lia].
  apply dseg_app in Hs as (j & jn & Hs1 & Hs2). cbn [dseg] in Hs2.
  destruct Hs2 as (-> & a' & Ha'' & _ & _ & Hs2). rewrite Ha in Ha''. injection Ha'' as <-. rewrite Hnext in Hs2.
  pose proof (dseg_last _ _ _ _ _ _ _ Hs1) as [Hj _]. subst j. apply dseg_app. exists x, y. split.
  - apply dseg_insert_ne; [intros ?; apply (Hd y); set_solver |]. by eapply dseg_set_next.
  - eapply dseg_set_prev; [done | done |]. apply (dseg_insert_ne _ _ _ (y :: ids2)); [| exact Hs2].
    apply Hd. set_solver.
Qed.
End delete.

Lemma part_list_delete_spec items l ids1 i ids2 :
  Z.of_nat (length items) <= CT_INVALID_ID32 ->
  list_rep items l (ids1 ++ i :: ids2) -> NoDup (ids1 ++ i :: ids2) ->
  exists items' l', part_list_delete items l i = Done (items', l') /\
    list_rep items' l' (ids1 ++ ids2) /\ nodes_only items items' (ids1 ++ ids2).
Proof.
  intros Hmax Hrep Hnd. pose proof Hrep as [Hs Hcnt].
  assert (Hin : forall j, j ∈ ids1 ++ i :: ids2 -> exists b, items.[j] = Some b).
  { intros j Hj. destruct (dseg_lookup _ _ _ _ _ _ _ Hs Hj) as (b & Hb & _). eauto. }
  destruct (Hin i) as [a Ha]; [set_solver |].
  destruct ids1 as [| x ids1 _] using rev_ind; destruct ids2 as [| y ids2].
  - exists items. eexists. rewrite (delete_only _ _ _ _ Ha Hrep). split; [done |].
    split; [done | apply nodes_only_refl].
  - destruct (Hin y) as [b Hb]; [set_solver |].
    destruct (delete_first _ _ _ _ Hmax Ha _ _ _ Hrep Hnd Hb) as (l' & Hrun & Hrep').
    eexists _, l'. split; [done |]. split; [done |].
    eapply nodes_only_weaken; [| by apply nodes_only_put]. set_solver.
  - destruct (Hin x) as [b Hb]; [set_solver |].
    destruct (delete_last _ _ _ _ Hmax Ha _ _ _ Hrep Hnd Hb) as (l' & Hrun & Hrep').
    eexists _, l'. rewrite app_nil_r. split; [done |]. split; [done |].
    eapply nodes_only_weaken; [| by apply nodes_only_put]. set_solver.
  - destruct (Hin x) as [b Hb]; [set_solver |]. destruct (Hin y) as [c Hc]; [set_solver |].
    destruct (delete_mid _ _ _ _ Hmax Ha _ _ _ _ _ _ Hrep Hnd Hb Hc) as (l' & Hrun & Hrep' & Hxy).
    eexists _, l'. split; [done |]. split; [done |].
    eapply nodes_only_weaken; [| eapply nodes_only_trans; apply nodes_only_put; [done |]].
    + set_solver.
    + by rewrite lookupZ_insertZ_ne.
Qed.

(** *** Framing: what an operation on one list leaves alone *)

Lemma list_rep_frame items items' l ids touched :
  nodes_only items items' touched -> (forall i, i ∈ ids -> i ∉ touched) ->
  list_rep items l ids -> list_rep items' l ids.
Proof.
  intros (_ & Hj & _) Hd [Hs Hc]. split; [| done]. eapply dseg_ext; [| done].
  intros i a Hi Ha. exists a. rewrite Hj by auto. done.
Qed.

Lemma list_rep_ext items items' l ids :
  (forall i a, i ∈ ids -> items.[i] = Some a -> exists a', items'.[i] = Some a' /\ node_of a' = node_of a) ->
  list_rep items l ids -> list_rep items' l ids.
Proof. intros He [Hs Hc]. split; [| done]. by eapply dseg_ext. Qed.

Lemma chain_nodes_only items items' hd ids touched :
  nodes_only items items' touched -> chain items hd ids -> chain items' hd ids.
Proof.
  intros (_ & _ & Hn). revert hd. induction ids as [| i ids IH]; cbn; intros hd; [done |].
  intros (-> & a & Ha & Hc). split; [done |]. destruct (Hn i a Ha) as [n Hn'].
  eexists. split; [done |]. rewrite item_next_set_node. auto.
Qed.
End segments.
