(* ===== verification/ResMap.v ===== *)
(** * Resource hash maps (drc_res_map_t)

    A map is an array of buckets over a resource pool; the items of a bucket
    are chained through their first field.  [map_wf] describes the whole
    structure with the sequences it stands for: the free items, the items a
    thread has allocated but not (or no longer) linked, and the items of each
    bucket.  Against it, lookup, add and remove behave as on a finite map.
    Source: src/pkg/src/cluster/dtc_drc_util.[ch]. *)

From stdpp Require Import prelude list.
From S2P Require Import Prelude ResPool.

Open Scope Z_scope.
Open Scope drc_scope.

(** ** Keys *)

(** What the comparison callback and the bucket hash promise to the map. *)
Class ResKey (A K : Type) `{ResItem A} := {
  key_of : A -> K;
  is_same_res : K -> A -> bool;
  bucket_hash : K -> Z -> Z;
  is_same_res_spec k a : is_same_res k a = true <-> key_of a = k;
  bucket_hash_range k n : 0 < n -> 0 <= bucket_hash k n < n;
  key_of_set_next n a : key_of (set_item_next n a) = key_of a;
}.

(** ** Data and operations *)

Record drc_res_bucket := mk_bucket { bcount : Z; bfirst : Z }.

Record drc_res_map (A : Type) := mk_map {
  map_inited : bool;
  res_pool : drc_res_pool A;
  bucket_num : Z;
  buckets : list drc_res_bucket;
}.
Arguments mk_map {A}.
Arguments map_inited {A}.
Arguments res_pool {A}.
Arguments bucket_num {A}.
Arguments buckets {A}.

Definition map_set_pool {A} (m : drc_res_map A) (p : drc_res_pool A) : drc_res_map A :=
  mk_map (map_inited m) p (bucket_num m) (buckets m).

Definition map_set_buckets {A} (m : drc_res_map A) (bs : list drc_res_bucket) : drc_res_map A :=
  mk_map (map_inited m) (res_pool m) (bucket_num m) bs.

(** The bucket array and the items of a map, the two things the operations touch. *)
Abbreviation map_items m := (addr (res_pool m)).

Section operations.
Context {A K : Type} `{ResKey A K}.
Implicit Types (m : drc_res_map A) (items : list A).

Definition drc_res_map_init m (pool_size size : Z) (malloc_ok pool_malloc_ok : bool)
    : outcome (status_t * drc_res_map A) :=
  if map_inited m then Done (CT_ERROR, m)
  else let bnum := u32 (pool_size * 2 + 1) in
       if negb malloc_ok then Done (CT_ERROR, mk_map false (res_pool m) bnum [])
       else '(ret, pool) ← drc_res_pool_init (res_pool m) size pool_size pool_malloc_ok;
            match (ret : status_t) with
            | CT_ERROR => Done (CT_ERROR, mk_map false pool bnum [])
            | CT_SUCCESS => Done (CT_SUCCESS, mk_map true pool bnum (replicate (Z.to_nat bnum) (mk_bucket 0 0)))
            end.

Definition drc_res_map_destroy m : drc_res_map A :=
  if negb (map_inited m) then m
  else mk_map false (drc_res_pool_destroy (res_pool m)) 0 [].

(** drc_get_buf_map_bucket / drc_get_res_map_bucket: the index of the bucket of a key *)
Definition drc_get_map_bucket m (k : K) : Z := bucket_hash k (bucket_num m).

Definition drc_res_map_add (b : drc_res_bucket) (add_idx : Z) : drc_res_bucket * Z :=
  let next := if bcount b =? 0 then CT_INVALID_ID32 else bfirst b in
  (mk_bucket (u32 (bcount b + 1)) add_idx, next).

Fixpoint lookup_loop (n : nat) (idx : Z) items (k : K) : outcome (option Z) :=
  match n with
  | O => Done None
  | S n => res ← arr_get items idx;
           if is_same_res k res then Done (Some idx) else lookup_loop n (item_next res) items k
  end.

(** [None] is NULL; [Some i] the address of item [i]. *)
Definition drc_res_map_lookup items (b : drc_res_bucket) (k : K) : outcome (option Z) :=
  if bcount b =? 0 then Done None else lookup_loop (Z.to_nat (bcount b)) (bfirst b) items k.

Fixpoint remove_loop (n : nat) (pre_res : option Z) (idx : Z) items (b : drc_res_bucket) (k : K)
    : outcome (list A * drc_res_bucket) :=
  match n with
  | O => Done (items, b)
  | S n =>
      res ← arr_get items idx;
      if is_same_res k res then
        match pre_res with
        | None => Done (items, mk_bucket (u32 (bcount b - 1)) (item_next res))
        | Some j => pre ← arr_get items j;
                    items ← arr_set items j (set_item_next (item_next res) pre);
                    Done (items, mk_bucket (u32 (bcount b - 1)) (bfirst b))
        end
      else remove_loop n (Some idx) (item_next res) items b k
  end.

Definition drc_res_map_remove items (b : drc_res_bucket) (k : K) : outcome (list A * drc_res_bucket) :=
  if bcount b =? 0 then Done (items, b)
  else remove_loop (Z.to_nat (bcount b)) None (bfirst b) items b k.

(** The callers' composition: pick the bucket of the key, run the operation on it. *)
Definition map_lookup m (k : K) : outcome (option Z) :=
  b ← arr_get (buckets m) (drc_get_map_bucket m k);
  drc_res_map_lookup (map_items m) b k.

Definition map_add m (k : K) (add_idx : Z) : outcome (drc_res_map A) :=
  b ← arr_get (buckets m) (drc_get_map_bucket m k);
  res ← arr_get (map_items m) add_idx;
  let '(b', next) := drc_res_map_add b add_idx in
  items ← arr_set (map_items m) add_idx (set_item_next next res);
  bs ← arr_set (buckets m) (drc_get_map_bucket m k) b';
  Done (map_set_buckets (map_set_pool m (pool_set_addr (res_pool m) items)) bs).

Definition map_remove m (k : K) : outcome (drc_res_map A) :=
  b ← arr_get (buckets m) (drc_get_map_bucket m k);
  '(items, b') ← drc_res_map_remove (map_items m) b k;
  bs ← arr_set (buckets m) (drc_get_map_bucket m k) b';
  Done (map_set_buckets (map_set_pool m (pool_set_addr (res_pool m) items)) bs).
End operations.

(** ** Buckets as sequences *)

Section bucket_facts.
Context {A K : Type} `{ResKey A K}.
Implicit Types (items : list A) (ids : list Z) (b : drc_res_bucket).

Definition bucket_rep items b ids : Prop :=
  bcount b = Z.of_nat (length ids) /\ (ids <> [] -> chain items (bfirst b) ids).

(** No item of [ids] has key [k]. *)
Definition absent items ids (k : K) : Prop :=
  forall i a, i ∈ ids -> items.[i] = Some a -> is_same_res k a = false.

Lemma lookup_loop_spec items hd ids k :
  chain items hd ids ->
  exists r, lookup_loop (length ids) hd items k = Done r /\
    match r with
    | Some i => exists a, i ∈ ids /\ items.[i] = Some a /\ key_of a = k
    | None => absent items ids k
    end.
Proof.
  revert hd. induction ids as [| i ids IH]; cbn; intros hd.
  - intros _. exists None. split; [done |]. intros j a Hj. by apply elem_of_nil in Hj.
  - intros (-> & a & Ha & Hc). rewrite (arr_get_eq _ _ _ Ha). cbn.
    destruct (is_same_res k a) eqn:Hk.
    + exists (Some i). split; [done |]. exists a. rewrite is_same_res_spec in Hk. set_solver.
    + destruct (IH _ Hc) as (r & -> & Hr). exists r. split; [done |]. destruct r as [j |].
      * destruct Hr as (b & Hj & Hb). exists b. set_solver.
      * intros j b [-> | Hj]%elem_of_cons Hb; [by simplify_eq | by eapply Hr].
Qed.

Lemma bucket_lookup_spec items b ids k :
  bucket_rep items b ids ->
  exists r, drc_res_map_lookup items b k = Done r /\
    match r with
    | Some i => exists a, i ∈ ids /\ items.[i] = Some a /\ key_of a = k
    | None => absent items ids k
    end.
Proof.
  intros [Hc Hch]. unfold drc_res_map_lookup. destruct (Z.eqb_spec (bcount b) 0) as [Hz | Hz].
  - exists None. split; [done |]. destruct ids; [| cbn in *; lia]. intros i a Hi. by apply elem_of_nil in Hi.
  - rewrite Hc, Nat2Z.id. apply lookup_loop_spec, Hch. intros ->. done.
Qed.

(** Only the links of the bucket's own items change on removal. *)
Definition links_only items items' (touched : list Z) : Prop :=
  length items' = length items /\
  (forall j, j ∉ touched -> items'.[j] = items.[j]) /\
  (forall j a, items.[j] = Some a -> exists n, items'.[j] = Some (set_item_next n a)).

Lemma links_only_refl items t : links_only items items t.
Proof. split_and!; try done. intros j a Ha. exists (item_next a). by rewrite set_item_next_id. Qed.

Lemma links_only_put items i n a t :
  items.[i] = Some a -> i ∈ t -> links_only items (items.[i <- set_item_next n a]) t.
Proof.
  intros Ha Ht. split; [apply length_insertZ |]. split.
  - intros j Hj. apply lookupZ_insertZ_ne. set_solver.
  - intros j b Hb. destruct (decide (i = j)) as [<- |].
    + simplify_eq. exists n. by rewrite lookupZ_insertZ_eq by (by eapply lookupZ_lt).
    + exists (item_next b). rewrite lookupZ_insertZ_ne by done. by rewrite Hb, set_item_next_id.
Qed.

(** Unlinking [i] that follows the segment [pre ++ [j]]. *)
Lemma chain_unlink items hd pre j i post aj ai :
  chain items hd ((pre ++ [j]) ++ i :: post) -> NoDup ((pre ++ [j]) ++ i :: post) ->
  items.[j] = Some aj -> items.[i] = Some ai ->
  chain (items.[j <- set_item_next (item_next ai) aj]) hd ((pre ++ [j]) ++ post).
Proof.
  intros Hc Hnd Hj Hi. revert hd Hc. induction pre as [| x pre IH]; cbn in *; intros hd.
  - intros (-> & a & Ha & Hn & b & Hb & Hc). simplify_eq. split; [done |]. eexists.
    rewrite lookupZ_insertZ_eq by (by eapply lookupZ_lt). split; [done |]. rewrite item_next_set.
    apply chain_insert_ne; [| done]. apply NoDup_cons in Hnd. set_solver.
  - apply NoDup_cons in Hnd as [Hx Hnd]. intros (-> & a & Ha & Hc). split; [done |]. exists a.
    rewrite lookupZ_insertZ_ne by set_solver. split; [done |]. by apply IH.
Qed.

Lemma remove_loop_spec items b hd pre i post a k :
  (exists whole, chain items (bfirst b) whole /\ whole = pre ++ i :: post) ->
  forall done_ rest, pre = done_ ++ rest -> chain items hd (rest ++ i :: post) ->
  NoDup (pre ++ i :: post) -> absent items pre k -> items.[i] = Some a -> key_of a = k ->
  exists items' b', remove_loop (length rest + S (length post)) (list.last done_) hd items b k = Done (items', b') /\
    bcount b' = u32 (bcount b - 1) /\ chain items' (bfirst b') (pre ++ post) /\ links_only items items' pre.
Proof.
  intros (whole & Hwhole & ->) done_ rest. revert done_ hd.
  induction rest as [| x rest IH]; intros done_ hd -> Hc Hnd Habs Ha Hk; cbn in Hc.
  - destruct Hc as (-> & a' & Ha' & Hc). rewrite Ha in Ha'. injection Ha' as <-.
    cbn [length Nat.add remove_loop]. rewrite (arr_get_eq _ _ _ Ha). cbn.
    rewrite (proj2 (is_same_res_spec k a) Hk). rewrite app_nil_r in *.
    destruct done_ as [| j done_ _] using rev_ind.
    + cbn. eexists _, _. split; [done |]. cbn. split_and!; [done | done | apply links_only_refl].
    + rewrite last_snoc. destruct (chain_lookup _ _ _ j Hwhole) as [aj Haj]; [set_solver |].
      rewrite (arr_get_eq _ _ _ Haj). cbn. rewrite (arr_set_eq _ _ _ _ Haj). cbn.
      eexists _, _. split; [done |]. cbn. split_and!; [done | by eapply chain_unlink |].
      apply links_only_put; [done | set_solver].
  - destruct Hc as (-> & ax & Hax & Hc). cbn [length Nat.add remove_loop].
    rewrite (arr_get_eq _ _ _ Hax). cbn. rewrite (Habs x ax) by (done || set_solver).
    replace (Some x) with (list.last (done_ ++ [x])) by apply last_snoc.
    edestruct (IH (done_ ++ [x])) as (items' & b' & Hrun & Hres); try done.
    { by rewrite <- (assoc_L (++)). }
    exists items', b'. rewrite last_snoc in *. by rewrite Hrun.
Qed.

Lemma bucket_remove_spec items b pre i post a k :
  bucket_rep items b (pre ++ i :: post) -> NoDup (pre ++ i :: post) ->
  absent items pre k -> items.[i] = Some a -> key_of a = k ->
  Z.of_nat (length (pre ++ i :: post)) <= CT_INVALID_ID32 ->
  exists items' b', drc_res_map_remove items b k = Done (items', b') /\
    bucket_rep items' b' (pre ++ post) /\ links_only items items' pre.
Proof.
  intros [Hcnt Hch] Hnd Habs Ha Hk Hlen. unfold drc_res_map_remove.
  assert (Hc : chain items (bfirst b) (pre ++ i :: post)) by (apply Hch; by destruct pre).
  rewrite length_app in *. cbn in *. destruct (Z.eqb_spec (bcount b) 0); [lia |].
  destruct (remove_loop_spec items b (bfirst b) pre i post a k) with (done_ := @nil Z) (rest := pre)
    as (items' & b' & Hrun & Hc' & Hch' & Hl); try done.
  { by eexists. }
  exists items', b'. cbn in Hrun. rewrite Hcnt, Nat2Z.id, Hrun. split; [done |]. split; [| done].
  split; [| done]. rewrite Hc', Hcnt, length_app. unfold CT_INVALID_ID32 in *. rewrite u32_small; lia.
Qed.
End bucket_facts.

(** ** The whole map *)

(** [fl]: free items; [held]: items taken from the pool and not linked;
    [bl]: the items of each bucket. *)
Record map_wf {A K} `{ResKey A K} (m : drc_res_map A) (fl held : list Z) (bl : list (list Z)) : Prop := mk_map_wf {
  mw_pool : pool_wf (res_pool m) fl;
  mw_bnum : 0 < bucket_num m;
  mw_blen : Z.of_nat (length (buckets m)) = bucket_num m;
  mw_bllen : length bl = length (buckets m);
  mw_rep : forall h b ids, (buckets m).[h] = Some b -> bl.[h] = Some ids -> bucket_rep (map_items m) b ids;
  mw_perm : fl ++ held ++ concat bl ≡ₚ seqZ 0 (item_num (res_pool m));
  mw_hash : forall h ids i a, bl.[h] = Some ids -> i ∈ ids -> (map_items m).[i] = Some a ->
              drc_get_map_bucket (K := K) m (key_of a) = h;
  mw_keys : forall i j a b, i ∈ concat bl -> j ∈ concat bl ->
              (map_items m).[i] = Some a -> (map_items m).[j] = Some b -> key_of (K := K) a = key_of b -> i = j;
}.

Section map_facts.
Context {A K : Type} `{ResKey A K}.
Implicit Types (m : drc_res_map A) (fl held ids : list Z) (bl : list (list Z)).

Abbreviation map_wf := (map_wf (K := K)).

Lemma elem_of_concat (x : Z) (ls : list (list Z)) :
  x ∈ concat ls <-> exists h ids, ls.[h] = Some ids /\ x ∈ ids.
Proof.
  rewrite list_elem_of_In, in_concat. split.
  - intros (ids & Hin%list_elem_of_In%list_elem_of_lookup & Hx). destruct Hin as [n Hn].
    exists (Z.of_nat n), ids. rewrite lookupZ_Some, Nat2Z.id, list_elem_of_In. split_and!; [lia | done | done].
  - intros (h & ids & [_ Hl]%lookupZ_Some & Hx). exists ids. rewrite <- !list_elem_of_In.
    split; [| done]. apply list_elem_of_lookup. eauto.
Qed.

Lemma chain_ext (items items' : list A) hd ids :
  (forall i a, i ∈ ids -> items.[i] = Some a -> exists a', items'.[i] = Some a' /\ item_next a' = item_next a) ->
  chain items hd ids -> chain items' hd ids.
Proof.
  revert hd. induction ids as [| i ids IH]; cbn; intros hd He; [done |].
  intros (-> & a & Ha & Hc). split; [done |]. destruct (He i a) as (a' & Ha' & Hn); [set_solver | done |].
  exists a'. rewrite Hn. split; [done |]. apply IH; [| done]. intros; apply He; [set_solver | done].
Qed.

Section one.
Context {m : drc_res_map A} {fl held : list Z} {bl : list (list Z)}.
Hypothesis Hwf : map_wf m fl held bl.

Lemma mw_item_range i : i ∈ fl ++ held ++ concat bl <-> 0 <= i < item_num (res_pool m).
Proof. rewrite (mw_perm _ _ _ _ Hwf), elem_of_seqZ. lia. Qed.

Lemma mw_item i : i ∈ fl ++ held ++ concat bl -> exists a, (map_items m).[i] = Some a.
Proof.
  intros Hi%mw_item_range. apply lookupZ_is_Some. by rewrite (pw_len _ _ (mw_pool _ _ _ _ Hwf)).
Qed.

Lemma mw_nodup : NoDup (fl ++ held ++ concat bl).
Proof. rewrite (mw_perm _ _ _ _ Hwf). apply NoDup_seqZ. Qed.

Lemma mw_bucket k : exists b ids,
  (buckets m).[drc_get_map_bucket m k] = Some b /\ bl.[drc_get_map_bucket m k] = Some ids /\
  bucket_rep (map_items m) b ids.
Proof.
  pose proof (bucket_hash_range k _ (mw_bnum _ _ _ _ Hwf)) as Hr. fold (drc_get_map_bucket m k) in Hr.
  rewrite <- (mw_blen _ _ _ _ Hwf) in Hr.
  destruct (lookupZ_is_Some (buckets m) (drc_get_map_bucket m k) Hr) as [b Hb].
  rewrite <- (mw_bllen _ _ _ _ Hwf) in Hr.
  destruct (lookupZ_is_Some bl (drc_get_map_bucket m k) Hr) as [ids Hids].
  exists b, ids. split_and!; try done. by eapply mw_rep.
Qed.

(** The lookup finds the linked item with the key, if there is one. *)
Lemma map_lookup_spec k :
  exists r, map_lookup m k = Done r /\
    match r with
    | Some i => i ∈ concat bl /\ exists a, (map_items m).[i] = Some a /\ key_of a = k
    | None => forall i a, i ∈ concat bl -> (map_items m).[i] = Some a -> key_of a <> k
    end.
Proof.
  destruct (mw_bucket k) as (b & ids & Hb & Hids & Hrep). unfold map_lookup.
  rewrite (arr_get_eq _ _ _ Hb). cbn.
  destruct (bucket_lookup_spec (map_items m) b ids k Hrep) as (r & -> & Hr). exists r. split; [done |].
  destruct r as [i |].
  - destruct Hr as (a & Hi & Ha & Hk). split; [| eauto]. apply elem_of_concat. eauto.
  - intros i a (h & ids' & Hids' & Hi)%elem_of_concat Ha Hk.
    assert (h = drc_get_map_bucket m k) as -> by (rewrite <- Hk; symmetry; by eapply mw_hash).
    simplify_eq. specialize (Hr i a Hi Ha). by rewrite (proj2 (is_same_res_spec _ a) eq_refl) in Hr.
Qed.

Lemma map_lookup_Some k i a :
  i ∈ concat bl -> (map_items m).[i] = Some a -> key_of a = k -> map_lookup m k = Done (Some i).
Proof.
  intros Hi Ha Hk. destruct (map_lookup_spec k) as ([j |] & Hrun & Hr).
  - rewrite Hrun. do 2 f_equal. destruct Hr as (Hj & b & Hb & Hk').
    eapply (mw_keys _ _ _ _ Hwf); eauto. congruence.
  - by destruct (Hr i a Hi Ha).
Qed.

(** Any change of items that keeps link and key of the items not held. *)
Lemma map_wf_change (items' : list A) :
  length items' = length (map_items m) ->
  (forall j a, j ∉ held -> (map_items m).[j] = Some a ->
     exists a', items'.[j] = Some a' /\ item_next a' = item_next a /\ key_of (K := K) a' = key_of a) ->
  map_wf (map_set_pool m (pool_set_addr (res_pool m) items')) fl held bl.
Proof.
  intros Hlen Hch. pose proof mw_nodup as Hnd.
  assert (Hheld : forall j, j ∈ concat bl -> j ∉ held).
  { intros j Hj Hh. apply NoDup_app in Hnd as (_ & _ & Hnd). apply NoDup_app in Hnd as (_ & Hd & _).
    by apply (Hd j). }
  assert (Hback : forall j a', j ∈ concat bl -> items'.[j] = Some a' ->
            exists a, (map_items m).[j] = Some a /\ key_of (K := K) a = key_of a').
  { intros j a' Hj Ha'. destruct (mw_item j) as [a Ha]; [set_solver |].
    destruct (Hch j a (Hheld j Hj) Ha) as (a'' & Ha'' & _ & Hk). simplify_eq. eauto. }
  destruct Hwf as [Hp Hbn Hbl Hbll Hrep Hperm Hhash Hkeys]. constructor; cbn; try done.
  - destruct Hp as [? ? ? Hc ? ?]. constructor; cbn; try done; [congruence |].
    eapply chain_ext; [| done]. intros i a Hi Ha. destruct (Hch i a) as (a' & ? & ? & _); eauto.
    apply NoDup_app in Hnd as (_ & Hd & _). intros Hh. apply (Hd i Hi). set_solver.
  - intros h b ids Hb Hids. destruct (Hrep h b ids Hb Hids) as [Hc Hchain]. split; [done |].
    intros Hne. eapply chain_ext; [| by apply Hchain]. intros i a Hi Ha.
    destruct (Hch i a) as (a' & ? & ? & _); eauto. apply Hheld, elem_of_concat. eauto.
  - intros h ids i a' Hids Hi Ha'. destruct (Hback i a') as (a & Ha & Hk); [apply elem_of_concat; eauto | done |].
    rewrite <- Hk. eauto.
  - intros i j a' b' Hi Hj Ha' Hb' Hk. destruct (Hback i a' Hi Ha') as (a & Ha & Hka).
    destruct (Hback j b' Hj Hb') as (b & Hb & Hkb). eapply Hkeys; eauto. congruence.
Qed.

Lemma map_wf_put i a b :
  (map_items m).[i] = Some a -> (i ∈ held \/ (item_next b = item_next a /\ key_of (K := K) b = key_of a)) ->
  map_wf (map_set_pool m (pool_set_addr (res_pool m) ((map_items m).[i <- b]))) fl held bl.
Proof.
  intros Ha Hb. apply map_wf_change; [apply length_insertZ |]. intros j c Hj Hc.
  destruct (decide (i = j)) as [<- |].
  - exists b. rewrite lookupZ_insertZ_eq by (by eapply lookupZ_lt). simplify_eq. naive_solver.
  - exists c. by rewrite lookupZ_insertZ_ne.
Qed.

Lemma map_wf_free i held' :
  held ≡ₚ i :: held' ->
  exists p', drc_res_pool_free_item (res_pool m) i = Done p' /\
    map_wf (map_set_pool m p') (i :: fl) held' bl /\
    links_only (map_items m) (addr p') [i] /\ item_num p' = item_num (res_pool m) /\
    recycle_pos p' = recycle_pos (res_pool m).
Proof.
  intros Hheld. pose proof mw_nodup as Hnd. rewrite Hheld in Hnd.
  assert (Hih : i ∈ held) by (rewrite Hheld; apply elem_of_cons; by left).
  destruct (mw_item i) as [a Ha]; [rewrite !elem_of_app; auto |].
  destruct (free_item_Done (res_pool m) fl i a) as (p' & Hrun & Hp' & Ha' & Hn' & Hr'); [by eapply mw_pool | done | |].
  { apply NoDup_app in Hnd as (_ & Hd & _). intros Hi. apply (Hd i Hi). set_solver. }
  exists p'. split; [done |].
  split; [| rewrite Ha'; split_and!; try done; apply links_only_put; [done | set_solver]].
  assert (Hm : map_wf (map_set_pool m (pool_set_addr (res_pool m) (addr p'))) fl held bl).
  { rewrite Ha'. apply (map_wf_put i a); [done |]. by left. }
  destruct Hm as [_ Hbn Hbl Hbll Hrep Hperm Hhash Hkeys]. constructor; cbn in *; try done.
  rewrite Hn', <- Hperm, Hheld. cbn. apply Permutation_middle.
Qed.
End one.

Lemma map_wf_alloc m i fl held bl :
  map_wf m (i :: fl) held bl ->
  exists p', drc_res_pool_alloc_item (res_pool m) = Done (i, p') /\
    map_wf (map_set_pool m p') fl (i :: held) bl /\ addr p' = map_items m /\
    item_num p' = item_num (res_pool m) /\ recycle_pos p' = recycle_pos (res_pool m).
Proof.
  intros Hwf. destruct (alloc_item_cons _ _ _ (mw_pool _ _ _ _ Hwf)) as (p' & Hrun & Hp' & Ha & Hn & _ & Hr).
  exists p'. split_and!; try done. destruct Hwf as [_ Hbn Hbl Hbll Hrep Hperm Hhash Hkeys].
  constructor; cbn; try done; rewrite ?Ha; try done.
  rewrite Hn, <- Hperm. cbn. by rewrite <- Permutation_middle.
Qed.

Lemma map_wf_held_perm m fl held held' bl :
  held ≡ₚ held' -> map_wf m fl held bl -> map_wf m fl held' bl.
Proof.
  intros Hp [? ? ? ? ? Hperm ? ?]. constructor; try done. by rewrite <- Hp.
Qed.

Lemma concat_cons_perm bl h i ids :
  bl.[h] = Some ids -> concat (bl.[h <- i :: ids]) ≡ₚ i :: concat bl.
Proof.
  intros Hids. apply (Permutation_app_inv_l ids). rewrite <- (concat_insertZ_perm _ _ _ _ Hids).
  cbn. apply Permutation_middle.
Qed.

Lemma concat_remove_perm bl h pre i post :
  bl.[h] = Some (pre ++ i :: post) -> i :: concat (bl.[h <- pre ++ post]) ≡ₚ concat bl.
Proof.
  intros Hids. apply (Permutation_app_inv_l (pre ++ post)).
  rewrite (concat_insertZ_perm _ _ _ (pre ++ post) Hids). rewrite <- Permutation_middle.
  cbn. rewrite <- Permutation_middle. done.
Qed.

Lemma mw_bucket_length m fl held bl h ids :
  map_wf m fl held bl -> bl.[h] = Some ids -> (length ids + length held <= Z.to_nat (item_num (res_pool m)))%nat.
Proof.
  intros Hwf Hids. pose proof (Permutation_length (mw_perm _ _ _ _ Hwf)) as Hl.
  pose proof (Permutation_length (concat_insertZ_perm _ _ _ [] Hids)) as Hl2.
  rewrite !length_app, ?length_seqZ in *. cbn in Hl2. lia.
Qed.

(** Linking a held item whose key is not in the map. *)
Lemma map_wf_add m fl held held' bl i a k :
  map_wf m fl held bl -> held ≡ₚ i :: held' -> (map_items m).[i] = Some a -> key_of a = k ->
  (forall j b, j ∈ concat bl -> (map_items m).[j] = Some b -> key_of b <> k) ->
  exists m' bl', map_add m k i = Done m' /\ map_wf m' fl held' bl' /\ concat bl' ≡ₚ i :: concat bl /\
    links_only (map_items m) (map_items m') [i] /\ item_num (res_pool m') = item_num (res_pool m) /\
    recycle_pos (res_pool m') = recycle_pos (res_pool m).
Proof.
  intros Hwf Hheld Ha Hk Hnew. destruct (mw_bucket Hwf k) as (b & ids & Hb & Hids & Hrep).
  set (h := drc_get_map_bucket m k) in *.
  pose proof (mw_bucket_length _ _ _ _ _ _ Hwf Hids) as Hlen. rewrite (Permutation_length Hheld) in Hlen. cbn in Hlen.
  pose proof (pw_max _ _ (mw_pool _ _ _ _ Hwf)) as Hmax. pose proof (mw_nodup Hwf) as Hnd.
  set (next := if bcount b =? 0 then CT_INVALID_ID32 else bfirst b).
  set (items' := (map_items m).[i <- set_item_next next a]).
  assert (Hwf1 : map_wf (map_set_pool m (pool_set_addr (res_pool m) items')) fl held bl).
  { apply (map_wf_put Hwf i a); [done |]. left. rewrite Hheld. set_solver. }
  pose proof (lookupZ_lt _ _ _ Ha) as Hi. pose proof (lookupZ_lt _ _ _ Hb) as Hh. pose proof (lookupZ_lt _ _ _ Hids) as Hh'.
  eexists _, (bl.[h <- i :: ids]). split_and!.
  - unfold map_add. fold h. rewrite (arr_get_eq _ _ _ Hb). cbn. rewrite (arr_get_eq _ _ _ Ha). cbn.
    rewrite (arr_set_eq _ _ _ _ Ha). cbn. rewrite (arr_set_eq _ _ _ _ Hb). cbn. done.
  - pose proof (concat_cons_perm _ _ i _ Hids) as Hcp. destruct Hwf1 as [Hp Hbn Hbl Hbll Hr Hperm Hhash Hkeys].
    cbn in *. constructor; cbn; rewrite ?length_insertZ; try done.
    + intros h' b' ids' Hb' Hids'. destruct (decide (h = h')) as [<- |].
      * rewrite lookupZ_insertZ_eq in Hb' by lia. rewrite lookupZ_insertZ_eq in Hids' by lia. simplify_eq. destruct (Hr h b ids Hb Hids) as [Hc Hch].
        split; cbn. { unfold CT_INVALID_ID32 in *. rewrite u32_small; lia. }
        intros _. split; [done |]. eexists. unfold items'. rewrite lookupZ_insertZ_eq by lia. split; [done |].
        rewrite item_next_set. unfold next. destruct ids as [| x ids].
        { cbn. by rewrite Hc. }
        destruct (Z.eqb_spec (bcount b) 0); [cbn in *; lia |]. by apply Hch.
      * rewrite lookupZ_insertZ_ne in Hb' by done. rewrite lookupZ_insertZ_ne in Hids' by done. eauto.
    + rewrite Hcp, <- Hperm, Hheld. cbn. apply Permutation_app_head. by rewrite <- Permutation_middle.
    + intros h' ids' j c Hids' Hj Hc. apply lookupZ_insertZ_Some in Hids' as [[<- <-] | [Hne Hids']]; [| by eapply Hhash].
      apply elem_of_cons in Hj as [-> | Hj]; [| by eapply Hhash].
      unfold items' in Hc. rewrite lookupZ_insertZ_eq in Hc by lia. simplify_eq. by rewrite key_of_set_next.
    + assert (Hnew' : forall j c, j ∈ concat bl -> items'.[j] = Some c -> key_of c <> k).
      { intros j c Hj Hc. unfold items' in Hc. rewrite lookupZ_insertZ_ne in Hc; [by eapply Hnew |].
        intros <-. rewrite Hheld in Hnd. apply NoDup_app in Hnd as (_ & _ & Hnd). cbn in Hnd.
        apply NoDup_cons in Hnd as [Hnd _]. apply Hnd. set_solver. }
      assert (Hki : forall c, items'.[i] = Some c -> key_of c = k).
      { intros c Hc. unfold items' in Hc. rewrite lookupZ_insertZ_eq in Hc by lia. simplify_eq. by rewrite key_of_set_next. }
      intros j1 j2 c1 c2. rewrite Hcp, !elem_of_cons. intros [-> | Hj1] [-> | Hj2] Hc1 Hc2 Hkk; eauto; exfalso.
      * by apply (Hnew' _ _ Hj2 Hc2); rewrite <- Hkk; apply Hki.
      * by apply (Hnew' _ _ Hj1 Hc1); rewrite Hkk; apply Hki.
  - by apply concat_cons_perm.
  - cbn. apply links_only_put; [done | set_solver].
  - done.
  - done.
Qed.

Lemma links_only_back (items items' : list A) t j a' :
  links_only items items' t -> items'.[j] = Some a' ->
  exists a, items.[j] = Some a /\ key_of (K := K) a' = key_of a /\ a' = set_item_next (item_next a') a.
Proof.
  intros (Hl & _ & Hn) Ha'. destruct (lookupZ_is_Some items j) as [a Ha].
  { rewrite <- Hl. by eapply lookupZ_lt. }
  destruct (Hn j a Ha) as [n Hn']. simplify_eq. exists a.
  rewrite key_of_set_next, item_next_set. done.
Qed.

(** Unlinking the item with key [k]; the caller then holds it. *)
Lemma map_wf_remove m fl held bl i a k :
  map_wf m fl held bl -> i ∈ concat bl -> (map_items m).[i] = Some a -> key_of a = k ->
  exists m' bl', map_remove m k = Done m' /\ map_wf m' fl (i :: held) bl' /\ i :: concat bl' ≡ₚ concat bl /\
    links_only (map_items m) (map_items m') (concat bl') /\ item_num (res_pool m') = item_num (res_pool m) /\
    recycle_pos (res_pool m') = recycle_pos (res_pool m).
Proof.
  intros Hwf Hi Ha Hk. destruct (mw_bucket Hwf k) as (b & ids & Hb & Hids & Hrep).
  set (h := drc_get_map_bucket m k) in *. pose proof (mw_nodup Hwf) as Hnd.
  assert (Hiids : i ∈ ids).
  { apply elem_of_concat in Hi as (h' & ids' & Hids' & Hi).
    pose proof (mw_hash _ _ _ _ Hwf _ _ _ _ Hids' Hi Ha) as Hh'. rewrite Hk in Hh'. fold h in Hh'. subst h'. by simplify_eq. }
  apply list_elem_of_split in Hiids as (pre & post & ->).
  pose proof (concat_remove_perm _ _ _ _ _ Hids) as Hcp.
  assert (Hndc : NoDup (concat bl)) by (by apply NoDup_app in Hnd as (_ & _ & (_ & _ & ?)%NoDup_app)).
  assert (Hndi : NoDup (pre ++ i :: post)).
  { rewrite <- (app_nil_l (concat bl)), (concat_insertZ_perm _ _ _ [] Hids) in Hndc. by apply NoDup_app in Hndc as [? _]. }
  assert (Habs : absent (map_items m) pre k).
  { intros j c Hj Hc. apply not_true_is_false. rewrite is_same_res_spec. intros Hkc.
    assert (j = i) as ->.
    { eapply (mw_keys _ _ _ _ Hwf); eauto; [| congruence]. apply elem_of_concat. exists h. eexists. split; [done | set_solver]. }
    apply NoDup_app in Hndi as (_ & Hd & _). apply (Hd i Hj). set_solver. }
  destruct (bucket_remove_spec _ _ _ _ _ _ _ Hrep Hndi Habs Ha Hk) as (items' & b' & Hrun & Hrep' & Hlinks).
  { pose proof (mw_bucket_length _ _ _ _ _ _ Hwf Hids). pose proof (pw_max _ _ (mw_pool _ _ _ _ Hwf)).
    unfold CT_INVALID_ID32 in *. lia. }
  pose proof (lookupZ_lt _ _ _ Hb) as Hh. pose proof (lookupZ_lt _ _ _ Hids) as Hh'.
  assert (Hpre : forall j, j ∈ pre -> j ∈ concat (bl.[h <- pre ++ post])).
  { intros j Hj. apply elem_of_concat. exists h, (pre ++ post). rewrite lookupZ_insertZ_eq by done. set_solver. }
  assert (Hsame : forall j c, j ∉ pre -> (map_items m).[j] = Some c -> exists c', items'.[j] = Some c' /\ item_next c' = item_next c).
  { intros j c Hj Hc. exists c. destruct Hlinks as (_ & Hl & _). by rewrite Hl. }
  eexists _, (bl.[h <- pre ++ post]). split_and!.
  - unfold map_remove. fold h. rewrite (arr_get_eq _ _ _ Hb). cbn. rewrite Hrun. cbn.
    rewrite (arr_set_eq _ _ _ _ Hb). cbn. done.
  - destruct Hwf as [Hp Hbn Hbl Hbll Hr Hperm Hhash Hkeys].
    assert (Hprefl : forall j, j ∈ fl -> j ∉ pre).
    { intros j Hj Hjp. apply NoDup_app in Hnd as (_ & Hd & _). apply (Hd j Hj).
      rewrite <- Hcp. specialize (Hpre j Hjp). set_solver. }
    constructor; cbn; rewrite ?length_insertZ; try done.
    + destruct Hp as [? ? ? Hc ? ?]. constructor; cbn; try done; [by destruct Hlinks as [-> _] |].
      eapply chain_ext; [| done]. intros j c Hj Hc'. apply Hsame; auto.
    + intros h' b'' ids' Hb' Hids'. destruct (decide (h = h')) as [<- |].
      * rewrite lookupZ_insertZ_eq in Hb' by lia. rewrite lookupZ_insertZ_eq in Hids' by lia. by simplify_eq.
      * rewrite lookupZ_insertZ_ne in Hb' by done. rewrite lookupZ_insertZ_ne in Hids' by done.
        destruct (Hr _ _ _ Hb' Hids') as [Hc Hch]. split; [done |]. intros Hne.
        eapply chain_ext; [| by apply Hch]. intros j c Hj Hc'. apply Hsame; [| done].
        intros Hjp. assert (h' = h); [| done].
        rewrite <- (Hhash _ _ _ _ Hids' Hj Hc'). apply (Hhash _ _ j c Hids); [set_solver | done].
    + rewrite <- Hperm, <- Hcp. cbn. apply Permutation_app_head. by rewrite <- Permutation_middle.
    + intros h' ids' j c' Hids' Hj Hc'. destruct (links_only_back _ _ _ _ _ Hlinks Hc') as (c & Hc & Hkc & _).
      rewrite Hkc. apply lookupZ_insertZ_Some in Hids' as [[<- <-] | [Hne Hids']]; [| by eapply Hhash].
      apply (Hhash _ _ j c Hids); [set_solver | done].
    + intros j1 j2 c1' c2' Hj1 Hj2 Hc1' Hc2' Hkk.
      destruct (links_only_back _ _ _ _ _ Hlinks Hc1') as (c1 & Hc1 & Hkc1 & _).
      destruct (links_only_back _ _ _ _ _ Hlinks Hc2') as (c2 & Hc2 & Hkc2 & _).
      eapply Hkeys; eauto; [| | congruence]; rewrite <- Hcp; set_solver.
  - done.
  - cbn. destruct Hlinks as (Hl & Hj & Hn). split_and!; try done. intros j Hj'. apply Hj. auto.
  - done.
  - done.
Qed.

(** *** A new map *)

Lemma concat_replicate_nil (n : nat) : concat (replicate n (@nil Z)) = [].
Proof. by induction n. Qed.

Lemma lookupZ_replicate {B} (n : nat) (x y : B) i : (replicate n x).[i] = Some y -> y = x.
Proof. intros [_ [? _]%lookup_replicate]%lookupZ_Some. done. Qed.

Lemma map_init_spec m pool_size size :
  map_inited m = false -> inited (res_pool m) = false -> block_header_size <= size -> 0 < pool_size < 2 ^ 31 ->
  exists m', drc_res_map_init m pool_size size true true = Done (CT_SUCCESS, m') /\
    map_wf m' (seqZ 0 pool_size) [] (replicate (Z.to_nat (pool_size * 2 + 1)) []) /\ item_num (res_pool m') = pool_size /\
    forall i, 0 <= i < pool_size -> exists n, (map_items m').[i] = Some (set_item_next n item_zero).
Proof.
  intros Hin Hpin Hsz Hps. unfold drc_res_map_init. rewrite Hin, u32_small by lia. cbn.
  destruct (pool_init_spec (res_pool m) size pool_size) as (p' & -> & Hwf & Hnum & _ & _ & Hz);
    [done | done | unfold CT_INVALID_ID32; lia |].
  cbn. eexists. split; [done |]. cbn. split; [| done]. constructor; cbn; try done.
  - lia.
  - rewrite length_replicate. lia.
  - by rewrite !length_replicate.
  - intros h b ids ->%lookupZ_replicate ->%lookupZ_replicate. by split.
  - by rewrite concat_replicate_nil, Hnum, app_nil_r.
  - intros h ids i a ->%lookupZ_replicate Hi. set_solver.
  - intros i j a b Hi. rewrite concat_replicate_nil in Hi. set_solver.
Qed.

(** Lookup depends on which items with the key are linked. *)
Lemma map_lookup_ext m fl held bl m' fl' held' bl' t k :
  map_wf m fl held bl -> map_wf m' fl' held' bl' -> links_only (map_items m) (map_items m') t ->
  (forall j b, (map_items m).[j] = Some b -> key_of b = k -> j ∈ concat bl <-> j ∈ concat bl') ->
  map_lookup m' k = map_lookup m k.
Proof.
  intros Hwf Hwf' Hl Hin. destruct (map_lookup_spec Hwf k) as ([j |] & -> & Hcase).
  - destruct Hcase as (Hj & b & Hb & Hk). pose proof Hl as (_ & _ & Hn). destruct (Hn j b Hb) as [n Hj'].
    apply (map_lookup_Some Hwf' _ j (set_item_next n b)); [by eapply Hin | done | by rewrite key_of_set_next].
  - destruct (map_lookup_spec Hwf' k) as ([j |] & -> & Hcase'); [exfalso | done]. destruct Hcase' as (Hj & b & Hb & Hk).
    destruct (links_only_back _ _ _ _ _ Hl Hb) as (b0 & Hb0 & Hkb0 & _).
    apply (Hcase j b0); [eapply Hin; [done | congruence | done] | done | congruence].
Qed.

(** C31: adding an unlinked item under a new key makes lookup
    find it there, removing the key again makes lookup find nothing, and
    neither changes what lookup finds under any other key. *)
Theorem map_add_lookup_remove m fl held bl i a :
  map_wf m fl (i :: held) bl -> (map_items m).[i] = Some a -> map_lookup m (key_of a) = Done None ->
  exists m1 m2, map_add m (key_of a) i = Done m1 /\ map_remove m1 (key_of a) = Done m2 /\
    map_lookup m1 (key_of a) = Done (Some i) /\
    (forall k, k <> key_of a -> map_lookup m1 k = map_lookup m k) /\ (forall k, map_lookup m2 k = map_lookup m k).
Proof.
  intros Hwf Ha Hnone. destruct (map_lookup_spec Hwf (key_of a)) as (r & Hr & Hnew). rewrite Hnone in Hr. simplify_eq.
  destruct (map_wf_add m fl _ held bl i a (key_of a) Hwf) as (m1 & bl1 & Hadd & Hwf1 & Hbl1 & Hl1 & _); try done.
  pose proof Hl1 as (_ & _ & Hn1). destruct (Hn1 i a Ha) as [n Hi1].
  assert (Hk1 : key_of (set_item_next n a) = key_of a) by apply key_of_set_next.
  destruct (map_wf_remove m1 fl held bl1 i (set_item_next n a) (key_of a) Hwf1) as (m2 & bl2 & Hrem & Hwf2 & Hbl2 & Hl2 & _);
    [rewrite Hbl1; set_solver | done | done |].
  assert (Hbl : concat bl2 ≡ₚ concat bl) by (apply (Permutation_cons_inv (a := i)); by rewrite Hbl2, Hbl1).
  assert (Hother : forall k, k <> key_of a -> map_lookup m1 k = map_lookup m k).
  { intros k Hk. eapply map_lookup_ext; [done | done | done |]. intros j b Hb <-. rewrite Hbl1, elem_of_cons.
    split; [by right | intros [-> | ?]; [by simplify_eq | done]]. }
  exists m1, m2. split; [done |]. split; [done |].
  split; [apply (map_lookup_Some Hwf1 _ i (set_item_next n a)); [rewrite Hbl1; set_solver | done | done] |]. split; [done |].
  assert (Hdec : forall k, key_of a = k \/ key_of a <> k).
  { intros k. rewrite <- is_same_res_spec. destruct (is_same_res k a); [by left | by right]. }
  intros k. destruct (Hdec k) as [<- | Hk%not_eq_sym].
  - rewrite Hnone. destruct (map_lookup_spec Hwf2 (key_of a)) as ([j |] & -> & Hcase); [exfalso | done].
    destruct Hcase as (Hj & b & Hb & Hk). destruct (links_only_back _ _ _ _ _ Hl2 Hb) as (b1 & Hb1 & Hkb1 & _).
    destruct (links_only_back _ _ _ _ _ Hl1 Hb1) as (b0 & Hb0 & Hkb0 & _).
    apply (Hnew j b0); [by rewrite <- Hbl | done | congruence].
  - rewrite <- (Hother k Hk). eapply map_lookup_ext; [done | done | done |]. intros j b Hb <-. rewrite Hbl1, Hbl, elem_of_cons.
    split; [intros [-> | ?]; [| done] | by right]. by simplify_eq.
Qed.
End map_facts.
