(* ===== verification/ConvertQ.v ===== *)
(** * Lock items and conversion queues (drc_lock_item_t, drc_lock_q_t)

    Requests that have to wait for a page or a lock are kept in lock items,
    allocated from one pool shared by all resources and linked into the
    resource's conversion queue.  [lock_q_rep] relates a queue to the item
    indices it links and [queue_reqs] to the requests waiting in it, oldest
    first; the operations below refine append, head removal, search and
    clearing on that list.
    Source: src/pkg/src/cluster/dtc_drc.[ch]. *)

From stdpp Require Import prelude list.
From S2P Require Import Prelude ResPool DrcList.

Open Scope Z_scope.
Open Scope drc_scope.

(** ** Data (dtc_drc.h) *)

Definition DRC_LOCK_NULL : Z := 0.
Definition DRC_LOCK_SHARE : Z := 1.
Definition DRC_LOCK_EXCLUSIVE : Z := 2.
Definition DRC_LOCK_MODE_MAX : Z := 3.

Record drc_req_info := mk_req {
  req_inst_id : Z;
  req_mode : Z;
  curr_mode : Z;
  req_owner_result : Z;
  req_inst_sid : Z;
  req_rsn : Z;
  req_time : Z;
  req_version : Z;
  req_lsn : Z;
  release_timeout_ticks : Z;
}.

Record drc_lock_item := mk_lock_item { li_next : Z; req_info : drc_req_info }.

Definition zero_req : drc_req_info := mk_req 0 0 0 0 0 0 0 0 0 0.

Definition g_invalid_req_info : drc_req_info :=
  mk_req CT_INVALID_ID8 DRC_LOCK_NULL DRC_LOCK_NULL 0 CT_INVALID_ID16 CT_INVALID_ID32 0 0 0 0.

Definition req_set_mode (m : Z) (r : drc_req_info) : drc_req_info :=
  mk_req (req_inst_id r) m (curr_mode r) (req_owner_result r) (req_inst_sid r) (req_rsn r) (req_time r)
    (req_version r) (req_lsn r) (release_timeout_ticks r).
Definition req_set_result (v : Z) (r : drc_req_info) : drc_req_info :=
  mk_req (req_inst_id r) (req_mode r) (curr_mode r) v (req_inst_sid r) (req_rsn r) (req_time r)
    (req_version r) (req_lsn r) (release_timeout_ticks r).
Definition req_set_time (v : Z) (r : drc_req_info) : drc_req_info :=
  mk_req (req_inst_id r) (req_mode r) (curr_mode r) (req_owner_result r) (req_inst_sid r) (req_rsn r) v
    (req_version r) (req_lsn r) (release_timeout_ticks r).
Definition req_set_inst (v : Z) (r : drc_req_info) : drc_req_info :=
  mk_req v (req_mode r) (curr_mode r) (req_owner_result r) (req_inst_sid r) (req_rsn r) (req_time r)
    (req_version r) (req_lsn r) (release_timeout_ticks r).
Definition req_set_sid (v : Z) (r : drc_req_info) : drc_req_info :=
  mk_req (req_inst_id r) (req_mode r) (curr_mode r) (req_owner_result r) v (req_rsn r) (req_time r)
    (req_version r) (req_lsn r) (release_timeout_ticks r).

#[export, program] Instance lock_item_ResItem : ResItem drc_lock_item := {|
  item_next := li_next;
  set_item_next n it := mk_lock_item n (req_info it);
  item_zero := mk_lock_item 0 zero_req;
|}.
Next Obligation. done. Qed.
Next Obligation. done. Qed.
Next Obligation. by intros []. Qed.

Abbreviation lock_pool := (drc_res_pool drc_lock_item).

(** An error answer sent to a waiting requester (mes_send_error_msg). *)
Record error_msg := mk_error_msg { em_inst : Z; em_sid : Z; em_rsn : Z }.

Definition error_to (r : drc_req_info) : error_msg :=
  mk_error_msg (req_inst_id r) (req_inst_sid r) (req_rsn r).

(** ** Operations *)

(** Allocate a lock item for [r] and append it to the queue: the code of
    [drc_request_lock_owner_add_req_into_cvt_q], repeated at the end of
    [drc_keep_requester_wait]. *)
Definition drc_request_lock_owner_add_req_into_cvt_q (q : drc_list) (r : drc_req_info) (pool : lock_pool)
    : outcome (status_t * drc_list * lock_pool) :=
  '(item_idx, pool) ← drc_res_pool_alloc_item pool;
  if item_idx =? CT_INVALID_ID32 then Done (CT_ERROR, q, pool)
  else
    pool ← drc_res_put pool item_idx (mk_lock_item CT_INVALID_ID32 r);
    if count q =? 0 then Done (CT_SUCCESS, mk_list item_idx item_idx (u32 (count q + 1)), pool)
    else tmp_item ← DRC_GET_RES_ADDR_BY_ID pool (last q);
         pool ← drc_res_put pool (last q) (mk_lock_item item_idx (req_info tmp_item));
         Done (CT_SUCCESS, mk_list (first q) item_idx (u32 (count q + 1)), pool).

(** Take the first item out of the queue; the item stays allocated. *)
Definition lock_q_pop (q : drc_list) (pool : lock_pool) : outcome (Z * drc_lock_item * drc_list) :=
  lock_item ← DRC_GET_RES_ADDR_BY_ID pool (first q);
  Done (first q, lock_item, mk_list (li_next lock_item) (last q) (u32 (count q - 1))).

Definition drc_is_retry_request (l_val r_val : drc_req_info) : bool :=
  (req_inst_id l_val =? req_inst_id r_val) && negb (req_mode l_val =? curr_mode r_val).

Fixpoint search_loop (fuel : nat) (item_id : Z) (r : drc_req_info) (pool : lock_pool) : outcome (option Z) :=
  if item_id =? CT_INVALID_ID32 then Done None
  else match fuel with
       | O => Crash OutOfFuel
       | S fuel =>
           item ← DRC_GET_RES_ADDR_BY_ID pool item_id;
           if drc_is_retry_request (req_info item) r then Done (Some item_id)
           else search_loop fuel (li_next item) r pool
       end.

(** The queue holds at most every item of the pool, so that many steps are enough. *)
Definition drc_search_item_by_reqid (q : drc_list) (r : drc_req_info) (pool : lock_pool) : outcome (option Z) :=
  search_loop (Z.to_nat (item_num pool)) (first q) r pool.

Fixpoint clean_loop (n : nat) (inst_id item_id : Z) (q : drc_list) (msgs : list error_msg) (pool : lock_pool)
    : outcome (drc_list * list error_msg * lock_pool) :=
  match n with
  | O => Done (q, msgs, pool)
  | S n =>
      item ← DRC_GET_RES_ADDR_BY_ID pool item_id;
      let temp_item_id := li_next item in
      let msgs := if req_inst_id (req_info item) =? inst_id then msgs else msgs ++ [error_to (req_info item)] in
      let q := mk_list (first q) (last q) (u32 (count q - 1)) in
      pool ← drc_res_pool_free_item pool item_id;
      clean_loop n inst_id temp_item_id q msgs pool
  end.

Definition drc_clean_convert_q (inst_id : Z) (q : drc_list) (pool : lock_pool)
    : outcome (drc_list * list error_msg * lock_pool) :=
  if count q =? 0 then Done (q, [], pool)
  else '(q, msgs, pool) ← clean_loop (Z.to_nat (count q)) inst_id (first q) q [] pool;
       Done (if count q =? 0 then DRC_LIST_INIT else q, msgs, pool).

(** ** Queues as lists of requests *)

Definition lock_q_rep (items : list drc_lock_item) (q : drc_list) (ids : list Z) : Prop :=
  count q = Z.of_nat (length ids) /\
  (ids <> [] -> chain items (first q) ids /\ list.last ids = Some (last q)).

Definition queue_reqs (items : list drc_lock_item) (ids : list Z) : list drc_req_info :=
  omap (fun i => req_info <$> items.[i]) ids.
Arguments queue_reqs : simpl never.

(** One queue [q] with items [ids] in the shared pool: [fl] are the free items
    and [rest] all others (the items of other queues, and items held). *)
Record queue_wf (pool : lock_pool) (fl : list Z) (q : drc_list) (ids rest : list Z) : Prop := mk_queue_wf {
  qw_pool : pool_wf pool fl;
  qw_rep : lock_q_rep (addr pool) q ids;
  qw_perm : fl ++ ids ++ rest ≡ₚ seqZ 0 (item_num pool);
}.

(** The items in [rest] are untouched. *)
Definition frame_items (pool pool' : lock_pool) (rest : list Z) : Prop :=
  item_num pool' = item_num pool /\ forall j, j ∈ rest -> (addr pool').[j] = (addr pool).[j].

Lemma frame_items_refl pool rest : frame_items pool pool rest.
Proof. done. Qed.

Lemma frame_items_trans p1 p2 p3 rest :
  frame_items p1 p2 rest -> frame_items p2 p3 rest -> frame_items p1 p3 rest.
Proof.
  intros [Hn1 Hf1] [Hn2 Hf2]. split; [congruence |]. intros j Hj. by rewrite Hf2, Hf1.
Qed.

Lemma queue_reqs_ext items items' ids :
  (forall j, j ∈ ids -> req_info <$> items'.[j] = req_info <$> items.[j]) -> queue_reqs items' ids = queue_reqs items ids.
Proof.
  unfold queue_reqs. induction ids as [| i ids IH]; cbn; intros He; [done |].
  rewrite He by set_solver. rewrite IH; [done |]. intros; apply He; set_solver.
Qed.

Lemma queue_reqs_app items ids1 ids2 :
  queue_reqs items (ids1 ++ ids2) = queue_reqs items ids1 ++ queue_reqs items ids2.
Proof. apply omap_app. Qed.

Lemma queue_reqs_cons items i ids it :
  items.[i] = Some it -> queue_reqs items (i :: ids) = req_info it :: queue_reqs items ids.
Proof. unfold queue_reqs. cbn. by intros ->. Qed.

Section queue_facts.
Context {pool : lock_pool} {fl : list Z} {q : drc_list} {ids rest : list Z}.
Hypothesis Hwf : queue_wf pool fl q ids rest.

Lemma qw_nodup : NoDup (fl ++ ids ++ rest).
Proof. rewrite (qw_perm _ _ _ _ _ Hwf). apply NoDup_seqZ. Qed.

Lemma qw_nodup_ids : NoDup ids.
Proof. pose proof qw_nodup as (_ & _ & (? & _)%NoDup_app)%NoDup_app. done. Qed.

Lemma qw_disjoint i : i ∈ ids -> i ∉ fl /\ i ∉ rest.
Proof.
  intros Hi. pose proof qw_nodup as (_ & Hd & (_ & Hd2 & _)%NoDup_app)%NoDup_app. split; [| auto].
  intros Hf. apply (Hd i Hf). set_solver.
Qed.

Lemma qw_free_disjoint i : i ∈ fl -> i ∉ ids /\ i ∉ rest.
Proof. intros Hi. pose proof qw_nodup as (_ & Hd & _)%NoDup_app. specialize (Hd i Hi). set_solver. Qed.

Lemma qw_item i : i ∈ fl ++ ids ++ rest -> exists it, (addr pool).[i] = Some it.
Proof.
  rewrite (qw_perm _ _ _ _ _ Hwf), elem_of_seqZ. intros Hi. apply lookupZ_is_Some.
  rewrite (pw_len _ _ (qw_pool _ _ _ _ _ Hwf)). lia.
Qed.

Lemma qw_length : Z.of_nat (length fl) + Z.of_nat (length ids) + Z.of_nat (length rest) = item_num pool.
Proof.
  pose proof (Permutation_length (qw_perm _ _ _ _ _ Hwf)) as Hl. rewrite !length_app, length_seqZ in Hl.
  pose proof (pool_wf_fits _ _ (qw_pool _ _ _ _ _ Hwf)). lia.
Qed.

Lemma qw_max : item_num pool <= CT_INVALID_ID32.
Proof. exact (pw_max _ _ (qw_pool _ _ _ _ _ Hwf)). Qed.

(** Appending: refines [reqs ++ [r]], or fails without effect when the pool is empty. *)
Lemma enqueue_spec r :
  exists st q' pool', drc_request_lock_owner_add_req_into_cvt_q q r pool = Done (st, q', pool') /\
    frame_items pool pool' rest /\
    ((st = CT_ERROR /\ fl = [] /\ q' = q /\ pool' = pool) \/
     (exists i fl', st = CT_SUCCESS /\ fl = i :: fl' /\ queue_wf pool' fl' q' (ids ++ [i]) rest /\
        queue_reqs (addr pool') (ids ++ [i]) = queue_reqs (addr pool) ids ++ [r])).
Proof.
  destruct (alloc_item_spec _ _ (qw_pool _ _ _ _ _ Hwf)) as (i & p1 & Hrun & Ha1 & Hn1 & _ & Hcase).
  unfold drc_request_lock_owner_add_req_into_cvt_q. rewrite Hrun. cbn.
  destruct Hcase as [(Hfl & -> & ->) | (fl' & Hfl & Hne & Hp1)].
  { exists CT_ERROR, q, pool. split; [done |]. split; [apply frame_items_refl | by left]. }
  destruct (Z.eqb_spec i CT_INVALID_ID32) as [| _]; [done |].
  destruct (qw_free_disjoint i) as [Hi_ids Hi_rest]; [rewrite Hfl; set_solver |].
  assert (Hi_fl' : i ∉ fl').
  { pose proof (pw_nodup _ _ (qw_pool _ _ _ _ _ Hwf)) as Hnd. rewrite Hfl in Hnd. by apply NoDup_cons in Hnd as [? _]. }
  destruct (qw_item i) as [it Hit]; [rewrite Hfl; set_solver |]. pose proof (lookupZ_lt _ _ _ Hit) as Hlt.
  unfold drc_res_put. rewrite Ha1, (arr_set_eq _ _ _ _ Hit). cbn.
  set (new := mk_lock_item CT_INVALID_ID32 r). set (items1 := (addr pool).[i <- new]).
  assert (Hp2 : pool_wf (pool_set_addr p1 items1) fl').
  { unfold items1. rewrite <- Ha1. eapply pool_wf_put; [done | by rewrite Ha1 | done]. }
  pose proof (qw_rep _ _ _ _ _ Hwf) as [Hcnt Hch]. pose proof qw_length as Hlen. pose proof qw_max as Hmax.
  rewrite Hfl in Hlen. cbn in Hlen. unfold CT_INVALID_ID32 in Hmax.
  assert (Hperm : fl' ++ (ids ++ [i]) ++ rest ≡ₚ seqZ 0 (item_num pool)).
  { rewrite <- (qw_perm _ _ _ _ _ Hwf), Hfl. cbn. rewrite <- (assoc_L (++) ids). cbn.
    rewrite (assoc_L (++) fl'), <- Permutation_middle. by rewrite <- (assoc_L (++) fl'). }
  assert (Hreq1 : queue_reqs items1 ids = queue_reqs (addr pool) ids).
  { apply queue_reqs_ext. intros j Hj. unfold items1. rewrite lookupZ_insertZ_ne; [done | set_solver]. }
  assert (Hnew : items1.[i] = Some new) by (unfold items1; by rewrite lookupZ_insertZ_eq).
  destruct (Z.eqb_spec (count q) 0) as [Hz | Hz].
  - destruct ids; [| cbn in *; lia]. cbn in *.
    eexists _, _, _. split; [done |]. split.
    { split; [done |]. intros j Hj. cbn. unfold items1. apply lookupZ_insertZ_ne. set_solver. }
    right. exists i, fl'. split_and!; try done.
    + constructor; [done | | by rewrite <- Hn1 in Hperm]. split; cbn; [rewrite u32_small; lia |].
      intros _. split; [| done]. split; [done |]. by exists new.
    + cbn. unfold queue_reqs. cbn. by rewrite Hnew.
  - assert (ids <> []) as Hids by (intros ->; cbn in *; lia). destruct (Hch Hids) as [Hc Hl].
    apply last_Some in Hl as [ids0 Hl]. set (l := last q) in *.
    destruct (qw_item l) as [itl Hitl]; [rewrite Hl; set_solver |]. pose proof (lookupZ_lt _ _ _ Hitl) as Hltl.
    assert (Hil : i <> l) by (rewrite Hl in Hi_ids; set_solver).
    assert (Hitl1 : items1.[l] = Some itl) by (unfold items1; by rewrite lookupZ_insertZ_ne).
    unfold DRC_GET_RES_ADDR_BY_ID. cbn. rewrite (arr_get_eq _ _ _ Hitl1). cbn. rewrite (arr_set_eq _ _ _ _ Hitl1). cbn.
    assert (Hl_fl' : l ∉ fl').
    { destruct (qw_disjoint l) as [Hd _]; [rewrite Hl; set_solver |]. rewrite Hfl in Hd. set_solver. }
    eexists _, _, _. split; [done |]. split.
    { split; [done |]. intros j Hj. cbn. destruct (qw_disjoint l) as [_ Hlr]; [rewrite Hl; set_solver |].
      rewrite lookupZ_insertZ_ne by set_solver. unfold items1. apply lookupZ_insertZ_ne. set_solver. }
    right. exists i, fl'. split_and!; try done.
    + constructor; [| | by rewrite <- Hn1 in Hperm].
      * eapply (pool_wf_put (pool_set_addr p1 items1)); [done | done | done].
      * split; cbn [first last count]. { rewrite length_app. cbn. rewrite u32_small; lia. }
        intros _. split; [| apply last_snoc]. pose proof qw_nodup_ids as Hnd. rewrite Hl in Hc, Hnd, Hi_ids |- *.
        change (chain (items1.[l <- set_item_next i itl]) (first q) ((ids0 ++ [l]) ++ [i])).
        apply (chain_snoc items1 _ _ _ _ itl new); try done. by apply chain_insert_ne.
    + cbn. rewrite queue_reqs_app. f_equal.
      * rewrite <- Hreq1. apply queue_reqs_ext. intros j Hj. destruct (decide (l = j)) as [<- |].
        { rewrite lookupZ_insertZ_eq; [| unfold items1; by rewrite length_insertZ]. by rewrite Hitl1. }
        by rewrite lookupZ_insertZ_ne.
      * unfold queue_reqs. cbn. rewrite lookupZ_insertZ_ne by done. by rewrite Hnew.
Qed.

(** Taking the oldest request out: the item is then held by the caller. *)
Lemma pop_spec i ids' :
  ids = i :: ids' ->
  exists it q', lock_q_pop q pool = Done (i, it, q') /\ (addr pool).[i] = Some it /\
    queue_wf pool fl q' ids' (i :: rest) /\ first q = i /\
    queue_reqs (addr pool) ids = req_info it :: queue_reqs (addr pool) ids'.
Proof.
  intros Hids. destruct Hwf as [Hp [Hcnt Hch] Hperm]. pose proof qw_length as Hlen. pose proof qw_max as Hmax.
  destruct Hch as [Hc Hl]; [by rewrite Hids |]. rewrite Hids in Hc, Hl. cbn [chain] in Hc.
  destruct Hc as (Hf & it & Hit & Hc). exists it. unfold lock_q_pop, DRC_GET_RES_ADDR_BY_ID.
  rewrite Hf, (arr_get_eq _ _ _ Hit). cbn. eexists. split; [done |]. split; [done |].
  rewrite Hids in Hcnt, Hlen, Hperm. cbn in Hcnt, Hlen. unfold CT_INVALID_ID32 in Hmax. split_and!; try done.
  - constructor; [done | |].
    + split; cbn [first last count]; [rewrite u32_small; lia |]. intros Hne. split; [done |].
      by destruct ids'.
    + rewrite <- Hperm. cbn. apply Permutation_app_head. by rewrite <- Permutation_middle.
  - rewrite Hids. by apply queue_reqs_cons.
Qed.

(** Giving a held item back. *)
Lemma free_held_spec i rest' :
  rest ≡ₚ i :: rest' ->
  exists pool', drc_res_pool_free_item pool i = Done pool' /\ queue_wf pool' (i :: fl) q ids rest' /\
    frame_items pool pool' (ids ++ rest') /\ queue_reqs (addr pool') ids = queue_reqs (addr pool) ids.
Proof.
  intros Hrest. pose proof qw_nodup as Hnd. rewrite Hrest in Hnd.
  assert (Hi : i ∉ fl /\ i ∉ ids /\ i ∉ rest').
  { apply NoDup_app in Hnd as (_ & Hd & (_ & Hd2 & (Hr & _)%NoDup_cons)%NoDup_app). split_and!; [| | done].
    - intros Hf. apply (Hd i Hf). set_solver.
    - intros Hf. apply (Hd2 i Hf). set_solver. }
  destruct Hi as (Hi1 & Hi2 & Hi3).
  destruct (qw_item i) as [it Hit]; [rewrite Hrest; set_solver |].
  destruct (free_item_Done pool fl i it) as (pool' & Hrun & Hp' & Ha' & Hn' & _); [by eapply qw_pool | done | done |].
  exists pool'. split; [done |].
  assert (Hfr : frame_items pool pool' (ids ++ rest')).
  { split; [done |]. intros j Hj. rewrite Ha'. apply lookupZ_insertZ_ne. set_solver. }
  destruct Hwf as [Hp [Hcnt Hch] Hperm]. split_and!; [| done |].
  - constructor; [done | |].
    + split; [done |]. intros Hne. destruct (Hch Hne) as [Hc Hl]. split; [| done].
      rewrite Ha'. by apply chain_insert_ne.
    + rewrite Hn', <- Hperm, Hrest. cbn. rewrite !(assoc_L (++) fl ids). apply Permutation_middle.
  - apply queue_reqs_ext. intros j Hj. destruct Hfr as [_ Hfr]. rewrite Hfr by set_solver. done.
Qed.

(** Overwriting the request of a queued item. *)
Lemma overwrite_spec ids1 i ids2 it r :
  ids = ids1 ++ i :: ids2 -> (addr pool).[i] = Some it ->
  exists pool', drc_res_put pool i (mk_lock_item (li_next it) r) = Done pool' /\
    queue_wf pool' fl q ids rest /\ frame_items pool pool' rest /\
    queue_reqs (addr pool') ids = queue_reqs (addr pool) ids1 ++ r :: queue_reqs (addr pool) ids2.
Proof.
  intros Hids Hit. unfold drc_res_put. rewrite (arr_set_eq _ _ _ _ Hit). cbn. eexists. split; [done |].
  destruct (qw_disjoint i) as [Hifl Hirest]; [rewrite Hids; set_solver |]. pose proof qw_nodup_ids as Hnd.
  rewrite Hids in Hnd. pose proof (lookupZ_lt _ _ _ Hit) as Hlt.
  destruct Hwf as [Hp [Hcnt Hch] Hperm]. split_and!.
  - constructor; cbn; [by apply (pool_wf_put pool fl i it) | | done].
    split; [done |]. intros Hne. destruct (Hch Hne) as [Hc Hl]. split; [| done].
    by eapply chain_insert_next.
  - split; [done |]. intros j Hj. cbn. apply lookupZ_insertZ_ne. set_solver.
  - cbn. rewrite Hids, queue_reqs_app. apply NoDup_app in Hnd as (_ & Hd & (Hi2 & _)%NoDup_cons). f_equal.
    + apply queue_reqs_ext. intros j Hj. rewrite lookupZ_insertZ_ne; [done |]. intros <-. apply (Hd i Hj). set_solver.
    + erewrite queue_reqs_cons by (apply lookupZ_insertZ_eq; done). cbn. f_equal.
      apply queue_reqs_ext. intros j Hj. rewrite lookupZ_insertZ_ne; [done |]. set_solver.
Qed.
End queue_facts.

(** Searching walks the queue and stops at the first request the predicate accepts. *)
Lemma search_loop_spec pool r fuel hd ids :
  item_num pool <= CT_INVALID_ID32 -> Z.of_nat (length (addr pool)) = item_num pool ->
  chain (addr pool) hd ids -> (length ids <= fuel)%nat ->
  exists res, search_loop fuel hd r pool = Done res /\
    match res with
    | Some i => exists ids1 ids2 it, ids = ids1 ++ i :: ids2 /\ (addr pool).[i] = Some it /\
                  drc_is_retry_request (req_info it) r = true /\
                  Forall (fun x => drc_is_retry_request x r = false) (queue_reqs (addr pool) ids1)
    | None => Forall (fun x => drc_is_retry_request x r = false) (queue_reqs (addr pool) ids)
    end.
Proof.
  intros Hmax Hlen. revert fuel hd. induction ids as [| i ids IH]; intros fuel hd Hc Hf.
  - cbn in Hc. subst hd. exists None. split; [by destruct fuel |]. constructor.
  - cbn [chain] in Hc. destruct Hc as (-> & it & Hit & Hc). destruct fuel as [| fuel]; [cbn in Hf; lia |].
    pose proof (lookupZ_lt _ _ _ Hit) as Hlt. cbn [search_loop].
    destruct (Z.eqb_spec i CT_INVALID_ID32); [lia |]. unfold DRC_GET_RES_ADDR_BY_ID.
    rewrite (arr_get_eq _ _ _ Hit). cbn. destruct (drc_is_retry_request (req_info it) r) eqn:Hr.
    + exists (Some i). split; [done |]. exists [], ids, it. by split_and!.
    + destruct (IH fuel (li_next it) Hc) as (res & -> & Hres); [cbn in Hf; lia |]. exists res. split; [done |].
      destruct res as [j |].
      * destruct Hres as (ids1 & ids2 & it' & -> & Hit' & Hr' & HF). exists (i :: ids1), ids2, it'.
        split; [done |]. split; [done |]. split; [done |]. rewrite (queue_reqs_cons _ _ _ _ Hit). by constructor.
      * rewrite (queue_reqs_cons _ _ _ _ Hit). by constructor.
Qed.

Lemma search_spec pool fl q ids rest r :
  queue_wf pool fl q ids rest -> ids <> [] ->
  exists res, drc_search_item_by_reqid q r pool = Done res /\
    match res with
    | Some i => exists ids1 ids2 it, ids = ids1 ++ i :: ids2 /\ (addr pool).[i] = Some it /\
                  drc_is_retry_request (req_info it) r = true /\
                  Forall (fun x => drc_is_retry_request x r = false) (queue_reqs (addr pool) ids1)
    | None => Forall (fun x => drc_is_retry_request x r = false) (queue_reqs (addr pool) ids)
    end.
Proof.
  intros Hwf Hne. destruct (qw_rep _ _ _ _ _ Hwf) as [_ Hch]. destruct (Hch Hne) as [Hc _].
  apply (search_loop_spec pool r _ (first q) ids).
  - exact (qw_max Hwf).
  - exact (pw_len _ _ (qw_pool _ _ _ _ _ Hwf)).
  - done.
  - pose proof (qw_length Hwf). lia.
Qed.

(** Clearing frees every item, newest on top, and answers the requesters that
    are not the failed instance with an error. *)
Definition errors_for (inst_id : Z) (rs : list drc_req_info) : list error_msg :=
  error_to <$> filter (fun r => req_inst_id r <> inst_id) rs.

Lemma clean_loop_spec inst_id pool fl q ids rest q0 msgs :
  queue_wf pool fl q ids rest -> count q0 = count q ->
  exists q' pool', clean_loop (length ids) inst_id (first q) q0 msgs pool =
      Done (q', msgs ++ errors_for inst_id (queue_reqs (addr pool) ids), pool') /\
    queue_wf pool' (reverse ids ++ fl) DRC_LIST_INIT [] rest /\ frame_items pool pool' rest /\ count q' = 0.
Proof.
  revert pool fl q q0 msgs. induction ids as [| i ids IH]; intros pool fl q q0 msgs Hwf Hc0; cbn [length clean_loop].
  - exists q0, pool. unfold queue_reqs, errors_for. cbn. rewrite app_nil_r. split; [done |].
    pose proof (qw_rep _ _ _ _ _ Hwf) as [Hcnt _]. split_and!; [| done | cbn in Hcnt; lia].
    destruct Hwf as [Hp _ Hperm]. by constructor.
  - rewrite reverse_cons, <- (assoc_L (++)).
    destruct (pop_spec Hwf i ids eq_refl) as (it & q1 & Hpop & Hit & Hwf1 & Hfi & Hreqs).
    unfold lock_q_pop, DRC_GET_RES_ADDR_BY_ID in Hpop |- *. rewrite Hfi in *.
    rewrite (arr_get_eq _ _ _ Hit) in *. cbn in Hpop |- *. injection Hpop as Hq1.
    destruct (free_held_spec Hwf1 i rest) as (p1 & Hfree & Hwf2 & Hfr & Hreqs2); [done |].
    rewrite Hfree. cbn. pose proof (qw_length Hwf). pose proof (qw_max Hwf). unfold CT_INVALID_ID32 in *.
    edestruct (IH p1 (i :: fl) q1 (mk_list (first q0) (last q0) (u32 (count q0 - 1)))) as (q' & p' & Hrun & Hwf3 & Hfr3 & Hc3);
      [done | |].
    { subst q1. cbn. by rewrite Hc0. }
    exists q', p'. subst q1. cbn in Hrun. rewrite Hrun. rewrite Hreqs, Hreqs2. split_and!; try done.
    + do 2 f_equal. unfold errors_for. rewrite filter_cons.
      destruct (Z.eqb_spec (req_inst_id (req_info it)) inst_id); case_decide; try done.
      rewrite <- (assoc_L (++)). done.
    + eapply frame_items_trans; [| done]. destruct Hfr as [Hn Hfr]. split; [done |]. intros j Hj. apply Hfr. set_solver.
Qed.

Lemma clean_spec inst_id pool fl q ids rest :
  queue_wf pool fl q ids rest ->
  exists q' pool', drc_clean_convert_q inst_id q pool =
      Done (q', errors_for inst_id (queue_reqs (addr pool) ids), pool') /\
    queue_wf pool' (reverse ids ++ fl) q' [] rest /\ frame_items pool pool' rest.
Proof.
  intros Hwf. pose proof (qw_rep _ _ _ _ _ Hwf) as [Hcnt _]. unfold drc_clean_convert_q.
  destruct (Z.eqb_spec (count q) 0) as [Hz | Hz].
  - destruct ids; [| cbn in *; lia]. exists q, pool. split; [done |]. split; [done | apply frame_items_refl].
  - destruct (clean_loop_spec inst_id pool fl q ids rest q [] Hwf) as (q' & p' & Hrun & Hwf' & Hfr & Hc'); [done |].
    rewrite Hcnt, Nat2Z.id, Hrun. cbn. rewrite Hc'. cbn. eexists _, p'. split; [done |]. done.
Qed.
