(* ===== verification/GlobalRes.v ===== *)
(** * Global resources (drc_global_res_t)

    A global resource catalog is a hash map of resources plus 1024 partition
    lists that link the same resources; each resource owns a conversion queue
    whose items come from the shared lock item pool.  The page catalog and the
    lock catalog are two instances of the interface [GlobalItem]; the
    invariant [gwf] and the lemmas on linking, unlinking and updating a
    resource are proved once here.
    Source: src/pkg/src/cluster/dtc_drc_util.[ch]. *)

From stdpp Require Import prelude list.
From S2P Require Import Prelude ResPool DrcList ResMap ConvertQ.

Open Scope Z_scope.
Open Scope drc_scope.

Definition DRC_MAX_PART_NUM : Z := 1024.

(** ** What a resource type provides *)

Class GlobalItem (A K : Type) `{HI : ResItem A} `{HL : !ListItem A} `{HK : !ResKey A K} := {
  res_idx : A -> Z;
  res_part : A -> Z;
  res_q : A -> drc_list;
  part_hash : K -> Z;
  part_hash_range k : 0 <= part_hash k < DRC_MAX_PART_NUM;
  key_of_set_node n a : key_of (K := K) (set_node n a) = key_of a;
  res_idx_set_node n a : res_idx (set_node n a) = res_idx a;
  res_idx_set_next n a : res_idx (set_item_next n a) = res_idx a;
  res_part_set_node n a : res_part (set_node n a) = res_part a;
  res_part_set_next n a : res_part (set_item_next n a) = res_part a;
  res_q_set_node n a : res_q (set_node n a) = res_q a;
  res_q_set_next n a : res_q (set_item_next n a) = res_q a;
  res_q_zero : count (res_q item_zero) = 0;
  set_node_next_comm n m a : set_node n (set_item_next m a) = set_item_next m (set_node n a);
}.
#[export] Hint Rewrite @key_of_set_node @res_idx_set_node @res_idx_set_next @res_part_set_node @res_part_set_next
  @res_q_set_node @res_q_set_next @node_of_set @node_of_set_next @item_next_set @item_next_set_node @key_of_set_next : drc.

(** ** Data and operations *)

Record drc_global_res (A : Type) := mk_global { res_map : drc_res_map A; res_parts : list drc_list }.
Arguments mk_global {A}.
Arguments res_map {A}.
Arguments res_parts {A}.

Abbreviation g_items g := (addr (res_pool (res_map g))).

Definition g_set_map {A} (g : drc_global_res A) (m : drc_res_map A) : drc_global_res A := mk_global m (res_parts g).
Definition g_set_pool {A} (g : drc_global_res A) (p : drc_res_pool A) : drc_global_res A :=
  g_set_map g (map_set_pool (res_map g) p).
Definition g_set_items {A} (g : drc_global_res A) (items : list A) : drc_global_res A :=
  g_set_pool g (pool_set_addr (res_pool (res_map g)) items).

Section operations.
Context {A K : Type} `{GlobalItem A K}.
Implicit Types (g : drc_global_res A).

Definition parts_init : list drc_list := replicate (Z.to_nat DRC_MAX_PART_NUM) DRC_LIST_INIT.

Definition drc_global_res_init g (pool_size size : Z) (malloc_ok pool_malloc_ok : bool)
    : outcome (status_t * drc_global_res A) :=
  '(ret, m) ← drc_res_map_init (res_map g) pool_size size malloc_ok pool_malloc_ok;
  Done (ret, mk_global m parts_init).

Definition drc_global_res_destroy g : drc_global_res A :=
  mk_global (drc_res_map_destroy (res_map g)) parts_init.

(** Reading and writing a resource through its pointer. *)
Definition gres_get g (i : Z) : outcome A := arr_get (g_items g) i.
Definition gres_put g (i : Z) (a : A) : outcome (drc_global_res A) :=
  items ← arr_set (g_items g) i a; Done (g_set_items g items).

Definition gres_lookup g (k : K) : outcome (option Z) := map_lookup (res_map g) k.

(** Link resource [i] in front of its partition list. *)
Definition gres_part_add g (i : Z) : outcome (drc_global_res A) :=
  a ← gres_get g i;
  l ← arr_get (res_parts g) (res_part a);
  '(items, l') ← part_list_add (g_items g) l i;
  parts ← arr_set (res_parts g) (res_part a) l';
  Done (mk_global (res_map (g_set_items g items)) parts).

(** Unlink it: the body of [drc_clean_page_from_res_part], which
    [drc_release_page_owner] and [drc_release_lock_res] repeat. *)
Definition drc_clean_page_from_res_part g (i : Z) : outcome (drc_global_res A) :=
  a ← gres_get g i;
  l ← arr_get (res_parts g) (res_part a);
  '(items, l') ← part_list_delete (g_items g) l i;
  parts ← arr_set (res_parts g) (res_part a) l';
  Done (mk_global (res_map (g_set_items g items)) parts).

Definition gres_map_add g (k : K) (i : Z) : outcome (drc_global_res A) :=
  m ← map_add (res_map g) k i; Done (g_set_map g m).

Definition gres_map_remove g (k : K) : outcome (drc_global_res A) :=
  m ← map_remove (res_map g) k; Done (g_set_map g m).

Definition gres_alloc g : outcome (Z * drc_global_res A) :=
  '(i, p) ← drc_res_pool_alloc_item (res_pool (res_map g)); Done (i, g_set_pool g p).

Definition gres_free g (i : Z) : outcome (drc_global_res A) :=
  p ← drc_res_pool_free_item (res_pool (res_map g)) i; Done (g_set_pool g p).

(** Remove from the map, then from the partition list, then memset: the body
    of [drc_clean_page_owner_internal]. *)
Definition drc_clean_page_owner_internal g (i : Z) : outcome (drc_global_res A) :=
  a ← gres_get g i;
  g ← gres_map_remove g (key_of a);
  g ← drc_clean_page_from_res_part g i;
  gres_put g i item_zero.
End operations.

(** ** Partition lists *)

Section parts.
Context {A K : Type} `{GlobalItem A K}.
Implicit Types (items : list A) (parts : list drc_list) (pl : list (list Z)).

Record parts_wf items parts pl : Prop := mk_parts_wf {
  pt_len : length pl = length parts;
  pt_rep : forall h l ids, parts.[h] = Some l -> pl.[h] = Some ids -> list_rep items l ids;
  pt_nodup : NoDup (concat pl);
  pt_item : forall h ids i a, pl.[h] = Some ids -> i ∈ ids -> items.[i] = Some a -> res_part a = h;
}.

Lemma pt_nodup_one items parts pl h ids : parts_wf items parts pl -> pl.[h] = Some ids -> NoDup ids.
Proof.
  intros Hp Hids. pose proof (pt_nodup _ _ _ Hp) as Hnd.
  pose proof (concat_insertZ_perm pl h ids [] Hids) as Hc. cbn in Hc. rewrite Hc in Hnd. by apply NoDup_app in Hnd as [? _].
Qed.

(** Only the node and the partition of the linked items matter. *)
Lemma parts_wf_change items items' parts pl :
  (forall i a, i ∈ concat pl -> items.[i] = Some a ->
     exists a', items'.[i] = Some a' /\ node_of a' = node_of a /\ res_part a' = res_part a) ->
  parts_wf items parts pl -> parts_wf items' parts pl.
Proof.
  intros He Hp. assert (Hin : forall h ids i, pl.[h] = Some ids -> i ∈ ids -> i ∈ concat pl).
  { intros. apply elem_of_concat. eauto. }
  constructor; [by eapply pt_len | | by eapply pt_nodup |].
  - intros h l ids Hl Hids. eapply list_rep_ext; [| by eapply pt_rep]. intros i a Hi Ha.
    destruct (He i a) as (a' & ? & ? & _); eauto.
  - intros h ids i a' Hids Hi Ha'. pose proof (lookupZ_lt _ _ _ Hids) as Hlt.
    destruct (lookupZ_is_Some parts h) as [l Hl]; [rewrite <- (pt_len _ _ _ Hp); lia |].
    destruct (pt_rep _ _ _ Hp _ _ _ Hl Hids) as [Hseg _].
    destruct (dseg_lookup _ _ _ _ _ _ _ Hseg Hi) as (a & Ha & _).
    destruct (He i a) as (a2 & Ha2 & _ & Hpart); [eauto | done |]. simplify_eq. rewrite Hpart. by eapply pt_item.
Qed.

Lemma parts_wf_put items parts pl i a b :
  items.[i] = Some a -> (i ∈ concat pl -> node_of b = node_of a /\ res_part b = res_part a) ->
  parts_wf items parts pl -> parts_wf (items.[i <- b]) parts pl.
Proof.
  intros Ha Hb. apply parts_wf_change. intros j c Hj Hc. pose proof (lookupZ_lt _ _ _ Ha). destruct (decide (i = j)) as [<- |].
  - rewrite lookupZ_insertZ_eq by done. simplify_eq. exists b. split; [done |]. auto.
  - rewrite lookupZ_insertZ_ne by done. eauto.
Qed.

Lemma parts_wf_links items items' parts pl t :
  links_only items items' t -> parts_wf items parts pl -> parts_wf items' parts pl.
Proof.
  intros (_ & _ & Hn). apply parts_wf_change. intros i a _ Ha. destruct (Hn i a Ha) as [n Hi].
  eexists. split; [done |]. by rewrite node_of_set_next, res_part_set_next.
Qed.

(** The other lists are not touched when one list and its nodes change. *)
Lemma parts_wf_one items items' parts pl h l l' ids ids' touched :
  parts_wf items parts pl -> parts.[h] = Some l -> pl.[h] = Some ids ->
  nodes_only items items' touched -> (forall i, i ∈ touched -> i ∈ ids \/ i ∉ concat pl) ->
  list_rep items' l' ids' -> NoDup (concat (pl.[h <- ids'])) ->
  (forall i a, i ∈ ids' -> items'.[i] = Some a -> res_part a = h) ->
  parts_wf items' (parts.[h <- l']) (pl.[h <- ids']).
Proof.
  intros Hp Hl Hids Hno Ht Hrep Hnd Hpart. pose proof (lookupZ_lt _ _ _ Hl). pose proof (lookupZ_lt _ _ _ Hids).
  constructor; [rewrite !length_insertZ; by eapply pt_len | | done |].
  - intros h' l0 ids0 Hl0 Hids0. destruct (decide (h = h')) as [<- | Hne].
    + rewrite lookupZ_insertZ_eq in Hl0 by done. rewrite lookupZ_insertZ_eq in Hids0 by done. by simplify_eq.
    + rewrite lookupZ_insertZ_ne in Hl0 by done. rewrite lookupZ_insertZ_ne in Hids0 by done.
      eapply list_rep_frame; [done | | by eapply pt_rep]. intros i Hi Hit. destruct (Ht i Hit) as [Hi2 | Hi2].
      * pose proof (pt_nodup _ _ _ Hp) as Hnd0. rewrite (concat_insertZ_perm pl h ids [] Hids : concat pl ≡ₚ _) in Hnd0.
        apply NoDup_app in Hnd0 as (_ & Hd & _). apply (Hd i Hi2). apply elem_of_concat. exists h', ids0.
        by rewrite lookupZ_insertZ_ne.
      * apply Hi2, elem_of_concat. eauto.
  - intros h' ids0 i a Hids0 Hi Ha. destruct (decide (h = h')) as [<- | Hne].
    + rewrite lookupZ_insertZ_eq in Hids0 by done. simplify_eq. eauto.
    + rewrite lookupZ_insertZ_ne in Hids0 by done. destruct Hno as (Hlen & _ & Hn).
      destruct (lookupZ_is_Some items i) as [a0 Ha0]; [rewrite <- Hlen; by eapply lookupZ_lt |].
      destruct (Hn i a0 Ha0) as [n Hn']. simplify_eq. rewrite res_part_set_node. by eapply pt_item.
Qed.

Lemma nodes_only_part items items' t i a' :
  nodes_only items items' t -> items'.[i] = Some a' -> exists a, items.[i] = Some a /\ res_part a' = res_part a.
Proof.
  intros (Hlen & _ & Hn) Ha'. destruct (lookupZ_is_Some items i) as [a Ha]; [rewrite <- Hlen; by eapply lookupZ_lt |].
  destruct (Hn i a Ha) as [n Hn']. simplify_eq. exists a. by rewrite res_part_set_node.
Qed.

Lemma parts_wf_add items parts pl i a l :
  Z.of_nat (length items) <= CT_INVALID_ID32 ->
  parts_wf items parts pl -> items.[i] = Some a -> nidx (node_of a) = i -> i ∉ concat pl ->
  parts.[res_part a] = Some l ->
  exists items' l' pl', part_list_add items l i = Done (items', l') /\
    parts_wf items' (parts.[res_part a <- l']) pl' /\ concat pl' ≡ₚ i :: concat pl /\
    nodes_only items items' (i :: concat pl).
Proof.
  intros Hmax Hp Ha Hidx Hi Hl. pose proof (lookupZ_lt _ _ _ Hl) as Hlt.
  destruct (lookupZ_is_Some pl (res_part a)) as [ids Hids]; [rewrite (pt_len _ _ _ Hp); done |].
  assert (Hsub : ids ⊆ concat pl) by (intros x Hx; apply elem_of_concat; eauto).
  destruct (part_list_add_spec items l ids i a) as (items' & l' & Hrun & Hrep & Hno); try done.
  { by eapply pt_rep. } { by eapply pt_nodup_one. } { set_solver. }
  pose proof (concat_cons_perm pl _ i _ Hids) as Hc. exists items', l', (pl.[res_part a <- i :: ids]). split_and!; try done.
  - eapply parts_wf_one; try done.
    + intros j [-> | (? & ? & ?)%elem_of_take]%elem_of_cons; [by right | left]. by eapply list_elem_of_lookup_2.
    + rewrite Hc. constructor; [done | by eapply pt_nodup].
    + intros j b Hj Hb. destruct (nodes_only_part _ _ _ _ _ Hno Hb) as (b0 & Hb0 & ->).
      apply elem_of_cons in Hj as [-> | Hj]; [by simplify_eq | by eapply pt_item].
  - eapply nodes_only_weaken; [| done]. intros j [-> | (? & ? & ?)%elem_of_take]%elem_of_cons; [set_solver |].
    apply elem_of_cons. right. apply Hsub. by eapply list_elem_of_lookup_2.
Qed.

Lemma parts_wf_delete items parts pl i a l :
  Z.of_nat (length items) <= CT_INVALID_ID32 ->
  parts_wf items parts pl -> items.[i] = Some a -> i ∈ concat pl -> parts.[res_part a] = Some l ->
  exists items' l' pl', part_list_delete items l i = Done (items', l') /\
    parts_wf items' (parts.[res_part a <- l']) pl' /\ i :: concat pl' ≡ₚ concat pl /\
    nodes_only items items' (concat pl').
Proof.
  intros Hmax Hp Ha Hi Hl. apply elem_of_concat in Hi as (h & ids & Hids & Hi).
  pose proof (pt_item _ _ _ Hp _ _ _ _ Hids Hi Ha) as Hpart. rewrite Hpart in *.
  pose proof (pt_nodup_one _ _ _ _ _ Hp Hids) as Hnd.
  apply list_elem_of_split in Hi as (pre & post & ->).
  destruct (part_list_delete_spec items l pre i post) as (items' & l' & Hrun & Hrep & Hno); try done.
  { by eapply pt_rep. }
  pose proof (concat_remove_perm pl h pre i post Hids) as Hc.
  pose proof (lookupZ_lt _ _ _ Hids) as Hlt.
  exists items', l', (pl.[h <- pre ++ post]). split_and!; try done.
  - eapply parts_wf_one; try done.
    + intros j Hj. left. set_solver.
    + pose proof (pt_nodup _ _ _ Hp) as Hn. rewrite <- Hc in Hn. by apply NoDup_cons in Hn as [_ ?].
    + intros j b Hj Hb. destruct (nodes_only_part _ _ _ _ _ Hno Hb) as (b0 & Hb0 & ->).
      eapply pt_item; [done | done | | done]. set_solver.
  - eapply nodes_only_weaken; [| done]. intros j Hj. apply elem_of_concat. exists h, (pre ++ post).
    split; [| done]. by apply lookupZ_insertZ_eq.
Qed.
End parts.

(** ** Payloads and the abstract view

    The links (next and node) of a resource are the catalog's business; the
    rest is its payload.  [res_view] is the abstract state of a catalog: what
    a key is mapped to, and the requests waiting for it, oldest first. *)

Fixpoint walk_queue (n : nat) (hd : Z) (items : list drc_lock_item) : list drc_req_info :=
  match n with
  | O => []
  | S n => match items.[hd] with
           | None => []
           | Some it => req_info it :: walk_queue n (li_next it) items
           end
  end.

Definition queue_list (items : list drc_lock_item) (q : drc_list) : list drc_req_info :=
  walk_queue (Z.to_nat (count q)) (first q) items.

Lemma walk_queue_chain items hd ids : chain items hd ids -> walk_queue (length ids) hd items = queue_reqs items ids.
Proof.
  revert hd. induction ids as [| i ids IH]; intros hd Hc; [done |]. cbn in Hc. destruct Hc as (-> & it & Hit & Hc).
  cbn [length walk_queue]. rewrite Hit, (queue_reqs_cons _ _ _ _ Hit). f_equal. by apply IH.
Qed.

Lemma queue_list_rep items q ids : lock_q_rep items q ids -> queue_list items q = queue_reqs items ids.
Proof.
  intros [Hc Hch]. unfold queue_list. rewrite Hc, Nat2Z.id. destruct (decide (ids = [])) as [-> | Hne]; [done |].
  by apply walk_queue_chain, Hch.
Qed.

Section view.
Context {A K : Type} `{GlobalItem A K}.

Definition strip (a : A) : A := set_node (mk_node 0 0 0) (set_item_next 0 a).

Lemma strip_set_next n a : strip (set_item_next n a) = strip a.
Proof. unfold strip. by rewrite set_item_next_set. Qed.

Lemma strip_set_node n a : strip (set_node n a) = strip a.
Proof. unfold strip. by rewrite <- set_node_next_comm, set_node_set. Qed.

Lemma strip_fields a b : strip a = strip b ->
  key_of (K := K) a = key_of b /\ res_idx a = res_idx b /\ res_part a = res_part b /\ res_q a = res_q b.
Proof.
  unfold strip. intros E. split_and!.
  - apply (f_equal key_of) in E. by rewrite !key_of_set_node, !key_of_set_next in E.
  - apply (f_equal res_idx) in E. by rewrite !res_idx_set_node, !res_idx_set_next in E.
  - apply (f_equal res_part) in E. by rewrite !res_part_set_node, !res_part_set_next in E.
  - apply (f_equal res_q) in E. by rewrite !res_q_set_node, !res_q_set_next in E.
Qed.

Definition res_view (pool : lock_pool) (g : drc_global_res A) (k : K) : option (A * list drc_req_info) :=
  match gres_lookup g k with
  | Done (Some i) => a ← (g_items g).[i]; Some (strip a, queue_list (addr pool) (res_q a))
  | _ => None
  end.

(** Except at [i], payloads are the same. *)
Definition payloads_but (i : Z) (items items' : list A) : Prop :=
  length items' = length items /\
  forall j a, j <> i -> items.[j] = Some a -> exists a', items'.[j] = Some a' /\ strip a' = strip a.

Lemma payloads_links i items items' t : links_only items items' t -> payloads_but i items items'.
Proof.
  intros (Hl & _ & Hn). split; [done |]. intros j a _ Ha. destruct (Hn j a Ha) as [n ->]. eexists. split; [done |].
  apply strip_set_next.
Qed.

Lemma payloads_nodes i items items' t : nodes_only items items' t -> payloads_but i items items'.
Proof.
  intros (Hl & _ & Hn). split; [done |]. intros j a _ Ha. destruct (Hn j a Ha) as [n ->]. eexists. split; [done |].
  apply strip_set_node.
Qed.

Lemma payloads_put i items a : payloads_but i items (items.[i <- a]).
Proof. split; [apply length_insertZ |]. intros j b Hj Hb. rewrite lookupZ_insertZ_ne by done. eauto. Qed.

Lemma payloads_refl i items : payloads_but i items items.
Proof. split; eauto. Qed.

Lemma payloads_trans i items1 items2 items3 :
  payloads_but i items1 items2 -> payloads_but i items2 items3 -> payloads_but i items1 items3.
Proof.
  intros [Hl1 H1'] [Hl2 H2']. split; [congruence |]. intros j a Hj Ha.
  destruct (H1' j a Hj Ha) as (a1 & Ha1 & Hs1). destruct (H2' j a1 Hj Ha1) as (a2 & Ha2 & Hs2).
  exists a2. split; [done | congruence].
Qed.

Lemma payloads_back i items items' j a' :
  payloads_but i items items' -> j <> i -> items'.[j] = Some a' -> exists a, items.[j] = Some a /\ strip a' = strip a.
Proof.
  intros [Hl Hp] Hj Ha'. destruct (lookupZ_is_Some items j) as [a Ha]; [rewrite <- Hl; by eapply lookupZ_lt |].
  destruct (Hp j a Hj Ha) as (a2 & Ha2 & Hs). simplify_eq. eauto.
Qed.
End view.

(** ** The invariant *)

(** The sequences a catalog stands for: free and held resources, the
    resources of every bucket and partition, the lock items of every
    resource's queue, the free lock items, and all other lock items. *)
Record gghost := mk_gg {
  gg_free : list Z; gg_held : list Z; gg_bl : list (list Z); gg_pl : list (list Z);
  gg_ql : list (list Z); gg_lfree : list Z; gg_lrest : list Z;
}.

Abbreviation linked gh := (concat (gg_bl gh)).

Section wf.
Context {A K : Type} `{GlobalItem A K}.
(** The protocol invariant of one linked resource and its waiting requests. *)
Context (P : A -> list drc_req_info -> Prop).
Context (HPstrip : forall a b rs, strip a = strip b -> P a rs -> P b rs).
Implicit Types (gh : gghost) (pool : lock_pool) (g : drc_global_res A).

Record gwf gh pool g : Prop := mk_gwf {
  gw_map : map_wf (K := K) (res_map g) (gg_free gh) (gg_held gh) (gg_bl gh);
  gw_parts : parts_wf (g_items g) (res_parts g) (gg_pl gh);
  gw_nparts : Z.of_nat (length (res_parts g)) = DRC_MAX_PART_NUM;
  gw_linked : concat (gg_pl gh) ≡ₚ linked gh;
  gw_qlen : length (gg_ql gh) = length (g_items g);
  gw_queues : forall i a ids, (g_items g).[i] = Some a -> (gg_ql gh).[i] = Some ids -> lock_q_rep (addr pool) (res_q a) ids;
  gw_unlinked : forall i ids, (gg_ql gh).[i] = Some ids -> i ∉ linked gh -> ids = [];
  gw_blank : forall i a, i ∉ linked gh -> (g_items g).[i] = Some a -> strip a = strip item_zero;
  gw_lpool : pool_wf pool (gg_lfree gh);
  gw_lperm : gg_lfree gh ++ concat (gg_ql gh) ++ gg_lrest gh ≡ₚ seqZ 0 (item_num pool);
  gw_self : forall i a, i ∈ linked gh -> (g_items g).[i] = Some a -> res_idx a = i /\ res_part a = part_hash (K := K) (key_of a);
  gw_inv : forall i a ids, i ∈ linked gh -> (g_items g).[i] = Some a -> (gg_ql gh).[i] = Some ids ->
             P a (queue_reqs (addr pool) ids);
}.

Section one.
Context {gh : gghost} {pool : lock_pool} {g : drc_global_res A}.
Hypothesis Hwf : gwf gh pool g.

Lemma gwf_lookup k :
  exists r, gres_lookup g k = Done r /\
    match r with
    | Some i => i ∈ linked gh /\ exists a ids, (g_items g).[i] = Some a /\ (gg_ql gh).[i] = Some ids /\ key_of a = k
    | None => forall i a, i ∈ linked gh -> (g_items g).[i] = Some a -> key_of a <> k
    end.
Proof.
  destruct (map_lookup_spec (gw_map _ _ _ Hwf) k) as (r & Hr & Hcase). exists r. split; [done |].
  destruct r as [i |]; [| done]. destruct Hcase as (Hi & a & Ha & Hk). split; [done |].
  destruct (lookupZ_is_Some (gg_ql gh) i) as [ids Hids]; [rewrite (gw_qlen _ _ _ Hwf); by eapply lookupZ_lt |].
  eauto.
Qed.

Lemma gwf_lookup_Some k i a :
  i ∈ linked gh -> (g_items g).[i] = Some a -> key_of a = k -> gres_lookup g k = Done (Some i).
Proof. apply (map_lookup_Some (gw_map _ _ _ Hwf)). Qed.

Lemma gwf_ql i a : (g_items g).[i] = Some a -> exists ids, (gg_ql gh).[i] = Some ids.
Proof. intros Ha. apply lookupZ_is_Some. rewrite (gw_qlen _ _ _ Hwf). by eapply lookupZ_lt. Qed.

Lemma gwf_max : Z.of_nat (length (g_items g)) <= CT_INVALID_ID32.
Proof.
  pose proof (mw_pool _ _ _ _ (gw_map _ _ _ Hwf)) as Hp. rewrite (pw_len _ _ Hp). apply (pw_max _ _ Hp).
Qed.

(** The queue of one resource, among all others. *)
Lemma gwf_queue i a ids :
  (g_items g).[i] = Some a -> (gg_ql gh).[i] = Some ids ->
  queue_wf pool (gg_lfree gh) (res_q a) ids (concat ((gg_ql gh).[i <- []]) ++ gg_lrest gh).
Proof.
  intros Ha Hids. constructor; [by eapply gw_lpool | by eapply gw_queues |].
  rewrite <- (gw_lperm _ _ _ Hwf). apply Permutation_app_head.
  pose proof (concat_insertZ_perm _ _ _ [] Hids) as Hc. cbn in Hc. rewrite Hc. by rewrite (assoc_L (++)).
Qed.

(** The view of a key. *)
Lemma gwf_view_Some i a ids :
  i ∈ linked gh -> (g_items g).[i] = Some a -> (gg_ql gh).[i] = Some ids ->
  res_view pool g (key_of a) = Some (strip a, queue_reqs (addr pool) ids).
Proof.
  intros Hi Ha Hids. unfold res_view. rewrite (gwf_lookup_Some (key_of a) i a) by done. cbn. rewrite Ha. cbn.
  by rewrite (queue_list_rep _ _ ids) by (by eapply gw_queues).
Qed.

Lemma gwf_view k :
  match res_view pool g k with
  | Some (b, rs) => exists i a ids, gres_lookup g k = Done (Some i) /\ i ∈ linked gh /\ (g_items g).[i] = Some a /\
      (gg_ql gh).[i] = Some ids /\ key_of a = k /\ b = strip a /\ rs = queue_reqs (addr pool) ids
  | None => gres_lookup g k = Done None /\
      forall i a, i ∈ linked gh -> (g_items g).[i] = Some a -> key_of a <> k
  end.
Proof.
  destruct (gwf_lookup k) as ([i |] & Hl & Hcase).
  - destruct Hcase as (Hi & a & ids & Ha & Hids & <-). rewrite (gwf_view_Some i a ids) by done.
    exists i, a, ids. done.
  - unfold res_view. rewrite Hl. done.
Qed.
End one.

(** *** Changing one resource and its queue *)

Lemma queue_frame (pool pool' : lock_pool) ql i j ids lrest :
  frame_items pool pool' (concat (ql.[i <- []]) ++ lrest) -> ql.[j] = Some ids -> i <> j ->
  forall x, x ∈ ids -> (addr pool').[x] = (addr pool).[x].
Proof.
  intros [_ Hf] Hids Hij x Hx. apply Hf. apply elem_of_app. left. apply elem_of_concat. exists j, ids.
  by rewrite lookupZ_insertZ_ne.
Qed.

Lemma lock_q_rep_ext (items items' : list drc_lock_item) q ids :
  (forall x, x ∈ ids -> items'.[x] = items.[x]) -> lock_q_rep items q ids -> lock_q_rep items' q ids.
Proof.
  intros He [Hc Hch]. split; [done |]. intros Hne. destruct (Hch Hne) as [Hchain Hl]. split; [| done].
  eapply chain_ext; [| done]. intros x b Hx Hb. exists b. by rewrite He.
Qed.

Lemma queue_reqs_same (items items' : list drc_lock_item) ids :
  (forall x, x ∈ ids -> items'.[x] = items.[x]) -> queue_reqs items' ids = queue_reqs items ids.
Proof. intros He. apply queue_reqs_ext. intros x Hx. by rewrite He. Qed.

(** Keys other than [k0] look the same in both states. *)
Definition view_but (k0 : K) pool g pool' g' : Prop :=
  forall k, k <> k0 -> res_view pool' g' k = res_view pool g k.

Lemma gwf_view_ext gh pool g gh' pool' g' k :
  gwf gh pool g -> gwf gh' pool' g' ->
  (forall j a ids, j ∈ linked gh -> (g_items g).[j] = Some a -> key_of a = k -> (gg_ql gh).[j] = Some ids ->
     j ∈ linked gh' /\ exists a' ids', (g_items g').[j] = Some a' /\ (gg_ql gh').[j] = Some ids' /\
       strip a' = strip a /\ queue_reqs (addr pool') ids' = queue_reqs (addr pool) ids) ->
  (forall j a', j ∈ linked gh' -> (g_items g').[j] = Some a' -> key_of a' = k ->
     j ∈ linked gh /\ exists a, (g_items g).[j] = Some a /\ key_of a = k) ->
  res_view pool' g' k = res_view pool g k.
Proof.
  intros Hwf Hwf' Hto Hfrom. pose proof (gwf_view Hwf k) as Hv. destruct (res_view pool g k) as [[b rs] |].
  - destruct Hv as (j & a & ids & _ & Hj & Ha & Hids & Hk & -> & ->).
    destruct (Hto j a ids) as (Hj' & a' & ids' & Ha' & Hids' & Hs & Hq); try done.
    destruct (strip_fields _ _ Hs) as (Hk' & _). rewrite <- Hk, <- Hk', (gwf_view_Some Hwf' j a' ids') by done.
    by rewrite Hs, Hq.
  - pose proof (gwf_view Hwf' k) as Hv'. destruct (res_view pool' g' k) as [[b rs] |]; [| done].
    destruct Hv' as (j & a' & ids' & _ & Hj & Ha' & _ & Hk & _). destruct (Hfrom j a') as (Hj' & a & Ha & Hka); try done.
    destruct Hv as [_ Hv]. by destruct (Hv j a).
Qed.

Lemma gwf_update gh pool g i a a' ids ids' pool' lfree' extra :
  gwf gh pool g -> i ∈ linked gh -> (g_items g).[i] = Some a -> (gg_ql gh).[i] = Some ids ->
  item_next a' = item_next a -> node_of a' = node_of a -> key_of (K := K) a' = key_of a ->
  res_idx a' = res_idx a -> res_part a' = res_part a ->
  queue_wf pool' lfree' (res_q a') ids' (extra ++ concat ((gg_ql gh).[i <- []]) ++ gg_lrest gh) ->
  frame_items pool pool' (concat ((gg_ql gh).[i <- []]) ++ gg_lrest gh) ->
  P a' (queue_reqs (addr pool') ids') ->
  let gh' := mk_gg (gg_free gh) (gg_held gh) (gg_bl gh) (gg_pl gh) ((gg_ql gh).[i <- ids']) lfree' (extra ++ gg_lrest gh) in
  let g' := g_set_items g ((g_items g).[i <- a']) in
  gres_put g i a' = Done g' /\ gwf gh' pool' g' /\ view_but (key_of a) pool g pool' g' /\
  res_view pool' g' (key_of a) = Some (strip a', queue_reqs (addr pool') ids').
Proof.
  intros Hwf Hi Ha Hids Hnext Hnode Hkey Hidx Hpart Hq Hfr HP gh' g'.
  pose proof (lookupZ_lt _ _ _ Ha) as Hlt. pose proof (lookupZ_lt _ _ _ Hids) as Hltq.
  assert (Hwf' : gwf gh' pool' g').
  { constructor; cbn; rewrite ?length_insertZ.
    - apply (map_wf_put (gw_map _ _ _ Hwf) i a); [done | by right].
    - apply (parts_wf_put _ _ _ i a); [done | done | by eapply gw_parts].
    - by eapply gw_nparts.
    - by eapply gw_linked.
    - by eapply gw_qlen.
    - intros j b ids0 Hb Hids0. destruct (decide (i = j)) as [<- |].
      + rewrite lookupZ_insertZ_eq in Hb by done. rewrite lookupZ_insertZ_eq in Hids0 by done. simplify_eq. by eapply qw_rep.
      + rewrite lookupZ_insertZ_ne in Hb by done. rewrite lookupZ_insertZ_ne in Hids0 by done.
        eapply lock_q_rep_ext; [by eapply queue_frame | by eapply gw_queues].
    - intros j ids0 Hids0 Hj. destruct (decide (i = j)) as [<- |]; [done |].
      rewrite lookupZ_insertZ_ne in Hids0 by done. by eapply gw_unlinked.
    - intros j b Hj Hb. apply lookupZ_insertZ_Some in Hb as [[<- <-] | [_ Hb]]; [done | by eapply gw_blank].
    - by eapply qw_pool.
    - rewrite <- (qw_perm _ _ _ _ _ Hq). apply Permutation_app_head.
      pose proof (concat_insertZ_perm ((gg_ql gh).[i <- []]) i [] ids') as Hc. rewrite insertZ_insertZ in Hc. cbn in Hc.
      rewrite <- Hc by (by apply lookupZ_insertZ_eq).
      rewrite <- (assoc_L (++)). apply Permutation_app_head. apply Permutation_app_swap_app.
    - intros j b Hj Hb. destruct (decide (i = j)) as [<- |].
      + rewrite lookupZ_insertZ_eq in Hb by done. simplify_eq. rewrite Hidx, Hpart, Hkey. by eapply gw_self.
      + rewrite lookupZ_insertZ_ne in Hb by done. by eapply gw_self.
    - intros j b ids0 Hj Hb Hids0. destruct (decide (i = j)) as [<- |].
      + rewrite lookupZ_insertZ_eq in Hb by done. rewrite lookupZ_insertZ_eq in Hids0 by done. by simplify_eq.
      + rewrite lookupZ_insertZ_ne in Hb by done. rewrite lookupZ_insertZ_ne in Hids0 by done.
        rewrite (queue_reqs_same (addr pool)); [by eapply gw_inv | by eapply queue_frame]. }
  split_and!.
  - unfold gres_put. by rewrite (arr_set_eq _ _ _ _ Ha).
  - done.
  - intros k Hk. eapply gwf_view_ext; [done | done | |]; cbn.
    + intros j b ids0 Hj Hb Hkb Hids0. split; [done |]. assert (i <> j) by (intros <-; by simplify_eq).
      exists b, ids0. rewrite !lookupZ_insertZ_ne by done. split_and!; try done. apply queue_reqs_same. by eapply queue_frame.
    + intros j b Hj Hb Hkb. split; [done |]. apply lookupZ_insertZ_Some in Hb as [[<- <-] | [Hne Hb]]; [congruence | eauto].
  - rewrite <- Hkey. apply (gwf_view_Some Hwf' i).
    + done.
    + cbn. by apply lookupZ_insertZ_eq.
    + cbn. by apply lookupZ_insertZ_eq.
Qed.

(** *** Changing the structure around one resource whose queue is empty *)

Lemma gwf_rebuild gh pool g g' i fl' held' bl' pl' :
  gwf gh pool g ->
  map_wf (K := K) (res_map g') fl' held' bl' -> parts_wf (g_items g') (res_parts g') pl' ->
  length (res_parts g') = length (res_parts g) -> concat pl' ≡ₚ concat bl' ->
  payloads_but i (g_items g) (g_items g') -> (gg_ql gh).[i] = Some [] ->
  (forall j, j <> i -> j ∈ concat bl' <-> j ∈ linked gh) ->
  (forall a, (g_items g').[i] = Some a -> count (res_q a) = 0 /\ (i ∉ concat bl' -> strip a = strip item_zero) /\
     (i ∈ concat bl' -> res_idx a = i /\ res_part a = part_hash (K := K) (key_of a) /\ P a [])) ->
  gwf (mk_gg fl' held' bl' pl' (gg_ql gh) (gg_lfree gh) (gg_lrest gh)) pool g' /\
  (forall k, (forall a, i ∈ linked gh -> (g_items g).[i] = Some a -> key_of a <> k) ->
     (forall a, i ∈ concat bl' -> (g_items g').[i] = Some a -> key_of a <> k) -> res_view pool g' k = res_view pool g k).
Proof.
  intros Hwf Hmap Hparts Hnp Hlink Hpay Hqi Hmem Hi.
  assert (Hwf' : gwf (mk_gg fl' held' bl' pl' (gg_ql gh) (gg_lfree gh) (gg_lrest gh)) pool g').
  { constructor; cbn; try done.
    - rewrite Hnp. by eapply gw_nparts.
    - rewrite (proj1 Hpay). by eapply gw_qlen.
    - intros j a ids Ha Hids. destruct (decide (j = i)) as [-> |].
      + simplify_eq. destruct (Hi a Ha) as [Hc _]. split; [done |]. done.
      + destruct (payloads_back _ _ _ _ _ Hpay ltac:(done) Ha) as (b & Hb & Hs).
        destruct (strip_fields _ _ Hs) as (_ & _ & _ & ->). by eapply gw_queues.
    - intros j ids Hids Hj. destruct (decide (j = i)) as [-> |]; [by simplify_eq |].
      eapply gw_unlinked; [done | done |]. by rewrite <- Hmem.
    - intros j a Hj Ha. destruct (decide (j = i)) as [-> |]; [by apply Hi |].
      destruct (payloads_back _ _ _ _ _ Hpay ltac:(done) Ha) as (b & Hb & ->). eapply gw_blank; [done | | done].
      by rewrite <- Hmem.
    - by eapply gw_lpool.
    - by eapply gw_lperm.
    - intros j a Hj Ha. destruct (decide (j = i)) as [-> |]; [destruct (Hi a Ha) as (_ & _ & [? [? _]]); done |].
      destruct (payloads_back _ _ _ _ _ Hpay ltac:(done) Ha) as (b & Hb & Hs).
      destruct (strip_fields _ _ Hs) as (-> & -> & -> & _). eapply gw_self; [done | by apply Hmem | done].
    - intros j a ids Hj Ha Hids. destruct (decide (j = i)) as [-> |].
      + simplify_eq. destruct (Hi a Ha) as (_ & _ & [_ [_ HP]]); done.
      + destruct (payloads_back _ _ _ _ _ Hpay ltac:(done) Ha) as (b & Hb & Hs).
        eapply HPstrip; [by symmetry | eapply gw_inv; [done | by apply Hmem | done | done]]. }
  split; [done |]. intros k Hk1 Hk2. eapply gwf_view_ext; [done | done | |]; cbn.
  - intros j a ids Hj Ha Hk Hids. assert (j <> i) by (intros ->; by eapply Hk1). split; [by apply Hmem |].
    destruct Hpay as [_ Hpay]. destruct (Hpay j a) as (a' & Ha' & Hs); [done | done |]. exists a', ids. done.
  - intros j a' Hj Ha' Hk. assert (j <> i) by (intros ->; by eapply Hk2). split; [by apply Hmem |].
    destruct (payloads_back _ _ _ _ _ Hpay ltac:(done) Ha') as (b & Hb & Hs). exists b. split; [done |].
    destruct (strip_fields _ _ Hs) as (<- & _). done.
Qed.

(** *** Pool operations *)

Lemma gwf_held_unlinked gh pool g i :
  gwf gh pool g -> i ∈ gg_free gh ++ gg_held gh -> i ∉ linked gh.
Proof.
  intros Hwf Hi Hl. pose proof (mw_nodup (gw_map _ _ _ Hwf)) as Hnd. rewrite (assoc_L (++)) in Hnd.
  apply NoDup_app in Hnd as (_ & Hd & _). by apply (Hd i).
Qed.

Lemma gwf_unlinked_q gh pool g i a :
  gwf gh pool g -> i ∉ linked gh -> (g_items g).[i] = Some a -> (gg_ql gh).[i] = Some [] /\ count (res_q a) = 0.
Proof.
  intros Hwf Hi Ha. destruct (gwf_ql Hwf i a Ha) as [ids Hids].
  rewrite (gw_unlinked _ _ _ Hwf _ _ Hids Hi) in Hids. split; [done |]. by destruct (gw_queues _ _ _ Hwf _ _ _ Ha Hids).
Qed.

Lemma gwf_held_item gh pool g i :
  gwf gh pool g -> i ∈ gg_free gh ++ gg_held gh -> exists a, (g_items g).[i] = Some a.
Proof. intros Hwf Hi. apply (mw_item (gw_map _ _ _ Hwf)). rewrite (assoc_L (++)). set_solver. Qed.

Lemma gwf_alloc gh pool g i fl :
  gwf gh pool g -> gg_free gh = i :: fl ->
  exists g', gres_alloc g = Done (i, g') /\ i <> CT_INVALID_ID32 /\
    gwf (mk_gg fl (i :: gg_held gh) (gg_bl gh) (gg_pl gh) (gg_ql gh) (gg_lfree gh) (gg_lrest gh)) pool g' /\
    g_items g' = g_items g /\ forall k, res_view pool g' k = res_view pool g k.
Proof.
  intros Hwf Hfl. destruct (gwf_held_item gh pool g i Hwf) as [a Ha]; [rewrite Hfl; set_solver |].
  assert (Hni : i ∉ linked gh) by (eapply gwf_held_unlinked; [done | rewrite Hfl; set_solver]).
  pose proof (gw_map _ _ _ Hwf) as Hm. rewrite Hfl in Hm.
  destruct (map_wf_alloc _ _ _ _ _ Hm) as (p' & Hrun & Hm' & Haddr & _ & _).
  destruct (gwf_rebuild gh pool g (g_set_pool g p') i fl (i :: gg_held gh) (gg_bl gh) (gg_pl gh)) as [Hwf' Hv];
    cbn; rewrite ?Haddr; try done.
  - by eapply gw_parts.
  - by eapply gw_linked.
  - apply payloads_refl.
  - by eapply gwf_unlinked_q.
  - intros b Hb. simplify_eq. split_and!; [by eapply gwf_unlinked_q | by intros; eapply gw_blank | done].
  - exists (g_set_pool g p'). unfold gres_alloc. rewrite Hrun. cbn. split_and!; try done.
    + pose proof (lookupZ_lt _ _ _ Ha). pose proof (gwf_max Hwf). lia.
    + intros k. by apply Hv.
Qed.

Lemma gwf_alloc_nil gh pool g :
  gwf gh pool g -> gg_free gh = [] -> gres_alloc g = Done (CT_INVALID_ID32, g).
Proof.
  intros Hwf Hfl. pose proof (mw_pool _ _ _ _ (gw_map _ _ _ Hwf)) as Hp. rewrite Hfl in Hp.
  unfold gres_alloc. rewrite (alloc_item_nil _ Hp). by destruct g as [[] ?].
Qed.

Lemma gwf_free gh pool g i held' :
  gwf gh pool g -> gg_held gh ≡ₚ i :: held' ->
  exists g', gres_free g i = Done g' /\
    gwf (mk_gg (i :: gg_free gh) held' (gg_bl gh) (gg_pl gh) (gg_ql gh) (gg_lfree gh) (gg_lrest gh)) pool g' /\
    (forall k, res_view pool g' k = res_view pool g k) /\
    payloads_but CT_INVALID_ID32 (g_items g) (g_items g').
Proof.
  intros Hwf Hheld. assert (Hih : i ∈ gg_free gh ++ gg_held gh) by (rewrite Hheld; set_solver).
  destruct (gwf_held_item gh pool g i Hwf Hih) as [a Ha]. pose proof (gwf_held_unlinked _ _ _ _ Hwf Hih) as Hni.
  destruct (gwf_unlinked_q _ _ _ _ _ Hwf Hni Ha) as [Hq Hc].
  destruct (map_wf_free (gw_map _ _ _ Hwf) i held' Hheld) as (p' & Hrun & Hm' & Hlo & _ & _).
  exists (g_set_pool g p'). unfold gres_free. rewrite Hrun. cbn. split; [done |].
  destruct (gwf_rebuild gh pool g (g_set_pool g p') i (i :: gg_free gh) held' (gg_bl gh) (gg_pl gh)) as [Hwf' Hv]; cbn; try done.
  - eapply parts_wf_links; [done | by eapply gw_parts].
  - by eapply gw_linked.
  - by eapply payloads_links.
  - intros b Hb. destruct Hlo as (_ & _ & Hn). destruct (Hn i a Ha) as [n Hn']. simplify_eq.
    rewrite res_q_set_next, strip_set_next. split_and!; [done | by intros; eapply gw_blank | done].
  - split; [done |]. split; [intros k; by apply Hv |]. by eapply payloads_links.
Qed.

(** *** Linking a new resource *)

(** Resource [i] is in the map but not yet in a partition list. *)
Record half_linked gh pool g i (k : K) held' bl' g1 (a1 : A) : Prop := mk_half {
  hl_wf : gwf gh pool g;
  hl_held : gg_held gh ≡ₚ i :: held';
  hl_map : map_wf (K := K) (res_map g1) (gg_free gh) held' bl';
  hl_bl : concat bl' ≡ₚ i :: linked gh;
  hl_parts : parts_wf (g_items g1) (res_parts g1) (gg_pl gh);
  hl_same : res_parts g1 = res_parts g;
  hl_pay : payloads_but i (g_items g) (g_items g1);
  hl_item : (g_items g1).[i] = Some a1;
  hl_key : key_of a1 = k;
  hl_new : forall j a, j ∈ linked gh -> (g_items g).[j] = Some a -> key_of a <> k;
  hl_q : count (res_q a1) = 0;
}.

Lemma hl_unlinked gh pool g i k held' bl' g1 a1 :
  half_linked gh pool g i k held' bl' g1 a1 -> i ∉ linked gh /\ i ∉ concat (gg_pl gh) /\ (gg_ql gh).[i] = Some [].
Proof.
  intros Hh. pose proof (hl_wf _ _ _ _ _ _ _ _ _ Hh) as Hwf.
  assert (Hih : i ∈ gg_free gh ++ gg_held gh) by (rewrite (hl_held _ _ _ _ _ _ _ _ _ Hh); set_solver).
  pose proof (gwf_held_unlinked _ _ _ _ Hwf Hih) as Hni. destruct (gwf_held_item _ _ _ _ Hwf Hih) as [a Ha].
  split; [done |]. split; [by rewrite (gw_linked _ _ _ Hwf) | by eapply gwf_unlinked_q].
Qed.

(** Fill a held item and link it into the bucket of its key. *)
Lemma gwf_map_add gh pool g i k a held' :
  gwf gh pool g -> gg_held gh ≡ₚ i :: held' -> key_of a = k -> count (res_q a) = 0 ->
  (forall j b, j ∈ linked gh -> (g_items g).[j] = Some b -> key_of b <> k) ->
  exists g0 g1 bl' n, gres_put g i a = Done g0 /\ gres_map_add g0 k i = Done g1 /\
    half_linked gh pool g i k held' bl' g1 (set_item_next n a).
Proof.
  intros Hwf Hheld Hk Hc Hnew. assert (Hih : i ∈ gg_free gh ++ gg_held gh) by (rewrite Hheld; set_solver).
  pose proof (gwf_held_unlinked _ _ _ _ Hwf Hih) as Hni. destruct (gwf_held_item _ _ _ _ Hwf Hih) as [a0 Ha0].
  pose proof (lookupZ_lt _ _ _ Ha0) as Hlt. set (items0 := (g_items g).[i <- a]).
  assert (Hm0 : map_wf (K := K) (res_map (g_set_items g items0)) (gg_free gh) (gg_held gh) (gg_bl gh)).
  { apply (map_wf_put (gw_map _ _ _ Hwf) i a0); [done |]. left. rewrite Hheld. set_solver. }
  assert (Ha : items0.[i] = Some a) by (by apply lookupZ_insertZ_eq).
  destruct (map_wf_add _ _ _ _ _ _ _ _ Hm0 Hheld Ha Hk) as (m' & bl' & Hrun & Hm' & Hbl & Hlo & _ & _).
  { cbn. intros j b Hj Hb. unfold items0 in Hb. rewrite lookupZ_insertZ_ne in Hb by (intros <-; done). by eapply Hnew. }
  pose proof Hlo as (_ & _ & Hn). destruct (Hn i a Ha) as [n Hi]. exists (g_set_items g items0), (g_set_map g m'), bl', n.
  split_and!.
  - unfold gres_put. by rewrite (arr_set_eq _ _ _ _ Ha0).
  - unfold gres_map_add. by rewrite Hrun.
  - constructor; cbn; try done.
    + eapply parts_wf_links; [done |]. apply (parts_wf_put _ _ _ i a0); [done | | by eapply gw_parts].
      rewrite (gw_linked _ _ _ Hwf). done.
    + eapply payloads_trans; [apply (payloads_put i (g_items g) a) |]. eapply payloads_links. exact Hlo.
    + by rewrite key_of_set_next.
    + by rewrite res_q_set_next.
Qed.

Lemma half_linked_put gh pool g i k held' bl' g1 a1 b :
  half_linked gh pool g i k held' bl' g1 a1 -> item_next b = item_next a1 -> key_of (K := K) b = key_of a1 ->
  count (res_q b) = 0 ->
  gres_put g1 i b = Done (g_set_items g1 ((g_items g1).[i <- b])) /\
  half_linked gh pool g i k held' bl' (g_set_items g1 ((g_items g1).[i <- b])) b.
Proof.
  intros Hh Hn Hk Hc. pose proof (hl_item _ _ _ _ _ _ _ _ _ Hh) as Hi. pose proof (lookupZ_lt _ _ _ Hi) as Hlt.
  destruct (hl_unlinked _ _ _ _ _ _ _ _ _ Hh) as (_ & Hpl & _).
  split; [unfold gres_put; by rewrite (arr_set_eq _ _ _ _ Hi) |]. destruct Hh. constructor; cbn; try done.
  - apply (map_wf_put hl_map0 i a1); [done | by right].
  - by apply (parts_wf_put _ _ _ i a1).
  - eapply payloads_trans; [done | apply payloads_put].
  - by apply lookupZ_insertZ_eq.
  - congruence.
Qed.

Lemma gwf_insert gh pool g i k held' bl' g1 a1 :
  half_linked gh pool g i k held' bl' g1 a1 -> nidx (node_of a1) = i -> res_idx a1 = i -> res_part a1 = part_hash k ->
  P a1 [] ->
  exists g2 pl', gres_part_add g1 i = Done g2 /\
    gwf (mk_gg (gg_free gh) held' bl' pl' (gg_ql gh) (gg_lfree gh) (gg_lrest gh)) pool g2 /\
    view_but k pool g pool g2 /\ res_view pool g2 k = Some (strip a1, []).
Proof.
  intros Hh Hnidx Hidx Hpart HP. destruct (hl_unlinked _ _ _ _ _ _ _ _ _ Hh) as (Hni & Hpl & Hq).
  destruct Hh as [Hwf Hheld Hm Hbl Hparts Hsame Hpay Hi Hk Hnew Hc].
  assert (Hmax : Z.of_nat (length (g_items g1)) <= CT_INVALID_ID32).
  { rewrite (proj1 Hpay). by apply (gwf_max Hwf). }
  destruct (lookupZ_is_Some (res_parts g1) (res_part a1)) as [l Hl].
  { rewrite Hsame, (gw_nparts _ _ _ Hwf), Hpart. apply part_hash_range. }
  destruct (parts_wf_add (g_items g1) (res_parts g1) (gg_pl gh) i a1 l) as (items2 & l' & pl' & Hrun & Hparts2 & Hpl2 & Hno); try done.
  pose proof Hno as (Hlen2 & _ & Hn2). destruct (Hn2 i a1 Hi) as [n Hi2].
  set (g2 := mk_global (res_map (g_set_items g1 items2)) ((res_parts g1).[res_part a1 <- l'])). exists g2, pl'.
  unfold gres_part_add, gres_get. rewrite (arr_get_eq _ _ _ Hi). cbn. rewrite (arr_get_eq _ _ _ Hl). cbn.
  rewrite Hrun. cbn. rewrite (arr_set_eq _ _ _ _ Hl). cbn. split; [done |].
  assert (Hki : key_of (set_node n a1) = k) by (by rewrite key_of_set_node).
  destruct (gwf_rebuild gh pool g g2 i (gg_free gh) held' bl' pl') as [Hwf2 Hv]; try done.
  - apply (map_wf_change Hm); [done |]. intros j a _ Ha. destruct (Hn2 j a Ha) as [n' Hj]. eexists. split; [done |].
    by rewrite item_next_set_node, key_of_set_node.
  - cbn. by rewrite length_insertZ, Hsame.
  - by rewrite Hpl2, Hbl, (gw_linked _ _ _ Hwf).
  - eapply payloads_trans; [done |]. by eapply payloads_nodes.
  - intros j Hj. rewrite Hbl. set_solver.
  - cbn. intros a Ha. rewrite Hi2 in Ha. simplify_eq. rewrite res_q_set_node, res_idx_set_node, res_part_set_node.
    split; [done |]. split; [intros []; rewrite Hbl; set_solver |].
    intros _. split_and!; [done | by rewrite Hki |]. eapply HPstrip; [| done]. by rewrite strip_set_node.
  - split; [done |]. split.
    + intros k' Hk'. apply Hv; [done |]. cbn. rewrite Hi2. intros a _ Ha. simplify_eq. congruence.
    + rewrite <- Hki, <- (strip_set_node n a1). change (@nil drc_req_info) with (queue_reqs (addr pool) []).
      apply (gwf_view_Some Hwf2 i); [| done | done]. cbn. rewrite Hbl. set_solver.
Qed.

(** Unlinking before the partition list was touched. *)
Lemma gwf_insert_undo gh pool g i k held' bl' g1 a1 :
  half_linked gh pool g i k held' bl' g1 a1 ->
  exists g2 g3 g4 bl2, gres_map_remove g1 k = Done g2 /\ gres_put g2 i item_zero = Done g3 /\ gres_free g3 i = Done g4 /\
    gwf (mk_gg (i :: gg_free gh) held' bl2 (gg_pl gh) (gg_ql gh) (gg_lfree gh) (gg_lrest gh)) pool g4 /\
    concat bl2 ≡ₚ linked gh /\ forall k', res_view pool g4 k' = res_view pool g k'.
Proof.
  intros Hh. destruct (hl_unlinked _ _ _ _ _ _ _ _ _ Hh) as (Hni & Hpl & Hq).
  destruct Hh as [Hwf Hheld Hm Hbl Hparts Hsame Hpay Hi Hk Hnew Hc].
  destruct (map_wf_remove _ _ _ _ i a1 k Hm) as (m2 & bl2 & Hrun & Hm2 & Hbl2 & Hlo & _ & _); [| done | done |].
  { rewrite Hbl. set_solver. }
  exists (g_set_map g1 m2). pose proof Hlo as (Hl2 & _ & Hn2). destruct (Hn2 i a1 Hi) as [n Hi2].
  pose proof (lookupZ_lt _ _ _ Hi2) as Hlt. set (g3 := g_set_items (g_set_map g1 m2) ((map_items m2).[i <- item_zero])).
  assert (Hbl3 : concat bl2 ≡ₚ linked gh).
  { apply (Permutation_cons_inv (a := i)). by rewrite Hbl2, Hbl. }
  destruct (gwf_rebuild gh pool g g3 i (gg_free gh) (i :: held') bl2 (gg_pl gh)) as [Hwf3 Hv3]; cbn; try done.
  - apply (map_wf_put Hm2 i (set_item_next n a1)); [done |]. left. set_solver.
  - apply (parts_wf_put _ _ _ i (set_item_next n a1)); [done | done |]. by eapply parts_wf_links.
  - by rewrite Hsame.
  - by rewrite Hbl3, (gw_linked _ _ _ Hwf).
  - eapply payloads_trans; [done |]. eapply payloads_trans; [by eapply payloads_links | apply payloads_put].
  - intros j _. by rewrite Hbl3.
  - intros a Ha. rewrite lookupZ_insertZ_eq in Ha by done. simplify_eq. split; [apply res_q_zero |]. by rewrite Hbl3.
  - destruct (gwf_free _ pool g3 i held' Hwf3) as (g4 & Hrun4 & Hwf4 & Hv4 & _); [done |].
    exists g3, g4, bl2. split_and!; try done.
    + unfold gres_map_remove. by rewrite Hrun.
    + unfold gres_put. cbn. by rewrite (arr_set_eq _ _ _ _ Hi2).
    + intros k'. rewrite Hv4. apply Hv3; [done |]. intros a. by rewrite Hbl3.
Qed.

(** *** Removing a resource *)

Lemma part_delete_spec g1 pl i a :
  Z.of_nat (length (g_items g1)) <= CT_INVALID_ID32 -> parts_wf (g_items g1) (res_parts g1) pl ->
  Z.of_nat (length (res_parts g1)) = DRC_MAX_PART_NUM -> 0 <= res_part a < DRC_MAX_PART_NUM ->
  (g_items g1).[i] = Some a -> i ∈ concat pl ->
  exists g2 pl' items', drc_clean_page_from_res_part g1 i = Done g2 /\ res_map g2 = res_map (g_set_items g1 items') /\
    parts_wf items' (res_parts g2) pl' /\ i :: concat pl' ≡ₚ concat pl /\
    nodes_only (g_items g1) items' (concat pl') /\ length (res_parts g2) = length (res_parts g1).
Proof.
  intros Hmax Hp Hnp Hr Ha Hi. destruct (lookupZ_is_Some (res_parts g1) (res_part a)) as [l Hl]; [lia |].
  destruct (parts_wf_delete (g_items g1) (res_parts g1) pl i a l) as (items' & l' & pl' & Hrun & Hp' & Hpl & Hno); try done.
  unfold drc_clean_page_from_res_part, gres_get. rewrite (arr_get_eq _ _ _ Ha). cbn. rewrite (arr_get_eq _ _ _ Hl). cbn.
  rewrite Hrun. cbn. rewrite (arr_set_eq _ _ _ _ Hl). cbn. eexists _, pl', items'. split; [done |]. cbn.
  split_and!; try done. by rewrite length_insertZ.
Qed.

Lemma nodes_map_wf (m : drc_res_map A) fl held bl items' t :
  map_wf (K := K) m fl held bl -> nodes_only (map_items m) items' t ->
  map_wf (K := K) (map_set_pool m (pool_set_addr (res_pool m) items')) fl held bl.
Proof.
  intros Hm (Hl & _ & Hn). apply (map_wf_change Hm); [done |]. intros j a _ Ha. destruct (Hn j a Ha) as [n Hj].
  eexists. split; [done |]. by rewrite item_next_set_node, key_of_set_node.
Qed.

(** What remains after a removal: the resource is held and blank. *)
Definition removed gh pool g i (k : K) g' : Prop :=
  exists bl' pl', gwf (mk_gg (gg_free gh) (i :: gg_held gh) bl' pl' (gg_ql gh) (gg_lfree gh) (gg_lrest gh)) pool g' /\
    i :: concat bl' ≡ₚ linked gh /\ view_but k pool g pool g' /\ res_view pool g' k = None.

Lemma gwf_removed gh pool g i a g' m2 bl' pl' :
  gwf gh pool g -> i ∈ linked gh -> (g_items g).[i] = Some a -> (gg_ql gh).[i] = Some [] ->
  g' = g_set_items (g_set_map g' m2) ((map_items m2).[i <- item_zero]) ->
  map_wf (K := K) m2 (gg_free gh) (i :: gg_held gh) bl' -> i :: concat bl' ≡ₚ linked gh ->
  parts_wf (map_items m2) (res_parts g') pl' -> i :: concat pl' ≡ₚ concat (gg_pl gh) ->
  length (res_parts g') = length (res_parts g) -> payloads_but i (g_items g) (map_items m2) ->
  removed gh pool g i (key_of a) g'.
Proof.
  intros Hwf Hi Ha Hq Hg' Hm2 Hbl Hp Hpl Hnp Hpay.
  assert (Hlt : 0 <= i < Z.of_nat (length (map_items m2))).
  { rewrite (proj1 Hpay). by eapply lookupZ_lt. }
  destruct (lookupZ_is_Some _ _ Hlt) as [b Hb].
  assert (Hnb : i ∉ concat bl').
  { pose proof (mw_nodup Hm2) as Hnd. cbn in Hnd.
    apply NoDup_app in Hnd as (_ & _ & Hnd). cbn in Hnd. apply NoDup_cons in Hnd as [Hnd _]. set_solver. }
  assert (Hnp' : i ∉ concat pl').
  { pose proof (pt_nodup _ _ _ (gw_parts _ _ _ Hwf)) as Hnd. rewrite <- Hpl in Hnd. by apply NoDup_cons in Hnd as [? _]. }
  destruct (gwf_rebuild gh pool g g' i (gg_free gh) (i :: gg_held gh) bl' pl') as [Hwf' Hv]; try done.
  - rewrite Hg'. apply (map_wf_put Hm2 i b); [done |]. left. set_solver.
  - rewrite Hg'. cbn. by apply (parts_wf_put _ _ _ i b).
  - apply (Permutation_cons_inv (a := i)). by rewrite Hpl, Hbl, (gw_linked _ _ _ Hwf).
  - rewrite Hg'. cbn. eapply payloads_trans; [done | apply payloads_put].
  - intros j Hj. rewrite <- Hbl. set_solver.
  - rewrite Hg'. cbn. intros c Hc. rewrite lookupZ_insertZ_eq in Hc by done. simplify_eq. split; [apply res_q_zero | done].
  - exists bl', pl'. split; [done |]. split; [done |]. split.
    + intros k Hk. apply Hv; [| done]. intros c _ Hc. congruence.
    + pose proof (gwf_view Hwf' (key_of a)) as Hv'. destruct (res_view pool g' (key_of a)) as [[c rs] |]; [| done].
      destruct Hv' as (j & c' & ids & _ & Hj & Hc' & _ & Hk & _). cbn in Hj.
      assert (j <> i) by (intros ->; done).
      assert (Hcj : exists c0, (g_items g).[j] = Some c0 /\ strip c' = strip c0).
      { rewrite Hg' in Hc'. cbn in Hc'. rewrite lookupZ_insertZ_ne in Hc' by done. by eapply payloads_back. }
      destruct Hcj as (c0 & Hc0 & Hs). destruct (strip_fields _ _ Hs) as (Hk0 & _). exfalso.
      assert (j = i); [| done]. eapply (mw_keys _ _ _ _ (gw_map _ _ _ Hwf)); [| | done | done |]; [| done | congruence].
      rewrite <- Hbl. set_solver.
Qed.

Lemma gwf_part_range gh pool g i a :
  gwf gh pool g -> i ∈ linked gh -> (g_items g).[i] = Some a -> 0 <= res_part a < DRC_MAX_PART_NUM.
Proof. intros Hwf Hi Ha. destruct (gw_self _ _ _ Hwf _ _ Hi Ha) as [_ ->]. apply part_hash_range. Qed.

(** Map first, then the partition list. *)
Lemma gwf_clean_steps gh pool g i a :
  gwf gh pool g -> i ∈ linked gh -> (g_items g).[i] = Some a -> (gg_ql gh).[i] = Some [] ->
  exists g1 a1 g2 a2 g', gres_map_remove g (key_of a) = Done g1 /\ gres_get g1 i = Done a1 /\ strip a1 = strip a /\
    drc_clean_page_from_res_part g1 i = Done g2 /\ gres_get g2 i = Done a2 /\ strip a2 = strip a /\
    gres_put g2 i item_zero = Done g' /\ removed gh pool g i (key_of a) g'.
Proof.
  intros Hwf Hi Ha Hq. destruct (map_wf_remove _ _ _ _ i a (key_of a) (gw_map _ _ _ Hwf))
    as (m1 & bl' & Hrun & Hm1 & Hbl & Hlo & _ & _); try done.
  pose proof Hlo as (Hl1 & _ & Hn1). destruct (Hn1 i a Ha) as [n Hi1].
  destruct (part_delete_spec (g_set_map g m1) (gg_pl gh) i (set_item_next n a)) as (g2 & pl' & items2 & Hrun2 & Hmap2 & Hp2 & Hpl2 & Hno2 & Hnp2);
    cbn; try done.
  - rewrite Hl1. by apply (gwf_max Hwf).
  - eapply parts_wf_links; [done | by eapply gw_parts].
  - by eapply gw_nparts.
  - rewrite res_part_set_next. by eapply gwf_part_range.
  - rewrite (gw_linked _ _ _ Hwf). done.
  - pose proof Hno2 as (Hl2 & _ & Hn2). cbn in Hn2. destruct (Hn2 _ _ Hi1) as [n2 Hi2].
    eexists (g_set_map g m1), _, g2, _, _. split_and!.
    + unfold gres_map_remove. by rewrite Hrun.
    + unfold gres_get. cbn. by apply arr_get_eq.
    + by rewrite strip_set_next.
    + done.
    + unfold gres_get. rewrite Hmap2. cbn. by apply arr_get_eq.
    + by rewrite strip_set_node, strip_set_next.
    + unfold gres_put. rewrite Hmap2. cbn. rewrite (arr_set_eq _ _ _ _ Hi2). cbn. done.
    + eapply (gwf_removed _ _ _ _ _ _ (res_map g2) bl' pl'); cbn; try done.
      * unfold g_set_items, g_set_pool, g_set_map. cbn. by rewrite Hmap2.
      * rewrite Hmap2. cbn. by eapply nodes_map_wf.
      * by rewrite Hmap2.
      * rewrite Hmap2. cbn. eapply payloads_trans; [by eapply payloads_links | by eapply payloads_nodes].
Qed.

Lemma gwf_clean gh pool g i a :
  gwf gh pool g -> i ∈ linked gh -> (g_items g).[i] = Some a -> (gg_ql gh).[i] = Some [] ->
  exists g', drc_clean_page_owner_internal g i = Done g' /\ removed gh pool g i (key_of a) g'.
Proof.
  intros Hwf Hi Ha Hq. destruct (gwf_clean_steps gh pool g i a Hwf Hi Ha Hq) as (g1 & _ & g2 & _ & g' & Hr1 & _ & _ & Hr2 & _ & _ & Hr3 & Hrem).
  exists g'. split; [| done]. unfold drc_clean_page_owner_internal, gres_get. rewrite (arr_get_eq _ _ _ Ha). cbn [mbind outcome_bind].
  rewrite Hr1. cbn [mbind outcome_bind]. rewrite Hr2. cbn [mbind outcome_bind]. done.
Qed.

(** Partition list first, then the map: [drc_release_page_owner]. *)
Lemma gwf_release gh pool g i a :
  gwf gh pool g -> i ∈ linked gh -> (g_items g).[i] = Some a -> (gg_ql gh).[i] = Some [] ->
  exists g1 g2 g' b, drc_clean_page_from_res_part g i = Done g1 /\ gres_map_remove g1 (key_of a) = Done g2 /\
    gres_get g2 i = Done b /\ res_idx b = i /\
    gres_put g2 i item_zero = Done g' /\ removed gh pool g i (key_of a) g'.
Proof.
  intros Hwf Hi Ha Hq.
  destruct (part_delete_spec g (gg_pl gh) i a) as (g1 & pl' & items1 & Hrun1 & Hmap1 & Hp1 & Hpl1 & Hno1 & Hnp1); try done.
  - by apply (gwf_max Hwf).
  - by eapply gw_parts.
  - by eapply gw_nparts.
  - by eapply gwf_part_range.
  - by rewrite (gw_linked _ _ _ Hwf).
  - pose proof Hno1 as (Hl1 & _ & Hn1). destruct (Hn1 _ _ Ha) as [n1 Hi1].
    pose proof (nodes_map_wf _ _ _ _ _ _ (gw_map _ _ _ Hwf) Hno1) as Hm1.
    destruct (map_wf_remove _ _ _ _ i (set_node n1 a) (key_of a) Hm1) as (m2 & bl' & Hrun2 & Hm2 & Hbl & Hlo & _ & _); try done.
    { by rewrite key_of_set_node. }
    pose proof Hlo as (Hl2 & _ & Hn2). cbn in Hn2. destruct (Hn2 _ _ Hi1) as [n2 Hi2].
    eexists g1, (g_set_map g1 m2), _, _. split_and!; [done | | | | |].
    + unfold gres_map_remove. rewrite Hmap1. cbn. rewrite Hrun2. done.
    + unfold gres_get. cbn. by apply arr_get_eq.
    + rewrite res_idx_set_next, res_idx_set_node. by eapply (gw_self _ _ _ Hwf).
    + unfold gres_put. cbn. rewrite (arr_set_eq _ _ _ _ Hi2). cbn. done.
    + eapply (gwf_removed _ _ _ _ _ _ m2 bl' pl'); cbn; try done.
      * eapply parts_wf_links; done.
      * eapply payloads_trans; [by eapply payloads_nodes | by eapply payloads_links].
Qed.

(** *** Changes of the lock item pool that leave the queues alone *)

Lemma gwf_frame gh pool g pool' lfree' lrest' :
  gwf gh pool g -> pool_wf pool' lfree' -> lfree' ++ concat (gg_ql gh) ++ lrest' ≡ₚ seqZ 0 (item_num pool') ->
  (forall x, x ∈ concat (gg_ql gh) -> (addr pool').[x] = (addr pool).[x]) ->
  gwf (mk_gg (gg_free gh) (gg_held gh) (gg_bl gh) (gg_pl gh) (gg_ql gh) lfree' lrest') pool' g /\
  forall k, res_view pool' g k = res_view pool g k.
Proof.
  intros Hwf Hp Hperm Hsame.
  assert (Hsame' : forall i ids x, (gg_ql gh).[i] = Some ids -> x ∈ ids -> (addr pool').[x] = (addr pool).[x]).
  { intros i ids x Hids Hx. apply Hsame, elem_of_concat. eauto. }
  assert (Hwf' : gwf (mk_gg (gg_free gh) (gg_held gh) (gg_bl gh) (gg_pl gh) (gg_ql gh) lfree' lrest') pool' g).
  { destruct Hwf as [H1' H2' H3' H4' H5' Hq H7' H8' H9' H10' H11' Hinv]. constructor; cbn; try done.
    - intros i a ids Ha Hids. eapply lock_q_rep_ext; [intros x; by eapply Hsame' | by eapply Hq].
    - intros i a ids Hi Ha Hids. rewrite (queue_reqs_same (addr pool)); [by eapply Hinv | intros x; by eapply Hsame']. }
  split; [done |]. intros k. eapply gwf_view_ext; [done | done | |]; cbn; [| by eauto].
  intros j a ids Hj Ha Hk Hids. split; [done |]. exists a, ids. split_and!; try done. apply queue_reqs_same. intros x. by eapply Hsame'.
Qed.

(** Giving back a lock item nobody else uses. *)
Lemma gwf_free_item gh pool g x rest' :
  gwf gh pool g -> gg_lrest gh ≡ₚ x :: rest' ->
  exists it pool', (addr pool).[x] = Some it /\ drc_res_pool_free_item pool x = Done pool' /\
    gwf (mk_gg (gg_free gh) (gg_held gh) (gg_bl gh) (gg_pl gh) (gg_ql gh) (x :: gg_lfree gh) rest') pool' g /\
    forall k, res_view pool' g k = res_view pool g k.
Proof.
  intros Hwf Hrest. pose proof (gw_lperm _ _ _ Hwf) as Hperm. pose proof (gw_lpool _ _ _ Hwf) as Hp. rewrite Hrest in Hperm.
  assert (Hnd : NoDup (gg_lfree gh ++ concat (gg_ql gh) ++ x :: rest')) by (rewrite Hperm; apply NoDup_seqZ).
  apply NoDup_app in Hnd as (_ & Hd1 & (_ & Hd2 & _)%NoDup_app).
  destruct (lookupZ_is_Some (addr pool) x) as [it Hit].
  { rewrite (pw_len _ _ Hp). assert (Hx : x ∈ seqZ 0 (item_num pool)) by (rewrite <- Hperm; set_solver).
    apply elem_of_seqZ in Hx. lia. }
  destruct (free_item_Done pool (gg_lfree gh) x it) as (pool' & Hrun & Hp' & Ha' & Hn' & _); try done.
  { intros Hx. apply (Hd1 x Hx). set_solver. }
  exists it, pool'. split; [done |]. split; [done |]. apply gwf_frame; try done.
  - rewrite Hn', <- Hperm. cbn. rewrite !(assoc_L (++)). apply Permutation_middle.
  - intros y Hy. rewrite Ha'. apply lookupZ_insertZ_ne. intros <-. apply (Hd2 x Hy). set_solver.
Qed.

(** *** A new catalog *)

Lemma gwf_init g pool size lsize pool_size lnum :
  map_inited (res_map g) = false -> inited (res_pool (res_map g)) = false -> block_header_size <= size ->
  0 < pool_size < 2 ^ 31 -> inited pool = false -> block_header_size <= lsize -> 0 < lnum <= CT_INVALID_ID32 ->
  exists g' pool', drc_global_res_init g pool_size size true true = Done (CT_SUCCESS, g') /\
    drc_res_pool_init pool lsize lnum true = Done (CT_SUCCESS, pool') /\
    gwf (mk_gg (seqZ 0 pool_size) [] (replicate (Z.to_nat (pool_size * 2 + 1)) [])
           (replicate (Z.to_nat DRC_MAX_PART_NUM) []) (replicate (Z.to_nat pool_size) []) (seqZ 0 lnum) []) pool' g' /\
    (forall k, res_view pool' g' k = None).
Proof.
  intros Hm Hp Hsz Hps Hlp Hlsz Hln. unfold drc_global_res_init.
  destruct (map_init_spec (K := K) (res_map g) pool_size size Hm Hp Hsz Hps) as (m' & -> & Hmwf & Hnum & Hz). cbn.
  destruct (pool_init_spec pool lsize lnum Hlp Hlsz Hln) as (pool' & -> & Hpwf & Hlnum & _ & _ & _).
  eexists _, pool'. split; [done |]. split; [done |].
  assert (Hlen : Z.of_nat (length (map_items m')) = pool_size) by (rewrite (pw_len _ _ (mw_pool _ _ _ _ Hmwf)); done).
  assert (Hitem : forall i a, (map_items m').[i] = Some a -> exists n, a = set_item_next n item_zero).
  { intros i a Ha. destruct (Hz i) as [n Hn]; [rewrite <- Hlen; by eapply lookupZ_lt |]. simplify_eq. eauto. }
  set (gh := mk_gg _ _ _ _ _ _ _). assert (Hwf : gwf gh pool' (mk_global m' parts_init)).
  { constructor; cbn; rewrite ?concat_replicate_nil; try done.
    - constructor.
      + by rewrite !length_replicate.
      + intros h l ids ->%lookupZ_replicate ->%lookupZ_replicate. by split.
      + rewrite concat_replicate_nil. constructor.
      + intros h ids i a ->%lookupZ_replicate Hi. set_solver.
    - rewrite length_replicate. lia.
    - intros i a ids (n & ->)%Hitem ->%lookupZ_replicate. split; [| done]. by rewrite res_q_set_next, res_q_zero.
    - by intros i ids ->%lookupZ_replicate.
    - intros i a _ (n & ->)%Hitem. by rewrite strip_set_next.
    - by rewrite Hlnum, app_nil_r.
    - intros i a Hi. set_solver.
    - intros i a ids Hi. set_solver. }
  split; [done |]. intros k. pose proof (gwf_view Hwf k) as Hv. destruct (res_view _ _ k) as [[b rs] |]; [| done].
  destruct Hv as (i & a & ids & _ & Hi & _). cbn in Hi. rewrite concat_replicate_nil in Hi. set_solver.
Qed.
End wf.
