(* ===== verification/DrcTypes.v ===== *)
(** * Data of the resource catalog (dtc_drc.h)

    Page and lock identifiers, the resources kept by the page catalog and the
    lock catalog with their instances of the interfaces of the lower layers,
    and the state outside the catalog that its handlers read: the static
    configuration [KernelAttr] and the reform and recovery state [dtc_env].
    Setters [set_<field>] stand for assignments to one field of a structure.
    Sources: src/pkg/src/cluster/dtc_drc.h, dtc_drc.c, dtc_buffer.c,
    src/pkg/src/common/cm_spinlock.h. *)

From stdpp Require Import prelude list.
From S2P Require Import Prelude Bitmap ResPool DrcList ResMap ConvertQ GlobalRes.

Open Scope Z_scope.
Open Scope drc_scope.

(** ** Static configuration *)

(** Attributes of the kernel and the cluster profile, fixed at start-up. *)
Class KernelAttr := {
  page_size : Z;
  inst_id : Z;
  node_count : Z;
  page_size_ok : 0 < page_size <= 8388608;
  inst_id_ok : 0 <= inst_id < CT_MAX_INSTANCES;
  node_count_ok : 0 < node_count <= CT_MAX_INSTANCES;
}.

Definition DRC_FILE_EXTENT_SIZE : Z := 8 * 1024 * 1024.
Definition DRC_FILE_EXTENT_PAGE_NUM `{KernelAttr} : Z := DRC_FILE_EXTENT_SIZE / page_size.

(** ** Identifiers *)

Record page_id_t := mk_page_id { file : Z; page : Z }.

#[export] Instance page_id_eq_dec : EqDecision page_id_t.
Proof. solve_decision. Defined.

(** INVALID_FILE_ID is (1 << ROWID_FILE_BITS) - 1. *)
Definition INVALID_FILE_ID : Z := 1023.
Definition IS_INVALID_PAGID (p : page_id_t) : bool := INVALID_FILE_ID <=? file p.

(** The identifier of a lock, as the four keys of the union; [drid_type] and
    [drid_uid] read the other view of the same bytes. *)
Record drid_t := mk_drid { key1 : Z; key2 : Z; key3 : Z; key4 : Z }.

#[export] Instance drid_eq_dec : EqDecision drid_t.
Proof. solve_decision. Defined.

Definition drid_type (d : drid_t) : Z := u16 (key1 d).
Definition drid_uid (d : drid_t) : Z := u16 (Z.shiftr (key1 d) 16).
Definition drid_id (d : drid_t) : Z := u32 (Z.shiftr (key1 d) 32).
Definition DR_TYPE_TABLE : Z := 3.

(** The [n] bytes of a little-endian integer, as values of a signed [char]. *)
Definition char_of_byte (b : Z) : Z := if b <? 128 then b else b - 256.
Fixpoint le_chars (n : nat) (z : Z) : list Z :=
  match n with
  | O => []
  | S n => char_of_byte (u8 z) :: le_chars n (Z.shiftr z 8)
  end.

(** The 24 bytes of the structure; the three reserved bytes are zero. *)
Definition drid_chars (d : drid_t) : list Z :=
  le_chars 8 (key1 d) ++ le_chars 8 (key2 d) ++ le_chars 4 (key3 d) ++ le_chars 1 (key4 d) ++ [0; 0; 0].

Definition drc_page_partid `{KernelAttr} (pagid : page_id_t) : Z :=
  cm_hash_uint32 (page pagid / DRC_FILE_EXTENT_PAGE_NUM) DRC_MAX_PART_NUM.

Definition drc_lock_partid (lock_id : drid_t) : Z := drc_resource_id_hash (drid_chars lock_id) DRC_MAX_PART_NUM.

(** ** Actions and results *)

Definition DRC_RES_INVALID_ACTION : Z := 0.
Definition DRC_RES_PENDING_ACTION : Z := 1.
Definition DRC_RES_SHARE_ACTION : Z := 2.
Definition DRC_RES_EXCLUSIVE_ACTION : Z := 3.
Definition DRC_RES_CLEAN_EDP_ACTION : Z := 4.

Definition DRC_REQ_OWNER_INVALID : Z := 0.
Definition DRC_REQ_OWNER_GRANTED : Z := 1.
Definition DRC_REQ_OWNER_ALREADY_OWNER : Z := 2.
Definition DRC_REQ_OWNER_CONVERTING : Z := 3.
Definition DRC_REQ_OWNER_WAITING : Z := 4.

(** ** Resources *)

Record drc_buf_res := mk_buf_res {
  br_next : Z;
  br_idx : Z;
  br_claimed_owner : Z;
  br_latest_edp : Z;
  br_pending : Z;
  br_latest_edp_lsn : Z;
  br_mode : Z;
  br_page_id : page_id_t;
  br_converting : drc_lock_item;
  br_convert_q : drc_list;
  br_part_id : Z;
  br_is_used : bool;
  br_edp_map : Z;
  br_node : drc_list_node;
  br_lsn : Z;
  br_readonly_copies : Z;
}.

Definition set_br_next (v : Z) (r : drc_buf_res) : drc_buf_res :=
  mk_buf_res v (br_idx r) (br_claimed_owner r) (br_latest_edp r) (br_pending r) (br_latest_edp_lsn r) (br_mode
    r) (br_page_id r) (br_converting r) (br_convert_q r) (br_part_id r) (br_is_used r) (br_edp_map r)
    (br_node r) (br_lsn r) (br_readonly_copies r).
Definition set_br_idx (v : Z) (r : drc_buf_res) : drc_buf_res :=
  mk_buf_res (br_next r) v (br_claimed_owner r) (br_latest_edp r) (br_pending r) (br_latest_edp_lsn r)
    (br_mode r) (br_page_id r) (br_converting r) (br_convert_q r) (br_part_id r) (br_is_used r) (br_edp_map
    r) (br_node r) (br_lsn r) (br_readonly_copies r).
Definition set_br_claimed_owner (v : Z) (r : drc_buf_res) : drc_buf_res :=
  mk_buf_res (br_next r) (br_idx r) v (br_latest_edp r) (br_pending r) (br_latest_edp_lsn r) (br_mode r)
    (br_page_id r) (br_converting r) (br_convert_q r) (br_part_id r) (br_is_used r) (br_edp_map r) (br_node
    r) (br_lsn r) (br_readonly_copies r).
Definition set_br_latest_edp (v : Z) (r : drc_buf_res) : drc_buf_res :=
  mk_buf_res (br_next r) (br_idx r) (br_claimed_owner r) v (br_pending r) (br_latest_edp_lsn r) (br_mode r)
    (br_page_id r) (br_converting r) (br_convert_q r) (br_part_id r) (br_is_used r) (br_edp_map r) (br_node
    r) (br_lsn r) (br_readonly_copies r).
Definition set_br_pending (v : Z) (r : drc_buf_res) : drc_buf_res :=
  mk_buf_res (br_next r) (br_idx r) (br_claimed_owner r) (br_latest_edp r) v (br_latest_edp_lsn r) (br_mode r)
    (br_page_id r) (br_converting r) (br_convert_q r) (br_part_id r) (br_is_used r) (br_edp_map r) (br_node
    r) (br_lsn r) (br_readonly_copies r).
Definition set_br_latest_edp_lsn (v : Z) (r : drc_buf_res) : drc_buf_res :=
  mk_buf_res (br_next r) (br_idx r) (br_claimed_owner r) (br_latest_edp r) (br_pending r) v (br_mode r)
    (br_page_id r) (br_converting r) (br_convert_q r) (br_part_id r) (br_is_used r) (br_edp_map r) (br_node
    r) (br_lsn r) (br_readonly_copies r).
Definition set_br_mode (v : Z) (r : drc_buf_res) : drc_buf_res :=
  mk_buf_res (br_next r) (br_idx r) (br_claimed_owner r) (br_latest_edp r) (br_pending r) (br_latest_edp_lsn
    r) v (br_page_id r) (br_converting r) (br_convert_q r) (br_part_id r) (br_is_used r) (br_edp_map r)
    (br_node r) (br_lsn r) (br_readonly_copies r).
Definition set_br_page_id (v : page_id_t) (r : drc_buf_res) : drc_buf_res :=
  mk_buf_res (br_next r) (br_idx r) (br_claimed_owner r) (br_latest_edp r) (br_pending r) (br_latest_edp_lsn
    r) (br_mode r) v (br_converting r) (br_convert_q r) (br_part_id r) (br_is_used r) (br_edp_map r)
    (br_node r) (br_lsn r) (br_readonly_copies r).
Definition set_br_converting (v : drc_lock_item) (r : drc_buf_res) : drc_buf_res :=
  mk_buf_res (br_next r) (br_idx r) (br_claimed_owner r) (br_latest_edp r) (br_pending r) (br_latest_edp_lsn
    r) (br_mode r) (br_page_id r) v (br_convert_q r) (br_part_id r) (br_is_used r) (br_edp_map r) (br_node
    r) (br_lsn r) (br_readonly_copies r).
Definition set_br_convert_q (v : drc_list) (r : drc_buf_res) : drc_buf_res :=
  mk_buf_res (br_next r) (br_idx r) (br_claimed_owner r) (br_latest_edp r) (br_pending r) (br_latest_edp_lsn
    r) (br_mode r) (br_page_id r) (br_converting r) v (br_part_id r) (br_is_used r) (br_edp_map r) (br_node
    r) (br_lsn r) (br_readonly_copies r).
Definition set_br_part_id (v : Z) (r : drc_buf_res) : drc_buf_res :=
  mk_buf_res (br_next r) (br_idx r) (br_claimed_owner r) (br_latest_edp r) (br_pending r) (br_latest_edp_lsn
    r) (br_mode r) (br_page_id r) (br_converting r) (br_convert_q r) v (br_is_used r) (br_edp_map r)
    (br_node r) (br_lsn r) (br_readonly_copies r).
Definition set_br_is_used (v : bool) (r : drc_buf_res) : drc_buf_res :=
  mk_buf_res (br_next r) (br_idx r) (br_claimed_owner r) (br_latest_edp r) (br_pending r) (br_latest_edp_lsn
    r) (br_mode r) (br_page_id r) (br_converting r) (br_convert_q r) (br_part_id r) v (br_edp_map r)
    (br_node r) (br_lsn r) (br_readonly_copies r).
Definition set_br_edp_map (v : Z) (r : drc_buf_res) : drc_buf_res :=
  mk_buf_res (br_next r) (br_idx r) (br_claimed_owner r) (br_latest_edp r) (br_pending r) (br_latest_edp_lsn
    r) (br_mode r) (br_page_id r) (br_converting r) (br_convert_q r) (br_part_id r) (br_is_used r) v
    (br_node r) (br_lsn r) (br_readonly_copies r).
Definition set_br_node (v : drc_list_node) (r : drc_buf_res) : drc_buf_res :=
  mk_buf_res (br_next r) (br_idx r) (br_claimed_owner r) (br_latest_edp r) (br_pending r) (br_latest_edp_lsn
    r) (br_mode r) (br_page_id r) (br_converting r) (br_convert_q r) (br_part_id r) (br_is_used r)
    (br_edp_map r) v (br_lsn r) (br_readonly_copies r).
Definition set_br_lsn (v : Z) (r : drc_buf_res) : drc_buf_res :=
  mk_buf_res (br_next r) (br_idx r) (br_claimed_owner r) (br_latest_edp r) (br_pending r) (br_latest_edp_lsn
    r) (br_mode r) (br_page_id r) (br_converting r) (br_convert_q r) (br_part_id r) (br_is_used r)
    (br_edp_map r) (br_node r) v (br_readonly_copies r).
Definition set_br_readonly_copies (v : Z) (r : drc_buf_res) : drc_buf_res :=
  mk_buf_res (br_next r) (br_idx r) (br_claimed_owner r) (br_latest_edp r) (br_pending r) (br_latest_edp_lsn
    r) (br_mode r) (br_page_id r) (br_converting r) (br_convert_q r) (br_part_id r) (br_is_used r)
    (br_edp_map r) (br_node r) (br_lsn r) v.

Record drc_master_res := mk_master_res {
  mr_next : Z;
  mr_idx : Z;
  mr_res_id : drid_t;
  mr_mode : Z;
  mr_part_id : Z;
  mr_granted_map : Z;
  mr_converting : drc_lock_item;
  mr_convert_q : drc_list;
  mr_node : drc_list_node;
}.

Definition set_mr_next (v : Z) (r : drc_master_res) : drc_master_res :=
  mk_master_res v (mr_idx r) (mr_res_id r) (mr_mode r) (mr_part_id r) (mr_granted_map r) (mr_converting r)
    (mr_convert_q r) (mr_node r).
Definition set_mr_idx (v : Z) (r : drc_master_res) : drc_master_res :=
  mk_master_res (mr_next r) v (mr_res_id r) (mr_mode r) (mr_part_id r) (mr_granted_map r) (mr_converting r)
    (mr_convert_q r) (mr_node r).
Definition set_mr_res_id (v : drid_t) (r : drc_master_res) : drc_master_res :=
  mk_master_res (mr_next r) (mr_idx r) v (mr_mode r) (mr_part_id r) (mr_granted_map r) (mr_converting r)
    (mr_convert_q r) (mr_node r).
Definition set_mr_mode (v : Z) (r : drc_master_res) : drc_master_res :=
  mk_master_res (mr_next r) (mr_idx r) (mr_res_id r) v (mr_part_id r) (mr_granted_map r) (mr_converting r)
    (mr_convert_q r) (mr_node r).
Definition set_mr_part_id (v : Z) (r : drc_master_res) : drc_master_res :=
  mk_master_res (mr_next r) (mr_idx r) (mr_res_id r) (mr_mode r) v (mr_granted_map r) (mr_converting r)
    (mr_convert_q r) (mr_node r).
Definition set_mr_granted_map (v : Z) (r : drc_master_res) : drc_master_res :=
  mk_master_res (mr_next r) (mr_idx r) (mr_res_id r) (mr_mode r) (mr_part_id r) v (mr_converting r)
    (mr_convert_q r) (mr_node r).
Definition set_mr_converting (v : drc_lock_item) (r : drc_master_res) : drc_master_res :=
  mk_master_res (mr_next r) (mr_idx r) (mr_res_id r) (mr_mode r) (mr_part_id r) (mr_granted_map r) v
    (mr_convert_q r) (mr_node r).
Definition set_mr_convert_q (v : drc_list) (r : drc_master_res) : drc_master_res :=
  mk_master_res (mr_next r) (mr_idx r) (mr_res_id r) (mr_mode r) (mr_part_id r) (mr_granted_map r)
    (mr_converting r) v (mr_node r).
Definition set_mr_node (v : drc_list_node) (r : drc_master_res) : drc_master_res :=
  mk_master_res (mr_next r) (mr_idx r) (mr_res_id r) (mr_mode r) (mr_part_id r) (mr_granted_map r)
    (mr_converting r) (mr_convert_q r) v.

Definition zero_node : drc_list_node := mk_node 0 0 0.
Definition zero_list : drc_list := mk_list 0 0 0.
Definition zero_lock_item : drc_lock_item := mk_lock_item 0 zero_req.

Definition zero_buf_res : drc_buf_res :=
  mk_buf_res 0 0 0 0 0 0 0 (mk_page_id 0 0) zero_lock_item zero_list 0 false 0 zero_node 0 0.
Definition zero_master_res : drc_master_res :=
  mk_master_res 0 0 (mk_drid 0 0 0 0) 0 0 0 zero_lock_item zero_list zero_node.

(** The comparison callbacks. *)
Definition is_same_page (pagid : page_id_t) (r : drc_buf_res) : bool :=
  (file (br_page_id r) =? file pagid) && (page (br_page_id r) =? page pagid).

Definition is_same_drid (a b : drid_t) : bool :=
  (key1 a =? key1 b) && (key2 a =? key2 b) && (key3 a =? key3 b) && (key4 a =? key4 b).

Definition is_same_lock (lock_id : drid_t) (r : drc_master_res) : bool := is_same_drid (mr_res_id r) lock_id.

Lemma is_same_drid_spec a b : is_same_drid a b = true <-> a = b.
Proof.
  unfold is_same_drid. rewrite !andb_true_iff, !Z.eqb_eq. destruct a, b; cbn.
  split; [intros [[[-> ->] ->] ->]; done | intros [= -> -> -> ->]; done].
Qed.

Lemma is_same_page_spec k r : is_same_page k r = true <-> br_page_id r = k.
Proof.
  unfold is_same_page. rewrite andb_true_iff, !Z.eqb_eq. destruct (br_page_id r), k; cbn.
  split; [intros [-> ->]; done | intros [= -> ->]; done].
Qed.

(** ** The resources as items of pools, maps and catalogs *)

#[export, program] Instance buf_ResItem : ResItem drc_buf_res :=
  {| item_next := br_next; set_item_next := set_br_next; item_zero := zero_buf_res |}.
Solve Obligations with done.
Next Obligation. by intros []. Qed.

#[export, program] Instance buf_ListItem : ListItem drc_buf_res :=
  {| node_of := br_node; set_node := set_br_node |}.
Solve Obligations with done.
Next Obligation. by intros []. Qed.

#[export, program] Instance buf_ResKey : ResKey drc_buf_res page_id_t :=
  {| key_of := br_page_id; is_same_res := is_same_page;
     bucket_hash k n := drc_page_id_hash (file k) (page k) n |}.
Solve Obligations with done.
Next Obligation. intros. apply is_same_page_spec. Qed.
Next Obligation. intros. by apply drc_page_id_hash_range. Qed.

#[export, program] Instance buf_GlobalItem `{KernelAttr} : GlobalItem drc_buf_res page_id_t :=
  {| res_idx := br_idx; res_part := br_part_id; res_q := br_convert_q; part_hash := drc_page_partid |}.
Solve Obligations with done.
Next Obligation. intros. by apply cm_hash_uint32_range. Qed.

#[export, program] Instance lock_ResItem : ResItem drc_master_res :=
  {| item_next := mr_next; set_item_next := set_mr_next; item_zero := zero_master_res |}.
Solve Obligations with done.
Next Obligation. by intros []. Qed.

#[export, program] Instance lock_ListItem : ListItem drc_master_res :=
  {| node_of := mr_node; set_node := set_mr_node |}.
Solve Obligations with done.
Next Obligation. by intros []. Qed.

#[export, program] Instance lock_ResKey : ResKey drc_master_res drid_t :=
  {| key_of := mr_res_id; is_same_res := is_same_lock;
     bucket_hash k n := drc_resource_id_hash (drid_chars k) n |}.
Solve Obligations with done.
Next Obligation. intros. apply is_same_drid_spec. Qed.
Next Obligation. intros. by apply drc_resource_id_hash_range. Qed.

#[export, program] Instance lock_GlobalItem : GlobalItem drc_master_res drid_t :=
  {| res_idx := mr_idx; res_part := mr_part_id; res_q := mr_convert_q; part_hash := drc_lock_partid |}.
Solve Obligations with done.
Next Obligation. intros. by apply drc_resource_id_hash_range. Qed.

Abbreviation buf_catalog := (drc_global_res drc_buf_res).
Abbreviation lock_catalog := (drc_global_res drc_master_res).

(** ** Reform and recovery state read by the handlers *)

Inductive dtc_session_type :=
| DTC_TYPE_NONE | DTC_WORKER | DTC_FULL_RCY | DTC_FULL_RCY_PARAL | DTC_PART_RCY | DTC_PART_RCY_PARAL.

Inductive drc_remaster_status :=
| REMASTER_PREPARE | REMASTER_ASSIGN_TASK | REMASTER_MIGRATE | REMASTER_RECOVERY | REMASTER_PUBLISH
| REMASTER_DONE | REMASTER_FAIL.

#[export] Instance remaster_status_eq_dec : EqDecision drc_remaster_status.
Proof. solve_decision. Defined.

(** The numeric value of the enumeration, which the code compares. *)
Definition remaster_num (s : drc_remaster_status) : Z :=
  match s with
  | REMASTER_PREPARE => 0 | REMASTER_ASSIGN_TASK => 1 | REMASTER_MIGRATE => 2 | REMASTER_RECOVERY => 3
  | REMASTER_PUBLISH => 4 | REMASTER_DONE => 5 | REMASTER_FAIL => 6
  end.

Inductive reform_status :=
| REFORM_PREPARE | REFORM_FROZEN | REFORM_MOUNTING | REFORM_RECOVERING | REFORM_RECOVER_DONE | REFORM_OPEN | REFORM_DONE.

Definition reform_num (s : reform_status) : Z :=
  match s with
  | REFORM_PREPARE => 0 | REFORM_FROZEN => 1 | REFORM_MOUNTING => 2 | REFORM_RECOVERING => 3
  | REFORM_RECOVER_DONE => 4 | REFORM_OPEN => 5 | REFORM_DONE => 6
  end.

Inductive dtc_recovery_status := RECOVERY_INIT | RECOVERY_ANALYSIS | RECOVERY_REPLAY | RECOVERY_FINISH.

(** [page_in_rcyset] is membership in the recovery set of the recovery
    component; [dtc_now] is the clock in microseconds. *)
Record dtc_env := mk_env {
  remaster_status : drc_remaster_status;
  rc_status : reform_status;
  trigger_version : Z;
  session_type : dtc_session_type;
  rcy_in_progress : bool;
  full_recovery : bool;
  db_is_primary : bool;
  recovery_status : dtc_recovery_status;
  page_in_rcyset : page_id_t -> bool;
  space_id_set : list Z;
  df_ctrl_lock : drid_t;
  dtc_now : Z;
}.

Definition dtc_is_in_rcy (e : dtc_env) : bool := remaster_num (remaster_status e) <? remaster_num REMASTER_DONE.

Definition DAAC_PARTIAL_RECOVER_SESSION (e : dtc_env) : bool :=
  match session_type e with DTC_PART_RCY | DTC_PART_RCY_PARAL => true | _ => false end.

Definition DAAC_SESSION_IN_RECOVERY (e : dtc_env) : bool :=
  match session_type e with DTC_FULL_RCY | DTC_FULL_RCY_PARAL => true | _ => DAAC_PARTIAL_RECOVER_SESSION e end.

Definition DAAC_PART_RECOVERY (e : dtc_env) : bool := rcy_in_progress e && negb (full_recovery e).

Definition reform_recover_done (e : dtc_env) : bool := reform_num REFORM_RECOVER_DONE <=? reform_num (rc_status e).

Definition readable_now (e : dtc_env) : bool :=
  reform_recover_done e || DAAC_SESSION_IN_RECOVERY e ||
  match rc_status e with REFORM_MOUNTING => true | _ => false end.

Definition rcy_past_analysis (e : dtc_env) : bool :=
  match recovery_status e with RECOVERY_INIT | RECOVERY_ANALYSIS => false | _ => true end.

Definition dtc_dcs_readable (e : dtc_env) (page_id : page_id_t) : bool :=
  if decide (remaster_status e <> REMASTER_DONE) then false
  else if readable_now e || negb (DAAC_PART_RECOVERY e) || negb (db_is_primary e) then readable_now e
  else if negb (rcy_past_analysis e) then false
  else if IS_INVALID_PAGID page_id then false
  else negb (page_in_rcyset e page_id).

Definition is_df_ctrl_lock (e : dtc_env) (lock_id : drid_t) : bool :=
  (drid_type (df_ctrl_lock e) =? drid_type lock_id) && (drid_id (df_ctrl_lock e) =? drid_id lock_id) &&
  (drid_uid (df_ctrl_lock e) =? drid_uid lock_id).

Definition dtc_lock_in_rcy_space_set (e : dtc_env) (uid : Z) : bool := existsb (Z.eqb uid) (space_id_set e).

Definition dtc_dls_readable (e : dtc_env) (lock_id : drid_t) : bool :=
  if decide (remaster_status e <> REMASTER_DONE) then false
  else if readable_now e || negb (DAAC_PART_RECOVERY e) || negb (db_is_primary e) then readable_now e
  else if negb (rcy_past_analysis e) then false
  else if is_df_ctrl_lock e lock_id then true
  else if drid_uid lock_id =? CT_INVALID_ID16 then false
  else negb (dtc_lock_in_rcy_space_set e (drid_uid lock_id)).

Definition DRC_STOP_DCS_IO_FOR_REFORMING (req_version : Z) (e : dtc_env) (page_id : page_id_t) : bool :=
  negb (dtc_dcs_readable e page_id) || (req_version <? trigger_version e).

Definition DRC_STOP_DLS_REQ_FOR_REFORMING (req_version : Z) (e : dtc_env) (lock_id : drid_t) : bool :=
  negb (dtc_dls_readable e lock_id) || (req_version <? trigger_version e).
