(* ===== verification/KeyStore.v ===== *)
(** * Keyed stores: resource maps without partition lists

    The catalogs of local locks and of transactions are a [drc_res_map_t]
    alone.  Their handlers share three shapes: write through the pointer that
    a lookup returned, take an item from the pool, fill it in and link it, and
    unlink an item, wipe it and give it back.  This file has the three shapes
    once, and shows that each acts on the finite map from keys to contents
    that lookup presents ([store_view]). *)

From stdpp Require Import prelude list.
From S2P Require Import Prelude ResPool ResMap.

Open Scope Z_scope.
Open Scope drc_scope.

(** What an item promises besides its link and key: it records its own index. *)
Class StoreItem (A K : Type) `{ResKey A K} := {
  item_idx : A -> Z;
  item_idx_set_next n a : item_idx (set_item_next n a) = item_idx a;
}.

Section operations.
Context {A K : Type} `{StoreItem A K}.
Implicit Types (m : drc_res_map A) (k : K).

Definition map_put m (i : Z) (a : A) : outcome (drc_res_map A) :=
  items ← arr_set (map_items m) i a; Done (map_set_pool m (pool_set_addr (res_pool m) items)).

(** Take an item, fill it in with [fill] and link it; [None] when the pool is exhausted. *)
Definition store_create m k (fill : Z -> A -> A) : outcome (option Z * drc_res_map A) :=
  '(item_idx, p) ← drc_res_pool_alloc_item (res_pool m);
  let m := map_set_pool m p in
  if CT_INVALID_ID32 =? item_idx then Done (None, m)
  else a ← arr_get (map_items m) item_idx;
       m ← map_put m item_idx (fill item_idx a);
       m ← map_add m k item_idx;
       Done (Some item_idx, m).

(** Wipe the item at [i] and give it back to the pool under the index it records. *)
Definition store_release m (i : Z) (wipe : A -> A) : outcome (drc_res_map A) :=
  a ← arr_get (map_items m) i;
  let idx := item_idx a in
  m ← map_put m i (wipe a);
  p ← drc_res_pool_free_item (res_pool m) idx;
  Done (map_set_pool m p).

(** The contents of an item: everything but its link. *)
Definition bare (a : A) : A := set_item_next 0 a.

Definition store_view m k : option A :=
  match map_lookup m k with Done (Some i) => bare <$> (map_items m).[i] | _ => None end.

Definition store_full m : Prop := free_list (res_pool m) = CT_INVALID_ID32.
Definition store_same_but k m m' : Prop := forall k', k' <> k -> store_view m' k' = store_view m k'.

(** [P] holds of the contents of every linked item. *)
Definition store_wf (P : A -> Prop) m fl held bl : Prop :=
  map_wf m fl held bl /\
  forall i a, i ∈ concat bl -> (map_items m).[i] = Some a -> item_idx a = i /\ P (bare a).

Definition store_ok (P : A -> Prop) m : Prop := exists fl bl, store_wf P m fl [] bl.
End operations.

#[export] Instance store_full_dec {A} (m : drc_res_map A) : Decision (store_full m).
Proof. unfold store_full. apply _. Defined.

Section facts.
Context {A K : Type} `{StoreItem A K}.
Implicit Types (m : drc_res_map A) (k : K) (P : A -> Prop) (fl held : list Z) (bl : list (list Z)).

Lemma bare_set_next n (a : A) : bare (set_item_next n a) = bare a.
Proof. unfold bare. by rewrite set_item_next_set. Qed.

Lemma bare_bare (a : A) : bare (bare a) = bare a.
Proof. apply bare_set_next. Qed.

Lemma key_dec (a : A) k : key_of a = k \/ key_of a <> k.
Proof. rewrite <- is_same_res_spec. destruct (is_same_res k a); [by left | by right]. Qed.

(** Two maps whose linked items agree on key [k] show the same contents under it. *)
Lemma store_view_ext m fl held bl m' fl' held' bl' k :
  map_wf m fl held bl -> map_wf m' fl' held' bl' ->
  (forall j a, j ∈ concat bl -> (map_items m).[j] = Some a -> key_of a = k ->
     j ∈ concat bl' /\ exists a', (map_items m').[j] = Some a' /\ key_of a' = k /\ bare a' = bare a) ->
  (forall j a, j ∈ concat bl' -> (map_items m').[j] = Some a -> key_of a = k ->
     j ∈ concat bl /\ exists b, (map_items m).[j] = Some b /\ key_of b = k) ->
  map_lookup m' k = map_lookup m k /\ store_view m' k = store_view m k.
Proof.
  intros Hwf Hwf' Hto Hfrom. unfold store_view. destruct (map_lookup_spec Hwf k) as ([j |] & Hrun & Hcase); rewrite Hrun.
  - destruct Hcase as (Hj & a & Ha & Hk). destruct (Hto j a Hj Ha Hk) as (Hj' & a' & Ha' & Hk' & Hb).
    rewrite (map_lookup_Some Hwf' k j a' Hj' Ha' Hk'), Ha, Ha'. cbn. by rewrite Hb.
  - destruct (map_lookup_spec Hwf' k) as ([j |] & -> & Hcase'); [exfalso | done].
    destruct Hcase' as (Hj & a & Ha & Hk). destruct (Hfrom j a Hj Ha Hk) as (Hj' & b & Hb & Hkb). by apply (Hcase j b).
Qed.

Lemma map_put_Done m i a b : (map_items m).[i] = Some a ->
  map_put m i b = Done (map_set_pool m (pool_set_addr (res_pool m) ((map_items m).[i <- b]))).
Proof. intros Ha. unfold map_put. by rewrite (arr_set_eq _ _ _ _ Ha). Qed.

Lemma store_view_Some m fl held bl k i a :
  map_wf m fl held bl -> i ∈ concat bl -> (map_items m).[i] = Some a -> key_of a = k ->
  map_lookup m k = Done (Some i) /\ store_view m k = Some (bare a).
Proof.
  intros Hwf Hi Ha Hk. unfold store_view. pose proof (map_lookup_Some Hwf k i a Hi Ha Hk) as Hl. by rewrite Hl, Ha.
Qed.

(** The presented contents, located. *)
Lemma store_cases P m k :
  store_ok P m ->
  match store_view m k with
  | Some b => exists i a, map_lookup m k = Done (Some i) /\ (map_items m).[i] = Some a /\ b = bare a /\
                item_idx a = i /\ key_of a = k /\ P b
  | None => map_lookup m k = Done None
  end.
Proof.
  intros (fl & bl & Hwf & HP). unfold store_view. destruct (map_lookup_spec Hwf k) as ([i |] & -> & Hcase); [| done].
  destruct Hcase as (Hi & a & Ha & Hk). rewrite Ha. cbn. destruct (HP i a Hi Ha). by exists i, a.
Qed.

Lemma store_view_None P m k : store_ok P m -> map_lookup m k = Done None -> store_view m k = None.
Proof. intros _ Hl. unfold store_view. by rewrite Hl. Qed.

(** Writing through the pointer a lookup returned. *)
Lemma store_put P m k i a b :
  store_ok P m -> map_lookup m k = Done (Some i) -> (map_items m).[i] = Some a ->
  item_next b = item_next a -> key_of b = key_of a -> item_idx b = item_idx a -> P (bare b) ->
  exists m', map_put m i b = Done m' /\ store_ok P m' /\ store_same_but k m m' /\
    store_view m' k = Some (bare b) /\ (forall k', map_lookup m' k' = map_lookup m k') /\
    map_items m' = (map_items m).[i <- b] /\ (store_full m' <-> store_full m).
Proof.
  intros (fl & bl & Hwf & HP) Hl Ha Hn Hkb Hib HPb. rewrite (map_put_Done _ _ _ _ Ha).
  destruct (map_lookup_spec Hwf k) as (r & Hl' & Hcase). rewrite Hl in Hl'. injection Hl' as <-. destruct Hcase as (Hi & a0 & Ha0 & Hk).
  assert (a0 = a) as -> by congruence.
  pose proof (map_wf_put Hwf i a b Ha (or_intror (conj Hn Hkb))) as Hwf'. set (m' := map_set_pool _ _) in *.
  assert (Hii : (map_items m').[i] = Some b) by (apply lookupZ_insertZ_eq; by eapply lookupZ_lt).
  assert (Hij : forall j, j <> i -> (map_items m').[j] = (map_items m).[j]) by (intros j Hj; by apply lookupZ_insertZ_ne).
  assert (Hsame : forall k', k' <> k -> map_lookup m' k' = map_lookup m k' /\ store_view m' k' = store_view m k').
  { intros k' Hk'. apply (store_view_ext _ _ _ _ _ _ _ _ _ Hwf Hwf'); intros j c Hj Hc Hkc;
      (assert (j <> i) by (intros ->; congruence)).
    - split; [done |]. exists c. by rewrite Hij.
    - split; [done |]. rewrite Hij in Hc by done. eauto. }
  destruct (store_view_Some m' _ _ _ k i b Hwf' Hi Hii) as [Hl1 Hv1]; [congruence |].
  exists m'. split; [done |]. split.
  - exists fl, bl. split; [done |]. intros j c Hj Hc. destruct (decide (j = i)) as [-> | Hne].
    + assert (c = b) as -> by congruence. destruct (HP i a Hi Ha) as [<- _]. done.
    + rewrite Hij in Hc by done. by apply HP.
  - split; [intros k' Hk'; by apply Hsame |]. split; [done |]. split; [| done].
    intros k'. destruct (key_dec a k') as [<- | Hne]; [congruence |]. apply Hsame. congruence.
Qed.

Lemma store_full_nil P m fl held bl : store_wf P m fl held bl -> store_full m <-> fl = [].
Proof. intros [Hwf _]. apply free_list_nil, (mw_pool _ _ _ _ Hwf). Qed.

(** A full store creates nothing. *)
Lemma store_create_full P m k fill : store_ok P m -> store_full m -> store_create m k fill = Done (None, m).
Proof.
  intros (fl & bl & Hwf) Hfull. apply (store_full_nil _ _ _ _ _ Hwf) in Hfull as ->. destruct Hwf as [Hwf _].
  unfold store_create. rewrite (alloc_item_nil _ (mw_pool _ _ _ _ Hwf)). ostep. cbn. by destruct m.
Qed.

(** Otherwise the item filled in becomes the contents under its key. *)
Lemma store_create_ok P m k fill :
  store_ok P m -> store_view m k = None -> ~ store_full m ->
  (forall i a, key_of (fill i a) = k /\ item_idx (fill i a) = i /\ P (bare (fill i a))) ->
  exists i a m', store_create m k fill = Done (Some i, m') /\ store_ok P m' /\ store_same_but k m m' /\
    (map_items m).[i] = Some a /\ store_view m' k = Some (bare (fill i a)) /\ map_lookup m' k = Done (Some i).
Proof.
  intros Hok Hv Hfull Hfill. pose proof (store_cases P m k Hok) as Hnone. rewrite Hv in Hnone. destruct Hok as (fl & bl & Hwf).
  destruct fl as [| i fl]; [by rewrite (store_full_nil _ _ _ _ _ Hwf) in Hfull |]. destruct Hwf as [Hwf HP].
  destruct (map_lookup_spec Hwf k) as (r & Hl' & Hnew). rewrite Hnone in Hl'. injection Hl' as <-.
  destruct (map_wf_alloc _ _ _ _ _ Hwf) as (p & Halloc & Hwf1 & Haddr & _). set (m1 := map_set_pool m p) in *.
  assert (Hit1 : map_items m1 = map_items m) by exact Haddr.
  destruct (mw_item Hwf1 i) as [a Ha]; [set_solver |]. destruct (Hfill i a) as (Hkf & Hif & HPf).
  pose proof (map_wf_put Hwf1 i a (fill i a) Ha (or_introl (list_elem_of_here i []))) as Hwf2.
  set (m2 := map_set_pool m1 _) in Hwf2.
  assert (Hi2 : (map_items m2).[i] = Some (fill i a)) by (apply lookupZ_insertZ_eq; by eapply lookupZ_lt).
  assert (Hnd : i ∉ concat bl).
  { pose proof (mw_nodup Hwf1) as Hnd. apply NoDup_app in Hnd as (_ & _ & Hnd). cbn in Hnd. by apply NoDup_cons in Hnd as [? _]. }
  assert (Hij : forall j, j <> i -> (map_items m2).[j] = (map_items m).[j]).
  { intros j Hj. unfold m2. cbn. rewrite lookupZ_insertZ_ne by done. by rewrite Haddr. }
  assert (Hnew2 : forall j b, j ∈ concat bl -> (map_items m2).[j] = Some b -> key_of b <> k).
  { intros j b Hj Hb. rewrite Hij in Hb by (intros ->; done). by apply (Hnew j). }
  destruct (map_wf_add m2 fl [i] [] bl i (fill i a) k Hwf2) as (m3 & bl3 & Hadd & Hwf3 & Hbl3 & Hl3 & _); try done.
  pose proof Hl3 as (_ & Hout3 & Hin3). destruct (Hin3 i _ Hi2) as [n Hi3].
  assert (Hk3 : key_of (set_item_next n (fill i a)) = k) by (by rewrite key_of_set_next).
  destruct (store_view_Some m3 _ _ _ k i (set_item_next n (fill i a)) Hwf3) as [Hlk3 Hv3]; [rewrite Hbl3; set_solver | done | done |].
  assert (Hij3 : forall j, j <> i -> (map_items m3).[j] = (map_items m).[j]).
  { intros j Hj. rewrite Hout3 by set_solver. by apply Hij. }
  exists i, a, m3. split.
  { unfold store_create. rewrite Halloc. ostep. fold m1.
    assert (Hlt : CT_INVALID_ID32 =? i = false).
    { pose proof (lookupZ_lt _ _ _ Ha) as Hlt. pose proof (pw_max _ _ (mw_pool _ _ _ _ Hwf1)). pose proof (pw_len _ _ (mw_pool _ _ _ _ Hwf1)). lia. }
    rewrite Hlt. rewrite (arr_get_eq _ _ _ Ha). ostep. rewrite (map_put_Done _ _ _ _ Ha). ostep. fold m2. rewrite Hadd. ostep. done. }
  split.
  { exists fl, bl3. split; [done |]. intros j b. rewrite Hbl3, elem_of_cons. intros [-> | Hj] Hb.
    - assert (b = set_item_next n (fill i a)) as -> by congruence. by rewrite item_idx_set_next, bare_set_next.
    - rewrite Hij3 in Hb by (intros ->; done). by apply HP. }
  rewrite bare_set_next in Hv3. split; [| split; [by rewrite <- Hit1 | done]].
  intros k' Hk'. apply (store_view_ext _ _ _ _ _ _ _ _ _ Hwf Hwf3); intros j b Hj Hb Hkb.
  - assert (j <> i) by (intros ->; done). split; [rewrite Hbl3; set_solver |]. exists b. by rewrite Hij3.
  - assert (j <> i) by (intros ->; rewrite Hi3 in Hb; congruence). rewrite Hbl3 in Hj. split; [set_solver |].
    rewrite Hij3 in Hb by done. eauto.
Qed.

(** Unlinking an item, wiping it and giving it back: the key is gone, the rest stays. *)
Lemma store_drop_ok P m k i a wipe :
  store_ok P m -> map_lookup m k = Done (Some i) -> (map_items m).[i] = Some a ->
  exists m1 m2, map_remove m k = Done m1 /\ store_release m1 i wipe = Done m2 /\
    store_ok P m2 /\ store_same_but k m m2 /\ store_view m2 k = None /\ ~ store_full m2 /\
    exists n, (map_items m2).[i] = Some (set_item_next n (wipe a)).
Proof.
  intros (fl & bl & Hwf & HP) Hl Ha.
  destruct (map_lookup_spec Hwf k) as (r & Hl' & Hcase). rewrite Hl in Hl'. injection Hl' as <-. destruct Hcase as (Hi & a0 & Ha0 & Hk).
  assert (a0 = a) as -> by congruence. destruct (HP i a Hi Ha) as [Hidx _].
  destruct (map_wf_remove m fl [] bl i a k Hwf Hi Ha Hk) as (m1 & bl1 & Hrem & Hwf1 & Hbl1 & Hl1 & _).
  pose proof Hl1 as (_ & Hout1 & Hin1).
  assert (Hnd : i ∉ concat bl1).
  { pose proof (mw_nodup Hwf1) as Hnd. apply NoDup_app in Hnd as (_ & _ & Hnd). cbn in Hnd. by apply NoDup_cons in Hnd as [? _]. }
  assert (Hi1 : (map_items m1).[i] = Some a) by (by rewrite Hout1).
  pose proof (map_wf_put Hwf1 i a (wipe a) Hi1 (or_introl (list_elem_of_here i []))) as Hwf2. set (m1' := map_set_pool m1 _) in Hwf2.
  destruct (map_wf_free Hwf2 i [] ltac:(done)) as (p & Hfree & Hwf3 & Hl3 & _). set (m2 := map_set_pool m1' p) in *.
  pose proof Hl3 as (_ & Hout3 & Hin3).
  assert (Hi1' : (map_items m1').[i] = Some (wipe a)) by (apply lookupZ_insertZ_eq; by eapply lookupZ_lt).
  destruct (Hin3 i _ Hi1') as [n Hi2].
  assert (Hij : forall j, j <> i -> (map_items m2).[j] = (map_items m1).[j]).
  { intros j Hj. change (map_items m2) with (addr p). rewrite Hout3 by set_solver. by apply lookupZ_insertZ_ne. }
  assert (Hto : forall j b, j ∈ concat bl1 -> (map_items m2).[j] = Some b -> exists b0, (map_items m).[j] = Some b0 /\
    key_of b = key_of b0 /\ bare b = bare b0 /\ item_idx b = item_idx b0).
  { intros j b Hj Hb. rewrite Hij in Hb by (intros ->; done). destruct (links_only_back _ _ _ _ _ Hl1 Hb) as (b0 & Hb0 & Hkb & Hbb).
    exists b0. rewrite Hbb, key_of_set_next, bare_set_next, item_idx_set_next. done. }
  assert (Hin : forall j, j ∈ concat bl <-> j = i \/ j ∈ concat bl1) by (intros j; rewrite <- Hbl1, elem_of_cons; done).
  exists m1, m2. split; [done |]. split.
  { unfold store_release. rewrite (arr_get_eq _ _ _ Hi1). ostep. rewrite (map_put_Done _ _ _ _ Hi1). ostep. fold m1'.
    rewrite Hidx, Hfree. ostep. done. }
  assert (Hok : store_ok P m2).
  { exists (i :: fl), bl1. split; [done |]. intros j b Hj Hb. destruct (Hto j b Hj Hb) as (b0 & Hb0 & _ & -> & ->).
    apply HP; [apply Hin; by right | done]. }
  split; [done |]. split; [| split; [| split; [| by exists n]]].
  - intros k' Hk'. apply (store_view_ext _ _ _ _ _ _ _ _ _ Hwf Hwf3).
    + intros j b Hj Hb Hkb. assert (j <> i) by (intros ->; congruence). apply Hin in Hj as [-> | Hj]; [done |]. split; [done |].
      destruct (Hin1 j b Hb) as [n' Hb1]. exists (set_item_next n' b). by rewrite Hij, key_of_set_next, bare_set_next.
    + intros j b Hj Hb Hkb. destruct (Hto j b Hj Hb) as (b0 & Hb0 & Hkk & _). split; [apply Hin; by right |]. exists b0. by rewrite <- Hkk.
  - destruct (map_lookup_spec Hwf3 k) as ([j |] & Hlk & Hcase); [exfalso | unfold store_view; by rewrite Hlk].
    destruct Hcase as (Hj & b & Hb & Hkb). destruct (Hto j b Hj Hb) as (b0 & Hb0 & Hkk & _).
    apply Hnd. rewrite (mw_keys _ _ _ _ Hwf i j a b0); [done | done | apply Hin; by right | done | done | congruence].
  - rewrite (store_full_nil P m2 (i :: fl) [] bl1); [done |]. split; [done |]. intros j b Hj Hb.
    destruct (Hto j b Hj Hb) as (b0 & Hb0 & _ & -> & ->). apply HP; [apply Hin; by right | done].
Qed.

(** A new map holds nothing. *)
Lemma store_init P m pool_size size :
  map_inited m = false -> inited (res_pool m) = false -> block_header_size <= size -> 0 < pool_size < 2 ^ 31 ->
  exists m', drc_res_map_init m pool_size size true true = Done (CT_SUCCESS, m') /\ store_ok P m' /\ ~ store_full m' /\
    forall k, store_view m' k = None.
Proof.
  intros Hin Hpin Hsz Hps. destruct (map_init_spec m pool_size size Hin Hpin Hsz Hps) as (m' & Hrun & Hwf & _).
  assert (Hst : store_wf P m' (seqZ 0 pool_size) [] (replicate (Z.to_nat (pool_size * 2 + 1)) [])).
  { split; [done |]. intros i a Hi. rewrite concat_replicate_nil in Hi. set_solver. }
  exists m'. split; [done |]. split; [by exists (seqZ 0 pool_size), (replicate (Z.to_nat (pool_size * 2 + 1)) []) |]. split.
  - rewrite (store_full_nil _ _ _ _ _ Hst). intros E. apply (f_equal length) in E. rewrite length_seqZ in E. cbn in E. lia.
  - intros k. unfold store_view. destruct (map_lookup_spec Hwf k) as ([j |] & -> & Hcase); [| done].
    destruct Hcase as [Hj _]. rewrite concat_replicate_nil in Hj. set_solver.
Qed.
End facts.
