(* ===== verification/UtilThms.v ===== *)
(** * Instances of the theorems on pools and maps

    Concrete pools and maps on which the hypotheses of the theorems of
    ResPool.v and ResMap.v hold. *)

From stdpp Require Import prelude list.
From S2P Require Import Prelude Bitmap ResPool DrcList ResMap ConvertQ GlobalRes DrcTypes.

Open Scope Z_scope.
Open Scope drc_scope.

Module UtilDemo.
Definition raw_pool {A} : drc_res_pool A := mk_pool false 0 0 0 0 [] 0.

(** A pool of three lock items. *)
Definition lp : lock_pool :=
  match drc_res_pool_init raw_pool 56 3 true with Done (_, p) => p | Crash _ => raw_pool end.

Lemma lp_wf : pool_wf lp [0; 1; 2].
Proof. destruct (pool_init_spec (A := drc_lock_item) raw_pool 56 3) as (p & Hrun & Hwf & _); try done. unfold lp. by rewrite Hrun. Qed.

(** The same pool with item 0 in use. *)
Definition lp1 : lock_pool := match drc_res_pool_alloc_item lp with Done (_, p) => p | Crash _ => lp end.

Lemma lp1_wf : pool_wf lp1 [1; 2].
Proof. destruct (alloc_item_cons lp 0 [1; 2] lp_wf) as (p & Hrun & Hwf & _). unfold lp1. by rewrite Hrun. Qed.

(** A map of two lock resources, one of them held. *)
Definition raw_map : drc_res_map drc_master_res := mk_map false raw_pool 0 [].
Definition mp0 : drc_res_map drc_master_res :=
  match drc_res_map_init raw_map 2 96 true true with Done (_, m) => m | Crash _ => raw_map end.
Definition mp : drc_res_map drc_master_res :=
  match drc_res_pool_alloc_item (res_pool mp0) with Done (_, p) => map_set_pool mp0 p | Crash _ => mp0 end.

Lemma mp_wf : map_wf (K := drid_t) mp [1] [0] (replicate 5 []).
Proof.
  destruct (map_init_spec (K := drid_t) raw_map 2 96) as (m & Hrun & Hwf & _); try done.
  destruct (map_wf_alloc m 0 [1] [] (replicate 5 []) Hwf) as (p & Hrun2 & Hwf2 & _).
  assert (E : mp0 = m) by (unfold mp0; by rewrite Hrun). unfold mp. by rewrite E, Hrun2.
Qed.

Lemma pool_init_all_free_witness :
  exists p : lock_pool, drc_res_pool_init raw_pool 56 3 true = Done (CT_SUCCESS, p) /\ pool_wf p [0; 1; 2].
Proof.
  destruct (pool_init_all_free (A := drc_lock_item) raw_pool 56 3) as (p & Hrun & Hwf & _);
    [reflexivity | unfold block_header_size; lia | unfold CT_INVALID_ID32; lia |]. exists p. exact (conj Hrun Hwf).
Defined.

Lemma pool_alloc_free_witness : pool_wf lp [0; 1; 2] /\ exists p1, drc_res_pool_alloc_item lp = Done (0, p1).
Proof.
  split; [apply lp_wf |]. destruct (pool_alloc_free lp [0; 1; 2] lp_wf) as (p1 & p2 & Hrun & _). exists p1. exact Hrun.
Defined.

Lemma pool_alloc_batch_witness : pool_wf lp [0; 1; 2] /\ exists p1, drc_res_pool_alloc_batch_item lp 2 = Done (CT_SUCCESS, [0; 1], p1).
Proof.
  split; [apply lp_wf |]. assert (Hn : item_num lp < 2 ^ 31) by (vm_compute; reflexivity).
  pose proof (pool_alloc_batch lp [0; 1; 2] 2 lp_wf Hn ltac:(lia)) as Hb. rewrite decide_True in Hb by (cbn; lia).
  destruct Hb as (p1 & p2 & Hrun & _). exists p1. exact Hrun.
Defined.

Lemma pool_free_batch_past_end_witness : pool_wf lp1 [1; 2] /\ drc_res_pool_free_batch_item lp1 [3] = Crash OutOfBounds.
Proof. split; [apply lp1_wf |]. apply (pool_free_batch_past_end lp1 [1; 2] lp1_wf). vm_compute. reflexivity. Defined.

Lemma map_add_lookup_remove_witness :
  exists a m1, (map_items mp).[0] = Some a /\ map_add mp (mr_res_id a) 0 = Done m1 /\ map_lookup m1 (mr_res_id a) = Done (Some 0).
Proof.
  destruct ((map_items mp).[0]) as [a |] eqn:Ha; [| vm_compute in Ha; discriminate Ha].
  destruct (map_add_lookup_remove (K := drid_t) mp [1] [] (replicate 5 []) 0 a mp_wf Ha) as (m1 & m2 & Hadd & _ & Hl & _).
  { vm_compute in Ha. injection Ha as <-. vm_compute. reflexivity. }
  exists a, m1. split; [reflexivity |]. exact (conj Hadd Hl).
Defined.
End UtilDemo.
