(* ===== verification/BufCtrl.v ===== *)
(** * Buffer controls (knl_buffer.h, and the parts of knl_buffer_access.c the
    page protocol calls)

    Every instance has a control for each page in its buffer: the lock mode the
    instance has the page in, whether the page is loaded, dirty here or
    elsewhere, or an earlier dirty page (edp) that another instance has replaced.
    A handler works on a control under its exclusive page latch, so that it is a
    function of the control; the latch itself, the reference count that comes and
    goes with it and the lists of the buffer pool are left out.  The bytes of a
    page other than its identifier and its lsn are one value.
    Sources: src/pkg/src/kernel/buffer/knl_buffer.h, knl_buffer_access.c,
    src/pkg/src/cluster/dtc_dcs.h, dtc_dcs.c, dtc_buffer.h. *)

From stdpp Require Import prelude list.
From S2P Require Import Prelude Bitmap ResPool DrcList ResMap ConvertQ GlobalRes DrcTypes.

Open Scope Z_scope.
Open Scope drc_scope.

(** ** Data *)

Record page_head := mk_page { ph_id : page_id_t; ph_lsn : Z; ph_body : Z }.

#[export] Instance page_head_eq_dec : EqDecision page_head.
Proof. solve_decision. Defined.

Inductive buf_load_status := BUF_NEED_LOAD | BUF_IS_LOADED | BUF_LOAD_FAILED.
Inductive buf_transfer_status := BUF_TRANS_NONE | BUF_TRANS_TRY_REMOTE | BUF_TRANS_REL_OWNER.

#[export] Instance buf_load_status_eq_dec : EqDecision buf_load_status.
Proof. solve_decision. Defined.
#[export] Instance buf_transfer_status_eq_dec : EqDecision buf_transfer_status.
Proof. solve_decision. Defined.

Record buf_ctrl := mk_ctrl {
  bc_page_id : page_id_t;
  bc_is_resident : bool;
  bc_is_pinned : bool;
  bc_is_readonly : bool;
  bc_is_dirty : bool;
  bc_is_remote_dirty : bool;
  bc_is_marked : bool;
  bc_load_status : buf_load_status;
  bc_in_ckpt : bool;
  bc_lock_mode : Z;
  bc_is_edp : bool;
  bc_force_request : bool;
  bc_transfer_status : buf_transfer_status;
  bc_ref_num : Z;
  bc_touch_number : Z;
  bc_lastest_lfn : Z;
  bc_is_fixed : bool;
  bc_page : page_head;
  bc_edp_scn : Z;
}.

Definition set_bc_is_dirty (v : bool) (r : buf_ctrl) : buf_ctrl :=
  mk_ctrl (bc_page_id r) (bc_is_resident r) (bc_is_pinned r) (bc_is_readonly r) v (bc_is_remote_dirty r)
    (bc_is_marked r) (bc_load_status r) (bc_in_ckpt r) (bc_lock_mode r) (bc_is_edp r) (bc_force_request r)
    (bc_transfer_status r) (bc_ref_num r) (bc_touch_number r) (bc_lastest_lfn r) (bc_is_fixed r) (bc_page r)
    (bc_edp_scn r).
Definition set_bc_is_remote_dirty (v : bool) (r : buf_ctrl) : buf_ctrl :=
  mk_ctrl (bc_page_id r) (bc_is_resident r) (bc_is_pinned r) (bc_is_readonly r) (bc_is_dirty r) v
    (bc_is_marked r) (bc_load_status r) (bc_in_ckpt r) (bc_lock_mode r) (bc_is_edp r) (bc_force_request r)
    (bc_transfer_status r) (bc_ref_num r) (bc_touch_number r) (bc_lastest_lfn r) (bc_is_fixed r) (bc_page r)
    (bc_edp_scn r).
Definition set_bc_is_marked (v : bool) (r : buf_ctrl) : buf_ctrl :=
  mk_ctrl (bc_page_id r) (bc_is_resident r) (bc_is_pinned r) (bc_is_readonly r) (bc_is_dirty r)
    (bc_is_remote_dirty r) v (bc_load_status r) (bc_in_ckpt r) (bc_lock_mode r) (bc_is_edp r)
    (bc_force_request r) (bc_transfer_status r) (bc_ref_num r) (bc_touch_number r) (bc_lastest_lfn r)
    (bc_is_fixed r) (bc_page r) (bc_edp_scn r).
Definition set_bc_load_status (v : buf_load_status) (r : buf_ctrl) : buf_ctrl :=
  mk_ctrl (bc_page_id r) (bc_is_resident r) (bc_is_pinned r) (bc_is_readonly r) (bc_is_dirty r)
    (bc_is_remote_dirty r) (bc_is_marked r) v (bc_in_ckpt r) (bc_lock_mode r) (bc_is_edp r)
    (bc_force_request r) (bc_transfer_status r) (bc_ref_num r) (bc_touch_number r) (bc_lastest_lfn r)
    (bc_is_fixed r) (bc_page r) (bc_edp_scn r).
Definition set_bc_in_ckpt (v : bool) (r : buf_ctrl) : buf_ctrl :=
  mk_ctrl (bc_page_id r) (bc_is_resident r) (bc_is_pinned r) (bc_is_readonly r) (bc_is_dirty r)
    (bc_is_remote_dirty r) (bc_is_marked r) (bc_load_status r) v (bc_lock_mode r) (bc_is_edp r)
    (bc_force_request r) (bc_transfer_status r) (bc_ref_num r) (bc_touch_number r) (bc_lastest_lfn r)
    (bc_is_fixed r) (bc_page r) (bc_edp_scn r).
Definition set_bc_lock_mode (v : Z) (r : buf_ctrl) : buf_ctrl :=
  mk_ctrl (bc_page_id r) (bc_is_resident r) (bc_is_pinned r) (bc_is_readonly r) (bc_is_dirty r)
    (bc_is_remote_dirty r) (bc_is_marked r) (bc_load_status r) (bc_in_ckpt r) v (bc_is_edp r)
    (bc_force_request r) (bc_transfer_status r) (bc_ref_num r) (bc_touch_number r) (bc_lastest_lfn r)
    (bc_is_fixed r) (bc_page r) (bc_edp_scn r).
Definition set_bc_is_edp (v : bool) (r : buf_ctrl) : buf_ctrl :=
  mk_ctrl (bc_page_id r) (bc_is_resident r) (bc_is_pinned r) (bc_is_readonly r) (bc_is_dirty r)
    (bc_is_remote_dirty r) (bc_is_marked r) (bc_load_status r) (bc_in_ckpt r) (bc_lock_mode r) v
    (bc_force_request r) (bc_transfer_status r) (bc_ref_num r) (bc_touch_number r) (bc_lastest_lfn r)
    (bc_is_fixed r) (bc_page r) (bc_edp_scn r).
Definition set_bc_force_request (v : bool) (r : buf_ctrl) : buf_ctrl :=
  mk_ctrl (bc_page_id r) (bc_is_resident r) (bc_is_pinned r) (bc_is_readonly r) (bc_is_dirty r)
    (bc_is_remote_dirty r) (bc_is_marked r) (bc_load_status r) (bc_in_ckpt r) (bc_lock_mode r) (bc_is_edp r)
    v (bc_transfer_status r) (bc_ref_num r) (bc_touch_number r) (bc_lastest_lfn r) (bc_is_fixed r) (bc_page
    r) (bc_edp_scn r).
Definition set_bc_transfer_status (v : buf_transfer_status) (r : buf_ctrl) : buf_ctrl :=
  mk_ctrl (bc_page_id r) (bc_is_resident r) (bc_is_pinned r) (bc_is_readonly r) (bc_is_dirty r)
    (bc_is_remote_dirty r) (bc_is_marked r) (bc_load_status r) (bc_in_ckpt r) (bc_lock_mode r) (bc_is_edp r)
    (bc_force_request r) v (bc_ref_num r) (bc_touch_number r) (bc_lastest_lfn r) (bc_is_fixed r) (bc_page r)
    (bc_edp_scn r).
Definition set_bc_is_fixed (v : bool) (r : buf_ctrl) : buf_ctrl :=
  mk_ctrl (bc_page_id r) (bc_is_resident r) (bc_is_pinned r) (bc_is_readonly r) (bc_is_dirty r)
    (bc_is_remote_dirty r) (bc_is_marked r) (bc_load_status r) (bc_in_ckpt r) (bc_lock_mode r) (bc_is_edp r)
    (bc_force_request r) (bc_transfer_status r) (bc_ref_num r) (bc_touch_number r) (bc_lastest_lfn r) v
    (bc_page r) (bc_edp_scn r).
Definition set_bc_page (v : page_head) (r : buf_ctrl) : buf_ctrl :=
  mk_ctrl (bc_page_id r) (bc_is_resident r) (bc_is_pinned r) (bc_is_readonly r) (bc_is_dirty r)
    (bc_is_remote_dirty r) (bc_is_marked r) (bc_load_status r) (bc_in_ckpt r) (bc_lock_mode r) (bc_is_edp r)
    (bc_force_request r) (bc_transfer_status r) (bc_ref_num r) (bc_touch_number r) (bc_lastest_lfn r)
    (bc_is_fixed r) v (bc_edp_scn r).
Definition set_bc_edp_scn (v : Z) (r : buf_ctrl) : buf_ctrl :=
  mk_ctrl (bc_page_id r) (bc_is_resident r) (bc_is_pinned r) (bc_is_readonly r) (bc_is_dirty r)
    (bc_is_remote_dirty r) (bc_is_marked r) (bc_load_status r) (bc_in_ckpt r) (bc_lock_mode r) (bc_is_edp r)
    (bc_force_request r) (bc_transfer_status r) (bc_ref_num r) (bc_touch_number r) (bc_lastest_lfn r)
    (bc_is_fixed r) (bc_page r) v.

(** ** What the macros read *)

Definition BUF_IN_USE_IS_RECYCLABLE (c : buf_ctrl) : bool :=
  negb (bc_is_pinned c) && negb (bc_is_dirty c) && negb (bc_is_remote_dirty c) && negb (bc_is_marked c) && negb (bc_is_edp c).
Definition BUF_TCH_AGE : Z := 3.
Definition BUF_CAN_EVICT (c : buf_ctrl) : bool :=
  BUF_IN_USE_IS_RECYCLABLE c && negb (0 <? bc_ref_num c) && negb (bc_is_resident c) && negb (BUF_TCH_AGE <=? bc_touch_number c).

Definition DCS_BUF_CTRL_NOT_OWNER (c : buf_ctrl) : bool := (bc_lock_mode c =? DRC_LOCK_NULL) || (bc_lock_mode c =? DRC_LOCK_SHARE).
Definition DCS_BUF_CTRL_IS_OWNER (c : buf_ctrl) : bool :=
  ((bc_lock_mode c =? DRC_LOCK_EXCLUSIVE) || (bc_lock_mode c =? DRC_LOCK_SHARE)) && negb (bc_is_edp c).

Definition dtc_get_ctrl_lsn (c : buf_ctrl) : Z := if decide (bc_page_id c = ph_id (bc_page c)) then ph_lsn (bc_page c) else 0.
Definition dtc_get_ctrl_latest_lsn (c : buf_ctrl) : Z := if decide (bc_load_status c = BUF_IS_LOADED) then ph_lsn (bc_page c) else 0.

(** Rows are latch modes (invalid, S, X, force S), columns lock modes. *)
Definition LATCH_MODE_S : Z := 1.
Definition LATCH_MODE_X : Z := 2.
Definition LATCH_MODE_FORCE_S : Z := 3.
Definition dcs_page_latch_usable : list (list bool) := [[false; false; false]; [false; true; true]; [false; false; true]; [false; true; true]].

Definition dcs_local_page_usable (c : buf_ctrl) (mode : Z) : outcome bool :=
  row ← arr_get dcs_page_latch_usable mode;
  arr_get row (bc_lock_mode c).

(** ** Changes of state *)

(** The page leaves the checkpoint queue. *)
Definition dcs_buf_clean_ctrl_edp (c : buf_ctrl) : outcome buf_ctrl :=
  if negb (bc_is_edp c) then Done c
  else
    _ ← knl_panic (bc_is_dirty c && bc_is_edp c && negb (bc_is_readonly c));
    _ ← knl_panic (DCS_BUF_CTRL_NOT_OWNER c);
    _ ← knl_panic (bc_in_ckpt c);
    Done (set_bc_is_edp false (set_bc_is_remote_dirty false (set_bc_is_dirty false (set_bc_in_ckpt false c)))).

(** Finding the control of a page and latching it exclusively; [None]: the page
    is not in memory.  With [check_io] it waits while the page is being written,
    which counts as running out of fuel. *)
Definition buf_try_latchx_page (pagid : page_id_t) (check_io : bool) (c : option buf_ctrl) : outcome (option buf_ctrl) :=
  _ ← knl_panic (negb (IS_INVALID_PAGID pagid));
  match c with
  | None => Done None
  | Some c =>
      let c := if decide (bc_load_status c = BUF_NEED_LOAD) then set_bc_load_status BUF_LOAD_FAILED c else c in
      _ ← knl_panic (bool_decide (pagid = bc_page_id c));
      if check_io && bc_is_marked c then Crash OutOfFuel else Done (Some c)
  end.

Definition drop_page (c : buf_ctrl) : buf_ctrl := set_bc_lock_mode DRC_LOCK_NULL (set_bc_load_status BUF_LOAD_FAILED c).

(** [e] is the reform state the function reads. *)
Definition buf_invalidate_page_with_version (e : dtc_env) (pagid : page_id_t) (req_version : Z) (c : option buf_ctrl)
    : outcome (status_t * option buf_ctrl) :=
  c ← buf_try_latchx_page pagid true c;
  match (c : option buf_ctrl) with
  | None => Done (CT_SUCCESS, None)
  | Some c =>
      if DRC_STOP_DCS_IO_FOR_REFORMING req_version e pagid then Done (CT_ERROR, Some c)
      else if negb (DCS_BUF_CTRL_NOT_OWNER c) then Done (CT_ERROR, Some c)
      else Done (CT_SUCCESS, Some (drop_page c))
  end.

(** The control is looked at under the bucket lock first; [win] is what others do
    to it before it is latched. *)
Definition buf_invalidate_page_owner (e : dtc_env) (win : option buf_ctrl -> option buf_ctrl) (pagid : page_id_t) (req_version : Z)
    (c : option buf_ctrl) : outcome (status_t * option buf_ctrl) :=
  match c with
  | None => Done (CT_SUCCESS, None)
  | Some c0 =>
      if negb (BUF_CAN_EVICT c0) then Done (CT_ERROR, c)
      else
        c ← buf_try_latchx_page pagid true (win c);
        match (c : option buf_ctrl) with
        | None => Done (CT_SUCCESS, None)
        | Some c =>
            if bc_lock_mode c =? DRC_LOCK_NULL then Done (CT_SUCCESS, Some c)
            else if negb (BUF_IN_USE_IS_RECYCLABLE c) || bc_is_resident c || negb (bc_ref_num c + 1 =? 1) then Done (CT_ERROR, Some c)
            else if DRC_STOP_DCS_IO_FOR_REFORMING req_version e (bc_page_id c) then Done (CT_ERROR, Some c)
            else if negb (DCS_BUF_CTRL_IS_OWNER c) then Done (CT_ERROR, Some c)
            else Done (CT_SUCCESS, Some (drop_page c))
        end
  end.
