(* ===== verification/DrcPage.v ===== *)
(** * Page ownership (the page catalog of dtc_drc.c)

    The master of a page keeps one [drc_buf_res] for it: the claimed owner and
    its mode, the instances with a read-only copy, the instances with an
    earlier dirty page (edp), the request being converted and the queue of
    requests waiting behind it.  The first part holds the decisions taken on
    one resource while its bucket is locked; the second the handlers
    (request, claim, release, edp and recycle operations) on the catalog.

    A handler that drops the bucket lock and takes it again gives other
    threads a window; a window is a function on the catalog, given as an
    argument and applied exactly there.  Every read of the reform state is a
    separate argument too, because reform runs concurrently.  Statistics
    counters, log lines and spin locks are left out.
    Source: src/pkg/src/cluster/dtc_drc.c, dtc_dcs.c. *)

From stdpp Require Import prelude list gmap.
From S2P Require Import Prelude Bitmap ResPool DrcList ResMap ConvertQ GlobalRes DrcTypes BufCtrl.

Open Scope Z_scope.
Open Scope drc_scope.

(** ** Messages of the handlers *)

Record claim_info := mk_claim {
  cl_new_id : Z; cl_inst_sid : Z; cl_page_id : page_id_t; cl_lsn : Z; cl_has_edp : bool; cl_mode : Z;
}.

Record cvt_info := mk_cvt {
  cv_owner_id : Z; cv_req_id : Z; cv_req_sid : Z; cv_req_rsn : Z; cv_pageid : page_id_t; cv_req_mode : Z;
  cv_curr_mode : Z; cv_readonly_copies : Z; cv_req_version : Z; cv_lsn : Z;
}.

Record drc_req_owner_result := mk_result {
  rs_type : Z; rs_action : Z; rs_curr_owner_id : Z; rs_is_retry : bool; rs_req_mode : Z; rs_readonly_copies : Z;
}.

Record drc_edp_info := mk_edp_info { ei_edp_map : Z; ei_lsn : Z; ei_readonly_copies : Z; ei_latest_edp : Z }.

(** ** Decisions on one resource *)

Abbreviation converting_req b := (req_info (br_converting b)).

Definition set_converting_req (r : drc_req_info) (b : drc_buf_res) : drc_buf_res :=
  set_br_converting (mk_lock_item (li_next (br_converting b)) r) b.

Definition drc_clean_buf_res (b : drc_buf_res) : outcome drc_buf_res :=
  _ ← knl_panic (br_claimed_owner b =? CT_INVALID_ID8);
  if negb (br_readonly_copies b =? 0) then
    owner ← drc_select_one_instance_from_readonly_copy (br_readonly_copies b);
    let b := set_br_pending DRC_RES_SHARE_ACTION (set_br_claimed_owner owner b) in
    _ ← knl_panic (br_mode b =? DRC_LOCK_SHARE);
    copies ← drc_bitmap64_clear (br_readonly_copies b) (br_claimed_owner b);
    Done (set_br_readonly_copies copies b)
  else if negb (br_edp_map b =? 0) then
    let b := set_br_claimed_owner (br_latest_edp b) b in
    _ ← knl_panic (negb (br_claimed_owner b =? CT_INVALID_ID8));
    let b := set_br_pending DRC_RES_EXCLUSIVE_ACTION b in
    _ ← knl_panic (negb (br_mode b =? DRC_LOCK_SHARE));
    Done b
  else Done b.

Definition drc_check_new_req (r : drc_req_info) (b : drc_buf_res) : outcome status_t :=
  conflict ←
    (if (req_inst_id (converting_req b) =? br_claimed_owner b) &&
        ((br_mode b =? DRC_LOCK_SHARE) && (req_mode (converting_req b) =? DRC_LOCK_EXCLUSIVE)) &&
        negb (req_inst_id r =? br_claimed_owner b)
     then drc_bitmap64_exist (br_readonly_copies b) (req_inst_id r)
     else Done false);
  if (conflict : bool) then Done CT_ERROR
  else if (req_inst_id r =? br_claimed_owner b) && negb (req_inst_id r =? req_inst_id (converting_req b))
       then Done CT_ERROR
       else Done CT_SUCCESS.

(** What [drc_keep_requester_wait] returns: status, [*converting],
    [*is_retry], the request (its mode may be raised), resource and pool. *)
Record keep_wait := mk_kw {
  kw_ret : status_t; kw_converting : bool; kw_is_retry : bool;
  kw_req : drc_req_info; kw_buf : drc_buf_res; kw_pool : lock_pool;
}.

Definition drc_keep_requester_wait (r : drc_req_info) (b : drc_buf_res) (is_try : bool) (pool : lock_pool)
    : outcome keep_wait :=
  if req_inst_id (converting_req b) =? CT_INVALID_ID8 then
    if is_try && negb (br_claimed_owner b =? req_inst_id r) then Done (mk_kw CT_SUCCESS false false r b pool)
    else
      _ ← knl_panic (count (br_convert_q b) =? 0);
      Done (mk_kw CT_SUCCESS true false r (set_br_converting (mk_lock_item CT_INVALID_ID32 r) b) pool)
  else if is_try then Done (mk_kw CT_SUCCESS false false r b pool)
  else
    ret ← drc_check_new_req r b;
    match (ret : status_t) with
    | CT_ERROR => Done (mk_kw CT_ERROR false false r b pool)
    | CT_SUCCESS =>
        if drc_is_retry_request (converting_req b) r then
          if req_time (converting_req b) <=? req_time r then
            let r := req_set_mode (Z.max (req_mode (converting_req b)) (req_mode r)) r in
            Done (mk_kw CT_SUCCESS true true r (set_converting_req r b) pool)
          else Done (mk_kw CT_ERROR false false r b pool)
        else
          item ← (if 0 <? count (br_convert_q b) then drc_search_item_by_reqid (br_convert_q b) r pool else Done None);
          match (item : option Z) with
          | Some item_id =>
              item ← DRC_GET_RES_ADDR_BY_ID pool item_id;
              if negb (req_lsn (req_info item) =? req_lsn r) then Done (mk_kw CT_ERROR false false r b pool)
              else pool ← drc_res_put pool item_id (mk_lock_item (li_next item) r);
                   Done (mk_kw CT_SUCCESS false false r b pool)
          | None =>
              '(ret, q, pool) ← drc_request_lock_owner_add_req_into_cvt_q (br_convert_q b) r pool;
              Done (mk_kw ret false false r (set_br_convert_q q b) pool)
          end
    end.

Definition drc_is_same_claim_request (c : drc_req_info) (ci : claim_info) : bool :=
  (req_inst_id c =? cl_new_id ci) && (req_inst_sid c =? cl_inst_sid ci) && (req_mode c =? cl_mode ci).

Definition drc_claim_info_is_invalid (ci : claim_info) (b : drc_buf_res) : bool :=
  if (if cl_mode ci =? DRC_LOCK_SHARE then br_claimed_owner b =? CT_INVALID_ID8
      else cl_has_edp ci && negb ((cl_mode ci =? DRC_LOCK_EXCLUSIVE) && negb (cl_lsn ci =? 0)))
  then true
  else (0 <? cl_lsn ci) && (cl_lsn ci <? br_lsn b).

Definition pending_claimable (p : Z) : bool :=
  (p =? DRC_RES_INVALID_ACTION) || (p =? DRC_RES_SHARE_ACTION) || (p =? DRC_RES_EXCLUSIVE_ACTION).

(** The change of owner, mode, copies and edps by a claim; [cur_owner] is the
    owner before it. *)
Definition claim_ownership (ci : claim_info) (cur_owner : Z) (b : drc_buf_res) : outcome drc_buf_res :=
  if cl_mode ci =? DRC_LOCK_SHARE then
    _ ← knl_panic (negb (br_claimed_owner b =? CT_INVALID_ID8));
    let b := set_br_mode DRC_LOCK_SHARE b in
    copies ← drc_bitmap64_set (br_readonly_copies b) (cl_new_id ci);
    Done (set_br_readonly_copies copies b)
  else
    let b := set_br_readonly_copies 0 (set_br_mode (cl_mode ci) (set_br_claimed_owner (cl_new_id ci) b)) in
    edp ← drc_bitmap64_clear (br_edp_map b) (cl_new_id ci);
    let b := set_br_edp_map edp b in
    if cl_has_edp ci then
      _ ← knl_panic (cl_mode ci =? DRC_LOCK_EXCLUSIVE);
      edp ← drc_bitmap64_set (br_edp_map b) cur_owner;
      _ ← knl_panic (negb (cl_lsn ci =? 0));
      Done (set_br_latest_edp_lsn (cl_lsn ci) (set_br_latest_edp cur_owner (set_br_edp_map edp b)))
    else Done b.

(** The checks compiled only under DB_DEBUG_VERSION are left out. *)
Definition drc_claim_new_page_owner (ci : claim_info) (b : drc_buf_res) : outcome drc_buf_res :=
  let cur_owner := br_claimed_owner b in
  _ ← knl_panic (req_mode (converting_req b) =? cl_mode ci);
  _ ← knl_panic (pending_claimable (br_pending b));
  let b := set_br_pending DRC_RES_INVALID_ACTION b in
  if (cl_mode ci <=? br_mode b) && (br_claimed_owner b =? cl_new_id ci) then Done b
  else
    b ← claim_ownership ci cur_owner b;
    if 0 <? cl_lsn ci then
      _ ← knl_panic (br_lsn b <=? cl_lsn ci);
      Done (set_br_lsn (cl_lsn ci) b)
    else Done b.

Definition drc_check_first_req_in_convert_queue (b : drc_buf_res) (pool : lock_pool) : outcome (Z * drc_buf_res) :=
  if count (br_convert_q b) =? 0 then Done (CT_INVALID_ID32, b)
  else
    '(lock_item_id, lock_item, q) ← lock_q_pop (br_convert_q b) pool;
    ret ← drc_check_new_req (req_info lock_item) b;
    match (ret : status_t) with
    | CT_ERROR => Done (lock_item_id, set_br_convert_q q b)
    | CT_SUCCESS => Done (CT_INVALID_ID32, b)
    end.

(** DCS_WAIT_MSG_TIMEOUT * MICROSECS_PER_MILLISEC *)
Definition DCS_WAIT_MSG_TIMEOUT_US : Z := 3600000 * 1000.

(** The loop of [drc_convert_next_request]: drop requests that timed out;
    [None] when the queue is empty. *)
Fixpoint convert_next_loop (fuel : nat) (now : Z) (b : drc_buf_res) (pool : lock_pool)
    : outcome (option drc_req_info * drc_buf_res * lock_pool) :=
  match fuel with
  | O => Crash OutOfFuel
  | S fuel =>
      if count (br_convert_q b) =? 0 then
        let r := req_set_sid CT_INVALID_ID16 (req_set_mode DRC_LOCK_NULL (req_set_inst CT_INVALID_ID8 (converting_req b))) in
        Done (None, set_converting_req r b, pool)
      else
        _ ← knl_panic (negb (first (br_convert_q b) =? CT_INVALID_ID32));
        '(lock_item_id, lock_item, q) ← lock_q_pop (br_convert_q b) pool;
        let b := set_br_converting lock_item (set_br_convert_q q b) in
        pool ← drc_res_pool_free_item pool lock_item_id;
        if req_time (converting_req b) + DCS_WAIT_MSG_TIMEOUT_US <=? now then convert_next_loop fuel now b pool
        else Done (Some (converting_req b), b, pool)
  end.

(** Each iteration takes one request out of the queue, so [count] + 1 of them are enough. *)
Definition drc_convert_next_request (now : Z) (b : drc_buf_res) (cvt : cvt_info) (pool : lock_pool)
    : outcome (Z * drc_buf_res * cvt_info * lock_pool) :=
  let cvt := mk_cvt (br_claimed_owner b) (cv_req_id cvt) (cv_req_sid cvt) (cv_req_rsn cvt) (br_page_id b)
               (cv_req_mode cvt) (cv_curr_mode cvt) 0 (cv_req_version cvt) (cv_lsn cvt) in
  '(next, b, pool) ← convert_next_loop (S (Z.to_nat (count (br_convert_q b)))) now b pool;
  match (next : option drc_req_info) with
  | None => Done (CT_INVALID_ID32, b, cvt, pool)
  | Some r =>
      copies ← drc_bitmap64_clear (br_readonly_copies b) (req_inst_id r);
      copies ← drc_bitmap64_clear copies (br_claimed_owner b);
      let cvt := mk_cvt (br_claimed_owner b) (req_inst_id r) (req_inst_sid r) (req_rsn r) (br_page_id b)
                   (req_mode r) (curr_mode r) copies (req_version r) (req_lsn r) in
      '(conflict, b) ← drc_check_first_req_in_convert_queue b pool;
      Done (conflict, b, cvt, pool)
  end.

Definition drc_init_page_converting (b : drc_buf_res) : drc_buf_res :=
  set_br_converting (mk_lock_item CT_INVALID_ID32 g_invalid_req_info) b.

Definition buf_res_has_readonly_copies (b : drc_buf_res) (owner_id : Z) : outcome bool :=
  copies ← drc_bitmap64_clear (br_readonly_copies b) owner_id;
  Done (negb (copies =? 0)).

Definition buf_res_is_recyclable (b : drc_buf_res) : bool :=
  (req_inst_id (converting_req b) =? CT_INVALID_ID8) && (br_edp_map b =? 0).

(** 60 s *)
Definition BUF_RES_RECYCLE_WINDOW : Z := 60000000.
Definition BUF_RES_IS_OLD (b : drc_buf_res) (now : Z) : bool := BUF_RES_RECYCLE_WINDOW <? now - req_time (converting_req b).

(** ** The surroundings of a handler *)

Record page_ctx := mk_pctx { pc_pool : lock_pool; pc_res : buf_catalog }.

Definition pc_set_res (c : page_ctx) (g : buf_catalog) : page_ctx := mk_pctx (pc_pool c) g.

(** The points of a handler where it looks at, or yields to, the outside: in
    [S_loop n] the [n]-th turn of a loop, in [S_page k] while it handles page [k]. *)
Inductive site :=
| S_entry | S_locked | S_unlocked | S_before_alloc | S_after_alloc | S_relocked | S_listed | S_clean
| S_invalidate | S_invalidate2 | S_loop (iter : nat) (s : site) | S_page (pagid : page_id_t) (s : site).

(** Answers of the messaging layer and of the local buffer pool: the results of
    buf_invalidate_page_with_version and buf_invalidate_page_owner there. *)
Record dcs_io := mk_io {
  io_invalidate_copy : page_id_t -> Z -> status_t;
  io_invalidate_owner : page_id_t -> Z -> status_t;
  mes_broadcast_data_and_wait_with_retry : Z -> page_id_t -> Z -> status_t;
  dcs_send_invalidate : Z -> page_id_t -> Z -> status_t;
  mes_recv_invalidate : Z -> page_id_t -> Z -> option status_t;
}.

Record world := mk_world {
  wd_env : site -> dtc_env;
  wd_io : site -> dcs_io;
  wd_win : site -> page_ctx -> page_ctx;
}.

(** The sites of one iteration of a loop. *)
Definition world_iter (w : world) (n : nat) : world :=
  mk_world (fun s => wd_env w (S_loop n s)) (fun s => wd_io w (S_loop n s)) (fun s => wd_win w (S_loop n s)).

Section handlers.
Context `{KernelAttr}.

(** *** dtc_dcs.c: asking other instances to drop their copies *)

Definition dcs_invalidate_readonly_copy (e e' : dtc_env) (io : dcs_io) (page_id : page_id_t)
    (readonly_copies exception req_version : Z) : outcome status_t :=
  if negb (exception =? CT_INVALID_ID8) && (CT_MAX_INSTANCES <=? exception) then Done CT_ERROR
  else
    invld ← (if negb (exception =? CT_INVALID_ID8) then drc_bitmap64_clear readonly_copies exception
             else Done readonly_copies);
    if DRC_STOP_DCS_IO_FOR_REFORMING req_version e page_id then Done CT_ERROR
    else
      self ← drc_bitmap64_exist invld inst_id;
      if (self : bool) && negb (bool_decide (io_invalidate_copy io page_id req_version = CT_SUCCESS))
      then Done CT_ERROR
      else
        invld ← (if (self : bool) then drc_bitmap64_clear invld inst_id else Done invld);
        if invld =? 0 then Done CT_SUCCESS
        else if DRC_STOP_DCS_IO_FOR_REFORMING req_version e' page_id then Done CT_ERROR
        else Done (mes_broadcast_data_and_wait_with_retry io invld page_id req_version).

Definition dcs_invalidate_page_owner (io : dcs_io) (page_id : page_id_t) (owner_id req_version : Z) : status_t :=
  if owner_id =? inst_id then io_invalidate_owner io page_id req_version
  else match dcs_send_invalidate io owner_id page_id req_version with
       | CT_ERROR => CT_ERROR
       | CT_SUCCESS => match mes_recv_invalidate io owner_id page_id req_version with
                       | None => CT_ERROR
                       | Some status => status
                       end
       end.

(** *** Recycling *)

(** The fate of one iteration of the loop of [drc_recycle_items]. *)
Inductive recycle_step := RNext (idx : Z) | RBreak (idx : Z) | RReturn (idx : Z).

(** The locked part after the copies have been invalidated with status [ret];
    [pos] is the index of the resource. *)
Definition recycle_finish (e : dtc_env) (is_batch : bool) (ret : status_t) (pos idx : Z) (saved : drc_buf_res)
    (req_version : Z) (g : buf_catalog) : outcome (recycle_step * buf_catalog) :=
  found ← gres_lookup g (br_page_id saved);
  match (found : option Z) with
  | None => Done (RNext idx, g)
  | Some _ =>
      b ← gres_get g pos;
      if DRC_STOP_DCS_IO_FOR_REFORMING req_version e (br_page_id b) then
        g ← gres_put g pos (set_br_pending DRC_RES_INVALID_ACTION b);
        Done (RBreak idx, g)
      else if negb (br_is_used b) || negb (is_same_page (br_page_id saved) b) then Done (RNext idx, g)
      else
        _ ← knl_panic ((br_pending b =? DRC_RES_PENDING_ACTION) && buf_res_is_recyclable b &&
                       (br_readonly_copies saved =? br_readonly_copies b) &&
                       (br_claimed_owner saved =? br_claimed_owner b));
        let b := set_br_pending DRC_RES_INVALID_ACTION b in
        match ret with
        | CT_ERROR => g ← gres_put g pos b; Done (RNext idx, g)
        | CT_SUCCESS =>
            g ← gres_put g pos (set_br_readonly_copies 0 b);
            let idx := br_idx b in
            g ← drc_clean_page_owner_internal g pos;
            if negb is_batch then Done (RReturn idx, g)
            else g ← gres_free g idx; Done (RNext idx, g)
        end
  end.

(** Mark resource [pos] as being recycled, have its copies and its owner's
    page invalidated without the lock, and finish. *)
Definition recycle_pend (w : world) (is_batch : bool) (pos idx req_version : Z) (b : drc_buf_res) (c : page_ctx)
    : outcome (recycle_step * page_ctx) :=
  g ← gres_put (pc_res c) pos (set_br_pending DRC_RES_PENDING_ACTION b);
  let c := wd_win w (S_page (br_page_id b) S_invalidate) (pc_set_res c g) in
  ret ← dcs_invalidate_readonly_copy (wd_env w S_invalidate) (wd_env w S_invalidate2) (wd_io w S_invalidate)
          (br_page_id b) (br_readonly_copies b) (br_claimed_owner b) req_version;
  let ret := match ret with
             | CT_ERROR => CT_ERROR
             | CT_SUCCESS => dcs_invalidate_page_owner (wd_io w S_invalidate2) (br_page_id b)
                               (br_claimed_owner b) req_version
             end in
  '(st, g) ← recycle_finish (wd_env w S_relocked) is_batch ret pos idx b req_version (pc_res c);
  Done (st, pc_set_res c g).

Definition recycle_iter (w : world) (now : Z) (is_batch : bool) (idx : Z) (c : page_ctx)
    : outcome (recycle_step * page_ctx) :=
  let p := res_pool (res_map (pc_res c)) in
  let pos := u32 (recycle_pos p + 1) mod item_num p in
  let c := pc_set_res c (g_set_pool (pc_res c) (pool_set_recycle_pos p pos)) in
  '(idx, g) ← (if negb is_batch && negb (free_list p =? CT_INVALID_ID32) then gres_alloc (pc_res c)
               else Done (idx, pc_res c));
  let c := pc_set_res c g in
  if negb is_batch && negb (free_list p =? CT_INVALID_ID32) && negb (idx =? CT_INVALID_ID32)
  then Done (RReturn idx, c)
  else
    b ← gres_get (pc_res c) pos;
    if negb (BUF_RES_IS_OLD b now) || negb (buf_res_is_recyclable b) then Done (RNext idx, c)
    else
      let c := wd_win w S_entry c in
      b ← gres_get (pc_res c) pos;
      if negb (br_pending b =? DRC_RES_INVALID_ACTION) || negb (br_is_used b) || negb (buf_res_is_recyclable b)
      then Done (RNext idx, c)
      else
        let e := wd_env w S_locked in
        if DRC_STOP_DCS_IO_FOR_REFORMING (trigger_version e) e (br_page_id b) then Done (RBreak idx, c)
        else recycle_pend w is_batch pos idx (trigger_version e) b c.

Fixpoint recycle_loop (w : world) (now : Z) (n : nat) (is_batch : bool) (idx : Z) (c : page_ctx)
    : outcome (bool * Z * page_ctx) :=
  match n with
  | O => Done (false, idx, c)
  | S n =>
      '(st, c) ← recycle_iter (world_iter w n) now is_batch idx c;
      match (st : recycle_step) with
      | RNext idx => recycle_loop w now n is_batch idx c
      | RBreak idx => Done (false, idx, c)
      | RReturn idx => Done (true, idx, c)
      end
  end.

Definition drc_recycle_items (w : world) (is_batch : bool) (c : page_ctx) : outcome (Z * page_ctx) :=
  let n := if is_batch then 1024 else item_num (res_pool (res_map (pc_res c))) in
  '(returned, idx, c) ← recycle_loop w (dtc_now (wd_env w S_entry)) (Z.to_nat n) is_batch CT_INVALID_ID32 c;
  if (returned : bool) || is_batch then Done (idx, c)
  else '(idx, g) ← gres_alloc (pc_res c); Done (idx, pc_set_res c g).

Definition free_if_valid (g : buf_catalog) (idx : Z) : outcome buf_catalog :=
  if idx =? CT_INVALID_ID32 then Done g else gres_free g idx.

(** The recycle request of the owner [owner_inst]. *)
Definition drc_buf_res_recycle (w : world) (owner_inst time : Z) (page_id : page_id_t) (req_version : Z) (c : page_ctx)
    : outcome page_ctx :=
  if CT_MAX_INSTANCES <=? owner_inst then Done c
  else if IS_INVALID_PAGID page_id || (node_count <=? owner_inst) then Done c
  else if DRC_STOP_DCS_IO_FOR_REFORMING req_version (wd_env w S_locked) page_id then Done c
  else
    found ← gres_lookup (pc_res c) page_id;
    match (found : option Z) with
    | None => Done c
    | Some i =>
        b ← gres_get (pc_res c) i;
        if negb (br_claimed_owner b =? owner_inst) then Done c
        else if negb (br_pending b =? DRC_RES_INVALID_ACTION) || negb (br_is_used b) then Done c
        else if negb ((req_time (converting_req b) <? time) && buf_res_is_recyclable b) then Done c
        else
          let b := set_br_pending DRC_RES_PENDING_ACTION b in
          has ← buf_res_has_readonly_copies b (br_claimed_owner b);
          g ← gres_put (pc_res c) i b;
          if (has : bool) then
            ret ← dcs_invalidate_readonly_copy (wd_env w S_invalidate) (wd_env w S_invalidate2) (wd_io w S_invalidate)
                    page_id (br_readonly_copies b) owner_inst req_version;
            let ret := match ret with
                       | CT_ERROR => CT_ERROR
                       | CT_SUCCESS => dcs_invalidate_page_owner (wd_io w S_invalidate2) (br_page_id b)
                                         (br_claimed_owner b) req_version
                       end in
            let c := wd_win w S_invalidate (pc_set_res c g) in
            again ← gres_lookup (pc_res c) page_id;
            match (again : option Z), ret with
            | None, _ => Done c
            | Some _, CT_ERROR =>
                b ← gres_get (pc_res c) i;
                g ← gres_put (pc_res c) i (set_br_pending DRC_RES_INVALID_ACTION b);
                Done (pc_set_res c g)
            | Some _, CT_SUCCESS =>
                b ← gres_get (pc_res c) i;
                g ← gres_put (pc_res c) i (set_br_pending DRC_RES_INVALID_ACTION (set_br_readonly_copies 0 b));
                let idx := br_idx b in
                g ← drc_clean_page_owner_internal g i;
                g ← free_if_valid g idx;
                Done (pc_set_res c g)
            end
          else
            let idx := br_idx b in
            g ← gres_put g i (set_br_pending DRC_RES_INVALID_ACTION b);
            g ← drc_clean_page_owner_internal g i;
            g ← free_if_valid g idx;
            Done (pc_set_res c g)
    end.

(** *** Looking a page up *)

Definition drc_get_page_master_id (part_master : Z -> Z) (pagid : page_id_t) : option Z :=
  let id := part_master (drc_page_partid pagid) in
  if id =? CT_INVALID_ID8 then None else Some id.

Definition drc_get_buf_res_by_pageid (pagid : page_id_t) (c : page_ctx) : outcome (option Z) :=
  gres_lookup (pc_res c) pagid.

(** The owner and the pending action; [None] when the page is not in the catalog. *)
Definition drc_get_page_owner_id (e : dtc_env) (pagid : page_id_t) (c : page_ctx)
    : outcome (option (Z * Z) * page_ctx) :=
  found ← gres_lookup (pc_res c) pagid;
  match (found : option Z) with
  | None => Done (None, c)
  | Some i =>
      b ← gres_get (pc_res c) i;
      if (br_claimed_owner b =? CT_INVALID_ID8) && reform_recover_done e then
        _ ← knl_panic (negb (DAAC_PARTIAL_RECOVER_SESSION e));
        b ← drc_clean_buf_res b;
        g ← gres_put (pc_res c) i b;
        Done (Some (br_claimed_owner b, br_pending b), pc_set_res c g)
      else Done (Some (br_claimed_owner b, br_pending b), c)
  end.

Definition drc_get_edp_info (pagid : page_id_t) (c : page_ctx) : outcome (option drc_edp_info) :=
  found ← gres_lookup (pc_res c) pagid;
  match (found : option Z) with
  | None => Done None
  | Some i =>
      b ← gres_get (pc_res c) i;
      Done (Some (mk_edp_info (br_edp_map b) (br_lsn b) (br_readonly_copies b) (br_latest_edp b)))
  end.

Definition drc_clean_edp_info (pagid : page_id_t) (page_lsn : Z) (c : page_ctx) : outcome (status_t * page_ctx) :=
  found ← gres_lookup (pc_res c) pagid;
  match (found : option Z) with
  | None => Done (CT_ERROR, c)
  | Some i =>
      b ← gres_get (pc_res c) i;
      if br_lsn b <=? page_lsn then
        g ← gres_put (pc_res c) i (set_br_latest_edp_lsn 0 (set_br_latest_edp CT_INVALID_ID8 (set_br_edp_map 0 b)));
        Done (CT_SUCCESS, pc_set_res c g)
      else Done (CT_SUCCESS, c)
  end.

(** *** Requesting a page *)

(** The fields assigned to a new resource before it is linked. *)
Definition new_buf_res (pagid : page_id_t) (r : drc_req_info) (idx : Z) (old : drc_buf_res) : drc_buf_res :=
  mk_buf_res (br_next old) idx (req_inst_id r) CT_INVALID_ID8 DRC_RES_INVALID_ACTION 0 (req_mode r) pagid
    (mk_lock_item CT_INVALID_ID32 (req_set_time (req_time r) g_invalid_req_info)) DRC_LIST_INIT
    (br_part_id old) true 0 (br_node old) 0 0.

Definition set_part_and_node (pagid : page_id_t) (idx : Z) (b : drc_buf_res) : drc_buf_res :=
  set_br_node (mk_node (prev (br_node b)) (nnext (br_node b)) idx) (set_br_part_id (drc_page_partid pagid) b).

(** Link the allocated item [idx] as the resource of [pagid] (bucket lock
    held); undo it when reform has started meanwhile. *)
Definition request_insert (e : dtc_env) (pagid : page_id_t) (r : drc_req_info) (idx : Z) (g : buf_catalog)
    : outcome (status_t * buf_catalog) :=
  old ← gres_get g idx;
  g ← gres_put g idx (new_buf_res pagid r idx old);
  g ← gres_map_add g pagid idx;
  b ← gres_get g idx;
  g ← gres_put g idx (set_part_and_node pagid idx b);
  if DRC_STOP_DCS_IO_FOR_REFORMING (req_version r) e pagid then
    g ← gres_map_remove g pagid;
    g ← gres_put g idx item_zero;
    g ← gres_free g idx;
    Done (CT_ERROR, g)
  else
    g ← gres_part_add g idx;
    Done (CT_SUCCESS, g).

Definition free_slot_item (free_slot : option Z) (g : buf_catalog) : outcome buf_catalog :=
  match free_slot with None => Done g | Some idx => gres_free g idx end.

(** The page has an owner: the requester converts or waits.  [None] is an
    error return; otherwise the flag tells whether it may convert now. *)
Definition request_wait (r : drc_req_info) (is_try : bool) (res : drc_req_owner_result) (b : drc_buf_res) (pool : lock_pool)
    : outcome (option bool * drc_req_info * drc_req_owner_result * drc_buf_res * lock_pool) :=
  kw ← drc_keep_requester_wait r b is_try pool;
  let r := kw_req kw in
  let b := kw_buf kw in
  match kw_ret kw with
  | CT_ERROR => Done (None, r, res, b, kw_pool kw)
  | CT_SUCCESS =>
      if kw_converting kw then
        let ty := if br_claimed_owner b =? req_inst_id r then DRC_REQ_OWNER_ALREADY_OWNER
                  else DRC_REQ_OWNER_CONVERTING in
        copies ← drc_bitmap64_clear (br_readonly_copies b) (req_inst_id r);
        copies ← drc_bitmap64_clear copies (br_claimed_owner b);
        let res := mk_result ty (br_pending b) (br_claimed_owner b) (kw_is_retry kw) (req_mode r) copies in
        let b := set_converting_req (req_set_result ty (converting_req b)) b in
        _ ← knl_panic (negb is_try || negb (ty =? DRC_REQ_OWNER_CONVERTING));
        Done (Some true, r, res, b, kw_pool kw)
      else
        Done (Some false, r, mk_result DRC_REQ_OWNER_WAITING (rs_action res) (br_claimed_owner b) (rs_is_retry res)
                               (rs_req_mode res) (rs_readonly_copies res), b, kw_pool kw)
  end.

(** The decision on an existing resource, from the label [allocated] to the
    release of the bucket lock. *)
Definition request_decide (e : dtc_env) (pagid : page_id_t) (r : drc_req_info) (is_try : bool)
    (res : drc_req_owner_result) (b : drc_buf_res) (pool : lock_pool)
    : outcome (option bool * drc_req_info * drc_req_owner_result * drc_buf_res * lock_pool) :=
  if br_pending b =? DRC_RES_PENDING_ACTION then Done (None, r, res, b, pool)
  else if (br_claimed_owner b =? CT_INVALID_ID8) &&
          negb (DAAC_SESSION_IN_RECOVERY e || reform_recover_done e || dtc_dcs_readable e pagid)
  then Done (None, r, res, b, pool)
  else
    b ← (if br_claimed_owner b =? CT_INVALID_ID8 then drc_clean_buf_res b else Done b);
    if br_claimed_owner b =? CT_INVALID_ID8 then
      let b := set_br_mode (req_mode r) (set_br_claimed_owner (req_inst_id r) b) in
      let b := set_converting_req (req_set_result DRC_REQ_OWNER_GRANTED (converting_req b)) b in
      Done (Some false, r, mk_result DRC_REQ_OWNER_GRANTED (rs_action res) (req_inst_id r) (rs_is_retry res)
                             (rs_req_mode res) (rs_readonly_copies res), b, pool)
    else request_wait r is_try res b pool.

(** Have the copies dropped without the lock; then, locked again, forget
    them if that worked.  [i] is the resource found before. *)
Definition invalidate_copies (w : world) (pagid : page_id_t) (copies exception version i : Z) (c : page_ctx)
    : outcome (status_t * page_ctx) :=
  ret ← dcs_invalidate_readonly_copy (wd_env w S_invalidate) (wd_env w S_invalidate2) (wd_io w S_invalidate)
          pagid copies exception version;
  let c := wd_win w S_invalidate c in
  match (ret : status_t) with
  | CT_SUCCESS =>
      b ← gres_get (pc_res c) i;
      g ← gres_put (pc_res c) i (set_br_readonly_copies 0 b);
      Done (CT_SUCCESS, pc_set_res c g)
  | CT_ERROR => Done (CT_ERROR, c)
  end.

(** The part of [drc_request_page_owner] from the label [allocated]: decide,
    then, without the lock, have the read-only copies dropped. *)
Definition request_allocated (w : world) (pagid : page_id_t) (r : drc_req_info) (is_try : bool)
    (res : drc_req_owner_result) (i : Z) (free_slot : option Z) (c : page_ctx)
    : outcome (status_t * drc_req_info * drc_req_owner_result * page_ctx) :=
  b ← gres_get (pc_res c) i;
  '(cvt, r, res, b, pool) ← request_decide (wd_env w S_clean) pagid r is_try res b (pc_pool c);
  g ← gres_put (pc_res c) i b;
  match (cvt : option bool) with
  | None =>
      g ← free_slot_item free_slot g;
      Done (CT_ERROR, r, res, mk_pctx pool g)
  | Some can_cvt =>
      if can_cvt && negb (rs_readonly_copies res =? 0) && (req_mode r =? DRC_LOCK_EXCLUSIVE) then
        '(ret, c) ← invalidate_copies w pagid (rs_readonly_copies res) (req_inst_id r) (req_version r) i (mk_pctx pool g);
        g ← free_slot_item free_slot (pc_res c);
        Done (ret, r, res, pc_set_res c g)
      else
        g ← free_slot_item free_slot g;
        Done (CT_SUCCESS, r, res, mk_pctx pool g)
  end.

Definition drc_request_page_owner (w : world) (pagid : page_id_t) (r : drc_req_info) (is_try : bool)
    (res0 : drc_req_owner_result) (c : page_ctx)
    : outcome (status_t * drc_req_info * drc_req_owner_result * page_ctx) :=
  let res := mk_result DRC_REQ_OWNER_INVALID DRC_RES_INVALID_ACTION (rs_curr_owner_id res0) false (req_mode r)
               (rs_readonly_copies res0) in
  let r := req_set_result DRC_REQ_OWNER_WAITING r in
  if (CT_MAX_INSTANCES <=? req_inst_id r) || IS_INVALID_PAGID pagid then Done (CT_ERROR, r, res, c)
  else if negb (dtc_dcs_readable (wd_env w S_entry) pagid) then Done (CT_ERROR, r, res, c)
  else if DRC_STOP_DCS_IO_FOR_REFORMING (req_version r) (wd_env w S_locked) pagid then Done (CT_ERROR, r, res, c)
  else
    found ← gres_lookup (pc_res c) pagid;
    match (found : option Z) with
    | Some i => request_allocated w pagid r is_try res i None c
    | None =>
        let c := wd_win w S_before_alloc c in
        '(idx, g) ← gres_alloc (pc_res c);
        let c := pc_set_res c g in
        '(idx, c) ← (if idx =? CT_INVALID_ID32 then drc_recycle_items w false c else Done (idx, c));
        if idx =? CT_INVALID_ID32 then Done (CT_ERROR, r, res, c)
        else
          let c := wd_win w S_after_alloc c in
          found ← gres_lookup (pc_res c) pagid;
          match (found : option Z) with
          | Some i => request_allocated w pagid r is_try res i (Some idx) c
          | None =>
              if DRC_STOP_DCS_IO_FOR_REFORMING (req_version r) (wd_env w S_relocked) pagid then
                g ← gres_free (pc_res c) idx;
                Done (CT_ERROR, r, res, pc_set_res c g)
              else
                '(ret, g) ← request_insert (wd_env w S_listed) pagid r idx (pc_res c);
                match (ret : status_t) with
                | CT_ERROR => Done (CT_ERROR, r, res, pc_set_res c g)
                | CT_SUCCESS =>
                    Done (CT_SUCCESS, r, mk_result DRC_REQ_OWNER_GRANTED (rs_action res) (req_inst_id r)
                                           (rs_is_retry res) (rs_req_mode res) 0, pc_set_res c g)
                end
          end
    end.

(** *** Claiming and releasing a page *)

(** The locked part of [drc_claim_page_owner]: [None] when the claim is ignored. *)
Definition claim_decide (now : Z) (ci : claim_info) (cvt : cvt_info) (b : drc_buf_res) (pool : lock_pool)
    : outcome (option (Z * cvt_info) * drc_buf_res * lock_pool) :=
  if req_inst_id (converting_req b) =? CT_INVALID_ID8 then Done (None, b, pool)
  else if negb (drc_is_same_claim_request (converting_req b) ci) then Done (None, b, pool)
  else if drc_claim_info_is_invalid ci b then Done (None, b, pool)
  else
    b ← drc_claim_new_page_owner ci b;
    '(conflict_req_id, b, cvt, pool) ← drc_convert_next_request now b cvt pool;
    Done (Some (conflict_req_id, cvt), b, pool).

(** Answer and free the waiting request that conflicts with the new owner. *)
Definition drop_conflict (conflict_req_id : Z) (pool : lock_pool) : outcome (list error_msg * lock_pool) :=
  if conflict_req_id =? CT_INVALID_ID32 then Done ([], pool)
  else
    lock_item ← DRC_GET_RES_ADDR_BY_ID pool conflict_req_id;
    pool ← drc_res_pool_free_item pool conflict_req_id;
    Done ([error_to (req_info lock_item)], pool).

Definition drc_claim_page_owner (w : world) (ci : claim_info) (cvt0 : cvt_info) (c : page_ctx)
    : outcome (cvt_info * list error_msg * page_ctx) :=
  let pagid := cl_page_id ci in
  let cvt0 := mk_cvt (cv_owner_id cvt0) CT_INVALID_ID8 (cv_req_sid cvt0) (cv_req_rsn cvt0) (cv_pageid cvt0)
                (cv_req_mode cvt0) (cv_curr_mode cvt0) (cv_readonly_copies cvt0) (cv_req_version cvt0) (cv_lsn cvt0) in
  found ← gres_lookup (pc_res c) pagid;
  match (found : option Z) with
  | None => Done (cvt0, [], c)
  | Some i =>
      b ← gres_get (pc_res c) i;
      '(out, b, pool) ← claim_decide (dtc_now (wd_env w S_locked)) ci cvt0 b (pc_pool c);
      g ← gres_put (pc_res c) i b;
      match (out : option (Z * cvt_info)) with
      | None => Done (cvt0, [], mk_pctx pool g)
      | Some (conflict_req_id, cvt) =>
          let c := wd_win w S_unlocked (mk_pctx pool g) in
          '(msgs, pool) ← drop_conflict conflict_req_id (pc_pool c);
          let c := mk_pctx pool (pc_res c) in
          if negb (cv_req_id cvt =? CT_INVALID_ID8) && negb (cv_readonly_copies cvt =? 0) &&
             (cv_req_mode cvt =? DRC_LOCK_EXCLUSIVE) then
            '(_, c) ← invalidate_copies w pagid (cv_readonly_copies cvt) (cv_req_id cvt) (cv_req_version cvt) i c;
            Done (cvt, msgs, c)
          else Done (cvt, msgs, c)
      end
  end.

(** The status and [*released]; not finding the page is fatal. *)
Definition drc_release_page_owner (old_id : Z) (pagid : page_id_t) (c : page_ctx) : outcome (bool * page_ctx) :=
  found ← gres_lookup (pc_res c) pagid;
  match (found : option Z) with
  | None => Crash KnlPanic
  | Some i =>
      b ← gres_get (pc_res c) i;
      if negb (old_id =? br_claimed_owner b) then
        Done (negb (old_id =? req_inst_id (converting_req b)), c)
      else if negb (req_inst_id (converting_req b) =? CT_INVALID_ID8) || negb (br_edp_map b =? 0) then Done (false, c)
      else
        g ← drc_clean_page_from_res_part (pc_res c) i;
        g ← gres_map_remove g pagid;
        b ← gres_get g i;
        g ← gres_put g i item_zero;
        g ← gres_free g (br_idx b);
        Done (true, pc_set_res c g)
  end.

(** *** Cleaning up after a failed instance *)

Definition drc_revert_converting_page_abort_owner (ctrl : option buf_ctrl) (b : drc_buf_res) : outcome drc_buf_res :=
  match ctrl with
  | None => Done b
  | Some ctrl =>
      let b := set_br_mode (bc_lock_mode ctrl) b in
      b ← (if bc_lock_mode ctrl =? DRC_LOCK_NULL then
             copies ← drc_bitmap64_clear (br_readonly_copies b) inst_id;
             Done (set_br_claimed_owner CT_INVALID_ID8 (set_br_readonly_copies copies b))
           else Done b);
      if bc_is_edp ctrl then
        edp ← drc_bitmap64_set (br_edp_map b) inst_id;
        Done (set_br_latest_edp_lsn (ph_lsn (bc_page ctrl)) (set_br_latest_edp inst_id (set_br_edp_map edp b)))
      else Done b
  end.

Definition drc_revert_converting_page_non_abort_owner (ctrl : option buf_ctrl) (b : drc_buf_res)
    : list error_msg * drc_buf_res :=
  let '(msgs, b) :=
    match ctrl with
    | None => ([], b)
    | Some ctrl =>
        if bc_lock_mode ctrl =? DRC_LOCK_NULL then ([error_to (converting_req b)], b)
        else if bc_lock_mode ctrl =? DRC_LOCK_EXCLUSIVE then ([], set_br_claimed_owner (req_inst_id (converting_req b)) b)
        else ([], b)
    end in
  (msgs, drc_init_page_converting b).

Definition drc_clean_page_converting (failed : Z) (ctrl : option buf_ctrl) (b : drc_buf_res) (pool : lock_pool)
    : outcome (list error_msg * drc_buf_res * lock_pool) :=
  if req_inst_id (converting_req b) =? failed then
    '(b, pool) ←
      (if count (br_convert_q b) =? 0 then Done (drc_init_page_converting b, pool)
       else
         '(item_id, item, q) ← lock_q_pop (br_convert_q b) pool;
         pool ← drc_res_pool_free_item pool item_id;
         Done (set_br_convert_q (if count q =? 0 then DRC_LIST_INIT else q) (set_br_converting item b), pool));
    b ← drc_revert_converting_page_abort_owner ctrl b;
    Done ([], b, pool)
  else if negb (req_inst_id (converting_req b) =? CT_INVALID_ID8) then
    let '(msgs, b) := drc_revert_converting_page_non_abort_owner ctrl b in Done (msgs, b, pool)
  else Done ([], b, pool).

(** The body of the loop of [drc_clean_page_owner_by_part] on one resource;
    the flag tells whether the resource has to go. *)
Definition clean_page_owner (failed : Z) (ctrl : option buf_ctrl) (b : drc_buf_res) (pool : lock_pool)
    : outcome (bool * list error_msg * drc_buf_res * lock_pool) :=
  '(q, msgs, pool) ← drc_clean_convert_q failed (br_convert_q b) pool;
  '(msgs', b, pool) ← drc_clean_page_converting failed ctrl (set_br_convert_q q b) pool;
  edp ← drc_bitmap64_clear (br_edp_map b) failed;
  copies ← drc_bitmap64_clear (br_readonly_copies b) failed;
  let b := set_br_readonly_copies copies (set_br_edp_map edp b) in
  let b := if br_latest_edp b =? failed then set_br_latest_edp_lsn 0 (set_br_latest_edp CT_INVALID_ID8 b) else b in
  if negb (br_claimed_owner b =? CT_INVALID_ID8) && negb (br_claimed_owner b =? failed)
  then Done (false, msgs ++ msgs', b, pool)
  else
    let b := set_br_pending DRC_RES_INVALID_ACTION (set_br_claimed_owner CT_INVALID_ID8 b) in
    Done ((br_readonly_copies b =? 0) && (br_edp_map b =? 0), msgs ++ msgs', b, pool).

(** [status i] is the remaster status read by iteration [i] (counted down),
    [ctrls] the local buffer pool; [ids] collects the indices to free. *)
Fixpoint clean_part_loop (status : nat -> drc_remaster_status) (ctrls : page_id_t -> option buf_ctrl) (failed : Z)
    (n : nat) (buf_idx : Z) (ids : list Z) (msgs : list error_msg) (c : page_ctx)
    : outcome (list Z * list error_msg * page_ctx) :=
  match n with
  | O => Done (ids, msgs, c)
  | S n =>
      if decide (status n = REMASTER_FAIL) then Done (ids, msgs, c)
      else
        b ← gres_get (pc_res c) buf_idx;
        let next_idx := nnext (br_node b) in
        '(gone, msgs', b, pool) ← clean_page_owner failed (ctrls (br_page_id b)) b (pc_pool c);
        g ← gres_put (pc_res c) buf_idx b;
        if (gone : bool) then
          g ← drc_clean_page_owner_internal g buf_idx;
          clean_part_loop status ctrls failed n next_idx (ids ++ [br_idx b]) (msgs ++ msgs') (mk_pctx pool g)
        else clean_part_loop status ctrls failed n next_idx ids (msgs ++ msgs') (mk_pctx pool g)
  end.

(** The flag is false when the index array cannot be allocated, which makes
    the caller set the remaster status to REMASTER_FAIL. *)
Definition drc_clean_page_owner_by_part (malloc_ok : bool) (status : nat -> drc_remaster_status)
    (ctrls : page_id_t -> option buf_ctrl) (failed part : Z) (c : page_ctx)
    : outcome (bool * list error_msg * page_ctx) :=
  part_list ← arr_get (res_parts (pc_res c)) part;
  if negb malloc_ok then Done (false, [], c)
  else
    '(ids, msgs, c) ← clean_part_loop status ctrls failed (Z.to_nat (count part_list)) (first part_list) [] [] c;
    p ← drc_res_pool_free_batch_item (res_pool (res_map (pc_res c))) ids;
    Done (true, msgs, pc_set_res c (g_set_pool (pc_res c) p)).
End handlers.

Arguments drc_convert_next_request : simpl never.
Arguments drc_keep_requester_wait : simpl never.
Arguments drc_claim_new_page_owner : simpl never.
Arguments claim_ownership : simpl never.
Arguments drc_check_new_req : simpl never.
Arguments drc_clean_buf_res : simpl never.
Arguments drc_check_first_req_in_convert_queue : simpl never.
Arguments request_wait : simpl never.
Arguments request_decide : simpl never.
Arguments claim_decide : simpl never.
Arguments request_insert : simpl never.
Arguments request_allocated : simpl never.
Arguments dcs_invalidate_readonly_copy : simpl never.
Arguments invalidate_copies : simpl never.
Arguments drc_recycle_items : simpl never.
Arguments recycle_pend : simpl never.
Arguments recycle_iter : simpl never.
Arguments recycle_finish : simpl never.
Arguments clean_page_owner : simpl never.
Arguments drc_clean_page_converting : simpl never.
