(* ===== verification/PageInv.v ===== *)
(** * The page protocol on one resource

    [buf_inv] is the invariant of a page resource and its waiting requests.
    The lemmas say what each decision of DrcPage.v does on a resource that
    satisfies it: the decision does not crash, keeps the invariant, and its
    effect on the waiting requests is the stated effect on a list. *)

From stdpp Require Import prelude list gmap.
From S2P Require Import Prelude Bitmap ResPool DrcList ResMap ConvertQ GlobalRes DrcTypes DrcPage.

Open Scope Z_scope.
Open Scope drc_scope.

(** ** Invariant *)

Definition inst_ok (i : Z) : Prop := 0 <= i < CT_MAX_INSTANCES.

Record buf_inv (b : drc_buf_res) (rs : list drc_req_info) : Prop := mk_buf_inv {
  bi_used : br_is_used b = true;
  bi_owner : br_claimed_owner b = CT_INVALID_ID8 \/ inst_ok (br_claimed_owner b);
  bi_copies : bitmap_ok (br_readonly_copies b);
  bi_edp : bitmap_ok (br_edp_map b);
  bi_conv : req_inst_id (converting_req b) = CT_INVALID_ID8 \/ inst_ok (req_inst_id (converting_req b));
  bi_queue : Forall (fun r => inst_ok (req_inst_id r)) rs;
  (** nobody waits unless somebody converts, and then the page has an owner *)
  bi_idle : req_inst_id (converting_req b) = CT_INVALID_ID8 -> rs = [];
  bi_owned : req_inst_id (converting_req b) <> CT_INVALID_ID8 -> br_claimed_owner b <> CT_INVALID_ID8;
  (** read-only copies exist only in share mode *)
  bi_share : br_readonly_copies b <> 0 -> br_mode b = DRC_LOCK_SHARE;
  (** a resource being recycled is not being converted *)
  bi_pending : br_pending b = DRC_RES_PENDING_ACTION /\ req_inst_id (converting_req b) = CT_INVALID_ID8 \/
               pending_claimable (br_pending b) = true;
  (** a page whose owner is gone can be recovered from a copy or an edp *)
  bi_orphan : br_claimed_owner b = CT_INVALID_ID8 -> br_readonly_copies b = 0 -> br_edp_map b <> 0 ->
              inst_ok (br_latest_edp b) /\ br_mode b <> DRC_LOCK_SHARE;
}.

Lemma inst_ok_ne i : inst_ok i -> i <> CT_INVALID_ID8.
Proof. unfold inst_ok, CT_MAX_INSTANCES, CT_INVALID_ID8. lia. Qed.

Lemma inst_set_ok bm i : i ∈ inst_set bm -> inst_ok i.
Proof. by intros [? _]%elem_of_inst_set. Qed.

Lemma bitmap_ok_0 : bitmap_ok 0.
Proof. unfold bitmap_ok. lia. Qed.
#[export] Hint Resolve inst_ok_ne inst_set_ok bitmap_ok_0 : drc.

Lemma strip_buf_eq (a b : drc_buf_res) :
  strip a = strip b -> exists n m, b = set_br_next n (set_br_node m a).
Proof.
  intros E. exists (br_next b), (br_node b). destruct a, b. unfold strip in E. cbn in E. injection E as -> -> -> -> -> -> -> -> -> -> -> -> -> ->.
  done.
Qed.

Lemma buf_inv_strip (a b : drc_buf_res) rs : strip a = strip b -> buf_inv a rs -> buf_inv b rs.
Proof. intros (n & m & ->)%strip_buf_eq []. by constructor. Qed.

(** What a decision leaves alone: where the resource is linked. *)
Definition same_place (b b' : drc_buf_res) : Prop :=
  br_next b' = br_next b /\ br_node b' = br_node b /\ br_page_id b' = br_page_id b /\ br_idx b' = br_idx b /\
  br_part_id b' = br_part_id b.

Lemma same_place_refl b : same_place b b.
Proof. done. Qed.

Lemma same_place_trans a b c : same_place a b -> same_place b c -> same_place a c.
Proof. unfold same_place. intuition congruence. Qed.

(** ** An owner that is gone *)

Lemma clean_buf_res_spec b rs :
  buf_inv b rs -> br_claimed_owner b = CT_INVALID_ID8 ->
  exists b', drc_clean_buf_res b = Done b' /\ buf_inv b' rs /\ same_place b b' /\
    br_converting b' = br_converting b /\ br_convert_q b' = br_convert_q b /\ br_mode b' = br_mode b /\
    br_edp_map b' = br_edp_map b /\
    ((br_readonly_copies b <> 0 /\ br_claimed_owner b' ∈ inst_set (br_readonly_copies b) /\
      inst_set (br_readonly_copies b') = inst_set (br_readonly_copies b) ∖ {[br_claimed_owner b']} /\
      br_pending b' = DRC_RES_SHARE_ACTION) \/
     (br_readonly_copies b = 0 /\ br_edp_map b <> 0 /\ br_claimed_owner b' = br_latest_edp b /\
      br_readonly_copies b' = 0 /\ br_pending b' = DRC_RES_EXCLUSIVE_ACTION) \/
     (br_readonly_copies b = 0 /\ br_edp_map b = 0 /\ b' = b)).
Proof.
  intros Hb Hown. pose proof Hb as []. unfold drc_clean_buf_res. rewrite Hown, Z.eqb_refl. cbn.
  assert (Hconv : req_inst_id (converting_req b) = CT_INVALID_ID8).
  { destruct (decide (req_inst_id (converting_req b) = CT_INVALID_ID8)); [done |]. by destruct (bi_owned0). }
  destruct (Z.eqb_spec (br_readonly_copies b) 0) as [Hz | Hz]; cbn.
  - destruct (Z.eqb_spec (br_edp_map b) 0) as [He | He]; cbn.
    + exists b. split_and!; try done. right; right. done.
    + destruct (bi_orphan0 Hown Hz He) as [Hl Hm]. destruct (Z.eqb_spec (br_latest_edp b) CT_INVALID_ID8); [by apply inst_ok_ne in Hl |].
      destruct (Z.eqb_spec (br_mode b) DRC_LOCK_SHARE); [done |]. cbn. eexists. split; [done |]. split_and!; try done.
      * constructor; cbn; eauto; try (right; done); done.
      * right; left. done.
  - destruct (drc_select_one_Done _ bi_copies0 Hz) as (o & -> & Ho & _). cbn. rewrite (bi_share0 Hz), Z.eqb_refl. cbn.
    pose proof (inst_set_ok _ _ Ho) as Hok.
    destruct (drc_bitmap64_clear_Done (br_readonly_copies b) o bi_copies0 Hok) as (bm & -> & Hbm & Hset & _). cbn.
    eexists. split; [done |]. split_and!; try done.
    + constructor; cbn; eauto; try (right; done); try done. intros Ho'. by apply inst_ok_ne in Hok.
    + by apply bi_share0.
    + left. done.
Qed.

(** ** Conflicts with the owner *)

(** [r] must not wait behind the request being converted: the owner is
    upgrading from share to exclusive and will invalidate the copy of the
    requester, or the requester is the owner while another instance converts. *)
Definition conflicts (b : drc_buf_res) (r : drc_req_info) : Prop :=
  (req_inst_id (converting_req b) = br_claimed_owner b /\ br_mode b = DRC_LOCK_SHARE /\
   req_mode (converting_req b) = DRC_LOCK_EXCLUSIVE /\ req_inst_id r <> br_claimed_owner b /\
   req_inst_id r ∈ inst_set (br_readonly_copies b)) \/
  (req_inst_id r = br_claimed_owner b /\ req_inst_id r <> req_inst_id (converting_req b)).

#[export] Instance conflicts_dec b r : Decision (conflicts b r).
Proof. unfold conflicts. apply _. Defined.

Lemma check_new_req_spec r b :
  bitmap_ok (br_readonly_copies b) -> inst_ok (req_inst_id r) ->
  drc_check_new_req r b = Done (if decide (conflicts b r) then CT_ERROR else CT_SUCCESS).
Proof.
  intros Hbm Hr. unfold drc_check_new_req. rewrite drc_bitmap64_exist_Done by done.
  destruct (Z.eqb_spec (req_inst_id (converting_req b)) (br_claimed_owner b)) as [E1 | E1],
    (Z.eqb_spec (br_mode b) DRC_LOCK_SHARE) as [E2 | E2],
    (Z.eqb_spec (req_mode (converting_req b)) DRC_LOCK_EXCLUSIVE) as [E3 | E3],
    (Z.eqb_spec (req_inst_id r) (br_claimed_owner b)) as [E4 | E4],
    (Z.eqb_spec (req_inst_id r) (req_inst_id (converting_req b))) as [E5 | E5]; cbn;
    try case_bool_decide as E6; destruct (decide (conflicts b r)) as [Hc | Hc]; try done;
    unfold conflicts in Hc; exfalso; intuition congruence.
Qed.

(** ** Keeping a requester waiting *)

(** The rules by which [drc_keep_requester_wait] treats request [r] on a
    resource [b] with waiting requests [rs]: status, may convert, is a retry,
    the request, the new converting item, the new waiting requests.  [full]:
    the lock item pool is exhausted. *)
Inductive wait_rule (r : drc_req_info) (is_try : bool) (b : drc_buf_res) (rs : list drc_req_info) (full : Prop)
    : status_t -> bool -> bool -> drc_req_info -> drc_lock_item -> list drc_req_info -> Prop :=
| W_try_skip :
    req_inst_id (converting_req b) = CT_INVALID_ID8 -> is_try = true -> br_claimed_owner b <> req_inst_id r ->
    wait_rule r is_try b rs full CT_SUCCESS false false r (br_converting b) rs
| W_convert :
    req_inst_id (converting_req b) = CT_INVALID_ID8 -> (is_try = true -> br_claimed_owner b = req_inst_id r) ->
    wait_rule r is_try b rs full CT_SUCCESS true false r (mk_lock_item CT_INVALID_ID32 r) rs
| W_try_busy :
    req_inst_id (converting_req b) <> CT_INVALID_ID8 -> is_try = true ->
    wait_rule r is_try b rs full CT_SUCCESS false false r (br_converting b) rs
| W_conflict :
    req_inst_id (converting_req b) <> CT_INVALID_ID8 -> is_try = false -> conflicts b r ->
    wait_rule r is_try b rs full CT_ERROR false false r (br_converting b) rs
| W_retry r' :
    req_inst_id (converting_req b) <> CT_INVALID_ID8 -> is_try = false -> ~ conflicts b r ->
    drc_is_retry_request (converting_req b) r = true -> req_time (converting_req b) <= req_time r ->
    r' = req_set_mode (Z.max (req_mode (converting_req b)) (req_mode r)) r ->
    wait_rule r is_try b rs full CT_SUCCESS true true r' (mk_lock_item (li_next (br_converting b)) r') rs
| W_retry_old :
    req_inst_id (converting_req b) <> CT_INVALID_ID8 -> is_try = false -> ~ conflicts b r ->
    drc_is_retry_request (converting_req b) r = true -> req_time r < req_time (converting_req b) ->
    wait_rule r is_try b rs full CT_ERROR false false r (br_converting b) rs
| W_requeue rs1 x rs2 :
    req_inst_id (converting_req b) <> CT_INVALID_ID8 -> is_try = false -> ~ conflicts b r ->
    drc_is_retry_request (converting_req b) r = false ->
    rs = rs1 ++ x :: rs2 -> Forall (fun y => drc_is_retry_request y r = false) rs1 ->
    drc_is_retry_request x r = true -> req_lsn x = req_lsn r ->
    wait_rule r is_try b rs full CT_SUCCESS false false r (br_converting b) (rs1 ++ r :: rs2)
| W_requeue_lsn rs1 x rs2 :
    req_inst_id (converting_req b) <> CT_INVALID_ID8 -> is_try = false -> ~ conflicts b r ->
    drc_is_retry_request (converting_req b) r = false ->
    rs = rs1 ++ x :: rs2 -> Forall (fun y => drc_is_retry_request y r = false) rs1 ->
    drc_is_retry_request x r = true -> req_lsn x <> req_lsn r ->
    wait_rule r is_try b rs full CT_ERROR false false r (br_converting b) rs
| W_enqueue :
    req_inst_id (converting_req b) <> CT_INVALID_ID8 -> is_try = false -> ~ conflicts b r ->
    drc_is_retry_request (converting_req b) r = false ->
    Forall (fun y => drc_is_retry_request y r = false) rs ->
    wait_rule r is_try b rs full CT_SUCCESS false false r (br_converting b) (rs ++ [r])
| W_full :
    req_inst_id (converting_req b) <> CT_INVALID_ID8 -> is_try = false -> ~ conflicts b r ->
    drc_is_retry_request (converting_req b) r = false ->
    Forall (fun y => drc_is_retry_request y r = false) rs -> full ->
    wait_rule r is_try b rs full CT_ERROR false false r (br_converting b) rs.

(** [b'] differs from [b] in the converting item and the queue only. *)
Definition conv_only (b b' : drc_buf_res) : Prop :=
  b' = set_br_convert_q (br_convert_q b') (set_br_converting (br_converting b') b).

Lemma conv_only_place b b' : conv_only b b' -> same_place b b'.
Proof. unfold conv_only. intros ->. done. Qed.

(** Search, then overwrite the request found or append: the queue part of
    [drc_keep_requester_wait]. *)
Lemma requeue_spec r b is_try pool fl ids rest rs :
  queue_wf pool fl (br_convert_q b) ids rest -> rs = queue_reqs (addr pool) ids ->
  req_inst_id (converting_req b) <> CT_INVALID_ID8 -> is_try = false -> ~ conflicts b r ->
  drc_is_retry_request (converting_req b) r = false ->
  exists kw fl' ids',
    (item ← (if 0 <? count (br_convert_q b) then drc_search_item_by_reqid (br_convert_q b) r pool else Done None);
     match (item : option Z) with
     | Some item_id =>
         item ← DRC_GET_RES_ADDR_BY_ID pool item_id;
         if negb (req_lsn (req_info item) =? req_lsn r) then Done (mk_kw CT_ERROR false false r b pool)
         else pool ← drc_res_put pool item_id (mk_lock_item (li_next item) r);
              Done (mk_kw CT_SUCCESS false false r b pool)
     | None =>
         '(ret, q, pool) ← drc_request_lock_owner_add_req_into_cvt_q (br_convert_q b) r pool;
         Done (mk_kw ret false false r (set_br_convert_q q b) pool)
     end) = Done kw /\
    queue_wf (kw_pool kw) fl' (br_convert_q (kw_buf kw)) ids' rest /\ frame_items pool (kw_pool kw) rest /\
    conv_only b (kw_buf kw) /\
    wait_rule r is_try b rs (fl = []) (kw_ret kw) (kw_converting kw) (kw_is_retry kw) (kw_req kw)
      (br_converting (kw_buf kw)) (queue_reqs (addr (kw_pool kw)) ids').
Proof.
  intros Hq Hrs Hconv Htry Hnc Hnr.
  assert (Hsearch : exists res, (if 0 <? count (br_convert_q b) then drc_search_item_by_reqid (br_convert_q b) r pool
      else Done None) = Done res /\
    match res with
    | Some i => exists ids1 ids2 it, ids = ids1 ++ i :: ids2 /\ (addr pool).[i] = Some it /\
                  drc_is_retry_request (req_info it) r = true /\
                  Forall (fun x => drc_is_retry_request x r = false) (queue_reqs (addr pool) ids1)
    | None => Forall (fun x => drc_is_retry_request x r = false) (queue_reqs (addr pool) ids)
    end).
  { destruct (qw_rep _ _ _ _ _ Hq) as [Hc _]. destruct (Z.ltb_spec 0 (count (br_convert_q b))).
    - apply (search_spec _ _ _ _ _ _ Hq). intros ->. cbn in Hc. lia.
    - exists None. split; [done |]. destruct ids; [constructor | cbn in Hc; lia]. }
  destruct Hsearch as (res & -> & Hres). cbn. destruct res as [i |].
  - destruct Hres as (ids1 & ids2 & it & Hids & Hit & Hret & Hall). unfold DRC_GET_RES_ADDR_BY_ID.
    rewrite (arr_get_eq _ _ _ Hit). cbn.
    assert (Hsplit : rs = queue_reqs (addr pool) ids1 ++ req_info it :: queue_reqs (addr pool) ids2).
    { by rewrite Hrs, Hids, queue_reqs_app, (queue_reqs_cons _ _ _ _ Hit). }
    destruct (Z.eqb_spec (req_lsn (req_info it)) (req_lsn r)) as [Hl | Hl]; cbn.
    + destruct (overwrite_spec Hq ids1 i ids2 it r Hids Hit) as (pool' & -> & Hq' & Hfr & Hreqs). cbn.
      eexists _, fl, ids. split; [done |]. split_and!; try done; try (by destruct b). cbn. rewrite Hreqs. by eapply W_requeue.
    + eexists _, fl, ids. split; [done |]. split_and!; try done; try (by destruct b). cbn. rewrite <- Hrs. by eapply W_requeue_lsn.
  - destruct (enqueue_spec Hq r) as (st & q' & pool' & -> & Hfr & Hcase). cbn.
    destruct Hcase as [(-> & Hfl & -> & ->) | (i & fl' & -> & Hfl & Hq' & Hreqs)].
    + eexists _, fl, ids. split; [done |]. split_and!; try done; try (by destruct b). cbn. rewrite <- Hrs.
      apply W_full; try done. by rewrite Hrs.
    + eexists _, fl', (ids ++ [i]). split; [done |]. split_and!; try done; try (by destruct b). cbn. rewrite Hreqs, <- Hrs.
      apply W_enqueue; try done. by rewrite Hrs.
Qed.

Lemma keep_wait_spec r b is_try pool fl ids rest rs :
  buf_inv b rs -> inst_ok (req_inst_id r) ->
  queue_wf pool fl (br_convert_q b) ids rest -> rs = queue_reqs (addr pool) ids ->
  exists kw fl' ids', drc_keep_requester_wait r b is_try pool = Done kw /\
    queue_wf (kw_pool kw) fl' (br_convert_q (kw_buf kw)) ids' rest /\ frame_items pool (kw_pool kw) rest /\
    conv_only b (kw_buf kw) /\
    wait_rule r is_try b rs (fl = []) (kw_ret kw) (kw_converting kw) (kw_is_retry kw) (kw_req kw)
      (br_converting (kw_buf kw)) (queue_reqs (addr (kw_pool kw)) ids').
Proof.
  intros Hb Hr Hq Hrs. pose proof Hb as []. unfold drc_keep_requester_wait.
  destruct (Z.eqb_spec (req_inst_id (converting_req b)) CT_INVALID_ID8) as [Hc | Hc].
  - destruct (is_try && negb (br_claimed_owner b =? req_inst_id r)) eqn:Hskip.
    + apply andb_true_iff in Hskip as [-> Ho%negb_true_iff%Z.eqb_neq].
      eexists _, fl, ids. split; [done |]. cbn. rewrite <- Hrs. split_and!; try done; try (by destruct b). by apply W_try_skip.
    + destruct (qw_rep _ _ _ _ _ Hq) as [Hcnt _].
      assert (ids = []) as ->.
      { specialize (bi_idle0 Hc). destruct ids as [| i ids]; [done |]. destruct (qw_item Hq i) as [it Hit]; [set_solver |].
        rewrite Hrs, (queue_reqs_cons _ _ _ _ Hit) in bi_idle0. done. }
      cbn in Hcnt. rewrite Hcnt. cbn. eexists _, fl, []. split; [done |]. cbn. rewrite <- Hrs.
      split_and!; try done; try (by destruct b). apply W_convert; [done |]. intros ->. cbn in Hskip.
      by apply negb_false_iff, Z.eqb_eq in Hskip.
  - destruct is_try.
    + eexists _, fl, ids. split; [done |]. cbn. rewrite <- Hrs. split_and!; try done; try (by destruct b). by apply W_try_busy.
    + rewrite check_new_req_spec by done. cbn. destruct (decide (conflicts b r)) as [Hcf | Hcf].
      * eexists _, fl, ids. split; [done |]. cbn. rewrite <- Hrs. split_and!; try done; try (by destruct b). by apply W_conflict.
      * destruct (drc_is_retry_request (converting_req b) r) eqn:Hret; [| by apply (requeue_spec r b false pool fl ids rest rs)].
        destruct (Z.leb_spec (req_time (converting_req b)) (req_time r)).
        -- eexists _, fl, ids. split; [done |]. cbn. rewrite <- Hrs. split_and!; try done; try (by destruct b). by apply W_retry.
        -- eexists _, fl, ids. split; [done |]. cbn. rewrite <- Hrs. split_and!; try done; try (by destruct b). by apply W_retry_old.
Qed.

(** Waiting keeps the invariant. *)
Lemma wait_rule_inv r is_try b rs full st cvt retry r' conv' rs' b' :
  wait_rule r is_try b rs full st cvt retry r' conv' rs' ->
  buf_inv b rs -> inst_ok (req_inst_id r) -> br_claimed_owner b <> CT_INVALID_ID8 ->
  br_pending b <> DRC_RES_PENDING_ACTION -> conv_only b b' -> br_converting b' = conv' ->
  buf_inv b' rs' /\ req_inst_id r' = req_inst_id r /\ (cvt = true -> req_info conv' = r').
Proof.
  intros Hrule Hb Hr Hown Hpend Hco Hconv. unfold conv_only in Hco. rewrite Hco. clear Hco.
  assert (Hpc : pending_claimable (br_pending b) = true) by (destruct (bi_pending _ _ Hb) as [[]|]; done).
  destruct Hb. destruct Hrule; subst; rewrite ?Hconv; (split; [| done]); constructor; cbn; eauto; try done;
    try (right; exact Hr); try (intros E; exfalso; revert E; by apply inst_ok_ne).
  - apply Forall_app in bi_queue0 as [? [? ?]%Forall_cons]. apply Forall_app. split; [done |]. by constructor.
  - apply Forall_app. split; [done |]. by constructor.
Qed.

(** ** Claiming *)

(** The ownership part of a claim: the new owner, mode, copies and edps. *)
Inductive claim_rule (ci : claim_info) (b b' : drc_buf_res) : Prop :=
| C_already :
    cl_mode ci <= br_mode b -> br_claimed_owner b = cl_new_id ci ->
    b' = set_br_pending DRC_RES_INVALID_ACTION b -> claim_rule ci b b'
| C_share :
    cl_mode ci = DRC_LOCK_SHARE -> ~ (cl_mode ci <= br_mode b /\ br_claimed_owner b = cl_new_id ci) ->
    br_claimed_owner b' = br_claimed_owner b -> br_mode b' = DRC_LOCK_SHARE ->
    inst_set (br_readonly_copies b') = {[cl_new_id ci]} ∪ inst_set (br_readonly_copies b) ->
    br_edp_map b' = br_edp_map b -> claim_rule ci b b'
| C_exclusive :
    cl_mode ci <> DRC_LOCK_SHARE -> ~ (cl_mode ci <= br_mode b /\ br_claimed_owner b = cl_new_id ci) ->
    br_claimed_owner b' = cl_new_id ci -> br_mode b' = cl_mode ci -> br_readonly_copies b' = 0 ->
    inst_set (br_edp_map b') =
      (if cl_has_edp ci then {[br_claimed_owner b]} else ∅) ∪ inst_set (br_edp_map b) ∖ {[cl_new_id ci]} ->
    (cl_has_edp ci = true -> br_latest_edp b' = br_claimed_owner b /\ br_latest_edp_lsn b' = cl_lsn ci) ->
    claim_rule ci b b'.

Definition claim_kept (b b' : drc_buf_res) : Prop :=
  same_place b b' /\ br_converting b' = br_converting b /\ br_convert_q b' = br_convert_q b /\
  br_is_used b' = br_is_used b /\ br_pending b' = DRC_RES_INVALID_ACTION.

(** The last step of a claim records the page's lsn. *)
Lemma claim_lsn_spec ci b b1 :
  claim_rule ci b b1 -> claim_kept b b1 -> br_lsn b1 = br_lsn b -> drc_claim_info_is_invalid ci b = false ->
  ~ (cl_mode ci <= br_mode b /\ br_claimed_owner b = cl_new_id ci) ->
  exists b', (if 0 <? cl_lsn ci then _ ← knl_panic (br_lsn b1 <=? cl_lsn ci); Done (set_br_lsn (cl_lsn ci) b1) else Done b1) = Done b' /\
    claim_rule ci b b' /\ claim_kept b b' /\ br_lsn b' = Z.max (br_lsn b) (if 0 <? cl_lsn ci then cl_lsn ci else br_lsn b).
Proof.
  intros Hrule Hkept Hlsn Hval Hnot. unfold drc_claim_info_is_invalid in Hval.
  destruct (Z.ltb_spec 0 (cl_lsn ci)) as [Hp | Hp].
  - assert (Hle : br_lsn b <= cl_lsn ci).
    { destruct (if cl_mode ci =? DRC_LOCK_SHARE then _ else _); [done |]. cbn in Hval. by apply Z.ltb_ge in Hval. }
    rewrite Hlsn. destruct (Z.leb_spec (br_lsn b) (cl_lsn ci)); [| lia]. cbn. eexists. split; [done |]. split_and!.
    + destruct Hrule as [Hm Ho _ | |]; [by destruct Hnot | by apply C_share | by apply C_exclusive].
    + done.
    + cbn. lia.
  - exists b1. split_and!; try done. lia.
Qed.

Lemma claim_ownership_spec ci b rs :
  buf_inv b rs -> inst_ok (br_claimed_owner b) -> inst_ok (cl_new_id ci) -> drc_claim_info_is_invalid ci b = false ->
  ~ (cl_mode ci <= br_mode b /\ br_claimed_owner b = cl_new_id ci) ->
  exists b1, claim_ownership ci (br_claimed_owner b) (set_br_pending DRC_RES_INVALID_ACTION b) = Done b1 /\
    claim_rule ci b b1 /\ claim_kept b b1 /\ buf_inv b1 rs /\ br_claimed_owner b1 <> CT_INVALID_ID8 /\ br_lsn b1 = br_lsn b.
Proof.
  intros Hb Hok Hnew Hval Hnot. pose proof Hb as []. pose proof (inst_ok_ne _ Hok) as Hown. unfold claim_ownership. cbn.
  destruct (Z.eqb_spec (cl_mode ci) DRC_LOCK_SHARE) as [Hs | Hs].
  - destruct (Z.eqb_spec (br_claimed_owner b) CT_INVALID_ID8); [done |]. cbn.
    destruct (drc_bitmap64_set_Done (br_readonly_copies b) (cl_new_id ci) bi_copies0 Hnew) as (bm & -> & Hbm & Hset & _). cbn.
    eexists. split; [done |]. split; [by apply C_share |]. split; [done |]. split; [| done].
    constructor; cbn; eauto; try (by right); done.
  - destruct (drc_bitmap64_clear_Done (br_edp_map b) (cl_new_id ci) bi_edp0 Hnew) as (bm & -> & Hbm & Hset & _). cbn.
    destruct (cl_has_edp ci) eqn:Hedp.
    + unfold drc_claim_info_is_invalid in Hval. rewrite Hedp in Hval. destruct (Z.eqb_spec (cl_mode ci) DRC_LOCK_SHARE); [done |].
      destruct (cl_mode ci =? DRC_LOCK_EXCLUSIVE); [| done]. destruct (negb (cl_lsn ci =? 0)) eqn:Hz; [| done]. cbn.
      destruct (drc_bitmap64_set_Done bm (br_claimed_owner b) Hbm Hok) as (bm2 & -> & Hbm2 & Hset2 & _). cbn.
      eexists. split; [done |]. split. { apply C_exclusive; rewrite ?Hedp; try done. cbn. by rewrite Hset2, Hset. }
      split; [done |]. split; [| split; [by apply inst_ok_ne | done]]. constructor; cbn; eauto; try (by right); try done.
      all: intros E; by apply inst_ok_ne in Hnew.
    + eexists. split; [done |]. split. { apply C_exclusive; rewrite ?Hedp; try done. cbn. rewrite Hset. set_solver. }
      split; [done |]. split; [| split; [by apply inst_ok_ne | done]]. constructor; cbn; eauto; try (by right); try done.
      all: intros E; by apply inst_ok_ne in Hnew.
Qed.

Lemma claim_new_spec ci b rs :
  buf_inv b rs -> drc_is_same_claim_request (converting_req b) ci = true -> drc_claim_info_is_invalid ci b = false ->
  req_inst_id (converting_req b) <> CT_INVALID_ID8 ->
  exists b', drc_claim_new_page_owner ci b = Done b' /\ claim_rule ci b b' /\ claim_kept b b' /\ buf_inv b' rs /\
    br_claimed_owner b' <> CT_INVALID_ID8 /\ br_lsn b <= br_lsn b'.
Proof.
  intros Hb Hsame Hval Hconv. pose proof Hb as []. unfold drc_is_same_claim_request in Hsame.
  apply andb_true_iff in Hsame as [[Hid Hsid]%andb_true_iff Hmode]. apply Z.eqb_eq in Hid, Hsid, Hmode.
  pose proof (bi_owned0 Hconv) as Hown. assert (Hok : inst_ok (br_claimed_owner b)) by naive_solver.
  assert (Hnew : inst_ok (cl_new_id ci)) by (rewrite <- Hid; naive_solver).
  assert (Hpc : pending_claimable (br_pending b) = true) by naive_solver.
  unfold drc_claim_new_page_owner. rewrite Hmode, Z.eqb_refl. cbn. rewrite Hpc. cbn.
  destruct ((cl_mode ci <=? br_mode b) && (br_claimed_owner b =? cl_new_id ci)) eqn:Hal.
  { apply andb_true_iff in Hal as [Hm%Z.leb_le Ho%Z.eqb_eq]. eexists. split; [done |].
    split; [by apply C_already |]. split; [done |]. split; [constructor; cbn; eauto; by right |]. split; [done |]. cbn. lia. }
  assert (Hnot : ~ (cl_mode ci <= br_mode b /\ br_claimed_owner b = cl_new_id ci)).
  { intros [Hm%Z.leb_le Ho%Z.eqb_eq]. by rewrite Hm, Ho in Hal. }
  destruct (claim_ownership_spec ci b rs Hb Hok Hnew Hval Hnot) as (b1 & Hrun & Hrule & Hkept & Hinv & Ho & Hlsn).
  destruct (claim_lsn_spec ci b b1 Hrule Hkept Hlsn Hval Hnot) as (b' & Hrun2 & Hrule2 & Hkept2 & Hlsn2).
  exists b'. split. { rewrite Hrun. exact Hrun2. }
  assert (Hb' : b' = b1 \/ b' = set_br_lsn (cl_lsn ci) b1).
  { destruct (0 <? cl_lsn ci); [| by injection Hrun2; auto]. destruct (br_lsn b1 <=? cl_lsn ci); [| done]. injection Hrun2 as <-. by right. }
  split; [done |]. split; [done |]. split; [destruct Hb' as [-> | ->]; [done | by destruct Hinv] |].
  split; [by destruct Hb' as [-> | ->] | lia].
Qed.

(** ** Converting the next request *)

Definition timed_out (now : Z) (r : drc_req_info) : bool := req_time r + DCS_WAIT_MSG_TIMEOUT_US <=? now.

(** The oldest waiting request that has not timed out, and those behind it. *)
Fixpoint next_req (now : Z) (rs : list drc_req_info) : option (drc_req_info * list drc_req_info) :=
  match rs with
  | [] => None
  | r :: rs => if timed_out now r then next_req now rs else Some (r, rs)
  end.

Lemma next_req_Some now rs r rs' :
  next_req now rs = Some (r, rs') <->
  exists dropped, rs = dropped ++ r :: rs' /\ Forall (fun x => timed_out now x = true) dropped /\ timed_out now r = false.
Proof.
  split.
  - induction rs as [| x rs IH]; cbn; [done |]. destruct (timed_out now x) eqn:Hx.
    + intros (d & -> & Hd & Hr)%IH. exists (x :: d). split_and!; [done | by constructor | done].
    + intros [= -> ->]. exists []. done.
  - intros (d & -> & Hd & Hr). induction Hd as [| x d Hx Hd IH]; cbn.
    + by rewrite Hr.
    + by rewrite Hx.
Qed.

Lemma next_req_None now rs : next_req now rs = None <-> Forall (fun x => timed_out now x = true) rs.
Proof.
  induction rs as [| x rs IH]; cbn; [split; constructor |]. rewrite Forall_cons. destruct (timed_out now x).
  - rewrite IH. naive_solver.
  - split; [done |]. by intros [? _].
Qed.

Lemma next_req_Forall (Q : drc_req_info -> Prop) now rs r rs' :
  next_req now rs = Some (r, rs') -> Forall Q rs -> Q r /\ Forall Q rs'.
Proof. intros (d & -> & _)%next_req_Some [_ [? ?]%Forall_cons]%Forall_app. done. Qed.

(** A resource nobody converts. *)
Definition idle (b : drc_buf_res) : Prop :=
  req_inst_id (converting_req b) = CT_INVALID_ID8 /\ req_mode (converting_req b) = DRC_LOCK_NULL /\
  req_inst_sid (converting_req b) = CT_INVALID_ID16.

Lemma pop_free_spec pool fl q ids rest i ids' :
  queue_wf pool fl q ids rest -> ids = i :: ids' ->
  exists it q' pool', lock_q_pop q pool = Done (i, it, q') /\ drc_res_pool_free_item pool i = Done pool' /\
    queue_wf pool' (i :: fl) q' ids' rest /\ frame_items pool pool' rest /\
    queue_reqs (addr pool) ids = req_info it :: queue_reqs (addr pool') ids' /\ first q = i /\ i <> CT_INVALID_ID32.
Proof.
  intros Hq Hids. destruct (pop_spec Hq i ids' Hids) as (it & q' & Hpop & Hit & Hq' & Hf & Hreqs).
  destruct (free_held_spec Hq' i rest) as (pool' & Hfree & Hq2 & [Hn Hfr] & Hreqs2); [done |].
  exists it, q', pool'. split; [done |]. split; [done |]. split; [done |].
  split. { split; [done |]. intros j Hj. apply Hfr. set_solver. }
  split; [by rewrite Hreqs, Hreqs2 |]. split; [done |].
  pose proof (lookupZ_lt _ _ _ Hit) as Hlt. rewrite (pw_len _ _ (qw_pool _ _ _ _ _ Hq)) in Hlt. pose proof (qw_max Hq). lia.
Qed.

Lemma convert_next_loop_spec now pool fl b ids rest rs fuel :
  queue_wf pool fl (br_convert_q b) ids rest -> rs = queue_reqs (addr pool) ids -> (length ids < fuel)%nat ->
  exists b' pool' fl' ids',
    convert_next_loop fuel now b pool = Done (fst <$> next_req now rs, b', pool') /\
    queue_wf pool' fl' (br_convert_q b') ids' rest /\ frame_items pool pool' rest /\ conv_only b b' /\
    match next_req now rs with
    | Some (r, rs') => req_info (br_converting b') = r /\ queue_reqs (addr pool') ids' = rs'
    | None => idle b' /\ ids' = []
    end.
Proof.
  revert pool fl b ids rs. induction fuel as [| fuel IH]; intros pool fl b ids rs Hq Hrs Hlen; [lia |].
  cbn [convert_next_loop]. pose proof (qw_rep _ _ _ _ _ Hq) as [Hc _]. destruct ids as [| i ids].
  - cbn in Hc. rewrite Hc. cbn. unfold queue_reqs in Hrs. cbn in Hrs. subst rs. cbn.
    eexists _, pool, fl, []. split; [done |]. split_and!; try done; by destruct b.
  - destruct (Z.eqb_spec (count (br_convert_q b)) 0); [cbn in Hc; lia |].
    destruct (pop_free_spec _ _ _ _ _ i ids Hq eq_refl) as (it & q' & pool' & Hpop & Hfree & Hq' & Hfr & Hreqs & Hf & Hne).
    rewrite Hf. destruct (Z.eqb_spec i CT_INVALID_ID32); [done |]. cbn. rewrite Hpop. cbn. rewrite Hfree. cbn.
    rewrite Hreqs in Hrs. subst rs. cbn. unfold timed_out.
    destruct (req_time (req_info it) + DCS_WAIT_MSG_TIMEOUT_US <=? now) eqn:Ht.
    + destruct (IH pool' (i :: fl) (set_br_converting it (set_br_convert_q q' b)) ids (queue_reqs (addr pool') ids))
        as (b' & pool2 & fl2 & ids2 & Hrun & Hq2 & Hfr2 & Hco & Hm); [done | done | cbn in Hlen; lia |].
      exists b', pool2, fl2, ids2. split; [done |]. split_and!; try done.
      by eapply frame_items_trans.
    + cbn. eexists _, pool', (i :: fl), ids. split; [done |]. split_and!; done.
Qed.

(** What is left of the queue once [r] converts: its first request too goes
    when it conflicts. *)
Definition after_conflict (b : drc_buf_res) (rs : list drc_req_info) : list drc_req_info :=
  match rs with
  | x :: rs' => if decide (conflicts b x) then rs' else rs
  | [] => []
  end.

Lemma check_first_spec b pool fl ids rest rs :
  queue_wf pool fl (br_convert_q b) ids rest -> rs = queue_reqs (addr pool) ids ->
  bitmap_ok (br_readonly_copies b) -> Forall (fun r => inst_ok (req_inst_id r)) rs ->
  exists cid b' ids' extra, drc_check_first_req_in_convert_queue b pool = Done (cid, b') /\
    queue_wf pool fl (br_convert_q b') ids' (extra ++ rest) /\ conv_only b b' /\ br_converting b' = br_converting b /\
    queue_reqs (addr pool) ids' = after_conflict b rs /\
    ((cid = CT_INVALID_ID32 /\ extra = [] /\ after_conflict b rs = rs) \/
     (extra = [cid] /\ cid <> CT_INVALID_ID32 /\ exists it x, (addr pool).[cid] = Some it /\ x = req_info it /\ conflicts b x /\ rs = x :: after_conflict b rs)).
Proof.
  intros Hq Hrs Hbm Hall. unfold drc_check_first_req_in_convert_queue.
  pose proof (qw_rep _ _ _ _ _ Hq) as [Hc _]. destruct ids as [| i ids].
  - cbn in Hc. rewrite Hc. cbn. unfold queue_reqs in Hrs. cbn in Hrs. subst rs.
    exists CT_INVALID_ID32, b, [], []. split_and!; try done; [by destruct b | by left].
  - destruct (Z.eqb_spec (count (br_convert_q b)) 0); [cbn in Hc; lia |].
    destruct (pop_spec Hq i ids eq_refl) as (it & q' & -> & Hit & Hq' & Hf & Hreqs). cbn.
    rewrite Hreqs in Hrs. subst rs. apply Forall_cons in Hall as [Hr _].
    rewrite check_new_req_spec by done. cbn. destruct (decide (conflicts b (req_info it))) as [Hcf | Hcf].
    + eexists i, _, ids, [i]. split; [done |]. split_and!; try done. right. split_and!; try done.
      { pose proof (lookupZ_lt _ _ _ Hit) as Hlt. rewrite (pw_len _ _ (qw_pool _ _ _ _ _ Hq)) in Hlt. pose proof (qw_max Hq). lia. }
      eauto 10.
    + exists CT_INVALID_ID32, b, (i :: ids), []. split_and!; try done; [by destruct b | by left].
Qed.

(** The resource once [r] is being converted. *)
Lemma conv_some_inv b b' rs r rs' :
  buf_inv b rs -> br_claimed_owner b <> CT_INVALID_ID8 -> pending_claimable (br_pending b) = true ->
  conv_only b b' -> converting_req b' = r -> inst_ok (req_inst_id r) ->
  Forall (fun r => inst_ok (req_inst_id r)) rs' -> buf_inv b' rs'.
Proof.
  intros [] Hown Hp Hco Hr Hok Hall. unfold conv_only in Hco. rewrite Hco. rewrite <- Hr in Hok.
  constructor; cbn; eauto. intros E. by apply inst_ok_ne in Hok.
Qed.

Lemma conv_idle_inv b b' rs :
  buf_inv b rs -> conv_only b b' -> idle b' -> pending_claimable (br_pending b) = true -> buf_inv b' [].
Proof.
  intros [] Hco [Hi _] Hp. unfold conv_only in Hco. rewrite Hco. constructor; cbn; eauto; done.
Qed.

(** The answer [drc_convert_next_request] prepares for request [r]. *)
Definition cvt_for (b : drc_buf_res) (r : drc_req_info) (cvt : cvt_info) : Prop :=
  cv_owner_id cvt = br_claimed_owner b /\ cv_req_id cvt = req_inst_id r /\ cv_req_sid cvt = req_inst_sid r /\
  cv_req_rsn cvt = req_rsn r /\ cv_pageid cvt = br_page_id b /\ cv_req_mode cvt = req_mode r /\
  cv_curr_mode cvt = curr_mode r /\ cv_req_version cvt = req_version r /\ cv_lsn cvt = req_lsn r /\
  bitmap_ok (cv_readonly_copies cvt) /\
  inst_set (cv_readonly_copies cvt) = inst_set (br_readonly_copies b) ∖ {[req_inst_id r]} ∖ {[br_claimed_owner b]}.

(** The lock item of a conflicting request, taken out of the queue but not yet freed. *)
Definition dropped_item (b : drc_buf_res) (items : list drc_lock_item) (rs : list drc_req_info) (cid : Z) (extra : list Z) : Prop :=
  (cid = CT_INVALID_ID32 /\ extra = [] /\ after_conflict b rs = rs) \/
  (extra = [cid] /\ cid <> CT_INVALID_ID32 /\
   exists it x, items.[cid] = Some it /\ x = req_info it /\ conflicts b x /\ rs = x :: after_conflict b rs).

Lemma after_conflict_conv b b' rs :
  conv_only b b' -> br_converting b' = br_converting b -> after_conflict b' rs = after_conflict b rs.
Proof.
  intros Hco Hc. assert (Hiff : forall x, conflicts b' x <-> conflicts b x).
  { intros x. unfold conflicts. rewrite Hc. unfold conv_only in Hco. rewrite Hco. done. }
  destruct rs as [| x rs]; [done |]. cbn. by destruct (decide (conflicts b' x)) as [E%Hiff | E], (decide (conflicts b x)) as [E' | E'];
    try done; destruct E; apply Hiff.
Qed.

Lemma after_conflict_Forall (Q : drc_req_info -> Prop) b rs : Forall Q rs -> Forall Q (after_conflict b rs).
Proof. destruct rs as [| x rs]; [done |]. cbn. destruct (decide _); [by intros [_ ?]%Forall_cons | done]. Qed.

Lemma convert_next_spec now b cvt pool fl ids rest rs :
  buf_inv b rs -> br_claimed_owner b <> CT_INVALID_ID8 -> pending_claimable (br_pending b) = true ->
  queue_wf pool fl (br_convert_q b) ids rest -> rs = queue_reqs (addr pool) ids ->
  exists cid b' cvt' pool' fl' ids' extra,
    drc_convert_next_request now b cvt pool = Done (cid, b', cvt', pool') /\
    queue_wf pool' fl' (br_convert_q b') ids' (extra ++ rest) /\ frame_items pool pool' rest /\ conv_only b b' /\
    buf_inv b' (queue_reqs (addr pool') ids') /\
    match next_req now rs with
    | None => cid = CT_INVALID_ID32 /\ extra = [] /\ idle b' /\ queue_reqs (addr pool') ids' = [] /\ cv_req_id cvt' = cv_req_id cvt
    | Some (r, rs1) => converting_req b' = r /\ queue_reqs (addr pool') ids' = after_conflict b' rs1 /\
        cvt_for b r cvt' /\ dropped_item b' (addr pool') rs1 cid extra
    end.
Proof.
  intros Hb Hown Hp Hq Hrs. pose proof Hb as []. assert (Hok : inst_ok (br_claimed_owner b)) by naive_solver.
  pose proof (qw_rep _ _ _ _ _ Hq) as [Hcnt _].
  destruct (convert_next_loop_spec now pool fl b ids rest rs (S (Z.to_nat (count (br_convert_q b)))))
    as (b1 & pool1 & fl1 & ids1 & Hrun & Hq1 & Hfr1 & Hco1 & Hm); [done | done | lia |].
  unfold drc_convert_next_request. rewrite Hrun. cbn. clear Hrun.
  destruct (next_req now rs) as [[r rs1] |] eqn:Hnext; cbn.
  - destruct Hm as [Hr Hrs1]. destruct (next_req_Forall _ _ _ _ _ Hnext bi_queue0) as [Hrok Hall].
    pose proof (conv_some_inv _ _ _ _ _ Hb Hown Hp Hco1 Hr Hrok Hall) as Hb1. pose proof Hb1 as [].
    assert (Hsame : br_readonly_copies b1 = br_readonly_copies b /\ br_claimed_owner b1 = br_claimed_owner b /\ br_page_id b1 = br_page_id b)
      by (unfold conv_only in Hco1; by rewrite Hco1).
    destruct Hsame as (Hsc & Hso & Hsp). rewrite Hsc, Hso, Hsp.
    destruct (drc_bitmap64_clear_Done (br_readonly_copies b) _ bi_copies0 Hrok) as (m1 & -> & Hm1 & Hs1 & _). cbn.
    destruct (drc_bitmap64_clear_Done m1 _ Hm1 Hok) as (m2 & -> & Hm2 & Hs2 & _). cbn.
    destruct (check_first_spec b1 pool1 fl1 ids1 rest rs1) as (cid & b2 & ids2 & extra & -> & Hq2 & Hco2 & Hcv2 & Hrs2 & Hd); try done.
    cbn. rewrite <- (after_conflict_conv b1 b2 rs1 Hco2 Hcv2) in Hrs2.
    eexists cid, b2, _, pool1, fl1, ids2, extra. split; [done |].
    assert (Hco : conv_only b b2).
    { unfold conv_only in Hco1, Hco2 |- *. rewrite Hco2 at 1. rewrite Hco1. by rewrite Hcv2. }
    split; [done |]. split; [done |]. split; [done |]. split.
    + eapply (conv_some_inv b b2 rs r); try done; [by rewrite Hcv2 |]. rewrite Hrs2. by apply after_conflict_Forall.
    + split; [by rewrite Hcv2 |]. split; [done |]. split; [unfold cvt_for; cbn; by rewrite Hs2, Hs1 |].
      unfold dropped_item. rewrite !(after_conflict_conv b1 b2 rs1 Hco2 Hcv2). destruct Hd as [Hd | (He & Hc & it & x & Hit & Hx & Hcf & Hrs')].
      * by left.
      * right. split_and!; try done. exists it, x. split_and!; try done.
        unfold conflicts in *. rewrite Hcv2. unfold conv_only in Hco2. by rewrite Hco2.
  - destruct Hm as [Hidle ->]. eexists _, b1, _, pool1, fl1, [], []. split; [done |]. split_and!; try done.
    by eapply (conv_idle_inv b b1 rs).
Qed.

(** ** The two decisions as a whole *)

Definition claim_applies (ci : claim_info) (b : drc_buf_res) : Prop :=
  req_inst_id (converting_req b) <> CT_INVALID_ID8 /\ drc_is_same_claim_request (converting_req b) ci = true /\
  drc_claim_info_is_invalid ci b = false.

#[export] Instance claim_applies_dec ci b : Decision (claim_applies ci b).
Proof. unfold claim_applies. apply _. Defined.

Lemma claim_decide_ignored now ci cvt b pool : ~ claim_applies ci b -> claim_decide now ci cvt b pool = Done (None, b, pool).
Proof.
  intros Hn. unfold claim_decide. destruct (Z.eqb_spec (req_inst_id (converting_req b)) CT_INVALID_ID8); [done |].
  destruct (drc_is_same_claim_request (converting_req b) ci) eqn:Hs; [| done].
  destruct (drc_claim_info_is_invalid ci b) eqn:Hv; [done |]. by destruct Hn.
Qed.

Lemma claim_decide_spec now ci cvt b pool fl ids rest rs :
  buf_inv b rs -> queue_wf pool fl (br_convert_q b) ids rest -> rs = queue_reqs (addr pool) ids ->
  exists out b' pool' fl' ids' extra, claim_decide now ci cvt b pool = Done (out, b', pool') /\
    queue_wf pool' fl' (br_convert_q b') ids' (extra ++ rest) /\ frame_items pool pool' rest /\ same_place b b' /\
    buf_inv b' (queue_reqs (addr pool') ids') /\
    match out with
    | None => ~ claim_applies ci b /\ b' = b /\ pool' = pool /\ ids' = ids /\ fl' = fl /\ extra = []
    | Some (cid, cvt') => claim_applies ci b /\
        exists b1, claim_rule ci b b1 /\ claim_kept b b1 /\ conv_only b1 b' /\ br_lsn b <= br_lsn b' /\
          match next_req now rs with
          | None => cid = CT_INVALID_ID32 /\ extra = [] /\ idle b' /\ queue_reqs (addr pool') ids' = [] /\ cv_req_id cvt' = cv_req_id cvt
          | Some (r, rs1) => converting_req b' = r /\ queue_reqs (addr pool') ids' = after_conflict b' rs1 /\
              cvt_for b1 r cvt' /\ dropped_item b' (addr pool') rs1 cid extra
          end
    end.
Proof.
  intros Hb Hq Hrs. destruct (decide (claim_applies ci b)) as [Ha | Hn].
  2: { rewrite claim_decide_ignored by done. exists None, b, pool, fl, ids, []. rewrite <- Hrs. by split_and!. }
  pose proof Ha as (Hc & Hs & Hv). unfold claim_decide.
  destruct (Z.eqb_spec (req_inst_id (converting_req b)) CT_INVALID_ID8); [done |]. rewrite Hs, Hv. cbn.
  destruct (claim_new_spec ci b rs Hb Hs Hv Hc) as (b1 & -> & Hrule & Hkept & Hb1 & Ho1 & Hl1). cbn [mbind outcome_bind].
  pose proof Hkept as (Hpl1 & Hcv1 & Hq1 & _ & Hp1).
  destruct (convert_next_spec now b1 cvt pool fl ids rest rs) as (cid & b' & cvt' & pool' & fl' & ids' & extra & -> & Hq' & Hfr & Hco & Hb' & Hm);
    [done | done | by rewrite Hp1 | by rewrite Hq1 | done |].
  cbn. exists (Some (cid, cvt')), b', pool', fl', ids', extra. split; [done |]. split; [done |]. split; [done |].
  split; [by eapply same_place_trans; [| apply conv_only_place] |]. split; [done |]. split; [done |].
  exists b1. split; [done |]. split; [done |]. split; [done |]. split; [unfold conv_only in Hco; by rewrite Hco | done].
Qed.

(** An orphaned page may be given to a new owner. *)
Definition recover_ready (e : dtc_env) (pagid : page_id_t) : bool :=
  DAAC_SESSION_IN_RECOVERY e || reform_recover_done e || dtc_dcs_readable e pagid.

(** What a request finds: a resource being recycled, an owner that is gone
    while recovery has not got far enough, no owner at all, or an owner; then
    it is granted the page or treated by the rules above. *)
Inductive request_rule (e : dtc_env) (pagid : page_id_t) (r : drc_req_info) (is_try : bool) (b : drc_buf_res)
    (rs : list drc_req_info) (full : Prop) : option bool -> drc_req_info -> drc_buf_res -> list drc_req_info -> Prop :=
| R_recycled :
    br_pending b = DRC_RES_PENDING_ACTION -> request_rule e pagid r is_try b rs full None r b rs
| R_not_ready :
    br_pending b <> DRC_RES_PENDING_ACTION -> br_claimed_owner b = CT_INVALID_ID8 -> recover_ready e pagid = false ->
    request_rule e pagid r is_try b rs full None r b rs
| R_granted :
    br_pending b <> DRC_RES_PENDING_ACTION -> br_claimed_owner b = CT_INVALID_ID8 ->
    recover_ready e pagid = true -> br_readonly_copies b = 0 -> br_edp_map b = 0 -> rs = [] ->
    request_rule e pagid r is_try b rs full (Some false) r
      (set_converting_req (req_set_result DRC_REQ_OWNER_GRANTED (converting_req b))
         (set_br_mode (req_mode r) (set_br_claimed_owner (req_inst_id r) b))) []
| R_wait b0 st cvt retry r' b1 rs' :
    br_pending b <> DRC_RES_PENDING_ACTION ->
    (b0 = b \/ br_claimed_owner b = CT_INVALID_ID8 /\ recover_ready e pagid = true /\ drc_clean_buf_res b = Done b0) ->
    br_claimed_owner b0 <> CT_INVALID_ID8 -> conv_only b0 b1 ->
    wait_rule r is_try b0 rs full st cvt retry r' (br_converting b1) rs' ->
    request_rule e pagid r is_try b rs full (match st with CT_SUCCESS => Some cvt | CT_ERROR => None end) r'
      (if cvt then set_converting_req (req_set_result (if br_claimed_owner b0 =? req_inst_id r then DRC_REQ_OWNER_ALREADY_OWNER
          else DRC_REQ_OWNER_CONVERTING) r') b1 else b1) rs'.

(** The answer when the requester converts now. *)
Definition result_for (r : drc_req_info) (b : drc_buf_res) (res : drc_req_owner_result) : Prop :=
  rs_type res = (if br_claimed_owner b =? req_inst_id r then DRC_REQ_OWNER_ALREADY_OWNER else DRC_REQ_OWNER_CONVERTING) /\
  rs_curr_owner_id res = br_claimed_owner b /\ rs_action res = br_pending b /\ rs_req_mode res = req_mode r /\
  bitmap_ok (rs_readonly_copies res) /\
  inst_set (rs_readonly_copies res) = inst_set (br_readonly_copies b) ∖ {[req_inst_id r]} ∖ {[br_claimed_owner b]}.

Lemma set_conv_result_inv b rs r :
  buf_inv b rs -> req_inst_id r = req_inst_id (converting_req b) -> buf_inv (set_converting_req r b) rs.
Proof. intros [] Hr. constructor; cbn; rewrite ?Hr; eauto. Qed.

Lemma wait_rule_try r is_try b rs full st cvt retry r' conv' rs' :
  wait_rule r is_try b rs full st cvt retry r' conv' rs' -> cvt = true -> is_try = true -> br_claimed_owner b = req_inst_id r.
Proof. intros [] ? ?; naive_solver congruence. Qed.

Lemma wait_rule_cvt r is_try b rs full st cvt retry r' conv' rs' :
  wait_rule r is_try b rs full st cvt retry r' conv' rs' -> cvt = true -> st = CT_SUCCESS.
Proof. by intros []. Qed.

(** A requester with an owner to ask. *)
Lemma request_wait_spec e pagid r is_try res b b0 pool fl ids rest rs :
  buf_inv b0 rs -> inst_ok (req_inst_id r) -> queue_wf pool fl (br_convert_q b0) ids rest -> rs = queue_reqs (addr pool) ids ->
  br_claimed_owner b0 <> CT_INVALID_ID8 -> br_pending b0 <> DRC_RES_PENDING_ACTION -> br_pending b <> DRC_RES_PENDING_ACTION ->
  same_place b b0 ->
  (b0 = b \/ br_claimed_owner b = CT_INVALID_ID8 /\ recover_ready e pagid = true /\ drc_clean_buf_res b = Done b0) ->
  exists out r' res' b' pool' fl' ids',
    request_wait r is_try res b0 pool = Done (out, r', res', b', pool') /\
    queue_wf pool' fl' (br_convert_q b') ids' rest /\ frame_items pool pool' rest /\ same_place b b' /\
    buf_inv b' (queue_reqs (addr pool') ids') /\
    request_rule e pagid r is_try b rs (fl = []) out r' b' (queue_reqs (addr pool') ids') /\
    req_inst_id r' = req_inst_id r /\
    (out = Some true -> result_for r' b' res' /\ req_inst_id (converting_req b') = req_inst_id r').
Proof.
  intros Hb Hr Hq Hrs Hown Hpend Hpendb Hpl Hb0. unfold request_wait.
  destruct (keep_wait_spec r b0 is_try pool fl ids rest rs) as (kw & fl' & ids' & -> & Hq' & Hfr & Hco & Hrule); try done. cbn.
  destruct (wait_rule_inv _ _ _ _ _ _ _ _ _ _ _ (kw_buf kw) Hrule) as (Hb' & Hr' & Hcv); try done.
  pose proof Hb' as []. assert (Hsame : br_claimed_owner (kw_buf kw) = br_claimed_owner b0) by (unfold conv_only in Hco; by rewrite Hco).
  pose proof (same_place_trans _ _ _ Hpl (conv_only_place _ _ Hco)) as Hpl'.
  destruct (kw_ret kw) eqn:Hret; [destruct (kw_converting kw) eqn:Hcvt |].
  - specialize (Hcv eq_refl). assert (Hok : inst_ok (br_claimed_owner (kw_buf kw))) by (rewrite Hsame in *; naive_solver).
    rewrite Hr' in *. destruct (drc_bitmap64_clear_Done _ _ bi_copies0 Hr) as (m1 & -> & Hm1 & Hs1 & _). cbn.
    destruct (drc_bitmap64_clear_Done _ _ Hm1 Hok) as (m2 & -> & Hm2 & Hs2 & _). cbn.
    assert (Hty : negb is_try || negb ((if br_claimed_owner (kw_buf kw) =? req_inst_id r then DRC_REQ_OWNER_ALREADY_OWNER
        else DRC_REQ_OWNER_CONVERTING) =? DRC_REQ_OWNER_CONVERTING) = true).
    { destruct is_try; [| done]. rewrite Hsame, (wait_rule_try _ _ _ _ _ _ _ _ _ _ _ Hrule eq_refl eq_refl), Z.eqb_refl. done. }
    rewrite Hty. cbn. eexists _, _, _, _, _, fl', ids'. split; [done |]. split; [done |]. split; [done |]. split; [done |].
    split; [by apply set_conv_result_inv |]. split; [| split; [done |]].
    + eapply (R_wait _ _ _ _ _ _ _ b0 CT_SUCCESS true (kw_is_retry kw) (kw_req kw) (kw_buf kw)) in Hrule; try done.
      cbn in Hrule. by rewrite Hsame, Hcv.
    + intros _. unfold result_for. cbn. rewrite Hr', Hcv. split_and!; try done; by rewrite Hs2, Hs1.
  - eexists _, _, _, _, _, fl', ids'. split; [done |]. split_and!; try done.
    by eapply (R_wait _ _ _ _ _ _ _ b0 CT_SUCCESS false (kw_is_retry kw) (kw_req kw) (kw_buf kw)) in Hrule.
  - destruct (kw_converting kw) eqn:Hcvt; [by apply wait_rule_cvt in Hrule |].
    eexists _, _, _, _, _, fl', ids'. split; [done |]. split_and!; try done.
    by eapply (R_wait _ _ _ _ _ _ _ b0 CT_ERROR false (kw_is_retry kw) (kw_req kw) (kw_buf kw)) in Hrule.
Qed.

Lemma request_decide_spec e pagid r is_try res b pool fl ids rest rs :
  buf_inv b rs -> inst_ok (req_inst_id r) -> queue_wf pool fl (br_convert_q b) ids rest -> rs = queue_reqs (addr pool) ids ->
  exists out r' res' b' pool' fl' ids', request_decide e pagid r is_try res b pool = Done (out, r', res', b', pool') /\
    queue_wf pool' fl' (br_convert_q b') ids' rest /\ frame_items pool pool' rest /\ same_place b b' /\
    buf_inv b' (queue_reqs (addr pool') ids') /\
    request_rule e pagid r is_try b rs (fl = []) out r' b' (queue_reqs (addr pool') ids') /\
    req_inst_id r' = req_inst_id r /\
    (out = Some true -> result_for r' b' res' /\ req_inst_id (converting_req b') = req_inst_id r').
Proof.
  intros Hb Hr Hq Hrs. unfold request_decide.
  destruct (Z.eqb_spec (br_pending b) DRC_RES_PENDING_ACTION) as [Hp | Hp].
  { eexists _, _, _, _, _, fl, ids. split; [done |]. rewrite <- Hrs. split_and!; try done. by apply R_recycled. }
  destruct (Z.eqb_spec (br_claimed_owner b) CT_INVALID_ID8) as [Ho | Ho]; cbn [andb].
  2: { cbn [mbind outcome_bind]. destruct (Z.eqb_spec (br_claimed_owner b) CT_INVALID_ID8); [done |].
       eapply request_wait_spec; try done. by left. }
  fold (recover_ready e pagid). destruct (recover_ready e pagid) eqn:Hready; cbn [negb].
  2: { eexists _, _, _, _, _, fl, ids. split; [done |]. rewrite <- Hrs. split_and!; try done. by apply R_not_ready. }
  destruct (clean_buf_res_spec b rs Hb Ho) as (b0 & Hrun & Hb0 & Hpl & Hcv & Hcq & _ & _ & Hcase). rewrite Hrun. cbn [mbind outcome_bind].
  destruct (Z.eqb_spec (br_claimed_owner b0) CT_INVALID_ID8) as [Ho0 | Ho0].
  - destruct Hcase as [(_ & Hin & _) | [(Hz & He & Hl & _) | (Hz & He & ->)]].
    + apply inst_set_ok, inst_ok_ne in Hin. done.
    + destruct (bi_orphan _ _ Hb Ho Hz He) as [Hok _]. apply inst_ok_ne in Hok. congruence.
    + pose proof Hb as [].
      assert (Hc : req_inst_id (converting_req b) = CT_INVALID_ID8).
      { destruct (decide (req_inst_id (converting_req b) = CT_INVALID_ID8)); [done |]. by destruct bi_owned0. }
      specialize (bi_idle0 Hc). eexists _, _, _, _, _, fl, ids. split; [done |]. rewrite <- Hrs, bi_idle0.
      split_and!; try done; [| by refine (R_granted e pagid r is_try b [] _ _ _ _ _ _ _)]. constructor; cbn; eauto; try done.
  - assert (Hp0 : br_pending b0 <> DRC_RES_PENDING_ACTION).
    { destruct Hcase as [(_ & _ & _ & ->) | [(_ & _ & _ & _ & ->) | (_ & _ & ->)]]; done. }
    eapply (request_wait_spec e pagid r is_try res b b0); try done; [by rewrite Hcq |]. by right.
Qed.
