(* ===== verification/PageProps.v ===== *)
(** * The page handlers on the catalog

    [page_ok] says that a catalog is well formed and that this thread holds
    the given resources and lock items.  The handlers are proved in
    rely/guarantee style: provided other threads keep [page_ok] in the windows
    a handler leaves open, the handler does not crash and keeps it too. *)

From stdpp Require Import prelude list gmap.
From S2P Require Import Prelude Bitmap ResPool DrcList ResMap ConvertQ GlobalRes DrcTypes DrcPage PageInv.

Open Scope Z_scope.
Open Scope drc_scope.

Section page.
Context `{KernelAttr}.
(** The size of the resource pool, fixed when it is created. *)
Context (pool_size : Z).

Abbreviation bgwf := (gwf (K := page_id_t) buf_inv).
Abbreviation c_items c := (g_items (pc_res c)).

(** What other threads may hold: [fun _ _ => True] for any interference,
    [fun rs ls => rs = [] /\ ls = []] when this thread runs alone. *)
Context (Q : list Z -> list Z -> Prop).

(** This thread holds the resources [mine] and the lock items [litems], and
    all others that are neither free nor linked are held by other threads. *)
Record page_st (gh : gghost) (mine litems : list Z) (c : page_ctx) : Prop := mk_page_st {
  ps_wf : bgwf gh (pc_pool c) (pc_res c);
  ps_held : exists others lothers,
    gg_held gh ≡ₚ mine ++ others /\ gg_lrest gh ≡ₚ litems ++ lothers /\ Q others lothers;
  ps_size : Z.of_nat (length (gg_free gh ++ gg_held gh ++ linked gh)) = pool_size /\ 0 < pool_size;
}.

Definition page_ok (mine litems : list Z) (c : page_ctx) : Prop := exists gh, page_st gh mine litems c.

(** What other threads may do in a window. *)
Definition window_ok (f : page_ctx -> page_ctx) : Prop :=
  forall mine litems c, page_ok mine litems c -> page_ok mine litems (f c).

Definition world_ok (w : world) : Prop := forall s, window_ok (wd_win w s).

Lemma world_iter_ok w n : world_ok w -> world_ok (world_iter w n).
Proof. intros Hw s. apply Hw. Qed.

Lemma pc_set_res_id c : pc_set_res c (pc_res c) = c.
Proof. by destruct c. Qed.

Lemma window_ok_id : window_ok (fun c => c).
Proof. by intros mine litems c ?. Qed.

(** ** Basic steps *)

Lemma page_st_pool_range gh mine litems c :
  page_st gh mine litems c -> item_num (res_pool (res_map (pc_res c))) = pool_size /\
    Z.of_nat (length (c_items c)) = pool_size.
Proof.
  intros [Hwf _ [Hsz Hpos]]. pose proof (gw_map _ _ _ _ Hwf) as Hm.
  pose proof (Permutation_length (mw_perm _ _ _ _ Hm)) as Hp. rewrite length_seqZ in Hp.
  pose proof (pw_len _ _ (mw_pool _ _ _ _ Hm)) as Hl. lia.
Qed.

Lemma page_st_linked gh mine litems c i b :
  page_st gh mine litems c -> (c_items c).[i] = Some b -> br_is_used b = true -> i ∈ linked gh.
Proof.
  intros [Hwf _ _] Hb Hu. destruct (decide (i ∈ linked gh)); [done |].
  pose proof (gw_blank _ _ _ _ Hwf i b ltac:(done) Hb) as Hs. apply strip_buf_eq in Hs as (nx & nd & Hz).
  apply (f_equal br_is_used) in Hz. cbn in Hz. congruence.
Qed.

Lemma page_st_lookup gh mine litems c k :
  page_st gh mine litems c ->
  exists r, gres_lookup (pc_res c) k = Done r /\
    match r with
    | Some i => i ∈ linked gh /\ exists b ids, gres_get (pc_res c) i = Done b /\ (c_items c).[i] = Some b /\
        (gg_ql gh).[i] = Some ids /\ br_page_id b = k /\ buf_inv b (queue_reqs (addr (pc_pool c)) ids) /\
        queue_wf (pc_pool c) (gg_lfree gh) (br_convert_q b) ids (concat ((gg_ql gh).[i <- []]) ++ gg_lrest gh)
    | None => forall i b, i ∈ linked gh -> (c_items c).[i] = Some b -> br_page_id b <> k
    end.
Proof.
  intros Hst. pose proof (ps_wf _ _ _ _ Hst) as Hwf. destruct (gwf_lookup buf_inv Hwf k) as ([i |] & Hl & Hcase).
  - destruct Hcase as (Hi & b & ids & Hb & Hids & Hk). exists (Some i). split; [done |]. split; [done |]. exists b, ids.
    split; [by apply arr_get_eq |]. split_and!; try done; [by eapply gw_inv | by eapply (gwf_queue buf_inv Hwf)].
  - exists None. split; [done |]. done.
Qed.

(** Writing back a linked resource after a decision. *)
Lemma page_st_update gh mine litems c i b b' ids ids' pool' lfree' extra :
  page_st gh mine litems c -> i ∈ linked gh -> (c_items c).[i] = Some b -> (gg_ql gh).[i] = Some ids ->
  same_place b b' ->
  queue_wf pool' lfree' (br_convert_q b') ids' (extra ++ concat ((gg_ql gh).[i <- []]) ++ gg_lrest gh) ->
  frame_items (pc_pool c) pool' (concat ((gg_ql gh).[i <- []]) ++ gg_lrest gh) ->
  buf_inv b' (queue_reqs (addr pool') ids') ->
  exists g', gres_put (pc_res c) i b' = Done g' /\
    page_st (mk_gg (gg_free gh) (gg_held gh) (gg_bl gh) (gg_pl gh) ((gg_ql gh).[i <- ids']) lfree' (extra ++ gg_lrest gh))
      mine (extra ++ litems) (mk_pctx pool' g') /\
    g_items g' = (c_items c).[i <- b'] /\
    view_but (br_page_id b) (pc_pool c) (pc_res c) pool' g' /\
    res_view pool' g' (br_page_id b) = Some (strip b', queue_reqs (addr pool') ids').
Proof.
  intros [Hwf (o & lo & Ho & Hlo & HQ) Hsz] Hi Hb Hids (Hn & Hnd & Hk & Hx & Hp) Hq Hfr Hinv.
  destruct (gwf_update buf_inv gh (pc_pool c) (pc_res c) i b b' ids ids' pool' lfree' extra)
    as (Hrun & Hwf' & Hv & Hvk); try done.
  eexists. split; [exact Hrun |]. split_and!; try done. constructor; cbn; try done.
  exists o, lo. by rewrite Hlo, (assoc_L (++)).
Qed.

(** Updates that leave the queue alone. *)
Lemma page_st_set gh mine litems c i b b' ids :
  page_st gh mine litems c -> i ∈ linked gh -> (c_items c).[i] = Some b -> (gg_ql gh).[i] = Some ids ->
  same_place b b' -> br_convert_q b' = br_convert_q b -> buf_inv b' (queue_reqs (addr (pc_pool c)) ids) ->
  exists g', gres_put (pc_res c) i b' = Done g' /\ page_st gh mine litems (pc_set_res c g') /\
    g_items g' = (c_items c).[i <- b'] /\
    view_but (br_page_id b) (pc_pool c) (pc_res c) (pc_pool c) g' /\
    res_view (pc_pool c) g' (br_page_id b) = Some (strip b', queue_reqs (addr (pc_pool c)) ids).
Proof.
  intros Hst Hi Hb Hids Hpl Hcq Hinv. pose proof (gwf_queue buf_inv (ps_wf _ _ _ _ Hst) i b ids Hb Hids) as Hq.
  destruct (page_st_update gh mine litems c i b b' ids ids (pc_pool c) (gg_lfree gh) []) as (g' & Hrun & Hst' & Hit & Hv & Hvk);
    try done. { cbn. by rewrite Hcq. }
  exists g'. split_and!; try done. cbn in Hst'. rewrite insertZ_id in Hst' by done. by destruct gh, c.
Qed.

Lemma page_st_free gh i mine litems c :
  page_st gh (i :: mine) litems c ->
  exists g' gh', gres_free (pc_res c) i = Done g' /\ page_st gh' mine litems (pc_set_res c g') /\
    forall k, res_view (pc_pool c) g' k = res_view (pc_pool c) (pc_res c) k.
Proof.
  intros [Hwf (o & lo & Ho & Hlo & HQ) Hsz].
  destruct (gwf_free buf_inv buf_inv_strip gh (pc_pool c) (pc_res c) i (mine ++ o) Hwf) as (g' & Hrun & Hwf' & Hv & _); [done |].
  eexists g', _. split; [done |]. split; [| done]. constructor; cbn; [done | by exists o, lo |].
  rewrite !length_app, (Permutation_length Ho) in Hsz. cbn in Hsz |- *. rewrite !length_app in *. lia.
Qed.

Lemma page_st_alloc gh mine litems c :
  page_st gh mine litems c ->
  exists i g', gres_alloc (pc_res c) = Done (i, g') /\
    (forall k, res_view (pc_pool c) g' k = res_view (pc_pool c) (pc_res c) k) /\ g_items g' = c_items c /\
    ((i = CT_INVALID_ID32 /\ gg_free gh = [] /\ g' = pc_res c) \/
     (i <> CT_INVALID_ID32 /\ exists gh', page_st gh' (i :: mine) litems (pc_set_res c g') /\ linked gh' = linked gh)).
Proof.
  intros [Hwf (o & lo & Ho & Hlo & HQ) Hsz]. destruct (gg_free gh) as [| i fl] eqn:Hfl.
  - exists CT_INVALID_ID32, (pc_res c). split; [exact (gwf_alloc_nil buf_inv _ _ _ Hwf Hfl) |].
    split; [done |]. split; [done |]. by left.
  - destruct (gwf_alloc buf_inv buf_inv_strip gh (pc_pool c) (pc_res c) i fl Hwf Hfl) as (g' & Hrun & Hne & Hwf' & Hit & Hv).
    exists i, g'. split; [done |]. split; [done |]. split; [done |]. right. split; [done |].
    eexists (mk_gg fl (i :: gg_held gh) (gg_bl gh) (gg_pl gh) (gg_ql gh) (gg_lfree gh) (gg_lrest gh)). split; [| done].
    constructor; cbn; [done | exists o, lo; by rewrite Ho |]. rewrite !length_app in *. cbn in *. rewrite ?length_app in *. lia.
Qed.

(** Removing a resource with an empty queue; this thread then holds it. *)
Lemma page_st_removed gh mine litems c i k g' :
  page_st gh mine litems c -> removed buf_inv gh (pc_pool c) (pc_res c) i k g' ->
  exists gh', page_st gh' (i :: mine) litems (pc_set_res c g').
Proof.
  intros [Hwf (o & lo & Ho & Hlo & HQ) Hsz] (bl' & pl' & Hwf' & Hbl & _).
  exists (mk_gg (gg_free gh) (i :: gg_held gh) bl' pl' (gg_ql gh) (gg_lfree gh) (gg_lrest gh)).
  constructor; cbn; [done | exists o, lo; by rewrite Ho |].
  rewrite !length_app, <- (Permutation_length Hbl) in Hsz. rewrite !length_app. cbn in *. rewrite !length_app. lia.
Qed.

Lemma queue_empty gh mine litems c i b ids :
  page_st gh mine litems c -> i ∈ linked gh -> (c_items c).[i] = Some b -> (gg_ql gh).[i] = Some ids ->
  req_inst_id (converting_req b) = CT_INVALID_ID8 -> (gg_ql gh).[i] = Some [].
Proof.
  intros Hst Hi Hb Hids Hc. pose proof (ps_wf _ _ _ _ Hst) as Hwf.
  pose proof (bi_idle _ _ (gw_inv _ _ _ _ Hwf _ _ _ Hi Hb Hids) Hc) as Hnil.
  destruct ids as [| x ids]; [done |]. pose proof (gwf_queue buf_inv Hwf i b _ Hb Hids) as Hq.
  destruct (qw_item Hq x) as [it Hit]; [set_solver |]. by rewrite (queue_reqs_cons _ _ _ _ Hit) in Hnil.
Qed.

Lemma page_st_clean gh mine litems c i b ids :
  page_st gh mine litems c -> i ∈ linked gh -> (c_items c).[i] = Some b -> (gg_ql gh).[i] = Some ids ->
  req_inst_id (converting_req b) = CT_INVALID_ID8 ->
  exists g' gh', drc_clean_page_owner_internal (pc_res c) i = Done g' /\ page_st gh' (i :: mine) litems (pc_set_res c g') /\
    view_but (br_page_id b) (pc_pool c) (pc_res c) (pc_pool c) g' /\ res_view (pc_pool c) g' (br_page_id b) = None.
Proof.
  intros Hst Hi Hb Hids Hc. pose proof (queue_empty _ _ _ _ _ _ _ Hst Hi Hb Hids Hc) as Hnil.
  destruct (gwf_clean buf_inv buf_inv_strip gh _ _ i b (ps_wf _ _ _ _ Hst) Hi Hb Hnil) as (g' & Hrun & Hrem).
  destruct (page_st_removed _ _ _ _ _ _ _ Hst Hrem) as [gh' Hst']. exists g', gh'. split; [done |]. split; [done |].
  by destruct Hrem as (? & ? & _ & _ & ? & ?).
Qed.

(** ** Recycling *)

Lemma gres_put_id (g : buf_catalog) i b : (g_items g).[i] = Some b -> gres_put g i b = Done g.
Proof.
  intros Hb. unfold gres_put. rewrite (arr_set_eq _ _ _ _ Hb), insertZ_id by done. cbn.
  by destruct g as [[? [] ? ?] ?].
Qed.

Lemma page_ok_range mine litems c i :
  page_ok mine litems c -> 0 <= i < pool_size ->
  exists b, (c_items c).[i] = Some b /\ gres_get (pc_res c) i = Done b.
Proof.
  intros [gh Hst] Hi. destruct (page_st_pool_range _ _ _ _ Hst) as [_ Hlen].
  destruct (lookupZ_is_Some (c_items c) i) as [b Hb]; [lia |]. exists b. split; [done | by apply arr_get_eq].
Qed.

(** Changing the pending action or the copies of whatever is in a slot now. *)
Lemma page_ok_touch mine litems c i b b' :
  page_ok mine litems c -> (c_items c).[i] = Some b -> same_place b b' -> br_convert_q b' = br_convert_q b ->
  (br_is_used b = true -> forall rs, buf_inv b rs -> buf_inv b' rs) ->
  (br_is_used b = false -> strip b = strip zero_buf_res -> b' = b) ->
  exists g', gres_put (pc_res c) i b' = Done g' /\ page_ok mine litems (pc_set_res c g').
Proof.
  intros [gh Hst] Hb Hpl Hcq Hused Hfree. destruct (br_is_used b) eqn:Hu.
  - pose proof (page_st_linked _ _ _ _ _ _ Hst Hb Hu) as Hi. destruct (gwf_ql buf_inv (ps_wf _ _ _ _ Hst) i b Hb) as [ids Hids].
    destruct (page_st_set gh mine litems c i b b' ids) as (g' & Hrun & Hst' & _); try done.
    { apply Hused; [done |]. by eapply (gw_inv _ _ _ _ (ps_wf _ _ _ _ Hst)). }
    exists g'. split; [done | by exists gh].
  - destruct (decide (i ∈ linked gh)) as [Hi | Hi].
    { destruct (gwf_ql buf_inv (ps_wf _ _ _ _ Hst) i b Hb) as [ids Hids].
      pose proof (bi_used _ _ (gw_inv _ _ _ _ (ps_wf _ _ _ _ Hst) _ _ _ Hi Hb Hids)). congruence. }
    rewrite (Hfree eq_refl) by (by eapply (gw_blank _ _ _ _ (ps_wf _ _ _ _ Hst))).
    exists (pc_res c). split; [by apply gres_put_id |]. exists gh. by destruct c.
Qed.

Lemma set_pending_inv b rs p :
  buf_inv b rs -> pending_claimable p = true -> buf_inv (set_br_pending p b) rs.
Proof. intros [] Hp. constructor; cbn; eauto. Qed.

Lemma blank_pending b : strip b = strip zero_buf_res -> set_br_pending DRC_RES_INVALID_ACTION b = b.
Proof.
  intros Hs. assert (Hp : br_pending b = DRC_RES_INVALID_ACTION).
  { pose proof (f_equal br_pending Hs) as Hp. exact Hp. }
  destruct b; cbn in *. by subst.
Qed.

Lemma page_ok_unpend mine litems c i b :
  page_ok mine litems c -> (c_items c).[i] = Some b ->
  exists g', gres_put (pc_res c) i (set_br_pending DRC_RES_INVALID_ACTION b) = Done g' /\ page_ok mine litems (pc_set_res c g').
Proof.
  intros Hok Hb. eapply page_ok_touch; try done.
  - intros _ rs Hinv. by apply set_pending_inv.
  - intros _ Hs. by apply blank_pending.
Qed.

(** Blank and hold a resource that nobody converts and no edp needs. *)
Lemma page_ok_recycle mine litems c i b :
  page_ok mine litems c -> (c_items c).[i] = Some b -> br_is_used b = true ->
  req_inst_id (converting_req b) = CT_INVALID_ID8 -> br_edp_map b = 0 ->
  exists g1 g2, gres_put (pc_res c) i (set_br_readonly_copies 0 (set_br_pending DRC_RES_INVALID_ACTION b)) = Done g1 /\
    drc_clean_page_owner_internal g1 i = Done g2 /\ br_idx b = i /\ page_ok (i :: mine) litems (pc_set_res c g2).
Proof.
  intros [gh Hst] Hb Hu Hc He. pose proof (page_st_linked _ _ _ _ _ _ Hst Hb Hu) as Hi.
  pose proof (ps_wf _ _ _ _ Hst) as Hwf. destruct (gwf_ql buf_inv Hwf i b Hb) as [ids Hids].
  pose proof (gw_inv _ _ _ _ Hwf _ _ _ Hi Hb Hids) as Hinv. pose proof (lookupZ_lt _ _ _ Hb) as Hlt.
  destruct (page_st_set gh mine litems c i b (set_br_readonly_copies 0 (set_br_pending DRC_RES_INVALID_ACTION b)) ids)
    as (g1 & Hrun1 & Hst1 & Hit1 & _); try done.
  { destruct Hinv. constructor; cbn; eauto; try done; by right. }
  destruct (page_st_clean gh mine litems (pc_set_res c g1) i (set_br_readonly_copies 0 (set_br_pending DRC_RES_INVALID_ACTION b)) ids)
    as (g2 & gh2 & Hrun2 & Hst2 & _); try done. { cbn. rewrite Hit1. by apply lookupZ_insertZ_eq. }
  exists g1, g2. split; [done |]. split; [done |]. split; [by eapply (gw_self _ _ _ _ Hwf) | by exists gh2].
Qed.

Lemma invalidate_Done e e' io k copies exc ver :
  bitmap_ok copies -> 0 <= exc -> exists st, dcs_invalidate_readonly_copy e e' io k copies exc ver = Done st.
Proof.
  intros Hc He. unfold dcs_invalidate_readonly_copy.
  destruct (Z.eqb_spec exc CT_INVALID_ID8) as [-> | Hne]; cbn [negb andb].
  - destruct (DRC_STOP_DCS_IO_FOR_REFORMING ver e k); [by eexists |].
    cbn. rewrite drc_bitmap64_exist_Done by (done || apply inst_id_ok). cbn.
    destruct (bool_decide (inst_id ∈ inst_set copies)); cbn.
    + destruct (negb _); [by eexists |].
      destruct (drc_bitmap64_clear_Done copies inst_id Hc inst_id_ok) as (m & -> & _). cbn.
      destruct (m =? 0); [by eexists |]. by destruct (DRC_STOP_DCS_IO_FOR_REFORMING ver e' k); eexists.
    + destruct (copies =? 0); [by eexists |]. by destruct (DRC_STOP_DCS_IO_FOR_REFORMING ver e' k); eexists.
  - destruct (Z.leb_spec CT_MAX_INSTANCES exc); [by eexists |].
    destruct (drc_bitmap64_clear_Done copies exc Hc) as (m0 & -> & Hm0 & _); [lia |]. cbn.
    destruct (DRC_STOP_DCS_IO_FOR_REFORMING ver e k); [by eexists |].
    rewrite drc_bitmap64_exist_Done by (done || apply inst_id_ok). cbn.
    destruct (bool_decide (inst_id ∈ inst_set m0)); cbn.
    + destruct (negb _); [by eexists |].
      destruct (drc_bitmap64_clear_Done m0 inst_id Hm0 inst_id_ok) as (m & -> & _). cbn.
      destruct (m =? 0); [by eexists |]. by destruct (DRC_STOP_DCS_IO_FOR_REFORMING ver e' k); eexists.
    + destruct (m0 =? 0); [by eexists |]. by destruct (DRC_STOP_DCS_IO_FOR_REFORMING ver e' k); eexists.
Qed.

(** While page [pagid] is being recycled, other threads leave its resource as it
    is, unless they remove it. *)
Definition keeps_pending (pagid : page_id_t) (f : page_ctx -> page_ctx) : Prop :=
  forall mine litems c i b b', page_ok mine litems c ->
    (c_items c).[i] = Some b -> br_page_id b = pagid -> br_is_used b = true -> br_pending b = DRC_RES_PENDING_ACTION ->
    (c_items (f c)).[i] = Some b' -> br_is_used b' = true -> br_page_id b' = br_page_id b ->
    br_pending b' = DRC_RES_PENDING_ACTION /\ req_inst_id (converting_req b') = req_inst_id (converting_req b) /\
    br_edp_map b' = br_edp_map b /\ br_readonly_copies b' = br_readonly_copies b /\
    br_claimed_owner b' = br_claimed_owner b.

Definition step_ok (st : recycle_step) (mine litems : list Z) (c : page_ctx) : Prop :=
  match st with
  | RReturn idx => idx <> CT_INVALID_ID32 /\ page_ok (idx :: mine) litems c
  | RNext _ | RBreak _ => page_ok mine litems c
  end.

Lemma page_ok_max mine litems c i b : page_ok mine litems c -> (c_items c).[i] = Some b -> i <> CT_INVALID_ID32.
Proof.
  intros [gh Hst] Hb. pose proof (gwf_max buf_inv (ps_wf _ _ _ _ Hst)). pose proof (lookupZ_lt _ _ _ Hb). lia.
Qed.

Lemma recycle_finish_spec e is_batch ret pos idx saved ver mine litems c b :
  page_ok mine litems c -> (c_items c).[pos] = Some b ->
  (br_is_used b = true -> br_page_id b = br_page_id saved ->
     br_pending b = DRC_RES_PENDING_ACTION /\ buf_res_is_recyclable b = true /\
     br_readonly_copies b = br_readonly_copies saved /\ br_claimed_owner b = br_claimed_owner saved) ->
  exists st g', recycle_finish e is_batch ret pos idx saved ver (pc_res c) = Done (st, g') /\
    step_ok st mine litems (pc_set_res c g').
Proof.
  intros Hok Hb Hkeep. unfold recycle_finish. assert (Hsame : pc_set_res c (pc_res c) = c) by (by destruct c).
  destruct Hok as [gh Hst]. destruct (page_st_lookup gh mine litems c (br_page_id saved) Hst) as (r & -> & _). cbn.
  assert (Hok : page_ok mine litems c) by (by exists gh). destruct r as [j |]; [| eexists _, _; split; [done |]; by rewrite Hsame].
  unfold gres_get. rewrite (arr_get_eq _ _ _ Hb). cbn.
  destruct (DRC_STOP_DCS_IO_FOR_REFORMING ver e (br_page_id b)).
  { destruct (page_ok_unpend mine litems c pos b Hok Hb) as (g' & -> & Hok'). cbn. by eexists _, _. }
  destruct (br_is_used b) eqn:Hu; cbn; [| eexists _, _; split; [done |]; by rewrite Hsame].
  destruct (is_same_page (br_page_id saved) b) eqn:Hpg; cbn; [| eexists _, _; split; [done |]; by rewrite Hsame].
  apply is_same_page_spec in Hpg. destruct (Hkeep eq_refl Hpg) as (Hp & Hr & Hcp & Hown).
  rewrite Hp, Hr, Hcp, Hown, !Z.eqb_refl. cbn. destruct ret.
  - unfold buf_res_is_recyclable in Hr. apply andb_true_iff in Hr as [Hc%Z.eqb_eq He%Z.eqb_eq].
    destruct (page_ok_recycle mine litems c pos b Hok Hb Hu Hc He) as (g1 & g2 & -> & Hrun2 & Hidx & Hok2). cbn. rewrite Hrun2. cbn.
    destruct is_batch; cbn.
    + rewrite Hidx. destruct Hok2 as [gh2 Hst2]. destruct (page_st_free gh2 pos mine litems _ Hst2) as (g3 & gh3 & Hrun3 & Hst3 & _).
      cbn in Hrun3. rewrite Hrun3. cbn. eexists _, _. split; [done |]. by exists gh3.
    + eexists _, _. split; [done |]. rewrite Hidx. split; [exact (page_ok_max _ _ _ _ _ Hok Hb) | done].
  - destruct (page_ok_unpend mine litems c pos b Hok Hb) as (g' & -> & Hok'). cbn. by eexists _, _.
Qed.

Lemma gwf_recycle_pos gh pool (g : buf_catalog) pos :
  bgwf gh pool g -> bgwf gh pool (g_set_pool g (pool_set_recycle_pos (res_pool (res_map g)) pos)).
Proof.
  intros [Hm ? ? ? ? ? ? ? ? ? ? ?]. constructor; try done. destruct Hm as [[] ? ? ? ? ? ? ?]. by constructor.
Qed.

Lemma page_ok_recycle_pos mine litems c pos :
  page_ok mine litems c ->
  page_ok mine litems (pc_set_res c (g_set_pool (pc_res c) (pool_set_recycle_pos (res_pool (res_map (pc_res c))) pos))).
Proof. intros [gh []]. exists gh. constructor; try done. by apply gwf_recycle_pos. Qed.

Lemma page_ok_alloc mine litems c :
  page_ok mine litems c ->
  exists i g', gres_alloc (pc_res c) = Done (i, g') /\ g_items g' = c_items c /\
    ((i = CT_INVALID_ID32 /\ page_ok mine litems (pc_set_res c g')) \/
     (i <> CT_INVALID_ID32 /\ page_ok (i :: mine) litems (pc_set_res c g'))).
Proof.
  intros [gh Hst]. destruct (page_st_alloc gh mine litems c Hst) as (i & g' & Hrun & _ & Hit & Hcase).
  exists i, g'. split; [done |]. split; [done |]. destruct Hcase as [(-> & _ & ->) | (Hne & gh' & Hst' & _)].
  - left. split; [done |]. exists gh. by destruct c.
  - right. split; [done |]. by exists gh'.
Qed.

Lemma owner_nonneg b rs : buf_inv b rs -> 0 <= br_claimed_owner b.
Proof. intros []. unfold inst_ok, CT_INVALID_ID8 in *. lia. Qed.

(** From the locked checks of one iteration to its end. *)
Lemma recycle_pend_spec (w : world) is_batch pos idx ver mine litems c b :
  world_ok w -> keeps_pending (br_page_id b) (wd_win w (S_page (br_page_id b) S_invalidate)) -> page_ok mine litems c -> (c_items c).[pos] = Some b ->
  br_is_used b = true -> buf_res_is_recyclable b = true ->
  exists st c', recycle_pend w is_batch pos idx ver b c = Done (st, c') /\ step_ok st mine litems c'.
Proof.
  intros Hw Hkp Hok Hb Hu Hr. unfold recycle_pend. destruct Hok as [gh Hst].
  pose proof (page_st_linked _ _ _ _ _ _ Hst Hb Hu) as Hi. pose proof (ps_wf _ _ _ _ Hst) as Hwf.
  destruct (gwf_ql buf_inv Hwf pos b Hb) as [ids Hids]. pose proof (gw_inv _ _ _ _ Hwf _ _ _ Hi Hb Hids) as Hinv.
  pose proof (lookupZ_lt _ _ _ Hb) as Hlt. pose proof Hr as [Hc%Z.eqb_eq He%Z.eqb_eq]%andb_true_iff.
  destruct (page_st_set gh mine litems c pos b (set_br_pending DRC_RES_PENDING_ACTION b) ids) as (g1 & -> & Hst1 & Hit1 & _); try done.
  { destruct Hinv. constructor; cbn; eauto. }
  cbn. destruct (invalidate_Done (wd_env w S_invalidate) (wd_env w S_invalidate2) (wd_io w S_invalidate) (br_page_id b)
    (br_readonly_copies b) (br_claimed_owner b) ver) as [ret ->]; [apply Hinv | by eapply owner_nonneg |]. cbn.
  assert (Hok1 : page_ok mine litems (pc_set_res c g1)) by (by exists gh).
  assert (Hb1 : (c_items (pc_set_res c g1)).[pos] = Some (set_br_pending DRC_RES_PENDING_ACTION b)).
  { cbn. rewrite Hit1. by apply lookupZ_insertZ_eq. }
  set (c2 := wd_win w (S_page (br_page_id b) S_invalidate) (pc_set_res c g1)).
  assert (Hok2 : page_ok mine litems c2) by (by apply Hw).
  assert (Hrange : 0 <= pos < pool_size).
  { by destruct (page_st_pool_range _ _ _ _ Hst) as [_ <-]. }
  destruct (page_ok_range mine litems c2 pos Hok2 Hrange) as (b2 & Hb2 & _).
  destruct (recycle_finish_spec (wd_env w S_relocked) is_batch
    (match ret with CT_ERROR => CT_ERROR | CT_SUCCESS => dcs_invalidate_page_owner (wd_io w S_invalidate2) (br_page_id b)
       (br_claimed_owner b) ver end) pos idx b ver mine litems c2 b2 Hok2 Hb2)
    as (st & g' & -> & Hst').
  - intros Hu2 Hpg2. destruct (Hkp mine litems (pc_set_res c g1) pos _ b2 Hok1 Hb1) as (Hp2 & Hc2 & He2 & Hcp2 & Ho2); try done.
    split; [done |]. split; [| done]. unfold buf_res_is_recyclable. rewrite Hc2, He2. done.
  - cbn. by eexists _, _.
Qed.

Lemma recycle_iter_spec (w : world) now is_batch idx mine litems c :
  world_ok w -> (forall pagid, keeps_pending pagid (wd_win w (S_page pagid S_invalidate))) -> page_ok mine litems c ->
  exists st c', recycle_iter w now is_batch idx c = Done (st, c') /\ step_ok st mine litems c'.
Proof.
  intros Hw Hkp Hok. unfold recycle_iter. set (p := res_pool (res_map (pc_res c))).
  set (pos := u32 (recycle_pos p + 1) mod item_num p).
  assert (Hpos : 0 <= pos < pool_size).
  { destruct Hok as [gh Hst]. destruct (page_st_pool_range _ _ _ _ Hst) as [Hn _].
    destruct (ps_size _ _ _ _ Hst) as [_ Hp]. rewrite <- Hn in Hp |- *. by apply Z.mod_pos_bound. }
  apply (page_ok_recycle_pos _ _ _ pos) in Hok. fold p in Hok. set (c1 := pc_set_res c (g_set_pool (pc_res c) (pool_set_recycle_pos p pos))) in *.
  assert (Hstep : exists idx1 g1, (if negb is_batch && negb (free_list p =? CT_INVALID_ID32) then gres_alloc (pc_res c1)
      else Done (idx, pc_res c1)) = Done (idx1, g1) /\
    ((negb is_batch && negb (free_list p =? CT_INVALID_ID32) && negb (idx1 =? CT_INVALID_ID32) = true /\
      idx1 <> CT_INVALID_ID32 /\ page_ok (idx1 :: mine) litems (pc_set_res c1 g1)) \/
     (negb is_batch && negb (free_list p =? CT_INVALID_ID32) && negb (idx1 =? CT_INVALID_ID32) = false /\
      page_ok mine litems (pc_set_res c1 g1)))).
  { destruct (negb is_batch && negb (free_list p =? CT_INVALID_ID32)) eqn:Hf.
    - destruct (page_ok_alloc mine litems c1 Hok) as (i & g1 & -> & _ & [(-> & Hok1) | (Hne & Hok1)]).
      + eexists _, _. split; [done |]. right. split; [by rewrite Z.eqb_refl | done].
      + eexists _, _. split; [done |]. left. split; [by rewrite (proj2 (Z.eqb_neq _ _) Hne) | done].
    - eexists _, _. split; [done |]. right. split; [done |]. by destruct c1. }
  destruct Hstep as (idx1 & g1 & -> & Hcase). cbn [mbind outcome_bind].
  destruct Hcase as [(-> & Hne & Hok1) | (-> & Hok1)]; [by eexists _, _ |].
  set (c2 := pc_set_res c1 g1) in *. destruct (page_ok_range mine litems c2 pos Hok1 Hpos) as (b & Hb & ->). cbn [mbind outcome_bind].
  destruct (negb (BUF_RES_IS_OLD b now) || negb (buf_res_is_recyclable b)); [by eexists _, _ |].
  assert (Hok3 : page_ok mine litems (wd_win w S_entry c2)) by (by apply Hw).
  destruct (page_ok_range mine litems _ pos Hok3 Hpos) as (b3 & Hb3 & ->). cbn [mbind outcome_bind].
  destruct (br_is_used b3) eqn:Hu3; cbn [negb]; [| rewrite orb_true_r; by eexists _, _].
  destruct (buf_res_is_recyclable b3) eqn:Hr3; cbn [negb]; [| rewrite orb_true_r; by eexists _, _].
  destruct (negb (br_pending b3 =? DRC_RES_INVALID_ACTION)); cbn [orb]; [by eexists _, _ |].
  destruct (DRC_STOP_DCS_IO_FOR_REFORMING _ _ _); [by eexists _, _ |]. by apply recycle_pend_spec.
Qed.

(** The windows of the recycle loop protect the resource being recycled. *)
Definition recycle_ok (w : world) : Prop := world_ok w /\ forall n pagid, keeps_pending pagid (wd_win w (S_loop n (S_page pagid S_invalidate))).

Lemma recycle_loop_spec (w : world) now n is_batch idx mine litems c :
  recycle_ok w -> page_ok mine litems c ->
  exists ret idx' c', recycle_loop w now n is_batch idx c = Done (ret, idx', c') /\
    (if (ret : bool) then idx' <> CT_INVALID_ID32 /\ page_ok (idx' :: mine) litems c' else page_ok mine litems c').
Proof.
  intros [Hw Hkp]. revert idx c. induction n as [| n IH]; intros idx c Hok; cbn [recycle_loop]; [by eexists _, _, _ |].
  destruct (recycle_iter_spec (world_iter w n) now is_batch idx mine litems c) as (st & c1 & -> & Hst);
    [by apply world_iter_ok | apply Hkp | done |].
  cbn. destruct st; cbn in Hst; [by apply IH | by eexists _, _, _ | by eexists _, _, _].
Qed.

Lemma recycle_items_spec (w : world) mine litems c :
  recycle_ok w -> page_ok mine litems c ->
  exists idx c', drc_recycle_items w false c = Done (idx, c') /\
    ((idx = CT_INVALID_ID32 /\ page_ok mine litems c') \/ (idx <> CT_INVALID_ID32 /\ page_ok (idx :: mine) litems c')).
Proof.
  intros Hw Hok. unfold drc_recycle_items.
  destruct (recycle_loop_spec w (dtc_now (wd_env w S_entry)) (Z.to_nat (item_num (res_pool (res_map (pc_res c))))) false CT_INVALID_ID32 mine litems c Hw Hok)
    as (ret & idx & c1 & -> & Hret). cbn. destruct ret; cbn.
  - eexists _, _. split; [done |]. by right.
  - destruct (page_ok_alloc mine litems c1 Hret) as (i & g1 & -> & _ & Hcase). cbn. by eexists _, _.
Qed.

(** ** Requests *)

Lemma new_buf_inv pagid r idx old n :
  inst_ok (req_inst_id r) -> buf_inv (set_part_and_node pagid idx (set_br_next n (new_buf_res pagid r idx old))) [].
Proof. intros Hr. constructor; cbn; eauto; try done; try (by left); try (by right). Qed.

Lemma request_insert_spec e pagid r idx gh mine litems c :
  page_st gh (idx :: mine) litems c -> inst_ok (req_inst_id r) ->
  (forall i b, i ∈ linked gh -> (c_items c).[i] = Some b -> br_page_id b <> pagid) ->
  exists g' gh', request_insert e pagid r idx (pc_res c) =
      Done (if DRC_STOP_DCS_IO_FOR_REFORMING (req_version r) e pagid then CT_ERROR else CT_SUCCESS, g') /\
    page_st gh' mine litems (pc_set_res c g') /\
    if DRC_STOP_DCS_IO_FOR_REFORMING (req_version r) e pagid
    then forall k, res_view (pc_pool c) g' k = res_view (pc_pool c) (pc_res c) k
    else view_but pagid (pc_pool c) (pc_res c) (pc_pool c) g' /\
         exists b, res_view (pc_pool c) g' pagid = Some (strip b, []) /\ br_claimed_owner b = req_inst_id r /\
           br_mode b = req_mode r /\ br_readonly_copies b = 0 /\ req_inst_id (converting_req b) = CT_INVALID_ID8.
Proof.
  intros Hst Hr Hnew. pose proof (ps_wf _ _ _ _ Hst) as Hwf. destruct (ps_held _ _ _ _ Hst) as (o & lo & Ho & Hlo & HQ). pose proof (ps_size _ _ _ _ Hst) as Hsz. cbn in Ho.
  assert (Hih : idx ∈ gg_free gh ++ gg_held gh) by (rewrite Ho; set_solver).
  destruct (gwf_held_item buf_inv buf_inv_strip _ _ _ _ Hwf Hih) as [old Hold].
  unfold request_insert, gres_get. rewrite (arr_get_eq _ _ _ Hold). cbn [mbind outcome_bind].
  destruct (gwf_map_add buf_inv buf_inv_strip gh (pc_pool c) (pc_res c) idx pagid (new_buf_res pagid r idx old) (mine ++ o))
    as (g0 & g1 & bl' & n & -> & Hadd & Hhl); try done.
  cbn [mbind outcome_bind]. rewrite Hadd. cbn [mbind outcome_bind].
  rewrite (arr_get_eq _ _ _ (hl_item _ _ _ _ _ _ _ _ _ _ Hhl)). cbn [mbind outcome_bind].
  set (b1 := set_part_and_node pagid idx (set_item_next n (new_buf_res pagid r idx old))).
  destruct (half_linked_put buf_inv buf_inv_strip _ _ _ _ _ _ _ _ _ b1 Hhl) as [-> Hhl2]; try done. cbn [mbind outcome_bind].
  set (g2 := g_set_items g1 ((g_items g1).[idx <- b1])) in *.
  pose proof (hl_bl _ _ _ _ _ _ _ _ _ _ Hhl2) as Hbl. rewrite !length_app, (Permutation_length Ho) in Hsz. cbn in Hsz.
  destruct (DRC_STOP_DCS_IO_FOR_REFORMING (req_version r) e pagid).
  - destruct (gwf_insert_undo buf_inv buf_inv_strip _ _ _ _ _ _ _ _ _ Hhl2) as (g3 & g4 & g5 & bl2 & -> & Hput & Hfree & Hwf5 & Hbl2 & Hv).
    cbn [mbind outcome_bind]. change (item_zero : drc_buf_res) with zero_buf_res in Hput |- *. rewrite Hput. cbn [mbind outcome_bind]. rewrite Hfree. cbn.
    eexists g5, _. split; [done |]. split; [| done]. constructor; cbn; [done | by exists o, lo |].
    cbn. rewrite !length_app, (Permutation_length Hbl2). cbn. rewrite length_app in *. lia.
  - destruct (gwf_insert buf_inv buf_inv_strip _ _ _ _ _ _ _ _ _ Hhl2) as (g3 & pl' & -> & Hwf3 & Hv & Hvk); try done.
    { by apply new_buf_inv. }
    cbn. eexists g3, _. split; [done |]. split.
    + constructor; cbn; [done | by exists o, lo |].
      cbn. rewrite !length_app, (Permutation_length Hbl). cbn. rewrite length_app in *. lia.
    + split; [done |]. exists b1. done.
Qed.

(** A conversion of page [pagid] that has begun does not end meanwhile. *)
Definition keeps_converting (pagid : page_id_t) (f : page_ctx -> page_ctx) : Prop :=
  forall mine litems c i b, page_ok mine litems c -> (c_items c).[i] = Some b -> br_page_id b = pagid -> br_is_used b = true ->
    req_inst_id (converting_req b) <> CT_INVALID_ID8 ->
    exists b', (c_items (f c)).[i] = Some b' /\ br_is_used b' = true /\ br_page_id b' = br_page_id b /\
      req_inst_id (converting_req b') <> CT_INVALID_ID8.

Lemma page_ok_drop_copies mine litems c i b :
  page_ok mine litems c -> (c_items c).[i] = Some b -> br_is_used b = true ->
  req_inst_id (converting_req b) <> CT_INVALID_ID8 ->
  exists g', gres_put (pc_res c) i (set_br_readonly_copies 0 b) = Done g' /\ page_ok mine litems (pc_set_res c g').
Proof.
  intros Hok Hb Hu Hc. eapply page_ok_touch; try done; [| by rewrite Hu].
  intros _ rs Hinv. pose proof (bi_owned _ _ Hinv Hc). destruct Hinv. by constructor; cbn; eauto.
Qed.

Lemma invalidate_copies_ok w pagid copies exc ver i b mine litems c :
  world_ok w -> keeps_converting pagid (wd_win w S_invalidate) -> page_ok mine litems c -> (c_items c).[i] = Some b -> br_page_id b = pagid ->
  br_is_used b = true -> req_inst_id (converting_req b) <> CT_INVALID_ID8 -> bitmap_ok copies -> 0 <= exc ->
  exists ret c', invalidate_copies w pagid copies exc ver i c = Done (ret, c') /\ page_ok mine litems c'.
Proof.
  intros Hw Hkc Hok Hb Hpg Hu Hc Hbm Hexc. unfold invalidate_copies.
  destruct (invalidate_Done (wd_env w S_invalidate) (wd_env w S_invalidate2) (wd_io w S_invalidate) pagid copies exc ver) as [ret ->];
    [done | done |]. cbn [mbind outcome_bind].
  assert (Hok1 : page_ok mine litems (wd_win w S_invalidate c)) by (by apply Hw).
  destruct (Hkc _ _ _ i b Hok Hb Hpg) as (b1 & Hb1 & Hu1 & _ & Hc1); [done | done |].
  destruct (page_ok_drop_copies _ _ _ _ _ Hok1 Hb1 Hu1 Hc1) as (g2 & Hrun2 & Hok2).
  destruct ret; [| by eexists _, _]. unfold gres_get. rewrite (arr_get_eq _ _ _ Hb1). cbn [mbind outcome_bind].
  rewrite Hrun2. cbn. by eexists _, _.
Qed.

Definition slot_list (free_slot : option Z) : list Z := match free_slot with Some idx => [idx] | None => [] end.

Lemma free_slot_spec free_slot mine litems c :
  page_ok (slot_list free_slot ++ mine) litems c ->
  exists g', free_slot_item free_slot (pc_res c) = Done g' /\ page_ok mine litems (pc_set_res c g').
Proof.
  destruct free_slot as [idx |]; cbn; intros Hok.
  - destruct Hok as [gh Hst]. destruct (page_st_free gh idx mine litems c Hst) as (g' & gh' & Hrun & Hst' & _).
    exists g'. split; [done | by exists gh'].
  - exists (pc_res c). split; [done |]. by destruct c.
Qed.

Lemma request_allocated_spec w pagid r is_try res i free_slot mine litems c :
  world_ok w -> keeps_converting pagid (wd_win w S_invalidate) -> inst_ok (req_inst_id r) ->
  page_ok (slot_list free_slot ++ mine) litems c -> gres_lookup (pc_res c) pagid = Done (Some i) ->
  exists st r' res' c', request_allocated w pagid r is_try res i free_slot c = Done (st, r', res', c') /\
    page_ok mine litems c'.
Proof.
  intros Hw Hkc Hr [gh Hst] Hl. destruct (page_st_lookup _ _ _ _ pagid Hst) as (x & Hx & Hcase).
  rewrite Hl in Hx. injection Hx as <-. destruct Hcase as (Hi & b & ids & Hget & Hb & Hids & Hk & Hinv & Hq).
  unfold request_allocated. rewrite Hget. cbn [mbind outcome_bind].
  destruct (request_decide_spec (wd_env w S_clean) pagid r is_try res b (pc_pool c) _ ids _ _ Hinv Hr Hq eq_refl)
    as (out & r' & res' & b' & pool' & fl' & ids' & -> & Hq' & Hfr & Hpl & Hinv' & Hrule & Hr' & Hcv).
  cbn [mbind outcome_bind].
  destruct (page_st_update gh _ litems c i b b' ids ids' pool' fl' [] Hst Hi Hb Hids Hpl Hq' Hfr Hinv')
    as (g' & -> & Hst' & Hit' & _). cbn [mbind outcome_bind].
  assert (Hok' : page_ok (slot_list free_slot ++ mine) litems (mk_pctx pool' g')) by (by eexists).
  destruct out as [can_cvt |].
  - destruct (can_cvt && negb (rs_readonly_copies res' =? 0) && (req_mode r' =? DRC_LOCK_EXCLUSIVE)) eqn:Hcond.
    + apply andb_true_iff in Hcond as [[-> _]%andb_true_iff _]. destruct (Hcv eq_refl) as [Hres Hconv].
      destruct Hres as (_ & _ & _ & _ & Hrc & _). pose proof (inst_ok_ne _ Hr) as Hne.
      assert (Hb' : (c_items (mk_pctx pool' g')).[i] = Some b').
      { cbn. rewrite Hit'. apply lookupZ_insertZ_eq. by eapply lookupZ_lt. }
      destruct (invalidate_copies_ok w pagid (rs_readonly_copies res') (req_inst_id r') (req_version r') i b' _ _ _ Hw Hkc Hok' Hb')
        as (ret & c1 & -> & Hok1); [by destruct Hpl as (_ & _ & -> & _) | apply Hinv' | by rewrite Hconv, Hr' | done | rewrite Hr'; apply Hr |].
      cbn [mbind outcome_bind]. destruct (free_slot_spec free_slot mine litems c1 Hok1) as (g3 & -> & Hok3).
      cbn. by eexists _, _, _, _.
    + destruct (free_slot_spec free_slot mine litems _ Hok') as (g3 & Hrun3 & Hok3). cbn in Hrun3. rewrite Hrun3. cbn.
      by eexists _, _, _, _.
  - destruct (free_slot_spec free_slot mine litems _ Hok') as (g3 & Hrun3 & Hok3). cbn in Hrun3. rewrite Hrun3. cbn.
    by eexists _, _, _, _.
Qed.

(** ** Claims *)

Lemma drop_conflict_spec cid extra mine litems c :
  page_ok mine (extra ++ litems) c ->
  (cid = CT_INVALID_ID32 /\ extra = []) \/ (extra = [cid] /\ cid <> CT_INVALID_ID32) ->
  exists msgs pool', drop_conflict cid (pc_pool c) = Done (msgs, pool') /\ page_ok mine litems (mk_pctx pool' (pc_res c)).
Proof.
  intros [gh Hst] [[-> ->] | [-> Hne]]; unfold drop_conflict.
  - rewrite Z.eqb_refl. eexists _, _. split; [done |]. exists gh. by destruct c.
  - rewrite (proj2 (Z.eqb_neq _ _) Hne). destruct Hst as [Hwf (o & lo & Ho & Hlo & HQ) Hsz].
    destruct (gwf_free_item buf_inv buf_inv_strip gh _ _ cid (litems ++ lo) Hwf) as (it & pool' & Hit & Hrun & Hwf' & _); [by rewrite Hlo |].
    unfold DRC_GET_RES_ADDR_BY_ID. rewrite (arr_get_eq _ _ _ Hit). cbn. rewrite Hrun. cbn. eexists _, _. split; [done |].
    eexists. constructor; cbn; [done | by exists o, lo | done].
Qed.

Lemma dropped_item_cases b items rs cid extra :
  dropped_item b items rs cid extra -> (cid = CT_INVALID_ID32 /\ extra = []) \/ (extra = [cid] /\ cid <> CT_INVALID_ID32).
Proof. intros [(-> & -> & _) | (-> & Hne & _)]; [by left | by right]. Qed.

(** ** The handlers *)

Lemma request_page_owner_ok w pagid r is_try res0 mine litems c :
  recycle_ok w -> keeps_converting pagid (wd_win w S_invalidate) -> 0 <= req_inst_id r -> page_ok mine litems c ->
  exists st r' res c', drc_request_page_owner w pagid r is_try res0 c = Done (st, r', res, c') /\ page_ok mine litems c'.
Proof.
  intros Hrec Hkc Hr Hok. pose proof (proj1 Hrec) as Hw. unfold drc_request_page_owner. cbn [req_inst_id req_set_result req_version].
  destruct (Z.leb_spec CT_MAX_INSTANCES (req_inst_id r)) as [| Hlt]; cbn [orb]; [by eexists _, _, _, _ |].
  destruct (IS_INVALID_PAGID pagid); [by eexists _, _, _, _ |].
  destruct (negb (dtc_dcs_readable (wd_env w S_entry) pagid)); [by eexists _, _, _, _ |].
  destruct (DRC_STOP_DCS_IO_FOR_REFORMING (req_version r) (wd_env w S_locked) pagid); [by eexists _, _, _, _ |].
  pose proof Hok as [gh Hst]. destruct (page_st_lookup _ _ _ _ pagid Hst) as (found & Hl & _). rewrite Hl. cbn [mbind outcome_bind].
  destruct found as [i |].
  { eapply (request_allocated_spec w pagid _ is_try _ i None); try done. }
  assert (Hok1 : page_ok mine litems (wd_win w S_before_alloc c)) by (by apply Hw).
  destruct (page_ok_alloc mine litems _ Hok1) as (idx & g1 & -> & _ & Hcase). cbn [mbind outcome_bind].
  set (c1 := pc_set_res (wd_win w S_before_alloc c) g1) in *.
  assert (Hstep : exists idx2 c2, (if idx =? CT_INVALID_ID32 then drc_recycle_items w false c1 else Done (idx, c1)) = Done (idx2, c2) /\
    ((idx2 = CT_INVALID_ID32 /\ page_ok mine litems c2) \/ (idx2 <> CT_INVALID_ID32 /\ page_ok (idx2 :: mine) litems c2))).
  { destruct Hcase as [(-> & Hok2) | (Hne & Hok2)].
    - rewrite Z.eqb_refl. by apply recycle_items_spec.
    - rewrite (proj2 (Z.eqb_neq _ _) Hne). eexists _, _. split; [done |]. by right. }
  destruct Hstep as (idx2 & c2 & -> & [(-> & Hok2) | (Hne & Hok2)]); cbn [mbind outcome_bind].
  { rewrite Z.eqb_refl. by eexists _, _, _, _. }
  rewrite (proj2 (Z.eqb_neq _ _) Hne). set (c3 := wd_win w S_after_alloc c2).
  assert (Hok3 : page_ok (idx2 :: mine) litems c3) by (by apply Hw). pose proof Hok3 as [gh3 Hst3].
  destruct (page_st_lookup _ _ _ _ pagid Hst3) as (found3 & Hl3 & Hcase3). rewrite Hl3. cbn [mbind outcome_bind].
  destruct found3 as [i |].
  { eapply (request_allocated_spec w pagid _ is_try _ i (Some idx2)); try done. }
  destruct (DRC_STOP_DCS_IO_FOR_REFORMING (req_version r) (wd_env w S_relocked) pagid).
  { destruct (page_st_free _ _ _ _ _ Hst3) as (g4 & gh4 & -> & Hst4 & _). cbn. eexists _, _, _, _. split; [done |]. by exists gh4. }
  destruct (request_insert_spec (wd_env w S_listed) pagid (req_set_result DRC_REQ_OWNER_WAITING r) idx2 gh3 mine litems c3) as (g4 & gh4 & -> & Hst4 & _);
    [done | done | done |].
  cbn. assert (Hok4 : page_ok mine litems (pc_set_res c3 g4)) by (by exists gh4).
  destruct (DRC_STOP_DCS_IO_FOR_REFORMING _ _ _); by eexists _, _, _, _.
Qed.

Lemma claim_page_owner_ok w ci cvt0 mine litems c :
  world_ok w -> keeps_converting (cl_page_id ci) (wd_win w S_invalidate) -> keeps_converting (cl_page_id ci) (wd_win w S_unlocked) -> page_ok mine litems c ->
  exists cvt msgs c', drc_claim_page_owner w ci cvt0 c = Done (cvt, msgs, c') /\ page_ok mine litems c'.
Proof.
  intros Hw Hkc Hkc2 [gh Hst]. unfold drc_claim_page_owner.
  set (cvt1 := mk_cvt _ _ _ _ _ _ _ _ _ _).
  destruct (page_st_lookup _ _ _ _ (cl_page_id ci) Hst) as (found & -> & Hcase). cbn [mbind outcome_bind].
  destruct found as [i |]; [| eexists _, _, _; split; [done |]; by exists gh].
  destruct Hcase as (Hi & b & ids & -> & Hb & Hids & Hk & Hinv & Hq). cbn [mbind outcome_bind].
  destruct (claim_decide_spec (dtc_now (wd_env w S_locked)) ci cvt1 b (pc_pool c) _ ids _ _ Hinv Hq eq_refl)
    as (out & b' & pool' & fl' & ids' & extra & -> & Hq' & Hfr & Hpl & Hinv' & Hout). cbn [mbind outcome_bind].
  destruct (page_st_update gh mine litems c i b b' ids ids' pool' fl' extra Hst Hi Hb Hids Hpl Hq' Hfr Hinv')
    as (g' & -> & Hst' & Hit' & _). cbn [mbind outcome_bind].
  assert (Hok' : page_ok mine (extra ++ litems) (mk_pctx pool' g')) by (by eexists).
  destruct out as [[cid cvt] |].
  2: { destruct Hout as (_ & _ & _ & _ & _ & ->). by eexists _, _, _. }
  destruct Hout as (_ & b1 & Hrule & Hkept & Hco & _ & Hnext).
  assert (Hcid : (cid = CT_INVALID_ID32 /\ extra = []) \/ (extra = [cid] /\ cid <> CT_INVALID_ID32)).
  { destruct (next_req _ _) as [[r rs1] |]; [destruct Hnext as (_ & _ & _ & Hd); by eapply dropped_item_cases | left; tauto]. }
  destruct (drop_conflict_spec cid extra mine litems (wd_win w S_unlocked (mk_pctx pool' g'))) as (msgs & pool2 & -> & Hok2);
    [by apply Hw | done |]. cbn [mbind outcome_bind]. set (c2 := mk_pctx pool2 _) in *.
  destruct (negb (cv_req_id cvt =? CT_INVALID_ID8) && negb (cv_readonly_copies cvt =? 0) && (cv_req_mode cvt =? DRC_LOCK_EXCLUSIVE)) eqn:Hcond;
    [| by eexists _, _, _].
  apply andb_true_iff in Hcond as [[Hid%negb_true_iff%Z.eqb_neq _]%andb_true_iff _].
  destruct (next_req _ _) as [[r rs1] |]; [| destruct Hnext as (_ & _ & _ & _ & E); by rewrite E in Hid].
  destruct Hnext as (Hr & _ & (_ & Hrid & _ & _ & _ & _ & _ & _ & _ & Hrc & _) & _).
  assert (Hrok : inst_ok (req_inst_id r)).
  { destruct (bi_conv _ _ Hinv') as [E | E]; rewrite Hr in E; [| done]. by rewrite Hrid in Hid. }
  assert (Hb' : (c_items (mk_pctx pool' g')).[i] = Some b').
  { cbn. rewrite Hit'. apply lookupZ_insertZ_eq. by eapply lookupZ_lt. }
  assert (Hkb : br_page_id b' = cl_page_id ci) by (by destruct Hpl as (_ & _ & -> & _)).
  destruct (Hkc2 _ _ _ i b' Hok' Hb' Hkb) as (b2 & Hb2 & Hu2 & Hk2 & Hc2); [apply Hinv' | rewrite Hr; by apply inst_ok_ne |].
  destruct (invalidate_copies_ok w (cl_page_id ci) (cv_readonly_copies cvt) (cv_req_id cvt) (cv_req_version cvt) i b2 mine litems c2)
    as (ret & c3 & -> & Hok3); try done; [congruence | rewrite Hrid; apply Hrok |]. by eexists _, _, _.
Qed.
End page.
