(* ===== verification/PageFun.v ===== *)
(** * What the page handlers do

    The theorems on the page catalog: safety of every handler under
    interference, and the effect of each handler on the abstract view
    [res_view] (page to resource and waiting requests).  In the functional
    theorems the windows of a handler are the identity ([quiet]).
    Source: src/pkg/src/cluster/dtc_drc.c. *)

From stdpp Require Import prelude list gmap.
From S2P Require Import Prelude Bitmap ResPool DrcList ResMap ConvertQ GlobalRes DrcTypes DrcPage PageInv PageProps.

Open Scope Z_scope.
Open Scope drc_scope.

(** No other thread runs in the windows of the handler. *)
Definition quiet (w : world) : Prop := forall s c, wd_win w s c = c.

Abbreviation page_view c k := (res_view (pc_pool c) (pc_res c) k).
Abbreviation same_but k c c' := (view_but k (pc_pool c) (pc_res c) (pc_pool c') (pc_res c')).

Section page_fun.
Context `{KernelAttr} (pool_size : Z) (Q : list Z -> list Z -> Prop).
Abbreviation page_ok := (page_ok pool_size Q).
Abbreviation page_st := (page_st pool_size Q).
Abbreviation c_items c := (g_items (pc_res c)).

(** What a lookup finds, by the view. *)
Lemma page_view_cases mine litems c k :
  page_ok mine litems c ->
  match page_view c k with
  | None => gres_lookup (pc_res c) k = Done None
  | Some (bv, rs) => exists gh i b ids, page_st gh mine litems c /\ gres_lookup (pc_res c) k = Done (Some i) /\
      i ∈ linked gh /\ gres_get (pc_res c) i = Done b /\ (c_items c).[i] = Some b /\ (gg_ql gh).[i] = Some ids /\
      br_page_id b = k /\ bv = strip b /\ rs = queue_reqs (addr (pc_pool c)) ids /\ buf_inv b rs /\
      queue_wf (pc_pool c) (gg_lfree gh) (br_convert_q b) ids (concat ((gg_ql gh).[i <- []]) ++ gg_lrest gh)
  end.
Proof.
  intros [gh Hst]. pose proof (ps_wf _ _ _ _ _ _ Hst) as Hwf. pose proof (gwf_view buf_inv Hwf k) as Hv.
  destruct (page_view c k) as [[bv rs] |]; [| by destruct Hv].
  destruct Hv as (i & b & ids & Hl & Hi & Hb & Hids & Hk & -> & ->). exists gh, i, b, ids.
  split_and!; try done; [by apply arr_get_eq | by eapply gw_inv | by eapply (gwf_queue buf_inv Hwf)].
Qed.

(** ** Release *)

Definition releasable (old_id : Z) (b : drc_buf_res) : Prop :=
  br_claimed_owner b = old_id /\ req_inst_id (converting_req b) = CT_INVALID_ID8 /\ br_edp_map b = 0.

#[local] Instance releasable_dec old_id b : Decision (releasable old_id b).
Proof. unfold releasable. apply _. Defined.

Lemma release_page_owner_spec old_id pagid mine litems c :
  page_ok mine litems c ->
  match page_view c pagid with
  | None => drc_release_page_owner old_id pagid c = Crash KnlPanic
  | Some (b, rs) =>
      exists released c', drc_release_page_owner old_id pagid c = Done (released, c') /\ page_ok mine litems c' /\
        if decide (releasable old_id b)
        then released = true /\ page_view c' pagid = None /\ same_but pagid c c'
        else c' = c /\ released = bool_decide (old_id <> br_claimed_owner b /\ old_id <> req_inst_id (converting_req b))
  end.
Proof.
  intros Hok. pose proof (page_view_cases _ _ _ pagid Hok) as Hv. unfold drc_release_page_owner.
  destruct (page_view c pagid) as [[bv rs] |]; [| by rewrite Hv].
  destruct Hv as (gh & i & b & ids & Hst & -> & Hi & Hget & Hb & Hids & Hk & -> & -> & Hinv & _). cbn [mbind outcome_bind].
  rewrite Hget. cbn [mbind outcome_bind].
  destruct (Z.eqb_spec old_id (br_claimed_owner b)) as [Ho | Ho]; cbn [negb].
  2: { eexists _, c. split; [done |]. split; [done |]. rewrite decide_False by (intros (E & _); cbn in E; congruence).
       split; [done |]. change (converting_req (strip b)) with (converting_req b). change (br_claimed_owner (strip b)) with (br_claimed_owner b).
       destruct (Z.eqb_spec old_id (req_inst_id (converting_req b))); case_bool_decide; naive_solver. }
  destruct (Z.eqb_spec (req_inst_id (converting_req b)) CT_INVALID_ID8) as [Hc | Hc]; cbn [negb orb];
    [destruct (Z.eqb_spec (br_edp_map b) 0) as [He | He]; cbn [negb orb] |].
  2, 3: exists false, c; split; [done |]; split; [done |]; rewrite decide_False by (intros (E1 & E2 & E3); done);
    split; [done |]; case_bool_decide; naive_solver.
  pose proof (queue_empty _ _ _ _ _ _ _ _ _ Hst Hi Hb Hids Hc) as Hnil.
  destruct (gwf_release buf_inv buf_inv_strip gh _ _ i b (ps_wf _ _ _ _ _ _ Hst) Hi Hb Hnil) as (g1 & g2 & g3 & b2 & -> & Hrm & Hget2 & Hidx & Hput & Hrem).
  cbn [mbind outcome_bind]. cbn in Hrm. rewrite Hk in Hrm. rewrite Hrm. cbn [mbind outcome_bind]. rewrite Hget2. cbn [mbind outcome_bind].
  rewrite Hput. cbn [mbind outcome_bind]. cbn in Hidx. rewrite Hidx.
  destruct (page_st_removed _ _ _ _ _ _ _ _ _ Hst Hrem) as [gh1 Hst1].
  destruct (page_st_free _ _ _ _ _ _ _ Hst1) as (g4 & gh2 & Hfree & Hst2 & Hv2). cbn in Hfree. rewrite Hfree. cbn [mbind outcome_bind].
  eexists _, _. split; [done |]. split; [by exists gh2 |]. rewrite decide_True by done.
  destruct Hrem as (_ & _ & _ & _ & Hbut & Hnone). cbn in Hbut, Hnone. rewrite Hk in Hbut, Hnone.
  split; [done |]. split; [by etransitivity; [apply Hv2 |] |]. intros k Hk'. etransitivity; [apply Hv2 | by apply Hbut].
Qed.

(** ** Claim *)

Lemma claim_rule_strip ci b b1 : claim_rule ci b b1 -> claim_rule ci (strip b) (strip b1).
Proof. intros [? ? -> | |]; [by apply C_already | by apply C_share | by apply C_exclusive]. Qed.

Lemma conv_only_strip b b1 : conv_only b b1 -> conv_only (strip b) (strip b1).
Proof. unfold conv_only. intros E. rewrite E. by destruct b, b1. Qed.

Lemma claim_applies_strip ci b : claim_applies ci (strip b) <-> claim_applies ci b.
Proof. done. Qed.

Lemma page_st_drop gh mine litems c cid extra b rs :
  page_st gh mine (extra ++ litems) c -> dropped_item b (addr (pc_pool c)) rs cid extra ->
  exists gh' pool' gone, drop_conflict cid (pc_pool c) = Done (error_to <$> gone, pool') /\
    page_st gh' mine litems (mk_pctx pool' (pc_res c)) /\ gg_bl gh' = gg_bl gh /\ gg_ql gh' = gg_ql gh /\
    (forall k, res_view pool' (pc_res c) k = page_view c k) /\
    rs = gone ++ after_conflict b rs /\ Forall (conflicts b) gone /\ (length gone <= 1)%nat.
Proof.
  intros Hst [(-> & -> & Hrs) | (-> & Hne & it & x & Hit & -> & Hcf & Hrs)]; unfold drop_conflict.
  - rewrite Z.eqb_refl. exists gh, (pc_pool c), []. split_and!; try done; [by destruct c | cbn; lia].
  - rewrite (proj2 (Z.eqb_neq _ _) Hne). destruct Hst as [Hwf (o & lo & Ho & Hlo & HQ) Hsz].
    destruct (gwf_free_item buf_inv buf_inv_strip gh _ _ cid (litems ++ lo) Hwf) as (it' & pool' & Hit' & Hrun & Hwf' & Hv); [by rewrite Hlo |].
    unfold DRC_GET_RES_ADDR_BY_ID. rewrite (arr_get_eq _ _ _ Hit). cbn [mbind outcome_bind]. rewrite Hrun. cbn.
    eexists _, pool', [req_info it]. split; [done |]. split; [constructor; cbn; [done | by exists o, lo | done] |].
    split_and!; try done. by apply Forall_singleton.
Qed.

(** After the copies have been dropped, or not. *)
Definition maybe_drop_copies (b b' : drc_buf_res) : Prop := b' = b \/ b' = set_br_readonly_copies 0 b.

(** The other instances were asked to drop their copies with this result, and
    the copies are forgotten when they did. *)
Definition drops_copies (w : world) (pagid : page_id_t) (copies exc ver : Z) (ret : status_t) (b b' : drc_buf_res) : Prop :=
  dcs_invalidate_readonly_copy (wd_env w S_invalidate) (wd_env w S_invalidate2) (wd_io w S_invalidate) pagid copies exc ver = Done ret /\
  b' = match ret with CT_SUCCESS => set_br_readonly_copies 0 b | CT_ERROR => b end.

Lemma drops_maybe w pagid copies exc ver ret b b' : drops_copies w pagid copies exc ver ret b b' -> maybe_drop_copies b b'.
Proof. intros [_ ->]. destruct ret; [by right | by left]. Qed.

Lemma invalidate_copies_view w pagid copies exc ver i b ids gh mine litems c :
  quiet w -> page_st gh mine litems c -> i ∈ linked gh -> (c_items c).[i] = Some b -> (gg_ql gh).[i] = Some ids ->
  req_inst_id (converting_req b) <> CT_INVALID_ID8 -> bitmap_ok copies -> 0 <= exc ->
  exists ret c' b', invalidate_copies w pagid copies exc ver i c = Done (ret, c') /\
    page_ok mine litems c' /\ same_but (br_page_id b) c c' /\ drops_copies w pagid copies exc ver ret b b' /\
    page_view c' (br_page_id b) = Some (strip b', queue_reqs (addr (pc_pool c)) ids).
Proof.
  intros Hq Hst Hi Hb Hids Hc Hbm Hexc. pose proof (ps_wf _ _ _ _ _ _ Hst) as Hwf.
  pose proof (gw_inv _ _ _ _ Hwf _ _ _ Hi Hb Hids) as Hinv. unfold invalidate_copies.
  destruct (invalidate_Done (wd_env w S_invalidate) (wd_env w S_invalidate2) (wd_io w S_invalidate) pagid copies exc ver) as [ret Hret];
    [done | done |]. rewrite Hret. cbn [mbind outcome_bind]. rewrite Hq. destruct ret; cbn [mbind outcome_bind].
  - unfold gres_get. rewrite (arr_get_eq _ _ _ Hb). cbn [mbind outcome_bind].
    destruct (page_st_set pool_size Q gh mine litems c i b (set_br_readonly_copies 0 b) ids) as (g' & -> & Hst' & _ & Hv & Hvk); try done.
    { pose proof (bi_owned _ _ Hinv Hc). destruct Hinv. by constructor; cbn; eauto. }
    eexists _, _, _. split; [done |]. split; [by exists gh |]. split; [done |]. split; [split; [exact Hret | done] | done].
  - eexists _, _, b. split; [done |]. split; [by exists gh |]. split; [done |]. split; [split; [exact Hret | done] |].
    by eapply (gwf_view_Some buf_inv Hwf).
Qed.

(** The effect of a claim that applies. *)
Definition claim_effect (now : Z) (ci : claim_info) (b : drc_buf_res) (rs : list drc_req_info)
    (cvt : cvt_info) (msgs : list error_msg) (b' : drc_buf_res) (rs' : list drc_req_info) : Prop :=
  exists b1 b2, claim_rule ci b b1 /\ conv_only b1 b2 /\ maybe_drop_copies b2 b' /\ br_lsn b <= br_lsn b' /\
    match next_req now rs with
    | None => idle b2 /\ b' = b2 /\ rs' = [] /\ cv_req_id cvt = CT_INVALID_ID8 /\ msgs = []
    | Some (r, rs1) => converting_req b2 = r /\ cvt_for b1 r cvt /\
        exists gone, rs1 = gone ++ rs' /\ msgs = error_to <$> gone /\ Forall (conflicts b2) gone /\ (length gone <= 1)%nat
    end.

(** The end of a claim, after the bucket has been unlocked. *)
Lemma claim_finish w ci cvt msgs i b ids gh mine litems c :
  quiet w -> page_st gh mine litems c -> i ∈ linked gh -> (c_items c).[i] = Some b -> (gg_ql gh).[i] = Some ids ->
  (cv_req_id cvt <> CT_INVALID_ID8 -> req_inst_id (converting_req b) = cv_req_id cvt /\ bitmap_ok (cv_readonly_copies cvt)) ->
  exists c' b', (if negb (cv_req_id cvt =? CT_INVALID_ID8) && negb (cv_readonly_copies cvt =? 0) && (cv_req_mode cvt =? DRC_LOCK_EXCLUSIVE)
     then '(_, c) ← invalidate_copies w (cl_page_id ci) (cv_readonly_copies cvt) (cv_req_id cvt) (cv_req_version cvt) i c;
          Done (cvt, msgs, c) else Done (cvt, msgs, c)) = Done (cvt, (msgs : list error_msg), c') /\
     page_ok mine litems c' /\ same_but (br_page_id b) c c' /\ maybe_drop_copies b b' /\
     page_view c' (br_page_id b) = Some (strip b', queue_reqs (addr (pc_pool c)) ids) /\ (cv_req_id cvt = CT_INVALID_ID8 -> b' = b).
Proof.
  intros Hq Hst Hi Hb Hids Hcv. pose proof (ps_wf _ _ _ _ _ _ Hst) as Hwf. destruct (_ && _) eqn:Hcond.
  2: { exists c, b. split; [done |]. split; [by exists gh |]. split; [done |]. split; [by left |].
       split; [by eapply (gwf_view_Some buf_inv Hwf) | done]. }
  apply andb_true_iff in Hcond as [[Hid%negb_true_iff%Z.eqb_neq _]%andb_true_iff _]. destruct (Hcv Hid) as [Hc Hbm].
  pose proof (bi_conv _ _ (gw_inv _ _ _ _ Hwf _ _ _ Hi Hb Hids)) as Hok.
  destruct (invalidate_copies_view w (cl_page_id ci) (cv_readonly_copies cvt) (cv_req_id cvt) (cv_req_version cvt) i b ids gh mine litems c)
    as (ret & c' & b4 & -> & Hok4 & Hvb4 & Hm4%drops_maybe & Hv4); try done; [congruence | destruct Hok as [|[? _]]; congruence |].
  cbn. by exists c', b4.
Qed.

Lemma claim_page_owner_spec w ci cvt0 mine litems c b rs :
  quiet w -> page_ok mine litems c -> page_view c (cl_page_id ci) = Some (b, rs) ->
  exists cvt msgs c', drc_claim_page_owner w ci cvt0 c = Done (cvt, msgs, c') /\ page_ok mine litems c' /\
    same_but (cl_page_id ci) c c' /\
    exists b' rs', page_view c' (cl_page_id ci) = Some (b', rs') /\
      if decide (claim_applies ci b) then claim_effect (dtc_now (wd_env w S_locked)) ci b rs cvt msgs b' rs'
      else b' = b /\ rs' = rs /\ cv_req_id cvt = CT_INVALID_ID8 /\ msgs = [].
Proof.
  intros Hq Hok Hview. pose proof (page_view_cases _ _ _ (cl_page_id ci) Hok) as Hv. rewrite Hview in Hv.
  destruct Hv as (gh & i & b0 & ids & Hst & Hl & Hi & Hget & Hb & Hids & Hk & -> & -> & Hinv & Hqw).
  unfold drc_claim_page_owner. rewrite Hl. cbn [mbind outcome_bind]. rewrite Hget. cbn [mbind outcome_bind].
  set (cvt1 := mk_cvt _ _ _ _ _ _ _ _ _ _). set (now := dtc_now _).
  destruct (claim_decide_spec now ci cvt1 b0 (pc_pool c) _ ids _ _ Hinv Hqw eq_refl)
    as (out & b' & pool' & fl' & ids' & extra & -> & Hq' & Hfr & Hpl & Hinv' & Hout). cbn [mbind outcome_bind].
  destruct (page_st_update pool_size Q gh mine litems c i b0 b' ids ids' pool' fl' extra Hst Hi Hb Hids Hpl Hq' Hfr Hinv')
    as (g' & -> & Hst' & Hit' & Hvb & Hvk). cbn [mbind outcome_bind]. rewrite Hk in Hvb, Hvk.
  destruct out as [[cid cvt] |].
  2: { destruct Hout as (Hn & -> & -> & -> & _ & ->). eexists _, _, _. split; [done |]. split; [by eexists |]. split; [done |].
       eexists _, _. split; [done |]. rewrite decide_False by done. done. }
  destruct Hout as (Ha & b1 & Hrule & Hkept & Hco & Hlsn & Hnext). rewrite Hq.
  destruct (page_st_drop _ mine litems (mk_pctx pool' g') cid extra b'
    (match next_req now (queue_reqs (addr (pc_pool c)) ids) with Some (_, rs1) => rs1 | None => [] end) Hst')
    as (gh2 & pool2 & gone & Hrun2 & Hst2 & Hbl2 & Hql2 & Hv2 & Hgone).
  { destruct (next_req _ _) as [[r rs1] |]; [apply Hnext |]. destruct Hnext as (-> & -> & _). by left. }
  cbn in Hrun2, Hbl2, Hql2 |- *. rewrite Hrun2. cbn [mbind outcome_bind pc_res].
  pose proof (lookupZ_lt _ _ _ Hb) as Hlt. pose proof (lookupZ_lt _ _ _ Hids) as Hltq.
  destruct (claim_finish w ci cvt (error_to <$> gone) i b' ids' gh2 mine litems (mk_pctx pool2 g'))
    as (c' & b4 & -> & Hok4 & Hvb4 & Hm4 & Hv4 & Hid4); try done.
  { by rewrite Hbl2. } { cbn. by rewrite Hit', lookupZ_insertZ_eq. } { by rewrite Hql2, lookupZ_insertZ_eq. }
  { intros Hid. destruct (next_req _ _) as [[r rs1] |]; [| destruct Hnext as (_ & _ & _ & _ & E); by rewrite E in Hid].
    destruct Hnext as (-> & _ & (_ & Hrid & _ & _ & _ & _ & _ & _ & _ & Hrc & _) & _). done. }
  assert (Hkb : br_page_id b' = cl_page_id ci) by (destruct Hpl as (_ & _ & -> & _); done). rewrite Hkb in Hvb4, Hv4.
  assert (Hrq : queue_reqs (addr pool2) ids' = queue_reqs (addr pool') ids').
  { pose proof (gwf_view_Some buf_inv (ps_wf _ _ _ _ _ _ Hst2) i b' ids') as E. cbn in E. rewrite Hv2 in E. cbn in E.
    rewrite Hkb, Hvk in E. rewrite Hbl2, Hql2, Hit', !lookupZ_insertZ_eq in E by done. specialize (E Hi eq_refl eq_refl). by injection E. }
  eexists _, _, _. split; [done |]. split; [done |].
  split. { intros k Hk'. rewrite Hvb4 by done. cbn. rewrite Hv2. by apply Hvb. }
  eexists _, _. split; [exact Hv4 |]. rewrite decide_True by done. cbn [pc_pool]. rewrite Hrq.
  exists (strip b1), (strip b'). split; [by apply claim_rule_strip |]. split; [by apply conv_only_strip |].
  split; [destruct Hm4 as [-> | ->]; [by left | by right] |]. split; [destruct Hm4 as [-> | ->]; done |].
  destruct (next_req _ _) as [[r rs1] |].
  - destruct Hnext as (Hr & Hrs & Hcv & _). split; [done |]. split; [done |]. exists gone. rewrite Hrs. tauto.
  - destruct Hnext as (-> & -> & Hidle & Hnil & Hid). rewrite Hnil. destruct Hgone as (Hg & _). cbn in Hg.
    destruct gone; [| done]. by rewrite (Hid4 Hid).
Qed.

(** ** Request *)

Lemma wait_rule_strip r is_try b rs (full full' : Prop) st cvt retry r' conv' rs' :
  (full -> full') -> wait_rule r is_try b rs full st cvt retry r' conv' rs' ->
  wait_rule r is_try (strip b) rs full' st cvt retry r' conv' rs'.
Proof.
  intros Hf Hrule. assert (Hc : br_converting b = br_converting (strip b)) by done.
  destruct Hrule; rewrite ?Hc in *;
    [by apply W_try_skip | by apply W_convert | by apply W_try_busy | by apply W_conflict | by apply W_retry |
     by apply W_retry_old | by eapply W_requeue | by eapply W_requeue_lsn | by apply W_enqueue | by apply W_full; auto].
Qed.

Lemma clean_buf_res_strip b b' : drc_clean_buf_res b = Done b' -> drc_clean_buf_res (strip b) = Done (strip b').
Proof.
  unfold drc_clean_buf_res. cbn. intros (u & -> & Hrun)%bind_Done. cbn. revert Hrun.
  destruct (negb (br_readonly_copies b =? 0)).
  - intros (o & -> & Hrun)%bind_Done. cbn in *. apply bind_Done in Hrun as (u2 & -> & Hrun). cbn.
    apply bind_Done in Hrun as (cp & -> & Hrun). cbn. by injection Hrun as <-.
  - destruct (negb (br_edp_map b =? 0)); [| by intros [= <-]].
    intros (u2 & -> & Hrun)%bind_Done. cbn. apply bind_Done in Hrun as (u3 & -> & Hrun). cbn. by injection Hrun as <-.
Qed.

Lemma request_rule_strip e pagid r is_try b rs (full full' : Prop) out r' b' rs' :
  (full -> full') -> request_rule e pagid r is_try b rs full out r' b' rs' ->
  request_rule e pagid r is_try (strip b) rs full' out r' (strip b') rs'.
Proof.
  intros Hf [| | | b0 st cvt retry r2 b1 rs2 Hp Hb0 Ho Hco Hrule]; [by apply R_recycled | by apply R_not_ready | by eapply R_granted |].
  pose proof (R_wait e pagid r is_try (strip b) rs full' (strip b0) st cvt retry r2 (strip b1) rs2) as HR.
  destruct cvt; apply HR; try done; try (by apply conv_only_strip); try (by eapply wait_rule_strip);
    destruct Hb0 as [-> | (? & ? & ?%clean_buf_res_strip)]; [by left | by right | by left | by right].
Qed.

(** The checks before the catalog is looked at. *)
Definition request_admitted (w : world) (pagid : page_id_t) (r : drc_req_info) : Prop :=
  inst_ok (req_inst_id r) /\ IS_INVALID_PAGID pagid = false /\ dtc_dcs_readable (wd_env w S_entry) pagid = true /\
  DRC_STOP_DCS_IO_FOR_REFORMING (req_version r) (wd_env w S_locked) pagid = false.

Definition pool_full {A} (p : drc_res_pool A) : Prop := free_list p = CT_INVALID_ID32.

Lemma request_existing_spec w pagid r is_try res0 mine litems c b rs :
  quiet w -> request_admitted w pagid r -> page_ok mine litems c -> page_view c pagid = Some (b, rs) ->
  exists st r' res c' out b1 b2 rs', drc_request_page_owner w pagid r is_try res0 c = Done (st, r', res, c') /\
    page_ok mine litems c' /\ same_but pagid c c' /\ page_view c' pagid = Some (b2, rs') /\ maybe_drop_copies b1 b2 /\
    request_rule (wd_env w S_clean) pagid (req_set_result DRC_REQ_OWNER_WAITING r) is_try b rs (pool_full (pc_pool c)) out r' b1 rs' /\
    (out = None -> st = CT_ERROR /\ b2 = b1) /\ (out = Some false -> st = CT_SUCCESS /\ b2 = b1) /\ 
    (out = Some true -> result_for r' b1 res /\ (rs_readonly_copies res = 0 \/ req_mode r' <> DRC_LOCK_EXCLUSIVE -> st = CT_SUCCESS /\ b2 = b1) /\
      (rs_readonly_copies res <> 0 -> req_mode r' = DRC_LOCK_EXCLUSIVE ->
        drops_copies w pagid (rs_readonly_copies res) (req_inst_id r') (req_version r') st b1 b2)).
Proof.
  intros Hq (Hr & Hp & Hread & Hstop) Hok Hview. pose proof (page_view_cases _ _ _ pagid Hok) as Hv. rewrite Hview in Hv.
  destruct Hv as (gh & i & b0 & ids & Hst & Hl & Hi & Hget & Hb & Hids & Hk & -> & -> & Hinv & Hqw).
  unfold drc_request_page_owner. cbn [req_inst_id req_set_result req_version].
  destruct (Z.leb_spec CT_MAX_INSTANCES (req_inst_id r)); [unfold inst_ok in Hr; lia |]. rewrite Hp, Hread, Hstop. cbn [orb negb].
  rewrite Hl. cbn [mbind outcome_bind]. unfold request_allocated. rewrite Hget. cbn [mbind outcome_bind].
  set (r1 := req_set_result DRC_REQ_OWNER_WAITING r). set (res1 := mk_result _ _ _ _ _ _).
  destruct (request_decide_spec (wd_env w S_clean) pagid r1 is_try res1 b0 (pc_pool c) _ ids _ _ Hinv Hr Hqw eq_refl)
    as (out & r' & res' & b' & pool' & fl' & ids' & Hrun & Hq' & Hfr & Hpl & Hinv' & Hrule & Hr' & Hcv).
  rewrite Hrun. cbn [mbind outcome_bind].
  destruct (page_st_update pool_size Q gh mine litems c i b0 b' ids ids' pool' fl' [] Hst Hi Hb Hids Hpl Hq' Hfr Hinv')
    as (g' & -> & Hst' & Hit' & Hvb & Hvk). cbn [mbind outcome_bind]. rewrite Hk in Hvb, Hvk.
  apply (request_rule_strip _ _ _ _ _ _ _ (pool_full (pc_pool c))) in Hrule; [| by intros Hf; apply (free_list_nil _ _ (qw_pool _ _ _ _ _ Hqw))].
  pose proof (lookupZ_lt _ _ _ Hb) as Hlt. pose proof (lookupZ_lt _ _ _ Hids) as Hltq.
  assert (Hok' : page_ok mine litems (mk_pctx pool' g')) by (by eexists).
  destruct out as [can_cvt |]; [destruct (can_cvt && _ && _) eqn:Hcond |].
  - apply andb_true_iff in Hcond as [[-> Hcp%negb_true_iff%Z.eqb_neq]%andb_true_iff Hx%Z.eqb_eq]. destruct (Hcv eq_refl) as [Hres Hconv]. pose proof Hres as (_ & _ & _ & _ & Hbm & _).
    destruct (invalidate_copies_view w pagid (rs_readonly_copies res') (req_inst_id r') (req_version r') i b' ids' _ mine litems (mk_pctx pool' g') Hq Hst')
      as (ret & c' & b4 & -> & Hok4 & Hvb4 & Hm4 & Hv4); try done; cbn.
    { by rewrite Hit', lookupZ_insertZ_eq. } { by rewrite lookupZ_insertZ_eq. } { rewrite Hconv, Hr'. by apply inst_ok_ne. } { rewrite Hr'. apply Hr. }
    assert (Hkb : br_page_id b' = pagid) by (destruct Hpl as (_ & _ & -> & _); done). rewrite Hkb in Hvb4, Hv4.
    eexists _, _, _, c', _, _, _, _. rewrite pc_set_res_id. split; [done |]. split; [done |].
    split. { intros k Hk'. rewrite Hvb4 by done. by apply Hvb. } split; [exact Hv4 |]. split; [| split; [exact Hrule |]].
    2: { split; [done |]. split; [done |]. intros _. split; [exact Hres |]. split; [intros [? | ?]; contradiction |].
         intros _ _. destruct Hm4 as [Hret ->]. split; [exact Hret |]. by destruct ret. }
    destruct (drops_maybe _ _ _ _ _ _ _ _ Hm4) as [-> | ->]; [by left | by right].
  - eexists _, _, _, _, _, _, _, _. split; [done |]. split; [done |]. split; [done |]. split; [exact Hvk |]. split; [by left |].
    split; [exact Hrule |]. split; [done |]. split; [done |]. intros E. destruct (Hcv E) as [Hres _]. split; [done |]. split; [done |].
    intros Hne Hx. injection E as ->. rewrite (proj2 (Z.eqb_neq _ _) Hne), (proj2 (Z.eqb_eq _ _) Hx) in Hcond. discriminate Hcond.
  - eexists _, _, _, _, _, _, _, _. split; [done |]. split; [done |]. split; [done |]. split; [exact Hvk |]. split; [by left |].
    by split; [exact Hrule |].
Qed.

(** A page that is not in the catalog yet, with a free resource at hand. *)
Lemma request_new_spec w pagid r is_try res0 mine litems c :
  quiet w -> request_admitted w pagid r -> page_ok mine litems c -> page_view c pagid = None ->
  ~ pool_full (res_pool (res_map (pc_res c))) ->
  DRC_STOP_DCS_IO_FOR_REFORMING (req_version r) (wd_env w S_relocked) pagid = false ->
  DRC_STOP_DCS_IO_FOR_REFORMING (req_version r) (wd_env w S_listed) pagid = false ->
  exists r' res c' b, drc_request_page_owner w pagid r is_try res0 c = Done (CT_SUCCESS, r', res, c') /\
    page_ok mine litems c' /\ same_but pagid c c' /\ page_view c' pagid = Some (b, []) /\
    rs_type res = DRC_REQ_OWNER_GRANTED /\ rs_curr_owner_id res = req_inst_id r /\ br_claimed_owner b = req_inst_id r /\
    br_mode b = req_mode r /\ br_readonly_copies b = 0 /\ req_inst_id (converting_req b) = CT_INVALID_ID8.
Proof.
  intros Hq (Hr & Hp & Hread & Hstop) Hok Hview Hfree Hs2 Hs3. pose proof (page_view_cases _ _ _ pagid Hok) as Hl. rewrite Hview in Hl.
  unfold drc_request_page_owner. cbn [req_inst_id req_set_result req_version].
  destruct (Z.leb_spec CT_MAX_INSTANCES (req_inst_id r)); [unfold inst_ok in Hr; lia |]. rewrite Hp, Hread, Hstop. cbn [orb negb].
  rewrite Hl. cbn [mbind outcome_bind]. rewrite !Hq. destruct Hok as [gh Hst].
  destruct (page_st_alloc pool_size Q gh mine litems c Hst) as (idx & g1 & -> & Hv1 & Hit1 & Hcase). cbn [mbind outcome_bind].
  destruct Hcase as [(_ & Hnil & _) | (Hne & gh1 & Hst1 & Hl1)].
  { destruct Hfree. by apply (free_list_nil _ _ (mw_pool _ _ _ _ (gw_map _ _ _ _ (ps_wf _ _ _ _ _ _ Hst)))). }
  rewrite (proj2 (Z.eqb_neq _ _) Hne). cbn [mbind outcome_bind]. rewrite (proj2 (Z.eqb_neq _ _) Hne), Hq.
  assert (Hl2 : gres_lookup g1 pagid = Done None).
  { pose proof (page_view_cases _ _ _ pagid (ex_intro _ _ Hst1)) as Hc. cbn in Hc. rewrite Hv1, Hview in Hc. done. }
  cbn [pc_set_res pc_res]. rewrite Hl2. cbn [mbind outcome_bind]. rewrite Hs2.
  destruct (request_insert_spec pool_size Q (wd_env w S_listed) pagid (req_set_result DRC_REQ_OWNER_WAITING r) idx gh1 mine litems (pc_set_res c g1) Hst1)
    as (g' & gh' & Hins & Hst' & Hv'); [done | |].
  { destruct (gwf_lookup buf_inv (ps_wf _ _ _ _ _ _ Hst1) pagid) as (x & Hx & Hcase). cbn in Hx. rewrite Hl2 in Hx. by simplify_eq. }
  cbn in Hins, Hv'. rewrite Hins. rewrite Hs3 in *. cbn. destruct Hv' as (Hvb & b & Hvk & Ho & Hm & Hc0 & Hcv).
  eexists _, _, _, (strip b). split; [done |]. split; [by exists gh' |]. split; [| done].
  intros k Hk. cbn. rewrite Hvb by done. apply Hv1.
Qed.

(** ** Recycling, edp and owner queries *)

(** While page [pagid] is being recycled, other threads do not touch its resource. *)
Definition holds_pending (pagid : page_id_t) (f : page_ctx -> page_ctx) : Prop :=
  forall mine litems c i b, page_ok mine litems c -> (c_items c).[i] = Some b -> br_page_id b = pagid -> br_is_used b = true ->
    br_pending b = DRC_RES_PENDING_ACTION ->
    exists b', (c_items (f c)).[i] = Some b' /\ br_is_used b' = true /\ br_edp_map b' = br_edp_map b /\
      req_inst_id (converting_req b') = req_inst_id (converting_req b).

Lemma recycle_clean_free mine litems c i b :
  page_ok mine litems c -> (c_items c).[i] = Some b -> br_is_used b = true ->
  req_inst_id (converting_req b) = CT_INVALID_ID8 -> br_edp_map b = 0 ->
  forall b', b' = set_br_pending DRC_RES_INVALID_ACTION b \/
             b' = set_br_pending DRC_RES_INVALID_ACTION (set_br_readonly_copies 0 b) ->
  exists g1 g2 g3, gres_put (pc_res c) i b' = Done g1 /\ drc_clean_page_owner_internal g1 i = Done g2 /\
    free_if_valid g2 (br_idx b) = Done g3 /\ page_ok mine litems (pc_set_res c g3).
Proof.
  intros Hok Hb Hu Hc He b' Hb'. pose proof (page_ok_max _ _ _ _ _ _ _ Hok Hb) as Hmax. destruct Hok as [gh Hst].
  pose proof (page_st_linked _ _ _ _ _ _ _ _ Hst Hb Hu) as Hi. pose proof (ps_wf _ _ _ _ _ _ Hst) as Hwf.
  destruct (gwf_ql buf_inv Hwf i b Hb) as [ids Hids]. pose proof (gw_inv _ _ _ _ Hwf _ _ _ Hi Hb Hids) as Hinv.
  pose proof (lookupZ_lt _ _ _ Hb) as Hlt. destruct (gw_self _ _ _ _ Hwf _ _ Hi Hb) as [Hidx _]. cbn in Hidx.
  assert (Hpl : same_place b b' /\ br_convert_q b' = br_convert_q b /\ buf_inv b' (queue_reqs (addr (pc_pool c)) ids) /\
    req_inst_id (converting_req b') = CT_INVALID_ID8).
  { destruct Hb' as [-> | ->]; (split; [done |]); (split; [done |]); (split; [| done]).
    - by apply set_pending_inv.
    - destruct Hinv. constructor; cbn; eauto; try done; by right. }
  destruct Hpl as (Hpl & Hcq & Hinv' & Hc').
  destruct (page_st_set pool_size Q gh mine litems c i b b' ids) as (g1 & Hrun1 & Hst1 & Hit1 & _); try done.
  destruct (page_st_clean pool_size Q gh mine litems (pc_set_res c g1) i b' ids) as (g2 & gh2 & Hrun2 & Hst2 & _); try done.
  { cbn. rewrite Hit1. by apply lookupZ_insertZ_eq. }
  destruct (page_st_free _ _ _ _ _ _ _ Hst2) as (g3 & gh3 & Hrun3 & Hst3 & _).
  exists g1, g2, g3. split; [done |]. split; [done |]. unfold free_if_valid. rewrite Hidx, (proj2 (Z.eqb_neq _ _) Hmax).
  split; [done | by exists gh3].
Qed.

Lemma buf_res_recycle_ok w owner_inst time page_id ver mine litems c :
  world_ok pool_size Q w -> holds_pending page_id (wd_win w S_invalidate) -> 0 <= owner_inst -> page_ok mine litems c ->
  exists c', drc_buf_res_recycle w owner_inst time page_id ver c = Done c' /\ page_ok mine litems c'.
Proof.
  intros Hw Hhp Hoi Hok. unfold drc_buf_res_recycle.
  destruct (Z.leb_spec CT_MAX_INSTANCES owner_inst); [by exists c |]. destruct (_ || _); [by exists c |].
  destruct (DRC_STOP_DCS_IO_FOR_REFORMING _ _ _); [by exists c |]. pose proof (page_view_cases _ _ _ page_id Hok) as Hv.
  destruct (page_view c page_id) as [[bv rs] |]; [| rewrite Hv; by exists c].
  destruct Hv as (gh & i & b & ids & Hst & -> & Hi & Hget & Hb & Hids & Hk & -> & -> & Hinv & _). cbn [mbind outcome_bind].
  rewrite Hget. cbn [mbind outcome_bind]. destruct (Z.eqb_spec (br_claimed_owner b) owner_inst) as [Ho |]; cbn [negb]; [| by exists c].
  destruct (negb (br_pending b =? DRC_RES_INVALID_ACTION) || negb (br_is_used b)); [by exists c |].
  destruct (_ && buf_res_is_recyclable b) eqn:Hrec; cbn [negb]; [| by exists c].
  apply andb_true_iff in Hrec as [_ [Hc%Z.eqb_eq He%Z.eqb_eq]%andb_true_iff].
  set (bp := set_br_pending DRC_RES_PENDING_ACTION b). unfold buf_res_has_readonly_copies.
  destruct (drc_bitmap64_clear_Done (br_readonly_copies bp) (br_claimed_owner bp)) as (cp & Hcp & _); [apply Hinv | cbn; lia |].
  rewrite Hcp. cbn [mbind outcome_bind]. pose proof (lookupZ_lt _ _ _ Hb) as Hlt.
  destruct (page_st_set pool_size Q gh mine litems c i b bp ids) as (g1 & -> & Hst1 & Hit1 & _); try done.
  { destruct Hinv. constructor; cbn; eauto. }
  cbn [mbind outcome_bind]. assert (Hok1 : page_ok mine litems (pc_set_res c g1)) by (by exists gh).
  assert (Hb1 : (c_items (pc_set_res c g1)).[i] = Some bp) by (cbn; rewrite Hit1; by apply lookupZ_insertZ_eq).
  assert (Hu : br_is_used b = true) by apply Hinv.
  destruct (negb (cp =? 0)).
  2: { destruct (recycle_clean_free mine litems (pc_set_res c g1) i bp Hok1 Hb1 Hu Hc He _ (or_introl eq_refl)) as (g2 & g3 & g4 & Hr2 & Hr3 & Hr4 & Hok4).
       cbn in Hr2. rewrite Hr2. cbn [mbind outcome_bind]. rewrite Hr3. cbn [mbind outcome_bind]. rewrite Hr4. cbn. eexists. split; [done | exact Hok4]. }
  destruct (invalidate_Done (wd_env w S_invalidate) (wd_env w S_invalidate2) (wd_io w S_invalidate) page_id (br_readonly_copies bp) owner_inst ver)
    as [ret ->]; [apply Hinv | done |]. cbn [mbind outcome_bind]. set (c2 := wd_win w S_invalidate _).
  assert (Hok2 : page_ok mine litems c2) by (by apply Hw).
  pose proof (page_view_cases _ _ _ page_id Hok2) as Hv2. assert (Hag : exists ag, gres_lookup (pc_res c2) page_id = Done ag).
  { destruct (page_view c2 page_id) as [[? ?] |]; [| by eexists]. destruct Hv2 as (? & ? & ? & ? & _ & ? & _). by eexists. }
  destruct Hag as [[j |] ->]; cbn [mbind outcome_bind]; [| by eexists].
  destruct (Hhp _ _ _ i bp Hok1 Hb1 Hk Hu eq_refl) as (b2 & Hb2 & Hu2 & He2 & Hc2). fold c2 in Hb2. cbn in He2, Hc2.
  unfold gres_get. rewrite (arr_get_eq _ _ _ Hb2). cbn [mbind outcome_bind]. destruct (match ret with CT_SUCCESS => _ | CT_ERROR => _ end).
  - destruct (recycle_clean_free mine litems c2 i b2 Hok2 Hb2 Hu2 ltac:(congruence) ltac:(congruence) _ (or_intror eq_refl)) as (g2 & g3 & g4 & Hr2 & Hr3 & Hr4 & Hok4).
    cbn in Hr2 |- *. rewrite Hr2. cbn [mbind outcome_bind]. rewrite Hr3. cbn [mbind outcome_bind]. rewrite Hr4. cbn. by eexists.
  - destruct (page_ok_unpend _ _ _ _ _ _ _ Hok2 Hb2) as (g3 & -> & Hok3). cbn. by eexists.
Qed.

Lemma clean_edp_info_spec pagid lsn mine litems c :
  page_ok mine litems c ->
  match page_view c pagid with
  | None => drc_clean_edp_info pagid lsn c = Done (CT_ERROR, c)
  | Some (b, rs) => exists c', drc_clean_edp_info pagid lsn c = Done (CT_SUCCESS, c') /\ page_ok mine litems c' /\ same_but pagid c c' /\
      page_view c' pagid = Some (if br_lsn b <=? lsn then set_br_latest_edp_lsn 0 (set_br_latest_edp CT_INVALID_ID8 (set_br_edp_map 0 b)) else b, rs)
  end.
Proof.
  intros Hok. pose proof (page_view_cases _ _ _ pagid Hok) as Hv. unfold drc_clean_edp_info.
  destruct (page_view c pagid) as [[bv rs] |] eqn:Hview; [| by rewrite Hv].
  destruct Hv as (gh & i & b & ids & Hst & -> & Hi & Hget & Hb & Hids & Hk & -> & -> & Hinv & _). cbn [mbind outcome_bind].
  rewrite Hget. cbn [mbind outcome_bind]. change (br_lsn (strip b)) with (br_lsn b). destruct (br_lsn b <=? lsn); [| by exists c].
  destruct (page_st_set pool_size Q gh mine litems c i b (set_br_latest_edp_lsn 0 (set_br_latest_edp CT_INVALID_ID8 (set_br_edp_map 0 b))) ids)
    as (g1 & -> & Hst1 & _ & Hvb & Hvk); try done.
  { destruct Hinv. constructor; cbn; eauto with drc. done. }
  cbn. eexists. split; [done |]. rewrite Hk in *. split_and!; try done. by exists gh.
Qed.

Lemma get_page_owner_id_spec e pagid mine litems c :
  page_ok mine litems c -> (reform_recover_done e = true -> DAAC_PARTIAL_RECOVER_SESSION e = false) ->
  match page_view c pagid with
  | None => drc_get_page_owner_id e pagid c = Done (None, c)
  | Some (b, rs) => exists b' c', drc_get_page_owner_id e pagid c = Done (Some (br_claimed_owner b', br_pending b'), c') /\
      page_ok mine litems c' /\ same_but pagid c c' /\ page_view c' pagid = Some (b', rs) /\
      (b' = b \/ br_claimed_owner b = CT_INVALID_ID8 /\ reform_recover_done e = true /\ drc_clean_buf_res b = Done b')
  end.
Proof.
  intros Hok Hse. pose proof (page_view_cases _ _ _ pagid Hok) as Hv. unfold drc_get_page_owner_id.
  destruct (page_view c pagid) as [[bv rs] |] eqn:Hview; [| by rewrite Hv].
  destruct Hv as (gh & i & b & ids & Hst & -> & Hi & Hget & Hb & Hids & Hk & -> & -> & Hinv & _). cbn [mbind outcome_bind].
  rewrite Hget. cbn [mbind outcome_bind]. destruct (Z.eqb_spec (br_claimed_owner b) CT_INVALID_ID8) as [Ho | Ho]; cbn [andb].
  2: { exists (strip b), c. split_and!; try done. by left. }
  destruct (reform_recover_done e) eqn:Hrd. 2: { exists (strip b), c. split_and!; try done. by left. }
  rewrite (Hse eq_refl). cbn [negb knl_panic mbind outcome_bind].
  destruct (clean_buf_res_spec b _ Hinv Ho) as (b0 & Hrun & Hinv0 & Hpl & Hcv & Hcq & _). rewrite Hrun. cbn [mbind outcome_bind].
  destruct (page_st_set pool_size Q gh mine litems c i b b0 ids) as (g1 & -> & Hst1 & _ & Hvb & Hvk); try done.
  cbn. exists (strip b0). eexists. split; [done |]. rewrite Hk in *. split_and!; try done; [by exists gh |].
  right. split_and!; try done. by apply clean_buf_res_strip.
Qed.

(** Batch recycling frees what it recycles. *)
Lemma recycle_iter_batch w now idx c st c' :
  recycle_iter w now true idx c = Done (st, c') -> match st with RReturn _ => False | _ => True end.
Proof.
  unfold recycle_iter. cbn [negb andb]. intros Hrun. cbn [mbind outcome_bind] in Hrun.
  apply bind_Done in Hrun as (b & _ & Hrun). destruct (_ || _); [by simplify_eq |].
  apply bind_Done in Hrun as (b2 & _ & Hrun). destruct (_ || _); [by simplify_eq |].
  destruct (DRC_STOP_DCS_IO_FOR_REFORMING _ _ _); [by simplify_eq |]. unfold recycle_pend in Hrun.
  apply bind_Done in Hrun as (g & _ & Hrun). apply bind_Done in Hrun as (ret & _ & Hrun). apply bind_Done in Hrun as ([st2 g2] & Hfin & Hrun).
  simplify_eq. unfold recycle_finish in Hfin. apply bind_Done in Hfin as ([j |] & _ & Hfin); [| by simplify_eq].
  apply bind_Done in Hfin as (b3 & _ & Hfin). destruct (DRC_STOP_DCS_IO_FOR_REFORMING _ _ _).
  { apply bind_Done in Hfin as (? & _ & Hfin). by simplify_eq. }
  destruct (_ || _); [by simplify_eq |]. apply bind_Done in Hfin as (? & _ & Hfin).
  destruct (match ret with CT_SUCCESS => _ | CT_ERROR => _ end); repeat (apply bind_Done in Hfin as (? & _ & Hfin)); by simplify_eq.
Qed.

Lemma recycle_items_batch_ok w mine litems c :
  recycle_ok pool_size Q w -> page_ok mine litems c ->
  exists idx c', drc_recycle_items w true c = Done (idx, c') /\ page_ok mine litems c'.
Proof.
  intros [Hw Hkp] Hok. unfold drc_recycle_items. generalize (Z.to_nat 1024), CT_INVALID_ID32, (dtc_now (wd_env w S_entry)). intros n idx now.
  assert (Hloop : exists idx' c', recycle_loop w now n true idx c = Done (false, idx', c') /\ page_ok mine litems c').
  { revert idx c Hok. induction n as [| n IH]; intros idx c Hok; cbn [recycle_loop]; [by eexists _, _ |].
    destruct (recycle_iter_spec pool_size Q (world_iter w n) now true idx mine litems c) as (st & c1 & Hrun & Hst);
      [by apply world_iter_ok | apply Hkp | done |].
    rewrite Hrun. cbn [mbind outcome_bind]. apply recycle_iter_batch in Hrun. destruct st; [by apply IH | by eexists _, _ | done]. }
  destruct Hloop as (idx' & c' & -> & Hok'). cbn. by eexists _, _.
Qed.

(** ** Everything together *)

(** One handler of normal operation, in any surroundings.  While a handler has
    its page unlocked, the other threads may run any handler that keeps the
    catalog well formed, on that page too; only a conversion of that page that it
    has begun does not end, and the resource it recycles is left to it. *)
Inductive page_step : page_ctx -> page_ctx -> Prop :=
| step_request w pagid r is_try res0 st r' res c c' :
    recycle_ok pool_size Q w -> keeps_converting pool_size Q pagid (wd_win w S_invalidate) -> 0 <= req_inst_id r ->
    drc_request_page_owner w pagid r is_try res0 c = Done (st, r', res, c') -> page_step c c'
| step_claim w ci cvt0 cvt msgs c c' :
    world_ok pool_size Q w -> keeps_converting pool_size Q (cl_page_id ci) (wd_win w S_invalidate) -> keeps_converting pool_size Q (cl_page_id ci) (wd_win w S_unlocked) ->
    drc_claim_page_owner w ci cvt0 c = Done (cvt, msgs, c') -> page_step c c'
| step_release old_id pagid released c c' :
    drc_release_page_owner old_id pagid c = Done (released, c') -> page_step c c'
| step_buf_recycle w owner time pagid ver c c' :
    world_ok pool_size Q w -> holds_pending pagid (wd_win w S_invalidate) -> 0 <= owner ->
    drc_buf_res_recycle w owner time pagid ver c = Done c' -> page_step c c'
| step_recycle w idx c c' :
    recycle_ok pool_size Q w -> drc_recycle_items w true c = Done (idx, c') -> page_step c c'
| step_clean_edp pagid lsn st c c' :
    drc_clean_edp_info pagid lsn c = Done (st, c') -> page_step c c'
| step_owner_id e pagid info c c' :
    (reform_recover_done e = true -> DAAC_PARTIAL_RECOVER_SESSION e = false) ->
    drc_get_page_owner_id e pagid c = Done (info, c') -> page_step c c'.

Lemma page_step_ok mine litems c c' : page_step c c' -> page_ok mine litems c -> page_ok mine litems c'.
Proof.
  intros Hs Hok. destruct Hs as [w pagid r is_try res0 st r' res c c' Hr Hk Hi Hrun | w ci cvt0 cvt msgs c c' Hw Hk1 Hk2 Hrun |
    old_id pagid released c c' Hrun | w owner time pagid ver c c' Hw Hh Ho Hrun | w idx c c' Hr Hrun | pagid lsn st c c' Hrun | e pagid info c c' He Hrun].
  - destruct (request_page_owner_ok _ _ w pagid r is_try res0 mine litems c Hr Hk Hi Hok) as (? & ? & ? & ? & E & ?). rewrite Hrun in E. by simplify_eq.
  - destruct (claim_page_owner_ok _ _ w ci cvt0 mine litems c Hw Hk1 Hk2 Hok) as (? & ? & ? & E & ?). rewrite Hrun in E. by simplify_eq.
  - pose proof (release_page_owner_spec old_id pagid mine litems c Hok) as Hsp. destruct (page_view c pagid) as [[? ?] |]; [| rewrite Hrun in Hsp; by simplify_eq].
    destruct Hsp as (? & ? & E & ? & _). rewrite Hrun in E. by simplify_eq.
  - destruct (buf_res_recycle_ok w owner time pagid ver mine litems c Hw Hh Ho Hok) as (? & E & ?). rewrite Hrun in E. by simplify_eq.
  - destruct (recycle_items_batch_ok w mine litems c Hr Hok) as (? & ? & E & ?). rewrite Hrun in E. by simplify_eq.
  - pose proof (clean_edp_info_spec pagid lsn mine litems c Hok) as Hsp. destruct (page_view c pagid) as [[? ?] |]; [| rewrite Hrun in Hsp; by simplify_eq].
    destruct Hsp as (? & E & ? & _). rewrite Hrun in E. by simplify_eq.
  - pose proof (get_page_owner_id_spec e pagid mine litems c Hok He) as Hsp. destruct (page_view c pagid) as [[? ?] |]; [| rewrite Hrun in Hsp; by simplify_eq].
    destruct Hsp as (? & ? & E & ? & _). rewrite Hrun in E. by simplify_eq.
Qed.

Lemma page_init_ok g pool size lsize lnum :
  map_inited (res_map g) = false -> inited (res_pool (res_map g)) = false -> block_header_size <= size ->
  0 < pool_size < 2 ^ 31 -> inited pool = false -> block_header_size <= lsize -> 0 < lnum <= CT_INVALID_ID32 -> Q [] [] ->
  exists g' pool', drc_global_res_init g pool_size size true true = Done (CT_SUCCESS, g') /\
    drc_res_pool_init pool lsize lnum true = Done (CT_SUCCESS, pool') /\
    page_ok [] [] (mk_pctx pool' g') /\ forall k, page_view (mk_pctx pool' g') k = None.
Proof.
  intros Hm Hp Hsz Hps Hlp Hlsz Hln HQ.
  destruct (gwf_init (K := page_id_t) buf_inv buf_inv_strip g pool size lsize pool_size lnum Hm Hp Hsz Hps Hlp Hlsz Hln)
    as (g' & pool' & Hr1 & Hr2 & Hwf & Hv).
  exists g', pool'. split_and!; try done. eexists. constructor; [exact Hwf | by exists [], [] |]. cbn.
  rewrite concat_replicate_nil, app_nil_r, length_seqZ. lia.
Qed.
End page_fun.
