(* ===== verification/PageThms.v ===== *)
(** * The theorems on page ownership

    The properties of the page catalog, each with a concrete instance of its
    hypotheses: a cluster of two nodes, a catalog of two resources, and the
    states reached from it by running the handlers. *)

From stdpp Require Import prelude list gmap.
From S2P Require Import Prelude Bitmap ResPool DrcList ResMap ConvertQ GlobalRes DrcTypes BufCtrl DrcPage PageInv PageProps PageFun.

Open Scope Z_scope.
Open Scope drc_scope.

(** ** Cleaning up after a failed instance *)

Section clean.
Context `{KernelAttr}.

Lemma clean_converting_spec failed ctrl b pool :
  bitmap_ok (br_readonly_copies b) -> bitmap_ok (br_edp_map b) -> count (br_convert_q b) = 0 -> inst_ok failed ->
  exists msgs b', drc_clean_page_converting failed ctrl b pool = Done (msgs, b', pool) /\ same_place b b' /\
    bitmap_ok (br_readonly_copies b') /\ bitmap_ok (br_edp_map b') /\ br_convert_q b' = br_convert_q b /\
    req_inst_id (converting_req b') = CT_INVALID_ID8.
Proof.
  intros Hcp Hedp Hq Hf. unfold drc_clean_page_converting.
  destruct (Z.eqb_spec (req_inst_id (converting_req b)) failed) as [E | E].
  - rewrite Hq. cbn. unfold drc_revert_converting_page_abort_owner. destruct ctrl as [ctrl |]; cbn; [| by eexists _, _].
    destruct (drc_bitmap64_clear_Done (br_readonly_copies b) inst_id Hcp inst_id_ok) as (m & Hm & Hmok & _).
    destruct (drc_bitmap64_set_Done (br_edp_map b) inst_id Hedp inst_id_ok) as (n & Hn & Hnok & _).
    destruct (bc_lock_mode ctrl =? DRC_LOCK_NULL); cbn; [rewrite Hm; cbn |]; destruct (bc_is_edp ctrl); cbn; try rewrite Hn; cbn; by eexists _, _.
  - destruct (Z.eqb_spec (req_inst_id (converting_req b)) CT_INVALID_ID8) as [E2 | E2]; cbn; [by eexists _, _ |].
    unfold drc_revert_converting_page_non_abort_owner. destruct ctrl as [ctrl |]; cbn; [| by eexists _, _].
    destruct (bc_lock_mode ctrl =? DRC_LOCK_NULL); [| destruct (bc_lock_mode ctrl =? DRC_LOCK_EXCLUSIVE)]; cbn;
      eexists _, _; (split; [done |]); by split_and!.
Qed.

(** C29: cleaning a page resource after instance [failed] left
    forgets that instance everywhere (owner, copies, edps, latest edp), ends
    the conversion, empties the queue giving every lock item back, and sends
    an error answer to every waiting request of another instance; the
    resource has to go exactly when nobody has the page any more. *)
Theorem clean_page_owner_forgets failed ctrl b pool fl ids rest :
  buf_inv b (queue_reqs (addr pool) ids) -> inst_ok failed -> queue_wf pool fl (br_convert_q b) ids rest ->
  exists gone msgs b' pool', clean_page_owner failed ctrl b pool = Done (gone, msgs, b', pool') /\
    queue_wf pool' (reverse ids ++ fl) (br_convert_q b') [] rest /\ frame_items pool pool' rest /\ same_place b b' /\
    req_inst_id (converting_req b') = CT_INVALID_ID8 /\ br_claimed_owner b' <> failed /\ br_latest_edp b' <> failed /\
    failed ∉ inst_set (br_readonly_copies b') /\ failed ∉ inst_set (br_edp_map b') /\
    (gone = true <-> br_claimed_owner b' = CT_INVALID_ID8 /\ br_readonly_copies b' = 0 /\ br_edp_map b' = 0) /\
    (forall r, r ∈ queue_reqs (addr pool) ids -> req_inst_id r <> failed -> error_to r ∈ msgs).
Proof.
  intros Hinv Hf Hq. pose proof (inst_ok_ne _ Hf) as Hfne. unfold clean_page_owner.
  destruct (clean_spec failed pool fl (br_convert_q b) ids rest Hq) as (q' & pool' & -> & Hq' & Hfr). cbn [mbind outcome_bind].
  pose proof (qw_rep _ _ _ _ _ Hq') as [Hcnt _].
  destruct (clean_converting_spec failed ctrl (set_br_convert_q q' b) pool') as (msgs & b1 & -> & Hpl & Hcp & Hedp & Hcq & Hcv);
    [apply Hinv | apply Hinv | done | done |]. cbn [mbind outcome_bind].
  destruct (drc_bitmap64_clear_Done (br_edp_map b1) failed Hedp Hf) as (m & -> & Hm & Hms & _). cbn [mbind outcome_bind].
  destruct (drc_bitmap64_clear_Done (br_readonly_copies b1) failed Hcp Hf) as (n & -> & Hn & Hns & _). cbn [mbind outcome_bind].
  set (b2 := set_br_readonly_copies n (set_br_edp_map m b1)).
  set (b3 := if br_latest_edp b2 =? failed then _ else _).
  assert (Hb3 : same_place b b3 /\ br_convert_q b3 = q' /\ req_inst_id (converting_req b3) = CT_INVALID_ID8 /\
    br_latest_edp b3 <> failed /\ br_readonly_copies b3 = n /\ br_edp_map b3 = m).
  { unfold b3. destruct (Z.eqb_spec (br_latest_edp b2) failed); cbn; split_and!; try done; congruence. }
  destruct Hb3 as (Hpl3 & Hq3 & Hc3 & Hl3 & Hn3 & Hm3).
  assert (Herr : forall r, r ∈ queue_reqs (addr pool) ids -> req_inst_id r <> failed -> error_to r ∈ errors_for failed (queue_reqs (addr pool) ids) ++ msgs).
  { intros r Hr Hne. apply elem_of_app. left. unfold errors_for. apply list_elem_of_fmap. exists r. split; [done |].
    by apply list_elem_of_filter. }
  assert (Hnot : forall X : gset Z, failed ∉ X ∖ {[failed]}) by set_solver.
  destruct (_ && _) eqn:Hown.
  - apply andb_true_iff in Hown as [H1%negb_true_iff%Z.eqb_neq H2%negb_true_iff%Z.eqb_neq].
    eexists _, _, _, _. split; [done |]. rewrite Hq3, Hn3, Hm3, Hns, Hms. split_and!; try done; naive_solver.
  - eexists _, _, _, _. split; [done |]. cbn. rewrite Hq3, Hn3, Hm3, Hns, Hms. split_and!; try done; try congruence.
    rewrite andb_true_iff, !Z.eqb_eq. naive_solver.
Qed.
End clean.

(** ** A small cluster *)

Module Demo.
#[global, program] Instance attr : KernelAttr := {| page_size := 8192; inst_id := 0; node_count := 2 |}.
Next Obligation. lia. Qed.
Next Obligation. unfold CT_MAX_INSTANCES. lia. Qed.
Next Obligation. unfold CT_MAX_INSTANCES. lia. Qed.

(** Nobody else holds anything: this thread runs alone. *)
Definition alone (rs ls : list Z) : Prop := rs = [] /\ ls = [].

Definition env : dtc_env :=
  mk_env REMASTER_DONE REFORM_DONE 1 DTC_WORKER false false true RECOVERY_FINISH (fun _ => false) [] (mk_drid 0 0 0 0) 7000000.
Definition io : dcs_io :=
  mk_io (fun _ _ => CT_SUCCESS) (fun _ _ => CT_SUCCESS) (fun _ _ _ => CT_SUCCESS) (fun _ _ _ => CT_SUCCESS) (fun _ _ _ => Some CT_SUCCESS).
Definition w : world := mk_world (fun _ => env) (fun _ => io) (fun _ c => c).

Definition raw_pool {A} : drc_res_pool A := mk_pool false 0 0 0 0 [] 0.
Definition raw_catalog : buf_catalog := mk_global (mk_map false raw_pool 0 []) [].

Definition c0 : page_ctx :=
  match drc_global_res_init raw_catalog 2 112 true true, drc_res_pool_init raw_pool 56 3 true with
  | Done (_, g), Done (_, p) => mk_pctx p g
  | _, _ => mk_pctx raw_pool raw_catalog
  end.

Lemma c0_ok : page_ok 2 alone [] [] c0.
Proof.
  destruct (page_init_ok 2 alone raw_catalog raw_pool 112 56 3) as (g & p & Hg & Hp & Hok & _); try done.
  unfold c0. by rewrite Hg, Hp.
Qed.

Definition pg : page_id_t := mk_page_id 1 100.
Definition req (inst mode cur now : Z) : drc_req_info := mk_req inst mode cur 0 inst 1 now 1 0 0.
Definition res0 : drc_req_owner_result := mk_result 0 0 0 false 0 0.

Lemma quiet_w : quiet w.
Proof. done. Qed.

Lemma recycle_ok_w : recycle_ok 2 alone w.
Proof. split; [by intros ? ? ? | intros n pagid mine litems c i b b' _ Hb _ _ Hp Hb' _ _; cbn in Hb'; by simplify_eq]. Qed.

Lemma keeps_converting_id k f : (forall c, f c = c) -> keeps_converting 2 alone k f.
Proof. intros Hf mine litems c i b _ Hb _ Hu Hc. exists b. by rewrite Hf. Qed.

Lemma holds_pending_id k f : (forall c, f c = c) -> holds_pending 2 alone k f.
Proof. intros Hf mine litems c i b _ Hb _ Hu Hp. exists b. by rewrite Hf. Qed.

Definition request (inst mode cur now : Z) (c : page_ctx) : page_ctx :=
  match drc_request_page_owner w pg (req inst mode cur now) false res0 c with Done (_, _, _, c) => c | Crash _ => c end.

Lemma request_ok inst mode cur now c : 0 <= inst -> page_ok 2 alone [] [] c -> page_ok 2 alone [] [] (request inst mode cur now c).
Proof.
  intros Hi Hok. unfold request.
  destruct (request_page_owner_ok 2 alone w pg (req inst mode cur now) false res0 [] [] c) as (st & r' & res & c' & -> & Hok'); try done.
  - apply recycle_ok_w.
  - by apply keeps_converting_id.
Qed.

Lemma request_step inst mode cur now c : 0 <= inst -> page_ok 2 alone [] [] c -> page_step 2 alone c (request inst mode cur now c).
Proof.
  intros Hi Hok. destruct (request_page_owner_ok 2 alone w pg (req inst mode cur now) false res0 [] [] c) as (st & r' & res & c' & Hrun & Hok'); try done.
  - apply recycle_ok_w.
  - by apply keeps_converting_id.
  - eapply (step_request 2 alone w pg (req inst mode cur now) false res0); [apply recycle_ok_w | by apply keeps_converting_id | done |].
    unfold request. by rewrite Hrun.
Qed.

Lemma admitted inst mode cur now : inst_ok inst -> request_admitted w pg (req inst mode cur now).
Proof. intros Hi. split; [exact Hi |]. vm_compute. done. Qed.

(** Node 1 owns the page; node 0 converts it to share mode; node 2 waits
    for exclusive access. *)
Definition c1 : page_ctx := request 1 DRC_LOCK_EXCLUSIVE DRC_LOCK_NULL 100 c0.
Definition c2 : page_ctx := request 0 DRC_LOCK_SHARE DRC_LOCK_NULL 200 c1.
Definition c3 : page_ctx := request 2 DRC_LOCK_EXCLUSIVE DRC_LOCK_NULL 300 c2.

Lemma c1_ok : page_ok 2 alone [] [] c1.
Proof. apply request_ok; [done | apply c0_ok]. Qed.
Lemma c2_ok : page_ok 2 alone [] [] c2.
Proof. apply request_ok; [done | apply c1_ok]. Qed.
Lemma c3_ok : page_ok 2 alone [] [] c3.
Proof. apply request_ok; [done | apply c2_ok]. Qed.

Lemma reach_c2 : exists g p, drc_global_res_init raw_catalog 2 112 true true = Done (CT_SUCCESS, g) /\
  drc_res_pool_init raw_pool 56 3 true = Done (CT_SUCCESS, p) /\ rtc (page_step 2 alone) (mk_pctx p g) c2.
Proof.
  destruct (page_init_ok 2 alone raw_catalog raw_pool 112 56 3) as (g & p & Hg & Hp & _); try done.
  exists g, p. split; [done |]. split; [done |].
  assert (E : c0 = mk_pctx p g) by (unfold c0; by rewrite Hg, Hp). rewrite <- E. apply (rtc_l _ _ c1).
  - apply (request_step 1 DRC_LOCK_EXCLUSIVE DRC_LOCK_NULL 100 c0); [lia | apply c0_ok].
  - apply rtc_once, (request_step 0 DRC_LOCK_SHARE DRC_LOCK_NULL 200 c1); [lia | apply c1_ok].
Qed.

Lemma inst_1 : inst_ok 1.
Proof. done. Qed.

Lemma inst_2 : inst_ok 2.
Proof. done. Qed.

Definition share_claim : claim_info := mk_claim 0 0 pg 0 false DRC_LOCK_SHARE.
Definition cvt0 : cvt_info := mk_cvt 0 0 0 0 pg 0 0 0 0 0.

Example c1_owner : option_map (fun v => (br_claimed_owner v.1, br_mode v.1, v.2)) (page_view c1 pg) = Some (1, DRC_LOCK_EXCLUSIVE, []).
Proof. vm_compute. reflexivity. Qed.
Example c3_waiting : option_map (fun v => (req_inst_id (converting_req v.1), List.map req_inst_id v.2)) (page_view c3 pg) = Some (0, [2]).
Proof. vm_compute. reflexivity. Qed.
End Demo.

(** ** The theorems *)

Section theorems.
Context `{KernelAttr} (pool_size : Z) (Q : list Z -> list Z -> Prop).
Abbreviation page_ok := (page_ok pool_size Q).

(** However other threads and reform interfere in the windows it
    leaves open, [drc_request_page_owner] returns, does not crash, and keeps
    the catalog well formed; it holds no resource or lock item afterwards
    that it did not hold before, so with nobody else running nothing leaks. *)
Theorem request_page_owner_safe w pagid r is_try res0 mine litems c :
  recycle_ok pool_size Q w -> keeps_converting pool_size Q pagid (wd_win w S_invalidate) -> 0 <= req_inst_id r -> page_ok mine litems c ->
  exists st r' res c', drc_request_page_owner w pagid r is_try res0 c = Done (st, r', res, c') /\ page_ok mine litems c'.
Proof. apply request_page_owner_ok. Qed.

(** However other threads and reform interfere in its windows,
    [drc_claim_page_owner] returns, does not crash, keeps the catalog well
    formed and gives back the lock items it takes out of the queue. *)
Theorem claim_page_owner_safe w ci cvt0 mine litems c :
  world_ok pool_size Q w -> keeps_converting pool_size Q (cl_page_id ci) (wd_win w S_invalidate) ->
  keeps_converting pool_size Q (cl_page_id ci) (wd_win w S_unlocked) -> page_ok mine litems c ->
  exists cvt msgs c', drc_claim_page_owner w ci cvt0 c = Done (cvt, msgs, c') /\ page_ok mine litems c'.
Proof. apply claim_page_owner_ok. Qed.

(** C1: whatever handlers of normal operation run after the catalog was
    created (requests, claims, releases, both ways of recycling, the cleaning of
    edp information and the query of an owner; not the handlers of a reform), in
    any order and with other threads changing the catalog in every window in which
    a handler has its page unlocked, no page in exclusive mode has read-only
    copies, requests wait only behind one that is being converted, and a page
    being converted has an owner.  In its windows a request or claim relies on
    the conversion of its own page not ending, and recycling on the resource it
    recycles being left alone; other pages may change in any way that keeps the
    catalog well formed. *)
Theorem page_reach_single_writer g pool size lsize lnum c' k b rs :
  map_inited (res_map g) = false -> inited (res_pool (res_map g)) = false -> block_header_size <= size ->
  0 < pool_size < 2 ^ 31 -> inited pool = false -> block_header_size <= lsize -> 0 < lnum <= CT_INVALID_ID32 -> Q [] [] ->
  (exists g' pool', drc_global_res_init g pool_size size true true = Done (CT_SUCCESS, g') /\
     drc_res_pool_init pool lsize lnum true = Done (CT_SUCCESS, pool') /\
     rtc (page_step pool_size Q) (mk_pctx pool' g') c') ->
  page_view c' k = Some (b, rs) ->
  (br_mode b = DRC_LOCK_EXCLUSIVE -> br_readonly_copies b = 0) /\
  (rs <> [] -> req_inst_id (converting_req b) <> CT_INVALID_ID8) /\
  (req_inst_id (converting_req b) <> CT_INVALID_ID8 -> inst_ok (br_claimed_owner b)).
Proof.
  intros Hm Hp Hsz Hps Hlp Hlsz Hln HQ (g' & pool' & Hr1 & Hr2 & Hreach) Hview.
  destruct (page_init_ok pool_size Q g pool size lsize lnum) as (g2 & pool2 & E1 & E2 & Hok & _); try done.
  rewrite E1 in Hr1. rewrite E2 in Hr2. simplify_eq.
  assert (Hok' : page_ok [] [] c').
  { clear Hview. revert Hok. induction Hreach as [| c c1 c2 Hstep _ IH]; [done |]. intros Hok. apply IH. by eapply page_step_ok. }
  pose proof (page_view_cases _ _ _ _ _ k Hok') as Hv. rewrite Hview in Hv.
  destruct Hv as (gh & i & b0 & ids & _ & _ & _ & _ & _ & _ & _ & -> & -> & Hinv & _). cbn. split_and!.
  - intros He. destruct (decide (br_readonly_copies b0 = 0)) as [| Hne]; [done |]. pose proof (bi_share _ _ Hinv Hne) as Hs.
    by rewrite He in Hs.
  - intros Hne Hc. by destruct (Hne (bi_idle _ _ Hinv Hc)).
  - intros Hc. destruct (bi_owner _ _ Hinv) as [E |]; [by destruct (bi_owned _ _ Hinv Hc) | done].
Qed.

(** C6: run alone, a claim that matches the request being converted
    transfers the page by [claim_rule], then converts the oldest waiting
    request that has not timed out, answers at most one request that now
    conflicts with an error, and leaves all other pages alone; any other
    claim changes nothing. *)
Theorem claim_page_owner_correct w ci cvt0 mine litems c b rs :
  quiet w -> page_ok mine litems c -> page_view c (cl_page_id ci) = Some (b, rs) ->
  exists cvt msgs c', drc_claim_page_owner w ci cvt0 c = Done (cvt, msgs, c') /\ page_ok mine litems c' /\
    same_but (cl_page_id ci) c c' /\
    exists b' rs', page_view c' (cl_page_id ci) = Some (b', rs') /\
      if decide (claim_applies ci b) then claim_effect (dtc_now (wd_env w S_locked)) ci b rs cvt msgs b' rs'
      else b' = b /\ rs' = rs /\ cv_req_id cvt = CT_INVALID_ID8 /\ msgs = [].
Proof. apply claim_page_owner_spec. Qed.

(** C7: run alone on a page of the catalog, a request is treated by
    [request_rule]: refused while the page is recycled or recovered, granted
    when nobody has it, otherwise it converts now, replaces its own earlier
    request, or joins the end of the queue; an exclusive request that converts
    first has the read-only copies dropped, succeeds when that does, and the
    copies are then forgotten; other pages are left alone. *)
Theorem request_page_owner_correct w pagid r is_try res0 mine litems c b rs :
  quiet w -> request_admitted w pagid r -> page_ok mine litems c -> page_view c pagid = Some (b, rs) ->
  exists st r' res c' out b1 b2 rs', drc_request_page_owner w pagid r is_try res0 c = Done (st, r', res, c') /\
    page_ok mine litems c' /\ same_but pagid c c' /\ page_view c' pagid = Some (b2, rs') /\ maybe_drop_copies b1 b2 /\
    request_rule (wd_env w S_clean) pagid (req_set_result DRC_REQ_OWNER_WAITING r) is_try b rs (pool_full (pc_pool c)) out r' b1 rs' /\
    (out = None -> st = CT_ERROR /\ b2 = b1) /\ (out = Some false -> st = CT_SUCCESS /\ b2 = b1) /\ 
    (out = Some true -> result_for r' b1 res /\ (rs_readonly_copies res = 0 \/ req_mode r' <> DRC_LOCK_EXCLUSIVE -> st = CT_SUCCESS /\ b2 = b1) /\
      (rs_readonly_copies res <> 0 -> req_mode r' = DRC_LOCK_EXCLUSIVE ->
        drops_copies w pagid (rs_readonly_copies res) (req_inst_id r') (req_version r') st b1 b2)).
Proof. apply request_existing_spec. Qed.

(** Run alone, a request for a page not in the catalog, with a
    free resource, is granted at once: the requester becomes the owner in
    the requested mode, with no copies and nobody waiting. *)
Theorem request_new_page_granted w pagid r is_try res0 mine litems c :
  quiet w -> request_admitted w pagid r -> page_ok mine litems c -> page_view c pagid = None ->
  ~ pool_full (res_pool (res_map (pc_res c))) ->
  DRC_STOP_DCS_IO_FOR_REFORMING (req_version r) (wd_env w S_relocked) pagid = false ->
  DRC_STOP_DCS_IO_FOR_REFORMING (req_version r) (wd_env w S_listed) pagid = false ->
  exists r' res c' b, drc_request_page_owner w pagid r is_try res0 c = Done (CT_SUCCESS, r', res, c') /\
    page_ok mine litems c' /\ same_but pagid c c' /\ page_view c' pagid = Some (b, []) /\
    rs_type res = DRC_REQ_OWNER_GRANTED /\ rs_curr_owner_id res = req_inst_id r /\ br_claimed_owner b = req_inst_id r /\
    br_mode b = req_mode r /\ br_readonly_copies b = 0 /\ req_inst_id (converting_req b) = CT_INVALID_ID8.
Proof. apply request_new_spec. Qed.

(** Releasing a page removes it from the catalog, and only it,
    exactly when the releaser owns it, nobody converts it and no instance
    has an edp of it; otherwise nothing changes and [released] tells whether
    the releaser has nothing to do with the page.  A page not in the catalog
    is a panic. *)
Theorem release_page_owner_correct old_id pagid mine litems c :
  page_ok mine litems c ->
  match page_view c pagid with
  | None => drc_release_page_owner old_id pagid c = Crash KnlPanic
  | Some (b, rs) =>
      exists released c', drc_release_page_owner old_id pagid c = Done (released, c') /\ page_ok mine litems c' /\
        if decide (releasable old_id b)
        then released = true /\ page_view c' pagid = None /\ same_but pagid c c'
        else c' = c /\ released = bool_decide (old_id <> br_claimed_owner b /\ old_id <> req_inst_id (converting_req b))
  end.
Proof. apply release_page_owner_spec. Qed.

(** The owner's recycle request never crashes and keeps the
    catalog well formed, whatever other threads do to other resources while
    the copies are invalidated. *)
Theorem buf_res_recycle_safe w owner_inst time page_id ver mine litems c :
  world_ok pool_size Q w -> holds_pending pool_size Q page_id (wd_win w S_invalidate) -> 0 <= owner_inst -> page_ok mine litems c ->
  exists c', drc_buf_res_recycle w owner_inst time page_id ver c = Done c' /\ page_ok mine litems c'.
Proof. apply buf_res_recycle_ok. Qed.

(** Cleaning the edp information of a page forgets the edps exactly
    when the page on disk is new enough, and touches no other page. *)
Theorem clean_edp_info_correct pagid lsn mine litems c :
  page_ok mine litems c ->
  match page_view c pagid with
  | None => drc_clean_edp_info pagid lsn c = Done (CT_ERROR, c)
  | Some (b, rs) => exists c', drc_clean_edp_info pagid lsn c = Done (CT_SUCCESS, c') /\ page_ok mine litems c' /\ same_but pagid c c' /\
      page_view c' pagid = Some (if br_lsn b <=? lsn then set_br_latest_edp_lsn 0 (set_br_latest_edp CT_INVALID_ID8 (set_br_edp_map 0 b)) else b, rs)
  end.
Proof. apply clean_edp_info_spec. Qed.
End theorems.

(** ** Their hypotheses hold in the small cluster *)

Module Witness.
Import Demo.

Lemma clean_page_owner_forgets_witness :
  exists b it pool, (g_items (pc_res c3)).[0] = Some b /\ (addr (pc_pool c3)).[0] = Some it /\
    buf_inv b [req_info it] /\ exists gone msgs b' pool', clean_page_owner 1 None b pool = Done (gone, msgs, b', pool') /\ br_claimed_owner b' <> 1.
Proof.
  pose proof (page_view_cases 2 alone _ _ _ pg c3_ok) as Hv.
  destruct (page_view c3 pg) as [[bv rs] |] eqn:Hview; [| vm_compute in Hview; discriminate Hview].
  destruct Hv as (gh & i & b & ids & Hst & Hl & Hi & Hget & Hb & Hids & Hk & -> & -> & Hinv & Hq).
  assert (i = 0) as -> by (vm_compute in Hl; congruence).
  destruct (addr (pc_pool c3)).[0] as [it |] eqn:Hit; [| vm_compute in Hit; discriminate Hit].
  assert (Hrs : queue_reqs (addr (pc_pool c3)) ids = [req_info it]).
  { assert (Hrs : option_map snd (page_view c3 pg) = Some [req_info it]); [| rewrite Hview in Hrs; cbn in Hrs; congruence].
    vm_compute in Hit. injection Hit as <-. vm_compute. reflexivity. }
  exists b, it, (pc_pool c3). split; [exact Hb |]. split; [reflexivity |]. split; [rewrite <- Hrs; exact Hinv |].
  destruct (clean_page_owner_forgets 1 None b (pc_pool c3) _ _ _ Hinv inst_1 Hq) as (gone & msgs & b' & pool' & Hrun & _ & _ & _ & _ & Ho & _).
  exists gone, msgs, b', pool'. exact (conj Hrun Ho).
Defined.

Lemma request_page_owner_safe_witness :
  page_ok 2 alone [] [] c1 /\ exists st r' res c', drc_request_page_owner w pg (req 0 DRC_LOCK_SHARE DRC_LOCK_NULL 200) false res0 c1 = Done (st, r', res, c').
Proof.
  split; [apply c1_ok |]. destruct (request_page_owner_safe 2 alone w pg (req 0 DRC_LOCK_SHARE DRC_LOCK_NULL 200) false res0 [] [] c1)
    as (st & r' & res & c' & Hrun & _); [apply recycle_ok_w | by apply keeps_converting_id | done | apply c1_ok | by exists st, r', res, c'].
Defined.

Lemma claim_page_owner_safe_witness :
  page_ok 2 alone [] [] c3 /\ exists cvt msgs c', drc_claim_page_owner w share_claim cvt0 c3 = Done (cvt, msgs, c').
Proof.
  split; [apply c3_ok |]. destruct (claim_page_owner_safe 2 alone w share_claim cvt0 [] [] c3) as (cvt & msgs & c' & Hrun & _);
    [apply recycle_ok_w | by apply keeps_converting_id | by apply keeps_converting_id | apply c3_ok | by exists cvt, msgs, c'].
Defined.

Lemma page_reach_single_writer_witness :
  exists b rs, page_view c2 pg = Some (b, rs) /\ (br_mode b = DRC_LOCK_EXCLUSIVE -> br_readonly_copies b = 0).
Proof.
  destruct (page_view c2 pg) as [[b rs] |] eqn:Hview; [| vm_compute in Hview; discriminate Hview]. exists b, rs. split; [reflexivity |].
  refine (proj1 (page_reach_single_writer 2 alone raw_catalog raw_pool 112 56 3 c2 pg b rs _ _ _ _ _ _ _ _ _ Hview));
    try reflexivity; try (unfold block_header_size, CT_INVALID_ID32; lia); [split; reflexivity |].
  exact reach_c2.
Defined.

Lemma claim_page_owner_correct_witness :
  exists b rs, page_view c3 pg = Some (b, rs) /\ claim_applies share_claim b /\
    exists cvt msgs c', drc_claim_page_owner w share_claim cvt0 c3 = Done (cvt, msgs, c') /\ cv_req_id cvt = 2.
Proof.
  destruct (page_view c3 pg) as [[b rs] |] eqn:Hview; [| vm_compute in Hview; discriminate Hview]. exists b, rs. split; [reflexivity |].
  destruct (claim_page_owner_correct 2 alone w share_claim cvt0 [] [] c3 b rs quiet_w c3_ok Hview) as (cvt & msgs & c' & Hrun & _).
  split; [vm_compute in Hview; injection Hview as <- _; vm_compute; split_and!; congruence |].
  exists cvt, msgs, c'. split; [exact Hrun |]. vm_compute in Hrun. injection Hrun as <- _ _. reflexivity.
Defined.

Lemma request_page_owner_correct_witness :
  exists b rs, page_view c2 pg = Some (b, rs) /\
    exists st r' res c', drc_request_page_owner w pg (req 2 DRC_LOCK_EXCLUSIVE DRC_LOCK_NULL 300) false res0 c2 = Done (st, r', res, c') /\
      rs_type res = DRC_REQ_OWNER_WAITING.
Proof.
  destruct (page_view c2 pg) as [[b rs] |] eqn:Hview; [| vm_compute in Hview; discriminate Hview]. exists b, rs. split; [reflexivity |].
  destruct (request_page_owner_correct 2 alone w pg (req 2 DRC_LOCK_EXCLUSIVE DRC_LOCK_NULL 300) false res0 [] [] c2 b rs quiet_w (admitted 2 _ _ _ inst_2) c2_ok Hview)
    as (st & r' & res & c' & out & b1 & b2 & rs' & Hrun & _).
  exists st, r', res, c'. split; [exact Hrun |]. vm_compute in Hrun. injection Hrun as _ _ <- _. reflexivity.
Defined.

Lemma request_new_page_granted_witness :
  page_view c0 pg = None /\ exists r' res c', drc_request_page_owner w pg (req 1 DRC_LOCK_EXCLUSIVE DRC_LOCK_NULL 100) false res0 c0 =
    Done (CT_SUCCESS, r', res, c') /\ rs_type res = DRC_REQ_OWNER_GRANTED.
Proof.
  assert (Hview : page_view c0 pg = None) by (vm_compute; reflexivity). split; [exact Hview |].
  destruct (request_new_page_granted 2 alone w pg (req 1 DRC_LOCK_EXCLUSIVE DRC_LOCK_NULL 100) false res0 [] [] c0 quiet_w (admitted 1 _ _ _ inst_1) c0_ok Hview)
    as (r' & res & c' & b & Hrun & _ & _ & _ & Hty & _); [vm_compute; discriminate | reflexivity | reflexivity |].
  exists r', res, c'. exact (conj Hrun Hty).
Defined.

Lemma release_page_owner_correct_witness :
  page_ok 2 alone [] [] c1 /\ exists released c', drc_release_page_owner 1 pg c1 = Done (released, c') /\ page_view c' pg = None.
Proof.
  split; [apply c1_ok |]. pose proof (release_page_owner_correct 2 alone 1 pg [] [] c1 c1_ok) as Hr.
  destruct (page_view c1 pg) as [[b rs] |] eqn:Hview; [| vm_compute in Hview; discriminate Hview].
  destruct Hr as (released & c' & Hrun & _ & Hcase). exists released, c'. split; [exact Hrun |].
  rewrite decide_True in Hcase; [apply Hcase |]. vm_compute in Hview. injection Hview as <- _. vm_compute. split_and!; reflexivity.
Defined.

Lemma buf_res_recycle_safe_witness : exists c', drc_buf_res_recycle w 1 500 pg 1 c1 = Done c' /\ page_view c' pg = None.
Proof.
  destruct (buf_res_recycle_safe 2 alone w 1 500 pg 1 [] [] c1) as (c' & Hrun & _);
    [apply recycle_ok_w | by apply holds_pending_id | lia | apply c1_ok |].
  exists c'. split; [exact Hrun |]. vm_compute in Hrun. injection Hrun as <-. vm_compute. reflexivity.
Defined.

Lemma clean_edp_info_correct_witness :
  page_ok 2 alone [] [] c1 /\ exists c', drc_clean_edp_info pg 10 c1 = Done (CT_SUCCESS, c').
Proof.
  split; [apply c1_ok |]. pose proof (clean_edp_info_correct 2 alone pg 10 [] [] c1 c1_ok) as Hr.
  destruct (page_view c1 pg) as [[b rs] |] eqn:Hview; [| vm_compute in Hview; discriminate Hview].
  destruct Hr as (c' & Hrun & _). exists c'. exact Hrun.
Defined.
End Witness.
