(* ===== verification/DrcDcs.v ===== *)
(** * Cache coherence: requests and transfers of pages (dtc_dcs.c)

    A session that needs a page in a mode its instance does not have it in asks
    the master of the page.  The master grants it, tells the requester that its
    instance already is the owner, or asks the owner to send the page to the
    requester; the requester then claims the ownership at the master, which lets
    the next request convert.  This file has the handlers of the three sides, as
    functions of the buffer control of the page at that instance, of the clocks
    of the instance and, at the master, of the page catalog ([DrcPage]).

    A handler returns the messages it sends; [sent] tells whether sending
    succeeded (dcs_send_data_retry tries until the receiver is gone).  Waiting
    for an answer is not a step of a handler: what precedes it and what the
    answer does are functions of their own.  [disk] is the page on disk, which
    buf_load_page reads.  Every read of the reform state is an argument.
    Source: src/pkg/src/cluster/dtc_dcs.c, dtc_dcs.h. *)

From stdpp Require Import prelude list.
From S2P Require Import Prelude Bitmap ResPool DrcList ResMap ConvertQ GlobalRes DrcTypes BufCtrl DrcPage.

Open Scope Z_scope.
Open Scope drc_scope.

(** ** Messages *)

Record msg_page_req := mk_page_req {
  pq_src_inst : Z; pq_src_sid : Z; pq_rsn : Z; pq_start_time : Z; pq_page_id : page_id_t; pq_req_mode : Z; pq_curr_mode : Z;
  pq_req_version : Z; pq_lsn : Z; pq_action : Z; pq_is_retry : bool;
}.

Definition MES_FLAG_DIRTY_PAGE : Z := 1.
Definition MES_FLAG_REMOTE_DIRTY_PAGE : Z := 2.
Definition MES_FLAG_NEED_LOAD : Z := 4.
Definition MES_FLAG_READONLY2X : Z := 8.
Definition has_flag (flags f : Z) : bool := negb (Z.land flags f =? 0).

(** The page follows the head of the message when it is sent.  [pa_flushed] is
    not part of the message: how far the sender's redo log was on disk when the
    message left, for which the write-ahead rule is stated. *)
Record msg_ask_page_ack := mk_page_ack {
  pa_lsn : Z; pa_scn : Z; pa_mode : Z; pa_req_version : Z; pa_flags : Z; pa_page : option page_head; pa_flushed : Z;
}.
Record msg_ack_owner := mk_ack_owner { ao_req_version : Z; ao_lsn : Z; ao_action : Z; ao_req_mode : Z }.
Record msg_pg_ack_ld := mk_ack_ld { ld_master_lsn : Z; ld_scn : Z; ld_req_version : Z }.

(** The answers a requester can get. *)
Inductive dcs_ack :=
| MES_CMD_PAGE_READY (a : msg_ask_page_ack)
| MES_CMD_MASTER_ACK_NEED_LOAD (a : msg_pg_ack_ld)
| MES_CMD_MASTER_ACK_ALREADY_OWNER (a : msg_ack_owner)
| MES_CMD_ERROR_MSG.

Inductive dcs_msg :=
| Answer_to (inst sid rsn : Z) (a : dcs_ack)
| MES_CMD_ASK_MASTER (master : Z) (q : msg_page_req)
| MES_CMD_ASK_OWNER (owner : Z) (q : msg_page_req)
| MES_CMD_CLAIM_OWNER_REQ (master : Z) (ci : claim_info) (req_version : Z).

Definition answer (q : msg_page_req) (a : dcs_ack) : dcs_msg := Answer_to (pq_src_inst q) (pq_src_sid q) (pq_rsn q) a.
Definition error_answer (m : error_msg) : dcs_msg := Answer_to (em_inst m) (em_sid m) (em_rsn m) MES_CMD_ERROR_MSG.

(** The clocks of an instance and how far its redo log is on disk. *)
Record node_st := mk_node_st { nd_lsn : Z; nd_scn : Z; nd_flushed_lfn : Z }.

Definition dtc_update_lsn (lamport : Z) (nd : node_st) : node_st :=
  if lamport - nd_lsn nd <=? 0 then nd else mk_node_st (nd_lsn nd + (lamport - nd_lsn nd)) (nd_scn nd) (nd_flushed_lfn nd).
Definition dtc_update_scn (lamport : Z) (nd : node_st) : node_st :=
  if lamport <=? nd_scn nd then nd else mk_node_st (nd_lsn nd) lamport (nd_flushed_lfn nd).

(** ** Buffer controls of the three sides *)

(** After a recovery the master tells what an earlier dirty page has become.
    Loading the page ([disk]) is assumed to succeed: the source panics when it
    does not; the check of the page's change number (CHECK_PAGE_PCN) is left out. *)
Definition dcs_clean_local_ctrl (disk : page_head) (action clean_lsn : Z) (c : buf_ctrl) : outcome buf_ctrl :=
  _ ← knl_panic (bc_is_edp c);
  if bc_is_fixed c then Done c
  else
    let c := set_bc_is_fixed true c in
    c ← (if action =? DRC_RES_SHARE_ACTION then Done (set_bc_is_edp false c)
         else if action =? DRC_RES_CLEAN_EDP_ACTION then
           if ph_lsn (bc_page c) <=? clean_lsn then dcs_buf_clean_ctrl_edp c else Done c
         else if action =? DRC_RES_EXCLUSIVE_ACTION then
           let disk_lsn := if decide (bc_page_id c = ph_id disk) then ph_lsn disk else 0 in
           c ← (if ph_lsn (bc_page c) <? disk_lsn then dcs_buf_clean_ctrl_edp (set_bc_page disk c) else Done c);
           Done (set_bc_force_request false (set_bc_load_status BUF_IS_LOADED (set_bc_lock_mode DRC_LOCK_EXCLUSIVE (set_bc_is_edp false c))))
         else Done c);
    Done (set_bc_is_fixed false c).

(** The requester is the first to have the page. *)
Definition dcs_set_ctrl4granted (c : buf_ctrl) : outcome buf_ctrl :=
  let c := set_bc_load_status BUF_NEED_LOAD c in
  c ← (if bc_is_edp c then _ ← knl_panic (bc_is_dirty c && bc_is_edp c && negb (bc_is_readonly c)); dcs_buf_clean_ctrl_edp c else Done c);
  Done (set_bc_transfer_status BUF_TRANS_NONE (set_bc_force_request false (set_bc_is_fixed false (set_bc_lock_mode DRC_LOCK_EXCLUSIVE c)))).

Definition dcs_set_ctrl4already_owner (disk : page_head) (req_mode action : Z) (c : buf_ctrl) : outcome buf_ctrl :=
  let c := set_bc_is_fixed false c in
  c ← (if negb (action =? DRC_RES_INVALID_ACTION) && bc_is_edp c then
         _ ← knl_panic ((action =? DRC_RES_SHARE_ACTION) || (action =? DRC_RES_EXCLUSIVE_ACTION));
         dcs_clean_local_ctrl disk action CT_INVALID_ID64 c
       else Done c);
  _ ← knl_panic (negb (bc_is_edp c));
  let c := if req_mode =? DRC_LOCK_EXCLUSIVE then set_bc_is_edp false (set_bc_lock_mode DRC_LOCK_EXCLUSIVE c)
           else set_bc_lock_mode DRC_LOCK_SHARE c in
  Done (set_bc_transfer_status BUF_TRANS_NONE c).

(** The page arrives, or the permission to load it or to write the copy there is. *)
Definition dcs_handle_page_from_owner (ack : msg_ask_page_ack) (mode : Z) (nd : node_st) (c : buf_ctrl) : outcome (node_st * buf_ctrl) :=
  let flags := pa_flags ack in
  _ ← knl_panic (DCS_BUF_CTRL_NOT_OWNER c);
  c ← match pa_page ack with
      | Some pg =>
          _ ← knl_panic (negb (has_flag flags MES_FLAG_NEED_LOAD) && negb (has_flag flags MES_FLAG_READONLY2X));
          _ ← knl_panic (dtc_get_ctrl_lsn c <=? ph_lsn pg);
          Done (set_bc_page pg c)
      | None => Done c
      end;
  let nd := if pa_lsn ack =? 0 then nd else dtc_update_lsn (pa_lsn ack) nd in
  let nd := if pa_scn ack =? 0 then nd else dtc_update_scn (pa_scn ack) nd in
  c ← (if has_flag flags MES_FLAG_NEED_LOAD && bc_is_edp c then dcs_buf_clean_ctrl_edp c else Done c);
  _ ← knl_panic (mode =? pa_mode ack);
  let c := set_bc_is_fixed false (set_bc_lock_mode mode c) in
  let c := if mode =? DRC_LOCK_EXCLUSIVE
           then set_bc_is_remote_dirty (has_flag flags MES_FLAG_DIRTY_PAGE || has_flag flags MES_FLAG_REMOTE_DIRTY_PAGE) (set_bc_is_edp false c)
           else set_bc_is_remote_dirty false c in
  let c := set_bc_force_request false c in
  Done (nd, set_bc_load_status (if has_flag flags MES_FLAG_NEED_LOAD then BUF_NEED_LOAD else BUF_IS_LOADED) c).

(** ** The owner's side *)

(** What the owner finds: an error, or the control, and whether the requester
    has to load the page itself. *)
Definition dcs_read_local_page4transfer (q : msg_page_req) (c : option buf_ctrl) : outcome (status_t * bool * option buf_ctrl) :=
  found ← buf_try_latchx_page (pq_page_id q) (pq_req_mode q =? DRC_LOCK_EXCLUSIVE) c;
  match (found : option buf_ctrl) with
  | None => Done (CT_SUCCESS, false, None)
  | Some c =>
      let failed := bool_decide (bc_load_status c = BUF_LOAD_FAILED) in
      if failed && BUF_IN_USE_IS_RECYCLABLE c then Done (CT_SUCCESS, true, Some c)
      else if failed && (negb (bool_decide (ph_id (bc_page c) = bc_page_id c)) || negb (pq_lsn q <=? ph_lsn (bc_page c)))
      then Done (CT_ERROR, false, Some c)
      else if negb (DCS_BUF_CTRL_IS_OWNER c) && negb (pq_is_retry q) then Done (CT_ERROR, false, Some c)
      else if pq_curr_mode q =? DRC_LOCK_EXCLUSIVE then Done (CT_ERROR, false, Some c)
      else Done (CT_SUCCESS, false, Some (if pq_req_mode q =? DRC_LOCK_EXCLUSIVE then set_bc_transfer_status BUF_TRANS_REL_OWNER c else c))
  end.

(** The flag of the answer, or an error: the requester's own copy can become
    exclusive when the owner shares the page. *)
Definition transfer_flag (disk : page_head) (q : msg_page_req) (c : buf_ctrl) : outcome (option Z * buf_ctrl) :=
  c ← (if negb (pq_action q =? DRC_RES_INVALID_ACTION) && bc_is_edp c then dcs_clean_local_ctrl disk (pq_action q) CT_INVALID_ID64 c else Done c);
  let upgrade := (pq_curr_mode q =? DRC_LOCK_SHARE) && (pq_req_mode q =? DRC_LOCK_EXCLUSIVE) in
  if upgrade && negb (bc_lock_mode c =? DRC_LOCK_SHARE) && negb (pq_is_retry q) then Done (None, c)
  else if ph_lsn (bc_page c) <? pq_lsn q then Done (None, c)
  else Done (Some (if upgrade then MES_FLAG_READONLY2X else 0), c).

(** The redo log of a page that changed here is on disk before the page leaves:
    [flush lfn] is how far it is after [log_flush], [None] when that fails. *)
Definition transfer_flush (flush : Z -> option Z) (c : buf_ctrl) (nd : node_st) : outcome node_st :=
  if (bc_is_dirty c || bc_is_marked c) && (nd_flushed_lfn nd <? bc_lastest_lfn c) then
    match flush (nd_flushed_lfn nd) with
    | Some lfn => Done (mk_node_st (nd_lsn nd) (nd_scn nd) lfn)
    | None => Crash KnlPanic
    end
  else Done nd.

(** The control of the owner after the page was sent. *)
Definition transfer_sent (q : msg_page_req) (nd : node_st) (c : buf_ctrl) : buf_ctrl :=
  if negb (DCS_BUF_CTRL_IS_OWNER c) then c
  else if pq_req_mode q =? DRC_LOCK_EXCLUSIVE then
    let c := set_bc_load_status BUF_LOAD_FAILED (set_bc_lock_mode DRC_LOCK_NULL c) in
    let c := if bc_is_dirty c then set_bc_edp_scn (nd_scn nd) (set_bc_is_edp true c) else c in
    set_bc_is_remote_dirty false c
  else set_bc_lock_mode DRC_LOCK_SHARE c.

Definition transfer_invalid (q : msg_page_req) : bool :=
  (INVALID_FILE_ID <=? file (pq_page_id q)) ||
  (negb (pq_req_mode q =? DRC_LOCK_EXCLUSIVE) && negb (pq_req_mode q =? DRC_LOCK_SHARE)) ||
  (negb (pq_action q =? DRC_RES_INVALID_ACTION) && negb (pq_action q =? DRC_RES_SHARE_ACTION) && negb (pq_action q =? DRC_RES_EXCLUSIVE_ACTION)).

(** The answer: the page itself goes along unless the requester can do without. *)
Definition page_ack (q : msg_page_req) (flag : Z) (nd : node_st) (c : buf_ctrl) : msg_ask_page_ack :=
  let flags := Z.lor flag (if bc_is_dirty c then MES_FLAG_DIRTY_PAGE else 0) in
  let flags := Z.lor flags (if bc_is_remote_dirty c then MES_FLAG_REMOTE_DIRTY_PAGE else 0) in
  mk_page_ack (nd_lsn nd) (nd_scn nd) (pq_req_mode q) (pq_req_version q) flags (if flag =? 0 then Some (bc_page c) else None)
    (nd_flushed_lfn nd).

(** [flag] is the flag found, [c] the control latched. *)
Definition transfer_send (e' : dtc_env) (flush : Z -> option Z) (sent : bool) (q : msg_page_req) (flag : Z) (nd : node_st) (c : buf_ctrl)
    : outcome (status_t * list dcs_msg * node_st * buf_ctrl) :=
  _ ← knl_panic (negb (bc_is_readonly c));
  nd ← transfer_flush flush c nd;
  _ ← (if pq_req_mode q =? DRC_LOCK_EXCLUSIVE then knl_panic (negb (bc_is_marked c) && negb (bc_is_readonly c))
       else knl_panic (negb (flag =? MES_FLAG_READONLY2X)));
  if DRC_STOP_DCS_IO_FOR_REFORMING (pq_req_version q) e' (pq_page_id q)
  then Done (CT_ERROR, [answer q MES_CMD_ERROR_MSG], nd, set_bc_transfer_status BUF_TRANS_NONE c)
  else if (sent : bool) then Done (CT_SUCCESS, [answer q (MES_CMD_PAGE_READY (page_ack q flag nd c))], nd, transfer_sent q nd c)
  else
    Done (CT_ERROR, [], nd, if decide (bc_transfer_status c = BUF_TRANS_REL_OWNER) then set_bc_transfer_status BUF_TRANS_NONE c else c).

Definition dcs_owner_transfer_page (e e' : dtc_env) (flush : Z -> option Z) (sent : bool) (disk : page_head) (q : msg_page_req)
    (nd : node_st) (c : option buf_ctrl) : outcome (status_t * list dcs_msg * node_st * option buf_ctrl) :=
  if transfer_invalid q then Done (CT_ERROR, [answer q MES_CMD_ERROR_MSG], nd, c)
  else if DRC_STOP_DCS_IO_FOR_REFORMING (pq_req_version q) e (pq_page_id q) then Done (CT_ERROR, [answer q MES_CMD_ERROR_MSG], nd, c)
  else
    '(ret, need_load, found) ← dcs_read_local_page4transfer q c;
    match (ret : status_t), (found : option buf_ctrl) with
    | CT_ERROR, _ => Done (CT_ERROR, [answer q MES_CMD_ERROR_MSG], nd, found)
    | CT_SUCCESS, None =>
        let ack := mk_page_ack 0 0 (pq_req_mode q) (pq_req_version q) MES_FLAG_NEED_LOAD None (nd_flushed_lfn nd) in
        Done (if (sent : bool) then CT_SUCCESS else CT_ERROR, if sent then [answer q (MES_CMD_PAGE_READY ack)] else [], nd, None)
    | CT_SUCCESS, Some c =>
        '(flag, c) ← (if (need_load : bool) then Done (Some MES_FLAG_NEED_LOAD, c) else transfer_flag disk q c);
        match (flag : option Z) with
        | None => Done (CT_ERROR, [answer q MES_CMD_ERROR_MSG], nd, Some c)
        | Some flag =>
            '(ret, msgs, nd, c) ← transfer_send e' flush sent q flag nd c;
            Done (ret, msgs, nd, Some c)
        end
    end.

(** ** The requester's side

    [inst] and [sid] are the requesting instance and session. *)

Definition claim_of (inst sid : Z) (has_edp : bool) (mode : Z) (c : buf_ctrl) : claim_info :=
  mk_claim inst sid (bc_page_id c) (dtc_get_ctrl_latest_lsn c) has_edp mode.

Definition dcs_handle_ack_need_load (e : dtc_env) (ack : msg_pg_ack_ld) (nd : node_st) (c : buf_ctrl) : outcome (status_t * node_st * buf_ctrl) :=
  if DRC_STOP_DCS_IO_FOR_REFORMING (ld_req_version ack) e (bc_page_id c) then Done (CT_ERROR, nd, c)
  else
    let nd := dtc_update_scn (ld_scn ack) (dtc_update_lsn (ld_master_lsn ack) nd) in
    c ← dcs_set_ctrl4granted c;
    Done (CT_SUCCESS, nd, c).

(** The last component is the claim that goes to the master. *)
Definition dcs_handle_ack_already_owner (e : dtc_env) (disk : page_head) (inst sid : Z) (ack : msg_ack_owner) (mode : Z) (c : buf_ctrl)
    : outcome (status_t * buf_ctrl * option (claim_info * Z)) :=
  if DRC_STOP_DCS_IO_FOR_REFORMING (ao_req_version ack) e (bc_page_id c) then Done (CT_ERROR, c, None)
  else
    _ ← knl_panic (mode <=? ao_req_mode ack);
    c ← dcs_set_ctrl4already_owner disk (ao_req_mode ack) (ao_action ack) c;
    Done (CT_SUCCESS, c, Some (claim_of inst sid false (ao_req_mode ack) c, ao_req_version ack)).

Definition dcs_handle_ack_page_ready (e : dtc_env) (inst sid : Z) (ack : msg_ask_page_ack) (mode : Z) (nd : node_st) (c : buf_ctrl)
    : outcome (status_t * node_st * buf_ctrl * option (claim_info * Z)) :=
  if DRC_STOP_DCS_IO_FOR_REFORMING (pa_req_version ack) e (bc_page_id c) then Done (CT_ERROR, nd, c, None)
  else
    _ ← knl_panic (mode <=? pa_mode ack);
    '(nd, c) ← dcs_handle_page_from_owner ack (pa_mode ack) nd c;
    Done (CT_SUCCESS, nd, c, Some (claim_of inst sid (has_flag (pa_flags ack) MES_FLAG_DIRTY_PAGE) (pa_mode ack) c, pa_req_version ack)).

Definition dcs_handle_ask_master_ack (e : dtc_env) (disk : page_head) (inst sid : Z) (ack : dcs_ack) (mode : Z) (nd : node_st) (c : buf_ctrl)
    : outcome (status_t * node_st * buf_ctrl * option (claim_info * Z)) :=
  match ack with
  | MES_CMD_MASTER_ACK_NEED_LOAD a => '(st, nd, c) ← dcs_handle_ack_need_load e a nd c; Done (st, nd, c, None)
  | MES_CMD_MASTER_ACK_ALREADY_OWNER a => '(st, c, cl) ← dcs_handle_ack_already_owner e disk inst sid a mode c; Done (st, nd, c, cl)
  | MES_CMD_ERROR_MSG => Done (CT_ERROR, nd, c, None)
  | MES_CMD_PAGE_READY a => dcs_handle_ack_page_ready e inst sid a mode nd c
  end.

(** The request to a master elsewhere; action and is_retry are left unset. *)
Definition dcs_send_ask_master_req (inst sid rsn now master : Z) (req_mode version : Z) (c : buf_ctrl) : dcs_msg :=
  MES_CMD_ASK_MASTER master
    (mk_page_req inst sid rsn now (bc_page_id c) req_mode (bc_lock_mode c) version (dtc_get_ctrl_lsn c) DRC_RES_INVALID_ACTION false).

(** A copy or the ownership is invalidated on behalf of the master. *)
Definition dcs_process_invld_req (e e' : dtc_env) (win : option buf_ctrl -> option buf_ctrl) (is_owner : bool) (pagid : page_id_t)
    (version : Z) (c : option buf_ctrl) : outcome (option status_t * option buf_ctrl) :=
  if IS_INVALID_PAGID pagid then Done (None, c)
  else if DRC_STOP_DCS_IO_FOR_REFORMING version e pagid then Done (Some CT_ERROR, c)
  else
    '(ret, c) ← (if is_owner then buf_invalidate_page_owner e' win pagid version c else buf_invalidate_page_with_version e' pagid version c);
    Done (Some ret, c).

(** ** The master's side

    [nd] and [c] are the clocks and the control of the master itself, which may
    own the page. *)
Section master.
Context `{KernelAttr}.

(** What the master reads while it handles a message: the reform state at three
    points, the log and disk of its own buffer, and whether sending succeeds. *)
Record master_io := mk_mio {
  mi_world : world; mi_entry : dtc_env; mi_transfer : dtc_env; mi_transfer2 : dtc_env;
  mi_flush : Z -> option Z; mi_disk : page_head; mi_sent : bool;
}.

Definition dcs_notify_owner_for_page_r (e : dtc_env) (sent : bool) (owner_id : Z) (q : msg_page_req) : status_t * list dcs_msg :=
  if negb (owner_id =? pq_src_inst q) then
    if DRC_STOP_DCS_IO_FOR_REFORMING (pq_req_version q) e (pq_page_id q) then (CT_ERROR, [])
    else if sent then (CT_SUCCESS, [MES_CMD_ASK_OWNER owner_id q]) else (CT_ERROR, [])
  else if sent
  then (CT_SUCCESS, [answer q (MES_CMD_MASTER_ACK_ALREADY_OWNER (mk_ack_owner (pq_req_version q) (pq_lsn q) (pq_action q) (pq_req_mode q)))])
  else (CT_ERROR, []).

Definition dcs_notify_owner_for_page (io : master_io) (owner_id : Z) (q : msg_page_req) (nd : node_st) (c : option buf_ctrl)
    : outcome (status_t * list dcs_msg * node_st * option buf_ctrl) :=
  if (inst_id =? owner_id) && negb (owner_id =? pq_src_inst q)
  then dcs_owner_transfer_page (mi_transfer io) (mi_transfer2 io) (mi_flush io) (mi_sent io) (mi_disk io) q nd c
  else let '(st, msgs) := dcs_notify_owner_for_page_r (mi_transfer io) (mi_sent io) owner_id q in Done (st, msgs, nd, c).

(** The request in the form of the catalog; the fields the code leaves unset are 0. *)
Definition page_req_info (q : msg_page_req) : drc_req_info :=
  mk_req (pq_src_inst q) (pq_req_mode q) (pq_curr_mode q) 0 (pq_src_sid q) (pq_rsn q) (pq_start_time q) (pq_req_version q) (pq_lsn q) 0.

Definition no_result : drc_req_owner_result := mk_result 0 0 0 false 0 0.

(** The request as it goes on, with what the catalog decided. *)
Definition forwarded (q : msg_page_req) (res : drc_req_owner_result) : msg_page_req :=
  mk_page_req (pq_src_inst q) (pq_src_sid q) (pq_rsn q) (pq_start_time q) (pq_page_id q) (rs_req_mode res) (pq_curr_mode q)
    (pq_req_version q) (pq_lsn q) (rs_action res) (rs_is_retry res).

Definition dcs_process_ask_master_for_page (io : master_io) (q : msg_page_req) (nd : node_st) (c : option buf_ctrl) (g : page_ctx)
    : outcome (list dcs_msg * node_st * option buf_ctrl * page_ctx) :=
  if (DRC_LOCK_MODE_MAX <=? pq_req_mode q) || (DRC_LOCK_MODE_MAX <=? pq_curr_mode q) then Done ([], nd, c, g)
  else if DRC_STOP_DCS_IO_FOR_REFORMING (pq_req_version q) (mi_entry io) (pq_page_id q) then Done ([answer q MES_CMD_ERROR_MSG], nd, c, g)
  else
    '(ret, _, res, g) ← drc_request_page_owner (mi_world io) (pq_page_id q) (page_req_info q) false no_result g;
    match (ret : status_t) with
    | CT_ERROR => Done ([answer q MES_CMD_ERROR_MSG], nd, c, g)
    | CT_SUCCESS =>
        let q := forwarded q res in
        let sent (a : dcs_ack) := if mi_sent io then [answer q a] else [] in
        if rs_type res =? DRC_REQ_OWNER_GRANTED then
          Done (sent (MES_CMD_MASTER_ACK_NEED_LOAD (mk_ack_ld (nd_lsn nd) (nd_scn nd) (pq_req_version q))), nd, c, g)
        else if rs_type res =? DRC_REQ_OWNER_ALREADY_OWNER then
          Done (sent (MES_CMD_MASTER_ACK_ALREADY_OWNER (mk_ack_owner (pq_req_version q) (pq_lsn q) (pq_action q) (pq_req_mode q))), nd, c, g)
        else if rs_type res =? DRC_REQ_OWNER_CONVERTING then
          '(_, msgs, nd, c) ← dcs_notify_owner_for_page io (rs_curr_owner_id res) q nd c;
          Done (msgs, nd, c, g)
        else Done ([], nd, c, g)
    end.

(** The owner is asked on behalf of the request that converts next. *)
Definition cvt_request (cvt : cvt_info) : msg_page_req :=
  mk_page_req (cv_req_id cvt) (cv_req_sid cvt) (cv_req_rsn cvt) 0 (cv_pageid cvt) (cv_req_mode cvt) (cv_curr_mode cvt)
    (cv_req_version cvt) (cv_lsn cvt) DRC_RES_INVALID_ACTION false.

Definition dcs_try_notify_owner_for_page (io : master_io) (cvt : cvt_info) (nd : node_st) (c : option buf_ctrl)
    : outcome (status_t * list dcs_msg * node_st * option buf_ctrl) :=
  if cv_req_id cvt =? CT_INVALID_ID8 then Done (CT_SUCCESS, [], nd, c)
  else dcs_notify_owner_for_page io (cv_owner_id cvt) (cvt_request cvt) nd c.

Definition no_cvt (pagid : page_id_t) : cvt_info := mk_cvt 0 0 0 0 pagid 0 0 0 0 0.

Definition dcs_process_claim_ownership_req (io : master_io) (ci : claim_info) (version : Z) (nd : node_st) (c : option buf_ctrl) (g : page_ctx)
    : outcome (list dcs_msg * node_st * option buf_ctrl * page_ctx) :=
  if DRC_STOP_DCS_IO_FOR_REFORMING version (mi_entry io) (cl_page_id ci) then Done ([], nd, c, g)
  else
    '(cvt, errs, g) ← drc_claim_page_owner (mi_world io) ci (no_cvt (cl_page_id ci)) g;
    '(_, msgs, nd, c) ← dcs_try_notify_owner_for_page io cvt nd c;
    Done (map error_answer errs ++ msgs, nd, c, g).

(** The message to the owner that is this instance itself. *)
Definition dcs_notify_local_owner4page (e : dtc_env) (sent : bool) (cvt : cvt_info) : status_t * list dcs_msg :=
  let q := cvt_request cvt in
  if DRC_STOP_DCS_IO_FOR_REFORMING (pq_req_version q) e (pq_page_id q) then (CT_ERROR, [])
  else if sent then (CT_SUCCESS, [MES_CMD_ASK_OWNER (cv_owner_id cvt) q]) else (CT_ERROR, []).

(** A claim by the master itself. *)
Definition dcs_claim_ownership_internal (io : master_io) (ci : claim_info) (nd : node_st) (c : option buf_ctrl) (g : page_ctx)
    : outcome (status_t * list dcs_msg * node_st * option buf_ctrl * page_ctx) :=
  '(cvt, errs, g) ← drc_claim_page_owner (mi_world io) ci (no_cvt (cl_page_id ci)) g;
  if cv_req_id cvt =? CT_INVALID_ID8 then Done (CT_SUCCESS, map error_answer errs, nd, c, g)
  else if cv_owner_id cvt =? inst_id then
    let '(st, msgs) := dcs_notify_local_owner4page (mi_transfer io) (mi_sent io) cvt in Done (st, map error_answer errs ++ msgs, nd, c, g)
  else
    '(st, msgs, nd, c) ← dcs_try_notify_owner_for_page io cvt nd c;
    Done (st, map error_answer errs ++ msgs, nd, c, g).

(** The master itself asks: it is done, or it waits for an answer to its request
    for the given mode. *)
Inductive ask_step := Finished (st : status_t) | Awaits (mode : Z).

Definition dcs_ask_owner_for_page (e : dtc_env) (sent : bool) (sid rsn : Z) (res : drc_req_owner_result) (version : Z) (c : buf_ctrl)
    : ask_step * list dcs_msg :=
  let q := mk_page_req inst_id sid rsn 0 (bc_page_id c) (rs_req_mode res) (bc_lock_mode c) version (dtc_get_ctrl_lsn c) (rs_action res) (rs_is_retry res) in
  if DRC_STOP_DCS_IO_FOR_REFORMING version e (bc_page_id c) then (Finished CT_ERROR, [])
  else if sent then (Awaits (rs_req_mode res), [MES_CMD_ASK_OWNER (rs_curr_owner_id res) q]) else (Finished CT_ERROR, []).

Definition dcs_ask_master4page_l (io : master_io) (sid rsn req_mode version : Z) (nd : node_st) (c : buf_ctrl) (g : page_ctx)
    : outcome (ask_step * list dcs_msg * node_st * option buf_ctrl * page_ctx) :=
  let r := mk_req inst_id req_mode (bc_lock_mode c) 0 sid rsn (dtc_now (mi_entry io)) version (dtc_get_ctrl_lsn c) 0 in
  '(ret, _, res, g) ← drc_request_page_owner (mi_world io) (bc_page_id c) r false no_result g;
  match (ret : status_t) with
  | CT_ERROR => Done (Finished CT_ERROR, [], nd, Some c, g)
  | CT_SUCCESS =>
      _ ← knl_panic (req_mode <=? rs_req_mode res);
      if rs_type res =? DRC_REQ_OWNER_GRANTED then
        _ ← knl_panic (rs_action res =? DRC_RES_INVALID_ACTION);
        c ← dcs_set_ctrl4granted c;
        Done (Finished CT_SUCCESS, [], nd, Some c, g)
      else if rs_type res =? DRC_REQ_OWNER_ALREADY_OWNER then
        c ← dcs_set_ctrl4already_owner (mi_disk io) (rs_req_mode res) (rs_action res) c;
        '(_, msgs, nd, c, g) ← dcs_claim_ownership_internal io (claim_of inst_id sid false (rs_req_mode res) c) nd (Some c) g;
        Done (Finished CT_SUCCESS, msgs, nd, c, g)
      else if rs_type res =? DRC_REQ_OWNER_CONVERTING then
        let '(step, msgs) := dcs_ask_owner_for_page (mi_transfer io) (mi_sent io) sid rsn res version c in Done (step, msgs, nd, Some c, g)
      else if rs_type res =? DRC_REQ_OWNER_WAITING then Done (Awaits (rs_req_mode res), [], nd, Some c, g)
      else Crash KnlPanic
  end.
End master.
