(* ===== verification/DcsThms.v ===== *)
(** * What the page messages guarantee

    The owner's side: an exclusive transfer leaves no instance but the requester
    able to write the page, a transfer that fails leaves the owner as it was, and
    the redo log of a changed page is on disk before the page leaves.  The whole
    exchange: what the requester ends up with, and what the master records.
    Invalidation: a copy that was dropped cannot be used, and an owner keeps its
    page.  [DcsDemo] has the small cluster the hypotheses are checked on. *)

From stdpp Require Import prelude list fin_sets gmap.
From S2P Require Import Prelude Bitmap ResPool DrcList ResMap ConvertQ GlobalRes DrcTypes BufCtrl DrcPage PageInv PageProps PageFun PageThms DrcDcs.

Open Scope Z_scope.
Open Scope drc_scope.

(** ** Well-formed controls

    A control has a lock mode of the protocol, and an earlier dirty page is not
    held exclusively. *)
Definition ctrl_ok (c : buf_ctrl) : Prop :=
  DRC_LOCK_NULL <= bc_lock_mode c <= DRC_LOCK_EXCLUSIVE /\ (bc_is_edp c = true -> bc_lock_mode c <> DRC_LOCK_EXCLUSIVE).

Definition unusable (c : buf_ctrl) : Prop :=
  forall m, LATCH_MODE_S <= m <= LATCH_MODE_FORCE_S -> dcs_local_page_usable c m = Done false.

Definition writable (c : buf_ctrl) : Prop := dcs_local_page_usable c LATCH_MODE_X = Done true.

(** A step of a run: the scrutinee of the first bind or test. *)
Ltac run_step H :=
  lazymatch type of H with
  | Done _ = Done _ => apply Done_inj in H
  | Crash _ = Done _ => discriminate H
  | (knl_panic ?b ≫= _) = Done _ => let E := fresh "Hp" in destruct b eqn:E; cbn [knl_panic mbind outcome_bind] in H
  | (Done _ ≫= _) = Done _ => rewrite outcome_ret_bind in H
  | (Crash _ ≫= _) = Done _ => discriminate H
  | (if ?b then _ else _) = Done _ => let E := fresh "Hif" in destruct b eqn:E
  | ((if ?b then _ else _) ≫= _) = Done _ => let E := fresh "Hif" in destruct b eqn:E
  end.

Lemma latch_row m : LATCH_MODE_S <= m <= LATCH_MODE_FORCE_S ->
  exists row, arr_get dcs_page_latch_usable m = Done row /\ arr_get row DRC_LOCK_NULL = Done false.
Proof.
  unfold LATCH_MODE_S, LATCH_MODE_FORCE_S. intros Hm. assert (m = 1 \/ m = 2 \/ m = 3) as [-> | [-> | ->]] by lia; by eexists.
Qed.

Lemma null_unusable c : bc_lock_mode c = DRC_LOCK_NULL -> unusable c.
Proof. intros Hc m (row & Hr & Hv)%latch_row. unfold dcs_local_page_usable. by rewrite Hr, outcome_ret_bind, Hc. Qed.

Lemma writable_iff c : DRC_LOCK_NULL <= bc_lock_mode c <= DRC_LOCK_EXCLUSIVE -> writable c <-> bc_lock_mode c = DRC_LOCK_EXCLUSIVE.
Proof.
  unfold writable, dcs_local_page_usable, DRC_LOCK_NULL, DRC_LOCK_EXCLUSIVE. intros Hm.
  assert (bc_lock_mode c = 0 \/ bc_lock_mode c = 1 \/ bc_lock_mode c = 2) as [-> | [-> | ->]] by lia; vm_compute; naive_solver.
Qed.

(** ** The owner's side, whatever it finds *)

(** What cleaning a control after a recovery leaves alone. *)
Lemma clean_edp_keeps c c' : dcs_buf_clean_ctrl_edp c = Done c' ->
  bc_lock_mode c' = bc_lock_mode c /\ bc_page_id c' = bc_page_id c /\ bc_page c' = bc_page c /\ bc_lastest_lfn c' = bc_lastest_lfn c /\ bc_is_edp c' = false.
Proof. unfold dcs_buf_clean_ctrl_edp. intros Hr. repeat run_step Hr; subst c'; cbn; try done. by apply negb_true_iff in Hif. Qed.

Lemma clean_local_ok disk a lsn c c' : dcs_clean_local_ctrl disk a lsn c = Done c' -> ctrl_ok c ->
  ctrl_ok c' /\ bc_lastest_lfn c' = bc_lastest_lfn c /\ bc_page_id c' = bc_page_id c.
Proof.
  unfold dcs_clean_local_ctrl. intros Hr Hok. pose proof Hok as [Hm He]. run_step Hr; [| run_step Hr].
  run_step Hr; [run_step Hr; subst c'; auto |].
  apply bind_Done in Hr as (c1 & Hc & Hr). run_step Hr. subst c'. cbn [bc_lastest_lfn bc_page_id set_bc_is_fixed].
  enough (ctrl_ok c1 /\ bc_lastest_lfn c1 = bc_lastest_lfn c /\ bc_page_id c1 = bc_page_id c) as ([] & ? & ?) by (unfold ctrl_ok; auto).
  run_step Hc; [run_step Hc; subst c1; unfold ctrl_ok; cbn; auto |]. run_step Hc; [run_step Hc |].
  - apply clean_edp_keeps in Hc as (Hl & Hi & _ & Hf & Hed). cbn in Hl, Hi, Hf. unfold ctrl_ok. rewrite Hl, Hed. auto.
  - run_step Hc. subst c1. auto.
  - run_step Hc; [| run_step Hc; subst c1; auto]. apply bind_Done in Hc as (c2 & Hc2 & Hc). run_step Hc. subst c1. unfold ctrl_ok. cbn.
    split; [split; [unfold DRC_LOCK_NULL, DRC_LOCK_EXCLUSIVE; lia | done] |]. run_step Hc2; [| run_step Hc2; by subst c2].
    apply clean_edp_keeps in Hc2 as (_ & Hi & _ & Hf & _). done.
Qed.

(** The control under its latch: only its load and transfer states may differ. *)
Definition moved (c c' : buf_ctrl) : Prop := exists t l, c' = set_bc_transfer_status t (set_bc_load_status l c).

Lemma moved_refl c : moved c c.
Proof. exists (bc_transfer_status c), (bc_load_status c). by destruct c. Qed.

Lemma moved_status t c : moved c (set_bc_transfer_status t c).
Proof. exists t, (bc_load_status c). by destruct c. Qed.

Lemma moved_trans c1 c2 c3 : moved c1 c2 -> moved c2 c3 -> moved c1 c3.
Proof. intros (t & l & ->) (t' & l' & ->). by exists t', l'. Qed.

(** What the request's recovery action made of an earlier dirty page. *)
Definition cleaned (disk : page_head) (q : msg_page_req) (c c' : buf_ctrl) : Prop :=
  c' = c \/ (pq_action q <> DRC_RES_INVALID_ACTION /\ bc_is_edp c = true /\ dcs_clean_local_ctrl disk (pq_action q) CT_INVALID_ID64 c = Done c').

Definition page_sent (q : msg_page_req) (msgs : list dcs_msg) : Prop := exists a, answer q (MES_CMD_PAGE_READY a) ∈ msgs.

(** The page itself, leave to load it from disk, or leave to write the copy. *)
Definition answer_flag (flag : Z) : Prop := flag = 0 \/ flag = MES_FLAG_NEED_LOAD \/ flag = MES_FLAG_READONLY2X.

(** Either the page was sent and the owner gave up what it had to, or it was not
    and the owner has what it had. *)
Inductive transfer_rule (disk : page_head) (flush : Z -> option Z) (q : msg_page_req) (nd : node_st) (c : buf_ctrl)
    : status_t -> list dcs_msg -> node_st -> buf_ctrl -> Prop :=
| T_sent c1 cl flag nd' :
    moved c c1 -> cleaned disk q c1 cl -> transfer_flush flush cl nd = Done nd' -> answer_flag flag ->
    (pq_lsn q <= ph_lsn (bc_page cl) \/ flag = MES_FLAG_NEED_LOAD /\ BUF_IN_USE_IS_RECYCLABLE c = true) ->
    transfer_rule disk flush q nd c CT_SUCCESS [answer q (MES_CMD_PAGE_READY (page_ack q flag nd' cl))] nd' (transfer_sent q nd' cl)
| T_kept c1 cl c2 msgs nd' :
    moved c c1 -> cleaned disk q c1 cl -> moved cl c2 -> ~ page_sent q msgs -> transfer_rule disk flush q nd c CT_ERROR msgs nd' c2.

Lemma no_page_sent q : ~ page_sent q [answer q MES_CMD_ERROR_MSG].
Proof. intros (a & Ha). apply list_elem_of_singleton in Ha. discriminate Ha. Qed.

Lemma none_sent q : ~ page_sent q [].
Proof. by intros (a & Ha%not_elem_of_nil). Qed.

Lemma latchx_spec pagid io c x : buf_try_latchx_page pagid io (Some c) = Done x -> exists c1, x = Some c1 /\ moved c c1.
Proof.
  unfold buf_try_latchx_page. intros Hr. run_step Hr; [| discriminate Hr]. cbv zeta in Hr.
  set (cl := if decide (bc_load_status c = BUF_NEED_LOAD) then _ else c) in Hr.
  run_step Hr; [| discriminate Hr]. run_step Hr; [discriminate Hr |]. apply Done_inj in Hr. subst x. exists cl. split; [done |].
  unfold cl. clear. case_decide; [exists (bc_transfer_status c), BUF_LOAD_FAILED; destruct c; reflexivity | apply moved_refl].
Qed.

Lemma read_local_spec q c ret nl found : dcs_read_local_page4transfer q (Some c) = Done (ret, nl, found) ->
  exists c1, found = Some c1 /\ moved c c1 /\ (nl = true -> BUF_IN_USE_IS_RECYCLABLE c = true).
Proof.
  unfold dcs_read_local_page4transfer. intros Hr. apply bind_Done in Hr as (x & Hx & Hr). apply latchx_spec in Hx as (cl & -> & Hm).
  assert (Hrec : BUF_IN_USE_IS_RECYCLABLE cl = BUF_IN_USE_IS_RECYCLABLE c) by (destruct Hm as (? & ? & ->); done).
  run_step Hr; [apply Done_inj in Hr; injection Hr as <- <- <-; exists cl; split_and!; [done | done |]; intros _; rewrite <- Hrec; by apply andb_true_iff in Hif as [_ Hif] |].
  repeat (run_step Hr; [apply Done_inj in Hr; injection Hr as <- <- <-; exists cl; split_and!; [done | exact Hm | discriminate] |]).
  apply Done_inj in Hr. injection Hr as <- <- <-. eexists. split; [reflexivity |]. split; [| discriminate].
  destruct (pq_req_mode q =? DRC_LOCK_EXCLUSIVE); [eapply moved_trans; [exact Hm | apply moved_status] | exact Hm].
Qed.

Lemma transfer_flag_spec disk q c flag cl : transfer_flag disk q c = Done (flag, cl) ->
  cleaned disk q c cl /\ (forall f, flag = Some f -> pq_lsn q <= ph_lsn (bc_page cl) /\ answer_flag f).
Proof.
  unfold transfer_flag. intros Hr. apply bind_Done in Hr as (c1 & Hc & Hr).
  assert (Hcl : cleaned disk q c c1).
  { run_step Hc; [right | left; by apply Done_inj in Hc]. apply andb_true_iff in Hif as [Ha%negb_true_iff%Z.eqb_neq He]. done. }
  cbv zeta in Hr. run_step Hr; [apply Done_inj in Hr; by injection Hr as <- <- |].
  run_step Hr; apply Done_inj in Hr; injection Hr as <- <-; [done |]. apply Z.ltb_ge in Hif0. split; [done |].
  intros f [= <-]. split; [done |]. unfold answer_flag. destruct ((pq_curr_mode q =? _) && _); [by right; right | by left].
Qed.

Lemma transfer_send_spec e' flush sent q flag nd c st msgs nd' c' : transfer_send e' flush sent q flag nd c = Done (st, msgs, nd', c') ->
  transfer_flush flush c nd = Done nd' /\
  (st = CT_SUCCESS /\ msgs = [answer q (MES_CMD_PAGE_READY (page_ack q flag nd' c))] /\ c' = transfer_sent q nd' c \/
   st = CT_ERROR /\ ~ page_sent q msgs /\ moved c c').
Proof.
  unfold transfer_send. intros Hr. run_step Hr; [| discriminate Hr]. apply bind_Done in Hr as (nd1 & Hf & Hr). apply bind_Done in Hr as (? & _ & Hr).
  repeat (run_step Hr; [apply Done_inj in Hr; injection Hr as <- <- <- <-; split; [done |] |]);
    [| | apply Done_inj in Hr; injection Hr as <- <- <- <-; split; [done |]].
  - right. split_and!; [done | apply no_page_sent | apply moved_status].
  - by left.
  - right. split_and!; [done | apply none_sent |]. case_decide; [apply moved_status | apply moved_refl].
Qed.

Lemma owner_transfer_spec e e' flush sent disk q nd c st msgs nd' c' :
  dcs_owner_transfer_page e e' flush sent disk q nd (Some c) = Done (st, msgs, nd', c') ->
  exists c2, c' = Some c2 /\ transfer_rule disk flush q nd c st msgs nd' c2.
Proof.
  unfold dcs_owner_transfer_page. intros Hr.
  do 2 (run_step Hr; [apply Done_inj in Hr; injection Hr as <- <- <- <-; exists c; split; [done |];
    apply (T_kept _ _ _ _ _ c c c); [apply moved_refl | by left | apply moved_refl | apply no_page_sent] |]).
  apply bind_Done in Hr as ([[ret nl] found] & Hread & Hr). apply read_local_spec in Hread as (c1 & -> & Hm & Hnl).
  destruct ret; [| apply Done_inj in Hr; injection Hr as <- <- <- <-; exists c1; split; [done |];
    apply (T_kept _ _ _ _ _ c1 c1 c1); [done | by left | apply moved_refl | apply no_page_sent]].
  apply bind_Done in Hr as ([flag cl] & Hfl & Hr).
  assert (Hcl : cleaned disk q c1 cl /\ (forall f, flag = Some f -> answer_flag f /\
    (pq_lsn q <= ph_lsn (bc_page cl) \/ f = MES_FLAG_NEED_LOAD /\ BUF_IN_USE_IS_RECYCLABLE c = true))).
  { destruct nl; [apply Done_inj in Hfl; injection Hfl as <- <-; split; [by left | intros f [= <-]; unfold answer_flag; auto] |].
    apply transfer_flag_spec in Hfl as [? Hl]. split; [done |]. intros f Hf. destruct (Hl f Hf). auto. }
  destruct Hcl as [Hcl Hlsn]. destruct flag as [flag |].
  2: { apply Done_inj in Hr; injection Hr as <- <- <- <-. exists cl. split; [done |].
       apply (T_kept _ _ _ _ _ c1 cl cl); [done | done | apply moved_refl | apply no_page_sent]. }
  apply bind_Done in Hr as ([[[st2 ms] nd2] c2] & Hs & Hr). apply Done_inj in Hr. injection Hr as <- <- <- <-. exists c2. split; [done |].
  apply transfer_send_spec in Hs as (Hf & [(-> & -> & ->) | (-> & Hns & Hmv)]); 
    [eapply T_sent; [exact Hm | exact Hcl | exact Hf | by apply (Hlsn flag) | by apply (Hlsn flag)] | eapply T_kept; [exact Hm | exact Hcl | exact Hmv | exact Hns]].
Qed.

Lemma moved_keeps c c' : moved c c' -> ctrl_ok c ->
  ctrl_ok c' /\ bc_lastest_lfn c' = bc_lastest_lfn c /\ bc_page_id c' = bc_page_id c /\ bc_lock_mode c' = bc_lock_mode c /\
  bc_page c' = bc_page c /\ bc_is_edp c' = bc_is_edp c /\ bc_is_dirty c' = bc_is_dirty c.
Proof. intros (t & l & ->) Hok. done. Qed.

Lemma cleaned_keeps disk q c c' : cleaned disk q c c' -> ctrl_ok c ->
  ctrl_ok c' /\ bc_lastest_lfn c' = bc_lastest_lfn c /\ (pq_action q = DRC_RES_INVALID_ACTION \/ bc_is_edp c = false -> c' = c).
Proof.
  intros [-> | (Ha & He & Hc)] Hok; [done |]. destruct (clean_local_ok _ _ _ _ _ Hc Hok) as (? & ? & _). split_and!; try done.
  intros [? | ?]; [done | congruence].
Qed.

Lemma sent_exclusive q nd c : ctrl_ok c -> pq_req_mode q = DRC_LOCK_EXCLUSIVE ->
  bc_lock_mode (transfer_sent q nd c) <> DRC_LOCK_EXCLUSIVE /\ (bc_is_edp c = false -> bc_lock_mode (transfer_sent q nd c) = DRC_LOCK_NULL) /\
  ctrl_ok (transfer_sent q nd c).
Proof.
  intros Hok Hx. pose proof Hok as [Hm He]. unfold transfer_sent. rewrite Hx. destruct (DCS_BUF_CTRL_IS_OWNER c) eqn:Ho; cbn [negb Z.eqb].
  - change (DRC_LOCK_EXCLUSIVE =? DRC_LOCK_EXCLUSIVE) with true. cbv iota zeta.
    unfold ctrl_ok. split_and!; destruct (bc_is_dirty _); cbn; done.
  - unfold DCS_BUF_CTRL_IS_OWNER, DRC_LOCK_EXCLUSIVE, DRC_LOCK_SHARE, DRC_LOCK_NULL in *. split_and!; [| | exact Hok].
    + intros E. rewrite E in Ho. destruct (bc_is_edp c); [by apply He | done].
    + intros Hf. rewrite Hf in Ho. cbn in Ho. lia.
Qed.

Lemma flush_spec flush c nd nd' lfn : transfer_flush flush c nd = Done nd' -> (forall l l', flush l = Some l' -> lfn <= l') ->
  (bc_lastest_lfn c <= lfn -> bc_is_dirty c || bc_is_marked c = true -> bc_lastest_lfn c <= nd_flushed_lfn nd') /\ nd_lsn nd' = nd_lsn nd /\ nd_scn nd' = nd_scn nd.
Proof.
  unfold transfer_flush. intros Hr Hfl. run_step Hr.
  - destruct (flush _) as [l |] eqn:El; [| discriminate Hr]. apply Done_inj in Hr. subst nd'. cbn. split; [| done]. intros Hl _. apply Hfl in El. lia.
  - apply Done_inj in Hr. subst nd'. split; [| done]. intros _ Hd. rewrite Hd in Hif. cbn in Hif. by apply Z.ltb_ge in Hif.
Qed.

Lemma page_ack_dirty q flag nd c : answer_flag flag -> has_flag (pa_flags (page_ack q flag nd c)) MES_FLAG_DIRTY_PAGE = bc_is_dirty c.
Proof. intros [-> | [-> | ->]]; unfold page_ack; cbn; destruct (bc_is_dirty c), (bc_is_remote_dirty c); reflexivity. Qed.

(** C20: an owner that is asked for a page in exclusive mode and sends
    it, or lets the requester go on with the copy it has, can no longer write the
    page, and unless it keeps the page as an earlier dirty one it cannot read it
    either. *)
Theorem transfer_single_writer e e' flush sent disk q nd c st msgs nd' c' :
  dcs_owner_transfer_page e e' flush sent disk q nd (Some c) = Done (st, msgs, nd', c') ->
  ctrl_ok c -> pq_req_mode q = DRC_LOCK_EXCLUSIVE -> page_sent q msgs ->
  exists c2, c' = Some c2 /\ ctrl_ok c2 /\ ~ writable c2 /\ (bc_is_edp c = false -> unusable c2).
Proof.
  intros Hr Hok Hx Hs. apply owner_transfer_spec in Hr as (c2 & -> & Hrule). exists c2. split; [done |].
  destruct Hrule as [c1 cl flag nd2 Hm Hcl _ _ _ | c1 cl c2 ms nd2 Hm Hcl Hmv Hn]; [| by destruct Hn].
  destruct (moved_keeps _ _ Hm Hok) as (Hok1 & _ & _ & _ & _ & Hed & _). destruct (cleaned_keeps _ _ _ _ Hcl Hok1) as (Hok2 & _ & Hsame).
  destruct (sent_exclusive q nd2 cl Hok2 Hx) as (Hne & Hnull & Hok3). split; [done |]. split; [by rewrite (writable_iff _ (proj1 Hok3)) |].
  intros He. apply null_unusable, Hnull. rewrite Hsame; [congruence | right; congruence].
Qed.

(** An owner that does not send the page keeps it as it was:
    the lock mode, the page and whether it is dirty are unchanged, unless the
    request told it to settle an earlier dirty page. *)
Theorem transfer_failed_keeps e e' flush sent disk q nd c st msgs nd' c' :
  dcs_owner_transfer_page e e' flush sent disk q nd (Some c) = Done (st, msgs, nd', c') ->
  ctrl_ok c -> pq_action q = DRC_RES_INVALID_ACTION \/ bc_is_edp c = false -> ~ page_sent q msgs ->
  st = CT_ERROR /\ exists c2, c' = Some c2 /\ bc_lock_mode c2 = bc_lock_mode c /\ bc_page c2 = bc_page c /\
    bc_is_dirty c2 = bc_is_dirty c /\ bc_is_edp c2 = bc_is_edp c.
Proof.
  intros Hr Hok Ha Hs. apply owner_transfer_spec in Hr as (c2 & -> & Hrule).
  destruct Hrule as [c1 cl flag nd2 Hm Hcl _ _ _ | c1 cl c2 ms nd2 Hm Hcl Hmv Hn]; [destruct Hs; eexists; by left |].
  split; [done |]. exists c2. split; [done |].
  destruct (moved_keeps _ _ Hm Hok) as (Hok1 & _ & _ & ? & ? & Hed & ?). destruct (cleaned_keeps _ _ _ _ Hcl Hok1) as (Hok2 & _ & Hsame).
  assert (cl = c1) as -> by (apply Hsame; rewrite Hed; tauto). destruct (moved_keeps _ _ Hmv Hok1) as (_ & _ & _ & ? & ? & ? & ?).
  split_and!; congruence.
Qed.

(** C22: the write-ahead rule across instances: when an answer that marks the
    page as dirty at its owner is sent, the owner's redo log is on disk up to the
    page's latest change already, and the clocks in the answer are the owner's.
    A flush is relied on to reach the end of the log that was written to memory,
    which has the latest change of the page. *)
Theorem transfer_write_ahead e e' flush sent disk q nd c st msgs nd' c' a log_end :
  (forall l l', flush l = Some l' -> log_end <= l') -> bc_lastest_lfn c <= log_end ->
  dcs_owner_transfer_page e e' flush sent disk q nd (Some c) = Done (st, msgs, nd', c') -> ctrl_ok c ->
  answer q (MES_CMD_PAGE_READY a) ∈ msgs ->
  (has_flag (pa_flags a) MES_FLAG_DIRTY_PAGE = true -> bc_lastest_lfn c <= pa_flushed a) /\ pa_lsn a = nd_lsn nd /\ pa_scn a = nd_scn nd.
Proof.
  intros Hfl Hend Hr Hok Hin. apply owner_transfer_spec in Hr as (c2 & -> & Hrule).
  destruct Hrule as [c1 cl flag nd2 Hm Hcl Hf Hflag _ | c1 cl c2 ms nd2 Hm Hcl Hmv Hn]; [| destruct Hn; by exists a].
  apply list_elem_of_singleton in Hin. injection Hin as ->. destruct (moved_keeps _ _ Hm Hok) as (Hok1 & Hl1 & _).
  destruct (cleaned_keeps _ _ _ _ Hcl Hok1) as (_ & Hl2 & _). destruct (flush_spec _ _ _ _ log_end Hf Hfl) as (Hw & <- & <-).
  split; [| done]. rewrite (page_ack_dirty q flag nd2 cl Hflag). intros Hd. change (pa_flushed (page_ack q flag nd2 cl)) with (nd_flushed_lfn nd2).
  rewrite <- Hl1, <- Hl2. apply Hw; [lia | by rewrite Hd].
Qed.

(** ** A page moves from its owner to the requester *)

(** The owner has the page the request is for, loaded and not being written. *)
Record owner_ready (q : msg_page_req) (c : buf_ctrl) : Prop := mk_ready {
  or_page : bc_page_id c = pq_page_id q;
  or_valid : IS_INVALID_PAGID (pq_page_id q) = false;
  or_owner : DCS_BUF_CTRL_IS_OWNER c = true;
  or_loaded : bc_load_status c = BUF_IS_LOADED;
  or_quiet : bc_is_marked c = false /\ bc_is_readonly c = false;
  or_lsn : pq_lsn q <= ph_lsn (bc_page c);
}.

(** The owner can go on: no reform interferes and the log can be written. *)
Definition owner_free (e e' : dtc_env) (flush : Z -> option Z) (q : msg_page_req) : Prop :=
  DRC_STOP_DCS_IO_FOR_REFORMING (pq_req_version q) e (pq_page_id q) = false /\
  DRC_STOP_DCS_IO_FOR_REFORMING (pq_req_version q) e' (pq_page_id q) = false /\ forall l, flush l <> None.

(** The requester has no more than a copy, which is not newer. *)
Definition requester_ready (e : dtc_env) (q : msg_page_req) (pg : page_head) (c : buf_ctrl) : Prop :=
  bc_page_id c = pq_page_id q /\ DCS_BUF_CTRL_NOT_OWNER c = true /\ dtc_get_ctrl_lsn c <= ph_lsn pg /\
  DRC_STOP_DCS_IO_FOR_REFORMING (pq_req_version q) e (pq_page_id q) = false.

Definition asked_mode (m : Z) : Prop := m = DRC_LOCK_SHARE \/ m = DRC_LOCK_EXCLUSIVE.

(** The owner afterwards. *)
Definition gave_up (m : Z) (c c' : buf_ctrl) : Prop :=
  bc_page c' = bc_page c /\ bc_page_id c' = bc_page_id c /\ bc_is_dirty c' = bc_is_dirty c /\
  if decide (m = DRC_LOCK_EXCLUSIVE)
  then bc_lock_mode c' = DRC_LOCK_NULL /\ bc_load_status c' = BUF_LOAD_FAILED /\ bc_is_edp c' = bc_is_dirty c /\ bc_is_remote_dirty c' = false
  else bc_lock_mode c' = DRC_LOCK_SHARE /\ bc_load_status c' = BUF_IS_LOADED /\ bc_is_edp c' = false.

(** The requester afterwards, and its clocks. *)
Definition took_over (m : Z) (c : buf_ctrl) (nd ndr : node_st) (cr' : buf_ctrl) (ndr' : node_st) : Prop :=
  bc_page cr' = bc_page c /\ bc_lock_mode cr' = m /\ bc_load_status cr' = BUF_IS_LOADED /\ bc_force_request cr' = false /\
  (m = DRC_LOCK_EXCLUSIVE -> bc_is_edp cr' = false /\ bc_is_remote_dirty cr' = bc_is_dirty c || bc_is_remote_dirty c) /\
  nd_lsn ndr' = Z.max (nd_lsn ndr) (nd_lsn nd) /\ nd_scn ndr' = Z.max (nd_scn ndr) (nd_scn nd).

Lemma flush_works flush c nd : (forall l, flush l <> None) ->
  exists nd', transfer_flush flush c nd = Done nd' /\ nd_lsn nd' = nd_lsn nd /\ nd_scn nd' = nd_scn nd.
Proof.
  intros Hf. unfold transfer_flush. destruct (_ && _); [| by exists nd]. specialize (Hf (nd_flushed_lfn nd)).
  destruct (flush _); [by eexists | done].
Qed.

Lemma mode_eqb m : asked_mode m -> (m =? DRC_LOCK_EXCLUSIVE) = negb (m =? DRC_LOCK_SHARE).
Proof. by intros [-> | ->]. Qed.

Lemma transfer_asked q : transfer_invalid q = false -> asked_mode (pq_req_mode q).
Proof.
  unfold transfer_invalid, asked_mode. intros Hi. apply orb_false_iff in Hi as [[_ Hi]%orb_false_iff _].
  destruct (Z.eqb_spec (pq_req_mode q) DRC_LOCK_EXCLUSIVE); [by right |]. destruct (Z.eqb_spec (pq_req_mode q) DRC_LOCK_SHARE); [by left | done].
Qed.

Lemma sent_gave_up q nd t c : asked_mode (pq_req_mode q) -> DCS_BUF_CTRL_IS_OWNER c = true -> bc_is_edp c = false ->
  gave_up (pq_req_mode q) c (transfer_sent q nd (set_bc_transfer_status t (set_bc_load_status BUF_IS_LOADED c))).
Proof.
  intros Hm Ho He. unfold transfer_sent.
  change (DCS_BUF_CTRL_IS_OWNER (set_bc_transfer_status t (set_bc_load_status BUF_IS_LOADED c))) with (DCS_BUF_CTRL_IS_OWNER c).
  rewrite Ho. cbn [negb]. unfold gave_up. destruct Hm as [-> | ->].
  - rewrite decide_False by done. done.
  - rewrite decide_True by done. change (DRC_LOCK_EXCLUSIVE =? DRC_LOCK_EXCLUSIVE) with true. cbv iota zeta. cbn.
    destruct (bc_is_dirty c) eqn:Hd; cbn; rewrite ?Hd; done.
Qed.

Lemma owner_sends e e' flush disk q nd c :
  owner_ready q c -> owner_free e e' flush q -> transfer_invalid q = false -> pq_curr_mode q = DRC_LOCK_NULL ->
  exists nd' c2, dcs_owner_transfer_page e e' flush true disk q nd (Some c) =
      Done (CT_SUCCESS, [answer q (MES_CMD_PAGE_READY (page_ack q 0 nd' c))], nd', Some c2) /\
    nd_lsn nd' = nd_lsn nd /\ nd_scn nd' = nd_scn nd /\ gave_up (pq_req_mode q) c c2.
Proof.
  intros [Hp Hv Ho Hl [Hmk Hro] Hlsn] (Hs & Hs' & Hfl) Hti Hcm.
  assert (Hed : bc_is_edp c = false) by (unfold DCS_BUF_CTRL_IS_OWNER in Ho; destruct (bc_is_edp c); [by rewrite andb_false_r in Ho | done]).
  destruct (flush_works flush c nd Hfl) as (nd' & Hnd & Hn1 & Hn2). unfold dcs_owner_transfer_page. rewrite Hti, Hs.
  unfold dcs_read_local_page4transfer, buf_try_latchx_page. rewrite Hv. cbn [negb knl_panic]. rewrite !outcome_ret_bind.
  rewrite decide_False by (by rewrite Hl). rewrite (bool_decide_eq_true_2 (pq_page_id q = bc_page_id c)) by done. cbn [knl_panic].
  rewrite !outcome_ret_bind, Hmk, andb_false_r, !outcome_ret_bind. rewrite (bool_decide_eq_false_2 _) by (by rewrite Hl). cbn [andb].
  rewrite Ho. cbn [negb andb]. rewrite Hcm. change (DRC_LOCK_NULL =? DRC_LOCK_EXCLUSIVE) with false. cbv iota. rewrite !outcome_ret_bind.
  set (cl := if pq_req_mode q =? DRC_LOCK_EXCLUSIVE then _ else c). assert (Hcl : moved c cl) by (unfold cl; destruct (_ =? _); [apply moved_status | apply moved_refl]).
  assert (Hls : bc_load_status cl = BUF_IS_LOADED) by (unfold cl; by destruct (_ =? _)).
  clearbody cl. destruct Hcl as (t & l & ->). cbn in Hls. subst l. unfold transfer_flag. cbn [bc_is_edp set_bc_transfer_status set_bc_load_status].
  rewrite Hed, andb_false_r, outcome_ret_bind, Hcm. cbn [bc_lock_mode bc_page set_bc_transfer_status set_bc_load_status].
  change (DRC_LOCK_NULL =? DRC_LOCK_SHARE) with false. cbn [andb negb]. rewrite (proj2 (Z.ltb_ge _ _) Hlsn). rewrite outcome_ret_bind.
  unfold transfer_send. cbn [bc_is_readonly bc_is_marked set_bc_transfer_status set_bc_load_status]. rewrite Hro, Hmk. cbn [negb knl_panic andb]. rewrite outcome_ret_bind.
  change (transfer_flush flush (set_bc_transfer_status t (set_bc_load_status BUF_IS_LOADED c)) nd) with (transfer_flush flush c nd). rewrite Hnd, outcome_ret_bind.
  change (0 =? MES_FLAG_READONLY2X) with false. cbn [negb knl_panic].
  replace (if pq_req_mode q =? DRC_LOCK_EXCLUSIVE then Done tt else Done tt) with (Done tt : outcome unit) by (by destruct (_ =? _)).
  rewrite outcome_ret_bind, Hs'. rewrite outcome_ret_bind. eexists _, _. split; [reflexivity |]. split; [done |]. split; [done |].
  apply sent_gave_up; [by apply transfer_asked | done | done].
Qed.

Lemma update_lsn_max l nd : nd_lsn (dtc_update_lsn l nd) = Z.max (nd_lsn nd) l /\ nd_scn (dtc_update_lsn l nd) = nd_scn nd.
Proof. unfold dtc_update_lsn. destruct (Z.leb_spec (l - nd_lsn nd) 0); cbn; lia. Qed.

Lemma update_scn_max s nd : nd_scn (dtc_update_scn s nd) = Z.max (nd_scn nd) s /\ nd_lsn (dtc_update_scn s nd) = nd_lsn nd.
Proof. unfold dtc_update_scn. destruct (Z.leb_spec s (nd_scn nd)); cbn; lia. Qed.

Lemma page_ack_flags q nd c : let f := pa_flags (page_ack q 0 nd c) in
  has_flag f MES_FLAG_NEED_LOAD = false /\ has_flag f MES_FLAG_READONLY2X = false /\
  has_flag f MES_FLAG_DIRTY_PAGE = bc_is_dirty c /\ has_flag f MES_FLAG_REMOTE_DIRTY_PAGE = bc_is_remote_dirty c.
Proof. unfold page_ack. cbn. destruct (bc_is_dirty c), (bc_is_remote_dirty c); by vm_compute. Qed.

Lemma requester_takes e disk inst sid q mode nd ndr c cr :
  requester_ready e q (bc_page c) cr -> asked_mode (pq_req_mode q) -> mode <= pq_req_mode q -> 0 <= nd_lsn ndr -> 0 <= nd_scn ndr ->
  exists ndr' cr', dcs_handle_ask_master_ack e disk inst sid (MES_CMD_PAGE_READY (page_ack q 0 nd c)) mode ndr cr =
      Done (CT_SUCCESS, ndr', cr',
            Some (mk_claim inst sid (pq_page_id q) (ph_lsn (bc_page c)) (bc_is_dirty c) (pq_req_mode q), pq_req_version q)) /\
    took_over (pq_req_mode q) c nd ndr cr' ndr'.
Proof.
  intros (Hp & Hno & Hlsn & Hs) Hm Hle Hn1 Hn2. destruct (page_ack_flags q nd c) as (F1 & F2 & F3 & F4).
  set (a := page_ack q 0 nd c) in *. unfold dcs_handle_ask_master_ack, dcs_handle_ack_page_ready.
  change (pa_req_version a) with (pq_req_version q). change (pa_mode a) with (pq_req_mode q). rewrite Hp, Hs.
  rewrite (proj2 (Z.leb_le _ _) Hle). cbn [knl_panic]. rewrite outcome_ret_bind. unfold dcs_handle_page_from_owner.
  rewrite Hno. cbn [knl_panic]. rewrite outcome_ret_bind. change (pa_page a) with (Some (bc_page c)). rewrite F1, F2, F3, F4. cbn [negb andb knl_panic].
  rewrite !outcome_ret_bind, (proj2 (Z.leb_le _ _) Hlsn). cbn [knl_panic]. rewrite !outcome_ret_bind. cbv zeta.
  change (pa_mode a) with (pq_req_mode q). rewrite Z.eqb_refl. cbn [knl_panic]. rewrite !outcome_ret_bind.
  set (c3 := set_bc_load_status _ _). assert (Hid : bc_page_id c3 = pq_page_id q) by (unfold c3; by destruct (_ =? _)).
  assert (Hpg : bc_page c3 = bc_page c) by (unfold c3; by destruct (_ =? _)). eexists _, c3. split.
  - unfold claim_of, dtc_get_ctrl_latest_lsn. rewrite decide_True by reflexivity. rewrite Hid, Hpg. reflexivity.
  - unfold c3. change (pa_lsn a) with (nd_lsn nd). change (pa_scn a) with (nd_scn nd). unfold took_over. split_and!.
    1-4: by destruct Hm as [-> | ->]. { intros ->. done. }
    + destruct (Z.eqb_spec (nd_scn nd) 0); [| rewrite (proj2 (update_scn_max _ _))]; (destruct (Z.eqb_spec (nd_lsn nd) 0); [lia | apply update_lsn_max]).
    + destruct (Z.eqb_spec (nd_scn nd) 0) as [-> |]; [| rewrite (proj1 (update_scn_max _ _))];
        (destruct (Z.eqb_spec (nd_lsn nd) 0); [| rewrite (proj2 (update_lsn_max _ _))]); lia.
Qed.

(** C21: a page moves: an owner that has the page loaded sends it, and
    the requester takes it over in the mode it asked for, with the owner's page
    and clocks at least the owner's.  A writer takes the page from its owner,
    which keeps an earlier dirty page exactly when it had changed it; a reader
    leaves the owner a copy.  The claim that follows tells the master which. *)
Theorem page_transfer_correct e e' e2 flush disk disk' inst sid q mode nd ndr c cr :
  owner_ready q c -> owner_free e e' flush q -> transfer_invalid q = false -> pq_curr_mode q = DRC_LOCK_NULL ->
  requester_ready e2 q (bc_page c) cr -> mode <= pq_req_mode q -> 0 <= nd_lsn ndr -> 0 <= nd_scn ndr ->
  exists a nd' c2 ndr' cr', dcs_owner_transfer_page e e' flush true disk q nd (Some c) =
      Done (CT_SUCCESS, [answer q (MES_CMD_PAGE_READY a)], nd', Some c2) /\ gave_up (pq_req_mode q) c c2 /\
    dcs_handle_ask_master_ack e2 disk' inst sid (MES_CMD_PAGE_READY a) mode ndr cr =
      Done (CT_SUCCESS, ndr', cr',
            Some (mk_claim inst sid (pq_page_id q) (ph_lsn (bc_page c)) (bc_is_dirty c) (pq_req_mode q), pq_req_version q)) /\
    took_over (pq_req_mode q) c nd ndr cr' ndr'.
Proof.
  intros Hor Hof Hti Hcm Hrr Hle Hn1 Hn2. destruct (owner_sends e e' flush disk q nd c) as (nd' & c2 & Hrun & E1 & E2 & Hg); try done.
  destruct (requester_takes e2 disk' inst sid q mode nd' ndr c cr) as (ndr' & cr' & Hrun' & Ht); try done; [by apply transfer_asked |].
  exists (page_ack q 0 nd' c), nd', c2, ndr', cr'. split; [done |]. split; [done |]. split; [exact Hrun' |].
  unfold took_over in *. by rewrite <- E1, <- E2.
Qed.

(** ** The whole exchange *)

Section exchange.
Context `{KernelAttr} (pool_size : Z) (Q : list Z -> list Z -> Prop).
Abbreviation page_ok := (page_ok pool_size Q).

Lemma page_view_inv mine litems g k b rs : page_ok mine litems g -> page_view g k = Some (b, rs) -> buf_inv b rs.
Proof.
  intros Hok Hv. pose proof (page_view_cases _ _ _ _ _ k Hok) as Hc. rewrite Hv in Hc.
  destruct Hc as (gh & i & b0 & ids & _ & _ & _ & _ & _ & _ & _ & -> & -> & [] & _). by constructor.
Qed.

(** The catalog has the same to say about the page, but that [r] converts it
    and the copies were dropped for an exclusive request. *)
Definition converts (r : drc_req_info) (b b1 : drc_buf_res) : Prop :=
  br_claimed_owner b1 = br_claimed_owner b /\ br_mode b1 = br_mode b /\ br_lsn b1 = br_lsn b /\ br_edp_map b1 = br_edp_map b /\
  (br_readonly_copies b1 = br_readonly_copies b \/ req_mode r = DRC_LOCK_EXCLUSIVE /\ br_readonly_copies b1 = 0) /\ br_pending b1 = br_pending b /\ req_inst_id (converting_req b1) = req_inst_id r /\
  req_inst_sid (converting_req b1) = req_inst_sid r /\ req_mode (converting_req b1) = req_mode r.

(** Nobody converts the page, and its owner is another instance. *)
Definition owned_by_other (r : drc_req_info) (b : drc_buf_res) : Prop :=
  req_inst_id (converting_req b) = CT_INVALID_ID8 /\ br_pending b <> DRC_RES_PENDING_ACTION /\
  br_claimed_owner b <> CT_INVALID_ID8 /\ br_claimed_owner b <> req_inst_id r.

(** The instances that have copies drop them when they are told to. *)
Definition copies_droppable (w : world) (pagid : page_id_t) (version : Z) : Prop :=
  DRC_STOP_DCS_IO_FOR_REFORMING version (wd_env w S_invalidate) pagid = false /\ DRC_STOP_DCS_IO_FOR_REFORMING version (wd_env w S_invalidate2) pagid = false /\
  io_invalidate_copy (wd_io w S_invalidate) pagid version = CT_SUCCESS /\
  forall insts, mes_broadcast_data_and_wait_with_retry (wd_io w S_invalidate) insts pagid version = CT_SUCCESS.

Lemma droppable_drops w pagid copies exc version ret :
  copies_droppable w pagid version -> inst_ok exc ->
  dcs_invalidate_readonly_copy (wd_env w S_invalidate) (wd_env w S_invalidate2) (wd_io w S_invalidate) pagid copies exc version = Done ret -> ret = CT_SUCCESS.
Proof.
  intros (Hs1 & Hs2 & Hio & Hb) Hexc Hrun. unfold dcs_invalidate_readonly_copy in Hrun.
  rewrite (proj2 (Z.leb_gt CT_MAX_INSTANCES exc)), andb_false_r in Hrun by apply Hexc.
  apply bind_Done in Hrun as (m & _ & Hrun). rewrite Hs1 in Hrun. apply bind_Done in Hrun as (self & _ & Hrun).
  rewrite (bool_decide_eq_true_2 _ Hio), andb_false_r in Hrun. apply bind_Done in Hrun as (m' & _ & Hrun).
  rewrite Hs2, Hb in Hrun. destruct (m' =? 0); by injection Hrun as <-.
Qed.

Lemma idle_request_converts w pagid r res0 mine litems g b rs :
  quiet w -> request_admitted w pagid r -> page_ok mine litems g -> page_view g pagid = Some (b, rs) -> owned_by_other r b ->
  br_readonly_copies b = 0 \/ req_mode r <> DRC_LOCK_EXCLUSIVE \/ copies_droppable w pagid (req_version r) ->
  exists r' res g1 b1, drc_request_page_owner w pagid r false res0 g = Done (CT_SUCCESS, r', res, g1) /\ page_ok mine litems g1 /\
    same_but pagid g g1 /\ page_view g1 pagid = Some (b1, []) /\ converts r b b1 /\ rs_type res = DRC_REQ_OWNER_CONVERTING /\
    rs_curr_owner_id res = br_claimed_owner b /\ rs_action res = br_pending b /\ rs_req_mode res = req_mode r.
Proof.
  intros Hq Had Hok Hv (Hi & Hp & Ho & Hne) Hcp. pose proof (bi_idle _ _ (page_view_inv _ _ _ _ _ _ Hok Hv) Hi) as ->.
  destruct (request_existing_spec pool_size Q w pagid r false res0 mine litems g b [] Hq Had Hok Hv)
    as (st & r' & res & g1 & out & b1 & b2 & rs' & Hrun & Hok1 & Hsb & Hv1 & _ & Hrule & _ & _ & Hres).
  destruct Hrule as [Hx | _ Hx _ | _ Hx _ _ _ _ | b0 st0 cvt rt r1 b1 rs1 _ Hb0 _ Hco Hw]; [done | done | done |].
  assert (b0 = b) as -> by (destruct Hb0 as [? | (? & _)]; done). unfold conv_only in Hco.
  inversion Hw as [? Ht _ | _ _ | Hc | Hc | ? Hc | Hc | ? ? ? Hc | ? ? ? Hc | Hc | Hc]; subst; try contradiction; [discriminate |].
  set (r1 := req_set_result DRC_REQ_OWNER_WAITING r) in *. destruct (Hres eq_refl) as ((T1 & T2 & T3 & T4 & T5 & T6) & Hst & Hdrop). clear Hres.
  assert (Hown : forall x, br_claimed_owner (set_converting_req x b1) = br_claimed_owner b) by (intros x; rewrite Hco; done).
  rewrite Hown in T1, T2, T6. replace (br_claimed_owner b =? _) with false in * by (symmetry; by apply Z.eqb_neq).
  assert (Hcps : forall x, br_readonly_copies (set_converting_req x b1) = br_readonly_copies b) by (intros x; rewrite Hco; done). rewrite Hcps in T6.
  assert (Hend : st = CT_SUCCESS /\ (b2 = set_converting_req (req_set_result DRC_REQ_OWNER_CONVERTING r1) b1 \/
    req_mode r = DRC_LOCK_EXCLUSIVE /\ b2 = set_br_readonly_copies 0 (set_converting_req (req_set_result DRC_REQ_OWNER_CONVERTING r1) b1))).
  { destruct (decide (rs_readonly_copies res = 0)) as [E | Hne0]; [destruct Hst as [-> ->]; auto |].
    destruct (decide (req_mode r = DRC_LOCK_EXCLUSIVE)) as [Hx | Hx]; [| destruct Hst as [-> ->]; auto].
    destruct Hcp as [Hcp | [Hcp | Hcp]]; [| done |].
    { destruct Hne0. apply inst_set_empty; [done |]. rewrite T6, Hcp, inst_set_0. set_solver. }
    destruct (Hdrop Hne0 Hx) as [Hret ->]. apply (droppable_drops _ _ _ _ _ _ Hcp) in Hret as ->; [| apply Had]. auto. }
  destruct Hend as [-> Hb2]. exists r1, res, g1, b2. split; [done |]. split; [done |]. split; [done |]. split; [done |].
  split; [| split_and!; try done; rewrite T3; by rewrite Hco]. unfold converts.
  destruct Hb2 as [-> | [Hx ->]]; [rewrite Hown, Hcps |]; cbn; rewrite ?Hown, ?Hcps; (split_and!; try done; try (by rewrite Hco); auto).
Qed.

(** The claim of the request that converts, when nobody waits. *)
Lemma claim_after_request w r ci cvt0 mine litems g b b1 :
  quiet w -> page_ok mine litems g -> page_view g (cl_page_id ci) = Some (b1, []) -> converts r b b1 -> owned_by_other r b ->
  cl_new_id ci = req_inst_id r -> cl_inst_sid ci = req_inst_sid r -> cl_mode ci = req_mode r -> asked_mode (req_mode r) ->
  inst_ok (req_inst_id r) -> 0 < cl_lsn ci -> br_lsn b <= cl_lsn ci ->
  exists cvt g2 b2, drc_claim_page_owner w ci cvt0 g = Done (cvt, [], g2) /\ page_ok mine litems g2 /\ same_but (cl_page_id ci) g g2 /\
    page_view g2 (cl_page_id ci) = Some (b2, []) /\ cv_req_id cvt = CT_INVALID_ID8 /\ idle b2 /\ br_lsn b <= br_lsn b2 /\
    if decide (req_mode r = DRC_LOCK_EXCLUSIVE)
    then br_claimed_owner b2 = req_inst_id r /\ br_mode b2 = DRC_LOCK_EXCLUSIVE /\ br_readonly_copies b2 = 0 /\
    inst_set (br_edp_map b2) = (if cl_has_edp ci then {[br_claimed_owner b]} else ∅) ∪ inst_set (br_edp_map b) ∖ {[req_inst_id r]}
    else br_claimed_owner b2 = br_claimed_owner b /\ br_mode b2 = DRC_LOCK_SHARE /\
    inst_set (br_readonly_copies b2) = {[req_inst_id r]} ∪ inst_set (br_readonly_copies b).
Proof.
  intros Hq Hok Hv (C1 & C2 & C3 & C4 & C5 & C6 & C7 & C8 & C9) (_ & _ & Ho & Hne) E1 E2 E3 Hm Hin Hl1 Hl2.
  destruct (claim_page_owner_spec pool_size Q w ci cvt0 mine litems g b1 [] Hq Hok Hv) as (cvt & ms & g2 & Hrun & Hok2 & Hsb & b2 & rs2 & Hv2 & Hcl).
  rewrite decide_True in Hcl.
  2: { split_and!; [rewrite C7; by apply inst_ok_ne | |].
       - unfold drc_is_same_claim_request. rewrite C7, C8, C9, E1, E2, E3, !Z.eqb_refl. done.
       - unfold drc_claim_info_is_invalid. rewrite C1, C3, E3. rewrite (proj2 (Z.ltb_ge _ _) Hl2), andb_false_r.
         destruct Hm as [-> | ->]; cbn; [by rewrite (proj2 (Z.eqb_neq _ _) Ho) |]. destruct (Z.eqb_spec (cl_lsn ci) 0); [lia |]. by destruct (cl_has_edp ci). }
  destruct Hcl as (b3 & b4 & Hrule & Hco & _ & Hlsn & Hid & -> & -> & Hcv & ->). unfold conv_only in Hco.
  exists cvt, g2, b4. split_and!; try done; [by rewrite <- C3 |].
  destruct Hrule as [_ Hx _ | Hs _ R1 R2 R3 _ | Hs _ R1 R2 R3 R4 _]; [congruence | |].
  - rewrite decide_False by (rewrite <- E3, Hs; done). rewrite Hco. cbn. rewrite R1, R2, R3, E1, C1. destruct C5 as [-> | [Hx _]]; [done |]. rewrite <- E3, Hs in Hx. done.
  - assert (Hx : req_mode r = DRC_LOCK_EXCLUSIVE) by (destruct Hm; congruence). rewrite decide_True by done. rewrite Hco. cbn.
    rewrite R1, R2, R3, R4, E1, E3, C1, C4. done.
Qed.

(** The master handles a message alone, and its own messages get through. *)
Definition master_free (io : master_io) (pagid : page_id_t) (version : Z) : Prop :=
  quiet (mi_world io) /\ mi_sent io = true /\ DRC_STOP_DCS_IO_FOR_REFORMING version (mi_entry io) pagid = false /\
  DRC_STOP_DCS_IO_FOR_REFORMING version (mi_transfer io) pagid = false.

(** What the master records of the page after the exchange. *)
Definition recorded (q : msg_page_req) (dirty : bool) (b b2 : drc_buf_res) : Prop :=
  idle b2 /\ br_lsn b <= br_lsn b2 /\
  if decide (pq_req_mode q = DRC_LOCK_EXCLUSIVE)
  then br_claimed_owner b2 = pq_src_inst q /\ br_mode b2 = DRC_LOCK_EXCLUSIVE /\ br_readonly_copies b2 = 0 /\
       inst_set (br_edp_map b2) = (if dirty then {[br_claimed_owner b]} else ∅) ∪ inst_set (br_edp_map b) ∖ {[pq_src_inst q]}
  else br_claimed_owner b2 = br_claimed_owner b /\ br_mode b2 = DRC_LOCK_SHARE /\
       inst_set (br_readonly_copies b2) = {[pq_src_inst q]} ∪ inst_set (br_readonly_copies b).

Lemma pending_not_invalid mine litems g k b rs q res :
  page_ok mine litems g -> page_view g k = Some (b, rs) -> br_pending b <> DRC_RES_PENDING_ACTION -> rs_action res = br_pending b ->
  IS_INVALID_PAGID (pq_page_id q) = false -> asked_mode (rs_req_mode res) -> transfer_invalid (forwarded q res) = false.
Proof.
  intros Hok Hv Hp Ha Hi Hm. destruct (bi_pending _ _ (page_view_inv _ _ _ _ _ _ Hok Hv)) as [[? _] | Hc]; [done |].
  unfold transfer_invalid. cbn [pq_page_id pq_req_mode pq_action forwarded]. unfold IS_INVALID_PAGID in Hi. rewrite Hi, Ha.
  unfold pending_claimable in Hc. apply orb_true_iff in Hc as [[->%Z.eqb_eq | ->%Z.eqb_eq]%orb_true_iff | ->%Z.eqb_eq]; by destruct Hm as [-> | ->].
Qed.

(** The first part of the exchange: the master sends the request on. *)
Lemma master_asks_owner io q ndm cm mine litems g b rs :
  master_free io (pq_page_id q) (pq_req_version q) -> request_admitted (mi_world io) (pq_page_id q) (page_req_info q) ->
  page_ok mine litems g -> page_view g (pq_page_id q) = Some (b, rs) -> owned_by_other (page_req_info q) b -> br_claimed_owner b <> inst_id ->
  asked_mode (pq_req_mode q) -> pq_curr_mode q = DRC_LOCK_NULL ->
  br_readonly_copies b = 0 \/ pq_req_mode q = DRC_LOCK_SHARE \/ copies_droppable (mi_world io) (pq_page_id q) (pq_req_version q) ->
  exists res g1 b1, dcs_process_ask_master_for_page io q ndm cm g = Done ([MES_CMD_ASK_OWNER (br_claimed_owner b) (forwarded q res)], ndm, cm, g1) /\
    page_ok mine litems g1 /\ same_but (pq_page_id q) g g1 /\ page_view g1 (pq_page_id q) = Some (b1, []) /\ converts (page_req_info q) b b1 /\
    rs_req_mode res = pq_req_mode q /\ transfer_invalid (forwarded q res) = false.
Proof.
  intros (Hq & Hsent & Hs1 & Hs2) Had Hok Hv Ho Hni Hm Hcm Hcp.
  destruct (idle_request_converts (mi_world io) (pq_page_id q) (page_req_info q) no_result mine litems g b rs)
    as (r' & res & g1 & b1 & Hrun & Hok1 & Hsb & Hv1 & Hcv & T1 & T2 & T3 & T4); try done.
  { destruct Hcp as [? | [Hs | Hs]]; [by left | right; left | by right; right]. cbn [req_mode page_req_info]. rewrite Hs. done. }
  exists res, g1, b1. split; [| split_and!; try done].
  - unfold dcs_process_ask_master_for_page. replace (DRC_LOCK_MODE_MAX <=? pq_req_mode q) with false by (by destruct Hm as [-> | ->]).
    rewrite Hcm. change (DRC_LOCK_MODE_MAX <=? DRC_LOCK_NULL) with false. cbn [orb]. rewrite Hs1, Hrun, outcome_ret_bind. cbv zeta. rewrite T1, T2.
    change (DRC_REQ_OWNER_CONVERTING =? DRC_REQ_OWNER_GRANTED) with false. change (DRC_REQ_OWNER_CONVERTING =? DRC_REQ_OWNER_ALREADY_OWNER) with false.
    rewrite Z.eqb_refl. cbv iota. unfold dcs_notify_owner_for_page. rewrite (proj2 (Z.eqb_neq inst_id _)) by congruence. cbn [andb].
    unfold dcs_notify_owner_for_page_r. destruct Ho as (_ & _ & _ & Hne).
    change (pq_src_inst (forwarded q res)) with (req_inst_id (page_req_info q)). rewrite (proj2 (Z.eqb_neq _ _) Hne). cbn [negb].
    change (pq_req_version (forwarded q res)) with (pq_req_version q). change (pq_page_id (forwarded q res)) with (pq_page_id q).
    rewrite Hs2, Hsent, outcome_ret_bind. reflexivity.
  - destruct Ho as (_ & Hp & _). destruct Had as (_ & Hi & _).
    apply (pending_not_invalid mine litems g _ b rs q res Hok Hv Hp T3 Hi). by rewrite T4.
Qed.

(** The last part: the master takes note of the claim. *)
Lemma master_takes_claim io q lsn dirty ndm cm mine litems g b b1 :
  master_free io (pq_page_id q) (pq_req_version q) -> inst_ok (pq_src_inst q) -> page_ok mine litems g ->
  page_view g (pq_page_id q) = Some (b1, []) -> converts (page_req_info q) b b1 -> owned_by_other (page_req_info q) b ->
  asked_mode (pq_req_mode q) -> 0 < lsn -> br_lsn b <= lsn ->
  exists g2 b2, dcs_process_claim_ownership_req io (mk_claim (pq_src_inst q) (pq_src_sid q) (pq_page_id q) lsn dirty (pq_req_mode q)) (pq_req_version q) ndm cm g =
      Done ([], ndm, cm, g2) /\ page_ok mine litems g2 /\ same_but (pq_page_id q) g g2 /\ page_view g2 (pq_page_id q) = Some (b2, []) /\ recorded q dirty b b2.
Proof.
  intros (Hq & Hsent & Hs1 & Hs2) Hin Hok Hv Hcv Ho Hm Hl1 Hl2. set (ci := mk_claim _ _ _ _ _ _).
  destruct (claim_after_request (mi_world io) (page_req_info q) ci (no_cvt (pq_page_id q)) mine litems g b b1)
    as (cvt & g2 & b2 & Hrun & Hok2 & Hsb & Hv2 & Hid & Hidle & Hl & Hrec); try done.
  exists g2, b2. split; [| done]. unfold dcs_process_claim_ownership_req. change (cl_page_id ci) with (pq_page_id q). rewrite Hs1, Hrun, outcome_ret_bind.
  unfold dcs_try_notify_owner_for_page. rewrite Hid, Z.eqb_refl, outcome_ret_bind. reflexivity.
Qed.

(** C8: the whole exchange between three instances, on a page that another
    instance than the requester and the master owns, that nobody converts, and that
    the requester does not have in any mode: the master has the read-only copies
    dropped if the request is exclusive (which is taken to succeed, if there are any)
    and asks the owner, the owner sends the page, the requester takes it over and
    its claim reaches the master.  Afterwards the requester has the owner's page
    in the mode it asked for, the owner has given up what that mode excludes, and
    the master records exactly this: the new owner, no copies and the earlier
    dirty page, or the new copy beside the others; the other pages of the
    catalog are as before.  No reform interferes, every message is sent, and the
    master handles each of its two messages alone. *)
Theorem page_hand_over io io' e e' e2 flush disk disk' q ndm cm nd ndr c cr mine litems g b rs :
  master_free io (pq_page_id q) (pq_req_version q) -> master_free io' (pq_page_id q) (pq_req_version q) ->
  request_admitted (mi_world io) (pq_page_id q) (page_req_info q) -> page_ok mine litems g -> page_view g (pq_page_id q) = Some (b, rs) ->
  owned_by_other (page_req_info q) b -> br_claimed_owner b <> inst_id -> asked_mode (pq_req_mode q) -> pq_curr_mode q = DRC_LOCK_NULL ->
  br_readonly_copies b = 0 \/ pq_req_mode q = DRC_LOCK_SHARE \/ copies_droppable (mi_world io) (pq_page_id q) (pq_req_version q) ->
  owner_ready q c -> owner_free e e' flush q -> requester_ready e2 q (bc_page c) cr -> 0 <= nd_lsn ndr -> 0 <= nd_scn ndr ->
  0 < ph_lsn (bc_page c) -> br_lsn b <= ph_lsn (bc_page c) ->
  exists q' g1 a nd' c2 ndr' cr' ci g2 b2,
    dcs_process_ask_master_for_page io q ndm cm g = Done ([MES_CMD_ASK_OWNER (br_claimed_owner b) q'], ndm, cm, g1) /\
    dcs_owner_transfer_page e e' flush true disk q' nd (Some c) = Done (CT_SUCCESS, [answer q (MES_CMD_PAGE_READY a)], nd', Some c2) /\
    dcs_handle_ask_master_ack e2 disk' (pq_src_inst q) (pq_src_sid q) (MES_CMD_PAGE_READY a) (pq_req_mode q) ndr cr =
      Done (CT_SUCCESS, ndr', cr', Some (ci, pq_req_version q)) /\
    dcs_process_claim_ownership_req io' ci (pq_req_version q) ndm cm g1 = Done ([], ndm, cm, g2) /\
    gave_up (pq_req_mode q) c c2 /\ took_over (pq_req_mode q) c nd ndr cr' ndr' /\
    page_ok mine litems g2 /\ same_but (pq_page_id q) g g2 /\ page_view g2 (pq_page_id q) = Some (b2, []) /\ recorded q (bc_is_dirty c) b b2.
Proof.
  intros Hf Hf' Had Hok Hv Ho Hni Hm Hcm Hcp Hor Hof Hrr Hn1 Hn2 Hl1 Hl2.
  destruct (master_asks_owner io q ndm cm mine litems g b rs) as (res & g1 & b1 & Hrun1 & Hok1 & Hsb1 & Hv1 & Hcv & Hrm & Hti); try done.
  set (q' := forwarded q res) in *.
  assert (Hor' : owner_ready q' c) by (destruct Hor; by constructor).
  destruct (owner_sends e e' flush disk q' nd c Hor' Hof Hti Hcm) as (nd' & c2 & Hrun2 & E1 & E2 & Hg).
  destruct (requester_takes e2 disk' (pq_src_inst q) (pq_src_sid q) q' (pq_req_mode q) nd' ndr c cr) as (ndr' & cr' & Hrun3 & Ht); try done;
    [cbn [pq_req_mode q' forwarded]; by rewrite Hrm | cbn [pq_req_mode q' forwarded]; rewrite Hrm; lia |].
  change (pq_req_mode q') with (rs_req_mode res) in Hrun3, Ht, Hg. rewrite Hrm in Hrun3, Ht, Hg.
  destruct (master_takes_claim io' q (ph_lsn (bc_page c)) (bc_is_dirty c) ndm cm mine litems g1 b b1) as (g2 & b2 & Hrun4 & Hok2 & Hsb2 & Hv2 & Hrec); try done;
    [apply Had |].
  eexists q', g1, _, nd', c2, ndr', cr', _, g2, b2. split; [exact Hrun1 |]. split; [exact Hrun2 |]. split; [exact Hrun3 |]. split; [exact Hrun4 |].
  split; [done |]. split; [unfold took_over in *; by rewrite <- E1, <- E2 |]. split; [done |]. split; [| done].
  intros k Hk. rewrite Hsb2 by done. by apply Hsb1.
Qed.

(** The first instance to ask for a page, in share mode, is told to load
    it and takes the page in exclusive mode, so that it can write it, while the
    master records share mode (the comment in [dcs_set_ctrl4granted] says that the
    master already marked exclusive mode). *)
Theorem first_share_granted_exclusive io e2 q ndm cm ndr cr mine litems g :
  master_free io (pq_page_id q) (pq_req_version q) -> request_admitted (mi_world io) (pq_page_id q) (page_req_info q) ->
  page_ok mine litems g -> page_view g (pq_page_id q) = None -> ~ pool_full (res_pool (res_map (pc_res g))) ->
  DRC_STOP_DCS_IO_FOR_REFORMING (pq_req_version q) (wd_env (mi_world io) S_relocked) (pq_page_id q) = false ->
  DRC_STOP_DCS_IO_FOR_REFORMING (pq_req_version q) (wd_env (mi_world io) S_listed) (pq_page_id q) = false ->
  pq_req_mode q = DRC_LOCK_SHARE -> pq_curr_mode q = DRC_LOCK_NULL -> bc_page_id cr = pq_page_id q -> bc_is_edp cr = false ->
  DRC_STOP_DCS_IO_FOR_REFORMING (pq_req_version q) e2 (pq_page_id q) = false ->
  exists a g1 b ndr' cr',
    dcs_process_ask_master_for_page io q ndm cm g = Done ([answer q (MES_CMD_MASTER_ACK_NEED_LOAD a)], ndm, cm, g1) /\
    page_view g1 (pq_page_id q) = Some (b, []) /\ br_claimed_owner b = pq_src_inst q /\ br_mode b = DRC_LOCK_SHARE /\
    dcs_handle_ack_need_load e2 a ndr cr = Done (CT_SUCCESS, ndr', cr') /\ bc_load_status cr' = BUF_NEED_LOAD /\ writable cr'.
Proof.
  intros (Hq & Hsent & Hs1 & Hs2) Had Hok Hv Hfr Hs3 Hs4 Hm Hcm Hp He Hs5.
  destruct (request_new_spec pool_size Q (mi_world io) (pq_page_id q) (page_req_info q) false no_result mine litems g)
    as (r' & res & g1 & b & Hrun & _ & _ & Hv1 & T1 & _ & T3 & T4 & _); try done.
  eexists _, g1, b, _, _. split; [| split; [exact Hv1 |]; split; [exact T3 |]; split; [by rewrite T4 |]; split; [| split]].
  - unfold dcs_process_ask_master_for_page. rewrite Hm, Hcm. change (DRC_LOCK_MODE_MAX <=? DRC_LOCK_SHARE) with false.
    change (DRC_LOCK_MODE_MAX <=? DRC_LOCK_NULL) with false. cbn [orb]. rewrite Hs1, Hrun, outcome_ret_bind. cbv zeta. rewrite T1, Z.eqb_refl, Hsent. reflexivity.
  - unfold dcs_handle_ack_need_load. cbn [ld_req_version]. change (pq_req_version (forwarded q res)) with (pq_req_version q). rewrite Hp, Hs5. cbv zeta.
    unfold dcs_set_ctrl4granted. cbn [bc_is_edp set_bc_load_status]. rewrite He, !outcome_ret_bind. reflexivity.
  - reflexivity.
  - apply writable_iff; done.
Qed.
End exchange.

(** ** Invalidation *)

Lemma invalidate_copy_spec e pagid version c st c' : buf_invalidate_page_with_version e pagid version c = Done (st, c') ->
  (st = CT_SUCCESS -> forall c2, c' = Some c2 -> unusable c2) /\
  (forall c1, c = Some c1 -> bc_lock_mode c1 = DRC_LOCK_EXCLUSIVE -> st = CT_ERROR /\ exists c2, c' = Some c2 /\ moved c1 c2).
Proof.
  unfold buf_invalidate_page_with_version. intros Hr. apply bind_Done in Hr as (x & Hx & Hr). destruct c as [c |].
  2: { unfold buf_try_latchx_page in Hx. run_step Hx; [| discriminate Hx]. apply Done_inj in Hx. subst x. apply Done_inj in Hr. by injection Hr as <- <-. }
  apply latchx_spec in Hx as (cl & -> & Hm). run_step Hr; [apply Done_inj in Hr; injection Hr as <- <-; split; [done |]; intros c1 [= <-] _; eauto |].
  run_step Hr; apply Done_inj in Hr; injection Hr as <- <-; [split; [done |]; intros c1 [= <-] _; eauto |].
  split; [intros _ c2 [= <-]; by apply null_unusable |]. intros c1 [= <-] Hx. destruct Hm as (t & l & ->).
  unfold DCS_BUF_CTRL_NOT_OWNER in Hif0. cbn in Hif0. by rewrite Hx in Hif0.
Qed.

Lemma invalidate_owner_spec e win pagid version c st c' : buf_invalidate_page_owner e win pagid version c = Done (st, c') ->
  (st = CT_SUCCESS -> forall c2, c' = Some c2 -> unusable c2) /\
  (st = CT_SUCCESS -> c <> None -> forall c1, win c = Some c1 -> bc_lock_mode c1 <> DRC_LOCK_NULL ->
    DCS_BUF_CTRL_IS_OWNER c1 = true /\ BUF_IN_USE_IS_RECYCLABLE c1 = true /\ bc_ref_num c1 = 0).
Proof.
  unfold buf_invalidate_page_owner. intros Hr. destruct c as [c |]; [| apply Done_inj in Hr; by injection Hr as <- <-].
  run_step Hr; [apply Done_inj in Hr; by injection Hr as <- <- |]. apply bind_Done in Hr as (x & Hx & Hr). destruct (win (Some c)) as [cw |].
  2: { unfold buf_try_latchx_page in Hx. run_step Hx; [| discriminate Hx]. apply Done_inj in Hx. subst x. apply Done_inj in Hr. by injection Hr as <- <-. }
  apply latchx_spec in Hx as (cl & -> & t & l & ->). run_step Hr.
  { apply Done_inj in Hr; injection Hr as <- <-. apply Z.eqb_eq in Hif0. split; [intros _ c2 [= <-]; by apply null_unusable | by intros _ _ c1 [= <-]]. }
  do 3 (run_step Hr; [apply Done_inj in Hr; by injection Hr as <- <- |]). apply Done_inj in Hr. injection Hr as <- <-.
  split; [intros _ c2 [= <-]; by apply null_unusable |]. intros _ _ c1 [= <-] _.
  apply orb_false_iff in Hif1 as [[Hrec%negb_false_iff _]%orb_false_iff Hrf%negb_false_iff%Z.eqb_eq]. apply negb_false_iff in Hif3.
  cbn in Hrf. split_and!; [exact Hif3 | exact Hrec | lia].
Qed.

(** C23: an instance that tells the master that it dropped a copy, or
    the ownership, of a page cannot use what it has of the page any more; an
    instance that has the page exclusively refuses to drop it as a copy and keeps
    it; and the ownership is given up only of a page that nobody here uses and
    that is neither dirty here nor dirty elsewhere, so that no change is lost. *)
Theorem invalidation_correct e e' win is_owner pagid version c st c' :
  dcs_process_invld_req e e' win is_owner pagid version c = Done (st, c') ->
  (st = Some CT_SUCCESS -> forall c2, c' = Some c2 -> unusable c2) /\
  (is_owner = false -> forall c1, c = Some c1 -> bc_lock_mode c1 = DRC_LOCK_EXCLUSIVE -> st <> Some CT_SUCCESS /\ exists c2, c' = Some c2 /\ moved c1 c2) /\
  (is_owner = true -> st = Some CT_SUCCESS -> c <> None -> forall c1, win c = Some c1 -> bc_lock_mode c1 <> DRC_LOCK_NULL ->
    DCS_BUF_CTRL_IS_OWNER c1 = true /\ BUF_IN_USE_IS_RECYCLABLE c1 = true /\ bc_ref_num c1 = 0).
Proof.
  unfold dcs_process_invld_req. intros Hr.
  do 2 (run_step Hr; [apply Done_inj in Hr; injection Hr as <- <-; split_and!; [done | | done]; intros _ c1 -> _; split; [done |]; exists c1; split; [done | apply moved_refl] |]).
  apply bind_Done in Hr as ([st1 c2] & Hx & Hr). apply Done_inj in Hr. injection Hr as <- <-. destruct is_owner.
  - apply invalidate_owner_spec in Hx as [H1 H2]. split_and!; [intros [= ->]; by apply H1 | done | intros _ [= ->]; by apply H2].
  - apply invalidate_copy_spec in Hx as [H1 H2]. split_and!; [intros [= ->]; by apply H1 | | done].
    intros _ c1 Hc Hx. destruct (H2 c1 Hc Hx) as [-> ?]. done.
Qed.

(** ** The hypotheses hold in a small cluster *)

Module DcsDemo.
Import PageThms.Demo.

Definition a_page (lsn : Z) : page_head := mk_page pg lsn 77.
Definition disk_page : page_head := a_page 3.

(** Node 1 owns the page and has changed it; node 2 has an old copy of it in a
    control that it reuses. *)
Definition owner_ctrl : buf_ctrl :=
  mk_ctrl pg false false false true false false BUF_IS_LOADED true DRC_LOCK_EXCLUSIVE false false BUF_TRANS_NONE 0 1 40 false (a_page 9) 0.
Definition empty_ctrl : buf_ctrl :=
  mk_ctrl pg false false false false false false BUF_NEED_LOAD false DRC_LOCK_NULL false true BUF_TRANS_NONE 1 1 0 false disk_page 0.
Definition copy_ctrl : buf_ctrl :=
  mk_ctrl pg false false false false false false BUF_IS_LOADED false DRC_LOCK_SHARE false false BUF_TRANS_NONE 0 1 0 false disk_page 0.

Definition node1 : node_st := mk_node_st 50 60 30.
Definition node2 : node_st := mk_node_st 20 70 5.
Definition log_flush (lfn : Z) : option Z := Some 45.

Definition ask (mode : Z) : msg_page_req := mk_page_req 2 2 1 300 pg mode DRC_LOCK_NULL 1 0 DRC_RES_INVALID_ACTION false.
Definition mio : master_io := mk_mio w env env env log_flush disk_page true.

Lemma owner_ok : ctrl_ok owner_ctrl.
Proof. by vm_compute. Qed.

Lemma ready mode : owner_ready (ask mode) owner_ctrl.
Proof. by constructor. Qed.

Lemma free mode : owner_free env env log_flush (ask mode).
Proof. by split_and!. Qed.

Lemma taker mode : requester_ready env (ask mode) (bc_page owner_ctrl) empty_ctrl.
Proof. by vm_compute. Qed.

Definition sent_to_2 (mode : Z) := dcs_owner_transfer_page env env log_flush true disk_page (ask mode) node1 (Some owner_ctrl).

Lemma transfer_single_writer_witness :
  exists st msgs nd' c', sent_to_2 DRC_LOCK_EXCLUSIVE = Done (st, msgs, nd', c') /\ page_sent (ask DRC_LOCK_EXCLUSIVE) msgs /\
    exists c2, c' = Some c2 /\ unusable c2.
Proof.
  destruct (owner_sends env env log_flush disk_page (ask DRC_LOCK_EXCLUSIVE) node1 owner_ctrl) as (nd' & c2 & Hrun & _); [apply ready | apply free | done | done |].
  eexists _, _, _, _. split; [exact Hrun |]. split; [eexists; by left |].
  destruct (transfer_single_writer _ _ _ _ _ _ _ _ _ _ _ _ Hrun owner_ok eq_refl) as (c3 & ? & _ & _ & Hu); [eexists; by left |]. exists c3. auto.
Defined.

Lemma transfer_failed_keeps_witness :
  exists st msgs nd' c', dcs_owner_transfer_page env env log_flush false disk_page (ask DRC_LOCK_EXCLUSIVE) node1 (Some owner_ctrl) = Done (st, msgs, nd', c') /\
    st = CT_ERROR /\ exists c2, c' = Some c2 /\ bc_lock_mode c2 = DRC_LOCK_EXCLUSIVE /\ bc_is_dirty c2 = true.
Proof.
  destruct (dcs_owner_transfer_page env env log_flush false disk_page (ask DRC_LOCK_EXCLUSIVE) node1 (Some owner_ctrl)) as [[[[st msgs] nd'] c'] | ?] eqn:Hrun;
    [| vm_compute in Hrun; discriminate Hrun].
  exists st, msgs, nd', c'. split; [done |]. assert (Hn : ~ page_sent (ask DRC_LOCK_EXCLUSIVE) msgs).
  { vm_compute in Hrun. injection Hrun as <- <- <- <-. apply none_sent. }
  destruct (transfer_failed_keeps _ _ _ _ _ _ _ _ _ _ _ _ Hrun owner_ok (or_introl eq_refl) Hn) as (Hst & c2 & ? & ? & ? & ? & _). eauto 10.
Defined.

Lemma transfer_write_ahead_witness :
  exists st msgs nd' c' a, sent_to_2 DRC_LOCK_SHARE = Done (st, msgs, nd', c') /\ answer (ask DRC_LOCK_SHARE) (MES_CMD_PAGE_READY a) ∈ msgs /\
    nd_flushed_lfn node1 < bc_lastest_lfn owner_ctrl /\ bc_lastest_lfn owner_ctrl <= pa_flushed a.
Proof.
  destruct (owner_sends env env log_flush disk_page (ask DRC_LOCK_SHARE) node1 owner_ctrl) as (nd' & c2 & Hrun & _); [apply ready | apply free | done | done |].
  set (a := page_ack _ _ _ _) in Hrun. assert (Hin : answer (ask DRC_LOCK_SHARE) (MES_CMD_PAGE_READY a) ∈ [answer (ask DRC_LOCK_SHARE) (MES_CMD_PAGE_READY a)]) by (by left).
  eexists _, _, _, _, a. split; [exact Hrun |]. split; [exact Hin |]. split; [done |].
  apply (transfer_write_ahead _ _ _ _ _ _ _ _ _ _ _ _ a 45) in Hrun as [Hw _]; [apply Hw; unfold a; by rewrite page_ack_dirty by (by left) | | done | apply owner_ok | exact Hin].
  intros l l' [= <-]. done.
Defined.

Lemma page_transfer_correct_witness :
  exists a nd' c2 ndr' cr', sent_to_2 DRC_LOCK_EXCLUSIVE = Done (CT_SUCCESS, [answer (ask DRC_LOCK_EXCLUSIVE) (MES_CMD_PAGE_READY a)], nd', Some c2) /\
    bc_is_edp c2 = true /\ took_over DRC_LOCK_EXCLUSIVE owner_ctrl node1 node2 cr' ndr'.
Proof.
  destruct (page_transfer_correct env env env log_flush disk_page disk_page 2 2 (ask DRC_LOCK_EXCLUSIVE) DRC_LOCK_EXCLUSIVE node1 node2 owner_ctrl empty_ctrl)
    as (a & nd' & c2 & ndr' & cr' & Hrun & Hg & _ & Ht); [apply ready | apply free | done | done | apply taker | done | done | done |].
  exists a, nd', c2, ndr', cr'. split; [exact Hrun |]. split; [| exact Ht]. destruct Hg as (_ & _ & _ & Hg). rewrite decide_True in Hg by done. by destruct Hg as (_ & _ & -> & _).
Defined.

Lemma mio_free : master_free mio pg 1.
Proof. by split_and!. Qed.

Lemma mio_drops : copies_droppable (mi_world mio) pg 1.
Proof. by vm_compute. Qed.

Lemma page_hand_over_witness :
  exists q' g1 a nd' c2 ndr' cr' ci g2 b2,
    dcs_process_ask_master_for_page mio (ask DRC_LOCK_EXCLUSIVE) node2 None c1 = Done ([MES_CMD_ASK_OWNER 1 q'], node2, None, g1) /\
    dcs_owner_transfer_page env env log_flush true disk_page q' node1 (Some owner_ctrl) =
      Done (CT_SUCCESS, [answer (ask DRC_LOCK_EXCLUSIVE) (MES_CMD_PAGE_READY a)], nd', Some c2) /\
    dcs_handle_ask_master_ack env disk_page 2 2 (MES_CMD_PAGE_READY a) DRC_LOCK_EXCLUSIVE node2 empty_ctrl = Done (CT_SUCCESS, ndr', cr', Some (ci, 1)) /\
    dcs_process_claim_ownership_req mio ci 1 node2 None g1 = Done ([], node2, None, g2) /\
    page_view g2 pg = Some (b2, []) /\ br_claimed_owner b2 = 2 /\ inst_set (br_edp_map b2) = {[1]}.
Proof.
  destruct (page_view c1 pg) as [[b rs] |] eqn:Hview; [| vm_compute in Hview; discriminate Hview].
  assert (Hb : br_claimed_owner b = 1 /\ req_inst_id (converting_req b) = CT_INVALID_ID8 /\ br_pending b = 0 /\ br_lsn b = 0 /\ br_readonly_copies b = 0 /\ br_edp_map b = 0).
  { vm_compute in Hview. injection Hview as <- <-. by vm_compute. }
  destruct Hb as (B1 & B2 & B3 & B4 & B5 & B6). pose proof c1_ok as Hok. revert Hok Hview. generalize c1. intros g Hok Hview.
  destruct (page_hand_over 2 alone mio mio env env env log_flush disk_page disk_page (ask DRC_LOCK_EXCLUSIVE) node2 None node1 node2 owner_ctrl empty_ctrl [] [] g b rs)
    as (q' & g1 & a & nd' & c2 & ndr' & cr' & ci & g2 & b2 & R1 & R2 & R3 & R4 & _ & _ & _ & _ & Hv2 & Hrec);
    [apply mio_free | apply mio_free | split; by vm_compute | exact Hok | exact Hview | split_and!; rewrite ?B1, ?B3; [exact B2 | discriminate ..] |
     rewrite B1; discriminate | by right | reflexivity | right; right; exact mio_drops | apply ready | apply free | apply taker | done | done | done | rewrite B4; done |].
  rewrite B1 in R1. exists q', g1, a, nd', c2, ndr', cr', ci, g2, b2. do 5 (split; [assumption |]).
  destruct Hrec as (_ & _ & Hrec). rewrite decide_True in Hrec by done. destruct Hrec as (Ho & _ & _ & He). split; [exact Ho |].
  rewrite He, B1, B6, inst_set_0. apply leibniz_equiv. set_solver.
Defined.

Lemma first_share_granted_exclusive_witness :
  exists a g1 b ndr' cr', dcs_process_ask_master_for_page mio (ask DRC_LOCK_SHARE) node1 None c0 =
      Done ([answer (ask DRC_LOCK_SHARE) (MES_CMD_MASTER_ACK_NEED_LOAD a)], node1, None, g1) /\
    page_view g1 pg = Some (b, []) /\ br_mode b = DRC_LOCK_SHARE /\ dcs_handle_ack_need_load env a node2 empty_ctrl = Done (CT_SUCCESS, ndr', cr') /\ writable cr'.
Proof.
  assert (Hfree : ~ pool_full (res_pool (res_map (pc_res c0)))) by (intros Hf; vm_compute in Hf; discriminate Hf).
  assert (Hview : page_view c0 pg = None) by (vm_compute; reflexivity).
  pose proof c0_ok as Hok. revert Hok Hview Hfree. generalize c0. intros g Hok Hview Hfree.
  destruct (first_share_granted_exclusive 2 alone mio env (ask DRC_LOCK_SHARE) node1 None node2 empty_ctrl [] [] g)
    as (a & g1 & b & ndr' & cr' & R1 & Hv & _ & Hm & R2 & _ & Hw);
    [apply mio_free | split; by vm_compute | exact Hok | exact Hview | exact Hfree | done | done | done | done | done | done | done |].
  exists a, g1, b, ndr', cr'. split; [exact R1 |]. split; [exact Hv |]. split; [exact Hm |]. split; [exact R2 | exact Hw].
Defined.

Lemma invalidation_correct_witness :
  exists st c', dcs_process_invld_req env env (fun c => c) false pg 1 (Some copy_ctrl) = Done (st, c') /\
    st = Some CT_SUCCESS /\ exists c2, c' = Some c2 /\ unusable c2.
Proof.
  eexists _, _. split; [vm_compute; reflexivity |]. split; [reflexivity |]. eexists. split; [reflexivity |].
  apply (proj1 (invalidation_correct env env (fun c => c) false pg 1 (Some copy_ctrl) (Some CT_SUCCESS) (Some (drop_page copy_ctrl)) eq_refl)); reflexivity.
Defined.
End DcsDemo.
