(* ===== verification/DcsEdp.v ===== *)
(** * Earlier dirty pages: writing and forgetting them (dtc_ckpt.c, dtc_dcs.c)

    An instance that gave a dirty page away keeps it as an earlier dirty page
    (edp) until the page's owner has written a newer one to disk.  Its checkpoint
    asks the master, the master asks the owner, the owner writes the page and
    tells the master, and the master tells the instances that have an edp of it
    to forget it and forgets it itself.  Each step collects pages in an array,
    sorts the pages of other masters to its front, sends them in groups and keeps
    the pages it could not handle yet.

    An array with its count is the list of its entries in use.  [qsort] is the C
    library's; [latch] tells whether a page could be latched when the loop was at
    the given indices; [disk] is what buf_load_page reads.  The catalog may change
    between two accesses of the master, which is what [win] does.  The checkpoint
    queue, the encryption and the checksum of pages are left out but for their
    results.  Sources: src/pkg/src/cluster/dtc_ckpt.c, dtc_dcs.c,
    src/pkg/src/kernel/buffer/knl_buffer_access.c. *)

From stdpp Require Import prelude list functions.
From S2P Require Import Prelude Bitmap ResPool DrcList ResMap ConvertQ GlobalRes DrcTypes BufCtrl DrcPage DrcDcs.

Open Scope Z_scope.
Open Scope drc_scope.

Record edp_page_info := mk_edp_page { ep_page : page_id_t; ep_lsn : Z; ep_action : Z }.

Abbreviation size l := (Z.of_nat (length l)).

Abbreviation buffers := (page_id_t -> option buf_ctrl).

(** ** Arrays of pages *)

Definition cmp_page_id (a b : page_id_t) : Z :=
  let result := if file b <? file a then 1 else if file a <? file b then -1 else 0 in
  if negb (result =? 0) then result
  else if page b <? page a then 1 else if page a <? page b then -1 else 0.

Definition cmp_edp_page_info_t (a b : edp_page_info) : Z := cmp_page_id (ep_page a) (ep_page b).

Definition edp_page_invalid (p : page_id_t) : bool := ((page p =? 0) && (file p =? 0)) || (INVALID_FILE_ID <=? file p).

(** SWAP *)
Definition arr_swap {A} (l : list A) (i j : Z) : outcome (list A) :=
  x ← arr_get l i;
  y ← arr_get l j;
  l ← arr_set l i y;
  arr_set l j x.

Section sorting.
Context (qsort : list edp_page_info -> list edp_page_info).

Definition ckpt_sort_page_id_array (pages : list edp_page_info) : list edp_page_info := if size pages <=? 1 then pages else qsort pages.

(** The memmove that makes room at [j]. *)
Definition insert_at (j : Z) (p : edp_page_info) (dst : list edp_page_info) : list edp_page_info :=
  take (Z.to_nat j) dst ++ p :: drop (Z.to_nat j) dst.

(** [None]: a page identifier of the source is invalid; with the array as it is then. *)
Fixpoint merge_loop (fuel : nat) (src : list edp_page_info) (start src_count dst_capacity i j : Z) (dst : list edp_page_info)
    : outcome (option (Z * Z) * list edp_page_info) :=
  match fuel with
  | O => Crash OutOfFuel
  | S fuel =>
      if (i - start <? src_count) && (j <? size dst) && (size dst <? dst_capacity) then
        s ← arr_get src i;
        if edp_page_invalid (ep_page s) then Done (None, dst)
        else
          d ← arr_get dst j;
          let result := cmp_edp_page_info_t s d in
          if result =? 0 then merge_loop fuel src start src_count dst_capacity (i + 1) (j + 1) dst
          else if result <? 0 then merge_loop fuel src start src_count dst_capacity (i + 1) (j + 1) (insert_at j s dst)
          else merge_loop fuel src start src_count dst_capacity i (j + 1) dst
      else Done (Some (i, j), dst)
  end.

(** The first index of the source that was not merged, and the destination.  On
    an invalid page the count of the destination stays as it was. *)
Definition ckpt_merge_to_array (src : list edp_page_info) (start src_count : Z) (dst : list edp_page_info) (dst_capacity : Z)
    : outcome (Z * list edp_page_info) :=
  let dst := ckpt_sort_page_id_array dst in
  '(r, dst') ← merge_loop (S (Z.to_nat src_count + length dst)) src start src_count dst_capacity start 0 dst;
  match (r : option (Z * Z)) with
  | None => Done (start + src_count, take (length dst) dst')
  | Some (i, j) =>
      if (src_count <=? i - start) || (dst_capacity - 1 <=? j) || (dst_capacity <=? size dst') then Done (i, dst')
      else
        let left := Z.min (dst_capacity - j) (src_count - (i - start)) in
        let left := Z.min left (dst_capacity - size dst') in
        Done (i + left, take (Z.to_nat j) dst' ++ take (Z.to_nat left) (drop (Z.to_nat i) src))
  end.

Definition CT_MAX_CKPT_GROUP_SIZE : Z := 8192.
Definition CT_CLEAN_EDP_GROUP_SIZE : Z := CT_MAX_CKPT_GROUP_SIZE * 2.
Definition CKPT_TRY_ADD_TO_GROUP_TIMES : Z := 3.

(** Adding pages to a group that the checkpoint empties: when the group is full
    the checkpoint is triggered, and [win t] is what it does to the group until
    the [t]-th retry.  [closed] and [enabled] are the checkpoint's state then;
    [once] is set for a caller that does not wait. *)
Fixpoint add_to_group (fuel : nat) (closed enabled : Z -> bool) (win : Z -> list edp_page_info -> list edp_page_info) (once : bool) (limit times : Z)
    (pages : list edp_page_info) (i : Z) (group : list edp_page_info) : outcome (list edp_page_info) :=
  match fuel with
  | O => Crash OutOfFuel
  | S fuel =>
      if (i <? size pages) && negb (closed times) then
        '(i, group) ← ckpt_merge_to_array pages i (size pages - i) group CT_CLEAN_EDP_GROUP_SIZE;
        if (i =? size pages) || once then Done group
        else if (limit <? times) || negb (enabled times) then Done group
        else add_to_group fuel closed enabled win once limit (times + 1) pages i (win times group)
      else Done group
  end.

Definition dcs_clean_edp_pages_local (closed enabled : Z -> bool) (win : Z -> list edp_page_info -> list edp_page_info)
    (pages : list edp_page_info) (group : list edp_page_info) : outcome (list edp_page_info) :=
  if size pages =? 0 then Done group
  else
    let limit := CKPT_TRY_ADD_TO_GROUP_TIMES * 2 in
    add_to_group (Z.to_nat (limit + 3)) closed enabled win false limit 0 (ckpt_sort_page_id_array pages) 0 group.

Definition dcs_process_ckpt_edp_local (ckpt_session : bool) (closed enabled : Z -> bool) (win : Z -> list edp_page_info -> list edp_page_info)
    (pages : list edp_page_info) (group : list edp_page_info) : outcome (list edp_page_info) :=
  if size pages =? 0 then Done group
  else
    let limit := CKPT_TRY_ADD_TO_GROUP_TIMES in
    add_to_group (Z.to_nat (limit + 3)) closed enabled win ckpt_session limit 0 (ckpt_sort_page_id_array pages) 0 group.

(** The handlers of the messages; a message with too many pages is dropped. *)
Definition dcs_process_clean_edp_req (ckpt_group_size : Z) (closed enabled : Z -> bool) (win : Z -> list edp_page_info -> list edp_page_info)
    (pages : list edp_page_info) (group : list edp_page_info) : outcome (list edp_page_info) :=
  if ckpt_group_size / 3 <? size pages then Done group else dcs_clean_edp_pages_local closed enabled win pages group.

Definition dcs_process_ckpt_edp_broadcast_to_owner_req (ckpt_group_size : Z) (ckpt_session : bool) (closed enabled : Z -> bool)
    (win : Z -> list edp_page_info -> list edp_page_info) (pages : list edp_page_info) (group : list edp_page_info) : outcome (list edp_page_info) :=
  if ckpt_group_size / 3 <? size pages then Done group else dcs_process_ckpt_edp_local ckpt_session closed enabled win pages group.
End sorting.

(** ** An instance forgets its earlier dirty pages *)

(** The control, and whether it could be latched. *)
Definition buf_try_latch_ckpt_page (latch : bool) (page_id : page_id_t) (bufs : buffers) : option (buf_ctrl * bool) :=
  match bufs page_id with
  | None => None
  | Some c => Some (c, if decide (bc_load_status c = BUF_NEED_LOAD) then false else latch)
  end.

Definition buf_clean_edp (disk : page_id_t -> page_head) (latch : bool) (p : edp_page_info) (bufs : buffers) : outcome (bool * buffers) :=
  match buf_try_latch_ckpt_page latch (ep_page p) bufs with
  | None => Done (true, bufs)
  | Some (c, false) => Done (false, bufs)
  | Some (c, true) =>
      if negb (bc_is_edp c) then Done (true, bufs)
      else
        let on_disk := disk (bc_page_id c) in
        let lsn := if ep_lsn p =? CT_INVALID_ID64 then (if decide (bc_page_id c = ph_id on_disk) then ph_lsn on_disk else 0) else ep_lsn p in
        c ← (if ph_lsn (bc_page c) <=? lsn then dcs_buf_clean_ctrl_edp c else Done c);
        Done (true, <[ep_page p := Some c]> bufs)
  end.

Fixpoint clean_local_loop (fuel : nat) (disk : page_id_t -> page_head) (latch : Z -> Z -> bool) (i count : Z) (pages : list edp_page_info)
    (bufs : buffers) : outcome (Z * list edp_page_info * buffers) :=
  match fuel with
  | O => Crash OutOfFuel
  | S fuel =>
      if i <? count then
        p ← arr_get pages i;
        '(succeed, bufs) ← buf_clean_edp disk (latch i count) p bufs;
        if negb (succeed : bool) then
          pages ← arr_swap pages i (count - 1);
          clean_local_loop fuel disk latch i (count - 1) pages bufs
        else clean_local_loop fuel disk latch (i + 1) count pages bufs
      else Done (count, pages, bufs)
  end.

Definition dcs_ckpt_clean_local_edp (disk : page_id_t -> page_head) (latch : Z -> Z -> bool) (group : list edp_page_info) (bufs : buffers)
    : outcome (list edp_page_info * buffers) :=
  if size group =? 0 then Done (group, bufs)
  else
    _ ← knl_panic (size group <=? CT_CLEAN_EDP_GROUP_SIZE);
    '(count, pages, bufs) ← clean_local_loop (S (length group)) disk latch 0 (size group) group bufs;
    Done (drop (Z.to_nat count) pages, bufs).

(** ** The owner writes pages on behalf of others *)

(** The part of the checkpoint context the preparation changes: the pages to
    tell their masters of, the pages to write, and the log they need on disk. *)
Record ckpt_ctx := mk_ckpt { ck_clean : list edp_page_info; ck_items : list (page_id_t * page_head); ck_consistent_lfn : Z }.

(** The action of the slot is left as it was, and not read. *)
Definition dtc_add_to_edp_group (dst : list edp_page_info) (count : Z) (page : page_id_t) (lsn : Z) : bool * list edp_page_info :=
  if count <=? size dst then (false, dst) else (true, dst ++ [mk_edp_page page lsn DRC_RES_INVALID_ACTION]).

(** The action that came with the request, on an edp. *)
Definition prepare_clean (disk : page_id_t -> page_head) (recovered : bool) (p : edp_page_info) (c : buf_ctrl) : outcome buf_ctrl :=
  if negb (ep_action p =? DRC_RES_INVALID_ACTION) && bc_is_edp c && recovered
  then dcs_clean_local_ctrl (disk (bc_page_id c)) (ep_action p) (ep_lsn p) c else Done c.

(** The page is not this instance's to write, or older than the request says. *)
Definition prepare_skips (recovered : bool) (p : edp_page_info) (c : buf_ctrl) : bool :=
  (bc_is_marked c || bc_is_readonly c || bc_is_edp c || negb (DCS_BUF_CTRL_IS_OWNER c) || negb (bool_decide (ep_page p = bc_page_id c))) ||
  ((ph_lsn (bc_page c) <? ep_lsn p) && recovered).

(** A page that is written: the masters are to be told, the log it needs is
    noted, and the control is marked and no longer dirty.  The check of the
    page's change number (CHECK_PAGE_PCN) is left out, and the other panics
    repeat what was tested before. *)
Definition prepare_page (group_size : Z) (c : buf_ctrl) (ctx : ckpt_ctx) : outcome (buf_ctrl * ckpt_ctx) :=
  _ ← knl_panic (bool_decide (bc_page_id c = ph_id (bc_page c)));
  let clean := snd (dtc_add_to_edp_group (ck_clean ctx) group_size (bc_page_id c) (ph_lsn (bc_page c))) in
  let c' := set_bc_is_remote_dirty false (set_bc_is_dirty false (set_bc_is_marked true (set_bc_in_ckpt false c))) in
  Done (c', mk_ckpt clean (ck_items ctx) (Z.max (ck_consistent_lfn ctx) (bc_lastest_lfn c))).

(** The copy of the page is in the group of pages to write: [group.count++]. *)
Definition prepare_item (c : buf_ctrl) (ctx : ckpt_ctx) : ckpt_ctx :=
  mk_ckpt (ck_clean ctx) (ck_items ctx ++ [(bc_page_id c, bc_page c)]) (ck_consistent_lfn ctx).

(** [recovered]: the reform is past its recovery.  [written n] is what the
    encryption and the checksum of the [n]-th page of the group return; a page
    for which they fail is marked, but not in the group. *)
Fixpoint prepare_loop (fuel : nat) (disk : page_id_t -> page_head) (latch : Z -> Z -> bool) (recovered : bool) (written : Z -> status_t)
    (group_size i count : Z) (pages : list edp_page_info) (bufs : buffers) (ctx : ckpt_ctx)
    : outcome (status_t * Z * list edp_page_info * buffers * ckpt_ctx) :=
  match fuel with
  | O => Crash OutOfFuel
  | S fuel =>
      if i <? count then
        p ← arr_get pages i;
        match buf_try_latch_ckpt_page (latch i count) (ep_page p) bufs with
        | None =>
            let clean := snd (dtc_add_to_edp_group (ck_clean ctx) group_size (ep_page p) (ep_lsn p)) in
            prepare_loop fuel disk latch recovered written group_size (i + 1) count pages bufs (mk_ckpt clean (ck_items ctx) (ck_consistent_lfn ctx))
        | Some (c, false) =>
            pages ← arr_swap pages i (count - 1);
            prepare_loop fuel disk latch recovered written group_size i (count - 1) pages bufs ctx
        | Some (c, true) =>
            c ← prepare_clean disk recovered p c;
            if prepare_skips recovered p c
            then prepare_loop fuel disk latch recovered written group_size (i + 1) count pages (<[ep_page p := Some c]> bufs) ctx
            else
              '(c, ctx) ← prepare_page group_size c ctx;
              let bufs := <[ep_page p := Some c]> bufs in
              match written (size (ck_items ctx)) with
              | CT_ERROR => Done (CT_ERROR, 0, pages, bufs, ctx)
              | CT_SUCCESS =>
                  let ctx := prepare_item c ctx in
                  if group_size <=? size (ck_items ctx) then Done (CT_SUCCESS, count, pages, bufs, ctx)
                  else prepare_loop fuel disk latch recovered written group_size (i + 1) count pages bufs ctx
              end
        end
      else Done (CT_SUCCESS, count, pages, bufs, ctx)
  end.

(** The first [count] entries of the group leave it; none when it fails. *)
Definition dcs_ckpt_remote_edp_prepare (disk : page_id_t -> page_head) (latch : Z -> Z -> bool) (recovered : bool) (written : Z -> status_t)
    (group_size : Z) (group : list edp_page_info) (bufs : buffers) (ctx : ckpt_ctx)
    : outcome (status_t * list edp_page_info * buffers * ckpt_ctx) :=
  let ctx := mk_ckpt [] (ck_items ctx) (ck_consistent_lfn ctx) in
  if size group =? 0 then Done (CT_SUCCESS, group, bufs, ctx)
  else
    _ ← knl_panic (size group <=? CT_CLEAN_EDP_GROUP_SIZE);
    '(st, count, pages, bufs, ctx) ← prepare_loop (S (length group)) disk latch recovered written group_size 0 (size group) group bufs ctx;
    Done (st, drop (Z.to_nat count) pages, bufs, ctx).

(** ** The master's side *)

Inductive edp_msg :=
| MES_CMD_CLEAN_EDP_REQ (node : Z) (pages : list edp_page_info)
| MES_CMD_NOTIFY_MASTER_CLEAN_EDP_REQ (pages : list edp_page_info)
| MES_CMD_CKPT_EDP_BROADCAST_TO_OWNER (node : Z) (pages : list edp_page_info)
| MES_CMD_CKPT_EDP_BROADCAST_TO_MASTER (pages : list edp_page_info)
| Clean_local (pages : list edp_page_info)
| Write_local (pages : list edp_page_info).

Definition MES_IS_INST_SEND (bits id : Z) : bool := Z.testbit bits id.

(** A message takes at most [group_size] pages. *)
Fixpoint send_groups (fuel : nat) (mk : list edp_page_info -> edp_msg) (sent : Z -> bool) (group_size page_sent page_left : Z) (pages : list edp_page_info)
    : outcome (list edp_msg) :=
  match fuel with
  | O => Crash OutOfFuel
  | S fuel =>
      if 0 <? page_left then
        let count := Z.min group_size page_left in
        let m := mk (take (Z.to_nat count) (drop (Z.to_nat page_sent) pages)) in
        if sent page_sent
        then ms ← send_groups fuel mk sent group_size (page_sent + count) (page_left - count) pages; Done (m :: ms)
        else Done []
      else Done []
  end.

Section master.
Context `{KernelAttr}.

(** The pages whose master is another instance come first; [None] when a page
    identifier or a master is not valid. *)
Fixpoint partition_loop (fuel : nat) (part_master : Z -> Z) (check : bool) (i idx : Z) (pages : list edp_page_info)
    : outcome (option (Z * list edp_page_info)) :=
  match fuel with
  | O => Crash OutOfFuel
  | S fuel =>
      if i <? size pages then
        p ← arr_get pages i;
        if check && edp_page_invalid (ep_page p) then Done None
        else
          match drc_get_page_master_id part_master (ep_page p) with
          | None => Done None
          | Some master_id =>
              if negb (master_id =? inst_id) then
                pages ← arr_swap pages i idx;
                partition_loop fuel part_master check (i + 1) (idx + 1) pages
              else partition_loop fuel part_master check (i + 1) idx pages
          end
      else Done (Some (idx, pages))
  end.

Definition move_remote_first (part_master : Z -> Z) (check : bool) (pages : list edp_page_info) : outcome (option (Z * list edp_page_info)) :=
  partition_loop (S (length pages)) part_master check 0 0 pages.

Section cleaning.
Context (alive : Z -> bool) (ckpt_session : bool) (win : Z -> Z -> Z -> page_ctx -> page_ctx).

(** The pages node [i] is told of; pages that need not be cleaned are moved
    behind [idx_end].  An invalid page identifier is an error. *)
Fixpoint scan_pages (fuel : nat) (i idx_start idx_end : Z) (pages msg : list edp_page_info) (g : page_ctx)
    : outcome (status_t * Z * list edp_page_info * list edp_page_info * page_ctx) :=
  match fuel with
  | O => Crash OutOfFuel
  | S fuel =>
      if idx_start <? idx_end then
        p ← arr_get pages idx_start;
        if edp_page_invalid (ep_page p) then Done (CT_ERROR, idx_end, pages, msg, g)
        else
          let g := win i idx_start idx_end g in
          info ← drc_get_edp_info (ep_page p) g;
          let skip := match (info : option drc_edp_info) with
                      | None => true
                      | Some info => (MES_IS_INST_SEND (ei_edp_map info) inst_id && ckpt_session) || (ep_lsn p <? ei_lsn info)
                      end in
          let told := match info with
                      | None => false
                      | Some info => (ei_edp_map info =? 0) || MES_IS_INST_SEND (ei_edp_map info) i
                      end in
          if skip then
            pages ← arr_swap pages idx_start (idx_end - 1);
            scan_pages fuel i idx_start (idx_end - 1) pages msg g
          else scan_pages fuel i (idx_start + 1) idx_end pages (if told then msg ++ [p] else msg) g
      else Done (CT_SUCCESS, idx_end, pages, msg, g)
  end.

(** What node [i] gets: nothing, a call or a message. *)
Definition node_msg (sent : Z -> bool) (i : Z) (msg : list edp_page_info) : list edp_msg :=
  if size msg =? 0 then []
  else if i =? inst_id then [Clean_local msg]
  else if sent i then [MES_CMD_CLEAN_EDP_REQ i msg] else [].

(** The loop over the instances; [k] are left. *)
Fixpoint clean_nodes (k : nat) (sent : Z -> bool) (i start idx_end : Z) (pages : list edp_page_info) (g : page_ctx)
    : outcome (status_t * Z * list edp_page_info * list edp_msg * page_ctx) :=
  match k with
  | O => Done (CT_SUCCESS, idx_end, pages, [], g)
  | S k =>
      if negb (alive i) || ((i =? inst_id) && ckpt_session) then clean_nodes k sent (i + 1) start idx_end pages g
      else
        '(st, idx_end, pages, msg, g) ← scan_pages (S (Z.to_nat (idx_end - start))) i start idx_end pages [] g;
        match (st : status_t) with
        | CT_ERROR => Done (CT_ERROR, idx_end, pages, [], g)
        | CT_SUCCESS =>
            '(st, idx_end, pages, msgs, g) ← clean_nodes k sent (i + 1) start idx_end pages g;
            Done (st, idx_end, pages, node_msg sent i msg ++ msgs, g)
        end
  end.

(** The catalog forgets the pages' edps. *)
Fixpoint forget_edps (j : Z) (pages : list edp_page_info) (g : page_ctx) : outcome page_ctx :=
  match pages with
  | [] => Done g
  | p :: pages => '(_, g) ← drc_clean_edp_info (ep_page p) (ep_lsn p) (win node_count j 0 g); forget_edps (j + 1) pages g
  end.

(** [length] is the number of entries the caller's array has. *)
Definition dcs_master_clean_edp (sent : Z -> bool) (edp_group_size start end_ length : Z) (pages : list edp_page_info) (g : page_ctx)
    : outcome (status_t * list edp_page_info * list edp_msg * page_ctx) :=
  if end_ <=? start then Done (CT_SUCCESS, pages, [], g)
  else if length <? end_ then Done (CT_ERROR, pages, [], g)
  else
    _ ← knl_panic (end_ - start <=? edp_group_size);
    '(st, idx_end, pages, msgs, g) ← clean_nodes (Z.to_nat node_count) sent 0 start end_ pages g;
    match (st : status_t) with
    | CT_ERROR => Done (CT_ERROR, pages, msgs, g)
    | CT_SUCCESS =>
        g ← forget_edps start (take (Z.to_nat (idx_end - start)) (drop (Z.to_nat start) pages)) g;
        Done (CT_SUCCESS, pages, msgs, g)
    end.

(** The pages this instance is the master of, a group at a time. *)
Fixpoint clean_groups (fuel : nat) (sent : Z -> bool) (edp_group_size length page_start page_end : Z) (pages : list edp_page_info) (g : page_ctx)
    : outcome (status_t * list edp_page_info * list edp_msg * page_ctx) :=
  match fuel with
  | O => Crash OutOfFuel
  | S fuel =>
      if page_end <? size pages then
        let page_end := Z.min (page_start + edp_group_size) (size pages) in
        '(st, pages, ms, g) ← dcs_master_clean_edp sent edp_group_size page_start page_end length pages g;
        match (st : status_t) with
        | CT_ERROR => Done (CT_ERROR, pages, ms, g)
        | CT_SUCCESS =>
            '(st, pages, ms', g) ← clean_groups fuel sent edp_group_size length page_end page_end pages g;
            Done (st, pages, ms ++ ms', g)
        end
      else Done (CT_SUCCESS, pages, [], g)
  end.

(** [group] are the pages the checkpoint has written; ckpt_group_size is the
    attribute, a third of which goes into a message. *)
Definition dcs_clean_edp (part_master : Z -> Z) (sent : Z -> bool) (ckpt_group_size : Z) (group : list edp_page_info) (g : page_ctx)
    : outcome (status_t * list edp_msg * page_ctx) :=
  if size group =? 0 then Done (CT_SUCCESS, [], g)
  else
    let edp_group_size := ckpt_group_size / 3 in
    r ← move_remote_first part_master true group;
    match (r : option (Z * list edp_page_info)) with
    | None => Done (CT_ERROR, [], g)
    | Some (notify_master_idx, pages) =>
        '(st, pages, ms, g) ← clean_groups (S (length pages)) sent edp_group_size (ckpt_group_size + 1) notify_master_idx notify_master_idx pages g;
        match (st : status_t) with
        | CT_ERROR => Done (CT_ERROR, ms, g)
        | CT_SUCCESS =>
            ms' ← send_groups (S (length pages)) MES_CMD_NOTIFY_MASTER_CLEAN_EDP_REQ (fun _ => true) edp_group_size 0 notify_master_idx pages;
            Done (CT_SUCCESS, ms ++ ms', g)
        end
    end.

Definition dcs_process_notify_master_clean_edp_req (part_master : Z -> Z) (sent : Z -> bool) (ckpt_group_size : Z) (pages : list edp_page_info) (g : page_ctx)
    : outcome (list edp_msg * page_ctx) :=
  let edp_group_size := ckpt_group_size / 3 in
  if edp_group_size <? size pages then Done ([], g)
  else
    r ← move_remote_first part_master true pages;
    match (r : option (Z * list edp_page_info)) with
    | None => Done ([], g)
    | Some (notify_master_idx, pages) =>
        '(_, _, ms, g) ← dcs_master_clean_edp sent edp_group_size notify_master_idx (size pages) edp_group_size pages g;
        Done (ms, g)
    end.
End cleaning.

(** ** The master asks the owners to write *)

Section notifying.
Context (alive : Z -> bool) (env_at : Z -> Z -> dtc_env) (win : Z -> Z -> page_ctx -> page_ctx).

(** The pages of [rest] that instance [i] owns; a page that is not in the catalog
    goes to every instance, which is to look whether it can forget it. *)
Fixpoint owned_pages (i j : Z) (rest : list edp_page_info) (g : page_ctx) : outcome (list edp_page_info * page_ctx) :=
  match rest with
  | [] => Done ([], g)
  | p :: rest =>
      '(r, g) ← drc_get_page_owner_id (env_at i j) (ep_page p) (win i j g);
      let '(owner, action) := match (r : option (Z * Z)) with Some x => x | None => (i, DRC_RES_CLEAN_EDP_ACTION) end in
      '(ps, g) ← owned_pages i (j + 1) rest g;
      Done (if (owner =? CT_INVALID_ID8) || negb (owner =? i) then ps else mk_edp_page (ep_page p) (ep_lsn p) action :: ps, g)
  end.

Fixpoint notify_owners (k : nat) (sent : Z -> Z -> bool) (edp_group_size i start : Z) (pages : list edp_page_info) (g : page_ctx)
    : outcome (list edp_msg * page_ctx) :=
  match k with
  | O => Done ([], g)
  | S k =>
      if negb (alive i) then notify_owners k sent edp_group_size (i + 1) start pages g
      else
        '(ps, g) ← owned_pages i start pages g;
        ms ← (if i =? inst_id then Done (if 0 <? size ps then [Write_local ps] else [])
              else send_groups (S (length ps)) (MES_CMD_CKPT_EDP_BROADCAST_TO_OWNER i) (sent i) edp_group_size 0 (size ps) ps);
        '(ms', g) ← notify_owners k sent edp_group_size (i + 1) start pages g;
        Done (ms ++ ms', g)
  end.

(** [pages] are the entries from [start] on; an action that is written back to
    the array is written again before it is read. *)
Definition dcs_notify_owner_for_ckpt_l (sent : Z -> Z -> bool) (edp_group_size start : Z) (pages : list edp_page_info) (g : page_ctx)
    : outcome (status_t * list edp_msg * page_ctx) :=
  if size pages =? 0 then Done (CT_SUCCESS, [], g)
  else '(ms, g) ← notify_owners (Z.to_nat node_count) sent edp_group_size 0 start pages g; Done (CT_SUCCESS, ms, g).

Definition dcs_master_process_ckpt_request (part_master : Z -> Z) (sent : Z -> Z -> bool) (edp_group_size : Z) (broadcast_to_others : bool)
    (pages : list edp_page_info) (g : page_ctx) : outcome (status_t * list edp_msg * page_ctx) :=
  r ← move_remote_first part_master false pages;
  match (r : option (Z * list edp_page_info)) with
  | None => Done (CT_ERROR, [], g)
  | Some (notify_master_idx, pages) =>
      '(st, ms, g) ← dcs_notify_owner_for_ckpt_l sent edp_group_size notify_master_idx (drop (Z.to_nat notify_master_idx) pages) g;
      match (st : status_t) with
      | CT_ERROR => Done (CT_ERROR, ms, g)
      | CT_SUCCESS =>
          if negb broadcast_to_others || (notify_master_idx =? 0) then Done (CT_SUCCESS, ms, g)
          else
            ms' ← send_groups (S (length pages)) MES_CMD_CKPT_EDP_BROADCAST_TO_MASTER (fun _ => true) edp_group_size 0 notify_master_idx pages;
            Done (CT_SUCCESS, ms ++ ms', g)
      end
  end.

Definition dcs_process_ckpt_edp_broadcast_to_master_req (part_master : Z -> Z) (sent : Z -> Z -> bool) (ckpt_group_size : Z) (pages : list edp_page_info)
    (g : page_ctx) : outcome (list edp_msg * page_ctx) :=
  if ckpt_group_size / 3 <? size pages then Done ([], g)
  else '(_, ms, g) ← dcs_master_process_ckpt_request part_master sent (ckpt_group_size / 3) false pages g; Done (ms, g).

Definition dcs_notify_owner_for_ckpt (part_master : Z -> Z) (sent : Z -> Z -> bool) (ckpt_group_size : Z) (edp_group : list edp_page_info) (g : page_ctx)
    : outcome (status_t * list edp_msg * page_ctx) :=
  if size edp_group =? 0 then Done (CT_SUCCESS, [], g)
  else
    _ ← knl_panic (size edp_group <=? ckpt_group_size);
    dcs_master_process_ckpt_request part_master sent (ckpt_group_size / 3) true edp_group g.
End notifying.
End master.
