(* ===== verification/EdpThms.v ===== *)
(** * What the handling of earlier dirty pages guarantees

    Merging pages into a group keeps the group sorted and within its capacity,
    loses no page of it and takes in every page of the source before the index it
    returns.  Moving the pages of other masters to the front is a partition,
    sending in groups sends every page once.  The master tells exactly the
    instances that have an edp of a page to forget it, and forgets exactly the
    pages it told them of.  An instance keeps the pages it could not latch for
    the next time; the preparation of remote requests loses some when its group
    is full. *)

From stdpp Require Import prelude list sorting functions.
From S2P Require Import Prelude Bitmap ResPool DrcList ResMap ConvertQ GlobalRes DrcTypes BufCtrl DrcPage PageInv PageProps PageFun PageThms DrcDcs DcsEdp.

Open Scope Z_scope.
Open Scope drc_scope.

(** ** Merging into a group *)

Definition page_le (a b : page_id_t) : Prop := file a < file b \/ (file a = file b /\ page a <= page b).
Definition edp_le (a b : edp_page_info) : Prop := page_le (ep_page a) (ep_page b).
Abbreviation edp_sorted := (StronglySorted edp_le).

(** What the C library promises of its sort. *)
Definition sorts (qsort : list edp_page_info -> list edp_page_info) : Prop := forall l, qsort l ≡ₚ l /\ edp_sorted (qsort l).

Definition valid_page (p : edp_page_info) : Prop := edp_page_invalid (ep_page p) = false.

Lemma edp_le_trans a b c : edp_le a b -> edp_le b c -> edp_le a c.
Proof. unfold edp_le, page_le. lia. Qed.

Lemma cmp_spec a b :
  (cmp_edp_page_info_t a b = 0 /\ ep_page a = ep_page b) \/ (cmp_edp_page_info_t a b < 0 /\ edp_le a b) \/ (0 < cmp_edp_page_info_t a b /\ edp_le b a).
Proof.
  unfold cmp_edp_page_info_t, cmp_page_id, edp_le, page_le. destruct (ep_page a) as [fa pa], (ep_page b) as [fb pb]. cbn.
  destruct (Z.ltb_spec fb fa), (Z.ltb_spec fa fb); cbn; [lia | lia | lia |].
  destruct (Z.ltb_spec pb pa), (Z.ltb_spec pa pb); cbn; [lia | lia | lia |]. left. split; [done |]. f_equal; lia.
Qed.

Lemma edp_le_eq a b : ep_page a = ep_page b -> edp_le a b.
Proof. unfold edp_le, page_le. intros ->. lia. Qed.

Lemma lookupZ_app_mid {A} (l1 l2 : list A) x : (l1 ++ x :: l2).[Z.of_nat (length l1)] = Some x.
Proof. apply lookupZ_Some. split; [lia |]. rewrite Nat2Z.id. by apply list_lookup_middle. Qed.

Lemma sorted_app_le l1 l2 : edp_sorted l1 -> edp_sorted l2 -> (forall x y, x ∈ l1 -> y ∈ l2 -> edp_le x y) -> edp_sorted (l1 ++ l2).
Proof. intros. by apply StronglySorted_app. Qed.

(** What one run of the loop has done, from [pre ++ post] with [xs] still to come. *)
Definition merged (cap : Z) (pre post xs pre' post' done rest : list edp_page_info) : Prop :=
  xs = done ++ rest /\ edp_sorted (pre' ++ post') /\ (forall p x, p ∈ pre' -> x ∈ rest -> edp_le p x) /\
  (exists ins, pre' ++ post' ≡ₚ (pre ++ post) ++ ins /\ ins `sublist_of` done) /\
  (forall x, x ∈ done -> exists d, d ∈ pre' ++ post' /\ ep_page d = ep_page x) /\
  (rest = [] \/ post' = [] \/ cap <= size (pre' ++ post')) /\ size (pre' ++ post') <= Z.max cap (size (pre ++ post)).

Lemma merged_skip cap pre d post xs pre' post' dn rest :
  merged cap (pre ++ [d]) post xs pre' post' dn rest -> merged cap pre (d :: post) xs pre' post' dn rest.
Proof. unfold merged. by rewrite <- !(assoc_L (++)). Qed.

Lemma merged_same cap pre d post x xs pre' post' dn rest : ep_page x = ep_page d ->
  merged cap (pre ++ [d]) post xs pre' post' dn rest -> merged cap pre (d :: post) (x :: xs) pre' post' (x :: dn) rest.
Proof.
  intros Heq (-> & H1 & H2 & (ins & Hp & Hi) & H3 & H4 & H5). unfold merged. rewrite <- !(assoc_L (++)) in *. split_and!; try done.
  - exists ins. split; [by rewrite <- (assoc_L (++)) | by constructor].
  - intros y [-> | Hy]%elem_of_cons; [| by apply H3]. exists d. split; [| done]. rewrite Hp. set_solver.
Qed.

Lemma merged_insert cap pre d post x xs pre' post' dn rest : size (pre ++ d :: post) < cap ->
  merged cap (pre ++ [x]) (d :: post) xs pre' post' dn rest -> merged cap pre (d :: post) (x :: xs) pre' post' (x :: dn) rest.
Proof.
  intros Hc (-> & H1 & H2 & (ins & Hp & Hi) & H3 & H4 & H5). unfold merged. split_and!; try done.
  - exists (x :: ins). split; [| by constructor]. rewrite Hp. rewrite <- !(assoc_L (++)). cbn. solve_Permutation.
  - intros y [-> | Hy]%elem_of_cons; [| by apply H3]. exists x. split; [| done]. rewrite Hp. set_solver.
  - rewrite !length_app in *. cbn in *. lia.
Qed.

Lemma merge_loop_spec fuel : forall cap bef xs aft start pre post,
  (length xs + length post < fuel)%nat -> Forall valid_page xs -> edp_sorted xs -> edp_sorted (pre ++ post) ->
  (forall p x, p ∈ pre -> x ∈ xs -> edp_le p x) ->
  exists pre' post' dn rest, merged cap pre post xs pre' post' dn rest /\
    merge_loop fuel (bef ++ xs ++ aft) start (size bef - start + size xs) cap (size bef) (size pre) (pre ++ post) =
      Done (Some (size bef + size dn, size pre'), pre' ++ post').
Proof.
  induction fuel as [| fuel IH]; intros cap bef xs aft start pre post Hf Hv Hs Hd Hle; [lia |]. cbn [merge_loop].
  assert (Hstop : xs = [] \/ post = [] \/ cap <= size (pre ++ post) ->
    exists pre' post' dn rest, merged cap pre post xs pre' post' dn rest /\
      Done (Some (size bef, size pre), pre ++ post) = Done (Some (size bef + size dn, size pre'), pre' ++ post')).
  { intros Hst. exists pre, post, [], xs. split; [| cbn; rewrite Z.add_0_r; done]. unfold merged. split_and!; try done; [| set_solver | lia].
    exists []. rewrite app_nil_r. split; [done | constructor]. }
  destruct xs as [| x xs]; [| destruct post as [| d post]].
  - replace (size bef - start <? size bef - start + size []) with false by (symmetry; apply Z.ltb_ge; cbn; lia). by apply Hstop; left.
  - replace (size pre <? size (pre ++ [])) with false by (symmetry; apply Z.ltb_ge; rewrite app_nil_r; lia). rewrite andb_false_r. cbn [andb]. apply Hstop. by right; left.
  - destruct (Z.ltb_spec (size (pre ++ d :: post)) cap) as [Hc | Hc]; [| rewrite andb_false_r; apply Hstop; by right; right].
    clear Hstop. replace (size bef - start <? size bef - start + size (x :: xs)) with true by (symmetry; apply Z.ltb_lt; cbn; lia).
    replace (size pre <? size (pre ++ d :: post)) with true by (symmetry; apply Z.ltb_lt; rewrite length_app; cbn; lia). cbn [andb].
    rewrite (arr_get_eq (bef ++ (x :: xs) ++ aft) _ _ (lookupZ_app_mid bef (xs ++ aft) x)), outcome_ret_bind. apply list.Forall_cons in Hv as [Hvx Hv]. rewrite Hvx.
    rewrite (arr_get_eq _ _ _ (lookupZ_app_mid pre post d)), outcome_ret_bind. cbv zeta.
    pose proof Hs as (Hxs & Hs')%StronglySorted_cons. rewrite list.Forall_forall in Hxs.
    pose proof Hd as (Hpd & Hpre & Hpost)%StronglySorted_app. apply StronglySorted_cons in Hpost as [Hdp Hpost]. rewrite list.Forall_forall in Hdp.
    assert (E1 : bef ++ (x :: xs) ++ aft = (bef ++ [x]) ++ xs ++ aft) by (by rewrite <- (assoc_L (++))).
    assert (E2 : forall y : edp_page_info, size bef + 1 = size (bef ++ [y])) by (intros y; rewrite length_app; cbn; lia).
    assert (E3 : forall y : edp_page_info, size pre + 1 = size (pre ++ [y])) by (intros y; rewrite length_app; cbn; lia).
    assert (E4 : size bef - start + size (x :: xs) = size (bef ++ [x]) - start + size xs) by (rewrite length_app; cbn; lia).
    destruct (cmp_spec x d) as [[-> Heq] | [[Hlt Hxd] | [Hgt Hdx]]].
    + cbn [Z.eqb]. rewrite E1, (E2 x), (E3 d), E4. replace (pre ++ d :: post) with ((pre ++ [d]) ++ post) by (by rewrite <- (assoc_L (++))).
      destruct (IH cap (bef ++ [x]) xs aft start (pre ++ [d]) post) as (pre' & post' & dn & rest & Hm & ->); try done.
      { cbn in Hf. lia. } { by rewrite <- (assoc_L (++)). }
      { intros p y [Hp | ->%list_elem_of_singleton]%elem_of_app Hy; [by apply Hle; [| right] |]. eapply edp_le_trans; [apply edp_le_eq; by symmetry | by apply Hxs]. }
      exists pre', post', (x :: dn), rest. split; [by apply merged_same |]. rewrite <- E2. cbn. do 4 f_equal. lia.
    + rewrite (proj2 (Z.eqb_neq _ _)) by lia. rewrite (proj2 (Z.ltb_lt _ _)) by lia.
      assert (E5 : insert_at (size pre) x (pre ++ d :: post) = (pre ++ [x]) ++ d :: post).
      { unfold insert_at. rewrite Nat2Z.id, take_app_length, drop_app_length, <- (assoc_L (++)). done. }
      rewrite E1, (E2 x), (E3 x), E4, E5.
      destruct (IH cap (bef ++ [x]) xs aft start (pre ++ [x]) (d :: post)) as (pre' & post' & dn & rest & Hm & ->); try done.
      { cbn in Hf |- *. lia. }
      { rewrite <- (assoc_L (++)). apply sorted_app_le; [done | |].
        - apply StronglySorted_cons. split; [| by apply StronglySorted_cons; rewrite list.Forall_forall].
          constructor; [done |]. apply list.Forall_forall. intros y Hy. eapply edp_le_trans; [exact Hxd | by apply Hdp].
        - intros p y Hp [-> | Hy]%elem_of_cons; [apply Hle; [done | by left] | by apply Hpd]. }
      { intros p y [Hp | ->%list_elem_of_singleton]%elem_of_app Hy; [by apply Hle; [| right] | by apply Hxs]. }
      exists pre', post', (x :: dn), rest. split; [by apply merged_insert |]. rewrite <- E2. cbn. do 4 f_equal. lia.
    + rewrite (proj2 (Z.eqb_neq _ _)) by lia. rewrite (proj2 (Z.ltb_ge _ _)) by lia. rewrite (E3 d).
      replace (pre ++ d :: post) with ((pre ++ [d]) ++ post) by (by rewrite <- (assoc_L (++))).
      destruct (IH cap bef (x :: xs) aft start (pre ++ [d]) post) as (pre' & post' & dn & rest & Hm & ->); try done.
      { cbn in Hf |- *. lia. } { by constructor. } { by rewrite <- (assoc_L (++)). }
      { intros p y [Hp | ->%list_elem_of_singleton]%elem_of_app [-> | Hy]%elem_of_cons;
          [apply Hle; [done | by left] | by apply Hle; [| right] | done | eapply edp_le_trans; [exact Hdx | by apply Hxs]]. }
      exists pre', post', dn, rest. split; [by apply merged_skip | done].
Qed.

Lemma sort_spec qsort l : sorts qsort -> ckpt_sort_page_id_array qsort l ≡ₚ l /\ edp_sorted (ckpt_sort_page_id_array qsort l).
Proof.
  intros Hq. unfold ckpt_sort_page_id_array. destruct (Z.leb_spec (size l) 1); [| apply Hq]. split; [done |].
  destruct l as [| a [| b l]]; [constructor | repeat constructor | cbn in *; lia].
Qed.

(** C38: merging [src_count] sorted pages from [start] on into a group
    that holds at most its capacity returns, and: the group is sorted and within
    its capacity; it has what it had and pages of the source, in their order;
    every page of the source before the returned index is in it; and a page is
    left over only when the group has at most one slot left. *)
Theorem merge_to_array_correct qsort src start src_count dst cap :
  sorts qsort -> 0 <= start -> 0 <= src_count -> start + src_count <= size src -> 0 < cap -> size dst <= cap ->
  let seg := take (Z.to_nat src_count) (drop (Z.to_nat start) src) in edp_sorted seg -> Forall valid_page seg ->
  exists i dst' ins, ckpt_merge_to_array qsort src start src_count dst cap = Done (i, dst') /\ start <= i <= start + src_count /\
    edp_sorted dst' /\ size dst' <= cap /\ dst' ≡ₚ dst ++ ins /\ ins `sublist_of` take (Z.to_nat (i - start)) seg /\
    (forall x, x ∈ take (Z.to_nat (i - start)) seg -> exists d, d ∈ dst' /\ ep_page d = ep_page x) /\ (i < start + src_count -> cap - 1 <= size dst').
Proof.
  intros Hq Hst Hn Hlen Hcap Hsz seg Hs Hv. destruct (sort_spec qsort dst Hq) as [Hp Hd]. unfold ckpt_merge_to_array.
  set (D := ckpt_sort_page_id_array qsort dst) in *. assert (HD : size D = size dst) by (by rewrite Hp). cbv zeta.
  set (bef := take (Z.to_nat start) src). set (aft := drop (Z.to_nat src_count) (drop (Z.to_nat start) src)).
  assert (Hsrc : src = bef ++ seg ++ aft) by (unfold bef, seg, aft; by rewrite !take_drop).
  assert (Hbef : size bef = start) by (unfold bef; rewrite length_take; lia).
  assert (Hseg : size seg = src_count) by (unfold seg; rewrite length_take, length_drop; lia).
  destruct (merge_loop_spec (S (Z.to_nat src_count + length D)) cap bef seg aft start [] D) as (pre & post & dn & rest & Hm & Hrun); try done; [lia | set_solver |].
  rewrite <- Hsrc, Hbef, Hseg in Hrun. replace (start - start + src_count) with src_count in Hrun by lia. cbn [length app] in Hrun.
  change (Z.of_nat 0) with 0 in Hrun. rewrite Hrun, outcome_ret_bind.
  destruct Hm as (Hsplit & Hsd & Hle & (ins & Hpi & Hsub) & Hin & Hend & Hmax). cbn [app] in Hpi, Hmax. rewrite HD in Hmax.
  assert (Hdn : size dn + size rest = src_count) by (rewrite <- Hseg, Hsplit, length_app; lia).
  assert (Htake : take (Z.to_nat (size dn)) seg = dn) by (rewrite Hsplit, Nat2Z.id; apply take_app_length).
  destruct (_ || _ || _) eqn:Hif.
  - exists (start + size dn), (pre ++ post), ins. replace (start + size dn - start) with (size dn) by lia. rewrite Htake. split_and!; try done; [lia | lia | lia | by rewrite Hpi, Hp |].
    intros Hi. apply orb_true_iff in Hif as [[Hif%Z.leb_le | Hif%Z.leb_le]%orb_true_iff | Hif%Z.leb_le]; [lia | rewrite length_app; lia | lia].
  - apply orb_false_iff in Hif as [[H1%Z.leb_gt H2%Z.leb_gt]%orb_false_iff H3%Z.leb_gt].
    assert (post = []) as -> by (destruct Hend as [-> | [? | ?]]; [cbn in *; lia | done | lia]). rewrite app_nil_r in *.
    rewrite Nat2Z.id, firstn_all. set (left := Z.min _ _).
    assert (Hl : left = Z.min (size rest) (cap - size pre)) by (unfold left; lia).
    assert (Hrest : take (Z.to_nat left) (drop (Z.to_nat (start + size dn)) src) = take (Z.to_nat left) rest).
    { rewrite Hsrc, Hsplit, <- (assoc_L (++) dn), (assoc_L (++) bef). replace (Z.to_nat (start + size dn)) with (length (bef ++ dn)) by (rewrite length_app; lia).
      rewrite drop_app_length, take_app_le by lia. done. }
    rewrite Hrest. replace (start + size dn + left) with (start + (size dn + left)) by lia.
    assert (Htk : take (Z.to_nat (start + (size dn + left) - start)) seg = dn ++ take (Z.to_nat left) rest).
    { rewrite Hsplit. replace (Z.to_nat (start + (size dn + left) - start)) with (length dn + Z.to_nat left)%nat by lia. by rewrite take_app_add. }
    exists (start + (size dn + left)), (pre ++ take (Z.to_nat left) rest), (ins ++ take (Z.to_nat left) rest). rewrite Htk. split_and!; [done | lia | lia | | | | | |].
    + apply sorted_app_le; [done | |].
      * rewrite Hsplit in Hs. apply StronglySorted_app in Hs as (_ & _ & Hs). rewrite <- (take_drop (Z.to_nat left) rest) in Hs. by apply StronglySorted_app in Hs as (_ & Hs & _).
      * intros x y Hx Hy. apply Hle; [done |]. rewrite <- (take_drop (Z.to_nat left) rest). set_solver.
    + rewrite length_app, length_take. lia.
    + rewrite Hpi, Hp. by rewrite (assoc_L (++)).
    + by apply sublist_app.
    + intros x [Hx | Hx]%elem_of_app; [destruct (Hin x Hx) as (d & ? & ?); exists d; set_solver | exists x; set_solver].
    + intros Hi. rewrite length_app, length_take. lia.
Qed.

(** ** Exchanging entries *)

Lemma insertZ_app_mid {A} (l1 l2 : list A) x y : (l1 ++ x :: l2).[size l1 <- y] = l1 ++ y :: l2.
Proof.
  unfold insertZ. rewrite length_app. destruct (Z.leb_spec 0 (size l1)), (Z.ltb_spec (size l1) (Z.of_nat (length l1 + length (x :: l2)))); cbn in *; try lia.
  rewrite Nat2Z.id, insert_app_r_alt, Nat.sub_diag by lia. done.
Qed.

Lemma arr_swap_self {A} (l1 l2 : list A) x : arr_swap (l1 ++ x :: l2) (size l1) (size l1) = Done (l1 ++ x :: l2).
Proof.
  unfold arr_swap. rewrite !(arr_get_eq _ _ _ (lookupZ_app_mid l1 l2 x)), !outcome_ret_bind.
  rewrite (arr_set_eq _ _ _ _ (lookupZ_app_mid l1 l2 x)), outcome_ret_bind, insertZ_app_mid.
  by rewrite (arr_set_eq _ _ _ _ (lookupZ_app_mid l1 l2 x)), insertZ_app_mid.
Qed.

Lemma arr_swap_apart {A} (l1 l2 l3 : list A) x y i j :
  i = size l1 /\ j = size (l1 ++ x :: l2) \/ j = size l1 /\ i = size (l1 ++ x :: l2) ->
  arr_swap (l1 ++ x :: l2 ++ y :: l3) i j = Done (l1 ++ y :: l2 ++ x :: l3).
Proof.
  assert (Ha : forall u v, l1 ++ u :: l2 ++ v :: l3 = (l1 ++ u :: l2) ++ v :: l3) by (intros; by rewrite <- (assoc_L (++))).
  assert (Hl : forall u, size (l1 ++ u :: l2) = size (l1 ++ x :: l2)) by (intros; rewrite !length_app; done).
  assert (G1 : forall u v, arr_get (l1 ++ u :: l2 ++ v :: l3) (size l1) = Done u) by (intros; apply arr_get_eq, lookupZ_app_mid).
  assert (G2 : forall u v, arr_get (l1 ++ u :: l2 ++ v :: l3) (size (l1 ++ x :: l2)) = Done v)
    by (intros; rewrite Ha, <- (Hl u); apply arr_get_eq, lookupZ_app_mid).
  assert (S1 : forall u v w, arr_set (l1 ++ u :: l2 ++ v :: l3) (size l1) w = Done (l1 ++ w :: l2 ++ v :: l3)).
  { intros. rewrite (arr_set_eq _ _ _ _ (lookupZ_app_mid l1 (l2 ++ v :: l3) u)). by rewrite insertZ_app_mid. }
  assert (S2 : forall u v w, arr_set (l1 ++ u :: l2 ++ v :: l3) (size (l1 ++ x :: l2)) w = Done (l1 ++ u :: l2 ++ w :: l3)).
  { intros. rewrite (Ha u v), <- (Hl u), (arr_set_eq _ _ _ _ (lookupZ_app_mid (l1 ++ u :: l2) l3 v)). rewrite insertZ_app_mid. by rewrite <- Ha. }
  unfold arr_swap. intros [[-> ->] | [-> ->]].
  - by rewrite G1, G2, !outcome_ret_bind, S1, outcome_ret_bind, S2.
  - by rewrite G1, G2, !outcome_ret_bind, S2, outcome_ret_bind, S1.
Qed.

(** Exchanging the first entry of a stretch with its last. *)
Lemma arr_swap_last {A} (l1 l2 l3 : list A) x : exists l2', x :: l2 ≡ₚ l2' ++ [x] /\
  arr_swap (l1 ++ (x :: l2) ++ l3) (size l1) (size (l1 ++ x :: l2) - 1) = Done (l1 ++ l2' ++ x :: l3).
Proof.
  destruct l2 as [| y l2 _] using rev_ind.
  - exists []. split; [done |]. cbn. rewrite length_app. cbn. replace (Z.of_nat (length l1 + 1) - 1) with (size l1) by lia. apply arr_swap_self.
  - exists (y :: l2). split; [cbn; solve_Permutation |].
    replace (size (l1 ++ x :: l2 ++ [y]) - 1) with (size (l1 ++ x :: l2)) by (rewrite !length_app; cbn; rewrite length_app; cbn; lia).
    cbn. rewrite <- (assoc_L (++)). apply (arr_swap_apart l1 l2 l3 x y). by left.
Qed.

(** ** Masters of pages *)

Section masters.
Context `{KernelAttr} (part_master : Z -> Z).

Definition has_master (p : edp_page_info) : Prop := drc_get_page_master_id part_master (ep_page p) <> None.
Definition mine (p : edp_page_info) : Prop := drc_get_page_master_id part_master (ep_page p) = Some inst_id.

#[export] Instance mine_dec p : Decision (mine p).
Proof. unfold mine. apply _. Defined.

Lemma partition_loop_spec check fuel : forall front back rest,
  (length rest < fuel)%nat -> Forall has_master rest -> (check = true -> Forall valid_page rest) ->
  exists back', partition_loop fuel part_master check (size (front ++ back)) (size front) (front ++ back ++ rest) =
      Done (Some (size (front ++ filter (fun p => ~ mine p) rest), (front ++ filter (fun p => ~ mine p) rest) ++ back')) /\
    back' ≡ₚ back ++ filter mine rest.
Proof.
  induction fuel as [| fuel IH]; intros front back rest Hf Hm Hv; [lia |]. cbn [partition_loop]. destruct rest as [| p rest].
  { rewrite !app_nil_r, Z.ltb_irrefl. exists back. done. }
  replace (size (front ++ back) <? size (front ++ back ++ p :: rest)) with true by (symmetry; apply Z.ltb_lt; rewrite !length_app; cbn; lia).
  rewrite (assoc_L (++) front back), (arr_get_eq _ _ _ (lookupZ_app_mid _ _ _)), outcome_ret_bind.
  apply list.Forall_cons in Hm as [Hmp Hm]. unfold has_master in Hmp.
  assert (Hv' : check = true -> Forall valid_page rest) by (intros Hc; specialize (Hv Hc); by apply list.Forall_cons in Hv as [_ ?]).
  assert (Hvp : check && edp_page_invalid (ep_page p) = false).
  { destruct check; [| done]. specialize (Hv eq_refl). apply list.Forall_cons in Hv as [Hvp _]. exact Hvp. }
  rewrite Hvp. clear Hvp.
  destruct (drc_get_page_master_id part_master (ep_page p)) as [m |] eqn:Em; [| done]. destruct (Z.eqb_spec m inst_id) as [-> | Hne]; cbn [negb].
  - assert (Hp : mine p) by done. replace (size (front ++ back) + 1) with (size (front ++ (back ++ [p]))) by (rewrite !length_app; cbn; lia).
    replace ((front ++ back) ++ p :: rest) with (front ++ (back ++ [p]) ++ rest) by (by rewrite <- !(assoc_L (++))).
    destruct (IH front (back ++ [p]) rest) as (b' & -> & Hb'); [cbn in Hf; lia | done | done |]. exists b'.
    rewrite (filter_cons_False (fun p => ~ mine p)) by tauto. rewrite (filter_cons_True mine) by done. split; [done |]. rewrite Hb'. by rewrite <- (assoc_L (++)).
  - assert (Hp : ~ mine p) by (unfold mine; congruence).
    assert (Hsw : exists back', back' ≡ₚ back /\ arr_swap ((front ++ back) ++ p :: rest) (size (front ++ back)) (size front) = Done ((front ++ [p]) ++ back' ++ rest)).
    { destruct back as [| b back].
      - exists []. split; [done |]. rewrite app_nil_r, arr_swap_self. by rewrite <- (assoc_L (++)).
      - exists (back ++ [b]). split; [solve_Permutation |]. rewrite <- (assoc_L (++) front). cbn. rewrite (arr_swap_apart front back rest b p) by (by right).
        by rewrite <- !(assoc_L (++)). }
    destruct Hsw as (back' & Hb & ->). rewrite outcome_ret_bind.
    replace (size (front ++ back) + 1) with (size ((front ++ [p]) ++ back')) by (rewrite !length_app, Hb; cbn; lia).
    replace (size front + 1) with (size (front ++ [p])) by (rewrite length_app; cbn; lia).
    destruct (IH (front ++ [p]) back' rest) as (b' & -> & Hb'); [cbn in Hf; lia | done | done |]. exists b'.
    rewrite (filter_cons_True (fun p => ~ mine p)) by done. rewrite (filter_cons_False mine) by done. rewrite <- (assoc_L (++) front [p]). split; [done |]. by rewrite Hb', Hb.
Qed.

(** Moving the pages of other masters to the front is a
    partition: the front is the pages of other masters in their order, the rest
    is the pages of this instance, and nothing is lost or added. *)
Theorem move_remote_first_correct check pages :
  Forall has_master pages -> (check = true -> Forall valid_page pages) ->
  exists idx pages', move_remote_first part_master check pages = Done (Some (idx, pages')) /\
    take (Z.to_nat idx) pages' = filter (fun p => ~ mine p) pages /\ drop (Z.to_nat idx) pages' ≡ₚ filter mine pages.
Proof.
  intros Hm Hv. destruct (partition_loop_spec check (S (length pages)) [] [] pages) as (back & Hrun & Hb); [lia | done | done |].
  eexists _, _. split; [exact Hrun |]. cbn [app] in *. by rewrite Nat2Z.id, take_app_length, drop_app_length.
Qed.
End masters.

(** ** Sending in groups *)

Lemma send_groups_spec mk gs pages : 0 < gs -> forall fuel page_sent page_left,
  (Z.to_nat page_left < fuel)%nat -> 0 <= page_sent -> 0 <= page_left -> page_sent + page_left <= size pages ->
  exists groups, send_groups fuel mk (fun _ => true) gs page_sent page_left pages = Done (map mk groups) /\
    concat groups = take (Z.to_nat page_left) (drop (Z.to_nat page_sent) pages) /\ Forall (fun l => 1 <= size l <= gs) groups.
Proof.
  intros Hgs. induction fuel as [| fuel IH]; intros s l Hf Hs Hl Hsz; [lia |]. cbn [send_groups].
  destruct (Z.ltb_spec 0 l) as [Hp | Hp]; [| exists []; replace l with 0 by lia; done]. cbv zeta. set (n := Z.min gs l).
  destruct (IH (s + n) (l - n)) as (groups & -> & Hc & Hall); try lia. rewrite outcome_ret_bind.
  exists (take (Z.to_nat n) (drop (Z.to_nat s) pages) :: groups). split; [done |]. split.
  - cbn. rewrite Hc. replace (Z.to_nat (s + n)) with (Z.to_nat s + Z.to_nat n)%nat by lia. rewrite <- drop_drop.
    replace (Z.to_nat l) with (Z.to_nat n + Z.to_nat (l - n))%nat by lia. by rewrite take_take_drop.
  - constructor; [| done]. rewrite length_take, length_drop. lia.
Qed.

(** ** The master forgets *)

Section cleaning.
Context `{KernelAttr} (pool_size : Z) (Q : list Z -> list Z -> Prop) (alive : Z -> bool) (ckpt_session : bool) (win : Z -> Z -> Z -> page_ctx -> page_ctx).
Hypothesis alone : forall i j k g, win i j k g = g.
Abbreviation page_ok := (page_ok pool_size Q).

(** The page is in the catalog, not newer there, and not an edp of the instance
    whose checkpoint wrote it. *)
Definition to_clean (g : page_ctx) (p : edp_page_info) : Prop :=
  match page_view g (ep_page p) with
  | None => False
  | Some (b, _) => MES_IS_INST_SEND (br_edp_map b) inst_id && ckpt_session = false /\ br_lsn b <= ep_lsn p
  end.

(** Instance [i] has an edp of it, or nobody knows who has. *)
Definition told (g : page_ctx) (i : Z) (p : edp_page_info) : Prop :=
  match page_view g (ep_page p) with None => False | Some (b, _) => br_edp_map b = 0 \/ MES_IS_INST_SEND (br_edp_map b) i = true end.

#[export] Instance to_clean_dec g p : Decision (to_clean g p).
Proof. unfold to_clean. destruct (page_view g (ep_page p)) as [[b rs] |]; apply _. Defined.
#[export] Instance told_dec g i p : Decision (told g i p).
Proof. unfold told. destruct (page_view g (ep_page p)) as [[b rs] |]; apply _. Defined.

Lemma get_edp_info_spec mine litems g k : page_ok mine litems g ->
  drc_get_edp_info k g = Done ((fun v => mk_edp_info (br_edp_map v.1) (br_lsn v.1) (br_readonly_copies v.1) (br_latest_edp v.1)) <$> page_view g k).
Proof.
  intros Hok. pose proof (page_view_cases _ _ _ _ _ k Hok) as Hv. unfold drc_get_edp_info. destruct (page_view g k) as [[b rs] |].
  - destruct Hv as (gh & i & b0 & ids & _ & -> & _ & Hget & _ & _ & _ & -> & _). rewrite outcome_ret_bind, Hget, outcome_ret_bind. done.
  - by rewrite Hv, outcome_ret_bind.
Qed.

Abbreviation edp_info_of v := (mk_edp_info (br_edp_map v.1) (br_lsn v.1) (br_readonly_copies v.1) (br_latest_edp v.1)).

Lemma skip_spec g p :
  match (fun v => edp_info_of v) <$> page_view g (ep_page p) with
  | None => true
  | Some info => (MES_IS_INST_SEND (ei_edp_map info) inst_id && ckpt_session) || (ep_lsn p <? ei_lsn info)
  end = negb (bool_decide (to_clean g p)).
Proof.
  case_bool_decide as Hc; unfold to_clean in Hc; destruct (page_view g (ep_page p)) as [[b rs] |]; cbn; try done.
  - destruct Hc as [-> Hl]. by apply Z.ltb_ge.
  - destruct (MES_IS_INST_SEND _ _ && ckpt_session) eqn:E; [done |]. cbn [orb]. apply Z.ltb_lt.
    destruct (Z.lt_ge_cases (ep_lsn p) (br_lsn b)); [done | by destruct Hc].
Qed.

Lemma told_spec g i p :
  match (fun v => edp_info_of v) <$> page_view g (ep_page p) with
  | None => false
  | Some info => (ei_edp_map info =? 0) || MES_IS_INST_SEND (ei_edp_map info) i
  end = bool_decide (told g i p).
Proof.
  case_bool_decide as Hc; unfold told in Hc; destruct (page_view g (ep_page p)) as [[b rs] |]; cbn; try done.
  - destruct Hc as [-> | ->]; [done | apply orb_true_r].
  - apply orb_false_iff. split; [apply Z.eqb_neq; tauto |]. destruct (MES_IS_INST_SEND _ _); tauto.
Qed.

Lemma scan_pages_spec mine litems g i : page_ok mine litems g -> forall fuel l1 dn todo l3 msg,
  (length todo < fuel)%nat -> Forall valid_page todo ->
  exists K l3', K ≡ₚ filter (to_clean g) todo /\ l3' ≡ₚ filter (fun p => ~ to_clean g p) todo ++ l3 /\
    scan_pages ckpt_session win fuel i (size (l1 ++ dn)) (size (l1 ++ dn ++ todo)) (l1 ++ dn ++ todo ++ l3) msg g =
      Done (CT_SUCCESS, size (l1 ++ dn ++ K), l1 ++ dn ++ K ++ l3', msg ++ filter (told g i) K, g).
Proof.
  intros Hok. induction fuel as [| fuel IH]; intros l1 dn todo l3 msg Hf Hv; [lia |]. cbn [scan_pages]. destruct todo as [| p todo].
  { exists [], l3. split; [done |]. split; [done |]. rewrite app_nil_r, Z.ltb_irrefl. cbn. by rewrite app_nil_r. }
  replace (size (l1 ++ dn) <? size (l1 ++ dn ++ p :: todo)) with true by (symmetry; apply Z.ltb_lt; rewrite !length_app; cbn; lia).
  assert (Hg : arr_get (l1 ++ dn ++ (p :: todo) ++ l3) (size (l1 ++ dn)) = Done p).
  { rewrite (assoc_L (++) l1). apply arr_get_eq, (lookupZ_app_mid (l1 ++ dn) (todo ++ l3)). }
  rewrite Hg, outcome_ret_bind. apply list.Forall_cons in Hv as [Hvp Hv]. rewrite Hvp. cbv zeta. rewrite alone, (get_edp_info_spec mine litems g _ Hok), outcome_ret_bind.
  rewrite skip_spec, told_spec. destruct (decide (to_clean g p)) as [Hc | Hc].
  - rewrite (bool_decide_eq_true_2 (to_clean g p)) by done. cbn [negb].
    replace (size (l1 ++ dn) + 1) with (size (l1 ++ (dn ++ [p]))) by (rewrite !length_app; cbn; lia).
    replace (l1 ++ dn ++ p :: todo) with (l1 ++ (dn ++ [p]) ++ todo) by (by rewrite <- !(assoc_L (++))).
    replace (l1 ++ dn ++ (p :: todo) ++ l3) with (l1 ++ (dn ++ [p]) ++ todo ++ l3) by (by rewrite <- !(assoc_L (++))).
    destruct (IH l1 (dn ++ [p]) todo l3 (if bool_decide (told g i p) then msg ++ [p] else msg)) as (K & l3' & HK & H3 & ->); [cbn in Hf; lia | done |].
    exists (p :: K), l3'. split; [by rewrite filter_cons_True, HK by done |]. split; [by rewrite filter_cons_False by tauto |].
    rewrite <- !(assoc_L (++) dn [p]). cbn [app]. f_equal. f_equal. f_equal. destruct (decide (told g i p)).
    + rewrite bool_decide_eq_true_2, filter_cons_True by done. by rewrite <- (assoc_L (++)).
    + by rewrite bool_decide_eq_false_2, filter_cons_False by done.
  - rewrite (bool_decide_eq_false_2 (to_clean g p)) by done. cbn [negb].
    destruct (arr_swap_last (l1 ++ dn) todo l3 p) as (todo' & Hp & Hsw). rewrite <- (assoc_L (++) l1 dn), <- (assoc_L (++) l1 dn) in Hsw.
    rewrite Hsw, outcome_ret_bind. assert (Hp' : todo' ≡ₚ todo) by (apply (Permutation_cons_inv (a := p)); rewrite Hp; solve_Permutation).
    replace (size (l1 ++ dn ++ p :: todo) - 1) with (size (l1 ++ dn ++ todo')) by (rewrite !length_app; cbn; rewrite Hp'; lia).
    replace ((l1 ++ dn) ++ todo' ++ p :: l3) with (l1 ++ dn ++ todo' ++ p :: l3) by (by rewrite <- !(assoc_L (++))).
    destruct (IH l1 dn todo' (p :: l3) msg) as (K & l3' & HK & H3 & ->); [rewrite Hp'; cbn in Hf; lia | by rewrite Hp' |].
    exists K, l3'. split; [by rewrite HK, Hp', filter_cons_False by done |]. split; [| done].
    rewrite H3, Hp', (filter_cons_True (fun p => ~ to_clean g p)) by done. solve_Permutation.
Qed.

(** Messages that differ in the order of their pages only. *)
Definition msg_pages (m : edp_msg) : list edp_page_info :=
  match m with
  | MES_CMD_CLEAN_EDP_REQ _ ps | MES_CMD_NOTIFY_MASTER_CLEAN_EDP_REQ ps | MES_CMD_CKPT_EDP_BROADCAST_TO_OWNER _ ps
  | MES_CMD_CKPT_EDP_BROADCAST_TO_MASTER ps | Clean_local ps | Write_local ps => ps
  end.
Definition blank (m : edp_msg) : edp_msg :=
  match m with
  | MES_CMD_CLEAN_EDP_REQ n _ => MES_CMD_CLEAN_EDP_REQ n []
  | MES_CMD_NOTIFY_MASTER_CLEAN_EDP_REQ _ => MES_CMD_NOTIFY_MASTER_CLEAN_EDP_REQ []
  | MES_CMD_CKPT_EDP_BROADCAST_TO_OWNER n _ => MES_CMD_CKPT_EDP_BROADCAST_TO_OWNER n []
  | MES_CMD_CKPT_EDP_BROADCAST_TO_MASTER _ => MES_CMD_CKPT_EDP_BROADCAST_TO_MASTER []
  | Clean_local _ => Clean_local []
  | Write_local _ => Write_local []
  end.
Definition same_msg (m m' : edp_msg) : Prop := blank m = blank m' /\ msg_pages m ≡ₚ msg_pages m'.

#[export] Instance same_msg_trans : Transitive same_msg.
Proof. intros a b c [E1 P1] [E2 P2]. split; [congruence | by rewrite P1]. Qed.

(** The instances the master tells, and what it should tell them. *)
Definition visited (i : Z) : Prop := alive i = true /\ (i =? inst_id) && ckpt_session = false.
#[export] Instance visited_dec i : Decision (visited i).
Proof. unfold visited. apply _. Defined.

Definition clean_spec (sent : Z -> bool) (g : page_ctx) (T : list edp_page_info) (nodes : list Z) : list edp_msg :=
  flat_map (fun i => node_msg sent i (filter (told g i) (filter (to_clean g) T))) nodes.

Lemma node_msg_perm sent i M M' : M ≡ₚ M' -> Forall2 same_msg (node_msg sent i M) (node_msg sent i M').
Proof.
  intros Hp. unfold node_msg. rewrite (Permutation_length Hp). destruct (_ =? 0); [done |]. destruct (_ =? _); [by repeat constructor |].
  destruct (sent i); by repeat constructor.
Qed.

Lemma clean_spec_perm sent g T T' nodes : filter (to_clean g) T ≡ₚ filter (to_clean g) T' -> Forall2 same_msg (clean_spec sent g T nodes) (clean_spec sent g T' nodes).
Proof.
  intros Hp. induction nodes as [| i nodes IH]; [constructor |]. cbn. apply Forall2_app; [| done]. apply node_msg_perm. by rewrite Hp.
Qed.

Lemma clean_nodes_spec mine litems g sent : page_ok mine litems g -> forall k i l1 T l3, Forall valid_page T ->
  let nodes := filter visited (seqZ i (Z.of_nat k)) in
  exists K l3' ms, clean_nodes alive ckpt_session win k sent i (size l1) (size (l1 ++ T)) (l1 ++ T ++ l3) g =
      Done (CT_SUCCESS, size (l1 ++ K), l1 ++ K ++ l3', ms, g) /\
    K ≡ₚ (if decide (nodes = []) then T else filter (to_clean g) T) /\ T ++ l3 ≡ₚ K ++ l3' /\ Forall2 same_msg ms (clean_spec sent g T nodes).
Proof.
  intros Hok. induction k as [| k IH]; intros i l1 T l3 Hv nodes.
  { exists T, l3, []. split; [done |]. unfold nodes. rewrite seqZ_nil by lia. by rewrite decide_True. }
  cbn [clean_nodes]. assert (Hseq : seqZ i (Z.of_nat (S k)) = i :: seqZ (i + 1) (Z.of_nat k)).
  { rewrite seqZ_cons by lia. unfold Z.succ. do 2 f_equal. lia. }
  destruct (decide (visited i)) as [[Ha Hc] | Hn].
  - rewrite Ha, Hc. cbn [negb orb]. unfold nodes. rewrite Hseq, filter_cons_True by done.
    destruct (scan_pages_spec mine litems g i Hok (S (Z.to_nat (size (l1 ++ T) - size l1))) l1 [] T l3 []) as (K & l3' & HK & H3 & Hrun); [rewrite length_app; lia | done |].
    cbn [app] in Hrun. rewrite app_nil_r in Hrun. rewrite Hrun, outcome_ret_bind.
    destruct (IH (i + 1) l1 K l3') as (K2 & l32 & ms & -> & HK2 & H32 & Hms). { rewrite HK. apply list.Forall_forall. intros x [_ Hx]%list_elem_of_filter. rewrite list.Forall_forall in Hv. by apply Hv. }
    rewrite outcome_ret_bind. exists K2, l32, (node_msg sent i (filter (told g i) K) ++ ms).
    assert (HKK : filter (to_clean g) K ≡ₚ K). { rewrite HK. rewrite list_filter_filter_l; [done | by intros]. }
    split; [done |]. split_and!.
    + rewrite decide_False by done. destruct (decide _); [by rewrite HK2 | by rewrite HK2, HKK].
    + rewrite <- H32, H3, HK. rewrite (assoc_L (++)). apply Permutation_app_tail. clear. induction T as [| p T IH]; [done |].
      destruct (decide (to_clean g p)); [rewrite filter_cons_True, filter_cons_False by tauto | rewrite filter_cons_False, filter_cons_True by tauto]; rewrite IH at 1; solve_Permutation.
    + cbn. apply Forall2_app; [apply node_msg_perm; by rewrite HK |]. etransitivity; [exact Hms |]. apply clean_spec_perm. by rewrite HKK, HK.
  - unfold nodes. rewrite Hseq, filter_cons_False by done.
    replace (negb (alive i) || (i =? inst_id) && ckpt_session) with true.
    2: { unfold visited in Hn. destruct (alive i), ((i =? inst_id) && ckpt_session); try done. by destruct Hn. }
    apply IH. done.
Qed.

Definition edps_forgotten (b : drc_buf_res) : drc_buf_res := set_br_latest_edp_lsn 0 (set_br_latest_edp CT_INVALID_ID8 (set_br_edp_map 0 b)).

Lemma forget_edps_spec mine litems : forall K j g, page_ok mine litems g ->
  (forall p, p ∈ K -> exists b rs, page_view g (ep_page p) = Some (b, rs) /\ br_lsn b <= ep_lsn p) ->
  exists g', forget_edps win j K g = Done g' /\ page_ok mine litems g' /\
    forall k, page_view g' k = if decide (k ∈ ep_page <$> K) then prod_map edps_forgotten id <$> page_view g k else page_view g k.
Proof.
  induction K as [| p K IH]; intros j g Hok HK; cbn [forget_edps].
  { exists g. split_and!; [done | done |]. intros k. by rewrite decide_False by (cbn; set_solver). }
  rewrite alone. destruct (HK p) as (b & rs & Hv & Hl); [by left |]. pose proof (clean_edp_info_spec _ _ (ep_page p) (ep_lsn p) _ _ _ Hok) as Hc. rewrite Hv in Hc.
  destruct Hc as (g1 & -> & Hok1 & Hsb & Hv1). rewrite (proj2 (Z.leb_le _ _) Hl) in Hv1. fold (edps_forgotten b) in Hv1. rewrite outcome_ret_bind.
  assert (Hall : forall k, page_view g1 k = if decide (k = ep_page p) then prod_map edps_forgotten id <$> page_view g k else page_view g k).
  { intros k. case_decide as Hk; [subst k; by rewrite Hv1, Hv |]. by apply Hsb. }
  destruct (IH (j + 1) g1 Hok1) as (g' & -> & Hok' & Hg').
  { intros y Hy. destruct (HK y) as (b' & rs' & Hv' & Hl'); [by right |]. rewrite Hall, Hv'. case_decide; cbn; eauto. }
  exists g'. split_and!; [done | done |]. intros k. rewrite Hg', Hall. cbn. destruct (decide (k = ep_page p)) as [-> | Hne].
  - rewrite (decide_True (P := ep_page p ∈ ep_page p :: _)) by (by left). case_decide; [| done]. destruct (page_view g (ep_page p)) as [[? ?] |]; done.
  - case_decide as H1; case_decide as H2; try done; exfalso; set_solver.
Qed.

Lemma to_clean_view g p : to_clean g p -> exists b rs, page_view g (ep_page p) = Some (b, rs) /\ br_lsn b <= ep_lsn p.
Proof. unfold to_clean. destruct (page_view g (ep_page p)) as [[b rs] |]; [| done]. intros [_ Hl]. eauto. Qed.

(** C24: run alone, with at least one other instance to tell, the master
    handles the pages from [start] to [end_] like the definition by filters: every
    instance that is alive is told, once, of exactly the pages to be cleaned that
    it has an edp of (or of which nobody is known to have one); the catalog
    forgets the edps of exactly these pages, and of no other. *)
Theorem master_clean_edp_correct sent edp_group_size start end_ len pages mine litems g :
  page_ok mine litems g -> 0 <= start -> start <= end_ -> end_ <= size pages -> end_ <= len -> end_ - start <= edp_group_size ->
  let T := take (Z.to_nat (end_ - start)) (drop (Z.to_nat start) pages) in let nodes := filter visited (seqZ 0 node_count) in
  Forall valid_page T -> nodes <> [] ->
  exists pages' msgs g', dcs_master_clean_edp alive ckpt_session win sent edp_group_size start end_ len pages g = Done (CT_SUCCESS, pages', msgs, g') /\
    pages' ≡ₚ pages /\ Forall2 same_msg msgs (clean_spec sent g T nodes) /\ page_ok mine litems g' /\
    forall k, page_view g' k =
      if decide (k ∈ ep_page <$> filter (to_clean g) T) then prod_map edps_forgotten id <$> page_view g k else page_view g k.
Proof.
  intros Hok Hs Hse Hep Hel Hgs T nodes Hv Hn. unfold dcs_master_clean_edp. destruct (Z.leb_spec end_ start) as [Hle | Hlt].
  { assert (T = []) as -> by (unfold T; replace (Z.to_nat (end_ - start)) with 0%nat by lia; apply take_0).
    exists pages, [], g. split; [done |]. split; [done |]. split; [| split; [done |]; intros k; by rewrite decide_False by (cbn; set_solver)].
    unfold clean_spec. clear. induction nodes as [| i nodes IH]; [constructor |]. done. }
  rewrite (proj2 (Z.ltb_ge _ _)) by lia. rewrite (proj2 (Z.leb_le _ _)) by lia. cbn [knl_panic]. rewrite outcome_ret_bind.
  set (l1 := take (Z.to_nat start) pages). set (l3 := drop (Z.to_nat (end_ - start)) (drop (Z.to_nat start) pages)).
  assert (Hp : pages = l1 ++ T ++ l3) by (unfold l1, T, l3; by rewrite !take_drop).
  assert (Hl1 : size l1 = start) by (unfold l1; rewrite length_take; lia).
  assert (HlT : size (l1 ++ T) = end_) by (rewrite length_app; unfold T; rewrite length_take, length_drop; lia).
  destruct (clean_nodes_spec mine litems g sent Hok (Z.to_nat node_count) 0 l1 T l3 Hv) as (K & l3' & ms & Hrun & HK & HT & Hms).
  pose proof node_count_ok as Hnc. rewrite Z2Nat.id in HK, Hms by lia. fold nodes in HK, Hms. rewrite decide_False in HK by done.
  rewrite Hl1, HlT, <- Hp in Hrun. rewrite Hrun, outcome_ret_bind.
  replace (Z.to_nat (size (l1 ++ K) - start)) with (length K) by (rewrite length_app; lia). replace (Z.to_nat start) with (length l1) by lia.
  rewrite drop_app_length, take_app_length.
  destruct (forget_edps_spec mine litems K start g Hok) as (g' & -> & Hok' & Hg').
  { intros p. rewrite HK. intros [Hc _]%list_elem_of_filter. by apply to_clean_view. }
  rewrite outcome_ret_bind. exists (l1 ++ K ++ l3'), ms, g'. split; [done |]. split; [rewrite Hp; by rewrite HT |]. split; [done |]. split; [done |].
  intros k. rewrite Hg'. assert (Hiff : k ∈ ep_page <$> K <-> k ∈ ep_page <$> filter (to_clean g) T) by (by rewrite HK). case_decide; case_decide; tauto.
Qed.
End cleaning.

(** ** An instance forgets *)

(** An earlier dirty page is dirty, in the checkpoint queue and not owned. *)
Definition edp_ctrl_ok (c : buf_ctrl) : Prop :=
  bc_is_edp c = true -> bc_is_dirty c && negb (bc_is_readonly c) = true /\ DCS_BUF_CTRL_NOT_OWNER c = true /\ bc_in_ckpt c = true.
Definition buffers_ok (bufs : buffers) : Prop := forall k c, bufs k = Some c -> bc_page_id c = k /\ edp_ctrl_ok c.

Definition cleaned_ctrl (c : buf_ctrl) : buf_ctrl :=
  set_bc_is_edp false (set_bc_is_remote_dirty false (set_bc_is_dirty false (set_bc_in_ckpt false c))).

Section clean_local.
Context (disk : page_id_t -> page_head).

(** The lsn the request stands for: that of the page on disk when it has none. *)
Definition clean_lsn (p : edp_page_info) : Z :=
  if ep_lsn p =? CT_INVALID_ID64 then (if decide (ep_page p = ph_id (disk (ep_page p))) then ph_lsn (disk (ep_page p)) else 0) else ep_lsn p.

(** No edp of the page is left, unless it is newer than what was written. *)
Definition handled (bufs : buffers) (p : edp_page_info) : Prop :=
  forall c, bufs (ep_page p) = Some c -> bc_is_edp c = true -> clean_lsn p < ph_lsn (bc_page c).

(** Controls are as before, or edps that were cleaned. *)
Definition only_cleaned (bufs bufs' : buffers) : Prop :=
  forall k, bufs' k = bufs k \/ exists c, bufs k = Some c /\ bc_is_edp c = true /\ bufs' k = Some (cleaned_ctrl c).

Lemma only_cleaned_trans b1 b2 b3 : only_cleaned b1 b2 -> only_cleaned b2 b3 -> only_cleaned b1 b3.
Proof.
  intros H1 H2 k. destruct (H2 k) as [-> | (c & Hc & He & ->)]; [apply H1 |].
  destruct (H1 k) as [E | (c1 & _ & _ & E)]; rewrite E in Hc; [right; eauto |]. injection Hc as <-. discriminate He.
Qed.

Lemma handled_mono b1 b2 p : only_cleaned b1 b2 -> handled b1 p -> handled b2 p.
Proof. intros H1 H2 c Hc He. destruct (H1 (ep_page p)) as [E | (c1 & _ & _ & E)]; rewrite E in Hc; [by apply H2 |]. injection Hc as <-. discriminate He. Qed.

Lemma only_cleaned_ok b1 b2 : only_cleaned b1 b2 -> buffers_ok b1 -> buffers_ok b2.
Proof.
  intros H1 Hok k c Hc. destruct (H1 k) as [E | (c1 & Hc1 & _ & E)]; rewrite E in Hc; [by apply Hok |]. injection Hc as <-.
  destruct (Hok k c1 Hc1) as [Hp _]. split; [done |]. intros He. discriminate He.
Qed.

Lemma buf_clean_edp_spec latch p bufs : buffers_ok bufs ->
  exists ok bufs', buf_clean_edp disk latch p bufs = Done (ok, bufs') /\ only_cleaned bufs bufs' /\
    (if (ok : bool) then handled bufs' p else bufs' = bufs /\ bufs (ep_page p) <> None).
Proof.
  intros Hok. unfold buf_clean_edp, buf_try_latch_ckpt_page. destruct (bufs (ep_page p)) as [c |] eqn:Hc.
  2: { exists true, bufs. split; [done |]. split; [by left |]. intros c. by rewrite Hc. }
  destruct (Hok _ _ Hc) as [Hid Hed]. destruct (if decide _ then false else latch).
  2: { exists false, bufs. split; [done |]. split; [by left |]. done. }
  destruct (bc_is_edp c) eqn:He; cbn [negb].
  2: { exists true, bufs. split; [done |]. split; [by left |]. intros c'. rewrite Hc. intros [= <-]. by rewrite He. }
  cbv zeta. rewrite Hid. fold (clean_lsn p). destruct (Z.leb_spec (ph_lsn (bc_page c)) (clean_lsn p)) as [Hl | Hl].
  - destruct (Hed He) as (Hd & Hno & Hin). apply andb_true_iff in Hd as [Hd1 Hd2]. unfold dcs_buf_clean_ctrl_edp.
    rewrite He, Hd1, Hd2, Hno, Hin. cbn [negb andb knl_panic]. rewrite !outcome_ret_bind. fold (cleaned_ctrl c).
    eexists true, _. split; [done |]. split.
    + intros k. destruct (decide (k = ep_page p)) as [-> | Hne]; [right; exists c; by rewrite fn_lookup_insert | left; by rewrite fn_lookup_insert_ne by done].
    + intros c'. rewrite fn_lookup_insert. intros [= <-] E. discriminate E.
  - rewrite outcome_ret_bind. eexists true, _. split; [done |]. split.
    + intros k. left. destruct (decide (k = ep_page p)) as [-> | Hne]; [by rewrite fn_lookup_insert | by rewrite fn_lookup_insert_ne by done].
    + intros c'. rewrite fn_lookup_insert. by intros [= <-] _.
Qed.

Lemma clean_local_loop_spec latch fuel : forall dn todo kept bufs, (length todo < fuel)%nat -> buffers_ok bufs ->
  exists hd lft bufs', clean_local_loop fuel disk latch (size dn) (size (dn ++ todo)) (dn ++ todo ++ kept) bufs =
      Done (size (dn ++ hd), dn ++ hd ++ lft ++ kept, bufs') /\ todo ≡ₚ hd ++ lft /\ only_cleaned bufs bufs' /\
    (forall p, p ∈ hd -> handled bufs' p) /\ (forall p, p ∈ lft -> bufs (ep_page p) <> None).
Proof.
  induction fuel as [| fuel IH]; intros dn todo kept bufs Hf Hok; [lia |]. cbn [clean_local_loop]. destruct todo as [| p todo].
  { exists [], [], bufs. rewrite !app_nil_r, Z.ltb_irrefl. split; [done |]. split_and!; [done | by left | set_solver | set_solver]. }
  replace (size dn <? size (dn ++ p :: todo)) with true by (symmetry; apply Z.ltb_lt; rewrite !length_app; cbn; lia).
  rewrite (arr_get_eq (dn ++ (p :: todo) ++ kept) _ _ (lookupZ_app_mid dn (todo ++ kept) p)), outcome_ret_bind.
  destruct (buf_clean_edp_spec (latch (size dn) (size (dn ++ p :: todo))) p bufs Hok) as (ok & b1 & -> & Hoc & Hcase). rewrite outcome_ret_bind.
  destruct ok; cbn [negb].
  - replace (size dn + 1) with (size (dn ++ [p])) by (rewrite !length_app; cbn; lia).
    replace (dn ++ p :: todo) with ((dn ++ [p]) ++ todo) by (by rewrite <- (assoc_L (++))).
    replace (dn ++ (p :: todo) ++ kept) with ((dn ++ [p]) ++ todo ++ kept) by (by rewrite <- (assoc_L (++))).
    destruct (IH (dn ++ [p]) todo kept b1) as (hd & lft & b2 & -> & Hp & Hoc2 & Hh & Hl); [cbn in Hf; lia | by eapply only_cleaned_ok |].
    exists (p :: hd), lft, b2. rewrite <- !(assoc_L (++) dn [p]). split; [done |]. split_and!.
    + by rewrite Hp.
    + by eapply only_cleaned_trans.
    + intros y [-> | Hy]%elem_of_cons; [by eapply handled_mono | by apply Hh].
    + intros y Hy Hn. apply (Hl y Hy). destruct (Hoc (ep_page y)) as [-> | (c & Hc & _)]; congruence.
  - destruct Hcase as [-> Hne]. destruct (arr_swap_last dn todo kept p) as (todo' & Hp & Hsw). rewrite Hsw, outcome_ret_bind.
    assert (Hp' : todo' ≡ₚ todo) by (apply (Permutation_cons_inv (a := p)); rewrite Hp; solve_Permutation).
    replace (size (dn ++ p :: todo) - 1) with (size (dn ++ todo')) by (rewrite !length_app; cbn; rewrite Hp'; lia).
    destruct (IH dn todo' (p :: kept) bufs) as (hd & lft & b2 & -> & Hpp & Hoc2 & Hh & Hl); [rewrite Hp'; cbn in Hf; lia | done |].
    exists hd, (lft ++ [p]), b2. rewrite <- (assoc_L (++) lft [p]). split; [done |]. split_and!; [| done | done |].
    + rewrite <- Hp', Hpp. solve_Permutation.
    + intros y [Hy | ->%list_elem_of_singleton]%elem_of_app; [by apply Hl | done].
Qed.

(** The checkpoint goes through the pages it was told to forget:
    every page leaves the group when no edp of it is left, or only one newer than
    what was written, and the pages whose control could not be latched stay for
    the next time.  Only edps change, and no panic is reached. *)
Theorem clean_local_edp_correct latch group bufs :
  buffers_ok bufs -> size group <= CT_CLEAN_EDP_GROUP_SIZE ->
  exists group' bufs' gone, dcs_ckpt_clean_local_edp disk latch group bufs = Done (group', bufs') /\ group ≡ₚ gone ++ group' /\
    buffers_ok bufs' /\ only_cleaned bufs bufs' /\ (forall p, p ∈ gone -> handled bufs' p) /\ (forall p, p ∈ group' -> bufs (ep_page p) <> None).
Proof.
  intros Hok Hsz. unfold dcs_ckpt_clean_local_edp. destruct (Z.eqb_spec (size group) 0) as [E | _].
  { destruct group; [| cbn in E; lia]. exists [], bufs, []. split; [done |]. split_and!; [done | done | by left | set_solver | set_solver]. }
  rewrite (proj2 (Z.leb_le _ _) Hsz). cbn [knl_panic]. rewrite outcome_ret_bind.
  destruct (clean_local_loop_spec latch (S (length group)) [] group [] bufs) as (hd & lft & b2 & Hrun & Hp & Hoc & Hh & Hl); [lia | done |].
  cbn [app] in Hrun. rewrite !app_nil_r in Hrun. cbn [length] in Hrun. change (Z.of_nat 0) with 0 in Hrun. rewrite Hrun, outcome_ret_bind.
  rewrite Nat2Z.id, drop_app_length. exists lft, b2, hd. split; [done |]. split_and!; try done. by eapply only_cleaned_ok.
Qed.
End clean_local.

(** ** The owner prepares the pages others ask for *)

Section prepare.
Context (disk : page_id_t -> page_head) (disk_ok : forall k, ph_id (disk k) = k).

(** Controls hold the page they are for. *)
Definition page_ctrl_ok (k : page_id_t) (c : buf_ctrl) : Prop := bc_page_id c = k /\ ph_id (bc_page c) = k /\ edp_ctrl_ok c.
Definition page_buffers_ok (bufs : buffers) : Prop := forall k c, bufs k = Some c -> page_ctrl_ok k c.

Lemma clean_ctrl_total k c : page_ctrl_ok k c -> bc_is_edp c = true -> dcs_buf_clean_ctrl_edp c = Done (cleaned_ctrl c).
Proof.
  intros (Hk & Hp & Hed) He. destruct (Hed He) as (Hd & Hno & Hin). apply andb_true_iff in Hd as [Hd1 Hd2].
  unfold dcs_buf_clean_ctrl_edp. rewrite He, Hd1, Hd2, Hno, Hin. reflexivity.
Qed.

Lemma clean_local_total k c a lsn : page_ctrl_ok k c -> bc_is_edp c = true ->
  exists c', dcs_clean_local_ctrl (disk k) a lsn c = Done c' /\ page_ctrl_ok k c'.
Proof.
  intros Hok He. pose proof Hok as (Hk & Hp & Hed). unfold dcs_clean_local_ctrl. rewrite He. cbn [knl_panic]. rewrite outcome_ret_bind.
  destruct (bc_is_fixed c); [by exists c |]. cbv zeta.
  assert (Hgone : forall x, bc_is_edp x = false -> edp_ctrl_ok x) by (intros x Hx Hy; congruence).
  assert (Hcl : forall pg, ph_id pg = k -> dcs_buf_clean_ctrl_edp (set_bc_page pg (set_bc_is_fixed true c)) = Done (cleaned_ctrl (set_bc_page pg (set_bc_is_fixed true c)))).
  { intros pg Hpg. by apply (clean_ctrl_total k). }
  destruct (a =? DRC_RES_SHARE_ACTION). { rewrite !outcome_ret_bind. eexists. split; [done |]. split_and!; [done | done | by apply Hgone]. }
  destruct (a =? DRC_RES_CLEAN_EDP_ACTION).
  { cbn [bc_page set_bc_is_fixed]. destruct (_ <=? lsn); [| rewrite outcome_ret_bind; eexists; split; [done |]; by split_and!].
    rewrite (clean_ctrl_total k) by done. rewrite !outcome_ret_bind. eexists. split; [done |]. split_and!; [done | done | by apply Hgone]. }
  destruct (a =? DRC_RES_EXCLUSIVE_ACTION); [| rewrite outcome_ret_bind; eexists; split; [done |]; by split_and!].
  destruct (_ <? _); [rewrite Hcl by apply disk_ok |]; rewrite !outcome_ret_bind; eexists; (split; [done |]); (split_and!; [done | cbn; by rewrite ?disk_ok | by apply Hgone]).
Qed.

Lemma page_buffers_insert k c bufs : page_ctrl_ok k c -> page_buffers_ok bufs -> page_buffers_ok (<[k := Some c]> bufs).
Proof.
  intros Hc Hb k' c'. destruct (decide (k' = k)) as [-> | Hne]; [rewrite fn_lookup_insert; by intros [= <-] | rewrite fn_lookup_insert_ne by done; apply Hb].
Qed.

(** The control of a page that is written. *)
Definition marked_ctrl (c : buf_ctrl) : buf_ctrl := set_bc_is_remote_dirty false (set_bc_is_dirty false (set_bc_is_marked true (set_bc_in_ckpt false c))).

Definition told_clean (k : page_id_t) (lsn : Z) (ctx : ckpt_ctx) : Prop := exists e, e ∈ ck_clean ctx /\ ep_page e = k /\ ep_lsn e = lsn.



(** Nothing is taken back, and what is new is for a request of [hd]. *)
Record ckpt_grows (hd : list edp_page_info) (ctx ctx' : ckpt_ctx) : Prop := mk_grows {
  gr_clean : exists l, ck_clean ctx' = ck_clean ctx ++ l /\ map ep_page l ⊆ map ep_page hd;
  gr_items : exists l, ck_items ctx' = ck_items ctx ++ l /\ map fst l ⊆ map ep_page hd;
  gr_lfn : ck_consistent_lfn ctx <= ck_consistent_lfn ctx';
}.



Lemma ckpt_grows_trans h1 h2 c1 c2 c3 : ckpt_grows h1 c1 c2 -> ckpt_grows h2 c2 c3 -> ckpt_grows (h1 ++ h2) c1 c3.
Proof.
  intros [(l1 & H1 & S1) (i1 & I1 & T1) L1] [(l2 & H2 & S2) (i2 & I2 & T2) L2]. constructor; [exists (l1 ++ l2) | exists (i1 ++ i2) | lia];
    (split; [rewrite ?H2, ?H1, ?I2, ?I1; by rewrite (assoc_L (++)) |]); rewrite !map_app; apply list_subseteq_app_iff_l; split; set_solver.
Qed.



Lemma add_to_group_room dst n page lsn : size dst < n -> snd (dtc_add_to_edp_group dst n page lsn) = dst ++ [mk_edp_page page lsn DRC_RES_INVALID_ACTION].
Proof. intros Hn. unfold dtc_add_to_edp_group. by rewrite (proj2 (Z.leb_gt _ _)). Qed.

Lemma prepare_clean_total recovered p c : page_ctrl_ok (ep_page p) c -> exists c1, prepare_clean disk recovered p c = Done c1 /\ page_ctrl_ok (ep_page p) c1.
Proof.
  intros Hcok. unfold prepare_clean. destruct (_ && bc_is_edp c && _) eqn:Hb; [| by exists c]. apply andb_true_iff in Hb as [[_ He]%andb_true_iff _].
  pose proof Hcok as (-> & _). by apply clean_local_total.
Qed.

Lemma marked_ok recovered p c : page_ctrl_ok (ep_page p) c -> prepare_skips recovered p c = false -> page_ctrl_ok (ep_page p) (marked_ctrl c).
Proof.
  intros (H1 & H2 & H3) Hs. split_and!; [done | done |]. unfold prepare_skips in Hs.
  apply orb_false_iff in Hs as [[[[_ He]%orb_false_iff _]%orb_false_iff _]%orb_false_iff _]. intros Hx. cbn in Hx. congruence.
Qed.

(** One request that can be latched, while there is room in both groups. *)
Lemma written_step gs p c1 ctx : page_ctrl_ok (ep_page p) c1 -> size (ck_clean ctx) < gs ->
  exists ctx1, prepare_page gs c1 ctx = Done (marked_ctrl c1, ctx1) /\ ck_items ctx1 = ck_items ctx /\
    let ctx2 := prepare_item (marked_ctrl c1) ctx1 in
    ckpt_grows [p] ctx ctx2 /\ size (ck_clean ctx2) = size (ck_clean ctx) + 1 /\ size (ck_items ctx2) = size (ck_items ctx) + 1 /\
    (ep_page p, bc_page c1) ∈ ck_items ctx2 /\ told_clean (ep_page p) (ph_lsn (bc_page c1)) ctx2 /\ bc_lastest_lfn c1 <= ck_consistent_lfn ctx2.
Proof.
  intros (H1 & H2 & _) Hroom. unfold prepare_page. rewrite bool_decide_eq_true_2 by congruence. cbn [knl_panic]. rewrite outcome_ret_bind.
  rewrite add_to_group_room by done. eexists. split; [reflexivity |]. split; [done |]. cbn. rewrite H1. split_and!.
  - constructor; cbn; [eexists; split; [done |]; cbn; set_solver | eexists; split; [done |]; cbn; set_solver | lia].
  - rewrite length_app. cbn. lia.
  - rewrite length_app. cbn. lia.
  - set_solver.
  - eexists. split; [cbn; apply elem_of_app; right; by apply list_elem_of_singleton |]. done.
  - lia.
Qed.





(** A request whose page will be written. *)
Definition writable (recovered : bool) (bufs : buffers) (p : edp_page_info) : Prop :=
  exists c c1, bufs (ep_page p) = Some c /\ bc_load_status c <> BUF_NEED_LOAD /\ prepare_clean disk recovered p c = Done c1 /\ prepare_skips recovered p c1 = false.

Lemma prepare_loop_full recovered gs rest ps : forall fuel dn bufs ctx, (length ps < fuel)%nat -> ps <> [] ->
  page_buffers_ok bufs -> NoDup (map ep_page ps) -> Forall (writable recovered bufs) ps -> size (ck_items ctx) + size ps = gs -> size (ck_clean ctx) + size ps <= gs ->
  exists bufs' ctx', prepare_loop fuel disk (fun _ _ => true) recovered (fun _ => CT_SUCCESS) gs (size dn) (size (dn ++ ps ++ rest)) (dn ++ ps ++ rest) bufs ctx =
      Done (CT_SUCCESS, size (dn ++ ps ++ rest), dn ++ ps ++ rest, bufs', ctx') /\
    (forall k, k ∉ map ep_page ps -> bufs' k = bufs k) /\ ckpt_grows ps ctx ctx'.
Proof.
  induction ps as [| p ps IH]; [done |]. intros fuel dn bufs ctx Hf _ Hok [Hp Hnd]%list.NoDup_cons Hw Hgs Hcs. pose proof (Forall_inv Hw) as (c & c1 & Hc & Hl & Hcl & Hs).
  apply Forall_inv_tail in Hw. destruct fuel as [| fuel]; [lia |]. cbn [prepare_loop length] in *.
  replace (size dn <? size (dn ++ (p :: ps) ++ rest)) with true by (symmetry; apply Z.ltb_lt; rewrite !length_app; cbn; lia).
  rewrite (arr_get_eq (dn ++ (p :: ps) ++ rest) _ _ (lookupZ_app_mid dn (ps ++ rest) p)), outcome_ret_bind.
  unfold buf_try_latch_ckpt_page. rewrite Hc, decide_False, Hcl, outcome_ret_bind, Hs by done.
  destruct (prepare_clean_total recovered p c (Hok _ _ Hc)) as (c1' & Hcl' & Hc1). rewrite Hcl in Hcl'. injection Hcl' as <-.
  destruct (written_step gs p c1 ctx Hc1) as (ctx1 & -> & Hit & Hgr & Hsc & Hsi & _); [lia |]. rewrite outcome_ret_bind. cbv zeta.
  set (b1 := <[ep_page p := Some (marked_ctrl c1)]> bufs).
  assert (Hkeep : forall k, k <> ep_page p -> (b1 : buffers) k = bufs k) by (intros k Hk; unfold b1; by rewrite fn_lookup_insert_ne).
  destruct (Z.leb_spec gs (size (ck_items (prepare_item (marked_ctrl c1) ctx1)))) as [Hfull | Hroom].
  - assert (ps = []) as -> by (destruct ps; [done | cbn in *; lia]). eexists _, _. split; [reflexivity |]. split; [| done].
    intros k Hk. apply Hkeep. cbn in Hk. set_solver.
  - destruct (IH fuel (dn ++ [p]) b1 (prepare_item (marked_ctrl c1) ctx1)) as (b2 & ctx2 & Hrun & Hk & Hg2).
    + lia.
    + intros ->. cbn in *. lia.
    + apply page_buffers_insert; [by eapply marked_ok | done].
    + done.
    + apply Forall_forall. intros q Hq. rewrite Forall_forall in Hw. destruct (Hw q Hq) as (d & d1 & Hd & H). exists d, d1. split; [| done]. rewrite Hkeep; [done |].
      intros E. apply Hp. rewrite <- E. by apply list_elem_of_In, in_map.
    + lia.
    + lia.
    + exists b2, ctx2. replace (size dn + 1) with (size (dn ++ [p])) by (rewrite !length_app; cbn; lia).
      replace (dn ++ (p :: ps) ++ rest) with ((dn ++ [p]) ++ ps ++ rest) by (by rewrite <- (assoc_L (++))). split; [exact Hrun |]. split; [| by apply (ckpt_grows_trans [p] ps _ _ _ Hgr)].
      intros k Hk'. cbn in Hk'. rewrite Hk by set_solver. apply Hkeep. set_solver.
Qed.

(** C33: requests are lost when the group of pages to write becomes full: with
    pages to write that fill it, and further requests behind them, all requests
    leave the group of requests with success, yet those behind are neither
    written nor reported to their masters, and their controls stay as they are. *)
Theorem full_group_drops_requests recovered group_size ps rest bufs ctx :
  page_buffers_ok bufs -> NoDup (map ep_page (ps ++ rest)) -> size (ps ++ rest) <= CT_CLEAN_EDP_GROUP_SIZE -> ps <> [] ->
  Forall (writable recovered bufs) ps -> size (ck_items ctx) + size ps = group_size ->
  exists bufs' ctx', dcs_ckpt_remote_edp_prepare disk (fun _ _ => true) recovered (fun _ => CT_SUCCESS) group_size (ps ++ rest) bufs ctx =
      Done (CT_SUCCESS, [], bufs', ctx') /\
    forall p, p ∈ rest -> bufs' (ep_page p) = bufs (ep_page p) /\ (forall lsn, ~ told_clean (ep_page p) lsn ctx') /\
      forall pg, (ep_page p, pg) ∈ ck_items ctx' -> (ep_page p, pg) ∈ ck_items ctx.
Proof.
  intros Hok Hnd Hsz Hne Hw Hgs. unfold dcs_ckpt_remote_edp_prepare. cbv zeta.
  destruct (Z.eqb_spec (size (ps ++ rest)) 0) as [E | _]; [destruct ps; [done | rewrite length_app in E; cbn in E; lia] |].
  rewrite (proj2 (Z.leb_le _ _) Hsz). cbn [knl_panic]. rewrite outcome_ret_bind. rewrite map_app in Hnd. apply list.NoDup_app in Hnd as (Hnd & Hdis & _).
  destruct (prepare_loop_full recovered group_size rest ps (S (length (ps ++ rest))) [] bufs (mk_ckpt [] (ck_items ctx) (ck_consistent_lfn ctx)))
    as (b2 & ctx2 & Hrun & Hk & [(l & Hl & Hlp) (it & Hit & Hip) _]); [rewrite length_app; lia | done | done | done | done | done | cbn; lia |].
  cbn [app length] in Hrun. change (Z.of_nat 0) with 0 in Hrun. rewrite Hrun, outcome_ret_bind, Nat2Z.id, drop_all. exists b2, ctx2. split; [done |].
  intros p Hp. assert (Hout : ep_page p ∉ map ep_page ps) by (intros Hin; by apply (Hdis _ Hin), list_elem_of_fmap_2). cbn in Hl, Hit. split; [by apply Hk |]. split.
  - intros lsn (e & He & Hpe & _). apply Hout, Hlp. rewrite <- Hpe. rewrite Hl in He. by apply list_elem_of_fmap_2.
  - intros pg Hin. rewrite Hit in Hin. apply elem_of_app in Hin as [Hin | Hin]; [done |]. exfalso. apply Hout, Hip. exact (list_elem_of_fmap_2 fst _ _ Hin).
Qed.
End prepare.

(** ** Waiting for room in a group *)

Section waiting.
Context (qsort : list edp_page_info -> list edp_page_info) (qsort_ok : sorts qsort) (closed enabled : Z -> bool)
  (win : Z -> list edp_page_info -> list edp_page_info).
Hypothesis win_ok : forall t g, size g <= CT_CLEAN_EDP_GROUP_SIZE -> size (win t g) <= CT_CLEAN_EDP_GROUP_SIZE.

Lemma segment_ok {P : edp_page_info -> Prop} pages i : Forall P pages -> Forall P (take (Z.to_nat (size pages - i)) (drop (Z.to_nat i) pages)).
Proof. intros Hp. apply list.Forall_take, list.Forall_drop, Hp. Qed.

Lemma segment_sorted pages i : edp_sorted pages -> edp_sorted (take (Z.to_nat (size pages - i)) (drop (Z.to_nat i) pages)).
Proof.
  intros Hs. rewrite <- (take_drop (Z.to_nat i) pages) in Hs. apply StronglySorted_app in Hs as (_ & _ & Hs).
  rewrite <- (take_drop (Z.to_nat (size pages - i)) (drop (Z.to_nat i) pages)) in Hs. by apply StronglySorted_app in Hs as (_ & Hs & _).
Qed.

Lemma add_to_group_spec once limit pages : edp_sorted pages -> Forall valid_page pages -> forall fuel times i group,
  (Z.to_nat (limit + 2 - times) < fuel)%nat -> 0 <= i <= size pages -> size group <= CT_CLEAN_EDP_GROUP_SIZE ->
  exists group', add_to_group qsort fuel closed enabled win once limit times pages i group = Done group' /\ size group' <= CT_CLEAN_EDP_GROUP_SIZE.
Proof.
  intros Hs Hv. induction fuel as [| fuel IH]; intros t i group Hf Hi Hg; [lia |]. cbn [add_to_group].
  destruct ((i <? size pages) && negb (closed t)); [| by exists group].
  destruct (merge_to_array_correct qsort pages i (size pages - i) group CT_CLEAN_EDP_GROUP_SIZE) as (i' & g' & ins & -> & Hi' & _ & Hg' & _);
    [done | lia | lia | lia | done | done | by apply segment_sorted | by apply segment_ok |].
  rewrite outcome_ret_bind. destruct (_ || once); [by exists g' |]. destruct (Z.ltb_spec limit t); [by exists g' |]. cbn [orb].
  destruct (negb (enabled t)); [by exists g' |]. apply IH; [lia | lia | by apply win_ok].
Qed.

(** Adding pages to the groups of the checkpoint ends after a bounded
    number of retries, whatever the checkpoint does with the groups meanwhile, and
    never overruns a group. *)
Theorem edp_pages_local_terminates ckpt_session pages group :
  Forall valid_page pages -> size group <= CT_CLEAN_EDP_GROUP_SIZE ->
  (exists g1, dcs_clean_edp_pages_local qsort closed enabled win pages group = Done g1 /\ size g1 <= CT_CLEAN_EDP_GROUP_SIZE) /\
  (exists g2, dcs_process_ckpt_edp_local qsort ckpt_session closed enabled win pages group = Done g2 /\ size g2 <= CT_CLEAN_EDP_GROUP_SIZE).
Proof.
  intros Hv Hg. unfold dcs_clean_edp_pages_local, dcs_process_ckpt_edp_local. destruct (size pages =? 0); [by split; exists group |].
  destruct (sort_spec qsort pages qsort_ok) as [Hp Hs]. cbv zeta.
  assert (Hv' : Forall valid_page (ckpt_sort_page_id_array qsort pages)) by (by rewrite Hp).
  split; apply add_to_group_spec; try done; unfold CKPT_TRY_ADD_TO_GROUP_TIMES; lia.
Qed.
End waiting.

(** ** Small examples *)

Module EdpDemo.
Import PageThms.Demo.

Definition pid (n : Z) : page_id_t := mk_page_id 1 n.
Definition on_disk (k : page_id_t) : page_head := mk_page k 3 77.
Definition entry (n lsn : Z) : edp_page_info := mk_edp_page (pid n) lsn DRC_RES_INVALID_ACTION.

(** A page owned and changed here, and an edp. *)
Definition owned (n : Z) : buf_ctrl :=
  mk_ctrl (pid n) false false false true true false BUF_IS_LOADED true DRC_LOCK_EXCLUSIVE false false BUF_TRANS_NONE 0 1 40 false (mk_page (pid n) 9 77) 0.
Definition edp (n : Z) : buf_ctrl :=
  mk_ctrl (pid n) false false false true false false BUF_LOAD_FAILED true DRC_LOCK_NULL true false BUF_TRANS_NONE 0 1 40 false (mk_page (pid n) 7 77) 0.

Definition owner_bufs : buffers := fun k => if decide (k = pid 5) then Some (owned 5) else if decide (k = pid 6) then Some (owned 6) else None.
Definition edp_bufs : buffers := fun k => if decide (k = pid 5) then Some (edp 5) else if decide (k = pid 6) then Some (edp 6) else None.

(** A request to forget an edp up to a newer lsn is lost when the group
    still has an older request for the same page: only the page is compared. *)
Theorem newer_clean_request_lost qsort : 
  exists g, ckpt_merge_to_array qsort [entry 5 9] 0 1 [entry 5 6] CT_CLEAN_EDP_GROUP_SIZE = Done (1, g) /\ g = [entry 5 6].
Proof. eexists. split; [vm_compute; reflexivity | reflexivity]. Qed.

Lemma owner_bufs_ok : page_buffers_ok owner_bufs.
Proof. intros k c. unfold owner_bufs. repeat case_decide; intros [= <-]; subst; by split_and!. Qed.

Lemma edp_bufs_ok : buffers_ok edp_bufs.
Proof. intros k c. unfold edp_bufs. repeat case_decide; intros [= <-]; subst; by split_and!. Qed.

(** A sort to instantiate the C library's with. *)
#[export] Instance edp_le_dec a b : Decision (edp_le a b).
Proof. unfold edp_le, page_le. apply _. Defined.

Lemma merge_sorts : sorts (merge_sort edp_le).
Proof.
  intros l. split; [apply merge_sort_Permutation |]. apply StronglySorted_merge_sort; [intros a b c; apply edp_le_trans |].
  intros a b. unfold edp_le, page_le. lia.
Qed.

Lemma merge_to_array_correct_witness :
  exists i dst', ckpt_merge_to_array (merge_sort edp_le) [entry 4 1; entry 5 1; entry 9 1] 0 3 [entry 8 1; entry 5 2] 8 = Done (i, dst') /\ edp_sorted dst' /\ i = 3.
Proof.
  destruct (merge_to_array_correct (merge_sort edp_le) [entry 4 1; entry 5 1; entry 9 1] 0 3 [entry 8 1; entry 5 2] 8)
    as (i & dst' & ins & Hrun & _ & Hs & _); [apply merge_sorts | done | done | done | done | done | | | ].
  - cbn. repeat constructor; unfold edp_le, page_le; cbn; lia.
  - cbn. by repeat constructor.
  - exists i, dst'. split; [exact Hrun |]. split; [exact Hs |]. vm_compute in Hrun. by injection Hrun as <- <-.
Defined.

Lemma clean_local_edp_correct_witness :
  exists group' bufs', dcs_ckpt_clean_local_edp on_disk (fun i n => i =? 0) [entry 5 8; entry 6 8] edp_bufs = Done (group', bufs') /\
    group' = [entry 6 8] /\ buffers_ok bufs'.
Proof.
  destruct (clean_local_edp_correct on_disk (fun i n => i =? 0) [entry 5 8; entry 6 8] edp_bufs) as (group' & bufs' & gone & Hrun & _ & Hok & _); [apply edp_bufs_ok | done |].
  exists group', bufs'. split; [exact Hrun |]. split; [| exact Hok]. vm_compute in Hrun. by injection Hrun as <- _.
Defined.

Lemma entries_nodup : NoDup (map ep_page [entry 5 7; entry 6 7]).
Proof. cbn. apply list.NoDup_cons. split; [set_solver |]. apply NoDup_singleton. Qed.

Lemma owned_5_writable : writable on_disk true owner_bufs (entry 5 7).
Proof. exists (owned 5), (owned 5). by vm_compute. Qed.


(** Two requests and room for one page: the second page stays dirty. *)
Lemma full_group_drops_requests_witness :
  exists bufs' ctx', dcs_ckpt_remote_edp_prepare on_disk (fun _ _ => true) true (fun _ => CT_SUCCESS) 1 [entry 5 7; entry 6 7] owner_bufs (mk_ckpt [] [] 0) =
      Done (CT_SUCCESS, [], bufs', ctx') /\ bufs' (pid 6) = Some (owned 6).
Proof.
  destruct (full_group_drops_requests on_disk (fun k => eq_refl) true 1 [entry 5 7] [entry 6 7] owner_bufs (mk_ckpt [] [] 0)) as (bufs' & ctx' & Hrun & Hrest);
    [apply owner_bufs_ok | apply entries_nodup | done | done | apply Forall_singleton, owned_5_writable | done |].
  exists bufs', ctx'. split; [exact Hrun |]. apply (proj1 (Hrest (entry 6 7) (proj2 (list_elem_of_singleton _ _) eq_refl))).
Defined.

Lemma edp_pages_local_terminates_witness :
  exists g1, dcs_clean_edp_pages_local (merge_sort edp_le) (fun _ => false) (fun _ => true) (fun _ g => g) [entry 6 8; entry 5 8] [entry 7 1] = Done g1 /\ size g1 <= CT_CLEAN_EDP_GROUP_SIZE.
Proof.
  apply (edp_pages_local_terminates (merge_sort edp_le) merge_sorts (fun _ => false) (fun _ => true) (fun _ g => g) (fun _ _ Hg => Hg) false); [by repeat constructor | done].
Defined.

Lemma move_remote_first_correct_witness :
  exists idx pages', move_remote_first (fun part => if part =? drc_page_partid (pid 5) then 0 else 1) true [entry 5 7; entry 2000 7] = Done (Some (idx, pages')) /\
    take (Z.to_nat idx) pages' = [entry 2000 7].
Proof.
  destruct (move_remote_first_correct (fun part => if part =? drc_page_partid (pid 5) then 0 else 1) true [entry 5 7; entry 2000 7]) as (idx & pages' & Hrun & Ht & _).
  - constructor; [vm_compute; discriminate |]. constructor; [vm_compute; discriminate | constructor].
  - by repeat constructor.
  - exists idx, pages'. split; [exact Hrun |]. rewrite Ht. vm_compute. reflexivity.
Defined.

(** The checkpoint of node 0, which is the master, has written the page. *)
Lemma master_clean_edp_correct_witness :
  exists pages' msgs g', dcs_master_clean_edp (fun _ => true) true (fun _ _ _ g => g) (fun _ => true) 4 0 1 9 [mk_edp_page pg 5 0] c1 = Done (CT_SUCCESS, pages', msgs, g') /\
    Forall2 same_msg msgs [MES_CMD_CLEAN_EDP_REQ 1 [mk_edp_page pg 5 0]] /\ page_ok 2 alone [] [] g'.
Proof.
  assert (Hspec : clean_spec true (fun _ => true) c1 [mk_edp_page pg 5 0] [1] = [MES_CMD_CLEAN_EDP_REQ 1 [mk_edp_page pg 5 0]]) by (vm_compute; reflexivity).
  pose proof c1_ok as Hok. revert Hok Hspec. generalize c1. intros g Hok Hspec.
  destruct (master_clean_edp_correct 2 alone (fun _ => true) true (fun _ _ _ g => g) (fun _ _ _ _ => eq_refl) (fun _ => true) 4 0 1 9 [mk_edp_page pg 5 0] [] [] g)
    as (pages' & msgs & g' & Hrun & _ & Hm & Hok' & _); [exact Hok | done | done | done | done | done | by repeat constructor | vm_compute; discriminate |].
  exists pages', msgs, g'. split; [exact Hrun |]. split; [| exact Hok']. rewrite <- Hspec. exact Hm.
Defined.
End EdpDemo.
