(* ===== verification/DrcLock.v ===== *)
(** * Distributed locks (the lock catalog of dtc_drc.c)

    The master of a lock keeps one [drc_master_res]: the mode it is granted
    in, the set of instances it is granted to, the request being converted
    and the queue of requests behind it.  All handlers run under the bucket
    lock from beginning to end, except [drc_request_lock_owner], which polls
    every 5 ms while its request waits in the queue; a poll is a read of the
    reform state and a window, a function on the catalog.
    Source: src/pkg/src/cluster/dtc_drc.c. *)

From stdpp Require Import prelude list.
From S2P Require Import Prelude Bitmap ResPool DrcList ResMap ConvertQ GlobalRes DrcTypes.

Open Scope Z_scope.
Open Scope drc_scope.

(** Rows are requested modes, columns granted modes. *)
Definition g_mode_compatible_matrix : list (list Z) := [[1; 1; 1]; [1; 1; 0]; [1; 0; 0]].

Definition mode_compatible (req_mode mode : Z) : outcome bool :=
  row ← arr_get g_mode_compatible_matrix req_mode;
  v ← arr_get row mode;
  Done (v =? 1).

Record lock_ctx := mk_lctx { lc_pool : lock_pool; lc_res : lock_catalog }.

Definition lc_set_res (c : lock_ctx) (g : lock_catalog) : lock_ctx := mk_lctx (lc_pool c) g.

Record lock_claim_info := mk_lclaim { lk_new_id : Z; lk_mode : Z; lk_inst_sid : Z }.

Abbreviation lock_conv a := (req_info (mr_converting a)).

Definition set_lock_conv (r : drc_req_info) (a : drc_master_res) : drc_master_res :=
  set_mr_converting (mk_lock_item (li_next (mr_converting a)) r) a.

Definition drc_get_lock_master_id (part_master : Z -> Z) (lock_id : drid_t) : Z := part_master (drc_lock_partid lock_id).

(** ** Creating and releasing a lock resource *)

Definition new_lock_res (lock_id : drid_t) (idx : Z) (old : drc_master_res) : drc_master_res :=
  mk_master_res CT_INVALID_ID32 idx lock_id DRC_LOCK_NULL (mr_part_id old) 0
    (mk_lock_item CT_INVALID_ID32 g_invalid_req_info) DRC_LIST_INIT (mr_node old).

Definition set_lock_part_and_node (lock_id : drid_t) (idx : Z) (a : drc_master_res) : drc_master_res :=
  set_mr_node (mk_node (prev (mr_node a)) (nnext (mr_node a)) idx) (set_mr_part_id (drc_lock_partid lock_id) a).

Definition drc_create_lock_res (lock_id : drid_t) (g : lock_catalog) : outcome (status_t * lock_catalog) :=
  '(item_idx, g) ← gres_alloc g;
  if item_idx =? CT_INVALID_ID32 then Done (CT_ERROR, g)
  else
    old ← gres_get g item_idx;
    g ← gres_put g item_idx (new_lock_res lock_id item_idx old);
    g ← gres_map_add g lock_id item_idx;
    a ← gres_get g item_idx;
    g ← gres_put g item_idx (set_lock_part_and_node lock_id item_idx a);
    g ← gres_part_add g item_idx;
    Done (CT_SUCCESS, g).

Definition drc_release_lock_res (i : Z) (g : lock_catalog) : outcome (status_t * lock_catalog) :=
  a ← gres_get g i;
  if negb (req_inst_id (lock_conv a) =? CT_INVALID_ID8) || (0 <? mr_granted_map a) then Done (CT_ERROR, g)
  else
    g ← drc_clean_page_from_res_part g i;
    a ← gres_get g i;
    let idx := mr_idx a in
    g ← gres_put g i item_zero;
    g ← gres_free g idx;
    Done (CT_SUCCESS, g).

(** Map entry, partition list, contents and pool item of resource [i] go:
    what follows the decision to drop a lock. *)
Definition drop_lock_res (lock_id : drid_t) (i : Z) (g : lock_catalog) : outcome lock_catalog :=
  g ← gres_map_remove g lock_id;
  '(_, g) ← drc_release_lock_res i g;
  Done g.

Definition dls_clear_granted_map_for_inst (lock_id : drid_t) (inst : Z) (c : lock_ctx) : outcome lock_ctx :=
  found ← gres_lookup (lc_res c) lock_id;
  match (found : option Z) with
  | None => Done c
  | Some i =>
      a ← gres_get (lc_res c) i;
      granted ← drc_bitmap64_clear (mr_granted_map a) inst;
      let a := set_mr_granted_map granted a in
      let a := if mr_granted_map a =? 0 then set_mr_mode DRC_LOCK_NULL a else a in
      g ← gres_put (lc_res c) i a;
      Done (lc_set_res c g)
  end.

(** ** Requesting a lock *)

(** The answer of a request: status, [*is_granted], [*old_owner_map]. *)
Record lock_answer := mk_answer { la_status : status_t; la_granted : bool; la_old_owner_map : Z }.

(** Nobody converts: the requester converts now.  A try request reports the
    owners even when it is granted. *)
Definition lock_convert_now (r : drc_req_info) (is_try : bool) (a : drc_master_res) : outcome (lock_answer * drc_master_res) :=
  compatible ← mode_compatible (req_mode r) (mr_mode a);
  _ ← knl_panic (count (mr_convert_q a) =? 0);
  Done (mk_answer CT_SUCCESS compatible (if compatible && negb is_try then 0 else mr_granted_map a), set_lock_conv r a).

(** The loop that waits for the request to be converted: one element per
    poll.  [None] when the request still waits after the given polls. *)
Fixpoint lock_wait_loop (lock_id : drid_t) (r : drc_req_info) (ans : lock_answer) (req_version i : Z)
    (polls : list (dtc_env * (lock_ctx -> lock_ctx))) (c : lock_ctx) : outcome (option lock_answer * lock_ctx) :=
  match polls with
  | [] => Done (None, c)
  | (e, window) :: polls =>
      let c := window c in
      if DRC_STOP_DLS_REQ_FOR_REFORMING req_version e lock_id
      then Done (Some (mk_answer CT_ERROR (la_granted ans) (la_old_owner_map ans)), c)
      else
        a ← gres_get (lc_res c) i;
        _ ← knl_panic (negb (req_inst_id (lock_conv a) =? CT_INVALID_ID8));
        if req_inst_id r =? req_inst_id (lock_conv a) then
          compatible ← mode_compatible (req_mode r) (mr_mode a);
          Done (Some (mk_answer CT_SUCCESS compatible (if (compatible : bool) then 0 else mr_granted_map a)), c)
        else lock_wait_loop lock_id r ans req_version i polls c
  end.

(** How far a request gets before it has to wait: an answer, or the index of
    the resource in whose queue it was put. *)
Inductive lock_request_step := LAnswer (ans : lock_answer) | LWait (i : Z).

Definition lock_request_start (e : dtc_env) (lock_id : drid_t) (r : drc_req_info) (ans0 : lock_answer) (req_version : Z) (c : lock_ctx)
    : outcome (lock_request_step * lock_ctx) :=
  let failed := LAnswer (mk_answer CT_ERROR (la_granted ans0) (la_old_owner_map ans0)) in
  if DRC_STOP_DLS_REQ_FOR_REFORMING req_version e lock_id then Done (failed, c)
  else
    found ← gres_lookup (lc_res c) lock_id;
    match (found : option Z) with
    | None =>
        '(ret, g) ← drc_create_lock_res lock_id (lc_res c);
        _ ← knl_panic (bool_decide (ret = CT_SUCCESS));
        found ← gres_lookup g lock_id;
        match (found : option Z) with
        | None => Crash NullPointer
        | Some i =>
            a ← gres_get g i;
            g ← gres_put g i (set_lock_conv r a);
            Done (LAnswer (mk_answer CT_SUCCESS true 0), lc_set_res c g)
        end
    | Some i =>
        a ← gres_get (lc_res c) i;
        if DRC_LOCK_EXCLUSIVE <? mr_mode a then Done (failed, c)
        else if req_inst_id (lock_conv a) =? CT_INVALID_ID8 then
          '(ans, a) ← lock_convert_now r false a;
          g ← gres_put (lc_res c) i a;
          Done (LAnswer ans, lc_set_res c g)
        else
          owner ← drc_bitmap64_exist (mr_granted_map a) (req_inst_id r);
          if (owner : bool) then Done (LAnswer (mk_answer CT_ERROR false (la_old_owner_map ans0)), c)
          else
            '(ret, q, pool) ← drc_request_lock_owner_add_req_into_cvt_q (mr_convert_q a) r (lc_pool c);
            g ← gres_put (lc_res c) i (set_mr_convert_q q a);
            match (ret : status_t) with
            | CT_ERROR => Done (failed, mk_lctx pool g)
            | CT_SUCCESS => Done (LWait i, mk_lctx pool g)
            end
    end.

Definition drc_request_lock_owner (e : dtc_env) (polls : list (dtc_env * (lock_ctx -> lock_ctx))) (lock_id : drid_t)
    (r : drc_req_info) (ans0 : lock_answer) (req_version : Z) (c : lock_ctx) : outcome (option lock_answer * lock_ctx) :=
  '(step, c) ← lock_request_start e lock_id r ans0 req_version c;
  match (step : lock_request_step) with
  | LAnswer ans => Done (Some ans, c)
  | LWait i => lock_wait_loop lock_id r ans0 req_version i polls c
  end.

Definition drc_try_request_lock_owner (e e' : dtc_env) (lock_id : drid_t) (r : drc_req_info) (ans0 : lock_answer)
    (req_version : Z) (c : lock_ctx) : outcome (lock_answer * lock_ctx) :=
  let failed := mk_answer CT_ERROR (la_granted ans0) (la_old_owner_map ans0) in
  if dtc_is_in_rcy e then Done (failed, c)
  else if DRC_STOP_DLS_REQ_FOR_REFORMING req_version e' lock_id then Done (failed, c)
  else
    found ← gres_lookup (lc_res c) lock_id;
    match (found : option Z) with
    | None =>
        '(ret, g) ← drc_create_lock_res lock_id (lc_res c);
        match (ret : status_t) with
        | CT_ERROR => Done (failed, lc_set_res c g)
        | CT_SUCCESS =>
            found ← gres_lookup g lock_id;
            match (found : option Z) with
            | None => Crash NullPointer
            | Some i =>
                a ← gres_get g i;
                g ← gres_put g i (set_lock_conv r a);
                Done (mk_answer CT_SUCCESS true 0, lc_set_res c g)
            end
        end
    | Some i =>
        a ← gres_get (lc_res c) i;
        if DRC_LOCK_EXCLUSIVE <? mr_mode a then Done (failed, c)
        else if req_inst_id (lock_conv a) =? CT_INVALID_ID8 then
          '(ans, a) ← lock_convert_now r true a;
          g ← gres_put (lc_res c) i a;
          Done (ans, lc_set_res c g)
        else Done (failed, c)
    end.

(** ** Converting, claiming, cancelling, releasing *)

Definition drc_convert_lock_owner (a : drc_master_res) (pool : lock_pool) : outcome (drc_master_res * lock_pool) :=
  if count (mr_convert_q a) =? 0 then Done (set_lock_conv (req_set_inst CT_INVALID_ID8 (lock_conv a)) a, pool)
  else
    _ ← knl_panic (negb (first (mr_convert_q a) =? CT_INVALID_ID32));
    '(item_idx, lock_item, q) ← lock_q_pop (mr_convert_q a) pool;
    let a := set_mr_convert_q q (set_mr_converting lock_item a) in
    pool ← drc_res_pool_free_item pool item_idx;
    _ ← knl_panic (negb (req_inst_id (lock_conv a) =? CT_INVALID_ID8));
    Done (a, pool).

(** The variants [_nolock_part] and [_nolock] of the code take fewer locks and
    are the same function otherwise. *)
Definition drc_cancel_lock_owner_request (inst : Z) (lock_id : drid_t) (c : lock_ctx) : outcome (status_t * lock_ctx) :=
  found ← gres_lookup (lc_res c) lock_id;
  match (found : option Z) with
  | None => Done (CT_ERROR, c)
  | Some i =>
      a ← gres_get (lc_res c) i;
      if negb (req_inst_id (lock_conv a) =? inst) then Done (CT_SUCCESS, c)
      else
        '(a, pool) ← drc_convert_lock_owner a (lc_pool c);
        g ← gres_put (lc_res c) i a;
        Done (CT_SUCCESS, mk_lctx pool g)
  end.

Definition drc_lock_bucket_and_stat_with_version_check (e : dtc_env) (lock_id : drid_t) (req_version : Z)
    (is_remaster : bool) : status_t :=
  if DRC_STOP_DLS_REQ_FOR_REFORMING req_version e lock_id && negb is_remaster then CT_ERROR else CT_SUCCESS.

(** The locked part of a claim: the new mode and owners. *)
Definition lock_grant (ci : lock_claim_info) (a : drc_master_res) : outcome drc_master_res :=
  _ ← knl_panic ((lk_new_id ci =? req_inst_id (lock_conv a)) && (lk_mode ci =? req_mode (lock_conv a)));
  let a := if lk_mode ci =? DRC_LOCK_EXCLUSIVE then set_mr_granted_map 0 a else a in
  owner ← drc_bitmap64_exist (mr_granted_map a) (lk_new_id ci);
  _ ← knl_panic (negb owner || (drid_type (mr_res_id a) =? DR_TYPE_TABLE));
  granted ← drc_bitmap64_set (mr_granted_map a) (lk_new_id ci);
  Done (set_mr_mode (req_mode (lock_conv a)) (set_mr_granted_map granted a)).

Definition drc_claim_lock_owner (e : dtc_env) (lock_id : drid_t) (ci : lock_claim_info) (req_version : Z)
    (is_remaster : bool) (c : lock_ctx) : outcome (status_t * lock_ctx) :=
  match drc_lock_bucket_and_stat_with_version_check e lock_id req_version is_remaster with
  | CT_ERROR => Done (CT_ERROR, c)
  | CT_SUCCESS =>
      found ← gres_lookup (lc_res c) lock_id;
      match (found : option Z) with
      | None => Crash KnlPanic
      | Some i =>
          a ← gres_get (lc_res c) i;
          a ← lock_grant ci a;
          '(a, pool) ← drc_convert_lock_owner a (lc_pool c);
          g ← gres_put (lc_res c) i a;
          Done (CT_SUCCESS, mk_lctx pool g)
      end
  end.

Definition drc_release_lock_owner (old_id : Z) (lock_id : drid_t) (c : lock_ctx) : outcome (status_t * lock_ctx) :=
  found ← gres_lookup (lc_res c) lock_id;
  match (found : option Z) with
  | None => Done (CT_ERROR, c)
  | Some i =>
      a ← gres_get (lc_res c) i;
      owner ← drc_bitmap64_exist (mr_granted_map a) old_id;
      if negb owner then Done (CT_ERROR, c)
      else
        granted ← drc_bitmap64_clear (mr_granted_map a) old_id;
        let a := set_mr_granted_map granted a in
        let a := if mr_granted_map a =? 0 then set_mr_mode DRC_LOCK_NULL a else a in
        g ← gres_put (lc_res c) i a;
        if (0 <? mr_granted_map a) || negb (req_inst_id (lock_conv a) =? CT_INVALID_ID8) then Done (CT_SUCCESS, lc_set_res c g)
        else g ← drop_lock_res lock_id i g; Done (CT_SUCCESS, lc_set_res c g)
  end.

(** [CT_SUCCESS] also when the lock is not in the catalog; the mode stays as
    it is when the last owner goes while a request is being converted. *)
Definition drc_recycle_dls_master (e : dtc_env) (lock_id : drid_t) (req_version inst : Z) (c : lock_ctx)
    : outcome (status_t * lock_ctx) :=
  if DRC_STOP_DLS_REQ_FOR_REFORMING req_version e lock_id then Done (CT_ERROR, c)
  else
    found ← gres_lookup (lc_res c) lock_id;
    match (found : option Z) with
    | None => Done (CT_SUCCESS, c)
    | Some i =>
        a ← gres_get (lc_res c) i;
        granted ← drc_bitmap64_clear (mr_granted_map a) inst;
        let a := set_mr_granted_map granted a in
        g ← gres_put (lc_res c) i a;
        if (req_inst_id (lock_conv a) =? CT_INVALID_ID8) && (mr_granted_map a =? 0)
        then g ← drop_lock_res lock_id i g; Done (CT_SUCCESS, lc_set_res c g)
        else Done (CT_SUCCESS, lc_set_res c g)
    end.

(** ** Cleaning up after a failed instance *)

(** One iteration of the loop of [drc_clean_lock_owner_by_part] on resource [i]. *)
Definition clean_lock_owner (failed i : Z) (c : lock_ctx) : outcome (list error_msg * lock_ctx) :=
  a ← gres_get (lc_res c) i;
  '(q, msgs, pool) ← drc_clean_convert_q failed (mr_convert_q a) (lc_pool c);
  g ← gres_put (lc_res c) i (set_mr_convert_q q a);
  let c := mk_lctx pool g in
  c ← (if req_inst_id (lock_conv a) =? failed
       then '(_, c) ← drc_cancel_lock_owner_request failed (mr_res_id a) c; Done c
       else Done c);
  a ← gres_get (lc_res c) i;
  owner ← drc_bitmap64_exist (mr_granted_map a) failed;
  c ← (if (owner : bool) then '(_, c) ← drc_release_lock_owner failed (mr_res_id a) c; Done c else Done c);
  Done (msgs, c).

(** [status n] is the remaster status read by the iteration with [n] to go. *)
Fixpoint clean_lock_loop (status : nat -> drc_remaster_status) (failed : Z) (n : nat) (lock_idx : Z) (msgs : list error_msg)
    (c : lock_ctx) : outcome (list error_msg * lock_ctx) :=
  match n with
  | O => Done (msgs, c)
  | S n =>
      if decide (status n = REMASTER_FAIL) then Done (msgs, c)
      else
        a ← gres_get (lc_res c) lock_idx;
        let next_idx := nnext (mr_node a) in
        '(msgs', c) ← clean_lock_owner failed lock_idx c;
        clean_lock_loop status failed n next_idx (msgs ++ msgs') c
  end.

Definition drc_clean_lock_owner_by_part (status : nat -> drc_remaster_status) (failed part : Z) (c : lock_ctx)
    : outcome (list error_msg * lock_ctx) :=
  part_list ← arr_get (res_parts (lc_res c)) part;
  clean_lock_loop status failed (Z.to_nat (count part_list)) (first part_list) [] c.

Arguments drc_create_lock_res : simpl never.
Arguments drc_convert_lock_owner : simpl never.
Arguments drop_lock_res : simpl never.
Arguments lock_grant : simpl never.
Arguments lock_request_start : simpl never.
Arguments mode_compatible : simpl never.
