(* ===== verification/LockProps.v ===== *)
(** * The lock handlers on the catalog

    [lock_inv] is the invariant of one lock resource and its waiting requests,
    [lock_ok] that of the catalog.  As for pages, [mine] and [litems] are what
    this thread holds, and the property [Q] bounds what others hold.
    Source: src/pkg/src/cluster/dtc_drc.c. *)

From stdpp Require Import prelude list gmap.
From S2P Require Import Prelude Bitmap ResPool DrcList ResMap ConvertQ GlobalRes DrcTypes DrcPage PageInv DrcLock.

Open Scope Z_scope.
Open Scope drc_scope.

(** ** The invariant of one lock *)

Definition mode_ok (m : Z) : Prop := DRC_LOCK_NULL <= m <= DRC_LOCK_EXCLUSIVE.

(** A request the lock master can handle. *)
Definition lock_req_ok (r : drc_req_info) : Prop := inst_ok (req_inst_id r) /\ mode_ok (req_mode r).

Record lock_inv (a : drc_master_res) (rs : list drc_req_info) : Prop := mk_lock_inv {
  ki_mode : mode_ok (mr_mode a);
  ki_granted : bitmap_ok (mr_granted_map a);
  ki_conv : req_inst_id (lock_conv a) = CT_INVALID_ID8 \/ lock_req_ok (lock_conv a);
  ki_queue : Forall lock_req_ok rs;
  (** nobody waits unless somebody converts *)
  ki_idle : req_inst_id (lock_conv a) = CT_INVALID_ID8 -> rs = [];
  (** an exclusive lock is granted to at most one instance *)
  ki_excl : mr_mode a = DRC_LOCK_EXCLUSIVE -> exists i, inst_set (mr_granted_map a) ⊆ {[i]};
}.

Lemma strip_lock_eq (a b : drc_master_res) : strip a = strip b -> exists n m, b = set_mr_next n (set_mr_node m a).
Proof.
  intros E. exists (mr_next b), (mr_node b). destruct a, b. unfold strip in E. cbn in E. injection E as -> -> -> -> -> -> ->. done.
Qed.

Lemma lock_inv_strip (a b : drc_master_res) rs : strip a = strip b -> lock_inv a rs -> lock_inv b rs.
Proof. intros (n & m & ->)%strip_lock_eq []. by constructor. Qed.

Definition same_slot (a a' : drc_master_res) : Prop :=
  mr_next a' = mr_next a /\ mr_node a' = mr_node a /\ mr_res_id a' = mr_res_id a /\ mr_idx a' = mr_idx a /\ mr_part_id a' = mr_part_id a.

Lemma same_slot_trans a b c : same_slot a b -> same_slot b c -> same_slot a c.
Proof. unfold same_slot. intuition congruence. Qed.

(** Share requests are compatible with share grants; exclusive ones with
    nothing; null requests and grants with everything. *)
Definition compatible (req_mode mode : Z) : bool :=
  (req_mode =? DRC_LOCK_NULL) || (mode =? DRC_LOCK_NULL) || (req_mode =? DRC_LOCK_SHARE) && (mode =? DRC_LOCK_SHARE).

Lemma mode_cases m : mode_ok m -> m = DRC_LOCK_NULL \/ m = DRC_LOCK_SHARE \/ m = DRC_LOCK_EXCLUSIVE.
Proof. unfold mode_ok, DRC_LOCK_NULL, DRC_LOCK_SHARE, DRC_LOCK_EXCLUSIVE. lia. Qed.

Lemma mode_compatible_spec rm m : mode_ok rm -> mode_ok m -> mode_compatible rm m = Done (compatible rm m).
Proof. by intros [-> | [-> | ->]]%mode_cases [-> | [-> | ->]]%mode_cases. Qed.

(** *** The steps on one resource *)

Lemma convert_lock_spec a pool fl ids rest rs :
  lock_inv a rs -> queue_wf pool fl (mr_convert_q a) ids rest -> rs = queue_reqs (addr pool) ids ->
  exists a' pool' fl' ids', drc_convert_lock_owner a pool = Done (a', pool') /\
    queue_wf pool' fl' (mr_convert_q a') ids' rest /\ frame_items pool pool' rest /\ same_slot a a' /\
    mr_mode a' = mr_mode a /\ mr_granted_map a' = mr_granted_map a /\ lock_inv a' (queue_reqs (addr pool') ids') /\
    queue_reqs (addr pool') ids' = tail rs /\
    match rs with
    | [] => req_inst_id (lock_conv a') = CT_INVALID_ID8
    | r :: _ => lock_conv a' = r
    end.
Proof.
  intros [] Hq Hrs. pose proof (qw_rep _ _ _ _ _ Hq) as [Hcnt _]. unfold drc_convert_lock_owner. destruct ids as [| i ids].
  - cbn in Hcnt, Hrs. rewrite Hcnt. subst rs. eexists _, pool, fl, []. split; [done |]. split_and!; try done.
    by constructor; cbn; eauto.
  - destruct (Z.eqb_spec (count (mr_convert_q a)) 0); [cbn in Hcnt; lia |].
    destruct (pop_free_spec pool fl _ _ rest i ids Hq eq_refl) as (it & q' & pool' & -> & Hfree & Hq' & Hfr & Hreqs & -> & Hne).
    rewrite (proj2 (Z.eqb_neq _ _) Hne). cbn. rewrite Hfree. cbn. rewrite Hreqs in Hrs. subst rs.
    apply Forall_cons in ki_queue0 as [[Hi Hm] Hall]. rewrite (proj2 (Z.eqb_neq _ _) (inst_ok_ne _ Hi)). cbn.
    eexists _, pool', (i :: fl), ids. split; [done |]. split_and!; try done.
    constructor; cbn; eauto; [by right | intros E; by apply inst_ok_ne in Hi].
Qed.

(** The effect of a claim on owners and mode. *)
Definition granted_after (ci : lock_claim_info) (a a' : drc_master_res) : Prop :=
  mr_mode a' = lk_mode ci /\
  inst_set (mr_granted_map a') = {[lk_new_id ci]} ∪ (if lk_mode ci =? DRC_LOCK_EXCLUSIVE then ∅ else inst_set (mr_granted_map a)).

(** What the claimer has to respect: it claims the request being converted,
    and, except for table locks, it is not an owner already. *)
Definition lock_claim_ok (ci : lock_claim_info) (a : drc_master_res) : Prop :=
  req_inst_id (lock_conv a) = lk_new_id ci /\ req_mode (lock_conv a) = lk_mode ci /\ lk_new_id ci <> CT_INVALID_ID8 /\
  (lk_mode ci = DRC_LOCK_EXCLUSIVE \/ lk_new_id ci ∉ inst_set (mr_granted_map a) \/ drid_type (mr_res_id a) = DR_TYPE_TABLE).

Lemma lock_grant_spec ci a rs :
  lock_inv a rs -> lock_claim_ok ci a ->
  exists a', lock_grant ci a = Done a' /\ lock_inv a' rs /\ same_slot a a' /\ mr_convert_q a' = mr_convert_q a /\ granted_after ci a a'.
Proof.
  intros Hinv (Hid & Hm & Hne & Hown). pose proof Hinv as []. destruct ki_conv0 as [E | [Hi Hmo]]; [congruence |].
  unfold lock_grant. rewrite Hid, Hm, !Z.eqb_refl. cbn. rewrite Hid in Hi. rewrite Hm in Hmo.
  destruct (Z.eqb_spec (lk_mode ci) DRC_LOCK_EXCLUSIVE) as [Hx | Hx].
  - cbn. rewrite drc_bitmap64_exist_Done by (apply bitmap_ok_0 || done). rewrite inst_set_0. cbn.
    destruct (drc_bitmap64_set_Done 0 (lk_new_id ci) bitmap_ok_0 Hi) as (m & -> & Hmok & Hms & _). cbn.
    eexists. split; [done |]. rewrite inst_set_0 in Hms. split; [| split_and!; try done].
    + constructor; cbn; eauto; [by rewrite Hm | right; by split; rewrite ?Hid, ?Hm |]. intros _. exists (lk_new_id ci). rewrite Hms. set_solver.
    + unfold granted_after. cbn. rewrite Hm, Hms, Hx. split; [done | set_solver].
  - rewrite drc_bitmap64_exist_Done by done. cbn.
    assert (Hp : negb (bool_decide (lk_new_id ci ∈ inst_set (mr_granted_map a))) || (drid_type (mr_res_id a) =? DR_TYPE_TABLE) = true).
    { destruct Hown as [| [Hn | ->]]; [done | by rewrite bool_decide_eq_false_2 | by rewrite orb_true_r]. }
    rewrite Hp. cbn. destruct (drc_bitmap64_set_Done _ (lk_new_id ci) ki_granted0 Hi) as (m & -> & Hmok & Hms & _). cbn.
    eexists. split; [done |]. split; [| split_and!; try done].
    + constructor; cbn; eauto; [by rewrite Hm | right; by split; rewrite ?Hid, ?Hm |]. congruence.
    + unfold granted_after. cbn. rewrite Hm, Hms, (proj2 (Z.eqb_neq _ _) Hx). done.
Qed.

(** Taking one instance out of the owners. *)
Definition ungrant (granted : Z) (a : drc_master_res) : drc_master_res :=
  if granted =? 0 then set_mr_mode DRC_LOCK_NULL (set_mr_granted_map granted a) else set_mr_granted_map granted a.

Lemma subset_singleton_difference (X : gset Z) i j : X ⊆ {[i]} -> X ∖ {[j]} ⊆ {[i]}.
Proof. set_solver. Qed.

Lemma set_granted_inv inst granted a rs :
  lock_inv a rs -> bitmap_ok granted -> inst_set granted = inst_set (mr_granted_map a) ∖ {[inst]} -> lock_inv (set_mr_granted_map granted a) rs.
Proof.
  intros [] Hok Hs. constructor; cbn; eauto. intros Hx. destruct (ki_excl0 Hx) as [i Hi]. exists i. rewrite Hs. by apply subset_singleton_difference.
Qed.

Lemma ungrant_inv inst granted a rs :
  lock_inv a rs -> bitmap_ok granted -> inst_set granted = inst_set (mr_granted_map a) ∖ {[inst]} ->
  lock_inv (ungrant granted a) rs /\ same_slot a (ungrant granted a) /\ mr_convert_q (ungrant granted a) = mr_convert_q a.
Proof.
  intros Hinv Hok Hs. pose proof (set_granted_inv _ _ _ _ Hinv Hok Hs) as Hinv'. unfold ungrant.
  destruct (granted =? 0); (split; [| done]); [| done]. destruct Hinv'. by constructor.
Qed.

(** ** The catalog *)

(** Rewriting with these keeps the hash of the identifier folded. *)
Lemma lock_res_part (a : drc_master_res) : res_part (K := drid_t) a = mr_part_id a.
Proof. reflexivity. Qed.

Lemma lock_part_hash (k : drid_t) : part_hash (A := drc_master_res) k = drc_lock_partid k.
Proof. reflexivity. Qed.

Lemma new_lock_part lock_id idx a : mr_part_id (set_lock_part_and_node lock_id idx a) = drc_lock_partid lock_id.
Proof. reflexivity. Qed.

Abbreviation lock_view c k := (res_view (lc_pool c) (lc_res c) k).
Abbreviation lock_same_but k c c' := (view_but k (lc_pool c) (lc_res c) (lc_pool c') (lc_res c')).

Section lock.
Context (Q : list Z -> list Z -> Prop).
Abbreviation lgwf := (gwf (K := drid_t) lock_inv).
Abbreviation l_items c := (g_items (lc_res c)).

Record lock_st (gh : gghost) (mine litems : list Z) (c : lock_ctx) : Prop := mk_lock_st {
  ls_wf : lgwf gh (lc_pool c) (lc_res c);
  ls_held : exists others lothers,
    gg_held gh ≡ₚ mine ++ others /\ gg_lrest gh ≡ₚ litems ++ lothers /\ Q others lothers;
}.

Definition lock_ok (mine litems : list Z) (c : lock_ctx) : Prop := exists gh, lock_st gh mine litems c.

(** What a lookup finds, by the view. *)
Lemma lock_view_cases mine litems c k :
  lock_ok mine litems c ->
  match lock_view c k with
  | None => gres_lookup (lc_res c) k = Done None /\ exists gh, lock_st gh mine litems c /\
      forall i a, i ∈ linked gh -> (l_items c).[i] = Some a -> mr_res_id a <> k
  | Some (av, rs) => exists gh i a ids, lock_st gh mine litems c /\ gres_lookup (lc_res c) k = Done (Some i) /\
      i ∈ linked gh /\ gres_get (lc_res c) i = Done a /\ (l_items c).[i] = Some a /\ (gg_ql gh).[i] = Some ids /\
      mr_res_id a = k /\ av = strip a /\ rs = queue_reqs (addr (lc_pool c)) ids /\ lock_inv a rs /\
      queue_wf (lc_pool c) (gg_lfree gh) (mr_convert_q a) ids (concat ((gg_ql gh).[i <- []]) ++ gg_lrest gh)
  end.
Proof.
  intros [gh Hst]. pose proof (ls_wf _ _ _ _ Hst) as Hwf. pose proof (gwf_view lock_inv Hwf k) as Hv.
  destruct (lock_view c k) as [[av rs] |].
  - destruct Hv as (i & a & ids & Hl & Hi & Ha & Hids & Hk & -> & ->). exists gh, i, a, ids.
    split_and!; try done; [by apply arr_get_eq | by eapply gw_inv | by eapply (gwf_queue lock_inv Hwf)].
  - destruct Hv as [Hl Hn]. split; [done |]. by exists gh.
Qed.

Lemma lock_view_inv mine litems c k a rs : lock_ok mine litems c -> lock_view c k = Some (a, rs) -> lock_inv a rs.
Proof.
  intros Hok Hv. pose proof (lock_view_cases _ _ _ k Hok) as Hc. rewrite Hv in Hc.
  destruct Hc as (gh & i & a0 & ids & _ & _ & _ & _ & _ & _ & _ & -> & -> & Hinv & _). destruct Hinv. by constructor.
Qed.

(** Writing back a linked resource. *)
Lemma lock_st_update gh mine litems c i a a' ids ids' pool' lfree' :
  lock_st gh mine litems c -> i ∈ linked gh -> (l_items c).[i] = Some a -> (gg_ql gh).[i] = Some ids -> same_slot a a' ->
  queue_wf pool' lfree' (mr_convert_q a') ids' (concat ((gg_ql gh).[i <- []]) ++ gg_lrest gh) ->
  frame_items (lc_pool c) pool' (concat ((gg_ql gh).[i <- []]) ++ gg_lrest gh) -> lock_inv a' (queue_reqs (addr pool') ids') ->
  exists g', gres_put (lc_res c) i a' = Done g' /\
    lock_st (mk_gg (gg_free gh) (gg_held gh) (gg_bl gh) (gg_pl gh) ((gg_ql gh).[i <- ids']) lfree' (gg_lrest gh)) mine litems (mk_lctx pool' g') /\
    g_items g' = (l_items c).[i <- a'] /\ lock_same_but (mr_res_id a) c (mk_lctx pool' g') /\
    lock_view (mk_lctx pool' g') (mr_res_id a) = Some (strip a', queue_reqs (addr pool') ids').
Proof.
  intros [Hwf (o & lo & Ho & Hlo & HQ)] Hi Ha Hids (Hn & Hnd & Hk & Hx & Hp) Hq Hfr Hinv.
  destruct (gwf_update lock_inv gh (lc_pool c) (lc_res c) i a a' ids ids' pool' lfree' []) as (Hrun & Hwf' & Hv & Hvk); try done.
  eexists. split; [exact Hrun |]. split_and!; try done. constructor; cbn; [done |]. by exists o, lo.
Qed.

(** A linked resource is found where it is. *)
Lemma lock_st_lookup gh mine litems c i a :
  lock_st gh mine litems c -> i ∈ linked gh -> (l_items c).[i] = Some a -> gres_lookup (lc_res c) (mr_res_id a) = Done (Some i).
Proof. intros Hst Hi Ha. by apply (gwf_lookup_Some lock_inv (ls_wf _ _ _ _ Hst) (mr_res_id a) i a). Qed.

Lemma lock_st_set gh mine litems c i a a' ids :
  lock_st gh mine litems c -> i ∈ linked gh -> (l_items c).[i] = Some a -> (gg_ql gh).[i] = Some ids -> same_slot a a' ->
  mr_convert_q a' = mr_convert_q a -> lock_inv a' (queue_reqs (addr (lc_pool c)) ids) ->
  exists g', gres_put (lc_res c) i a' = Done g' /\ lock_st gh mine litems (lc_set_res c g') /\ g_items g' = (l_items c).[i <- a'] /\
    lock_same_but (mr_res_id a) c (lc_set_res c g') /\
    lock_view (lc_set_res c g') (mr_res_id a) = Some (strip a', queue_reqs (addr (lc_pool c)) ids).
Proof.
  intros Hst Hi Ha Hids Hpl Hcq Hinv. pose proof (gwf_queue lock_inv (ls_wf _ _ _ _ Hst) i a ids Ha Hids) as Hq.
  destruct (lock_st_update gh mine litems c i a a' ids ids (lc_pool c) (gg_lfree gh)) as (g' & Hrun & Hst' & Hit & Hv & Hvk); try done.
  { by rewrite Hcq. }
  exists g'. split_and!; try done. rewrite insertZ_id in Hst' by done. by destruct gh, c.
Qed.

Lemma lock_st_free gh i mine litems c :
  lock_st gh (i :: mine) litems c ->
  exists g' gh', gres_free (lc_res c) i = Done g' /\ lock_st gh' mine litems (lc_set_res c g') /\
    forall k, lock_view (lc_set_res c g') k = lock_view c k.
Proof.
  intros [Hwf (o & lo & Ho & Hlo & HQ)].
  destruct (gwf_free lock_inv lock_inv_strip gh (lc_pool c) (lc_res c) i (mine ++ o) Hwf) as (g' & Hrun & Hwf' & Hv & _); [done |].
  eexists g', _. split; [done |]. split; [| done]. constructor; cbn; [done | by exists o, lo].
Qed.

(** Creating the resource of a lock that is not in the catalog. *)
Lemma create_lock_spec lock_id mine litems c :
  lock_ok mine litems c -> lock_view c lock_id = None ->
  exists st g', drc_create_lock_res lock_id (lc_res c) = Done (st, g') /\ lock_ok mine litems (lc_set_res c g') /\
    if decide (free_list (res_pool (res_map (lc_res c))) = CT_INVALID_ID32)
    then st = CT_ERROR /\ forall k, lock_view (lc_set_res c g') k = lock_view c k
    else st = CT_SUCCESS /\ lock_same_but lock_id c (lc_set_res c g') /\
      exists a, lock_view (lc_set_res c g') lock_id = Some (strip a, []) /\ mr_mode a = DRC_LOCK_NULL /\ mr_granted_map a = 0 /\
        req_inst_id (lock_conv a) = CT_INVALID_ID8.
Proof.
  intros Hok Hview. pose proof (lock_view_cases _ _ _ lock_id Hok) as Hv. rewrite Hview in Hv. destruct Hv as (_ & gh & Hst & Hnew).
  destruct Hst as [Hwf (o & lo & Ho & Hlo & HQ)]. unfold drc_create_lock_res.
  pose proof (mw_pool _ _ _ _ (gw_map _ _ _ _ Hwf)) as Hpw. destruct (gg_free gh) as [| idx fl] eqn:Hfl.
  - rewrite (gwf_alloc_nil lock_inv _ _ _ Hwf Hfl). cbn. eexists _, _. split; [done |].
    rewrite decide_True by (by apply (free_list_nil _ _ Hpw)). split; [| done]. exists gh. constructor; [by destruct c | by exists o, lo].
  - destruct (decide _) as [E%(free_list_nil _ _ Hpw) | _]; [done |].
    destruct (gwf_alloc lock_inv lock_inv_strip gh (lc_pool c) (lc_res c) idx fl Hwf Hfl) as (g1 & -> & Hne & Hwf1 & Hit1 & Hv1).
    ostep. rewrite (proj2 (Z.eqb_neq _ _) Hne). set (gh1 := mk_gg fl (idx :: gg_held gh) _ _ _ _ _) in Hwf1.
    assert (Hih : idx ∈ gg_free gh1 ++ gg_held gh1) by (cbn; set_solver).
    destruct (gwf_held_item lock_inv lock_inv_strip _ _ _ _ Hwf1 Hih) as [old Hold]. unfold gres_get. rewrite (arr_get_eq _ _ _ Hold). ostep.
    destruct (gwf_map_add lock_inv lock_inv_strip gh1 (lc_pool c) g1 idx lock_id (new_lock_res lock_id idx old) (gg_held gh))
      as (g2 & g3 & bl' & n & -> & Hadd & Hhl); try done.
    { intros j b Hj Hb. rewrite Hit1 in Hb. by eapply Hnew. }
    ostep. rewrite Hadd. ostep.
    rewrite (arr_get_eq _ _ _ (hl_item _ _ _ _ _ _ _ _ _ _ Hhl)). ostep.
    set (a1 := set_lock_part_and_node lock_id idx (set_item_next n (new_lock_res lock_id idx old))).
    destruct (half_linked_put lock_inv lock_inv_strip _ _ _ _ _ _ _ _ _ a1 Hhl eq_refl eq_refl eq_refl) as [-> Hhl2].
    ostep.
    destruct (gwf_insert lock_inv lock_inv_strip _ _ _ _ _ _ _ _ _ Hhl2) as (g4 & pl' & -> & Hwf4 & Hv4 & Hvk);
      [reflexivity | reflexivity | by rewrite lock_res_part, lock_part_hash; apply new_lock_part | constructor; cbn; try done; by left |].
    ostep. eexists _, g4. split; [done |]. split; [eexists; constructor; [exact Hwf4 | cbn; by exists o, lo] |].
    split; [done |]. split; [intros k Hk; rewrite <- Hv1; by apply Hv4 |]. by exists a1.
Qed.

Lemma lock_queue_empty gh mine litems c i a ids :
  lock_st gh mine litems c -> i ∈ linked gh -> (l_items c).[i] = Some a -> (gg_ql gh).[i] = Some ids ->
  req_inst_id (lock_conv a) = CT_INVALID_ID8 -> (gg_ql gh).[i] = Some [].
Proof.
  intros Hst Hi Ha Hids Hc. pose proof (ls_wf _ _ _ _ Hst) as Hwf.
  pose proof (ki_idle _ _ (gw_inv _ _ _ _ Hwf _ _ _ Hi Ha Hids) Hc) as Hnil.
  destruct ids as [| x ids]; [done |]. pose proof (gwf_queue lock_inv Hwf i a _ Ha Hids) as Hq.
  destruct (qw_item Hq x) as [it Hit]; [set_solver |]. by rewrite (queue_reqs_cons _ _ _ _ Hit) in Hnil.
Qed.

(** Dropping a lock that nobody has or wants. *)
Lemma drop_lock_spec gh mine litems c i a ids :
  lock_st gh mine litems c -> i ∈ linked gh -> (l_items c).[i] = Some a -> (gg_ql gh).[i] = Some ids ->
  req_inst_id (lock_conv a) = CT_INVALID_ID8 -> mr_granted_map a = 0 ->
  exists g', drop_lock_res (mr_res_id a) i (lc_res c) = Done g' /\ lock_ok mine litems (lc_set_res c g') /\
    lock_same_but (mr_res_id a) c (lc_set_res c g') /\ lock_view (lc_set_res c g') (mr_res_id a) = None.
Proof.
  intros Hst Hi Ha Hids Hc Hg. pose proof (lock_queue_empty _ _ _ _ _ _ _ Hst Hi Ha Hids Hc) as Hnil.
  destruct Hst as [Hwf (o & lo & Ho & Hlo & HQ)]. destruct (gw_self _ _ _ _ Hwf _ _ Hi Ha) as [Hidx _]. cbn in Hidx.
  destruct (gwf_clean_steps lock_inv lock_inv_strip gh _ _ i a Hwf Hi Ha Hnil)
    as (g1 & a1 & g2 & a2 & g3 & Hr1 & Hget1 & (n1 & m1 & ->)%symmetry%strip_lock_eq & Hr2 & Hget2 & (n2 & m2 & ->)%symmetry%strip_lock_eq & Hr3 & Hrem).
  destruct Hrem as (bl' & pl' & Hwf3 & _ & Hv3 & Hn3). unfold drop_lock_res.
  change (mr_res_id a) with (key_of (K := drid_t) a). rewrite Hr1. ostep. unfold drc_release_lock_res. rewrite Hget1. ostep.
  cbn [mr_converting mr_granted_map set_mr_next set_mr_node]. rewrite Hc, Hg. cbn [negb orb Z.eqb Z.ltb Z.compare].
  rewrite Z.eqb_refl. cbn [negb orb]. rewrite Hr2. ostep. rewrite Hget2. ostep. rewrite Hr3. ostep.
  cbn [mr_idx set_mr_next set_mr_node]. rewrite Hidx.
  destruct (gwf_free lock_inv lock_inv_strip _ _ g3 i (gg_held gh) Hwf3) as (g4 & -> & Hwf4 & Hv4 & _); [done |]. ostep. ostep.
  exists g4. split; [done |]. split; [eexists; constructor; [exact Hwf4 | by exists o, lo] |].
  split; [intros k Hk; etransitivity; [apply Hv4 | by apply Hv3] | by etransitivity; [apply Hv4 |]].
Qed.

(** ** Claim, cancel, release *)

(** What becomes of the queue when the request being converted is done. *)
Definition next_converts (rs : list drc_req_info) (a' : drc_master_res) : Prop :=
  match rs with [] => req_inst_id (lock_conv a') = CT_INVALID_ID8 | r :: _ => lock_conv a' = r end.

Lemma convert_st gh mine litems c i a a1 ids :
  lock_st gh mine litems c -> i ∈ linked gh -> (l_items c).[i] = Some a -> (gg_ql gh).[i] = Some ids ->
  same_slot a a1 -> mr_convert_q a1 = mr_convert_q a -> lock_inv a1 (queue_reqs (addr (lc_pool c)) ids) ->
  exists a' pool' g', drc_convert_lock_owner a1 (lc_pool c) = Done (a', pool') /\ gres_put (lc_res c) i a' = Done g' /\
    lock_ok mine litems (mk_lctx pool' g') /\ lock_same_but (mr_res_id a) c (mk_lctx pool' g') /\
    lock_view (mk_lctx pool' g') (mr_res_id a) = Some (strip a', tail (queue_reqs (addr (lc_pool c)) ids)) /\
    mr_mode a' = mr_mode a1 /\ mr_granted_map a' = mr_granted_map a1 /\ next_converts (queue_reqs (addr (lc_pool c)) ids) a' /\
    gres_lookup g' (mr_res_id a) = Done (Some i) /\ mr_idx a' = mr_idx a.
Proof.
  intros Hst Hi Ha Hids Hpl Hcq Hinv. pose proof (gwf_queue lock_inv (ls_wf _ _ _ _ Hst) i a ids Ha Hids) as Hq. cbn in Hq. rewrite <- Hcq in Hq.
  destruct (convert_lock_spec a1 (lc_pool c) _ ids _ _ Hinv Hq eq_refl) as (a' & pool' & fl' & ids' & Hrun & Hq' & Hfr & Hpl' & Hm & Hg & Hinv' & Hrs & Hnext).
  destruct (lock_st_update gh mine litems c i a a' ids ids' pool' fl' Hst Hi Ha Hids) as (g' & Hput & Hst' & Hit & Hv & Hvk); try done.
  { by eapply same_slot_trans. }
  exists a', pool', g'. rewrite Hrs in Hvk. split_and!; try done; [by eexists | | by destruct (same_slot_trans _ _ _ Hpl Hpl') as (_ & _ & _ & ? & _)].
  assert (Hka : mr_res_id a' = mr_res_id a) by (destruct (same_slot_trans _ _ _ Hpl Hpl') as (_ & _ & ? & _); done). rewrite <- Hka.
  eapply (lock_st_lookup _ _ _ (mk_lctx pool' g')); [exact Hst' | done |]. cbn. rewrite Hit. apply lookupZ_insertZ_eq. by eapply lookupZ_lt.
Qed.

Lemma claim_lock_spec e lock_id ci ver is_remaster mine litems c a rs :
  lock_ok mine litems c -> lock_view c lock_id = Some (a, rs) ->
  drc_lock_bucket_and_stat_with_version_check e lock_id ver is_remaster = CT_SUCCESS -> lock_claim_ok ci a ->
  exists c' a', drc_claim_lock_owner e lock_id ci ver is_remaster c = Done (CT_SUCCESS, c') /\ lock_ok mine litems c' /\
    lock_same_but lock_id c c' /\ lock_view c' lock_id = Some (a', tail rs) /\ granted_after ci a a' /\ next_converts rs a' /\ mr_idx a' = mr_idx a.
Proof.
  intros Hok Hview Hver Hcl. pose proof (lock_view_cases _ _ _ lock_id Hok) as Hv. rewrite Hview in Hv.
  destruct Hv as (gh & i & a0 & ids & Hst & Hl & Hi & Hget & Ha & Hids & Hk & -> & -> & Hinv & Hqw).
  unfold drc_claim_lock_owner. rewrite Hver, Hl. ostep. rewrite Hget. ostep.
  destruct (lock_grant_spec ci a0 _ Hinv Hcl) as (a1 & -> & Hinv1 & Hpl1 & Hcq1 & Hga). ostep.
  destruct (convert_st gh mine litems c i a0 a1 ids Hst Hi Ha Hids Hpl1 Hcq1 Hinv1) as (a' & pool' & g' & -> & Hput & Hok' & Hsb & Hvk & Hm & Hg & Hn & _ & Hidx).
  ostep. rewrite Hput. ostep. rewrite Hk in Hsb, Hvk. eexists _, (strip a'). split; [done |]. split_and!; try done.
  destruct Hga as [Hm1 Hg1]. split; [by etransitivity; [exact Hm |] |].
  change (mr_granted_map (strip a')) with (mr_granted_map a'). rewrite Hg. exact Hg1.
Qed.

Lemma cancel_lock_spec inst lock_id mine litems c :
  lock_ok mine litems c -> inst <> CT_INVALID_ID8 ->
  match lock_view c lock_id with
  | None => drc_cancel_lock_owner_request inst lock_id c = Done (CT_ERROR, c)
  | Some (a, rs) => exists c', drc_cancel_lock_owner_request inst lock_id c = Done (CT_SUCCESS, c') /\ lock_ok mine litems c' /\
      lock_same_but lock_id c c' /\ gres_lookup (lc_res c') lock_id = gres_lookup (lc_res c) lock_id /\
      if req_inst_id (lock_conv a) =? inst
      then exists a', lock_view c' lock_id = Some (a', tail rs) /\ mr_mode a' = mr_mode a /\ mr_granted_map a' = mr_granted_map a /\ next_converts rs a' /\ mr_idx a' = mr_idx a
      else c' = c
  end.
Proof.
  intros Hok Hinst. pose proof (lock_view_cases _ _ _ lock_id Hok) as Hv.
  unfold drc_cancel_lock_owner_request.
  destruct (lock_view c lock_id) as [[av rs] |] eqn:Hview; [| destruct Hv as [-> _]; reflexivity].
  destruct Hv as (gh & i & a0 & ids & Hst & Hl & Hi & Hget & Ha & Hids & Hk & -> & -> & Hinv & Hqw).
  rewrite Hl. ostep. rewrite Hget. ostep. change (lock_conv (strip a0)) with (lock_conv a0).
  destruct (Z.eqb_spec (req_inst_id (lock_conv a0)) inst) as [E | E]; cbn [negb]; [| by exists c].
  destruct (convert_st gh mine litems c i a0 a0 ids Hst Hi Ha Hids) as (a' & pool' & g' & -> & Hput & Hok' & Hsb & Hvk & Hm & Hg & Hn & Hl' & Hidx); try done.
  ostep. rewrite Hput. ostep. rewrite Hk in Hsb, Hvk, Hl'. eexists. split; [done |]. split; [done |]. split; [done |]. split; [done |]. by exists (strip a').
Qed.

(** After [inst] has been taken out of the owners: the lock goes when nobody
    has it and nobody converts it. *)
Definition after_ungrant (inst : Z) (lock_id : drid_t) (a : drc_master_res) (rs : list drc_req_info) (c' : lock_ctx) : Prop :=
  if decide (inst_set (mr_granted_map a) ⊆ {[inst]} /\ req_inst_id (lock_conv a) = CT_INVALID_ID8) then lock_view c' lock_id = None
  else exists a', lock_view c' lock_id = Some (a', rs) /\ inst_set (mr_granted_map a') = inst_set (mr_granted_map a) ∖ {[inst]} /\
    lock_conv a' = lock_conv a /\ (mr_mode a' = mr_mode a \/ mr_mode a' = DRC_LOCK_NULL /\ mr_granted_map a' = 0).

Lemma inst_set_nil m inst granted :
  bitmap_ok m -> bitmap_ok granted -> inst_set granted = inst_set m ∖ {[inst]} -> granted = 0 <-> inst_set m ⊆ {[inst]}.
Proof.
  intros Hm Hg Hs. split.
  - intros ->. rewrite inst_set_0 in Hs. intros x Hx. destruct (decide (x = inst)) as [-> |]; [set_solver |].
    assert (x ∈ inst_set m ∖ {[inst]}) as Hx' by set_solver. rewrite <- Hs in Hx'. set_solver.
  - intros Hsub. apply inst_set_empty; [done |]. rewrite Hs. set_solver.
Qed.

Lemma release_lock_spec old_id lock_id mine litems c :
  lock_ok mine litems c -> inst_ok old_id ->
  match lock_view c lock_id with
  | None => drc_release_lock_owner old_id lock_id c = Done (CT_ERROR, c)
  | Some (a, rs) =>
      if decide (old_id ∈ inst_set (mr_granted_map a))
      then exists c', drc_release_lock_owner old_id lock_id c = Done (CT_SUCCESS, c') /\ lock_ok mine litems c' /\
             lock_same_but lock_id c c' /\ after_ungrant old_id lock_id a rs c'
      else drc_release_lock_owner old_id lock_id c = Done (CT_ERROR, c)
  end.
Proof.
  intros Hok Hold. pose proof (lock_view_cases _ _ _ lock_id Hok) as Hv. unfold drc_release_lock_owner.
  destruct (lock_view c lock_id) as [[av rs] |] eqn:Hview; [| destruct Hv as [-> _]; reflexivity].
  destruct Hv as (gh & i & a0 & ids & Hst & Hl & Hi & Hget & Ha & Hids & Hk & -> & -> & Hinv & Hqw).
  rewrite Hl. ostep. rewrite Hget. ostep. rewrite drc_bitmap64_exist_Done by (apply Hinv || done). ostep.
  change (mr_granted_map (strip a0)) with (mr_granted_map a0).
  destruct (decide (old_id ∈ inst_set (mr_granted_map a0))) as [Hin | Hin]; [| by rewrite bool_decide_eq_false_2].
  rewrite bool_decide_eq_true_2 by done. cbn [negb].
  destruct (drc_bitmap64_clear_Done (mr_granted_map a0) old_id) as (m & -> & Hm & Hms & _); [apply Hinv | done |]. ostep.
  destruct (ungrant_inv old_id m a0 _ Hinv Hm Hms) as (Hinv1 & Hpl1 & Hcq1).
  change (mr_granted_map (set_mr_granted_map m a0)) with m. fold (ungrant m a0).
  destruct (lock_st_set gh mine litems c i a0 (ungrant m a0) ids) as (g1 & -> & Hst1 & Hit1 & Hsb1 & Hvk1); try done. ostep.
  rewrite Hk in Hsb1, Hvk1. pose proof (inst_set_nil _ _ _ (ki_granted _ _ Hinv) Hm Hms) as Hnil.
  assert (Hgm : mr_granted_map (ungrant m a0) = m) by (unfold ungrant; by destruct (m =? 0)).
  assert (Hcv : lock_conv (ungrant m a0) = lock_conv a0) by (unfold ungrant; by destruct (m =? 0)).
  rewrite Hgm, Hcv. unfold after_ungrant. change (mr_granted_map (strip a0)) with (mr_granted_map a0). change (lock_conv (strip a0)) with (lock_conv a0).
  assert (Hpos : 0 <? m = negb (m =? 0)). { unfold bitmap_ok in Hm. destruct (Z.ltb_spec 0 m), (Z.eqb_spec m 0); lia || done. } rewrite Hpos.
  destruct (Z.eqb_spec m 0) as [Hz | Hz]; cbn [negb orb];
    [destruct (Z.eqb_spec (req_inst_id (lock_conv a0)) CT_INVALID_ID8) as [Hc | Hc]; cbn [negb] |].
  - destruct (drop_lock_spec gh mine litems (lc_set_res c g1) i (ungrant m a0) ids) as (g2 & Hrun2 & Hok2 & Hsb2 & Hvk2); try done.
    { cbn. rewrite Hit1, lookupZ_insertZ_eq; [done | by eapply lookupZ_lt]. } { by rewrite Hcv. } { by rewrite Hgm. }
    assert (Hku : mr_res_id (ungrant m a0) = lock_id) by (unfold ungrant; by destruct (m =? 0)). rewrite Hku in *. cbn in Hrun2. rewrite Hrun2. ostep.
    eexists. split; [done |]. split; [done |]. split; [intros k Hk'; etransitivity; [by apply Hsb2 | by apply Hsb1] |].
    rewrite decide_True; [done |]. split; [by apply Hnil | done].
  - eexists. split; [done |]. split; [by eexists |]. split; [done |]. rewrite decide_False by (intros [_ E]; done).
    eexists. split; [exact Hvk1 |]. cbn. rewrite Hgm, Hcv. split_and!; try done. right. unfold ungrant. by rewrite Hz.
  - eexists. split; [done |]. split; [by eexists |]. split; [done |]. rewrite decide_False by (intros [E%Hnil _]; done).
    eexists. split; [exact Hvk1 |]. cbn. rewrite Hgm, Hcv. split_and!; try done. left. unfold ungrant. by rewrite (proj2 (Z.eqb_neq _ _) Hz).
Qed.

Lemma recycle_master_spec e lock_id ver inst mine litems c :
  lock_ok mine litems c -> inst_ok inst -> DRC_STOP_DLS_REQ_FOR_REFORMING ver e lock_id = false ->
  match lock_view c lock_id with
  | None => drc_recycle_dls_master e lock_id ver inst c = Done (CT_SUCCESS, c)
  | Some (a, rs) => exists c', drc_recycle_dls_master e lock_id ver inst c = Done (CT_SUCCESS, c') /\ lock_ok mine litems c' /\
      lock_same_but lock_id c c' /\ after_ungrant inst lock_id a rs c'
  end.
Proof.
  intros Hok Hinst Hstop. pose proof (lock_view_cases _ _ _ lock_id Hok) as Hv. unfold drc_recycle_dls_master. rewrite Hstop.
  destruct (lock_view c lock_id) as [[av rs] |] eqn:Hview; [| destruct Hv as [-> _]; reflexivity].
  destruct Hv as (gh & i & a0 & ids & Hst & Hl & Hi & Hget & Ha & Hids & Hk & -> & -> & Hinv & Hqw).
  rewrite Hl. ostep. rewrite Hget. ostep.
  destruct (drc_bitmap64_clear_Done (mr_granted_map a0) inst) as (m & -> & Hm & Hms & _); [apply Hinv | done |]. ostep.
  pose proof (set_granted_inv inst m a0 _ Hinv Hm Hms) as Hinv1.
  destruct (lock_st_set gh mine litems c i a0 (set_mr_granted_map m a0) ids) as (g1 & -> & Hst1 & Hit1 & Hsb1 & Hvk1); try done. ostep.
  rewrite Hk in Hsb1, Hvk1. pose proof (inst_set_nil _ _ _ (ki_granted _ _ Hinv) Hm Hms) as Hnil.
  change (lock_conv (set_mr_granted_map m a0)) with (lock_conv a0). change (mr_granted_map (set_mr_granted_map m a0)) with m.
  unfold after_ungrant. change (mr_granted_map (strip a0)) with (mr_granted_map a0). change (lock_conv (strip a0)) with (lock_conv a0).
  destruct (Z.eqb_spec (req_inst_id (lock_conv a0)) CT_INVALID_ID8) as [Hc | Hc]; cbn [andb]; [destruct (Z.eqb_spec m 0) as [Hz | Hz] |].
  - destruct (drop_lock_spec gh mine litems (lc_set_res c g1) i (set_mr_granted_map m a0) ids) as (g2 & Hrun2 & Hok2 & Hsb2 & Hvk2); try done.
    { cbn. rewrite Hit1, lookupZ_insertZ_eq; [done | by eapply lookupZ_lt]. }
    cbn in Hrun2, Hsb2, Hvk2. rewrite Hk in Hrun2, Hsb2, Hvk2. rewrite Hrun2. ostep. eexists. split; [done |]. split; [done |].
    split; [intros k Hk'; etransitivity; [by apply Hsb2 | by apply Hsb1] |]. rewrite decide_True; [done |]. split; [by apply Hnil | done].
  - eexists. split; [done |]. split; [by eexists |]. split; [done |]. rewrite decide_False by (intros [E%Hnil _]; done).
    eexists. split; [exact Hvk1 |]. cbn. split_and!; try done. by left.
  - eexists. split; [done |]. split; [by eexists |]. split; [done |]. rewrite decide_False by (intros [_ E]; done).
    eexists. split; [exact Hvk1 |]. cbn. split_and!; try done. by left.
Qed.

Lemma clear_granted_spec lock_id inst mine litems c :
  lock_ok mine litems c -> inst_ok inst ->
  match lock_view c lock_id with
  | None => dls_clear_granted_map_for_inst lock_id inst c = Done c
  | Some (a, rs) => exists c' a', dls_clear_granted_map_for_inst lock_id inst c = Done c' /\ lock_ok mine litems c' /\ lock_same_but lock_id c c' /\
      lock_view c' lock_id = Some (a', rs) /\ inst_set (mr_granted_map a') = inst_set (mr_granted_map a) ∖ {[inst]} /\ lock_conv a' = lock_conv a /\
      mr_mode a' = (if mr_granted_map a' =? 0 then DRC_LOCK_NULL else mr_mode a) /\ mr_idx a' = mr_idx a
  end.
Proof.
  intros Hok Hinst. pose proof (lock_view_cases _ _ _ lock_id Hok) as Hv. unfold dls_clear_granted_map_for_inst.
  destruct (lock_view c lock_id) as [[av rs] |] eqn:Hview; [| destruct Hv as [-> _]; reflexivity].
  destruct Hv as (gh & i & a0 & ids & Hst & Hl & Hi & Hget & Ha & Hids & Hk & -> & -> & Hinv & Hqw).
  rewrite Hl. ostep. rewrite Hget. ostep.
  destruct (drc_bitmap64_clear_Done (mr_granted_map a0) inst) as (m & -> & Hm & Hms & _); [apply Hinv | done |]. ostep.
  destruct (ungrant_inv inst m a0 _ Hinv Hm Hms) as (Hinv1 & Hpl1 & Hcq1).
  change (mr_granted_map (set_mr_granted_map m a0)) with m. fold (ungrant m a0).
  destruct (lock_st_set gh mine litems c i a0 (ungrant m a0) ids) as (g1 & -> & Hst1 & Hit1 & Hsb1 & Hvk1); try done. ostep.
  rewrite Hk in Hsb1, Hvk1. eexists _, _. split; [done |]. split; [by eexists |]. split; [done |]. split; [exact Hvk1 |].
  unfold ungrant. destruct (m =? 0) eqn:Em; cbn; rewrite ?Em; by split_and!.
Qed.

(** ** Request *)

Definition lock_window_ok (f : lock_ctx -> lock_ctx) : Prop :=
  forall mine litems c, lock_ok mine litems c -> lock_ok mine litems (f c).

(** Other threads keep a lock that is being converted, and some request
    being converted, while others wait. *)
Definition keeps_lock (f : lock_ctx -> lock_ctx) : Prop :=
  forall mine litems c k a rs i, lock_ok mine litems c -> lock_view c k = Some (a, rs) -> gres_lookup (lc_res c) k = Done (Some i) ->
    req_inst_id (lock_conv a) <> CT_INVALID_ID8 ->
    gres_lookup (lc_res (f c)) k = Done (Some i) /\
    exists a' rs', lock_view (f c) k = Some (a', rs') /\ req_inst_id (lock_conv a') <> CT_INVALID_ID8.

Definition polls_ok (polls : list (dtc_env * (lock_ctx -> lock_ctx))) : Prop :=
  Forall (fun p => lock_window_ok p.2 /\ keeps_lock p.2) polls.

Lemma wait_loop_ok lock_id r ans ver i polls mine litems c a rs :
  polls_ok polls -> lock_req_ok r -> lock_ok mine litems c -> lock_view c lock_id = Some (a, rs) ->
  gres_lookup (lc_res c) lock_id = Done (Some i) -> req_inst_id (lock_conv a) <> CT_INVALID_ID8 ->
  exists out c', lock_wait_loop lock_id r ans ver i polls c = Done (out, c') /\ lock_ok mine litems c' /\
    match out with
    | Some ans' => la_status ans' = CT_SUCCESS -> exists a' rs', lock_view c' lock_id = Some (a', rs') /\
        req_inst_id (lock_conv a') = req_inst_id r /\ la_granted ans' = compatible (req_mode r) (mr_mode a') /\
        la_old_owner_map ans' = if la_granted ans' then 0 else mr_granted_map a'
    | None => True
    end.
Proof.
  intros Hpolls Hr. revert c a rs. induction Hpolls as [| [e f] polls [Hf Hk] _ IH]; intros c a rs Hok Hview Hl Hc; cbn [lock_wait_loop].
  { by eexists _, _. }
  cbn in Hf, Hk. destruct (Hk mine litems c lock_id a rs i Hok Hview Hl Hc) as (Hl' & a' & rs' & Hview' & Hc').
  assert (Hok' : lock_ok mine litems (f c)) by (by apply Hf).
  destruct (DRC_STOP_DLS_REQ_FOR_REFORMING ver e lock_id); [by eexists _, _ |].
  pose proof (lock_view_cases _ _ _ lock_id Hok') as Hv. rewrite Hview' in Hv.
  destruct Hv as (gh & j & a0 & ids & Hst & Hl2 & Hi & Hget & Ha & Hids & Hkk & -> & -> & Hinv & _). rewrite Hl' in Hl2. injection Hl2 as <-.
  rewrite Hget. ostep. change (lock_conv (strip a0)) with (lock_conv a0) in Hc'. rewrite (proj2 (Z.eqb_neq _ _) Hc'). cbn [negb knl_panic]. ostep.
  destruct (Z.eqb_spec (req_inst_id r) (req_inst_id (lock_conv a0))) as [E |]; [| by eapply IH].
  rewrite mode_compatible_spec by (apply Hr || apply Hinv). ostep. eexists _, _. split; [done |]. split; [done |].
  intros _. eexists _, _. split; [done |]. split_and!; try done.
Qed.

(** The answer to a request that converts at once. *)
Definition converts_now (r : drc_req_info) (is_try : bool) (a : drc_master_res) (ans : lock_answer) (a' : drc_master_res) : Prop :=
  la_status ans = CT_SUCCESS /\ la_granted ans = compatible (req_mode r) (mr_mode a) /\
  la_old_owner_map ans = (if la_granted ans && negb is_try then 0 else mr_granted_map a) /\
  lock_conv a' = r /\ mr_mode a' = mr_mode a /\ mr_granted_map a' = mr_granted_map a /\ mr_idx a' = mr_idx a.

Lemma convert_now_st r is_try gh mine litems c i a ids :
  lock_st gh mine litems c -> i ∈ linked gh -> (l_items c).[i] = Some a -> (gg_ql gh).[i] = Some ids -> lock_req_ok r ->
  req_inst_id (lock_conv a) = CT_INVALID_ID8 ->
  exists ans a' g', lock_convert_now r is_try a = Done (ans, a') /\ gres_put (lc_res c) i a' = Done g' /\
    lock_ok mine litems (lc_set_res c g') /\ lock_same_but (mr_res_id a) c (lc_set_res c g') /\
    lock_view (lc_set_res c g') (mr_res_id a) = Some (strip a', []) /\ converts_now r is_try a ans a'.
Proof.
  intros Hst Hi Ha Hids Hr Hc. pose proof (ls_wf _ _ _ _ Hst) as Hwf. pose proof (gw_inv _ _ _ _ Hwf _ _ _ Hi Ha Hids) as Hinv.
  pose proof (lock_queue_empty _ _ _ _ _ _ _ Hst Hi Ha Hids Hc) as Hnil. rewrite Hids in Hnil. injection Hnil as ->.
  pose proof (gw_queues _ _ _ _ Hwf _ _ _ Ha Hids) as [Hcnt _]. cbn in Hcnt.
  unfold lock_convert_now. rewrite mode_compatible_spec by (apply Hr || apply Hinv). ostep. rewrite Hcnt. change (knl_panic (Z.of_nat 0 =? 0)) with (Done tt). ostep.
  destruct (lock_st_set gh mine litems c i a (set_lock_conv r a) []) as (g1 & Hput & Hst1 & _ & Hsb1 & Hvk1); try done.
  { destruct Hinv. constructor; cbn; eauto; by right. }
  eexists _, _, g1. split; [done |]. split; [done |]. split; [by eexists |]. done.
Qed.

(** Creating the resource of a new lock and converting the request on it. *)
Lemma create_convert_st lock_id r mine litems c :
  lock_ok mine litems c -> lock_view c lock_id = None -> lock_req_ok r -> free_list (res_pool (res_map (lc_res c))) <> CT_INVALID_ID32 ->
  exists g i a g', drc_create_lock_res lock_id (lc_res c) = Done (CT_SUCCESS, g) /\ gres_lookup g lock_id = Done (Some i) /\
    gres_get g i = Done a /\ gres_put g i (set_lock_conv r a) = Done g' /\ lock_ok mine litems (lc_set_res c g') /\
    lock_same_but lock_id c (lc_set_res c g') /\
    exists a', lock_view (lc_set_res c g') lock_id = Some (a', []) /\ lock_conv a' = r /\ mr_granted_map a' = 0 /\ mr_mode a' = DRC_LOCK_NULL.
Proof.
  intros Hok Hview Hr Hfree. destruct (create_lock_spec lock_id mine litems c Hok Hview) as (st & g & Hrun & Hok1 & Hcase).
  rewrite decide_False in Hcase by done. destruct Hcase as (-> & Hsb & a1 & Hv1 & Hm & Hg & Hc).
  pose proof (lock_view_cases _ _ _ lock_id Hok1) as Hv. rewrite Hv1 in Hv.
  destruct Hv as (gh & i & a0 & ids & Hst & Hl & Hi & Hget & Ha & Hids & Hk & Hs & Hrs & Hinv & _).
  destruct (strip_lock_eq _ _ Hs) as (n1 & n2 & ->).
  destruct (lock_st_set gh mine litems (lc_set_res c g) i _ (set_lock_conv r (set_mr_next n1 (set_mr_node n2 a1))) ids Hst Hi Ha Hids) as (g1 & Hput & Hst1 & _ & Hsb1 & Hvk1); try done.
  { rewrite <- Hrs. destruct Hinv. constructor; cbn; eauto; by right. }
  exists g, i, (set_mr_next n1 (set_mr_node n2 a1)), g1. rewrite Hk in Hsb1, Hvk1. rewrite <- Hrs in Hvk1. split_and!; try done; [by eexists | |].
  - intros k Hk'. etransitivity; [by apply Hsb1 | by apply Hsb].
  - by eexists.
Qed.

Definition lock_pool_full (c : lock_ctx) : Prop := free_list (res_pool (res_map (lc_res c))) = CT_INVALID_ID32.

(** What a request for a lock does before it has to wait. *)
Inductive lock_request_rule (r : drc_req_info) (c : lock_ctx) (lock_id : drid_t) (c' : lock_ctx) : lock_request_step -> Prop :=
| L_new a' :
    lock_view c lock_id = None -> lock_view c' lock_id = Some (a', []) -> lock_conv a' = r -> mr_granted_map a' = 0 -> mr_mode a' = DRC_LOCK_NULL ->
    lock_request_rule r c lock_id c' (LAnswer (mk_answer CT_SUCCESS true 0))
| L_convert a a' ans :
    lock_view c lock_id = Some (a, []) -> req_inst_id (lock_conv a) = CT_INVALID_ID8 ->
    lock_view c' lock_id = Some (a', []) -> converts_now r false a ans a' -> lock_request_rule r c lock_id c' (LAnswer ans)
| L_owner a rs m :
    lock_view c lock_id = Some (a, rs) -> req_inst_id (lock_conv a) <> CT_INVALID_ID8 -> req_inst_id r ∈ inst_set (mr_granted_map a) ->
    c' = c -> lock_request_rule r c lock_id c' (LAnswer (mk_answer CT_ERROR false m))
| L_wait a rs a' i :
    lock_view c lock_id = Some (a, rs) -> req_inst_id (lock_conv a) <> CT_INVALID_ID8 -> req_inst_id r ∉ inst_set (mr_granted_map a) ->
    lock_view c' lock_id = Some (a', rs ++ [r]) -> lock_conv a' = lock_conv a -> mr_granted_map a' = mr_granted_map a -> mr_mode a' = mr_mode a -> mr_idx a' = mr_idx a ->
    gres_lookup (lc_res c') lock_id = Done (Some i) -> lock_request_rule r c lock_id c' (LWait i)
| L_full a rs g m :
    lock_view c lock_id = Some (a, rs) -> req_inst_id (lock_conv a) <> CT_INVALID_ID8 -> free_list (lc_pool c) = CT_INVALID_ID32 -> lock_view c' lock_id = Some (a, rs) ->
    lock_request_rule r c lock_id c' (LAnswer (mk_answer CT_ERROR g m)).

Lemma request_start_spec e lock_id r ans0 ver mine litems c :
  lock_ok mine litems c -> lock_req_ok r -> DRC_STOP_DLS_REQ_FOR_REFORMING ver e lock_id = false ->
  (lock_view c lock_id = None -> ~ lock_pool_full c) ->
  exists step c', lock_request_start e lock_id r ans0 ver c = Done (step, c') /\ lock_ok mine litems c' /\
    lock_same_but lock_id c c' /\ lock_request_rule r c lock_id c' step.
Proof.
  intros Hok Hr Hstop Hfree. pose proof (lock_view_cases _ _ _ lock_id Hok) as Hv. unfold lock_request_start. rewrite Hstop.
  destruct (lock_view c lock_id) as [[av rs] |] eqn:Hview.
  2: { destruct Hv as [-> _]. ostep. destruct (create_convert_st lock_id r mine litems c Hok Hview Hr (Hfree eq_refl))
         as (g & i & a & g' & -> & Hl & Hget & Hput & Hok' & Hsb & a' & Hv' & Hc' & Hg' & Hm').
       ostep. change (knl_panic (bool_decide (CT_SUCCESS = CT_SUCCESS))) with (Done tt). ostep. rewrite Hl. ostep. rewrite Hget. ostep. rewrite Hput. ostep.
       eexists _, _. split; [done |]. split; [done |]. split; [done |]. by eapply L_new. }
  destruct Hv as (gh & i & a0 & ids & Hst & Hl & Hi & Hget & Ha & Hids & Hk & -> & -> & Hinv & Hqw).
  rewrite Hl. ostep. rewrite Hget. ostep. assert (Hmode : DRC_LOCK_EXCLUSIVE <? mr_mode a0 = false) by (apply Z.ltb_ge, Hinv). rewrite Hmode.
  destruct (Z.eqb_spec (req_inst_id (lock_conv a0)) CT_INVALID_ID8) as [Hc | Hc].
  { destruct (convert_now_st r false gh mine litems c i a0 ids Hst Hi Ha Hids Hr Hc) as (ans & a' & g' & -> & Hput & Hok' & Hsb & Hvk & Hcn).
    ostep. rewrite Hput. ostep. rewrite Hk in *. eexists _, _. split; [done |]. split; [done |]. split; [done |].
    pose proof (ki_idle _ _ Hinv Hc) as Hnil. rewrite Hnil in Hview. by eapply L_convert. }
  rewrite drc_bitmap64_exist_Done by (apply Hinv || apply Hr). ostep. case_bool_decide as Hin.
  { eexists _, _. split; [done |]. split; [done |]. split; [done |]. by eapply L_owner. }
  destruct (enqueue_spec Hqw r) as (st & q' & pool' & -> & Hfr & Hcase). ostep.
  destruct Hcase as [(-> & Hfl & -> & ->) | (x & fl' & -> & Hfl & Hq' & Hreqs)].
  - destruct (lock_st_set gh mine litems c i a0 (set_mr_convert_q (mr_convert_q a0) a0) ids) as (g1 & -> & Hst1 & _ & Hsb1 & Hvk1); try done; [by destruct a0, Hinv |].
    ostep. rewrite Hk in *. eexists _, _. split; [done |]. split; [by eexists |]. split; [done |]. eapply L_full; [done | done | | ].
    + by apply (free_list_nil _ _ (qw_pool _ _ _ _ _ Hqw)).
    + etransitivity; [exact Hvk1 |]. by destruct a0.
  - destruct (lock_st_update gh mine litems c i a0 (set_mr_convert_q q' a0) ids (ids ++ [x]) pool' fl') as (g1 & -> & Hst1 & Hit1 & Hsb1 & Hvk1); try done.
    { rewrite Hreqs. destruct Hinv. constructor; cbn; eauto; [apply Forall_app; split; [done | by constructor] | by intros E]. }
    ostep. rewrite Hk, Hreqs in *. eexists _, _. split; [done |]. split; [by eexists |]. split; [done |]. eapply L_wait; try done.
    assert (Hlt : 0 <= i < Z.of_nat (length (l_items c))) by (by eapply lookupZ_lt).
    eapply (gwf_lookup_Some lock_inv (ls_wf _ _ _ _ Hst1) _ i (set_mr_convert_q q' a0)); [done | | done].
    cbn. rewrite Hit1. by apply lookupZ_insertZ_eq.
Qed.

(** ** Every handler keeps the catalog well formed *)

Lemma request_lock_ok e polls lock_id r ans0 ver mine litems c :
  lock_ok mine litems c -> lock_req_ok r -> polls_ok polls -> (lock_view c lock_id = None -> ~ lock_pool_full c) ->
  exists out c', drc_request_lock_owner e polls lock_id r ans0 ver c = Done (out, c') /\ lock_ok mine litems c'.
Proof.
  intros Hok Hr Hpolls Hfree. unfold drc_request_lock_owner. destruct (DRC_STOP_DLS_REQ_FOR_REFORMING ver e lock_id) eqn:Hstop.
  { unfold lock_request_start. rewrite Hstop. ostep. by eexists _, _. }
  destruct (request_start_spec e lock_id r ans0 ver mine litems c Hok Hr Hstop Hfree) as (step & c' & -> & Hok' & _ & Hrule). ostep.
  destruct Hrule as [| | | a rs a' i Hv1 Hc1 _ Hv2 Hc2 _ _ _ Hl2 |]; [by eexists _, _ .. | | by eexists _, _].
  destruct (wait_loop_ok lock_id r ans0 ver i polls mine litems c' a' _ Hpolls Hr Hok' Hv2 Hl2) as (out & c2 & -> & Hok2 & _); [by rewrite Hc2 |].
  by eexists _, _.
Qed.

Lemma try_request_lock_spec e e' lock_id r ans0 ver mine litems c :
  lock_ok mine litems c -> lock_req_ok r -> dtc_is_in_rcy e = false -> DRC_STOP_DLS_REQ_FOR_REFORMING ver e' lock_id = false ->
  exists ans c', drc_try_request_lock_owner e e' lock_id r ans0 ver c = Done (ans, c') /\ lock_ok mine litems c' /\ lock_same_but lock_id c c' /\
    match lock_view c lock_id with
    | None => if decide (lock_pool_full c) then la_status ans = CT_ERROR /\ lock_view c' lock_id = None
              else ans = mk_answer CT_SUCCESS true 0 /\
                   exists a', lock_view c' lock_id = Some (a', []) /\ lock_conv a' = r /\ mr_granted_map a' = 0 /\ mr_mode a' = DRC_LOCK_NULL
    | Some (a, rs) => if req_inst_id (lock_conv a) =? CT_INVALID_ID8
                      then exists a', lock_view c' lock_id = Some (a', []) /\ converts_now r true a ans a'
                      else la_status ans = CT_ERROR /\ c' = c
    end.
Proof.
  intros Hok Hr Hrcy Hstop. pose proof (lock_view_cases _ _ _ lock_id Hok) as Hv. unfold drc_try_request_lock_owner. rewrite Hrcy, Hstop.
  destruct (lock_view c lock_id) as [[av rs] |] eqn:Hview.
  - destruct Hv as (gh & i & a0 & ids & Hst & Hl & Hi & Hget & Ha & Hids & Hk & -> & -> & Hinv & Hqw).
    rewrite Hl. ostep. rewrite Hget. ostep. assert (Hmode : DRC_LOCK_EXCLUSIVE <? mr_mode a0 = false) by (apply Z.ltb_ge, Hinv). rewrite Hmode.
    change (lock_conv (strip a0)) with (lock_conv a0). destruct (Z.eqb_spec (req_inst_id (lock_conv a0)) CT_INVALID_ID8) as [Hc | Hc]; [| by eexists _, _].
    destruct (convert_now_st r true gh mine litems c i a0 ids Hst Hi Ha Hids Hr Hc) as (ans & a' & g' & -> & Hput & Hok' & Hsb & Hvk & Hcn).
    ostep. rewrite Hput. ostep. rewrite Hk in *. eexists _, _. split; [done |]. split; [done |]. split; [done |]. by eexists.
  - destruct Hv as [-> _]. ostep. destruct (decide (lock_pool_full c)) as [Hfull | Hfree].
    + destruct (create_lock_spec lock_id mine litems c Hok Hview) as (st & g & -> & Hok1 & Hcase). rewrite decide_True in Hcase by done.
      destruct Hcase as [-> Hv]. ostep. eexists _, _. split; [done |]. split; [done |]. split; [intros k _; apply Hv |]. split; [done |]. by rewrite Hv.
    + destruct (create_convert_st lock_id r mine litems c Hok Hview Hr Hfree) as (g & i & a & g' & -> & Hl & Hget & Hput & Hok' & Hsb & a' & Hv' & Hc' & Hg' & Hm').
      ostep. rewrite Hl. ostep. rewrite Hget. ostep. rewrite Hput. ostep. eexists _, _. split; [done |]. split; [done |]. split; [done |].
      split; [done |]. by eexists.
Qed.

Lemma lock_grant_claim ci a a' rs : lock_inv a rs -> 0 <= lk_new_id ci -> lock_grant ci a = Done a' -> lock_claim_ok ci a.
Proof.
  unfold lock_grant. intros [] Hpos (u & [Hid%Z.eqb_eq Hm%Z.eqb_eq]%knl_panic_true%andb_true_iff & Hrun)%bind_Done.
  apply bind_Done in Hrun as (owner & Hex & Hrun). apply bind_Done in Hrun as (u2 & Hp%knl_panic_true & _).
  assert (Hi : inst_ok (lk_new_id ci)).
  { unfold drc_bitmap64_exist in Hex. destruct (Z.leb_spec CT_MAX_INSTANCES (lk_new_id ci)); [done |]. unfold inst_ok. lia. }
  split; [done |]. split; [done |]. split; [by apply inst_ok_ne |].
  destruct (Z.eqb_spec (lk_mode ci) DRC_LOCK_EXCLUSIVE); [by left | right]. rewrite drc_bitmap64_exist_Done in Hex by done.
  injection Hex as <-. apply orb_true_iff in Hp as [Hp%negb_true_iff%bool_decide_eq_false | Hp%Z.eqb_eq]; [by left | by right].
Qed.

(** One handler. *)
Inductive lock_step : lock_ctx -> lock_ctx -> Prop :=
| lstep_request e polls lock_id r ans0 ver out c c' :
    lock_req_ok r -> polls_ok polls -> (lock_view c lock_id = None -> ~ lock_pool_full c) ->
    drc_request_lock_owner e polls lock_id r ans0 ver c = Done (out, c') -> lock_step c c'
| lstep_try e e' lock_id r ans0 ver ans c c' :
    lock_req_ok r -> drc_try_request_lock_owner e e' lock_id r ans0 ver c = Done (ans, c') -> lock_step c c'
| lstep_claim e lock_id ci ver is_remaster st c c' :
    0 <= lk_new_id ci -> drc_claim_lock_owner e lock_id ci ver is_remaster c = Done (st, c') -> lock_step c c'
| lstep_cancel inst lock_id st c c' :
    inst <> CT_INVALID_ID8 -> drc_cancel_lock_owner_request inst lock_id c = Done (st, c') -> lock_step c c'
| lstep_release old_id lock_id st c c' :
    inst_ok old_id -> drc_release_lock_owner old_id lock_id c = Done (st, c') -> lock_step c c'
| lstep_recycle e lock_id ver inst st c c' :
    inst_ok inst -> drc_recycle_dls_master e lock_id ver inst c = Done (st, c') -> lock_step c c'
| lstep_clear lock_id inst c c' :
    inst_ok inst -> dls_clear_granted_map_for_inst lock_id inst c = Done c' -> lock_step c c'.

Lemma claim_lock_ok e lock_id ci ver is_remaster st mine litems c c' :
  lock_ok mine litems c -> 0 <= lk_new_id ci -> drc_claim_lock_owner e lock_id ci ver is_remaster c = Done (st, c') -> lock_ok mine litems c'.
Proof.
  intros Hok Hpos Hrun. destruct (drc_lock_bucket_and_stat_with_version_check e lock_id ver is_remaster) eqn:Hver.
  2: { unfold drc_claim_lock_owner in Hrun. rewrite Hver in Hrun. by simplify_eq. }
  pose proof (lock_view_cases _ _ _ lock_id Hok) as Hv. destruct (lock_view c lock_id) as [[av rs] |] eqn:Hview.
  2: { unfold drc_claim_lock_owner in Hrun. rewrite Hver in Hrun. destruct Hv as [E _]. rewrite E in Hrun. by rewrite outcome_ret_bind in Hrun. }
  assert (Hcl : lock_claim_ok ci av).
  { destruct Hv as (gh & i & a0 & ids & Hst & Hl & Hi & Hget & Ha & Hids & Hk & -> & -> & Hinv & Hqw).
    unfold drc_claim_lock_owner in Hrun. rewrite Hver, Hl, outcome_ret_bind in Hrun. rewrite Hget, outcome_ret_bind in Hrun.
    apply bind_Done in Hrun as (a1 & Hg & _). by apply (lock_grant_claim ci a0 a1 _ Hinv Hpos). }
  destruct (claim_lock_spec e lock_id ci ver is_remaster mine litems c av rs Hok Hview Hver Hcl) as (c2 & _ & E & Hok2 & _).
  rewrite Hrun in E. by simplify_eq.
Qed.

Lemma lock_step_ok mine litems c c' : lock_step c c' -> lock_ok mine litems c -> lock_ok mine litems c'.
Proof.
  intros Hs Hok. destruct Hs as [e polls lock_id r ans0 ver out c c' Hr Hp Hf Hrun | e e' lock_id r ans0 ver ans c c' Hr Hrun | |
    inst lock_id st c c' Hi Hrun | old_id lock_id st c c' Hi Hrun | e lock_id ver inst st c c' Hi Hrun | lock_id inst c c' Hi Hrun].
  - destruct (request_lock_ok e polls lock_id r ans0 ver mine litems c Hok Hr Hp Hf) as (? & ? & E & ?). rewrite Hrun in E. by simplify_eq.
  - destruct (dtc_is_in_rcy e) eqn:Hrcy; [unfold drc_try_request_lock_owner in Hrun; rewrite Hrcy in Hrun; by simplify_eq |].
    destruct (DRC_STOP_DLS_REQ_FOR_REFORMING ver e' lock_id) eqn:Hstop; [unfold drc_try_request_lock_owner in Hrun; rewrite Hrcy, Hstop in Hrun; by simplify_eq |].
    destruct (try_request_lock_spec e e' lock_id r ans0 ver mine litems c Hok Hr Hrcy Hstop) as (? & ? & E & ? & _). rewrite Hrun in E. by simplify_eq.
  - by eapply claim_lock_ok.
  - pose proof (cancel_lock_spec inst lock_id mine litems c Hok Hi) as Hsp.
    destruct (lock_view c lock_id) as [[? ?] |]; [destruct Hsp as (? & E & ? & _) | rename Hsp into E]; rewrite Hrun in E; by simplify_eq.
  - pose proof (release_lock_spec old_id lock_id mine litems c Hok Hi) as Hsp. destruct (lock_view c lock_id) as [[? ?] |]; [destruct (decide _) |];
      [destruct Hsp as (? & E & ? & _) | rename Hsp into E ..]; rewrite Hrun in E; by simplify_eq.
  - destruct (DRC_STOP_DLS_REQ_FOR_REFORMING ver e lock_id) eqn:Hstop; [unfold drc_recycle_dls_master in Hrun; rewrite Hstop in Hrun; by simplify_eq |].
    pose proof (recycle_master_spec e lock_id ver inst mine litems c Hok Hi Hstop) as Hsp.
    destruct (lock_view c lock_id) as [[? ?] |]; [destruct Hsp as (? & E & ? & _) | rename Hsp into E]; rewrite Hrun in E; by simplify_eq.
  - pose proof (clear_granted_spec lock_id inst mine litems c Hok Hi) as Hsp.
    destruct (lock_view c lock_id) as [[? ?] |]; [destruct Hsp as (? & ? & E & ? & _) | rename Hsp into E]; rewrite Hrun in E; by simplify_eq.
Qed.

Lemma lock_init_ok g pool size lsize pool_size lnum :
  map_inited (res_map g) = false -> inited (res_pool (res_map g)) = false -> block_header_size <= size ->
  0 < pool_size < 2 ^ 31 -> inited pool = false -> block_header_size <= lsize -> 0 < lnum <= CT_INVALID_ID32 -> Q [] [] ->
  exists g' pool', drc_global_res_init g pool_size size true true = Done (CT_SUCCESS, g') /\
    drc_res_pool_init pool lsize lnum true = Done (CT_SUCCESS, pool') /\
    lock_ok [] [] (mk_lctx pool' g') /\ forall k, lock_view (mk_lctx pool' g') k = None.
Proof.
  intros Hm Hp Hsz Hps Hlp Hlsz Hln HQ.
  destruct (gwf_init (K := drid_t) lock_inv lock_inv_strip g pool size lsize pool_size lnum Hm Hp Hsz Hps Hlp Hlsz Hln)
    as (g' & pool' & Hr1 & Hr2 & Hwf & Hv).
  exists g', pool'. split_and!; try done. eexists. constructor; [exact Hwf | by exists [], []].
Qed.
End lock.
