(* ===== verification/LockThms.v ===== *)
(** * The theorems on distributed locks

    The properties of the lock catalog, each with a concrete instance of its
    hypotheses.
    Source: src/pkg/src/cluster/dtc_drc.c. *)

From stdpp Require Import prelude list gmap.
From S2P Require Import Prelude Bitmap ResPool DrcList ResMap ConvertQ GlobalRes DrcTypes DrcPage PageInv DrcLock LockProps.

Open Scope Z_scope.
Open Scope drc_scope.

Lemma difference_not_in (X : gset Z) i : i ∉ X -> X = X ∖ {[i]}.
Proof. set_solver. Qed.

Section theorems.
Context (Q : list Z -> list Z -> Prop).
Abbreviation lock_ok := (lock_ok Q).
Abbreviation l_items c := (g_items (lc_res c)).

(** Every lock of a catalog that handlers have worked on since it was created. *)
Lemma lock_reach_inv g pool size lsize pool_size lnum c' k a rs :
  map_inited (res_map g) = false -> inited (res_pool (res_map g)) = false -> block_header_size <= size ->
  0 < pool_size < 2 ^ 31 -> inited pool = false -> block_header_size <= lsize -> 0 < lnum <= CT_INVALID_ID32 -> Q [] [] ->
  (exists g' pool', drc_global_res_init g pool_size size true true = Done (CT_SUCCESS, g') /\
     drc_res_pool_init pool lsize lnum true = Done (CT_SUCCESS, pool') /\ rtc (lock_step Q) (mk_lctx pool' g') c') ->
  lock_view c' k = Some (a, rs) -> lock_inv a rs.
Proof.
  intros Hm Hp Hsz Hps Hlp Hlsz Hln HQ (g' & pool' & Hr1 & Hr2 & Hreach) Hview.
  destruct (lock_init_ok Q g pool size lsize pool_size lnum) as (g2 & pool2 & E1 & E2 & Hok & _); try done.
  rewrite E1 in Hr1. rewrite E2 in Hr2. simplify_eq.
  assert (Hok' : lock_ok [] [] c').
  { clear Hview. revert Hok. induction Hreach as [| c c1 c2 Hstep _ IH]; [done |]. intros Hok. apply IH. by eapply lock_step_ok. }
  exact (lock_view_inv _ _ _ _ _ _ _ Hok' Hview).
Qed.

(** C18: whatever lock handlers run after the catalog was created,
    in any order, a lock held in exclusive mode is granted to at most one
    instance, and requests wait only behind one that is being converted. *)
Theorem lock_reach_exclusive g pool size lsize pool_size lnum c' k a rs i j :
  map_inited (res_map g) = false -> inited (res_pool (res_map g)) = false -> block_header_size <= size ->
  0 < pool_size < 2 ^ 31 -> inited pool = false -> block_header_size <= lsize -> 0 < lnum <= CT_INVALID_ID32 -> Q [] [] ->
  (exists g' pool', drc_global_res_init g pool_size size true true = Done (CT_SUCCESS, g') /\
     drc_res_pool_init pool lsize lnum true = Done (CT_SUCCESS, pool') /\ rtc (lock_step Q) (mk_lctx pool' g') c') ->
  lock_view c' k = Some (a, rs) ->
  (mr_mode a = DRC_LOCK_EXCLUSIVE -> i ∈ inst_set (mr_granted_map a) -> j ∈ inst_set (mr_granted_map a) -> i = j) /\
  (rs <> [] -> req_inst_id (lock_conv a) <> CT_INVALID_ID8).
Proof.
  intros Hm Hp Hsz Hps Hlp Hlsz Hln HQ Hreach Hview.
  pose proof (lock_reach_inv g pool size lsize pool_size lnum c' k a rs Hm Hp Hsz Hps Hlp Hlsz Hln HQ Hreach Hview) as Hinv. split.
  - intros Hx Hi Hj. destruct (ki_excl _ _ Hinv Hx) as [o Ho].
    apply Ho, elem_of_singleton in Hi. apply Ho, elem_of_singleton in Hj. congruence.
  - intros Hne Hc. by destruct (Hne (ki_idle _ _ Hinv Hc)).
Qed.

(** A request on the lock master creates the lock and is
    granted, converts at once when nobody converts, is refused when the
    requester owns the lock while another request converts, and otherwise
    joins the end of the queue; other locks are left alone. *)
Theorem request_lock_start_correct e lock_id r ans0 ver mine litems c :
  lock_ok mine litems c -> lock_req_ok r -> DRC_STOP_DLS_REQ_FOR_REFORMING ver e lock_id = false ->
  (lock_view c lock_id = None -> ~ lock_pool_full c) ->
  exists step c', lock_request_start e lock_id r ans0 ver c = Done (step, c') /\ lock_ok mine litems c' /\
    lock_same_but lock_id c c' /\ lock_request_rule r c lock_id c' step.
Proof. apply request_start_spec. Qed.

(** The whole request, polls included, returns without
    a crash and keeps the catalog well formed, as long as the lock pool is
    not exhausted (the code panics then) and other threads keep the lock
    while requests wait for it. *)
Theorem request_lock_owner_safe e polls lock_id r ans0 ver mine litems c :
  lock_ok mine litems c -> lock_req_ok r -> polls_ok Q polls -> (lock_view c lock_id = None -> ~ lock_pool_full c) ->
  exists out c', drc_request_lock_owner e polls lock_id r ans0 ver c = Done (out, c') /\ lock_ok mine litems c'.
Proof. apply request_lock_ok. Qed.

(** C37: a claim of the request being converted grants the lock to
    the claimer in the requested mode, alone if the mode is exclusive, and
    converts the oldest waiting request; other locks are left alone. *)
Theorem claim_lock_owner_correct e lock_id ci ver is_remaster mine litems c a rs :
  lock_ok mine litems c -> lock_view c lock_id = Some (a, rs) ->
  drc_lock_bucket_and_stat_with_version_check e lock_id ver is_remaster = CT_SUCCESS -> lock_claim_ok ci a ->
  exists c' a', drc_claim_lock_owner e lock_id ci ver is_remaster c = Done (CT_SUCCESS, c') /\ lock_ok mine litems c' /\
    lock_same_but lock_id c c' /\ lock_view c' lock_id = Some (a', tail rs) /\ granted_after ci a a' /\ next_converts rs a' /\ mr_idx a' = mr_idx a.
Proof. apply claim_lock_spec. Qed.

(** Releasing a lock takes the instance out of its owners and
    drops the lock when nobody else has or converts it; an instance that
    does not own the lock is refused without effect. *)
Theorem release_lock_owner_correct old_id lock_id mine litems c :
  lock_ok mine litems c -> inst_ok old_id ->
  match lock_view c lock_id with
  | None => drc_release_lock_owner old_id lock_id c = Done (CT_ERROR, c)
  | Some (a, rs) =>
      if decide (old_id ∈ inst_set (mr_granted_map a))
      then exists c', drc_release_lock_owner old_id lock_id c = Done (CT_SUCCESS, c') /\ lock_ok mine litems c' /\
             lock_same_but lock_id c c' /\ after_ungrant old_id lock_id a rs c'
      else drc_release_lock_owner old_id lock_id c = Done (CT_ERROR, c)
  end.
Proof. apply release_lock_spec. Qed.

(** Cancelling a request that is being converted hands the
    conversion to the oldest waiting request and grants nothing; cancelling
    any other request has no effect. *)
Theorem cancel_lock_owner_request_correct inst lock_id mine litems c :
  lock_ok mine litems c -> inst <> CT_INVALID_ID8 ->
  match lock_view c lock_id with
  | None => drc_cancel_lock_owner_request inst lock_id c = Done (CT_ERROR, c)
  | Some (a, rs) => exists c', drc_cancel_lock_owner_request inst lock_id c = Done (CT_SUCCESS, c') /\ lock_ok mine litems c' /\
      lock_same_but lock_id c c' /\ gres_lookup (lc_res c') lock_id = gres_lookup (lc_res c) lock_id /\
      if req_inst_id (lock_conv a) =? inst
      then exists a', lock_view c' lock_id = Some (a', tail rs) /\ mr_mode a' = mr_mode a /\ mr_granted_map a' = mr_granted_map a /\ next_converts rs a' /\ mr_idx a' = mr_idx a
      else c' = c
  end.
Proof. apply cancel_lock_spec. Qed.

(** Recycling a lock takes the instance out of its owners and
    drops the lock when nobody has or converts it; the mode is kept when a
    request still converts it. *)
Theorem recycle_dls_master_correct e lock_id ver inst mine litems c :
  lock_ok mine litems c -> inst_ok inst -> DRC_STOP_DLS_REQ_FOR_REFORMING ver e lock_id = false ->
  match lock_view c lock_id with
  | None => drc_recycle_dls_master e lock_id ver inst c = Done (CT_SUCCESS, c)
  | Some (a, rs) => exists c', drc_recycle_dls_master e lock_id ver inst c = Done (CT_SUCCESS, c') /\ lock_ok mine litems c' /\
      lock_same_but lock_id c c' /\ after_ungrant inst lock_id a rs c'
  end.
Proof. apply recycle_master_spec. Qed.

(** A try request never waits: it creates the lock or converts at
    once when nobody converts, reporting the owners, and otherwise fails
    without effect. *)
Theorem try_request_lock_owner_correct e e' lock_id r ans0 ver mine litems c :
  lock_ok mine litems c -> lock_req_ok r -> dtc_is_in_rcy e = false -> DRC_STOP_DLS_REQ_FOR_REFORMING ver e' lock_id = false ->
  exists ans c', drc_try_request_lock_owner e e' lock_id r ans0 ver c = Done (ans, c') /\ lock_ok mine litems c' /\ lock_same_but lock_id c c' /\
    match lock_view c lock_id with
    | None => if decide (lock_pool_full c) then la_status ans = CT_ERROR /\ lock_view c' lock_id = None
              else ans = mk_answer CT_SUCCESS true 0 /\
                   exists a', lock_view c' lock_id = Some (a', []) /\ lock_conv a' = r /\ mr_granted_map a' = 0 /\ mr_mode a' = DRC_LOCK_NULL
    | Some (a, rs) => if req_inst_id (lock_conv a) =? CT_INVALID_ID8
                      then exists a', lock_view c' lock_id = Some (a', []) /\ converts_now r true a ans a'
                      else la_status ans = CT_ERROR /\ c' = c
    end.
Proof. apply try_request_lock_spec. Qed.

(** ** Cleaning up after a failed instance *)

(** Emptying the queue of a lock. *)
Lemma clean_queue_st failed gh mine litems c i a ids :
  lock_st Q gh mine litems c -> i ∈ linked gh -> (l_items c).[i] = Some a -> (gg_ql gh).[i] = Some ids ->
  exists q pool' g1, drc_clean_convert_q failed (mr_convert_q a) (lc_pool c) = Done (q, errors_for failed (queue_reqs (addr (lc_pool c)) ids), pool') /\
    gres_put (lc_res c) i (set_mr_convert_q q a) = Done g1 /\ lock_ok mine litems (mk_lctx pool' g1) /\
    lock_same_but (mr_res_id a) c (mk_lctx pool' g1) /\
    lock_view (mk_lctx pool' g1) (mr_res_id a) = Some (strip (set_mr_convert_q q a), []) /\
    gres_lookup g1 (mr_res_id a) = Done (Some i).
Proof.
  intros Hst Hi Ha Hids. pose proof (ls_wf _ _ _ _ _ Hst) as Hwf. pose proof (gw_inv _ _ _ _ Hwf _ _ _ Hi Ha Hids) as Hinv.
  pose proof (gwf_queue lock_inv Hwf i a ids Ha Hids) as Hq. cbn in Hq.
  destruct (clean_spec failed (lc_pool c) _ (mr_convert_q a) ids _ Hq) as (q & pool' & Hrun & Hq' & Hfr).
  destruct (lock_st_update Q gh mine litems c i a (set_mr_convert_q q a) ids [] pool' (reverse ids ++ gg_lfree gh) Hst Hi Ha Hids)
    as (g1 & Hput & Hst1 & Hit1 & Hsb & Hvk); try done.
  { destruct Hinv. constructor; cbn; eauto; done. }
  exists q, pool', g1. split_and!; try done; [by eexists |].
  apply (lock_st_lookup Q _ _ _ (mk_lctx pool' g1) i (set_mr_convert_q q a) Hst1); [done |]. cbn. rewrite Hit1. apply lookupZ_insertZ_eq. by eapply lookupZ_lt.
Qed.

(** Cancelling the conversion of the failed instance, if it is its. *)
Lemma cancel_failed failed mine litems c k a i :
  lock_ok mine litems c -> failed <> CT_INVALID_ID8 -> lock_view c k = Some (a, []) -> gres_lookup (lc_res c) k = Done (Some i) ->
  exists c' a', (if req_inst_id (lock_conv a) =? failed
      then '(_, c) ← drc_cancel_lock_owner_request failed k c; Done c else Done c) = Done c' /\
    lock_ok mine litems c' /\ lock_same_but k c c' /\ lock_view c' k = Some (a', []) /\
    gres_lookup (lc_res c') k = Done (Some i) /\ mr_granted_map a' = mr_granted_map a /\ req_inst_id (lock_conv a') <> failed.
Proof.
  intros Hok Hne Hv Hl. pose proof (cancel_lock_spec Q failed k mine litems c Hok Hne) as Hc. rewrite Hv in Hc.
  destruct Hc as (c2 & Hrun & Hok2 & Hsb2 & Hl2 & Hcase).
  destruct (Z.eqb_spec (req_inst_id (lock_conv a)) failed) as [E | E]; [| by exists c, a].
  destruct Hcase as (a2 & Hv2 & _ & Hg2 & Hn2 & _). exists c2, a2.
  rewrite Hrun. ostep. split_and!; try done; [by rewrite Hl2 |]. cbn in Hn2. rewrite Hn2. congruence.
Qed.

(** What is left of a lock after instance [failed] has gone. *)
Definition lock_forgotten (failed : Z) (k : drid_t) (a : drc_master_res) (c' : lock_ctx) : Prop :=
  match lock_view c' k with
  | None => inst_set (mr_granted_map a) ⊆ {[failed]}
  | Some (a', rs') => rs' = [] /\ req_inst_id (lock_conv a') <> failed /\
      inst_set (mr_granted_map a') = inst_set (mr_granted_map a) ∖ {[failed]}
  end.

(** C36: cleaning a lock after instance [failed] left empties its
    queue, answering the waiting requests of other instances with errors,
    cancels the conversion of the failed instance and takes it out of the
    owners; the lock goes only when no other instance has it, and all other
    locks stay as they are. *)
Theorem clean_lock_owner_forgets failed mine litems c k a rs i :
  lock_ok mine litems c -> inst_ok failed -> lock_view c k = Some (a, rs) -> gres_lookup (lc_res c) k = Done (Some i) ->
  exists c', clean_lock_owner failed i c = Done (errors_for failed rs, c') /\ lock_ok mine litems c' /\ lock_same_but k c c' /\
    lock_forgotten failed k a c'.
Proof.
  intros Hok Hf Hview Hlook. pose proof (inst_ok_ne _ Hf) as Hfne. pose proof (lock_view_cases _ _ _ _ k Hok) as Hv. rewrite Hview in Hv.
  destruct Hv as (gh & j & a0 & ids & Hst & Hl & Hi & Hget & Ha & Hids & <- & -> & -> & Hinv & _). rewrite Hl in Hlook. injection Hlook as <-.
  unfold clean_lock_owner. rewrite Hget. ostep.
  destruct (clean_queue_st failed gh mine litems c j a0 ids Hst Hi Ha Hids) as (q & pool1 & g1 & -> & Hput & Hok1 & Hsb1 & Hv1 & Hl1).
  ostep. rewrite Hput. ostep. set (c1 := mk_lctx pool1 g1) in *.
  destruct (cancel_failed failed mine litems c1 (mr_res_id a0) (strip (set_mr_convert_q q a0)) j Hok1 Hfne Hv1 Hl1)
    as (c2 & a2 & Hrun2 & Hok2 & Hsb2 & Hv2 & Hl2 & Hg2 & Hc2).
  change (lock_conv (strip (set_mr_convert_q q a0))) with (lock_conv a0) in Hrun2. rewrite Hrun2. ostep.
  pose proof (lock_view_cases _ _ _ _ (mr_res_id a0) Hok2) as Hvc. rewrite Hv2 in Hvc.
  destruct Hvc as (gh2 & j2 & a3 & ids2 & _ & Hl3 & _ & Hget3 & _ & _ & Hk3 & -> & _ & Hinv3 & _). rewrite Hl2 in Hl3. injection Hl3 as <-.
  rewrite Hget3. ostep. rewrite drc_bitmap64_exist_Done by (apply Hinv3 || done). ostep.
  change (mr_granted_map (strip a3)) with (mr_granted_map a3) in Hg2. change (lock_conv (strip a3)) with (lock_conv a3) in Hc2. rewrite Hg2, Hk3.
  pose proof (release_lock_spec Q failed (mr_res_id a0) mine litems c2 Hok2 Hf) as Hrel. rewrite Hv2 in Hrel.
  change (mr_granted_map (strip a3)) with (mr_granted_map a3) in Hrel. rewrite Hg2 in Hrel.
  assert (Hsb : forall c', lock_same_but (mr_res_id a0) c2 c' -> lock_same_but (mr_res_id a0) c c').
  { intros c' Hs k Hk. rewrite Hs, Hsb2, Hsb1 by done. done. }
  unfold lock_forgotten. change (mr_granted_map (strip a0)) with (mr_granted_map a0). case_bool_decide as Hin.
  - rewrite decide_True in Hrel by done. destruct Hrel as (c' & -> & Hok' & Hsb' & Hau). ostep. ostep.
    exists c'. split; [done |]. split; [done |]. split; [by apply Hsb |]. unfold after_ungrant in Hau.
    change (mr_granted_map (strip a3)) with (mr_granted_map a3) in Hau. change (lock_conv (strip a3)) with (lock_conv a3) in Hau. rewrite Hg2 in Hau.
    destruct (decide _) as [[Hs _] | _]; [by rewrite Hau |]. destruct Hau as (a' & -> & Hg' & Hcv' & _). by rewrite Hcv'.
  - ostep. exists c2. split; [done |]. split; [done |]. split; [by apply Hsb |]. rewrite Hv2. split; [done |]. split; [done |].
    change (mr_granted_map (strip a3)) with (mr_granted_map a3). rewrite Hg2. by apply difference_not_in.
Qed.
End theorems.

(** ** The hypotheses hold on a small catalog *)

Module LockDemo.
Definition alone (rs ls : list Z) : Prop := rs = [] /\ ls = [].
Definition env : dtc_env :=
  mk_env REMASTER_DONE REFORM_DONE 1 DTC_WORKER false false true RECOVERY_FINISH (fun _ => false) [] (mk_drid 0 0 0 0) 7000000.

Definition raw_pool {A} : drc_res_pool A := mk_pool false 0 0 0 0 [] 0.
Definition raw_catalog : lock_catalog := mk_global (mk_map false raw_pool 0 []) [].

Definition lc0 : lock_ctx :=
  match drc_global_res_init raw_catalog 2 96 true true, drc_res_pool_init raw_pool 56 3 true with
  | Done (_, g), Done (_, p) => mk_lctx p g
  | _, _ => mk_lctx raw_pool raw_catalog
  end.

Lemma lc0_ok : lock_ok alone [] [] lc0.
Proof.
  destruct (lock_init_ok alone raw_catalog raw_pool 96 56 2 3) as (g & p & Hg & Hp & Hok & _); try done.
  unfold lc0. by rewrite Hg, Hp.
Qed.

Definition lk : drid_t := mk_drid 65538 7 0 0.
Definition req (inst mode now : Z) : drc_req_info := mk_req inst mode 0 0 inst 1 now 1 0 0.
Definition ans0 : lock_answer := mk_answer CT_ERROR false 0.

Lemma req_ok inst mode now : inst_ok inst -> mode_ok mode -> lock_req_ok (req inst mode now).
Proof. done. Qed.
Lemma lk_inst_0 : inst_ok 0.
Proof. done. Qed.
Lemma lk_inst_1 : inst_ok 1.
Proof. done. Qed.
Lemma lk_inst_2 : inst_ok 2.
Proof. done. Qed.
Lemma mode_s : mode_ok DRC_LOCK_SHARE.
Proof. done. Qed.
Lemma mode_x : mode_ok DRC_LOCK_EXCLUSIVE.
Proof. done. Qed.

Definition request (inst mode : Z) (c : lock_ctx) : lock_ctx :=
  match drc_request_lock_owner env [] lk (req inst mode 100) ans0 1 c with Done (_, c) => c | Crash _ => c end.
Definition claim (inst mode : Z) (c : lock_ctx) : lock_ctx :=
  match drc_claim_lock_owner env lk (mk_lclaim inst mode inst) 1 false c with Done (_, c) => c | Crash _ => c end.

Lemma lk_request_step inst mode c :
  lock_ok alone [] [] c -> inst_ok inst -> mode_ok mode -> ~ lock_pool_full c -> lock_step alone c (request inst mode c).
Proof.
  intros Hok Hi Hm Hf. unfold request.
  destruct (request_lock_ok alone env [] lk (req inst mode 100) ans0 1 [] [] c Hok) as (out & c' & Hrun & _);
    [exact (req_ok inst mode 100 Hi Hm) | constructor | exact (fun _ => Hf) |].
  rewrite Hrun. exact (lstep_request alone env [] lk (req inst mode 100) ans0 1 out c c' (req_ok inst mode 100 Hi Hm) (Forall_nil_2 _) (fun _ => Hf) Hrun).
Qed.

Lemma lk_claim_step inst mode c : 0 <= inst -> claim inst mode c <> c -> lock_step alone c (claim inst mode c).
Proof.
  intros Hi Hne. unfold claim in *. destruct (drc_claim_lock_owner env lk (mk_lclaim inst mode inst) 1 false c) as [[st c'] |] eqn:Hrun; [| destruct (Hne eq_refl)].
  exact (lstep_claim alone env lk (mk_lclaim inst mode inst) 1 false st c c' Hi Hrun).
Qed.

(** Node 1 gets the lock exclusively; node 0 converts to share; node 2 waits. *)
Definition lc1 : lock_ctx := request 1 DRC_LOCK_EXCLUSIVE lc0.
Definition lc2 : lock_ctx := claim 1 DRC_LOCK_EXCLUSIVE lc1.
Definition lc3 : lock_ctx := request 0 DRC_LOCK_SHARE lc2.
Definition lc4 : lock_ctx := request 2 DRC_LOCK_EXCLUSIVE lc3.

Definition grants (c : lock_ctx) : Z := match lock_view c lk with Some (a, _) => mr_granted_map a | None => 0 end.

Lemma step_01 : lock_step alone lc0 lc1.
Proof. apply lk_request_step; [apply lc0_ok | apply lk_inst_1 | apply mode_x | vm_compute; discriminate]. Qed.
Lemma lc1_ok : lock_ok alone [] [] lc1.
Proof. exact (lock_step_ok alone [] [] lc0 lc1 step_01 lc0_ok). Qed.
Lemma step_12 : lock_step alone lc1 lc2.
Proof. apply lk_claim_step; [lia |]. intros E. apply (f_equal grants) in E. vm_compute in E. discriminate E. Qed.
Lemma lc2_ok : lock_ok alone [] [] lc2.
Proof. exact (lock_step_ok alone [] [] lc1 lc2 step_12 lc1_ok). Qed.
Lemma lc3_ok : lock_ok alone [] [] lc3.
Proof.
  eapply lock_step_ok; [| apply lc2_ok].
  apply lk_request_step; [apply lc2_ok | apply lk_inst_0 | apply mode_s | vm_compute; discriminate].
Qed.
Lemma lc4_ok : lock_ok alone [] [] lc4.
Proof.
  eapply lock_step_ok; [| apply lc3_ok].
  apply lk_request_step; [apply lc3_ok | apply lk_inst_2 | apply mode_x | vm_compute; discriminate].
Qed.

Lemma reach_lc2 : exists g p, drc_global_res_init raw_catalog 2 96 true true = Done (CT_SUCCESS, g) /\
  drc_res_pool_init raw_pool 56 3 true = Done (CT_SUCCESS, p) /\ rtc (lock_step alone) (mk_lctx p g) lc2.
Proof.
  destruct (lock_init_ok alone raw_catalog raw_pool 96 56 2 3) as (g & p & Hg & Hp & _); try done.
  exists g, p. split; [done |]. split; [done |]. assert (E : lc0 = mk_lctx p g) by (unfold lc0; by rewrite Hg, Hp). rewrite <- E.
  exact (rtc_l _ _ _ _ step_01 (rtc_once _ _ step_12)).
Qed.

Example lc2_owner : option_map (fun v => (mr_mode v.1, mr_granted_map v.1)) (lock_view lc2 lk) = Some (DRC_LOCK_EXCLUSIVE, 2).
Proof. vm_compute. reflexivity. Qed.
Example lc4_waiting : option_map (fun v => (req_inst_id (lock_conv v.1), List.map req_inst_id v.2)) (lock_view lc4 lk) = Some (0, [2]).
Proof. vm_compute. reflexivity. Qed.

Lemma lock_reach_exclusive_witness :
  exists a rs, lock_view lc2 lk = Some (a, rs) /\ (rs <> [] -> req_inst_id (lock_conv a) <> CT_INVALID_ID8).
Proof.
  destruct (lock_view lc2 lk) as [[a rs] |] eqn:Hview; [| vm_compute in Hview; discriminate Hview]. exists a, rs. split; [reflexivity |].
  refine (proj2 (lock_reach_exclusive alone raw_catalog raw_pool 96 56 2 3 lc2 lk a rs 0 0 _ _ _ _ _ _ _ _ reach_lc2 Hview));
    try reflexivity; try (unfold block_header_size, CT_INVALID_ID32; lia). split; reflexivity.
Defined.

Lemma request_lock_start_correct_witness :
  lock_ok alone [] [] lc3 /\ exists i c', lock_request_start env lk (req 2 DRC_LOCK_EXCLUSIVE 100) ans0 1 lc3 = Done (LWait i, c').
Proof.
  split; [apply lc3_ok |].
  destruct (request_lock_start_correct alone env lk (req 2 DRC_LOCK_EXCLUSIVE 100) ans0 1 [] [] lc3 lc3_ok (req_ok 2 _ _ lk_inst_2 mode_x))
    as (step & c' & Hrun & _); [reflexivity | intros _; vm_compute; discriminate |].
  exists 0, c'. rewrite Hrun. vm_compute in Hrun. injection Hrun as <- _. reflexivity.
Defined.

Lemma request_lock_owner_safe_witness :
  lock_ok alone [] [] lc2 /\ exists out c', drc_request_lock_owner env [] lk (req 0 DRC_LOCK_SHARE 100) ans0 1 lc2 = Done (out, c').
Proof.
  split; [apply lc2_ok |].
  destruct (request_lock_owner_safe alone env [] lk (req 0 DRC_LOCK_SHARE 100) ans0 1 [] [] lc2 lc2_ok (req_ok 0 _ _ lk_inst_0 mode_s))
    as (out & c' & Hrun & _); [constructor | intros _; vm_compute; discriminate |]. exists out, c'. exact Hrun.
Defined.

Definition share_claim : lock_claim_info := mk_lclaim 0 DRC_LOCK_SHARE 0.

Lemma claim_lock_owner_correct_witness :
  exists a rs, lock_view lc4 lk = Some (a, rs) /\ lock_claim_ok share_claim a /\
    exists c', drc_claim_lock_owner env lk share_claim 1 false lc4 = Done (CT_SUCCESS, c').
Proof.
  destruct (lock_view lc4 lk) as [[a rs] |] eqn:Hview; [| vm_compute in Hview; discriminate Hview]. exists a, rs. split; [reflexivity |].
  assert (Hcl : lock_claim_ok share_claim a).
  { vm_compute in Hview. injection Hview as <- _. split; [reflexivity |]. split; [reflexivity |]. split; [vm_compute; discriminate |].
    right. left. apply (bool_decide_eq_false_1 (0 ∈ inst_set 2)). vm_compute. reflexivity. }
  split; [exact Hcl |].
  destruct (claim_lock_owner_correct alone env lk share_claim 1 false [] [] lc4 a rs lc4_ok Hview) as (c' & a' & Hrun & _);
    [reflexivity | exact Hcl |]. exists c'. exact Hrun.
Defined.

Lemma release_lock_owner_correct_witness :
  lock_ok alone [] [] lc2 /\ exists c', drc_release_lock_owner 1 lk lc2 = Done (CT_SUCCESS, c') /\ lock_view c' lk = None.
Proof.
  split; [apply lc2_ok |]. pose proof (release_lock_owner_correct alone 1 lk [] [] lc2 lc2_ok lk_inst_1) as Hr.
  destruct (lock_view lc2 lk) as [[a rs] |] eqn:Hview; [| vm_compute in Hview; discriminate Hview].
  rewrite decide_True in Hr.
  - destruct Hr as (c' & Hrun & _). exists c'. split; [exact Hrun |]. vm_compute in Hrun. injection Hrun as <-. vm_compute. reflexivity.
  - vm_compute in Hview. injection Hview as <- _. apply (bool_decide_eq_true_1 (1 ∈ inst_set 2)). vm_compute. reflexivity.
Defined.

Lemma cancel_lock_owner_request_correct_witness :
  lock_ok alone [] [] lc4 /\ exists c', drc_cancel_lock_owner_request 0 lk lc4 = Done (CT_SUCCESS, c').
Proof.
  split; [apply lc4_ok |]. assert (H0 : 0 <> CT_INVALID_ID8) by (unfold CT_INVALID_ID8; lia).
  pose proof (cancel_lock_owner_request_correct alone 0 lk [] [] lc4 lc4_ok H0) as Hr.
  destruct (lock_view lc4 lk) as [[a rs] |] eqn:Hview; [| vm_compute in Hview; discriminate Hview].
  destruct Hr as (c' & Hrun & _). exists c'. exact Hrun.
Defined.

Lemma recycle_dls_master_correct_witness :
  lock_ok alone [] [] lc2 /\ exists c', drc_recycle_dls_master env lk 1 1 lc2 = Done (CT_SUCCESS, c').
Proof.
  split; [apply lc2_ok |]. pose proof (recycle_dls_master_correct alone env lk 1 1 [] [] lc2 lc2_ok lk_inst_1 eq_refl) as Hr.
  destruct (lock_view lc2 lk) as [[a rs] |] eqn:Hview; [| vm_compute in Hview; discriminate Hview].
  destruct Hr as (c' & Hrun & _). exists c'. exact Hrun.
Defined.

Lemma try_request_lock_owner_correct_witness :
  lock_ok alone [] [] lc2 /\ exists ans c', drc_try_request_lock_owner env env lk (req 0 DRC_LOCK_SHARE 100) ans0 1 lc2 = Done (ans, c').
Proof.
  split; [apply lc2_ok |].
  destruct (try_request_lock_owner_correct alone env env lk (req 0 DRC_LOCK_SHARE 100) ans0 1 [] [] lc2 lc2_ok (req_ok 0 _ _ lk_inst_0 mode_s) eq_refl eq_refl)
    as (ans & c' & Hrun & _). exists ans, c'. exact Hrun.
Defined.

Lemma clean_lock_owner_forgets_witness :
  exists a rs, lock_view lc4 lk = Some (a, rs) /\ exists c', clean_lock_owner 1 0 lc4 = Done (errors_for 1 rs, c').
Proof.
  destruct (lock_view lc4 lk) as [[a rs] |] eqn:Hview; [| vm_compute in Hview; discriminate Hview]. exists a, rs. split; [reflexivity |].
  assert (Hl : gres_lookup (lc_res lc4) lk = Done (Some 0)) by (vm_compute; reflexivity).
  destruct (clean_lock_owner_forgets alone 1 [] [] lc4 lk a rs 0 lc4_ok lk_inst_1 Hview Hl) as (c' & Hrun & _). exists c'. exact Hrun.
Defined.
End LockDemo.
