(* ===== verification/LockSpec.v ===== *)
(** * The lock manager the lock catalog implements

    A specification of the lock master without pools, maps and lists: a lock
    has a mode, a set of owners, perhaps a request being converted, and
    requests that wait in order.  Each handler of the catalog is a step of it
    with the same reply (a forward simulation), so what holds of the
    specification holds of the catalog; the order in which requests are
    converted is proved this way.
    Source of the handlers: src/pkg/src/cluster/dtc_drc.c. *)

From stdpp Require Import prelude list gmap.
From S2P Require Import Prelude Bitmap ResPool DrcList ResMap ConvertQ GlobalRes DrcTypes DrcPage PageInv DrcLock LockProps LockThms.

Open Scope Z_scope.
Open Scope drc_scope.

(** ** The specification *)

Record alock := mk_alock {
  al_mode : Z;
  al_owners : gset Z;
  al_conv : option drc_req_info;
  al_queue : list drc_req_info;
}.

(** The handlers a lock master runs, with what they are asked. *)
Inductive lock_call :=
| Call_request (r : drc_req_info)
| Call_try (r : drc_req_info)
| Call_claim (inst mode : Z)
| Call_cancel (inst : Z)
| Call_release (inst : Z)
| Call_recycle (inst : Z).

(** What the caller learns: its request converts now, with the owners it has to
    ask first; it waits; it failed; the handler is done. *)
Inductive lock_reply := Converts (granted : bool) (owners : gset Z) | Waits | Failed | Handled.

Definition fresh_lock (r : drc_req_info) : alock := mk_alock DRC_LOCK_NULL ∅ (Some r) [].
Definition al_set_conv (r : drc_req_info) (l : alock) : alock := mk_alock (al_mode l) (al_owners l) (Some r) (al_queue l).
Definition al_enqueue (r : drc_req_info) (l : alock) : alock := mk_alock (al_mode l) (al_owners l) (al_conv l) (al_queue l ++ [r]).
Definition al_next (l : alock) : alock := mk_alock (al_mode l) (al_owners l) (head (al_queue l)) (tail (al_queue l)).
Definition al_grant (inst mode : Z) (l : alock) : alock :=
  mk_alock mode ({[inst]} ∪ (if mode =? DRC_LOCK_EXCLUSIVE then ∅ else al_owners l)) (al_conv l) (al_queue l).

(** [inst] is no owner any more; a lock nobody has and nobody converts is
    forgotten, and the mode may be forgotten with the last owner. *)
Inductive al_ungrant (inst : Z) (l : alock) : option alock -> Prop :=
| ungrant_drop : al_owners l ⊆ {[inst]} -> al_conv l = None -> al_ungrant inst l None
| ungrant_keep mode : ~ (al_owners l ⊆ {[inst]} /\ al_conv l = None) ->
    mode = al_mode l \/ mode = DRC_LOCK_NULL /\ al_owners l ∖ {[inst]} = ∅ ->
    al_ungrant inst l (Some (mk_alock mode (al_owners l ∖ {[inst]}) (al_conv l) (al_queue l))).

Definition conv_inst (l : alock) : option Z := req_inst_id <$> al_conv l.

Inductive spec_step : lock_call -> option alock -> lock_reply -> option alock -> Prop :=
| spec_new r call : call = Call_request r \/ call = Call_try r -> spec_step call None (Converts true ∅) (Some (fresh_lock r))
| spec_convert r l : al_conv l = None -> al_queue l = [] -> let ok := compatible (req_mode r) (al_mode l) in
    spec_step (Call_request r) (Some l) (Converts ok (if ok then ∅ else al_owners l)) (Some (al_set_conv r l))
| spec_try_convert r l : al_conv l = None -> al_queue l = [] ->
    spec_step (Call_try r) (Some l) (Converts (compatible (req_mode r) (al_mode l)) (al_owners l)) (Some (al_set_conv r l))
| spec_wait r l : al_conv l <> None -> req_inst_id r ∉ al_owners l -> spec_step (Call_request r) (Some l) Waits (Some (al_enqueue r l))
| spec_claim inst mode l r : al_conv l = Some r -> req_inst_id r = inst -> req_mode r = mode ->
    spec_step (Call_claim inst mode) (Some l) Handled (Some (al_next (al_grant inst mode l)))
| spec_cancel inst l : conv_inst l = Some inst -> spec_step (Call_cancel inst) (Some l) Handled (Some (al_next l))
| spec_cancel_other inst l : conv_inst l <> Some inst -> spec_step (Call_cancel inst) (Some l) Handled (Some l)
| spec_release inst l ol : inst ∈ al_owners l -> al_ungrant inst l ol -> spec_step (Call_release inst) (Some l) Handled ol
| spec_recycle inst l ol : al_ungrant inst l ol -> spec_step (Call_recycle inst) (Some l) Handled ol
| spec_recycle_none inst : spec_step (Call_recycle inst) None Handled None
(** An error has no effect. *)
| spec_failed call ol : spec_step call ol Failed ol.

(** ** The catalog as an implementation *)

Definition alock_of (v : drc_master_res * list drc_req_info) : alock :=
  mk_alock (mr_mode v.1) (inst_set (mr_granted_map v.1))
    (if decide (req_inst_id (lock_conv v.1) = CT_INVALID_ID8) then None else Some (lock_conv v.1)) v.2.

Definition abs (c : lock_ctx) (k : drid_t) : option alock := alock_of <$> lock_view c k.

Definition answer_reply (ans : lock_answer) : lock_reply :=
  match la_status ans with CT_SUCCESS => Converts (la_granted ans) (inst_set (la_old_owner_map ans)) | CT_ERROR => Failed end.
Definition step_reply (s : lock_request_step) : lock_reply := match s with LAnswer ans => answer_reply ans | LWait _ => Waits end.
Definition status_reply (st : status_t) : lock_reply := match st with CT_SUCCESS => Handled | CT_ERROR => Failed end.

(** What a message says besides the request itself: the initial answer, the
    reform version, and the two reads of the reform state. *)
Record call_env := mk_cenv { ce_env : dtc_env; ce_env' : dtc_env; ce_ans0 : lock_answer; ce_version : Z; ce_remaster : bool }.

Definition run_call (e : call_env) (k : drid_t) (call : lock_call) (c : lock_ctx) : outcome (lock_reply * lock_ctx) :=
  match call with
  | Call_request r => '(s, c) ← lock_request_start (ce_env e) k r (ce_ans0 e) (ce_version e) c; Done (step_reply s, c)
  | Call_try r => '(ans, c) ← drc_try_request_lock_owner (ce_env e) (ce_env' e) k r (ce_ans0 e) (ce_version e) c; Done (answer_reply ans, c)
  | Call_claim inst mode => '(st, c) ← drc_claim_lock_owner (ce_env e) k (mk_lclaim inst mode 0) (ce_version e) (ce_remaster e) c; Done (status_reply st, c)
  | Call_cancel inst => '(st, c) ← drc_cancel_lock_owner_request inst k c; Done (status_reply st, c)
  | Call_release inst => '(st, c) ← drc_release_lock_owner inst k c; Done (status_reply st, c)
  | Call_recycle inst => '(st, c) ← drc_recycle_dls_master (ce_env e) k (ce_version e) inst c; Done (status_reply st, c)
  end.

(** What the code relies on: requests and instances are valid, the lock pool
    has room for a request that must not fail, and a claim is for the request
    being converted, by an instance that is no owner or takes the lock
    exclusively (table locks apart). *)
Definition call_ok (k : drid_t) (call : lock_call) (c : lock_ctx) : Prop :=
  match call with
  | Call_request r => lock_req_ok r /\ (lock_view c k = None -> ~ lock_pool_full c)
  | Call_try r => lock_req_ok r
  | Call_claim inst mode => exists a rs, lock_view c k = Some (a, rs) /\ lock_claim_ok (mk_lclaim inst mode 0) a
  | Call_cancel inst => inst <> CT_INVALID_ID8
  | Call_release inst | Call_recycle inst => inst_ok inst
  end.

(** ** The simulation *)

Lemma abs_Some c k a rs : lock_view c k = Some (a, rs) -> abs c k = Some (alock_of (a, rs)).
Proof. unfold abs. by intros ->. Qed.
Lemma abs_None c k : lock_view c k = None -> abs c k = None.
Proof. unfold abs. by intros ->. Qed.

Lemma alock_eq v mode owners conv queue :
  mr_mode v.1 = mode -> inst_set (mr_granted_map v.1) = owners ->
  (if decide (req_inst_id (lock_conv v.1) = CT_INVALID_ID8) then None else Some (lock_conv v.1)) = conv -> v.2 = queue ->
  alock_of v = mk_alock mode owners conv queue.
Proof. by intros <- <- <- <-. Qed.

Lemma conv_of_req r : lock_req_ok r -> (if decide (req_inst_id r = CT_INVALID_ID8) then None else Some r) = Some r.
Proof. intros [Hi _]. by rewrite decide_False by (by apply inst_ok_ne). Qed.

Lemma conv_none a rs : req_inst_id (lock_conv a) = CT_INVALID_ID8 <-> al_conv (alock_of (a, rs)) = None.
Proof. cbn. by destruct (decide _). Qed.

Lemma conv_inst_of a rs inst : inst <> CT_INVALID_ID8 -> conv_inst (alock_of (a, rs)) = Some inst <-> req_inst_id (lock_conv a) = inst.
Proof. intros Hi. unfold conv_inst. cbn. destruct (decide _) as [E | E]; cbn; split; congruence. Qed.

Section simulation.
Context (Q : list Z -> list Z -> Prop).
Abbreviation lock_ok := (lock_ok Q).

(** Whoever converts next is the head of the queue. *)
Lemma next_conv rs a' : Forall lock_req_ok rs -> next_converts rs a' ->
  (if decide (req_inst_id (lock_conv a') = CT_INVALID_ID8) then None else Some (lock_conv a')) = head rs.
Proof.
  destruct rs as [| r rs]; cbn; [intros _ E; by rewrite decide_True |]. intros [Hr _]%Forall_cons ->. by apply conv_of_req.
Qed.

Lemma ungrant_abs inst k mine litems c c' a rs :
  lock_ok mine litems c -> lock_view c k = Some (a, rs) -> after_ungrant inst k a rs c' -> al_ungrant inst (alock_of (a, rs)) (abs c' k).
Proof.
  intros Hok Hv Hau. unfold after_ungrant in Hau. destruct (decide _) as [[Hs Hc] | Hn].
  - rewrite (abs_None _ _ Hau). constructor; [exact Hs | by apply conv_none].
  - destruct Hau as (a' & Hv' & Hg & Hcv & Hm). rewrite (abs_Some _ _ _ _ Hv').
    rewrite (alock_eq (a', rs) (mr_mode a') (al_owners (alock_of (a, rs)) ∖ {[inst]}) (al_conv (alock_of (a, rs))) (al_queue (alock_of (a, rs))));
      [| done | done | cbn; by rewrite Hcv | done].
    constructor; [by rewrite <- (conv_none a rs) |]. destruct Hm as [-> | [-> Hz]]; [by left | right]. split; [done |].
    cbn. rewrite <- Hg, Hz. apply inst_set_0.
Qed.

(** A request that converts at once. *)
Lemma converts_abs r is_try ans a a' k c' :
  lock_req_ok r -> lock_view c' k = Some (a', []) -> converts_now r is_try a ans a' ->
  answer_reply ans = Converts (compatible (req_mode r) (mr_mode a)) (if compatible (req_mode r) (mr_mode a) && negb is_try then ∅ else inst_set (mr_granted_map a)) /\
  abs c' k = Some (al_set_conv r (alock_of (a, []))).
Proof.
  intros Hr Hv (Hst & Hgr & Hold & Hcv & Hm & Hg & _). split.
  - unfold answer_reply. rewrite Hst, Hold, Hgr. f_equal. destruct (compatible _ _ && _); [apply inst_set_0 | done].
  - rewrite (abs_Some _ _ _ _ Hv). f_equal. apply alock_eq; cbn; [done | by rewrite Hg | rewrite Hcv; by apply conv_of_req | done].
Qed.

Lemma new_abs r k c' a' :
  lock_req_ok r -> lock_view c' k = Some (a', []) -> lock_conv a' = r -> mr_granted_map a' = 0 -> mr_mode a' = DRC_LOCK_NULL ->
  abs c' k = Some (fresh_lock r).
Proof.
  intros Hr Hv Hcv Hg Hm. rewrite (abs_Some _ _ _ _ Hv). f_equal.
  apply alock_eq; cbn; [done | rewrite Hg; apply inst_set_0 | rewrite Hcv; by apply conv_of_req | done].
Qed.

(** What a handler has to do: return, keep the catalog well formed, take a
    step of the specification on its lock and leave the others alone. *)
Definition simulates (mine litems : list Z) (e : call_env) (k : drid_t) (call : lock_call) (c : lock_ctx) : Prop :=
  exists rep c', run_call e k call c = Done (rep, c') /\ lock_ok mine litems c' /\ spec_step call (abs c k) rep (abs c' k) /\
    forall k', k' <> k -> abs c' k' = abs c k'.

Lemma same_but_abs k c c' : lock_same_but k c c' -> forall k', k' <> k -> abs c' k' = abs c k'.
Proof. intros Hs k' Hk. unfold abs. by rewrite (Hs k' Hk). Qed.

Lemma failed_simulates mine litems e k call c : lock_ok mine litems c -> run_call e k call c = Done (Failed, c) -> simulates mine litems e k call c.
Proof. intros Hok Hrun. exists Failed, c. split_and!; [done | done | constructor | done]. Qed.

Lemma request_simulates mine litems e k r c :
  lock_ok mine litems c -> call_ok k (Call_request r) c -> simulates mine litems e k (Call_request r) c.
Proof.
  intros Hok [Hr Hroom]. destruct (DRC_STOP_DLS_REQ_FOR_REFORMING (ce_version e) (ce_env e) k) eqn:Hstop.
  { apply failed_simulates; [done |]. cbn. unfold lock_request_start. by rewrite Hstop. }
  destruct (request_start_spec Q (ce_env e) k r (ce_ans0 e) (ce_version e) mine litems c Hok Hr Hstop Hroom) as (s & c' & Hrun & Hok' & Hsb & Hrule).
  exists (step_reply s), c'. split; [cbn; rewrite Hrun; by ostep |]. split; [done |]. split; [| by apply same_but_abs].
  destruct Hrule as [a' Hv Hv' Hcv Hg Hm | a a' ans Hv Hc Hv' Hnow | a rs m Hv Hc Hin Hcc | a rs a' i Hv Hc Hnin Hv' Hcv Hg Hm _ _ | a rs g m Hv Hc Hf Hv'].
  - rewrite (abs_None _ _ Hv), (new_abs r k c' a' Hr Hv' Hcv Hg Hm). unfold step_reply, answer_reply. cbn [la_status la_granted la_old_owner_map].
    rewrite inst_set_0. apply spec_new. by left.
  - cbn [step_reply]. rewrite (abs_Some _ _ _ _ Hv). destruct (converts_abs r false ans a a' k c' Hr Hv' Hnow) as [-> ->].
    cbn [negb]. rewrite andb_true_r. apply (spec_convert r (alock_of (a, []))); [by apply conv_none | done].
  - rewrite Hcc. apply spec_failed.
  - rewrite (abs_Some _ _ _ _ Hv), (abs_Some _ _ _ _ Hv').
    assert (alock_of (a', rs ++ [r]) = al_enqueue r (alock_of (a, rs))) as -> by (apply alock_eq; cbn; [done | by rewrite Hg | by rewrite Hcv | done]).
    apply spec_wait; [by rewrite <- conv_none | exact Hnin].
  - rewrite (abs_Some _ _ _ _ Hv), (abs_Some _ _ _ _ Hv'). apply spec_failed.
Qed.

Lemma try_simulates mine litems e k r c : lock_ok mine litems c -> lock_req_ok r -> simulates mine litems e k (Call_try r) c.
Proof.
  intros Hok Hr. destruct (dtc_is_in_rcy (ce_env e)) eqn:Hrcy.
  { apply failed_simulates; [done |]. cbn. unfold drc_try_request_lock_owner. by rewrite Hrcy. }
  destruct (DRC_STOP_DLS_REQ_FOR_REFORMING (ce_version e) (ce_env' e) k) eqn:Hstop.
  { apply failed_simulates; [done |]. cbn. unfold drc_try_request_lock_owner. by rewrite Hrcy, Hstop. }
  destruct (try_request_lock_spec Q (ce_env e) (ce_env' e) k r (ce_ans0 e) (ce_version e) mine litems c Hok Hr Hrcy Hstop) as (ans & c' & Hrun & Hok' & Hsb & Hcase).
  exists (answer_reply ans), c'. split; [cbn; rewrite Hrun; by ostep |]. split; [done |]. split; [| by apply same_but_abs].
  destruct (lock_view c k) as [[a rs] |] eqn:Hv.
  - rewrite (abs_Some _ _ _ _ Hv). destruct (Z.eqb_spec (req_inst_id (lock_conv a)) CT_INVALID_ID8) as [Hc | Hc].
    + pose proof (ki_idle _ _ (lock_view_inv _ _ _ _ _ _ _ Hok Hv) Hc) as ->. destruct Hcase as (a' & Hv' & Hnow).
      destruct (converts_abs r true ans a a' k c' Hr Hv' Hnow) as [-> ->]. cbn [negb]. rewrite andb_false_r.
      apply (spec_try_convert r (alock_of (a, []))); [by apply conv_none | done].
    + destruct Hcase as [Hst ->]. unfold answer_reply. rewrite Hst, (abs_Some _ _ _ _ Hv). apply spec_failed.
  - rewrite (abs_None _ _ Hv). destruct (decide (lock_pool_full c)).
    + destruct Hcase as [Hst Hv']. unfold answer_reply. rewrite Hst, (abs_None _ _ Hv'). apply spec_failed.
    + destruct Hcase as (-> & a' & Hv' & Hcv & Hg & Hm). rewrite (new_abs r k c' a' Hr Hv' Hcv Hg Hm). unfold answer_reply. cbn [la_status la_granted la_old_owner_map].
      rewrite inst_set_0. apply spec_new. by right.
Qed.

Lemma claim_simulates mine litems e k inst mode c :
  lock_ok mine litems c -> call_ok k (Call_claim inst mode) c -> simulates mine litems e k (Call_claim inst mode) c.
Proof.
  intros Hok (a & rs & Hv & Hcl). destruct (drc_lock_bucket_and_stat_with_version_check (ce_env e) k (ce_version e) (ce_remaster e)) eqn:Hver.
  2: { apply failed_simulates; [done |]. cbn. unfold drc_claim_lock_owner. by rewrite Hver. }
  destruct (claim_lock_spec Q (ce_env e) k _ (ce_version e) (ce_remaster e) mine litems c a rs Hok Hv Hver Hcl) as (c' & a' & Hrun & Hok' & Hsb & Hv' & Hgr & Hnext & _).
  exists Handled, c'. split; [cbn; rewrite Hrun; by ostep |]. split; [done |]. split; [| by apply same_but_abs].
  rewrite (abs_Some _ _ _ _ Hv), (abs_Some _ _ _ _ Hv'). destruct Hcl as (Hid & Hmo & Hne & _), Hgr as [Hm Hg]. cbn in Hid, Hmo, Hne, Hm, Hg.
  assert (alock_of (a', tail rs) = al_next (al_grant inst mode (alock_of (a, rs)))) as ->.
  { apply alock_eq; cbn; [done | done | | done]. apply next_conv; [exact (ki_queue _ _ (lock_view_inv _ _ _ _ _ _ _ Hok Hv)) | done]. }
  apply (spec_claim inst mode _ (lock_conv a)); [cbn; rewrite decide_False by congruence; done | done | done].
Qed.

Lemma cancel_simulates mine litems e k inst c : lock_ok mine litems c -> inst <> CT_INVALID_ID8 -> simulates mine litems e k (Call_cancel inst) c.
Proof.
  intros Hok Hi. pose proof (cancel_lock_spec Q inst k mine litems c Hok Hi) as Hsp. destruct (lock_view c k) as [[a rs] |] eqn:Hv.
  2: { apply failed_simulates; [done |]. cbn. rewrite Hsp. by ostep. }
  destruct Hsp as (c' & Hrun & Hok' & Hsb & _ & Hcase). exists Handled, c'. split; [cbn; rewrite Hrun; by ostep |]. split; [done |]. split; [| by apply same_but_abs].
  rewrite (abs_Some _ _ _ _ Hv). destruct (Z.eqb_spec (req_inst_id (lock_conv a)) inst) as [E | E].
  - destruct Hcase as (a' & Hv' & Hm & Hg & Hnext & _). rewrite (abs_Some _ _ _ _ Hv').
    assert (alock_of (a', tail rs) = al_next (alock_of (a, rs))) as ->.
    { apply alock_eq; cbn; [done | by rewrite Hg | | done]. apply next_conv; [exact (ki_queue _ _ (lock_view_inv _ _ _ _ _ _ _ Hok Hv)) | done]. }
    apply spec_cancel. by apply conv_inst_of.
  - rewrite Hcase, (abs_Some _ _ _ _ Hv). apply spec_cancel_other. by rewrite conv_inst_of.
Qed.

Lemma release_simulates mine litems e k inst c : lock_ok mine litems c -> inst_ok inst -> simulates mine litems e k (Call_release inst) c.
Proof.
  intros Hok Hi. pose proof (release_lock_spec Q inst k mine litems c Hok Hi) as Hsp. destruct (lock_view c k) as [[a rs] |] eqn:Hv.
  2: { apply failed_simulates; [done |]. cbn. rewrite Hsp. by ostep. }
  destruct (decide _) as [Hin | _]; [| apply failed_simulates; [done |]; cbn; rewrite Hsp; by ostep].
  destruct Hsp as (c' & Hrun & Hok' & Hsb & Hau). exists Handled, c'. split; [cbn; rewrite Hrun; by ostep |]. split; [done |]. split; [| by apply same_but_abs].
  rewrite (abs_Some _ _ _ _ Hv). apply spec_release; [exact Hin | exact (ungrant_abs _ _ _ _ _ _ _ _ Hok Hv Hau)].
Qed.

Lemma recycle_simulates mine litems e k inst c : lock_ok mine litems c -> inst_ok inst -> simulates mine litems e k (Call_recycle inst) c.
Proof.
  intros Hok Hi. destruct (DRC_STOP_DLS_REQ_FOR_REFORMING (ce_version e) (ce_env e) k) eqn:Hstop.
  { apply failed_simulates; [done |]. cbn. unfold drc_recycle_dls_master. by rewrite Hstop. }
  pose proof (recycle_master_spec Q (ce_env e) k (ce_version e) inst mine litems c Hok Hi Hstop) as Hsp. destruct (lock_view c k) as [[a rs] |] eqn:Hv.
  - destruct Hsp as (c' & Hrun & Hok' & Hsb & Hau). exists Handled, c'. split; [cbn; rewrite Hrun; by ostep |]. split; [done |]. split; [| by apply same_but_abs].
    rewrite (abs_Some _ _ _ _ Hv). apply spec_recycle. exact (ungrant_abs _ _ _ _ _ _ _ _ Hok Hv Hau).
  - exists Handled, c. split; [cbn; rewrite Hsp; by ostep |]. split; [done |]. split; [| done]. rewrite (abs_None _ _ Hv). apply spec_recycle_none.
Qed.

Lemma call_simulates mine litems e k call c : lock_ok mine litems c -> call_ok k call c -> simulates mine litems e k call c.
Proof.
  destruct call; intros Hok Hc; [by apply request_simulates | by apply try_simulates | by apply claim_simulates | by apply cancel_simulates |
    by apply release_simulates | by apply recycle_simulates].
Qed.

(** C4: each handler of the lock master, called as the code calls it on a well-formed catalog, returns
    without a crash, keeps the catalog well formed, and does on the lock it is for exactly a step of the abstract lock
    manager, with the reply that step gives; the state of every other lock stays as it is. *)
Theorem lock_catalog_refines mine litems e k call c :
  lock_ok mine litems c -> call_ok k call c ->
  exists rep c', run_call e k call c = Done (rep, c') /\ lock_ok mine litems c' /\ spec_step call (abs c k) rep (abs c' k) /\
    forall k', k' <> k -> abs c' k' = abs c k'.
Proof. apply call_simulates. Qed.

(** ** Runs and their traces *)

(** One call for the lock of a trace: what was asked, the reply, and the
    request that was being converted when the call came. *)
Record event := mk_event { ev_call : lock_call; ev_reply : lock_reply; ev_conv : option drc_req_info }.

(** The calls for lock [k] that a run made, the last one first. *)
Inductive catalog_run (k : drid_t) (c0 : lock_ctx) : list event -> lock_ctx -> Prop :=
| run_nil : catalog_run k c0 [] c0
| run_call_k tr c e call rep c' : catalog_run k c0 tr c -> call_ok k call c -> run_call e k call c = Done (rep, c') ->
    catalog_run k c0 (mk_event call rep (abs c k ≫= al_conv) :: tr) c'
| run_call_other tr c e k' call rep c' : catalog_run k c0 tr c -> k' <> k -> call_ok k' call c -> run_call e k' call c = Done (rep, c') -> catalog_run k c0 tr c'.

Inductive spec_run : list event -> option alock -> Prop :=
| srun_nil : spec_run [] None
| srun_step tr ol call rep ol' : spec_run tr ol -> spec_step call ol rep ol' -> spec_run (mk_event call rep (ol ≫= al_conv) :: tr) ol'.

Lemma run_refines k mine litems c0 tr c :
  lock_ok mine litems c0 -> lock_view c0 k = None -> catalog_run k c0 tr c -> lock_ok mine litems c /\ spec_run tr (abs c k).
Proof.
  intros Hok0 Hv0. induction 1 as [| tr c e call rep c' _ [Hok Hs] Hc Hrun | tr c e k' call rep c' _ [Hok Hs] Hk Hc Hrun].
  - split; [done |]. rewrite (abs_None _ _ Hv0). constructor.
  - destruct (call_simulates mine litems e k call c Hok Hc) as (rep2 & c2 & Hrun2 & Hok2 & Hstep & _).
    pose proof (eq_trans (eq_sym Hrun) Hrun2) as E. apply Done_inj in E. apply pair_eq in E as [<- <-]. split; [done |]. by constructor.
  - destruct (call_simulates mine litems e k' call c Hok Hc) as (rep2 & c2 & Hrun2 & Hok2 & _ & Hsame).
    pose proof (eq_trans (eq_sym Hrun) Hrun2) as E. apply Done_inj in E. apply pair_eq in E as [_ <-]. split; [done |].
    by rewrite (Hsame k (fun E => Hk (eq_sym E))).
Qed.

(** ** Requests are converted in the order they were accepted *)

(** The request a call brings in: one that converts at once or waits. *)
Definition accepted_one (x : event) : list drc_req_info :=
  match ev_call x, ev_reply x with
  | (Call_request r | Call_try r), (Converts _ _ | Waits) => [r]
  | _, _ => []
  end.

(** The request a call takes out: the converting one, when its instance claims
    the lock in the mode it asked for, or when its instance gives it up. *)
Definition ended_one (x : event) : list drc_req_info :=
  match ev_call x, ev_reply x, ev_conv x with
  | Call_claim inst mode, Handled, Some r => if decide (req_inst_id r = inst /\ req_mode r = mode) then [r] else []
  | Call_cancel inst, Handled, Some r => if decide (req_inst_id r = inst) then [r] else []
  | _, _, _ => []
  end.

(** The requests that were accepted and those that ended, the oldest first. *)
Definition accepted (tr : list event) : list drc_req_info := concat (map accepted_one (rev tr)).
Definition ended (tr : list event) : list drc_req_info := concat (map ended_one (rev tr)).

Lemma trace_snoc (f : event -> list drc_req_info) x tr : concat (map f (rev (x :: tr))) = concat (map f (rev tr)) ++ f x.
Proof. cbn [rev]. rewrite map_app, concat_app. cbn. by rewrite app_nil_r. Qed.

(** The request being converted and those that wait. *)
Definition pending (ol : option alock) : list drc_req_info :=
  match ol with Some l => option_list (al_conv l) ++ al_queue l | None => [] end.

Definition al_wf (ol : option alock) : Prop := match ol with Some l => al_conv l = None -> al_queue l = [] | None => True end.

Lemma next_pending l r : al_conv l = Some r -> pending (Some l) = r :: pending (Some (al_next l)).
Proof. intros E. cbn. rewrite E. by destruct (al_queue l). Qed.

Lemma next_wf l : al_wf (Some (al_next l)).
Proof. cbn. by destruct (al_queue l). Qed.

Lemma ungrant_pending inst l ol : al_wf (Some l) -> al_ungrant inst l ol -> al_wf ol /\ pending ol = pending (Some l).
Proof. intros Hwf [_ Hc | mode _ _]; [| done]. split; [done |]. cbn. by rewrite Hc, (Hwf Hc). Qed.

(** A step takes what it ends from the front and puts what it accepts at the end. *)
Lemma spec_step_pending call ol rep ol' : let ev := mk_event call rep (ol ≫= al_conv) in
  al_wf ol -> spec_step call ol rep ol' -> al_wf ol' /\ pending ol ++ accepted_one ev = ended_one ev ++ pending ol'.
Proof.
  intros ev Hwf Hs. subst ev.
  destruct Hs as [r call Hcall | r l Hc Hq | r l Hc Hq | r l Hc Hn | inst mode l r Hc Hi Hm | inst l Hc | inst l Hc | inst l ol Hin Hu | inst l ol Hu | inst | call ol].
  - split; [by cbn |]. by destruct Hcall as [-> | ->].
  - split; [by cbn |]. cbn. by rewrite Hc, Hq.
  - split; [by cbn |]. cbn. by rewrite Hc, Hq.
  - split; [by intros ?%Hc |]. cbn [pending accepted_one ended_one ev_call ev_reply ev_conv al_conv al_queue al_enqueue]. by rewrite <- app_assoc.
  - split; [apply next_wf |]. rewrite (next_pending l r Hc). cbn. rewrite Hc, decide_True by done. by rewrite app_nil_r.
  - split; [apply next_wf |]. unfold conv_inst in Hc. apply fmap_Some in Hc as (r & Hc & ->). rewrite (next_pending l r Hc). cbn.
    rewrite Hc, decide_True by done. by rewrite app_nil_r.
  - split; [done |]. cbn [accepted_one ended_one ev_call ev_reply ev_conv]. rewrite app_nil_r. cbn. unfold conv_inst in Hc. destruct (al_conv l) as [r |]; [| done].
    rewrite decide_False; [done |]. cbn in Hc. congruence.
  - destruct (ungrant_pending _ _ _ Hwf Hu) as [? ->]. split; [done |]. cbn. by rewrite app_nil_r.
  - destruct (ungrant_pending _ _ _ Hwf Hu) as [? ->]. split; [done |]. cbn. by rewrite app_nil_r.
  - done.
  - split; [done |]. by destruct call; cbn; rewrite app_nil_r.
Qed.

Lemma spec_run_pending tr ol : spec_run tr ol -> al_wf ol /\ accepted tr = ended tr ++ pending ol.
Proof.
  induction 1 as [| tr ol call rep ol' _ [Hwf IH] Hs]; [done |]. destruct (spec_step_pending call ol rep ol' Hwf Hs) as [Hwf' Hp]. split; [done |].
  unfold accepted, ended in *. rewrite !trace_snoc, IH, <- !app_assoc. by f_equal.
Qed.

(** C11: after any sequence of calls of the handlers on a lock that did not exist before, the requests accepted for
    the lock, in the order of their acceptance, are exactly those that ended, in the order they ended, followed by
    the one being converted and those that wait, in the order of the queue: a request ends only by being claimed by its
    instance in its mode, or cancelled, while it is the one being converted; so requests are converted first come, first
    served, and none is dropped, skipped or converted twice.  The handlers are request, try, claim, cancel, release and
    recycle in normal operation; the clean-up after failed instances and a waiter's polling are not calls of this run. *)
Theorem lock_requests_fifo k c0 tr c :
  lock_ok [] [] c0 -> lock_view c0 k = None -> catalog_run k c0 tr c -> accepted tr = ended tr ++ pending (abs c k).
Proof. intros Hok Hv Hrun. destruct (run_refines k [] [] c0 tr c Hok Hv Hrun) as [_ Hs]. apply (spec_run_pending tr _ Hs). Qed.
End simulation.

(** ** The hypotheses hold: three instances ask for a lock *)

Module SpecDemo.
Import LockDemo.

Definition cenv : call_env := mk_cenv env env ans0 1 false.
Definition x_by_1 : lock_call := Call_request (req 1 DRC_LOCK_EXCLUSIVE 100).
Definition s_by_0 : lock_call := Call_request (req 0 DRC_LOCK_SHARE 100).
Definition x_by_2 : lock_call := Call_request (req 2 DRC_LOCK_EXCLUSIVE 100).

(** A trace and the catalog after it, and one more call. *)
Definition go (call : lock_call) (x : list event * lock_ctx) : list event * lock_ctx :=
  match run_call cenv lk call x.2 with Done (rep, c) => (mk_event call rep (abs x.2 lk ≫= al_conv) :: x.1, c) | Crash _ => x end.

Lemma go_run call x : catalog_run lk lc0 x.1 x.2 -> call_ok lk call x.2 -> catalog_run lk lc0 (go call x).1 (go call x).2.
Proof.
  intros Hx Hc. unfold go. destruct (run_call cenv lk call x.2) as [[rep c] |] eqn:E; [| exact Hx].
  exact (run_call_k lk lc0 x.1 x.2 cenv call rep c Hx Hc E).
Qed.

Definition s0 : list event * lock_ctx := ([], lc0).
Definition s1 := go x_by_1 s0.
Definition s2 := go (Call_claim 1 DRC_LOCK_EXCLUSIVE) s1.
Definition s3 := go s_by_0 s2.
Definition s4 := go x_by_2 s3.

Lemma lc0_none : lock_view lc0 lk = None.
Proof. vm_compute. reflexivity. Qed.

Lemma request_fits inst mode c : inst_ok inst -> mode_ok mode -> (free_list (res_pool (res_map (lc_res c))) =? CT_INVALID_ID32) = false ->
  call_ok lk (Call_request (req inst mode 100)) c.
Proof. intros Hi Hm Hf. split; [exact (req_ok inst mode 100 Hi Hm) |]. intros _. exact (proj1 (Z.eqb_neq _ _) Hf). Qed.

Lemma s2_claim : call_ok lk (Call_claim 1 DRC_LOCK_EXCLUSIVE) s1.2.
Proof.
  cbn [call_ok]. destruct (lock_view s1.2 lk) as [[a rs] |] eqn:Hv; [| vm_compute in Hv; discriminate Hv]. exists a, rs. split; [reflexivity |].
  vm_compute in Hv. injection Hv as <- _. split; [reflexivity |]. split; [reflexivity |]. split; [vm_compute; discriminate | left; reflexivity].
Qed.

Lemma run_4 : catalog_run lk lc0 s4.1 s4.2.
Proof.
  apply go_run; [apply go_run; [apply go_run; [apply go_run; [constructor |] | exact s2_claim] |] |]; apply request_fits;
    try exact lk_inst_0; try exact lk_inst_1; try exact lk_inst_2; try exact mode_s; try exact mode_x; vm_compute; reflexivity.
Qed.

Example accepted_4 : map req_inst_id (accepted s4.1) = [1; 0; 2].
Proof. vm_compute. reflexivity. Qed.
Example pending_4 : map req_inst_id (pending (abs s4.2 lk)) = [0; 2].
Proof. vm_compute. reflexivity. Qed.

Lemma lock_requests_fifo_witness : accepted s4.1 = ended s4.1 ++ pending (abs s4.2 lk) /\ map req_inst_id (ended s4.1) = [1].
Proof. split; [apply (lock_requests_fifo alone lk lc0); [exact lc0_ok | exact lc0_none | exact run_4] | vm_compute; reflexivity]. Defined.

Lemma lock_catalog_refines_witness :
  exists rep c', run_call cenv lk x_by_2 lc3 = Done (rep, c') /\ spec_step x_by_2 (abs lc3 lk) rep (abs c' lk).
Proof.
  destruct (lock_catalog_refines alone [] [] cenv lk x_by_2 lc3 lc3_ok) as (rep & c' & Hrun & _ & Hs & _).
  - apply request_fits; [exact lk_inst_2 | exact mode_x | vm_compute; reflexivity].
  - exists rep, c'. split; [exact Hrun | exact Hs].
Defined.
End SpecDemo.
