(* ===== verification/DrcLocal.v ===== *)
(** * Local lock resources (dtc_drc.c)

    Every instance keeps one resource per distributed lock it uses: whether
    the instance owns the lock, whether a session of it has locked it, and the
    latch state.  The resource's own spin lock is state, since it is held
    across calls; the bucket lock is released before the handler returns, so a
    handler runs as one step.  Source: src/pkg/src/cluster/dtc_drc.c and
    dtc_drc.h. *)

From stdpp Require Import prelude list.
From S2P Require Import Prelude Bitmap ResPool ResMap KeyStore ConvertQ DrcTypes DrcLock.

Open Scope Z_scope.
Open Scope drc_scope.

(** ** Data *)

Definition LATCH_STATUS_IDLE : Z := 0.
Definition LATCH_STATUS_S : Z := 1.
Definition LATCH_STATUS_IX : Z := 2.
Definition LATCH_STATUS_X : Z := 3.

Record drc_local_latch := mk_latch { shared_count : Z; lstat : Z; lsid : Z; lock_mode : Z }.

Record drc_local_lock_res := mk_local {
  ll_next : Z;
  ll_idx : Z;
  ll_res_id : drid_t;
  is_owner : bool;
  is_locked : bool;
  ll_count : Z;
  ll_lock : Z;
  ll_lockc : Z;
  latch_stat : drc_local_latch;
}.

#[export] Instance local_latch_eq_dec : EqDecision drc_local_latch.
Proof. solve_decision. Defined.
#[export] Instance local_lock_res_eq_dec : EqDecision drc_local_lock_res.
Proof. solve_decision. Defined.

Definition set_ll_next (n : Z) (a : drc_local_lock_res) : drc_local_lock_res :=
  mk_local n (ll_idx a) (ll_res_id a) (is_owner a) (is_locked a) (ll_count a) (ll_lock a) (ll_lockc a) (latch_stat a).
Definition set_ll_lock (v : Z) (a : drc_local_lock_res) : drc_local_lock_res :=
  mk_local (ll_next a) (ll_idx a) (ll_res_id a) (is_owner a) (is_locked a) (ll_count a) v (ll_lockc a) (latch_stat a).
Definition set_ll_lockc (v : Z) (a : drc_local_lock_res) : drc_local_lock_res :=
  mk_local (ll_next a) (ll_idx a) (ll_res_id a) (is_owner a) (is_locked a) (ll_count a) (ll_lock a) v (latch_stat a).
Definition set_lock_stat (locked owner : bool) (a : drc_local_lock_res) : drc_local_lock_res :=
  mk_local (ll_next a) (ll_idx a) (ll_res_id a) owner locked (ll_count a) (ll_lock a) (ll_lockc a) (latch_stat a).
Definition set_latch_stat (l : drc_local_latch) (a : drc_local_lock_res) : drc_local_lock_res :=
  mk_local (ll_next a) (ll_idx a) (ll_res_id a) (is_owner a) (is_locked a) (ll_count a) (ll_lock a) (ll_lockc a) l.
Definition latch_with_stat (s : Z) (l : drc_local_latch) : drc_local_latch :=
  mk_latch (shared_count l) s (lsid l) (lock_mode l).

Definition zero_local : drc_local_lock_res :=
  mk_local 0 0 (mk_drid 0 0 0 0) false false 0 0 0 (mk_latch 0 0 0 0).

Definition is_same_local_lock (lock_id : drid_t) (r : drc_local_lock_res) : bool := is_same_drid (ll_res_id r) lock_id.

#[export, program] Instance local_ResItem : ResItem drc_local_lock_res :=
  {| item_next := ll_next; set_item_next := set_ll_next; item_zero := zero_local |}.
Solve Obligations with done.
Next Obligation. by intros []. Qed.

#[export, program] Instance local_ResKey : ResKey drc_local_lock_res drid_t :=
  {| key_of := ll_res_id; is_same_res := is_same_local_lock;
     bucket_hash k n := drc_resource_id_hash (drid_chars k) n |}.
Solve Obligations with done.
Next Obligation. intros. apply is_same_drid_spec. Qed.
Next Obligation. intros. by apply drc_resource_id_hash_range. Qed.

#[export, program] Instance local_StoreItem : StoreItem drc_local_lock_res drid_t := {| item_idx := ll_idx |}.
Solve Obligations with done.

Abbreviation local_map := (drc_res_map drc_local_lock_res).
Abbreviation local_view := (store_view (A := drc_local_lock_res) (K := drid_t)).

(** ** Creating and releasing *)

Definition new_local (lock_id : drid_t) (idx : Z) (old : drc_local_lock_res) : drc_local_lock_res :=
  mk_local CT_INVALID_ID32 idx lock_id false false 0 0 0 (mk_latch 0 LATCH_STATUS_IDLE 0 DRC_LOCK_NULL).

Definition drc_create_local_lock_res (m : local_map) (lock_id : drid_t) : outcome (option Z * local_map) :=
  store_create m lock_id (new_local lock_id).

(** memset to zero, then back to the pool *)
Definition drc_release_local_lock_res (m : local_map) (i : Z) : outcome local_map :=
  store_release m i (fun _ => zero_local).

(** ** Finding a resource; a missing one is created *)

Definition drc_get_local_resx_without_create (m : local_map) (lock_id : drid_t) : outcome (option Z) := map_lookup m lock_id.

Definition drc_get_local_resx (m : local_map) (lock_id : drid_t) : outcome (Z * local_map) :=
  lock_res ← map_lookup m lock_id;
  match (lock_res : option Z) with
  | Some i => Done (i, m)
  | None =>
      '(lock_res, m) ← drc_create_local_lock_res m lock_id;
      match (lock_res : option Z) with
      | Some i => Done (i, m)
      | None => Crash KnlPanic
      end
  end.

(** ** The spin lock of a resource

    [cm_spin_lock] returns once it has changed the word from 0 to 1.  The
    result [false] of a blocking acquisition stands for a thread that found
    the word set and still spins: nothing is changed. *)

Definition cm_spin_try_lock (v : Z) : bool * Z := if v =? 0 then (true, 1) else (false, v).

Definition drc_try_lock_local_resx (m : local_map) (i : Z) : outcome (bool * local_map) :=
  a ← arr_get (map_items m) i;
  let '(got, v) := cm_spin_try_lock (ll_lock a) in
  m ← map_put m i (set_ll_lock v a);
  Done (got, m).

Definition drc_lock_local_resx (m : local_map) (i : Z) : outcome (bool * local_map) := drc_try_lock_local_resx m i.

Definition drc_unlock_local_resx (m : local_map) (i : Z) : outcome local_map :=
  a ← arr_get (map_items m) i; map_put m i (set_ll_lock 0 a).

Definition drc_lock_local_res_count (m : local_map) (i : Z) : outcome (bool * local_map) :=
  a ← arr_get (map_items m) i;
  let '(got, v) := cm_spin_try_lock (ll_lockc a) in
  m ← map_put m i (set_ll_lockc v a);
  Done (got, m).

Definition drc_unlock_local_res_count (m : local_map) (i : Z) : outcome local_map :=
  a ← arr_get (map_items m) i; map_put m i (set_ll_lockc 0 a).

Definition drc_lock_local_res (m : local_map) (lock_id : drid_t) : outcome (bool * local_map) :=
  '(i, m) ← drc_get_local_resx m lock_id; drc_lock_local_resx m i.

Definition drc_try_lock_local_res (m : local_map) (lock_id : drid_t) : outcome (bool * local_map) :=
  '(i, m) ← drc_get_local_resx m lock_id; drc_try_lock_local_resx m i.

Definition drc_unlock_local_res (m : local_map) (lock_id : drid_t) : outcome local_map :=
  lock_res ← map_lookup m lock_id;
  match (lock_res : option Z) with
  | None => Crash KnlPanic
  | Some i => drc_unlock_local_resx m i
  end.

(** ** Reading and writing the state *)

Definition drc_get_local_lock_statx (m : local_map) (i : Z) : outcome (bool * bool) :=
  a ← arr_get (map_items m) i; Done (is_locked a, is_owner a).

Definition drc_set_local_lock_statx (m : local_map) (i : Z) (locked owner : bool) : outcome local_map :=
  a ← arr_get (map_items m) i; map_put m i (set_lock_stat locked owner a).

Definition drc_get_local_lock_stat (m : local_map) (lock_id : drid_t) : outcome (bool * bool * local_map) :=
  '(i, m) ← drc_get_local_resx m lock_id;
  a ← arr_get (map_items m) i;
  Done (is_locked a, is_owner a, m).

Definition drc_set_local_lock_stat (m : local_map) (lock_id : drid_t) (locked owner : bool) : outcome local_map :=
  '(i, m) ← drc_get_local_resx m lock_id;
  drc_set_local_lock_statx m i locked owner.

Definition drc_get_local_latch_statx (m : local_map) (i : Z) : outcome drc_local_latch :=
  a ← arr_get (map_items m) i; Done (latch_stat a).

Definition clean_local (a : drc_local_lock_res) : drc_local_lock_res :=
  set_latch_stat (mk_latch 0 LATCH_STATUS_IDLE 0 DRC_LOCK_NULL) (set_lock_stat false false a).

(** [None] while the resource's spin lock is taken. *)
Definition drc_clean_local_lock_res (m : local_map) (i : Z) : outcome (option local_map) :=
  '(got, m) ← drc_lock_local_resx m i;
  if negb got then Done None
  else a ← arr_get (map_items m) i;
       m ← map_put m i (clean_local a);
       m ← drc_unlock_local_resx m i;
       Done (Some m).

(** ** Recycling a local resource *)

(** The second component of the answer is [*is_found], which the caller sets to true. *)
Definition drc_lock_local_lock_res_by_id_for_recycle (e : dtc_env) (lock_id : drid_t) (req_version : Z) (m : local_map)
    : outcome (status_t * bool * local_map) :=
  if DRC_STOP_DLS_REQ_FOR_REFORMING req_version e lock_id then Done (CT_ERROR, true, m)
  else
    lock_res ← drc_get_local_resx_without_create m lock_id;
    match (lock_res : option Z) with
    | None => Done (CT_SUCCESS, false, m)
    | Some i =>
        '(got, m) ← drc_try_lock_local_resx m i;
        if negb got then Done (CT_ERROR, true, m)
        else
          a ← arr_get (map_items m) i;
          if is_locked a || negb (lstat (latch_stat a) =? LATCH_STATUS_IDLE) then
            m ← drc_unlock_local_resx m i;
            Done (CT_ERROR, true, m)
          else
            m ← map_put m i (set_latch_stat (latch_with_stat LATCH_STATUS_X (latch_stat a)) (set_lock_stat true (is_owner a) a));
            m ← drc_unlock_local_resx m i;
            Done (CT_SUCCESS, true, m)
    end.

(** [None] while the resource's spin lock is taken. *)
Definition drc_unlock_local_lock_res_by_id_for_recycle (lock_id : drid_t) (m : local_map) : outcome (option local_map) :=
  lock_res ← drc_get_local_resx_without_create m lock_id;
  match (lock_res : option Z) with
  | None => Done (Some m)
  | Some i =>
      '(got, m) ← drc_lock_local_resx m i;
      if negb got then Done None
      else
        a ← arr_get (map_items m) i;
        m ← map_put m i (set_latch_stat (latch_with_stat LATCH_STATUS_IDLE (latch_stat a)) (set_lock_stat false (is_owner a) a));
        m ← drc_unlock_local_resx m i;
        Done (Some m)
  end.

Definition drc_release_local_lock_res_by_id (lock_id : drid_t) (m : local_map) : outcome local_map :=
  lock_res ← drc_get_local_resx_without_create m lock_id;
  match (lock_res : option Z) with
  | None => Done m
  | Some i => m ← map_remove m lock_id; drc_release_local_lock_res m i
  end.

(** The answer of the remote master to MES_CMD_RECYCLE_DLS_MASTER: the message
    may not be sent, no answer may arrive, or it carries a status. *)
Inductive recycle_reply := SendFailed | RecvFailed | Replied (st : status_t).

Record dls_ctx := mk_dls { dl_local : local_map; dl_global : lock_ctx }.

Definition recycle_failed (lock_id : drid_t) (c : dls_ctx) : outcome (option (status_t * dls_ctx)) :=
  m ← drc_unlock_local_lock_res_by_id_for_recycle lock_id (dl_local c);
  Done (option_map (fun m => (CT_ERROR, mk_dls m (dl_global c))) m).

(** [meanwhile] is what the other sessions of this instance do to the local
    resources while the answer of a remote master is awaited. *)
Definition drc_recycle_lock_res (e : dtc_env) (part_master : Z -> Z) (self_id : Z) (reply : recycle_reply)
    (meanwhile : local_map -> local_map) (lock_id : drid_t) (req_version : Z) (c : dls_ctx)
    : outcome (option (status_t * dls_ctx)) :=
  let master_id := drc_get_lock_master_id part_master lock_id in
  '(st, is_found, m) ← drc_lock_local_lock_res_by_id_for_recycle e lock_id req_version (dl_local c);
  let c := mk_dls m (dl_global c) in
  match (st : status_t) with
  | CT_ERROR => Done (Some (CT_ERROR, c))
  | CT_SUCCESS =>
      if negb (is_found : bool) then Done (Some (CT_SUCCESS, c))
      else if master_id =? self_id then
        '(st, g) ← drc_recycle_dls_master e lock_id req_version self_id (dl_global c);
        let c := mk_dls (dl_local c) g in
        match (st : status_t) with
        | CT_ERROR => recycle_failed lock_id c
        | CT_SUCCESS => m ← drc_release_local_lock_res_by_id lock_id (dl_local c); Done (Some (CT_SUCCESS, mk_dls m (dl_global c)))
        end
      else
        match reply with
        | SendFailed => recycle_failed lock_id c
        | RecvFailed | Replied CT_ERROR => recycle_failed lock_id (mk_dls (meanwhile (dl_local c)) (dl_global c))
        | Replied CT_SUCCESS =>
            m ← drc_release_local_lock_res_by_id lock_id (meanwhile (dl_local c));
            Done (Some (CT_SUCCESS, mk_dls m (dl_global c)))
        end
  end.

(** drc_process_recycle_lock_master: the master's side of the message. *)
Definition drc_process_recycle_lock_master (e : dtc_env) (size_ok : bool) (lock_id : drid_t) (src_inst : Z) (c : lock_ctx)
    : outcome (option status_t * lock_ctx) :=
  if negb size_ok then Done (None, c)
  else '(ret, c) ← drc_recycle_dls_master e lock_id (trigger_version e) src_inst c; Done (Some ret, c).
