(* ===== verification/LocalThms.v ===== *)
(** * Local lock resources: properties

    Every handler is shown to act on the map from lock identifiers to local
    resources ([local_view]) as its code means to.  Source:
    src/pkg/src/cluster/dtc_drc.c. *)

From stdpp Require Import prelude list.
From S2P Require Import Prelude Bitmap ResPool DrcList ResMap ConvertQ KeyStore GlobalRes DrcTypes DrcPage PageInv DrcLock LockProps DrcLocal.

Open Scope Z_scope.
Open Scope drc_scope.

(** The two spin words of a resource are free or taken. *)
Definition spin_ok (v : Z) : Prop := v = 0 \/ v = 1.
Definition local_inv (a : drc_local_lock_res) : Prop := spin_ok (ll_lock a) /\ spin_ok (ll_lockc a).
Definition local_ok (m : local_map) : Prop := store_ok local_inv m.
Abbreviation local_same_but := (store_same_but (A := drc_local_lock_res) (K := drid_t)).

(** A change of the contents of a resource: link, index and identifier stay. *)
Definition content_fn (f : drc_local_lock_res -> drc_local_lock_res) : Prop :=
  forall n b, f (set_ll_next n b) = set_ll_next n (f b) /\ ll_next (f b) = ll_next b /\
    ll_idx (f b) = ll_idx b /\ ll_res_id (f b) = ll_res_id b.

(** [m'] differs from [m] in the contents under [k] only, which are now [b]. *)
Record local_became (k : drid_t) (b : drc_local_lock_res) (m m' : local_map) : Prop := mk_became {
  lb_ok : local_ok m';
  lb_but : local_same_but k m m';
  lb_view : local_view m' k = Some b;
  lb_lookup : forall k', map_lookup (K := drid_t) m' k' = map_lookup m k';
}.

Lemma became_trans k a b m1 m2 m3 : local_became k a m1 m2 -> local_became k b m2 m3 -> local_became k b m1 m3.
Proof.
  intros [? Hb1 ? Hl1] [? Hb2 ? Hl2]. constructor; try done.
  - intros k' Hk. by rewrite Hb2, Hb1.
  - intros k'. by rewrite Hl2, Hl1.
Qed.

(** Writing back what was there changes no view. *)
Lemma became_same k b m m' : local_became k b m m' -> local_view m k = Some b -> forall k', local_view m' k' = local_view m k'.
Proof. intros [_ Hb Hv _] Hm k'. destruct (decide (k' = k)) as [-> |]; [congruence | by apply Hb]. Qed.

Section local.
Context (m : local_map) (k : drid_t) (i : Z) (a : drc_local_lock_res).
Hypotheses (Hok : local_ok m) (Hl : map_lookup m k = Done (Some i)) (Hv : local_view m k = Some a).

Lemma local_at : exists b, (map_items m).[i] = Some b /\ bare b = a /\ local_inv a.
Proof.
  pose proof (store_cases local_inv m k Hok) as Hc. rewrite Hv in Hc. destruct Hc as (j & b & Hj & Hb & -> & _ & _ & HP).
  rewrite Hl in Hj. injection Hj as <-. by exists b.
Qed.

Lemma local_set f : content_fn f -> local_inv (f a) ->
  exists b m', (map_items m).[i] = Some b /\ bare b = a /\ map_put m i (f b) = Done m' /\ local_became k (f a) m m'.
Proof.
  intros Hf HP. destruct local_at as (b & Hb & <- & _). destruct (Hf 0 b) as (Hn & Hn' & Hi & Hr).
  assert (Hbare : bare (f b) = f (bare b)) by (unfold bare; exact (eq_sym Hn)).
  destruct (store_put local_inv m k i b (f b) Hok Hl Hb Hn' Hr Hi) as (m' & Hrun & Hok' & Hsb & Hv' & Hl' & _).
  { by rewrite Hbare. }
  exists b, m'. split; [done |]. split; [done |]. split; [done |]. constructor; try done. by rewrite Hv', Hbare.
Qed.

Lemma try_lock_resx_spec :
  exists m', drc_try_lock_local_resx m i = Done (ll_lock a =? 0, m') /\ local_became k (set_ll_lock 1 a) m m'.
Proof.
  destruct local_at as (b0 & Hb0 & Hbare & [Hs Hsc]).
  assert (Hsp : cm_spin_try_lock (ll_lock a) = (ll_lock a =? 0, 1)) by (destruct Hs as [-> | ->]; reflexivity).
  destruct (local_set (set_ll_lock 1)) as (b & m' & Hb & Hba & Hrun & Hbc); [done | split; [by right | done] |].
  exists m'. split; [| done]. unfold drc_try_lock_local_resx. rewrite (arr_get_eq _ _ _ Hb). ostep.
  assert (E : ll_lock b = ll_lock a) by (by rewrite <- Hba). rewrite E, Hsp, Hrun. ostep. done.
Qed.

Lemma unlock_resx_spec :
  exists m', drc_unlock_local_resx m i = Done m' /\ local_became k (set_ll_lock 0 a) m m'.
Proof.
  destruct local_at as (b0 & Hb0 & Hbare & [Hs Hsc]).
  destruct (local_set (set_ll_lock 0)) as (b & m' & Hb & Hba & Hrun & Hbc); [done | split; [by left | done] |].
  exists m'. split; [| done]. unfold drc_unlock_local_resx. by rewrite (arr_get_eq _ _ _ Hb).
Qed.

(** Change the contents, then free the spin lock. *)
Lemma set_unlock_spec f : content_fn f -> local_inv (f a) ->
  exists b m1 m2, (map_items m).[i] = Some b /\ bare b = a /\ map_put m i (f b) = Done m1 /\ drc_unlock_local_resx m1 i = Done m2 /\
    local_became k (set_ll_lock 0 (f a)) m m2.
Proof.
  intros Hf HP. destruct (local_set f Hf HP) as (b & m1 & Hb & Hba & Hrun & Hbc). exists b, m1.
  pose proof Hbc as [Hok1 _ Hv1 Hl1].
  assert (Hat : exists m2, drc_unlock_local_resx m1 i = Done m2 /\ local_became k (set_ll_lock 0 (f a)) m1 m2).
  { destruct HP as [Hs Hsc]. pose proof (store_cases local_inv m1 k Hok1) as Hc. rewrite Hv1 in Hc.
    destruct Hc as (j & b1 & Hj & Hb1 & Hbb & Hidx & Hkb & _). rewrite Hl1, Hl in Hj. injection Hj as <-.
    destruct (store_put local_inv m1 k i b1 (set_ll_lock 0 b1)) as (m2 & Hrun2 & Hok2 & Hsb2 & Hv2 & Hl2 & _); try done.
    { by rewrite Hl1. }
    { rewrite Hbb in Hs, Hsc. split; [by left | done]. }
    exists m2. split; [unfold drc_unlock_local_resx; by rewrite (arr_get_eq _ _ _ Hb1) |]. constructor; try done.
    rewrite Hv2. f_equal. by rewrite Hbb. }
  destruct Hat as (m2 & Hrun2 & Hbc2). exists m2. split_and!; try done. by eapply became_trans.
Qed.
End local.

Lemma local_lookup m k a : local_ok m -> local_view m k = Some a -> exists i, map_lookup m k = Done (Some i) /\ ll_idx a = i /\ ll_res_id a = k.
Proof.
  intros Hok Hv. pose proof (store_cases local_inv m k Hok) as Hc. rewrite Hv in Hc.
  destruct Hc as (i & b & Hi & _ & -> & Hidx & Hk & _). exists i. done.
Qed.

(** Getting a resource: the existing one, or a new idle one. *)
Lemma get_resx_spec m k :
  local_ok m -> (local_view m k = None -> ~ store_full m) ->
  exists i m', drc_get_local_resx m k = Done (i, m') /\ local_ok m' /\ local_same_but k m m' /\ map_lookup m' k = Done (Some i) /\
    local_view m' k = Some (match local_view m k with Some a => a | None => bare (new_local k i zero_local) end) /\
    (local_view m k <> None -> m' = m).
Proof.
  intros Hok Hfree. unfold drc_get_local_resx. pose proof (store_cases local_inv m k Hok) as Hc.
  destruct (local_view m k) as [a |] eqn:Hv.
  - destruct Hc as (i & b & Hl & _). rewrite Hl. ostep. exists i, m. split; [done |]. split; [done |]. split; [by intros ? |]. by rewrite Hv.
  - rewrite Hc. ostep. destruct (store_create_ok local_inv m k (new_local k)) as (i & b & m' & Hrun & Hok' & Hsb & _ & Hv' & Hl'); auto.
    { intros i b. split; [done |]. split; [done |]. split; by left. }
    unfold drc_create_local_lock_res. rewrite Hrun. ostep. by exists i, m'.
Qed.

(** ** Theorems *)

(** Getting the local resource of a lock returns the one there is,
    or creates one that is not owned, not locked and idle; other locks'
    resources are untouched, and getting it again returns the same one.  When
    the pool is exhausted a new one cannot be made and the process panics. *)
Theorem get_local_resx_correct m k :
  local_ok m ->
  if decide (local_view m k = None /\ store_full m) then drc_get_local_resx m k = Crash KnlPanic
  else exists i m', drc_get_local_resx m k = Done (i, m') /\ local_ok m' /\ local_same_but k m m' /\
    local_view m' k = Some (match local_view m k with Some a => a | None => bare (new_local k i zero_local) end) /\
    drc_get_local_resx m' k = Done (i, m') /\ drc_get_local_resx_without_create m' k = Done (Some i).
Proof.
  intros Hok. case_decide as Hd.
  - destruct Hd as [Hv Hfull]. pose proof (store_cases local_inv m k Hok) as Hc. rewrite Hv in Hc.
    unfold drc_get_local_resx, drc_create_local_lock_res. rewrite Hc. ostep.
    rewrite (store_create_full local_inv m k _ Hok Hfull). ostep. done.
  - destruct (get_resx_spec m k Hok) as (i & m' & Hrun & Hok' & Hsb & Hl & Hv & _); [by intros ? ?; apply Hd |].
    exists i, m'. split; [done |]. split; [done |]. split; [done |]. split; [done |].
    unfold drc_get_local_resx_without_create, drc_get_local_resx. rewrite Hl. ostep. done.
Qed.

(** The spin lock of a local resource excludes: once taken, a
    second attempt fails and changes nothing; releasing it restores the
    resource as it was, and releasing a lock that does not exist panics. *)
Theorem local_lock_excludes m k :
  local_ok m ->
  match local_view m k with
  | None => drc_unlock_local_res m k = Crash KnlPanic
  | Some a =>
      exists m1, drc_lock_local_res m k = Done (ll_lock a =? 0, m1) /\ local_became k (set_ll_lock 1 a) m m1 /\
        (exists m2, drc_try_lock_local_res m1 k = Done (false, m2) /\ forall k', local_view m2 k' = local_view m1 k') /\
        exists m3, drc_unlock_local_res m1 k = Done m3 /\ local_became k (set_ll_lock 0 a) m m3
  end.
Proof.
  intros Hok. destruct (local_view m k) as [a |] eqn:Hv.
  2: { pose proof (store_cases local_inv m k Hok) as Hc. rewrite Hv in Hc. unfold drc_unlock_local_res. by rewrite Hc. }
  assert (Hfr : local_view m k = None -> ~ store_full m) by (rewrite Hv; done).
  destruct (get_resx_spec m k Hok Hfr) as (i & m0 & Hget & _ & _ & Hl & _ & Hm0). rewrite Hv in Hm0. rewrite (Hm0 ltac:(done)) in Hget, Hl.
  destruct (try_lock_resx_spec m k i a Hok Hl Hv) as (m1 & Hrun1 & Hbc1). exists m1.
  split; [unfold drc_lock_local_res; rewrite Hget; ostep; exact Hrun1 |]. split; [done |].
  pose proof Hbc1 as [Hok1 _ Hv1 Hl1]. rewrite <- Hl1 in Hl.
  destruct (try_lock_resx_spec m1 k i _ Hok1 Hl Hv1) as (m2 & Hrun2 & Hbc2).
  destruct (unlock_resx_spec m1 k i _ Hok1 Hl Hv1) as (m3 & Hrun3 & Hbc3). split.
  - exists m2. split; [| by eapply became_same].
    unfold drc_try_lock_local_res, drc_get_local_resx. rewrite Hl. ostep. ostep. exact Hrun2.
  - exists m3. split; [unfold drc_unlock_local_res; rewrite Hl; ostep; exact Hrun3 |]. by eapply became_trans.
Qed.

(** What is stored as the state of a local lock is what is read
    back, and storing it changes nothing else of the resource and nothing of
    any other. *)
Theorem local_stat_roundtrip m k locked owner :
  local_ok m -> (local_view m k = None -> ~ store_full m) ->
  exists m' a, drc_set_local_lock_stat m k locked owner = Done m' /\ local_ok m' /\ local_same_but k m m' /\
    local_view m' k = Some (set_lock_stat locked owner a) /\
    (a = match local_view m k with Some a => a | None => bare (new_local k (ll_idx a) zero_local) end) /\
    drc_get_local_lock_stat m' k = Done (locked, owner, m').
Proof.
  intros Hok Hfree. destruct (get_resx_spec m k Hok Hfree) as (i & m1 & Hget & Hok1 & Hsb & Hl & Hv & _).
  set (a := match local_view m k with Some a => a | None => _ end) in Hv.
  destruct (local_at m1 k i a Hok1 Hl Hv) as (b0 & _ & _ & HP).
  destruct (local_set m1 k i a Hok1 Hl Hv (set_lock_stat locked owner)) as (b & m' & Hb & Hba & Hrun & Hbc); [done | done |].
  pose proof Hbc as [Hok' Hsb' Hv' Hl']. exists m', a. split.
  { unfold drc_set_local_lock_stat. rewrite Hget. ostep. unfold drc_set_local_lock_statx. rewrite (arr_get_eq _ _ _ Hb). ostep. exact Hrun. }
  split; [done |]. split; [intros k' Hk'; by rewrite Hsb', Hsb |]. split; [done |]. split.
  { subst a. by destruct (local_view m k). }
  unfold drc_get_local_lock_stat, drc_get_local_resx. rewrite <- Hl' in Hl. rewrite Hl. ostep. ostep.
  destruct (local_at m' k i _ Hok' Hl Hv') as (b' & Hb' & Hbb & _). rewrite (arr_get_eq _ _ _ Hb'). ostep.
  assert (E1 : is_locked b' = is_locked (bare b')) by done. assert (E2 : is_owner b' = is_owner (bare b')) by done.
  by rewrite E1, E2, Hbb.
Qed.

(** Cleaning a local resource whose spin lock is free leaves it
    without owner, unlocked and with an idle latch; while the spin lock is
    taken the cleaner waits. *)
Theorem clean_local_lock_res_correct m k i a :
  local_ok m -> local_view m k = Some a -> map_lookup m k = Done (Some i) ->
  if decide (ll_lock a = 0) then exists m', drc_clean_local_lock_res m i = Done (Some m') /\ local_became k (clean_local a) m m'
  else drc_clean_local_lock_res m i = Done None.
Proof.
  intros Hok Hv Hl. destruct (local_at m k i a Hok Hl Hv) as (b0 & _ & _ & HP).
  destruct (try_lock_resx_spec m k i a Hok Hl Hv) as (m1 & Hrun1 & Hbc1). pose proof Hbc1 as [Hok1 _ Hv1 Hl1]. rewrite <- Hl1 in Hl.
  unfold drc_clean_local_lock_res, drc_lock_local_resx. rewrite Hrun1. ostep.
  case_decide as Hz; [| by rewrite (proj2 (Z.eqb_neq _ _) Hz)]. rewrite Hz. cbn [Z.eqb negb].
  destruct (set_unlock_spec m1 k i _ Hok1 Hl Hv1 clean_local) as (b & m2 & m3 & Hb & Hba & Hput & Hun & Hbc3); [done | split; [by right | apply HP] |].
  rewrite (arr_get_eq _ _ _ Hb). ostep. rewrite Hput. ostep. rewrite Hun. ostep. exists m3. split; [done |].
  pose proof (became_trans _ _ _ _ _ _ Hbc1 Hbc3) as Hbc. replace (clean_local a) with (set_ll_lock 0 (clean_local (set_ll_lock 1 a))); [done |].
  unfold clean_local, set_ll_lock, set_lock_stat, set_latch_stat. cbn. by rewrite Hz.
Qed.

(** *** Recycling *)

(** A resource can be recycled when nobody uses it. *)
Definition recyclable (a : drc_local_lock_res) : bool :=
  (ll_lock a =? 0) && negb (is_locked a) && (lstat (latch_stat a) =? LATCH_STATUS_IDLE).

Definition claimed_for_recycle (a : drc_local_lock_res) : drc_local_lock_res :=
  set_latch_stat (latch_with_stat LATCH_STATUS_X (latch_stat a)) (set_lock_stat true (is_owner a) a).

Definition unclaimed (a : drc_local_lock_res) : drc_local_lock_res :=
  set_latch_stat (latch_with_stat LATCH_STATUS_IDLE (latch_stat a)) (set_lock_stat false (is_owner a) a).

Lemma recyclable_true a : recyclable a = true -> ll_lock a = 0 /\ is_locked a = false /\ lstat (latch_stat a) = LATCH_STATUS_IDLE.
Proof. unfold recyclable. rewrite !andb_true_iff, negb_true_iff, !Z.eqb_eq. tauto. Qed.

Lemma unclaimed_claimed a : recyclable a = true -> unclaimed (claimed_for_recycle a) = a.
Proof. intros (_ & H1 & H2)%recyclable_true. destruct a as [? ? ? ? ? ? ? ? [? ? ? ?]]. cbn in *. by subst. Qed.

Lemma set_ll_lock_id a : set_ll_lock (ll_lock a) a = a.
Proof. by destruct a. Qed.

Lemma claim_spec e k ver m :
  local_ok m -> DRC_STOP_DLS_REQ_FOR_REFORMING ver e k = false ->
  match local_view m k with
  | None => drc_lock_local_lock_res_by_id_for_recycle e k ver m = Done (CT_SUCCESS, false, m)
  | Some a =>
      let '(st, a') := if recyclable a then (CT_SUCCESS, claimed_for_recycle a) else (CT_ERROR, a) in
      exists m', drc_lock_local_lock_res_by_id_for_recycle e k ver m = Done (st, true, m') /\ local_became k a' m m'
  end.
Proof.
  intros Hok Hstop. unfold drc_lock_local_lock_res_by_id_for_recycle. rewrite Hstop. unfold drc_get_local_resx_without_create.
  pose proof (store_cases local_inv m k Hok) as Hc. destruct (local_view m k) as [a |] eqn:Hv; [| rewrite Hc; ostep; done].
  destruct Hc as (i & b0 & Hl & _ & _ & _ & _ & HP). rewrite Hl. ostep.
  destruct (try_lock_resx_spec m k i a Hok Hl Hv) as (m1 & -> & Hbc1). ostep. pose proof Hbc1 as [Hok1 _ Hv1 Hl1]. rewrite <- Hl1 in Hl.
  unfold recyclable. destruct (Z.eqb_spec (ll_lock a) 0) as [Hz | Hz]; cbn [andb negb].
  2: { exists m1. split; [done |]. destruct HP as [[? | E] _]; [done |]. by rewrite <- (set_ll_lock_id a) at 1; rewrite E. }
  assert (HP1 : local_inv (set_ll_lock 1 a)) by (split; [by right | apply HP]).
  destruct (local_at m1 k i _ Hok1 Hl Hv1) as (b1 & Hb1 & Hbb1 & _). rewrite (arr_get_eq _ _ _ Hb1). ostep.
  assert (E1 : is_locked b1 = is_locked a) by (change (is_locked b1) with (is_locked (bare b1)); by rewrite Hbb1).
  assert (E2 : lstat (latch_stat b1) = lstat (latch_stat a)) by (change (latch_stat b1) with (latch_stat (bare b1)); by rewrite Hbb1).
  rewrite E1, E2. destruct (is_locked a || negb (lstat (latch_stat a) =? LATCH_STATUS_IDLE)) eqn:Hbusy.
  - replace (negb (is_locked a) && (lstat (latch_stat a) =? LATCH_STATUS_IDLE)) with false
      by (destruct (is_locked a), (lstat (latch_stat a) =? LATCH_STATUS_IDLE); done).
    destruct (unlock_resx_spec m1 k i _ Hok1 Hl Hv1) as (m2 & -> & Hbc2). ostep. exists m2. split; [done |].
    pose proof (became_trans _ _ _ _ _ _ Hbc1 Hbc2) as Hbc. by rewrite <- (set_ll_lock_id a) at 1; rewrite Hz.
  - apply orb_false_iff in Hbusy as [Hlk Hst%negb_false_iff]. rewrite Hlk, Hst. cbn [negb andb].
    destruct (set_unlock_spec m1 k i _ Hok1 Hl Hv1 claimed_for_recycle) as (b & m2 & m3 & Hb & Hba & Hput & Hun & Hbc3); [done | done |].
    assert (b = b1) as -> by congruence. change (set_latch_stat _ _) with (claimed_for_recycle b1). rewrite Hput. ostep. rewrite Hun. ostep.
    exists m3. split; [done |]. pose proof (became_trans _ _ _ _ _ _ Hbc1 Hbc3) as Hbc.
    by replace (claimed_for_recycle a) with (set_ll_lock 0 (claimed_for_recycle (set_ll_lock 1 a))) by (destruct a; cbn in *; by subst).
Qed.

Lemma unclaim_spec m k a :
  local_ok m -> local_view m k = Some a -> ll_lock a = 0 ->
  exists m', drc_unlock_local_lock_res_by_id_for_recycle k m = Done (Some m') /\ local_became k (unclaimed a) m m'.
Proof.
  intros Hok Hv Hz. unfold drc_unlock_local_lock_res_by_id_for_recycle, drc_get_local_resx_without_create.
  destruct (local_lookup m k a Hok Hv) as (i & Hl & _). rewrite Hl. ostep. destruct (local_at m k i a Hok Hl Hv) as (b0 & _ & _ & HP).
  unfold drc_lock_local_resx. destruct (try_lock_resx_spec m k i a Hok Hl Hv) as (m1 & -> & Hbc1). ostep. rewrite Hz. cbn [Z.eqb negb].
  pose proof Hbc1 as [Hok1 _ Hv1 Hl1]. rewrite <- Hl1 in Hl.
  destruct (set_unlock_spec m1 k i _ Hok1 Hl Hv1 unclaimed) as (b & m2 & m3 & Hb & Hba & Hput & Hun & Hbc3); [done | split; [by right | apply HP] |].
  rewrite (arr_get_eq _ _ _ Hb). ostep. change (set_latch_stat _ _) with (unclaimed b). rewrite Hput. ostep. rewrite Hun. ostep.
  exists m3. split; [done |]. pose proof (became_trans _ _ _ _ _ _ Hbc1 Hbc3) as Hbc.
  by replace (unclaimed a) with (set_ll_lock 0 (unclaimed (set_ll_lock 1 a))) by (destruct a; cbn in *; by subst).
Qed.




Section recycle.
Context (Q : list Z -> list Z -> Prop) (mine litems : list Z).



End recycle.

(** Claiming a local resource for recycling and taking
    the claim back leaves every local resource as it was; a resource that is in
    use cannot be claimed, and trying to changes nothing. *)
Theorem recycle_claim_roundtrip e k ver m a :
  local_ok m -> DRC_STOP_DLS_REQ_FOR_REFORMING ver e k = false -> local_view m k = Some a ->
  exists m1, drc_lock_local_lock_res_by_id_for_recycle e k ver m = Done ((if recyclable a then CT_SUCCESS else CT_ERROR), true, m1) /\
    if recyclable a then
      local_view m1 k = Some (claimed_for_recycle a) /\
      (exists m2, drc_lock_local_lock_res_by_id_for_recycle e k ver m1 = Done (CT_ERROR, true, m2)) /\
      exists m3, drc_unlock_local_lock_res_by_id_for_recycle k m1 = Done (Some m3) /\ forall k', local_view m3 k' = local_view m k'
    else forall k', local_view m1 k' = local_view m k'.
Proof.
  intros Hok Hstop Hv. pose proof (claim_spec e k ver m Hok Hstop) as Hcl. rewrite Hv in Hcl. destruct (recyclable a) eqn:Hrec.
  - destruct Hcl as (m1 & -> & Hbc). exists m1. split; [done |]. pose proof Hbc as [Hok1 _ Hv1 _]. split; [done |]. split.
    + pose proof (claim_spec e k ver m1 Hok1 Hstop) as Hcl2. rewrite Hv1 in Hcl2.
      replace (recyclable (claimed_for_recycle a)) with false in Hcl2 by (unfold recyclable; cbn; by rewrite andb_false_r).
      destruct Hcl2 as (m2 & -> & _). by exists m2.
    + pose proof (recyclable_true _ Hrec) as (Hz & _ & _). destruct (unclaim_spec m1 k _ Hok1 Hv1 Hz) as (m3 & -> & Hbc3).
      exists m3. split; [done |]. rewrite (unclaimed_claimed _ Hrec) in Hbc3. by eapply became_same; [eapply became_trans |].
  - destruct Hcl as (m1 & -> & Hbc). exists m1. split; [done |]. by eapply became_same.
Qed.
