(* ===== verification/DrcTxn.v ===== *)
(** * Transaction waits (dtc_drc.c)

    The master of a transaction records the instances that wait for it
    ([txn_res_map]); ending the transaction sends each of them a wake-up
    message.  The waiting instance keeps a condition variable per transaction
    ([local_txn_map]).  Source: src/pkg/src/cluster/dtc_drc.c and dtc_drc.h. *)

From stdpp Require Import prelude list gmap.
From S2P Require Import Prelude Bitmap ResPool ResMap KeyStore DrcTypes.

Open Scope Z_scope.
Open Scope drc_scope.

(** ** Data *)

(** xid_t: the 64-bit value of the union *)
Record xid_t := mk_xid { xid_value : Z }.

#[export] Instance xid_eq_dec : EqDecision xid_t.
Proof. solve_decision. Defined.

(** The condition variable itself is memory of the thread library; the flag
    says whether it was initialised. *)
Record drc_txn_res := mk_txn { tx_next : Z; tx_idx : Z; tx_res_id : xid_t; ins_map : Z; is_cond_inited : bool }.

#[export] Instance txn_res_eq_dec : EqDecision drc_txn_res.
Proof. solve_decision. Defined.

Definition set_tx_next (n : Z) (a : drc_txn_res) : drc_txn_res :=
  mk_txn n (tx_idx a) (tx_res_id a) (ins_map a) (is_cond_inited a).
Definition set_ins_map (v : Z) (a : drc_txn_res) : drc_txn_res :=
  mk_txn (tx_next a) (tx_idx a) (tx_res_id a) v (is_cond_inited a).

Definition zero_txn : drc_txn_res := mk_txn 0 0 (mk_xid 0) 0 false.

Definition is_same_txn (xid : xid_t) (r : drc_txn_res) : bool := xid_value (tx_res_id r) =? xid_value xid.

#[export, program] Instance txn_ResItem : ResItem drc_txn_res :=
  {| item_next := tx_next; set_item_next := set_tx_next; item_zero := zero_txn |}.
Solve Obligations with done.
Next Obligation. by intros []. Qed.

#[export, program] Instance txn_ResKey : ResKey drc_txn_res xid_t :=
  {| key_of := tx_res_id; is_same_res := is_same_txn;
     bucket_hash k n := drc_resource_id_hash (le_chars 8 (xid_value k)) n |}.
Solve Obligations with done.
Next Obligation.
  intros [k] [? ? [v] ? ?]. unfold is_same_txn. cbn. rewrite Z.eqb_eq. split; [by intros -> | by intros [= ->]].
Qed.
Next Obligation. intros. by apply drc_resource_id_hash_range. Qed.

#[export, program] Instance txn_StoreItem : StoreItem drc_txn_res xid_t := {| item_idx := tx_idx |}.
Solve Obligations with done.

Abbreviation txn_map := (drc_res_map drc_txn_res).
Abbreviation txn_view := (store_view (A := drc_txn_res) (K := xid_t)).
Abbreviation txn_same_but := (store_same_but (A := drc_txn_res) (K := xid_t)).

(** ** Operations *)

(** [txn_res->next] is set when the item is linked; an item whose condition
    variable was never initialised gets it initialised here. *)
Definition new_txn (xid : xid_t) (idx : Z) (old : drc_txn_res) : drc_txn_res :=
  mk_txn (tx_next old) idx xid 0 (if negb (is_cond_inited old) then true else is_cond_inited old).

(** On [txn_res_map] or [local_txn_map], as the type argument says. *)
Definition drc_create_txn_res (m : txn_map) (xid : xid_t) : outcome (option Z * txn_map) :=
  store_create m xid (new_txn xid).

Definition drc_release_txn_res (m : txn_map) (i : Z) : outcome txn_map := store_release m i (fun _ => zero_txn).

Definition drc_release_local_txn_res (m : txn_map) (i : Z) : outcome txn_map := store_release m i (set_ins_map 0).

(** The shared head of [drc_enqueue_txn] and [drc_local_txn_wait]. *)
Definition txn_get_or_create (m : txn_map) (xid : xid_t) : outcome (Z * txn_map) :=
  txn_res ← map_lookup m xid;
  match (txn_res : option Z) with
  | Some i => Done (i, m)
  | None =>
      '(txn_res, m) ← drc_create_txn_res m xid;
      match (txn_res : option Z) with
      | Some i => Done (i, m)
      | None => Crash KnlPanic
      end
  end.

Definition drc_enqueue_txn (m : txn_map) (xid : xid_t) (ins_id : Z) : outcome txn_map :=
  '(i, m) ← txn_get_or_create m xid;
  a ← arr_get (map_items m) i;
  bm ← drc_bitmap64_set (ins_map a) ins_id;
  map_put m i (set_ins_map bm a).

(** The loop over the instances: the destinations of the wake-up messages, in order. *)
Fixpoint awake_loop (n : nat) (i : Z) (bm self : Z) : outcome (list Z) :=
  match n with
  | O => Done []
  | S n =>
      found ← drc_bitmap64_exist bm i;
      if (found : bool) && negb (self =? i) then sent ← awake_loop n (u8 (i + 1)) bm self; Done (i :: sent)
      else awake_loop n (u8 (i + 1)) bm self
  end.

Definition drc_release_txn (self : Z) (m : txn_map) (xid : xid_t) : outcome (list Z * txn_map) :=
  txn_res ← map_lookup m xid;
  match (txn_res : option Z) with
  | None => Done ([], m)
  | Some i =>
      a ← arr_get (map_items m) i;
      sent ← awake_loop (Z.to_nat CT_MAX_INSTANCES) 0 (ins_map a) self;
      m ← map_remove m xid;
      m ← drc_release_txn_res m i;
      Done (sent, m)
  end.

(** The item whose condition variable the session then waits on. *)
Definition drc_local_txn_wait (m : txn_map) (xid : xid_t) : outcome (Z * txn_map) := txn_get_or_create m xid.

Definition drc_local_txn_recyle (m : txn_map) (xid : xid_t) : outcome txn_map :=
  txn_res ← map_lookup m xid;
  match (txn_res : option Z) with
  | None => Done m
  | Some i => m ← map_remove m xid; drc_release_local_txn_res m i
  end.

(** The item whose condition variable is signalled, if there is one. *)
Definition drc_local_txn_awake (m : txn_map) (xid : xid_t) : outcome (option Z) := map_lookup m xid.

(** ** Properties *)

Definition txn_inv (a : drc_txn_res) : Prop := bitmap_ok (ins_map a) /\ is_cond_inited a = true.
Definition txn_ok (m : txn_map) : Prop := store_ok txn_inv m.

(** The instances recorded as waiting for a transaction. *)
Definition waiters (m : txn_map) (xid : xid_t) : gset Z :=
  match txn_view m xid with Some a => inst_set (ins_map a) | None => ∅ end.

Lemma get_or_create_spec m xid :
  txn_ok m -> (txn_view m xid = None -> ~ store_full m) ->
  exists i m' a, txn_get_or_create m xid = Done (i, m') /\ txn_ok m' /\ txn_same_but xid m m' /\ map_lookup m' xid = Done (Some i) /\
    txn_view m' xid = Some a /\ inst_set (ins_map a) = waiters m xid /\ (txn_view m xid <> None -> m' = m).
Proof.
  intros Hok Hfree. unfold txn_get_or_create, waiters. pose proof (store_cases txn_inv m xid Hok) as Hc.
  destruct (txn_view m xid) as [a |] eqn:Hv.
  - destruct Hc as (i & b & Hl & _). rewrite Hl. ostep. exists i, m, a. done.
  - rewrite Hc. ostep. destruct (store_create_ok txn_inv m xid (new_txn xid)) as (i & b & m' & Hrun & Hok' & Hsb & _ & Hv' & Hl'); auto.
    { intros i b. split; [done |]. split; [done |]. split; [done |]. by destruct b as [? ? ? ? []]. }
    unfold drc_create_txn_res. rewrite Hrun. ostep. eexists i, m', _. split_and!; done || apply inst_set_0.
Qed.

Lemma txn_enqueue_spec m xid ins :
  txn_ok m -> 0 <= ins < CT_MAX_INSTANCES -> (txn_view m xid = None -> ~ store_full m) ->
  exists m', drc_enqueue_txn m xid ins = Done m' /\ txn_ok m' /\ txn_same_but xid m m' /\ txn_view m' xid <> None /\
    waiters m' xid = {[ins]} ∪ waiters m xid.
Proof.
  intros Hok Hins Hfree. destruct (get_or_create_spec m xid Hok Hfree) as (i & m1 & a & Hget & Hok1 & Hsb1 & Hl1 & Hv1 & Hw & _).
  unfold drc_enqueue_txn. rewrite Hget. ostep.
  pose proof (store_cases txn_inv m1 xid Hok1) as Hc. rewrite Hv1 in Hc. destruct Hc as (j & b & Hl & Hb & -> & _ & _ & [Hbm Hci]).
  rewrite Hl1 in Hl. injection Hl as <-. rewrite (arr_get_eq _ _ _ Hb). ostep.
  destruct (drc_bitmap64_set_Done (ins_map b) ins Hbm) as (bm & -> & Hbm' & Hset & _); [done |]. ostep.
  destruct (store_put txn_inv m1 xid i b (set_ins_map bm b) Hok1 Hl1 Hb) as (m' & Hrun & Hok' & Hsb & Hv' & _); try done.
  exists m'. split; [done |]. split; [done |]. split; [intros k Hk; by rewrite Hsb, Hsb1 |]. split; [by rewrite Hv' |].
  unfold waiters at 1. rewrite Hv', <- Hw. exact Hset.
Qed.

(** The instances of a bitmap from [i] on, but [self], in ascending order. *)
Lemma awake_loop_spec n i bm self :
  bitmap_ok bm -> 0 <= i -> i + Z.of_nat n = CT_MAX_INSTANCES ->
  awake_loop n i bm self = Done (filter (fun j => j ∈ inst_set bm /\ j <> self) (seqZ i (Z.of_nat n))).
Proof.
  intros Hbm. revert i. induction n as [| n IH]; intros i Hi Hn; [done |]. unfold CT_MAX_INSTANCES in *.
  cbn [awake_loop]. rewrite (drc_bitmap64_exist_Done bm i) by (unfold CT_MAX_INSTANCES; lia). ostep.
  rewrite Nat2Z.inj_succ, seqZ_cons by lia. rewrite filter_cons.
  assert (Hnext : awake_loop n (u8 (i + 1)) bm self = Done (filter (fun j => j ∈ inst_set bm /\ j <> self) (seqZ (Z.succ i) (Z.pred (Z.succ (Z.of_nat n)))))).
  { rewrite u8_small by lia. rewrite IH by lia. by replace (Z.pred (Z.succ (Z.of_nat n))) with (Z.of_nat n) by lia. }
  rewrite Hnext. case_bool_decide as Hin; cbn [andb].
  - destruct (Z.eqb_spec self i) as [-> | Hne]; cbn [negb].
    + rewrite decide_False by tauto. done.
    + ostep. rewrite decide_True by (split; [done | congruence]). done.
  - rewrite decide_False by tauto. done.
Qed.

Lemma release_txn_spec self m xid :
  txn_ok m ->
  exists m', drc_release_txn self m xid = Done (filter (fun j => j ∈ waiters m xid /\ j <> self) (seqZ 0 CT_MAX_INSTANCES), m') /\
    txn_ok m' /\ txn_same_but xid m m' /\ txn_view m' xid = None.
Proof.
  intros Hok. unfold drc_release_txn, waiters. pose proof (store_cases txn_inv m xid Hok) as Hc.
  destruct (txn_view m xid) as [a |] eqn:Hv.
  - destruct Hc as (i & b & Hl & Hb & -> & _ & _ & [Hbm _]). rewrite Hl. ostep. rewrite (arr_get_eq _ _ _ Hb). ostep.
    rewrite awake_loop_spec by (done || (unfold CT_MAX_INSTANCES; lia)). ostep.
    destruct (store_drop_ok txn_inv m xid i b (fun _ => zero_txn) Hok Hl Hb) as (m1 & m2 & Hrem & Hrel & Hok2 & Hsb2 & Hv2 & _).
    rewrite Hrem. ostep. unfold drc_release_txn_res. rewrite Hrel. ostep. exists m2. done.
  - rewrite Hc. ostep. exists m. split; [| done]. by do 2 f_equal.
Qed.

(** Enqueuing a list of instances one after the other. *)
Fixpoint enqueue_all (m : txn_map) (xid : xid_t) (insts : list Z) : outcome txn_map :=
  match insts with [] => Done m | i :: insts => m ← drc_enqueue_txn m xid i; enqueue_all m xid insts end.

Lemma enqueue_all_spec m xid insts :
  txn_ok m -> Forall (fun i => 0 <= i < CT_MAX_INSTANCES) insts -> (txn_view m xid = None -> ~ store_full m) ->
  exists m', enqueue_all m xid insts = Done m' /\ txn_ok m' /\ txn_same_but xid m m' /\
    waiters m' xid = list_to_set insts ∪ waiters m xid.
Proof.
  revert m. induction insts as [| i insts IH]; intros m Hok His Hfree; cbn [enqueue_all].
  - exists m. split; [done |]. split; [done |]. split; [done |]. set_solver.
  - apply Forall_cons in His as [Hi His]. destruct (txn_enqueue_spec m xid i Hok Hi Hfree) as (m1 & -> & Hok1 & Hsb1 & Hv1 & Hw1). ostep.
    destruct (IH m1 Hok1 His) as (m' & -> & Hok' & Hsb' & Hw'); [done |]. exists m'. split; [done |]. split; [done |].
    split; [intros k Hk; by rewrite Hsb', Hsb1 |]. rewrite Hw', Hw1. set_solver.
Qed.

(** When a transaction ends, exactly the instances that enqueued
    for it, other than the master itself, are sent a wake-up message, each of
    them once; the transaction is forgotten and no other one is touched. *)
Theorem release_txn_wakes_waiters self m xid insts :
  txn_ok m -> txn_view m xid = None -> ~ store_full m -> Forall (fun i => 0 <= i < CT_MAX_INSTANCES) insts ->
  exists m1 sent m2, enqueue_all m xid insts = Done m1 /\ drc_release_txn self m1 xid = Done (sent, m2) /\
    NoDup sent /\ (forall i, i ∈ sent <-> i ∈ insts /\ i <> self) /\
    txn_ok m2 /\ forall xid', txn_view m2 xid' = txn_view m xid'.
Proof.
  intros Hok Hv Hfull His. destruct (enqueue_all_spec m xid insts Hok His (fun _ => Hfull)) as (m1 & Hrun1 & Hok1 & Hsb1 & Hw1).
  destruct (release_txn_spec self m1 xid Hok1) as (m2 & Hrun2 & Hok2 & Hsb2 & Hv2). eexists m1, _, m2. split; [done |]. split; [done |].
  split; [apply NoDup_filter, NoDup_seqZ |]. split; [| split; [done |]].
  - intros i. rewrite list_elem_of_filter, elem_of_seqZ, Hw1. unfold waiters. rewrite Hv, elem_of_union, elem_of_list_to_set, elem_of_empty.
    rewrite Forall_forall in His. split; [tauto |]. intros [Hi Hne]. specialize (His i Hi). split; [tauto | lia].
  - intros xid'. destruct (decide (xid' = xid)) as [-> |]; [congruence | by rewrite Hsb2, Hsb1].
Qed.

(** A session that waits for a transaction finds or makes one wait
    entry with an initialised condition variable, a wake-up signals that very
    entry, and recycling removes it, after which a wake-up finds nothing. *)
Theorem local_txn_wait_awake m xid :
  txn_ok m -> (txn_view m xid = None -> ~ store_full m) ->
  exists i m1 a m2, drc_local_txn_wait m xid = Done (i, m1) /\ txn_view m1 xid = Some a /\ is_cond_inited a = true /\
    drc_local_txn_wait m1 xid = Done (i, m1) /\ drc_local_txn_awake m1 xid = Done (Some i) /\
    drc_local_txn_recyle m1 xid = Done m2 /\ drc_local_txn_awake m2 xid = Done None /\ txn_ok m2 /\ txn_same_but xid m m2.
Proof.
  intros Hok Hfree. destruct (get_or_create_spec m xid Hok Hfree) as (i & m1 & a & Hget & Hok1 & Hsb1 & Hl1 & Hv1 & _).
  pose proof (store_cases txn_inv m1 xid Hok1) as Hc. rewrite Hv1 in Hc. destruct Hc as (j & b & Hl & Hb & Hab & _ & _ & [_ Hci]).
  rewrite Hl1 in Hl. injection Hl as <-.
  destruct (store_drop_ok txn_inv m1 xid i b (set_ins_map 0) Hok1 Hl1 Hb) as (m' & m2 & Hrem & Hrel & Hok2 & Hsb2 & Hv2 & _).
  exists i, m1, a, m2. split; [done |]. split; [done |]. split; [done |].
  split; [unfold drc_local_txn_wait, txn_get_or_create; by rewrite Hl1 |]. split; [done |]. split.
  - unfold drc_local_txn_recyle. rewrite Hl1. ostep. rewrite Hrem. ostep. exact Hrel.
  - split; [| split; [done |]; intros k Hk; by rewrite Hsb2, Hsb1].
    pose proof (store_cases txn_inv m2 xid Hok2) as Hc2. by rewrite Hv2 in Hc2.
Qed.
