(* ===== verification/LocalDemo.v ===== *)
(** * Local locks and transaction waits on small maps

    The properties of the local lock resources and of the transaction waits
    applied to maps of four items made by the initialiser. *)

From stdpp Require Import prelude list gmap.
From S2P Require Import Prelude Bitmap ResPool DrcList ResMap ConvertQ KeyStore GlobalRes DrcTypes DrcPage PageInv DrcLock LockProps LockThms DrcLocal LocalThms DrcTxn.

Open Scope Z_scope.
Open Scope drc_scope.

Module LocalDemo.

Definition result {A} (d : A) (o : outcome A) : A := match o with Done a => a | Crash _ => d end.
Definition raw_map {A} : drc_res_map A := mk_map false (mk_pool false 0 0 0 0 [] 0) 0 [].

(** ** Local locks *)

Definition lm0 : local_map := snd (result (CT_ERROR, raw_map) (drc_res_map_init raw_map 4 64 true true)).

Lemma lm0_facts : local_ok lm0 /\ ~ store_full lm0 /\ forall k, local_view lm0 k = None.
Proof.
  destruct (store_init local_inv raw_map 4 64) as (m & Hrun & Hok & Hf & Hv); [reflexivity | reflexivity | discriminate | lia |].
  unfold lm0. rewrite Hrun. exact (conj Hok (conj Hf Hv)).
Qed.

Definition lid : drid_t := mk_drid 65538 7 0 0.
Definition lm1 : local_map := snd (result (0, lm0) (drc_get_local_resx lm0 lid)).
Definition idle : drc_local_lock_res := bare (new_local lid 0 zero_local).

Lemma lm1_facts : local_ok lm1 /\ local_view lm1 lid = Some idle.
Proof.
  destruct lm0_facts as (Hok & Hf & Hv). destruct (get_resx_spec lm0 lid Hok (fun _ => Hf)) as (i & m & Hrun & Hok' & _).
  assert (E : lm1 = m) by (unfold lm1; rewrite Hrun; reflexivity). split; [rewrite E; exact Hok' | vm_compute; reflexivity].
Qed.

Lemma get_local_resx_correct_witness : exists i m', drc_get_local_resx lm0 lid = Done (i, m') /\ drc_get_local_resx m' lid = Done (i, m').
Proof.
  pose proof (get_local_resx_correct lm0 lid (proj1 lm0_facts)) as H. rewrite decide_False in H by (intros [_ Hf]; exact (proj1 (proj2 lm0_facts) Hf)).
  destruct H as (i & m' & Hrun & _ & _ & _ & Hagain & _). exists i, m'. split; [exact Hrun | exact Hagain].
Defined.

Lemma local_lock_excludes_witness : exists m1 m2, drc_lock_local_res lm1 lid = Done (true, m1) /\ drc_try_lock_local_res m1 lid = Done (false, m2).
Proof.
  pose proof (local_lock_excludes lm1 lid (proj1 lm1_facts)) as H. rewrite (proj2 lm1_facts) in H.
  destruct H as (m1 & Hlock & _ & (m2 & Htry & _) & _). exists m1, m2. split; [exact Hlock | exact Htry].
Defined.

Lemma local_stat_roundtrip_witness : exists m', drc_set_local_lock_stat lm0 lid true true = Done m' /\ drc_get_local_lock_stat m' lid = Done (true, true, m').
Proof.
  destruct lm0_facts as (Hok & Hf & _).
  destruct (local_stat_roundtrip lm0 lid true true Hok (fun _ => Hf)) as (m' & a & Hset & _ & _ & _ & _ & Hget). exists m'. split; [exact Hset | exact Hget].
Defined.

Lemma clean_local_lock_res_correct_witness : exists m', drc_clean_local_lock_res lm1 0 = Done (Some m').
Proof.
  assert (Hl : map_lookup lm1 lid = Done (Some 0)) by (vm_compute; reflexivity).
  pose proof (clean_local_lock_res_correct lm1 lid 0 idle (proj1 lm1_facts) (proj2 lm1_facts) Hl) as H. rewrite decide_True in H by reflexivity.
  destruct H as (m' & Hrun & _). exists m'. exact Hrun.
Defined.

Lemma stop_free : DRC_STOP_DLS_REQ_FOR_REFORMING 1 LockDemo.env lid = false.
Proof. vm_compute. reflexivity. Qed.

Lemma recycle_claim_roundtrip_witness : exists m1, drc_lock_local_lock_res_by_id_for_recycle LockDemo.env lid 1 lm1 = Done (CT_SUCCESS, true, m1).
Proof.
  destruct (recycle_claim_roundtrip LockDemo.env lid 1 lm1 idle (proj1 lm1_facts) stop_free (proj2 lm1_facts)) as (m1 & Hrun & _).
  exists m1. exact Hrun.
Defined.




(** ** Transactions *)

Definition tm0 : txn_map := snd (result (CT_ERROR, raw_map) (drc_res_map_init raw_map 4 40 true true)).
Definition xid1 : xid_t := mk_xid 4294967303.

Lemma tm0_facts : txn_ok tm0 /\ ~ store_full tm0 /\ forall k, txn_view tm0 k = None.
Proof.
  destruct (store_init txn_inv raw_map 4 40) as (m & Hrun & Hok & Hf & Hv); [reflexivity | reflexivity | discriminate | lia |].
  unfold tm0. rewrite Hrun. exact (conj Hok (conj Hf Hv)).
Qed.

Lemma release_txn_wakes_waiters_witness :
  exists m1 sent m2, enqueue_all tm0 xid1 [3; 1; 0; 3] = Done m1 /\ drc_release_txn 0 m1 xid1 = Done (sent, m2) /\ NoDup sent.
Proof.
  destruct tm0_facts as (Hok & Hf & Hv).
  destruct (release_txn_wakes_waiters 0 tm0 xid1 [3; 1; 0; 3] Hok (Hv xid1) Hf) as (m1 & sent & m2 & Henq & Hrel & Hnd & _);
    [apply (bool_decide_unpack _); vm_compute; exact I |].
  exists m1, sent, m2. split; [exact Henq |]. split; [exact Hrel | exact Hnd].
Defined.

Lemma local_txn_wait_awake_witness : exists i m1, drc_local_txn_wait tm0 xid1 = Done (i, m1) /\ drc_local_txn_awake m1 xid1 = Done (Some i).
Proof.
  destruct tm0_facts as (Hok & Hf & _).
  destruct (local_txn_wait_awake tm0 xid1 Hok (fun _ => Hf)) as (i & m1 & a & m2 & Hwait & _ & _ & _ & Hawake & _). exists i, m1. split; [exact Hwait | exact Hawake].
Defined.

End LocalDemo.
