(* ===== verification/Threads.v ===== *)
(** * Threads: programs made of atomic actions, and their interleavings

    A handler that gives up its locks, waits for an answer or polls is a
    program: a sequence of atomic actions on a shared state, each with a
    result that decides how to go on.  An action may be disabled (a spin lock
    that is taken), may crash, and reads an oracle for what the model leaves
    open (the fate of a message, the state of a reform).  A configuration is a
    shared state and the programs of its threads; any thread may take the next
    step.  The file has the small program logic the distributed locks are
    verified with: [wp] says what a thread needs to know, as ghost state beside
    the shared state, so that every action keeps a global invariant. *)

From stdpp Require Import prelude list.
From S2P Require Import Prelude.

(** ** Programs *)

Section prog.
Context {St O : Type}.

(** [Spin] is a loop that has run out of the turns it was given: the thread
    stays where it is. *)
Inductive prog (A : Type) : Type :=
| Ret (a : A)
| Spin
| Act (B : Type) (f : O -> St -> outcome (option (B * St))) (k : B -> prog A).
Arguments Ret {A} a.
Arguments Spin {A}.
Arguments Act {A} B f k.

Fixpoint prog_bind {A B} (p : prog A) (q : A -> prog B) : prog B :=
  match p with
  | Ret a => q a
  | Spin => Spin
  | Act C f k => Act C f (fun c => prog_bind (k c) q)
  end.

Definition act {B} (f : O -> St -> outcome (option (B * St))) : prog B := Act B f Ret.

Definition prog_done {A} (p : prog A) : Prop := match p with Ret _ => True | _ => False end.

(** A configuration and its steps; [client] are the programs a thread may be
    started with, [ok] the answers an oracle may give. *)
Definition config : Type := St * list (prog unit).

Inductive thread_step (ok : O -> Prop) (client : prog unit -> Prop) : config -> config -> Prop :=
| ts_act s s' l1 l2 B f k o b :
    ok o -> f o s = Done (Some (b, s')) -> thread_step ok client (s, l1 ++ Act B f k :: l2) (s', l1 ++ k b :: l2)
| ts_spawn s l p : client p -> thread_step ok client (s, l) (s, p :: l).

(** ** Running: the thread alone with one oracle, or a schedule *)

Fixpoint run_alone {A} (o : O) (p : prog A) (s : St) : outcome (option (A * St)) :=
  match p with
  | Ret a => Done (Some (a, s))
  | Spin => Done None
  | Act B f k =>
      match f o s with
      | Done (Some (b, s')) => run_alone o (k b) s'
      | Done None => Done None
      | Crash c => Crash c
      end
  end.

(** [n] actions of the first thread of the configuration. *)
Fixpoint run_some {A} (n : nat) (o : O) (p : prog A) (s : St) : outcome (prog A * St) :=
  match n with
  | 0%nat => Done (p, s)
  | S n =>
      match p with
      | Act B f k =>
          match f o s with
          | Done (Some (b, s')) => run_some n o (k b) s'
          | Done None => Done (p, s)
          | Crash c => Crash c
          end
      | _ => Done (p, s)
      end
  end.

Lemma run_alone_bind {A B} o (p : prog A) (q : A -> prog B) s a s' :
  run_alone o p s = Done (Some (a, s')) -> run_alone o (prog_bind p q) s = run_alone o (q a) s'.
Proof.
  revert s. induction p as [b | | C f k IH]; intros s; cbn; [by intros [= -> ->] | done |].
  destruct (f o s) as [[[c s1] |] |]; [apply IH | done ..].
Qed.

(** ** The program logic *)

Section logic.
Context {G : Type} (Inv : St -> list G -> Prop) (ok : O -> Prop).

(** The thread may forget or learn what the invariant justifies. *)
Definition upd (g g' : G) : Prop := forall s rest, Inv s (g :: rest) -> Inv s (g' :: rest).

Fixpoint wp {A} (p : prog A) (g : G) (post : A -> G -> Prop) : Prop :=
  match p with
  | Ret a => exists g', upd g g' /\ post a g'
  | Spin => True
  | Act B f k => forall o s rest b s', ok o -> Inv s (g :: rest) -> f o s = Done (Some (b, s')) ->
      exists g', Inv s' (g' :: rest) /\ wp (k b) g' post
  end.

Lemma wp_mono {A} (p : prog A) g (post post' : A -> G -> Prop) :
  wp p g post -> (forall a g, post a g -> post' a g) -> wp p g post'.
Proof.
  intros Hwp Hpost. revert g Hwp. induction p as [a | | B f k IH]; intros g; cbn; [intros (g' & ? & ?); eauto | done |].
  intros Hwp o s rest b s' Ho Hinv Hrun. destruct (Hwp o s rest b s' Ho Hinv Hrun) as (g' & Hinv' & Hk). eauto.
Qed.

Lemma wp_upd {A} (p : prog A) g g' post : upd g g' -> wp p g' post -> wp p g post.
Proof.
  intros Hupd. destruct p as [a | | B f k]; cbn; [| done |].
  - intros (g2 & Hupd2 & Hpost). exists g2. split; [| done]. intros s rest Hs. by apply Hupd2, Hupd.
  - intros Hwp o s rest b s' Ho Hinv Hrun. apply (Hwp o s rest b s' Ho); [by apply Hupd | done].
Qed.

Lemma wp_ret {A} (a : A) g (post : A -> G -> Prop) : post a g -> wp (Ret a) g post.
Proof. intros Hpost. exists g. split; [by intros ? ? | done]. Qed.

Lemma wp_bind {A B} (p : prog A) (q : A -> prog B) g post :
  wp p g (fun a g => wp (q a) g post) -> wp (prog_bind p q) g post.
Proof.
  revert g. induction p as [a | | C f k IH]; intros g; cbn; [intros (g' & Hupd & Hq); by eapply wp_upd | done |].
  intros Hwp o s rest b s' Ho Hinv Hrun. destruct (Hwp o s rest b s' Ho Hinv Hrun) as (g' & Hinv' & Hk). eauto.
Qed.

(** The postcondition may forget and learn as well. *)
Lemma wp_post_upd {A} (p : prog A) g (post : A -> G -> Prop) :
  wp p g (fun a g => exists g', upd g g' /\ post a g') -> wp p g post.
Proof.
  revert g. induction p as [a | | C f k IH]; intros g; cbn; [| done |].
  - intros (g1 & Hupd & g2 & Hupd2 & Hp). exists g2. split; [| done]. intros s rest Hs. by apply Hupd2, Hupd.
  - intros Hwp o s rest b s' Ho Hinv Hrun. destruct (Hwp o s rest b s' Ho Hinv Hrun) as (g' & Hinv' & Hk). eauto.
Qed.

(** An atomic action: what it does to the state and to the ghost state. *)
Lemma wp_act {B} (f : O -> St -> outcome (option (B * St))) g (post : B -> G -> Prop) :
  (forall o s rest b s', ok o -> Inv s (g :: rest) -> f o s = Done (Some (b, s')) -> exists g', Inv s' (g' :: rest) /\ post b g') ->
  wp (act f) g post.
Proof.
  intros H o s rest b s' Ho Hinv Hrun. destruct (H o s rest b s' Ho Hinv Hrun) as (g' & Hinv' & Hpost).
  exists g'. split; [done |]. by apply wp_ret.
Qed.

(** ** Every reachable configuration satisfies the invariant *)

(** [g0] is what a thread starts with, [fin] what holds of it when it is done. *)
Context (client : prog unit -> Prop) (g0 : G) (fin : G -> Prop).
Hypothesis Inv_perm : forall s gs gs', gs ≡ₚ gs' -> Inv s gs -> Inv s gs'.
Hypothesis Inv_spawn : forall s gs, Inv s gs -> Inv s (g0 :: gs).
Hypothesis client_ok : forall p, client p -> wp p g0 (fun _ => fin).

Definition config_ok (cf : config) : Prop :=
  exists gs, Inv cf.1 gs /\ Forall2 (fun p g => wp p g (fun _ => fin)) cf.2 gs.

Lemma thread_step_ok cf cf' : thread_step ok client cf cf' -> config_ok cf -> config_ok cf'.
Proof.
  intros [s s' l1 l2 B f k o b Ho Hrun | s l p Hp] (gs & Hinv & Hall); cbn in *.
  - apply Forall2_app_inv_l in Hall as (gs1 & gs2' & Hall1 & Hall2 & ->).
    apply Forall2_cons_inv_l in Hall2 as (g & gs2 & Hwp & Hall2 & ->).
    destruct (Hwp o s (gs1 ++ gs2) b s' Ho) as (g' & Hinv' & Hk); [| done |].
    { eapply Inv_perm; [| exact Hinv]. by rewrite Permutation_middle. }
    exists (gs1 ++ g' :: gs2). cbn. split; [eapply Inv_perm; [| exact Hinv']; by rewrite Permutation_middle |].
    apply Forall2_app; [done |]. by constructor.
  - exists (g0 :: gs). cbn. split; [by apply Inv_spawn |]. constructor; [by apply client_ok | done].
Qed.

Theorem threads_invariant cf cf' : rtc (thread_step ok client) cf cf' -> config_ok cf -> config_ok cf'.
Proof. induction 1 as [| cf cf1 cf2 Hstep _ IH]; [done |]. intros Hok. apply IH. by eapply thread_step_ok. Qed.

(** When all threads are done the invariant holds with what they ended with. *)
Lemma all_done s (l : list (prog unit)) gs1 gs2 :
  Inv s (gs1 ++ gs2) -> Forall fin gs2 -> Forall2 (fun p g => wp p g (fun _ => fin)) l gs1 -> Forall prog_done l ->
  exists gs, Inv s gs /\ Forall fin gs.
Proof.
  intros Hinv Hfin Hall. revert gs2 Hinv Hfin. induction Hall as [| p g l gs1 Hp Hall IH]; intros gs2 Hinv Hfin Hret; [by exists gs2 |].
  apply Forall_cons in Hret as [Hp1 Hret]. destruct p as [a | |]; [| done ..]. destruct Hp as (g' & Hupd & Hg'). apply (IH (g' :: gs2)); [| by constructor | done].
  eapply Inv_perm; [| apply (Hupd s (gs1 ++ gs2)); exact Hinv]. by rewrite Permutation_middle.
Qed.

Lemma config_done s (l : list (prog unit)) : config_ok (s, l) -> Forall prog_done l -> exists gs, Inv s gs /\ Forall fin gs.
Proof. intros (gs & Hinv & Hall). apply (all_done s l gs []); [by rewrite app_nil_r | done | exact Hall]. Qed.
End logic.

(** A run of some actions of a thread is a sequence of steps. *)
Lemma run_some_steps (ok : O -> Prop) client n o (p p' : prog unit) s s' l1 l2 :
  ok o -> run_some n o p s = Done (p', s') -> rtc (thread_step ok client) (s, l1 ++ p :: l2) (s', l1 ++ p' :: l2).
Proof.
  intros Ho. revert p s. induction n as [| n IH]; intros p s; cbn; [by intros [= -> ->] |].
  destruct p as [a | | B f k]; [by intros [= <- <-] .. |].
  destruct (f o s) as [[[b s1] |] |] eqn:E; [| by intros [= <- <-] | done].
  intros Hrun. eapply rtc_l; [by apply (ts_act ok client s s1 l1 l2 B f k o b) | by apply IH].
Qed.
End prog.

Arguments prog : clear implicits.
Arguments config : clear implicits.
Arguments Ret {St O A} a.
Arguments Spin {St O A}.
Arguments Act {St O A} B f k.

Notation "x <~ p ; q" := (prog_bind p (fun x => q)) (at level 20, p at level 100, q at level 200, right associativity) : drc_scope.
Notation "' x <~ p ; q" := (prog_bind p (fun x => q)) (at level 20, x pattern, p at level 100, q at level 200, right associativity) : drc_scope.
Notation "p ;;~ q" := (prog_bind p (fun _ => q)) (at level 100, q at level 200, right associativity) : drc_scope.
