(* ===== verification/DlsTxn.v ===== *)
(** * Waiting for a transaction of another instance (dtc_dls.c)

    A session that runs into a row of a transaction of another instance asks
    that instance; the handler there records the asking instance and answers
    "wait", or "ended".  The thread that ends the transaction wakes all recorded
    instances.  Both may run at once: the handler looks at the transaction again
    after it has recorded the instance.  Source: src/pkg/src/cluster/dtc_dls.c,
    and the lines of src/pkg/src/kernel/xact/knl_tran.c that end a transaction. *)

From stdpp Require Import prelude list gmap.
From S2P Require Import Prelude Bitmap ResPool ResMap KeyStore DrcTypes DrcTxn LocalDemo Threads.

Open Scope Z_scope.
Open Scope drc_scope.

(** ** The instance that runs the transaction *)

Inductive txn_ack := DLS_REMOTE_TXN_WAIT | DLS_REMOTE_TXN_END (scn : Z).

#[export] Instance txn_ack_eq_dec : EqDecision txn_ack.
Proof. solve_decision. Defined.

(** A transaction: its scn once its status is XACT_END, and whether the session
    that ends it is still at it (tx_item->in_progress). *)
Record tx_item := mk_item { it_end : option Z; in_progress : bool }.

(** The transactions, the recorded instances, and the messages that were sent:
    wake-ups and answers. *)
Record txn_st := mk_tst {
  ts_items : xid_t -> tx_item;
  ts_map : txn_map;
  ts_awoken : list (xid_t * Z);
  ts_acks : list (xid_t * Z * txn_ack);
}.

Definition set_item (xid : xid_t) (t : tx_item) (items : xid_t -> tx_item) : xid_t -> tx_item :=
  fun x => if decide (x = xid) then t else items x.
Definition ts_set_item (xid : xid_t) (t : tx_item) (s : txn_st) : txn_st := mk_tst (set_item xid t (ts_items s)) (ts_map s) (ts_awoken s) (ts_acks s).

(** What tx_get_info reports: [Some scn] when the transaction has ended.  One
    that is being ended counts as running, except for a scan. *)
Definition item_info (is_scan : bool) (t : tx_item) : option Z :=
  match it_end t with
  | Some scn => if in_progress t && negb is_scan then None else Some scn
  | None => None
  end.

(** Whether the answer can be sent. *)
Record txn_oracle := mk_toracle { to_ack_sent : bool }.

Abbreviation tprog := (prog txn_st txn_oracle).

(** *** Actions *)

Definition tx_get_info (is_scan : bool) (xid : xid_t) : tprog (option Z) := act (fun _ s => Done (Some (item_info is_scan (ts_items s xid), s))).

Definition enqueue_txn (xid : xid_t) (src : Z) : tprog unit :=
  act (fun _ s => m ← drc_enqueue_txn (ts_map s) xid src; Done (Some (tt, mk_tst (ts_items s) m (ts_awoken s) (ts_acks s)))).

(** A wake-up is recorded when [dls_send_txn_msg] is called for it.  A failure of [mes_send_data] there is logged and not reported to
    the caller, and nothing retries the message. *)
Definition release_txn (self : Z) (xid : xid_t) : tprog unit :=
  act (fun _ s => '(sent, m) ← drc_release_txn self (ts_map s) xid;
                  Done (Some (tt, mk_tst (ts_items s) m (map (pair xid) sent ++ ts_awoken s) (ts_acks s)))).

Definition send_ack (xid : xid_t) (src : Z) (ack : txn_ack) : tprog unit :=
  act (fun o s => Done (Some (tt, if to_ack_sent o then mk_tst (ts_items s) (ts_map s) (ts_awoken s) ((xid, src, ack) :: ts_acks s) else s))).

(** The session that ends a transaction marks it, once; sets its scn and status;
    and takes the mark away. *)
Definition tx_enter_end (xid : xid_t) : tprog unit :=
  act (fun _ s => let t := ts_items s xid in
                  if in_progress t || bool_decide (is_Some (it_end t)) then Done None
                  else Done (Some (tt, ts_set_item xid (mk_item (it_end t) true) s))).
Definition tx_set_end (xid : xid_t) (scn : Z) : tprog unit :=
  act (fun _ s => Done (Some (tt, ts_set_item xid (mk_item (Some scn) (in_progress (ts_items s xid))) s))).
Definition tx_leave_end (xid : xid_t) : tprog unit :=
  act (fun _ s => Done (Some (tt, ts_set_item xid (mk_item (it_end (ts_items s xid)) false) s))).

(** ** The handlers

    [slot_ok] stands for the checks of the size of the message and of the slot
    against the number of transaction pages, [xid_inst] for the instance a
    transaction belongs to. *)
Section txn.
Context (slot_ok : xid_t -> bool) (xid_inst : xid_t -> Z) (self : Z).

Definition dls_process_txn_wait (xid : xid_t) (src : Z) : tprog unit :=
  if negb (slot_ok xid) then Ret tt
  else if negb (xid_inst xid =? self) || (CT_MAX_INSTANCES <=? src) then Ret tt
  else
    info <~ tx_get_info false xid;
    ack <~ match info with
           | Some scn => Ret (DLS_REMOTE_TXN_END scn)
           | None =>
               enqueue_txn xid src;;~
               info <~ tx_get_info false xid;
               match info with
               | None => Ret DLS_REMOTE_TXN_WAIT
               | Some scn => release_txn self xid;;~ Ret (DLS_REMOTE_TXN_END scn)
               end
           end;
    send_ack xid src ack.

Definition dls_release_txn (xid : xid_t) : tprog unit := release_txn self xid.

(** The part of the end of a transaction that others can see. *)
Definition tx_end (xid : xid_t) (scn : Z) : tprog unit :=
  tx_enter_end xid;;~ tx_set_end xid scn;;~ tx_leave_end xid;;~ dls_release_txn xid.

(** What the threads of the instance run. *)
Inductive txn_client : tprog unit -> Prop :=
| tc_wait xid src : 0 <= src -> txn_client (dls_process_txn_wait xid src)
| tc_end xid scn : txn_client (tx_end xid scn).

(** ** No wake-up is lost *)

(** How far a thread is: it has recorded an instance, it has decided to answer
    "wait", or it is ending a transaction, or has ended it and not yet released it. *)
Inductive txn_ghost := Idle | Closing (xid : xid_t) | Recorded (xid : xid_t) (src : Z) | Told (xid : xid_t) (src : Z) | Ending (xid : xid_t).

#[local] Instance txn_ghost_eq_dec : EqDecision txn_ghost.
Proof. solve_decision. Defined.

(** Instance [src] was told to wait, or is about to be. *)
Definition told (acks : list (xid_t * Z * txn_ack)) (gs : list txn_ghost) (xid : xid_t) (src : Z) : Prop :=
  (xid, src, DLS_REMOTE_TXN_WAIT) ∈ acks \/ Told xid src ∈ gs.

(** The invariant, over the recorded instances [w] of each transaction. *)
Record WInv (vis : xid_t -> option Z) (w : xid_t -> gset Z) (awoken : list (xid_t * Z)) (acks : list (xid_t * Z * txn_ack))
    (gs : list txn_ghost) : Prop := mk_WInv {
  wi_recorded : forall xid src, src <> self -> Recorded xid src ∈ gs -> (xid, src) ∈ awoken \/ src ∈ w xid;
  wi_told : forall xid src, src <> self -> told acks gs xid src ->
    (xid, src) ∈ awoken \/ (src ∈ w xid /\ (vis xid = None \/ Ending xid ∈ gs));
}.

(** The transactions that are being ended, each by one thread. *)
Definition closings (gs : list txn_ghost) : list xid_t := omap (fun g => match g with Closing x => Some x | _ => None end) gs.
Definition CInv (items : xid_t -> tx_item) (xs : list xid_t) : Prop := NoDup xs /\ Forall (fun x => in_progress (items x) = true) xs.

Definition seen (items : xid_t -> tx_item) (xid : xid_t) : option Z := item_info false (items xid).

Definition TInv (s : txn_st) (gs : list txn_ghost) : Prop :=
  txn_ok (ts_map s) /\ CInv (ts_items s) (closings gs) /\ WInv (seen (ts_items s)) (waiters (ts_map s)) (ts_awoken s) (ts_acks s) gs.

Abbreviation wp := (wp TInv (fun _ => True)).

Lemma elem_change (x g g' : txn_ghost) gs : x ∈ g' :: gs -> x <> g' -> x ∈ g :: gs.
Proof. intros [-> | H]%elem_of_cons; [done | by right]. Qed.

Lemma told_change acks g g' gs xid src : told acks (g' :: gs) xid src -> g' <> Told xid src -> told acks (g :: gs) xid src.
Proof. intros [? | Ht] Hg; [by left | right]. by eapply elem_change. Qed.

Section winv.
Context (vis vis' : xid_t -> option Z) (w w' : xid_t -> gset Z) (awoken : list (xid_t * Z)) (acks : list (xid_t * Z * txn_ack)).

Lemma W_perm gs gs' : gs ≡ₚ gs' -> WInv vis w awoken acks gs -> WInv vis w awoken acks gs'.
Proof.
  intros Hp [Hr Ht]. constructor.
  - intros xid src Hs. rewrite <- Hp. by apply Hr.
  - intros xid src Hs. unfold told. rewrite <- Hp. by apply Ht.
Qed.

Lemma ending_kept g g' gs xid : Ending xid ∈ g :: gs -> g <> Ending xid -> Ending xid ∈ g' :: gs.
Proof. intros H Hg. eapply elem_change; [exact H | congruence]. Qed.

(** The first thread goes on to [g'] where it is not telling anything new. *)
Lemma W_step g g' gs :
  WInv vis w awoken acks (g :: gs) -> (forall x, g <> Ending x) -> (forall x t, g' <> Told x t) ->
  (forall x t, g' = Recorded x t -> t ∈ w x) -> WInv vis w awoken acks (g' :: gs).
Proof.
  intros [Hr Ht] Hg Hn Hrec. constructor.
  - intros x t Hs [E | Hx]%elem_of_cons; [right; by apply Hrec | apply Hr; [done | by right]].
  - intros x t Hs Hto. destruct (Ht x t Hs) as [? | [? [? | He]]]; [by eapply told_change, Hn | by left | right; by auto | right].
    split; [done |]. right. by eapply ending_kept.
Qed.

Lemma W_spawn gs : WInv vis w awoken acks gs -> WInv vis w awoken acks (Idle :: gs).
Proof.
  intros [Hr Ht]. constructor.
  - intros x t Hs [E | Hx]%elem_of_cons; [done | by apply Hr].
  - intros x t Hs Hto. destruct (Ht x t Hs) as [? | [? [? | He]]]; [| by left | right; by auto | right; split; [done | right; by right]].
    destruct Hto as [? | [E | Hto]%elem_of_cons]; [by left | done | by right].
Qed.

(** Recording an instance adds to the recorded ones. *)
Lemma W_grow gs : (forall x t, t ∈ w x -> t ∈ w' x) -> WInv vis w awoken acks gs -> WInv vis w' awoken acks gs.
Proof.
  intros Hw [Hr Ht]. constructor.
  - intros x t Hs Hx. destruct (Hr x t Hs Hx) as [? | ?]; [by left | right; by apply Hw].
  - intros x t Hs Hx. destruct (Ht x t Hs Hx) as [? | [? ?]]; [by left | right; split; [by apply Hw | done]].
Qed.

(** Releasing a transaction wakes the recorded instances. *)
Lemma W_release xid sent g gs :
  WInv vis w awoken acks (g :: gs) -> (forall x, x <> xid -> w' x = w x) -> (forall t, t <> self -> t ∈ w xid -> t ∈ sent) ->
  (g = Ending xid \/ forall x, g <> Ending x) -> WInv vis w' (map (pair xid) sent ++ awoken) acks (Idle :: gs).
Proof.
  intros [Hr Ht] Hw Hsent Hg.
  assert (Hold : forall x t, (x, t) ∈ awoken -> (x, t) ∈ map (pair xid) sent ++ awoken) by (intros; apply elem_of_app; by right).
  assert (Hnew : forall t, t <> self -> t ∈ w xid -> (xid, t) ∈ map (pair xid) sent ++ awoken).
  { intros t Hs Hx. apply elem_of_app. left. apply list_elem_of_fmap. exists t. split; [done |]. by apply Hsent. }
  constructor.
  - intros x t Hs Hx. destruct (Hr x t Hs) as [? | ?]; [by eapply elem_change | left; by apply Hold |].
    destruct (decide (x = xid)) as [-> | Hne]; [left; by apply Hnew | right; by rewrite (Hw x Hne)].
  - intros x t Hs Hx. destruct (Ht x t Hs) as [? | [? He]]; [by eapply told_change | left; by apply Hold |].
    destruct (decide (x = xid)) as [-> | Hne]; [left; by apply Hnew | right; rewrite (Hw x Hne)]. split; [done |].
    destruct He as [? | He]; [by left | right]. eapply ending_kept; [done |]. destruct Hg as [-> | Hg]; [congruence | apply Hg].
Qed.

(** The transaction of a recorded instance has not ended: it is told to wait. *)
Lemma W_tell xid src gs : vis xid = None -> WInv vis w awoken acks (Recorded xid src :: gs) -> WInv vis w awoken acks (Told xid src :: gs).
Proof.
  intros He [Hr Ht]. constructor.
  - intros x t Hs Hx. apply Hr; [done |]. by eapply elem_change.
  - intros x t Hs Hx. destruct (decide (Told xid src = Told x t)) as [E | Hne].
    { injection E as -> ->. destruct (Hr x t Hs) as [? | ?]; [left | by left | right; by auto]. }
    destruct (Ht x t Hs) as [? | [? [? | Hen]]]; [by eapply told_change | by left | right; by auto | right].
    split; [done |]. right. by eapply ending_kept.
Qed.

Lemma W_ack xid src ack g gs :
  (forall x, g <> Ending x) -> (ack = DLS_REMOTE_TXN_WAIT -> g = Told xid src) ->
  WInv vis w awoken acks (g :: gs) -> WInv vis w awoken ((xid, src, ack) :: acks) (Idle :: gs).
Proof.
  intros Hg Hack [Hr Ht]. constructor.
  - intros x t Hs Hx. apply Hr; [done |]. by eapply elem_change.
  - intros x t Hs Hx. destruct (Ht x t Hs) as [? | [? [? | Hen]]]; [| by left | right; by auto | right; split; [done | right; by eapply ending_kept]].
    destruct Hx as [[E | ?]%elem_of_cons | Hx]; [| by left | right; by eapply elem_change].
    injection E as -> -> <-. right. rewrite (Hack eq_refl). left.
Qed.

Lemma W_vis gs : (forall x, vis' x = vis x) -> WInv vis w awoken acks gs -> WInv vis' w awoken acks gs.
Proof. intros E [Hr Ht]. constructor; [exact Hr |]. intros x t Hs Hx. rewrite E. by apply Ht. Qed.

(** The end of a transaction becomes visible. *)
Lemma W_end xid g gs : (forall x, x <> xid -> vis' x = vis x) -> (forall x, g <> Ending x) ->
  WInv vis w awoken acks (g :: gs) -> WInv vis' w awoken acks (Ending xid :: gs).
Proof.
  intros He Hg [Hr Ht]. constructor.
  - intros x t Hs Hx. apply Hr; [done |]. by eapply elem_change.
  - intros x t Hs Hx. destruct (Ht x t Hs) as [? | [? Hcase]]; [by eapply told_change | by left | right]. split; [done |].
    destruct (decide (x = xid)) as [-> | Hne]; [right; left |]. destruct Hcase as [Hn | Hen]; [left; by rewrite He | right; by eapply ending_kept].
Qed.
End winv.

Lemma TInv_perm s gs gs' : gs ≡ₚ gs' -> TInv s gs -> TInv s gs'.
Proof.
  intros Hp (Hok & [Hnd HC] & HW). split; [exact Hok |]. split; [| exact (W_perm _ _ _ _ _ _ Hp HW)].
  assert (Hc : closings gs ≡ₚ closings gs') by (unfold closings; by rewrite Hp). split; [by rewrite <- Hc | by rewrite <- Hc].
Qed.

Lemma TInv_spawn s gs : TInv s gs -> TInv s (Idle :: gs).
Proof. intros (Hok & HC & HW). split; [exact Hok |]. split; [exact HC | exact (W_spawn _ _ _ _ _ HW)]. Qed.

(** *** The actions *)

Lemma waiters_range m xid j : j ∈ waiters m xid -> 0 <= j < CT_MAX_INSTANCES.
Proof.
  unfold waiters. destruct (txn_view m xid); [intros Hw; apply elem_of_inst_set in Hw as [Hw _]; exact Hw | intros Hw; by apply elem_of_empty in Hw].
Qed.

Lemma waiters_same xid m m' x : txn_same_but xid m m' -> x <> xid -> waiters m' x = waiters m x.
Proof. intros Hsb Hx. unfold waiters. by rewrite (Hsb x Hx). Qed.

Lemma woken_list (W : gset Z) j : j ∈ W -> j <> self -> 0 <= j < CT_MAX_INSTANCES -> j ∈ filter (fun j => j ∈ W /\ j <> self) (seqZ 0 CT_MAX_INSTANCES).
Proof. intros. apply list_elem_of_filter. split; [done |]. apply elem_of_seqZ. lia. Qed.

Lemma release_wakes m xid sent m' : txn_ok m -> drc_release_txn self m xid = Done (sent, m') ->
  txn_ok m' /\ txn_same_but xid m m' /\ forall j, j <> self -> j ∈ waiters m xid -> j ∈ sent.
Proof.
  intros Hok Hrun. destruct (release_txn_spec self m xid Hok) as (m2 & Hrun2 & Hok2 & Hsb & _).
  pose proof (eq_trans (eq_sym Hrun) Hrun2) as E. apply Done_inj in E. apply pair_eq in E as [Hsent Hm]. subst m2 sent. split; [exact Hok2 |]. split; [exact Hsb |].
  intros j Hj Hw. exact (woken_list _ j Hw Hj (waiters_range m xid j Hw)).
Qed.

Lemma enqueue_full m xid ins : txn_ok m -> txn_view m xid = None -> store_full m -> drc_enqueue_txn m xid ins = Crash KnlPanic.
Proof.
  intros Hok Hv Hf. pose proof (store_cases txn_inv m xid Hok) as Hc. rewrite Hv in Hc. unfold drc_enqueue_txn, txn_get_or_create. rewrite Hc. ostep.
  unfold drc_create_txn_res. rewrite (store_create_full txn_inv) by done. ostep. reflexivity.
Qed.

Lemma enqueue_records m xid src m' : txn_ok m -> 0 <= src < CT_MAX_INSTANCES -> drc_enqueue_txn m xid src = Done m' ->
  txn_ok m' /\ src ∈ waiters m' xid /\ forall x t, t ∈ waiters m x -> t ∈ waiters m' x.
Proof.
  intros Hok Hsrc Hrun.
  assert (Hroom : txn_view m xid = None -> ~ store_full m).
  { intros Hv Hf. pose proof (eq_trans (eq_sym Hrun) (enqueue_full _ xid src Hok Hv Hf)) as E. discriminate E. }
  destruct (txn_enqueue_spec m xid src Hok Hsrc Hroom) as (m2 & Hrun2 & Hok2 & Hsb & _ & Hw). pose proof (eq_trans (eq_sym Hrun) Hrun2) as E. apply Done_inj in E. subst m2. clear Hrun Hrun2 Hroom.
  split; [exact Hok2 |]. rewrite Hw. split; [apply elem_of_union; left; apply elem_of_singleton; reflexivity |].
  intros x t Ht. destruct (decide (x = xid)) as [-> | Hx]; [rewrite Hw; apply elem_of_union; right; exact Ht | rewrite (waiters_same xid m m' x Hsb Hx); exact Ht].
Qed.

Lemma wp_info is_scan xid g (post : option Z -> txn_ghost -> Prop) : (forall r, post r g) -> wp (tx_get_info is_scan xid) g post.
Proof. intros Hp. apply wp_act. intros o s rest r s' _ Hinv E. apply Done_inj in E. injection E as <- <-. exists g. split; [exact Hinv | apply Hp]. Qed.

Lemma wp_enqueue xid src (post : unit -> txn_ghost -> Prop) : 0 <= src < CT_MAX_INSTANCES -> post tt (Recorded xid src) -> wp (enqueue_txn xid src) Idle post.
Proof.
  intros Hsrc Hp. apply wp_act. intros o s rest [] s' _ (Hok & HC & HW) (m & Hrun & E)%bind_Done. apply Done_inj in E. injection E as <-.
  exists (Recorded xid src). split; [| exact Hp]. destruct (enqueue_records _ _ _ _ Hok Hsrc Hrun) as (Hok' & Hin & Hgrow). clear Hrun.
  split; [exact Hok' |]. split; [exact HC |].
  apply (W_step _ _ _ _ Idle); [exact (W_grow _ _ _ _ _ _ Hgrow HW) | discriminate | discriminate |]. intros x t E. injection E as <- <-. exact Hin.
Qed.

(** Looking again: the transaction has not ended, or has. *)
Lemma wp_recheck xid src (post : option Z -> txn_ghost -> Prop) :
  post None (Told xid src) -> (forall scn, post (Some scn) (Recorded xid src)) -> wp (tx_get_info false xid) (Recorded xid src) post.
Proof.
  intros Hn Hs. apply wp_act. intros o s rest r s' _ (Hok & HC & HW) E. apply Done_inj in E. injection E as <- <-.
  destruct (item_info false (ts_items s xid)) as [scn |] eqn:He; [exists (Recorded xid src); split; [split; [exact Hok | split; [exact HC | exact HW]] | apply Hs] |].
  exists (Told xid src). split; [| exact Hn]. split; [exact Hok |]. split; [exact HC | exact (W_tell _ _ _ _ _ _ _ He HW)].
Qed.

(** An action of a thread that is not closing keeps the closings. *)
Lemma closings_change items g g' gs : closings [g] = [] -> closings [g'] = [] -> CInv items (closings (g :: gs)) -> CInv items (closings (g' :: gs)).
Proof. intros E E'. change (closings (g :: gs)) with (closings ([g] ++ gs)). change (closings (g' :: gs)) with (closings ([g'] ++ gs)). unfold closings in *. rewrite !omap_app, E, E'. done. Qed.

Definition not_closing (g : txn_ghost) : Prop := closings [g] = [].

Lemma wp_release xid g (post : unit -> txn_ghost -> Prop) :
  not_closing g -> g = Ending xid \/ (forall x, g <> Ending x) -> post tt Idle -> wp (release_txn self xid) g post.
Proof.
  intros Hnc Hg Hp. apply wp_act. intros o s rest [] s' _ (Hok & HC & HW) ([sent m] & Hrun & E)%bind_Done. apply Done_inj in E. injection E as <-.
  exists Idle. split; [| exact Hp]. destruct (release_wakes _ _ _ _ Hok Hrun) as (Hok' & Hsb & Hsent). clear Hrun.
  split; [exact Hok' |]. split; [exact (closings_change _ g Idle rest Hnc eq_refl HC) |].
  exact (W_release _ _ _ _ _ xid sent g rest HW (fun x => waiters_same xid _ _ x Hsb) Hsent Hg).
Qed.

Lemma wp_ack xid src ack g (post : unit -> txn_ghost -> Prop) :
  not_closing g -> (forall x, g <> Ending x) -> (ack = DLS_REMOTE_TXN_WAIT -> g = Told xid src) -> post tt Idle -> wp (send_ack xid src ack) g post.
Proof.
  intros Hnc Hg Hack Hp. apply wp_act. intros o s rest [] s' _ (Hok & HC & HW) E. apply Done_inj in E. injection E as <-. exists Idle. split; [| exact Hp].
  pose proof (closings_change _ g Idle rest Hnc eq_refl HC) as HC'.
  destruct (to_ack_sent o); (split; [exact Hok |]); (split; [exact HC' |]); [exact (W_ack _ _ _ _ xid src ack g rest Hg Hack HW) |].
  apply (W_step _ _ _ _ g); [exact HW | exact Hg | discriminate | discriminate].
Qed.

(** *** Ending a transaction *)

Lemma set_item_eq xid t items : set_item xid t items xid = t.
Proof. unfold set_item. by rewrite decide_True. Qed.
Lemma set_item_ne xid t items x : x <> xid -> set_item xid t items x = items x.
Proof. intros Hx. unfold set_item. by rewrite decide_False. Qed.

Lemma seen_ne xid t items x : x <> xid -> seen (set_item xid t items) x = seen items x.
Proof. intros Hx. unfold seen. by rewrite set_item_ne. Qed.

(** Nothing becomes visible while the mark is there. *)
Lemma seen_marked xid t items : in_progress t = true -> seen items xid = None -> forall x, seen (set_item xid t items) x = seen items x.
Proof.
  intros Hp Hn x. destruct (decide (x = xid)) as [-> | Hx]; [| by apply seen_ne]. rewrite Hn. unfold seen, item_info. rewrite set_item_eq, Hp. by destruct (it_end t).
Qed.

Lemma marked_unseen items xid : in_progress (items xid) = true -> seen items xid = None.
Proof. intros Hp. unfold seen, item_info. rewrite Hp. by destruct (it_end (items xid)). Qed.

Lemma marks_kept xid t items xs : xid ∉ xs \/ in_progress t = true -> Forall (fun x => in_progress (items x) = true) xs ->
  Forall (fun x => in_progress (set_item xid t items x) = true) xs.
Proof.
  intros Hx. rewrite !Forall_forall. intros HC x Hin. destruct (decide (x = xid)) as [-> | Hne]; [rewrite set_item_eq | rewrite set_item_ne by done; by apply HC].
  by destruct Hx.
Qed.

Lemma wp_enter_end xid (post : unit -> txn_ghost -> Prop) : post tt (Closing xid) -> wp (tx_enter_end xid) Idle post.
Proof.
  intros Hp. apply wp_act. intros o s rest [] s' _ (Hok & [Hnd HC] & HW) Hrun. cbv zeta in Hrun.
  destruct (in_progress (ts_items s xid)) eqn:Hpr; [discriminate Hrun |]. cbn [orb] in Hrun. case_bool_decide as Hend; [discriminate Hrun |]. apply Done_inj in Hrun. injection Hrun as <-.
  assert (Hno : it_end (ts_items s xid) = None) by (by apply eq_None_not_Some).
  exists (Closing xid). split; [| exact Hp]. split; [exact Hok |]. split.
  - split; [apply NoDup_cons; split; [| exact Hnd] | apply Forall_cons; split; [cbn; by rewrite set_item_eq | apply marks_kept; [by right | exact HC]]].
    intros Hin. rewrite Forall_forall in HC. specialize (HC _ Hin). congruence.
  - apply (W_vis (seen (ts_items s))); [apply seen_marked; [done |]; unfold seen, item_info; by rewrite Hno |].
    apply (W_step _ _ _ _ Idle); [exact HW | discriminate | discriminate | discriminate].
Qed.

Lemma wp_set_end xid scn (post : unit -> txn_ghost -> Prop) : post tt (Closing xid) -> wp (tx_set_end xid scn) (Closing xid) post.
Proof.
  intros Hp. apply wp_act. intros o s rest [] s' _ (Hok & [Hnd HC] & HW) Hrun. apply Done_inj in Hrun. injection Hrun as <-.
  pose proof (Forall_inv HC) as Hpr. cbn beta in Hpr. exists (Closing xid). split; [| exact Hp]. split; [exact Hok |]. split.
  - split; [exact Hnd | apply marks_kept; [by right | exact HC]].
  - apply (W_vis (seen (ts_items s))); [| exact HW]. apply seen_marked; [exact Hpr | by apply marked_unseen].
Qed.

Lemma wp_leave_end xid (post : unit -> txn_ghost -> Prop) : post tt (Ending xid) -> wp (tx_leave_end xid) (Closing xid) post.
Proof.
  intros Hp. apply wp_act. intros o s rest [] s' _ (Hok & [Hnd HC] & HW) Hrun. apply Done_inj in Hrun. injection Hrun as <-.
  apply NoDup_cons in Hnd as [Hnin Hnd]. apply Forall_cons in HC as [_ HC]. exists (Ending xid). split; [| exact Hp]. split; [exact Hok |]. split.
  - split; [exact Hnd | apply marks_kept; [by left | exact HC]].
  - apply (W_end (seen (ts_items s)) _ _ _ _ xid (Closing xid)); [intros x Hx; by apply seen_ne | discriminate | exact HW].
Qed.

Lemma txn_client_wp p : txn_client p -> wp p Idle (fun _ g => forall x, g <> Ending x).
Proof.
  intros [xid src Hsrc | xid scn].
  - unfold dls_process_txn_wait. destruct (negb (slot_ok xid)); [by apply wp_ret |].
    destruct (negb (xid_inst xid =? self)); cbn [orb]; [by apply wp_ret |]. destruct (Z.leb_spec CT_MAX_INSTANCES src) as [| Hlt]; [by apply wp_ret |].
    apply wp_bind, wp_info. intros [scn |]; [by apply wp_bind, wp_ret, wp_ack |].
    apply wp_bind, wp_bind, wp_enqueue; [done |]. apply wp_bind, wp_recheck; [by apply wp_ret, wp_ack |].
    intros scn. apply wp_bind, wp_release; [done | by right |]. by apply wp_ret, wp_ack.
  - apply wp_bind, wp_enter_end, wp_bind, wp_set_end, wp_bind, wp_leave_end, wp_release; [done | by left | done].
Qed.

(** C9: however the handlers of wait requests and the threads that end transactions interleave, once
    all of them are done every instance that was told to wait for a transaction that has ended was sent a wake-up
    message for it, in the sense that the send was called for it: the code only logs when the send then fails.
    A transaction has ended when a look at it reports that, not before. *)
Theorem txn_no_lost_wakeup items m s l xid src :
  txn_ok m -> rtc (thread_step (fun _ => True) txn_client) (mk_tst items m [] [], []) (s, l) -> Forall prog_done l ->
  item_info false (ts_items s xid) <> None -> (xid, src, DLS_REMOTE_TXN_WAIT) ∈ ts_acks s -> src <> self -> (xid, src) ∈ ts_awoken s.
Proof.
  intros Hok Hsteps Hdone Hend Hack Hs.
  destruct (config_done TInv (fun _ => True) (fun g => forall x, g <> Ending x) TInv_perm s l) as (gs & (_ & _ & [_ Ht]) & Hfin); [| exact Hdone |].
  - eapply (threads_invariant TInv (fun _ => True) txn_client Idle); [exact TInv_perm | exact TInv_spawn | exact txn_client_wp | exact Hsteps |].
    exists []. split; [| constructor]. split; [exact Hok |]. split; [split; constructor |]. constructor; [by intros ? ? _ ?%elem_of_nil | intros ? ? _ [?%elem_of_nil | ?%elem_of_nil]; done].
  - destruct (Ht xid src Hs) as [? | [_ [? | He]]]; [by left | done | done |]. rewrite Forall_forall in Hfin. by destruct (Hfin _ He xid).
Qed.
End txn.

(** ** A wait request that meets the end of the transaction *)

Module TxnDemo.

Definition wait_by_1 : tprog unit := dls_process_txn_wait (fun _ => true) (fun _ => 0) 0 LocalDemo.xid1 1.
Definition commit : tprog unit := tx_end 0 LocalDemo.xid1 77.
Definition running (_ : xid_t) : tx_item := mk_item None false.
Definition start : txn_st := mk_tst running LocalDemo.tm0 [] [].

Definition turn (n : nat) (p : tprog unit) (s : txn_st) : tprog unit * txn_st := LocalDemo.result (p, s) (run_some n (mk_toracle true) p s).

Abbreviation steps := (rtc (thread_step (fun _ => True) (txn_client (fun _ => true) (fun _ => 0) 0))).

Lemma txn_turn_steps n p s l1 l2 : steps (s, l1 ++ p :: l2) ((turn n p s).2, l1 ++ (turn n p s).1 :: l2).
Proof.
  unfold turn. destruct (run_some n (mk_toracle true) p s) as [[p' s'] |] eqn:E; [| apply rtc_refl].
  exact (run_some_steps (fun _ => True) _ n (mk_toracle true) p p' s s' l1 l2 I E).
Qed.

(** The handler has recorded instance 1 and looked again; then the transaction
    ends; the answer is sent; then the recorded instances are woken. *)
Definition h1 := turn 3 wait_by_1 start.
Definition e1 := turn 3 commit h1.2.
Definition h2 := turn 1 h1.1 e1.2.
Definition e2 := turn 1 e1.1 h2.2.

Lemma e2_reachable : steps (start, []) (e2.2, [e2.1; h2.1]).
Proof.
  eapply rtc_l; [apply (ts_spawn _ _ start [] wait_by_1); apply tc_wait; discriminate |].
  etrans; [apply (txn_turn_steps 3 wait_by_1 start [] []) |]. eapply rtc_l; [apply (ts_spawn _ _ _ _ commit); apply tc_end |].
  etrans; [apply (txn_turn_steps 3 commit h1.2 [] [h1.1]) |]. etrans; [apply (txn_turn_steps 1 h1.1 e1.2 [e1.1] []) |]. apply (txn_turn_steps 1 e1.1 h2.2 [] [h2.1]).
Qed.

Lemma e2_done : prog_done e2.1 /\ prog_done h2.1.
Proof. split; vm_compute; exact I. Qed.
Lemma e2_acks : ts_acks e2.2 = [(LocalDemo.xid1, 1, DLS_REMOTE_TXN_WAIT)].
Proof. vm_compute. reflexivity. Qed.
Lemma e2_ended : item_info false (ts_items e2.2 LocalDemo.xid1) = Some 77.
Proof. vm_compute. reflexivity. Qed.

Lemma txn_no_lost_wakeup_witness : (LocalDemo.xid1, 1) ∈ ts_awoken e2.2.
Proof.
  apply (txn_no_lost_wakeup (fun _ => true) (fun _ => 0) 0 running LocalDemo.tm0 e2.2 [e2.1; h2.1] LocalDemo.xid1 1).
  - exact (proj1 LocalDemo.tm0_facts).
  - exact e2_reachable.
  - constructor; [exact (proj1 e2_done) |]. constructor; [exact (proj2 e2_done) | constructor].
  - rewrite e2_ended. discriminate.
  - rewrite e2_acks. left.
  - discriminate.
Defined.

End TxnDemo.
