(* ===== verification/DrcDls.v ===== *)
(** * Distributed spin locks and latches (dtc_dls.c)

    A session locks a distributed spin lock or latch through the local
    resource of its instance.  When the instance does not own the lock in a
    sufficient mode, the session asks the lock's master, holding the spin lock
    of the local resource all the while; the master asks the owners to give
    the lock up, and grants it.

    A function of the code is a program of atomic actions ([Threads]): every
    call on a local resource and every handler of the lock catalog is one
    action, so that all other threads of the cluster may run between two of
    them.  A message to another instance runs its handler there as part of the
    sender's program, since the sender waits for the answer without a limit of
    time (DLS_WAIT_TIMEOUT); the oracle decides whether the message arrives and
    whether its answer does.  Loops take their number of turns as an argument.
    Only the branch of a clustered, mounted database is modelled; the other
    one is a spin lock of the process.  Status codes other than CT_SUCCESS are
    CT_ERROR.  Source: src/pkg/src/cluster/dtc_dls.c. *)

From stdpp Require Import prelude list.
From S2P Require Import Prelude Bitmap ResPool ResMap KeyStore ConvertQ GlobalRes DrcTypes DrcLock DrcLocal Threads.

Open Scope Z_scope.
Open Scope drc_scope.

(** ** The cluster *)

(** What becomes of a message whose sender waits for an answer: it is not
    sent, it is handled but no answer arrives, an error message arrives in
    place of an answer, or the answer arrives. *)
Inductive fate := NotSent | NoAnswer | ErrorAnswer | Answer.

#[export] Instance fate_eq_dec : EqDecision fate.
Proof. solve_decision. Defined.

(** What an action reads that the model leaves open: the state of the reform,
    the fate of a message, and the results of the calls into the storage
    engine (opening the dictionary of a table, locking the table locally, and
    announcing the split of an index). *)
Record dls_oracle := mk_oracle {
  o_env : dtc_env;
  o_fate : fate;
  o_dc : bool;
  o_table : status_t;
  o_split : status_t;
  o_rsn : Z;
}.

(** The local resources of an instance, and the locks it is the master of. *)
Record instance_st := mk_inst { in_local : local_map; in_locks : lock_ctx }.

Definition cluster : Type := Z -> instance_st.
Definition set_inst (c : cluster) (i : Z) (s : instance_st) : cluster := fun j => if j =? i then s else c j.
Definition set_local (c : cluster) (i : Z) (m : local_map) : cluster := set_inst c i (mk_inst m (in_locks (c i))).
Definition set_locks (c : cluster) (i : Z) (l : lock_ctx) : cluster := set_inst c i (mk_inst (in_local (c i)) l).

Abbreviation dprog := (prog cluster dls_oracle).

(** *** Actions *)

Definition get_oracle : dprog dls_oracle := act (fun o c => Done (Some (o, c))).
Definition lift {B} (b : outcome B) : dprog B := act (fun _ c => x ← b; Done (Some (x, c))).

Definition on_local {B} (i : Z) (f : local_map -> outcome (B * local_map)) : dprog B :=
  act (fun _ c => '(b, m) ← f (in_local (c i)); Done (Some (b, set_local c i m))).

Definition on_locks {B} (i : Z) (f : dtc_env -> lock_ctx -> outcome (B * lock_ctx)) : dprog B :=
  act (fun o c => '(b, l) ← f (o_env o) (in_locks (c i)); Done (Some (b, set_locks c i l))).

(** The calls on local resource [x] of instance [i]. *)
Definition find_res (i : Z) (k : drid_t) : dprog (option Z) :=
  on_local i (fun m => r ← drc_get_local_resx_without_create m k; Done (r, m)).
Definition get_res (i : Z) (k : drid_t) : dprog Z := on_local i (fun m => drc_get_local_resx m k).
Definition lock_res (i x : Z) : dprog unit :=
  act (fun _ c => '(got, m) ← drc_lock_local_resx (in_local (c i)) x;
                  if (got : bool) then Done (Some (tt, set_local c i m)) else Done None).
Definition try_lock_res (i x : Z) : dprog bool := on_local i (fun m => drc_try_lock_local_resx m x).
Definition unlock_res (i x : Z) : dprog unit := on_local i (fun m => m ← drc_unlock_local_resx m x; Done (tt, m)).
Definition lock_stat (i x : Z) : dprog (bool * bool) := on_local i (fun m => s ← drc_get_local_lock_statx m x; Done (s, m)).
Definition set_stat (i x : Z) (locked owner : bool) : dprog unit :=
  on_local i (fun m => m ← drc_set_local_lock_statx m x locked owner; Done (tt, m)).

(** Reading and writing the latch state through the pointer [latch_stat]. *)
Definition latch_of (i x : Z) : dprog drc_local_latch := on_local i (fun m => l ← drc_get_local_latch_statx m x; Done (l, m)).
Definition set_latch (i x : Z) (f : drc_local_latch -> drc_local_latch) : dprog unit :=
  on_local i (fun m => a ← arr_get (map_items m) x; m ← map_put m x (set_latch_stat (f (latch_stat a)) a); Done (tt, m)).

Definition with_mode (v : Z) (l : drc_local_latch) : drc_local_latch := mk_latch (shared_count l) (lstat l) (lsid l) v.
Definition with_sid (v : Z) (l : drc_local_latch) : drc_local_latch := mk_latch (shared_count l) (lstat l) (u16 v) (lock_mode l).
Definition with_count (v : Z) (l : drc_local_latch) : drc_local_latch := mk_latch v (lstat l) (lsid l) (lock_mode l).

Definition DR_TYPE_INVALID : Z := 0.
Definition DR_TYPE_SHUTDOWN : Z := 25.
Definition DR_TYPE_BTREE_LATCH : Z := 16.
Definition DR_TYPE_BRTEE_PART_LATCH : Z := 17.
Definition CT_SPIN_COUNT : Z := 1000.
Definition CT_DLS_SPIN_COUNT : Z := 3.

Section dls.
(** [inst_count] is g_mes.profile.inst_count, [part_master] the master of a
    partition, [fuel] the turns every loop gets. *)
Context (inst_count : Z) (part_master : Z -> Z) (fuel : nat).

(** ** The owner's side: giving a lock up *)

(** The local lock of a table is taken through the storage engine. *)
Definition dls_process_unlock_table (self : Z) (k : drid_t) (mode : Z) : dprog status_t :=
  o <~ get_oracle;
  if negb (o_dc o) then
    res <~ find_res self k;
    Ret (match res with None => CT_SUCCESS | Some _ => CT_ERROR end)
  else if decide (o_table o <> CT_SUCCESS) then Ret CT_ERROR
  else
    res <~ find_res self k;
    match res with
    | None => Ret CT_SUCCESS
    | Some x =>
        lock_res self x;;~
        l <~ latch_of self x;
        lift (knl_panic (negb (lock_mode l =? DRC_LOCK_NULL)));;~
        (if mode =? DRC_LOCK_EXCLUSIVE then set_latch self x (with_mode DRC_LOCK_NULL)
         else
           lift (knl_panic (mode =? DRC_LOCK_SHARE));;~
           lift (knl_panic (lock_mode l =? DRC_LOCK_EXCLUSIVE));;~
           set_latch self x (with_mode DRC_LOCK_SHARE));;~
        unlock_res self x;;~
        Ret CT_SUCCESS
    end.

(** An index that splits keeps its latch; the oracle tells whether it does. *)
Definition dls_broadcast_btree_split (k : drid_t) (mode : Z) : dprog status_t :=
  if (mode =? DRC_LOCK_SHARE) || negb (key4 k =? 0) then Ret CT_SUCCESS
  else if negb (drid_type k =? DR_TYPE_BTREE_LATCH) && negb (drid_type k =? DR_TYPE_BRTEE_PART_LATCH) then Ret CT_SUCCESS
  else o <~ get_oracle; Ret (o_split o).

(** A turn that finds the latch in use, without [is_locked], does not count
    against the timeout. *)
Fixpoint release_loop (n : nat) (self : Z) (k : drid_t) (mode ver ticks times : Z) : dprog status_t :=
  match n with
  | O => Spin
  | S n =>
      res <~ find_res self k;
      match res with
      | None => Ret CT_SUCCESS
      | Some x =>
          lock_res self x;;~
          '(locked, owner) <~ lock_stat self x;
          if locked && (drid_type k =? DR_TYPE_SHUTDOWN) then unlock_res self x;;~ Ret CT_ERROR
          else if negb (ticks =? CT_INVALID_ID32) && (ticks <=? times) then unlock_res self x;;~ Ret CT_ERROR
          else if (locked : bool) then unlock_res self x;;~ release_loop n self k mode ver ticks (u32 (times + 1))
          else
            o <~ get_oracle;
            if DRC_STOP_DLS_REQ_FOR_REFORMING ver (o_env o) k then unlock_res self x;;~ Ret CT_ERROR
            else
              l <~ latch_of self x;
              '(locked, owner) <~ lock_stat self x;
              if (negb locked && (lstat l =? LATCH_STATUS_IDLE)) || ((lstat l =? LATCH_STATUS_IX) && (shared_count l =? 0)) then
                if lock_mode l =? DRC_LOCK_NULL then unlock_res self x;;~ Ret CT_ERROR
                else
                  st <~ dls_broadcast_btree_split k mode;
                  if decide (st <> CT_SUCCESS) then unlock_res self x;;~ Ret CT_ERROR
                  else
                    (if mode =? DRC_LOCK_EXCLUSIVE then
                       set_latch self x (with_mode DRC_LOCK_NULL);;~ set_stat self x false false
                     else
                       lift (knl_panic (mode =? DRC_LOCK_SHARE));;~
                       set_latch self x (with_mode DRC_LOCK_SHARE);;~ set_stat self x false true);;~
                    unlock_res self x;;~
                    Ret CT_SUCCESS
              else unlock_res self x;;~ release_loop n self k mode ver ticks times
      end
  end.

Definition dls_process_release_ownership (self : Z) (k : drid_t) (mode ver ticks : Z) : dprog status_t :=
  o <~ get_oracle;
  if DRC_STOP_DLS_REQ_FOR_REFORMING ver (o_env o) k then Ret CT_ERROR
  else if negb (mode =? DRC_LOCK_EXCLUSIVE) && negb (mode =? DRC_LOCK_SHARE) then Ret CT_ERROR
  else if drid_type k =? DR_TYPE_TABLE then dls_process_unlock_table self k mode
  else release_loop fuel self k mode ver ticks 0.

(** The number of polls, three at most. *)
Fixpoint poll_locked (n : nat) (self x times : Z) : dprog Z :=
  match n with
  | O => Ret times
  | S n => '(locked, owner) <~ lock_stat self x;
           if (locked : bool) then poll_locked n self x (times + 1) else Ret (times + 1)
  end.

Definition dls_process_try_release_ownership (self : Z) (k : drid_t) (mode ver : Z) : dprog status_t :=
  o <~ get_oracle;
  if DRC_STOP_DLS_REQ_FOR_REFORMING ver (o_env o) k then Ret CT_ERROR
  else if negb (mode =? DRC_LOCK_EXCLUSIVE) && negb (mode =? DRC_LOCK_SHARE) then Ret CT_ERROR
  else if drid_type k =? DR_TYPE_TABLE then dls_process_unlock_table self k mode
  else
    x <~ get_res self k;
    times <~ poll_locked 3 self x 0;
    if 3 <=? times then Ret CT_ERROR
    else
      lock_res self x;;~
      l <~ latch_of self x;
      if lock_mode l =? DRC_LOCK_NULL then unlock_res self x;;~ Ret CT_ERROR
      else
        (if mode =? DRC_LOCK_EXCLUSIVE then
           set_latch self x (with_mode DRC_LOCK_NULL);;~ set_stat self x false false
         else
           lift (knl_panic (mode =? DRC_LOCK_SHARE));;~
           lift (knl_panic (lock_mode l =? DRC_LOCK_EXCLUSIVE));;~
           set_latch self x (with_mode DRC_LOCK_SHARE);;~ set_stat self x false true);;~
        unlock_res self x;;~
        Ret CT_SUCCESS.

(** ** Messages *)

Record msg_lock_req := mk_lock_req {
  src_inst : Z; src_sid : Z; rq_rsn : Z; rq_start_time : Z; rq_version : Z; rq_mode : Z; rq_ticks : Z;
}.

(** Sending a request and waiting for its answer.  When an error message
    arrives in place of an answer, the result is that of receiving it:
    CT_SUCCESS. *)
Definition dls_request_msg (self : Z) (k : drid_t) (dst : Z) (r : drc_req_info) (ver : Z) (handler : msg_lock_req -> dprog status_t)
    : dprog status_t :=
  o <~ get_oracle;
  let req := mk_lock_req self (req_inst_sid r) (o_rsn o) (dtc_now (o_env o)) ver (req_mode r) (release_timeout_ticks r) in
  if CT_MAX_INSTANCES <=? dst then Ret CT_ERROR
  else match o_fate o with
  | NotSent => Ret CT_ERROR
  | ErrorAnswer => Ret CT_SUCCESS
  | NoAnswer => handler req;;~ Ret CT_ERROR
  | Answer =>
      st <~ handler req;
      o <~ get_oracle;
      Ret (if DRC_STOP_DLS_REQ_FOR_REFORMING ver (o_env o) k then CT_ERROR else st)
  end.

Definition release_msg (self : Z) (k : drid_t) (dst : Z) (r : drc_req_info) (ver : Z) : dprog status_t :=
  dls_request_msg self k dst r ver (fun q => dls_process_release_ownership dst k (rq_mode q) (rq_version q) (rq_ticks q)).

Definition try_release_msg (self : Z) (k : drid_t) (dst : Z) (r : drc_req_info) (ver : Z) : dprog status_t :=
  dls_request_msg self k dst r ver (fun q => dls_process_try_release_ownership dst k (rq_mode q) (rq_version q)).

(** ** The master's side *)

Definition lock_master (k : drid_t) : Z := drc_get_lock_master_id part_master k.

(** [is_granted] and [old_owner_map] before the call. *)
Definition no_answer : lock_answer := mk_answer CT_SUCCESS false 0.

(** drc_request_lock_owner: its start, then one action per poll. *)
Fixpoint wait_lock_owner (n : nat) (master : Z) (k : drid_t) (r : drc_req_info) (ver x : Z) : dprog lock_answer :=
  match n with
  | O => Spin
  | S n =>
      out <~ on_locks master (fun e l => lock_wait_loop k r no_answer ver x [(e, fun l => l)] l);
      match out with Some ans => Ret ans | None => wait_lock_owner n master k r ver x end
  end.

Definition request_lock_owner (master : Z) (k : drid_t) (r : drc_req_info) (ver : Z) : dprog lock_answer :=
  step <~ on_locks master (fun e l => lock_request_start e k r no_answer ver l);
  match step with LAnswer ans => Ret ans | LWait x => wait_lock_owner fuel master k r ver x end.

Definition cancel_request (master : Z) (k : drid_t) (inst : Z) : dprog unit :=
  on_locks master (fun _ l => '(_, l) ← drc_cancel_lock_owner_request inst k l; Done (tt, l)).

Definition clear_granted (master : Z) (k : drid_t) (inst : Z) : dprog unit :=
  on_locks master (fun _ l => l ← dls_clear_granted_map_for_inst k inst l; Done (tt, l)).

Definition claim_lock (master : Z) (k : drid_t) (inst sid mode ver : Z) : dprog status_t :=
  on_locks master (fun e l => drc_claim_lock_owner e k (mk_lclaim inst mode sid) ver false l).

Definition lock_req_info (q : msg_lock_req) : drc_req_info :=
  mk_req (src_inst q) (rq_mode q) DRC_LOCK_MODE_MAX 0 (src_sid q) (rq_rsn q) (rq_start_time q) (rq_version q) CT_INVALID_ID64 (rq_ticks q).

Fixpoint first_owner (n : nat) (i old : Z) : outcome Z :=
  match n with
  | O => Done CT_INVALID_ID8
  | S n => owner ← drc_bitmap64_exist old i; if (owner : bool) then Done i else first_owner n (i + 1) old
  end.

(** An owner did not give the lock up: the request is cancelled, except when
    a reform runs. *)
Definition owner_refused (self : Z) (k : drid_t) (inst ver : Z) (ret : status_t) : dprog status_t :=
  o <~ get_oracle;
  if DRC_STOP_DLS_REQ_FOR_REFORMING ver (o_env o) k then Ret ret
  else cancel_request self k inst;;~ Ret ret.

Definition dls_process_ask_master_for_lock (self : Z) (k : drid_t) (q : msg_lock_req) : dprog status_t :=
  if negb (rq_mode q =? DRC_LOCK_EXCLUSIVE) || (CT_MAX_INSTANCES <=? src_inst q) then Ret CT_ERROR
  else
    let r := lock_req_info q in
    let ver := rq_version q in
    ans <~ request_lock_owner self k r ver;
    if decide (la_status ans <> CT_SUCCESS) then Ret CT_ERROR
    else if la_granted ans then Ret CT_SUCCESS
    else
      mine <~ lift (drc_bitmap64_exist (la_old_owner_map ans) (req_inst_id r));
      if (mine : bool) then Ret CT_SUCCESS
      else
        owner_id <~ lift (first_owner (Z.to_nat inst_count) 0 (la_old_owner_map ans));
        ret <~ (if self =? owner_id then dls_process_release_ownership self k (rq_mode q) ver (rq_ticks q)
                else release_msg self k owner_id r ver);
        if decide (ret <> CT_SUCCESS) then owner_refused self k (req_inst_id r) ver ret else Ret ret.

(** The owners other than the requester, one after the other; an owner that
    has made way for an exclusive request is taken out of the granted map. *)
Fixpoint ask_owners (n : nat) (i : Z) (self : Z) (k : drid_t) (r : drc_req_info) (ver old : Z) : dprog status_t :=
  match n with
  | O => Ret CT_SUCCESS
  | S n =>
      owner <~ lift (drc_bitmap64_exist old i);
      if negb owner || (req_inst_id r =? i) then ask_owners n (i + 1) self k r ver old
      else
        ret <~ (if self =? i then dls_process_release_ownership self k (req_mode r) ver (release_timeout_ticks r)
                else release_msg self k i r ver);
        if decide (ret <> CT_SUCCESS) then owner_refused self k (req_inst_id r) ver ret
        else
          (if req_mode r =? DRC_LOCK_EXCLUSIVE then clear_granted self k i else Ret tt);;~
          ask_owners n (i + 1) self k r ver old
  end.

Definition dls_process_ask_master_for_latch (self : Z) (k : drid_t) (mode : Z) (q : msg_lock_req) : dprog status_t :=
  if negb (rq_mode q =? mode) || (CT_MAX_INSTANCES <=? src_inst q) then Ret CT_ERROR
  else
    let r := lock_req_info q in
    let ver := rq_version q in
    ans <~ request_lock_owner self k r ver;
    if decide (la_status ans <> CT_SUCCESS) then Ret CT_ERROR
    else if la_granted ans then Ret CT_SUCCESS
    else ask_owners (Z.to_nat inst_count) 0 self k r ver (la_old_owner_map ans).

Definition dls_process_try_ask_master_for_lock (self : Z) (k : drid_t) (q : msg_lock_req) : dprog status_t :=
  if negb (rq_mode q =? DRC_LOCK_EXCLUSIVE) || (CT_MAX_INSTANCES <=? src_inst q) then Ret CT_ERROR
  else
    let r := lock_req_info q in
    let ver := rq_version q in
    ans <~ on_locks self (fun e l => drc_try_request_lock_owner e e k r no_answer ver l);
    if decide (la_status ans <> CT_SUCCESS) then Ret CT_ERROR
    else if la_granted ans then Ret CT_SUCCESS
    else
      mine <~ lift (drc_bitmap64_exist (la_old_owner_map ans) (req_inst_id r));
      if (mine : bool) then Ret CT_SUCCESS
      else
        owner_id <~ lift (first_owner (Z.to_nat inst_count) 0 (la_old_owner_map ans));
        ret <~ (if self =? owner_id then dls_process_try_release_ownership self k (req_mode r) ver
                else try_release_msg self k owner_id r ver);
        if decide (ret <> CT_SUCCESS) then owner_refused self k (req_inst_id r) ver ret else Ret ret.

(** The requests a session sends to the master. *)
Inductive lock_cmd := REQUEST_LOCK | REQUEST_LATCH_S | REQUEST_LATCH_X | TRY_REQUEST_LOCK.

(** A request that succeeds is claimed for the requester at once. *)
Definition dls_process_lock_msg (self : Z) (k : drid_t) (cmd : lock_cmd) (q : msg_lock_req) : dprog status_t :=
  ret <~ match cmd with
         | REQUEST_LOCK => dls_process_ask_master_for_lock self k q
         | REQUEST_LATCH_S => dls_process_ask_master_for_latch self k DRC_LOCK_SHARE q
         | REQUEST_LATCH_X => dls_process_ask_master_for_latch self k DRC_LOCK_EXCLUSIVE q
         | TRY_REQUEST_LOCK => dls_process_try_ask_master_for_lock self k q
         end;
  if decide (ret = CT_SUCCESS) then claim_lock self k (src_inst q) (src_sid q) (rq_mode q) (rq_version q) else Ret ret.

(** ** The requester's side

    [self] is the instance and [sid] the session. *)

(** The owners other than the master itself, which is the requester. *)
Fixpoint release_owners (n : nat) (i : Z) (self : Z) (k : drid_t) (r : drc_req_info) (ver old : Z) : dprog status_t :=
  match n with
  | O => Ret CT_SUCCESS
  | S n =>
      owner <~ lift (drc_bitmap64_exist old i);
      if negb owner || (self =? i) then release_owners n (i + 1) self k r ver old
      else
        ret <~ release_msg self k i r ver;
        if decide (ret <> CT_SUCCESS) then cancel_request self k self;;~ Ret ret
        else
          (if req_mode r =? DRC_LOCK_EXCLUSIVE then clear_granted self k i else Ret tt);;~
          release_owners n (i + 1) self k r ver old
  end.

(** The master itself asks: claim, or cancel when the claim fails. *)
Definition claim_or_cancel (self : Z) (k : drid_t) (r : drc_req_info) (ver : Z) : dprog status_t :=
  ret <~ claim_lock self k (req_inst_id r) (req_inst_sid r) (req_mode r) ver;
  if decide (ret <> CT_SUCCESS) then cancel_request self k self;;~ Ret ret else Ret ret.

Definition dls_request_lock (self : Z) (k : drid_t) (r : drc_req_info) (cmd : lock_cmd) : dprog status_t :=
  let ver := req_version r in
  if lock_master k =? self then
    ans <~ request_lock_owner self k r ver;
    if decide (la_status ans <> CT_SUCCESS) then Ret CT_ERROR
    else
      ret <~ (if la_granted ans then Ret CT_SUCCESS
              else release_owners (Z.to_nat inst_count) 0 self k r ver (la_old_owner_map ans));
      if decide (ret <> CT_SUCCESS) then Ret ret else claim_or_cancel self k r ver
  else dls_request_msg self k (lock_master k) r ver (dls_process_lock_msg (lock_master k) k cmd).

(** The loop of the try request: every owner, the requester being none. *)
Fixpoint try_release_owners (n : nat) (i : Z) (self : Z) (k : drid_t) (r : drc_req_info) (ver old : Z) : dprog status_t :=
  match n with
  | O => Ret CT_SUCCESS
  | S n =>
      owner <~ lift (drc_bitmap64_exist old i);
      if negb owner then try_release_owners n (i + 1) self k r ver old
      else
        ret <~ try_release_msg self k i r ver;
        if decide (ret <> CT_SUCCESS) then cancel_request self k self;;~ Ret ret
        else try_release_owners n (i + 1) self k r ver old
  end.

(** The request of session [sid] for mode [mode], at the current version of the reform. *)
Definition new_req_info (self sid mode ticks : Z) (o : dls_oracle) : drc_req_info :=
  mk_req self mode DRC_LOCK_MODE_MAX 0 sid (o_rsn o) (dtc_now (o_env o)) (trigger_version (o_env o)) CT_INVALID_ID64 ticks.

Definition dls_try_request_lock (self sid : Z) (k : drid_t) : dprog status_t :=
  o <~ get_oracle;
  let r := new_req_info self sid DRC_LOCK_EXCLUSIVE CT_INVALID_ID32 o in
  let ver := req_version r in
  if lock_master k =? self then
    ans <~ on_locks self (fun e l => drc_try_request_lock_owner e e k r no_answer ver l);
    if decide (la_status ans <> CT_SUCCESS) then Ret CT_ERROR
    else
      ret <~ (if la_granted ans then Ret CT_SUCCESS
              else
                mine <~ lift (drc_bitmap64_exist (la_old_owner_map ans) self);
                if (mine : bool) then cancel_request self k self;;~ Ret CT_ERROR
                else try_release_owners (Z.to_nat inst_count) 0 self k r ver (la_old_owner_map ans));
      if decide (ret <> CT_SUCCESS) then Ret ret else claim_or_cancel self k r ver
  else dls_request_msg self k (lock_master k) r ver (dls_process_lock_msg (lock_master k) k TRY_REQUEST_LOCK).

(** *** Spin locks *)

Fixpoint dls_request_spin_lock (n : nat) (self sid : Z) (k : drid_t) : dprog unit :=
  match n with
  | O => Spin
  | S n =>
      o <~ get_oracle;
      ret <~ dls_request_lock self k (new_req_info self sid DRC_LOCK_EXCLUSIVE CT_INVALID_ID32 o) REQUEST_LOCK;
      if decide (ret = CT_SUCCESS) then Ret tt else dls_request_spin_lock n self sid k
  end.

Definition valid_drid (k : drid_t) : dprog unit := lift (knl_panic (negb (drid_type k =? DR_TYPE_INVALID))).

(** The spin lock of the local resource stays taken until the unlock. *)
Definition dls_spin_lock (self sid : Z) (k : drid_t) : dprog unit :=
  valid_drid k;;~
  x <~ get_res self k;
  lock_res self x;;~
  '(locked, owner) <~ lock_stat self x;
  (if (owner : bool) then Ret tt else dls_request_spin_lock fuel self sid k);;~
  set_latch self x (with_mode DRC_LOCK_EXCLUSIVE);;~
  set_stat self x true true.

Definition dls_do_spin_try_lock (self sid : Z) (k : drid_t) : dprog bool :=
  valid_drid k;;~
  x <~ get_res self k;
  '(locked, owner) <~ lock_stat self x;
  if (locked : bool) then Ret false
  else
    got <~ try_lock_res self x;
    if negb got then Ret false
    else
      '(locked, owner) <~ lock_stat self x;
      lift (knl_panic (negb locked));;~
      ret <~ (if (owner : bool) then Ret CT_SUCCESS else dls_try_request_lock self sid k);
      if decide (ret <> CT_SUCCESS) then
        set_latch self x (with_mode DRC_LOCK_NULL);;~
        set_stat self x false false;;~
        unlock_res self x;;~
        Ret false
      else
        set_latch self x (with_mode DRC_LOCK_EXCLUSIVE);;~
        set_stat self x true true;;~
        Ret true.

Definition dls_spin_try_lock (self sid : Z) (k : drid_t) : dprog bool := dls_do_spin_try_lock self sid k.

(** [n] bounds the turns; [spin] and [ticks] are spin_times and wait_ticks. *)
Fixpoint spin_timed_loop (n : nat) (self sid : Z) (k : drid_t) (timeout_ticks spin ticks : Z) : dprog bool :=
  match n with
  | O => Spin
  | S n =>
      got <~ dls_do_spin_try_lock self sid k;
      if (got : bool) then Ret true
      else if timeout_ticks <=? ticks then Ret false
      else if spin + 1 =? CT_SPIN_COUNT then spin_timed_loop n self sid k timeout_ticks 0 (u32 (ticks + 1))
      else spin_timed_loop n self sid k timeout_ticks (spin + 1) ticks
  end.

Definition dls_spin_timed_lock (self sid : Z) (k : drid_t) (timeout_ticks : Z) : dprog bool :=
  valid_drid k;;~ spin_timed_loop fuel self sid k timeout_ticks 0 0.

Definition dls_request_spin_unlock (self x : Z) : dprog unit := set_stat self x false true.

Definition dls_spin_unlock (self : Z) (k : drid_t) : dprog unit :=
  valid_drid k;;~
  x <~ get_res self k;
  dls_request_spin_unlock self x;;~
  unlock_res self x.

(** *** Latches *)

(** dls_request_latch_s and dls_request_latch_x differ in mode and command. *)
Fixpoint request_latch_loop (n : nat) (self sid : Z) (k : drid_t) (mode : Z) (cmd : lock_cmd) (timeout : bool)
    (timeout_ticks release_ticks spin ticks : Z) : dprog bool :=
  match n with
  | O => Spin
  | S n =>
      o <~ get_oracle;
      ret <~ dls_request_lock self k (new_req_info self sid mode release_ticks o) cmd;
      if decide (ret = CT_SUCCESS) then Ret true
      else if timeout && (timeout_ticks <=? ticks) then Ret false
      else if spin + 1 =? CT_DLS_SPIN_COUNT
      then request_latch_loop n self sid k mode cmd timeout timeout_ticks release_ticks 0 (u32 (ticks + 1))
      else request_latch_loop n self sid k mode cmd timeout timeout_ticks release_ticks (spin + 1) ticks
  end.

Definition dls_request_latch_s (self sid : Z) (k : drid_t) (timeout : bool) (timeout_ticks release_ticks : Z) : dprog bool :=
  request_latch_loop fuel self sid k DRC_LOCK_SHARE REQUEST_LATCH_S timeout timeout_ticks release_ticks 0 0.
Definition dls_request_latch_x (self sid : Z) (k : drid_t) (timeout : bool) (timeout_ticks release_ticks : Z) : dprog bool :=
  request_latch_loop fuel self sid k DRC_LOCK_EXCLUSIVE REQUEST_LATCH_X timeout timeout_ticks release_ticks 0 0.

(** Waiting, without the spin lock, until [free] holds of the latch.  [None]:
    the time [limit] has run out first; [count] and [ticks] measure it. *)
Fixpoint wait_latch (n : nat) (self x : Z) (free : drc_local_latch -> bool) (limit : option Z) (count ticks : Z) : dprog (option (Z * Z)) :=
  match n with
  | O => Spin
  | S n =>
      l <~ latch_of self x;
      if free l then Ret (Some (count, ticks))
      else if match limit with Some w => w <=? ticks | None => false end then Ret None
      else if CT_SPIN_COUNT <=? count + 1 then wait_latch n self x free limit 0 (u32 (ticks + 1))
      else wait_latch n self x free limit (count + 1) ticks
  end.

Definition no_sharers (l : drc_local_latch) : bool := shared_count l =? 0.
Definition idle_or_shared (l : drc_local_latch) : bool := (lstat l =? LATCH_STATUS_IDLE) || (lstat l =? LATCH_STATUS_S).

(** The latch becomes exclusive, by session [sid]. *)
Definition make_exclusive (self x y sid : Z) : dprog unit :=
  set_latch self x (with_sid sid);;~
  set_latch self x (latch_with_stat LATCH_STATUS_X);;~
  set_latch self x (with_mode DRC_LOCK_EXCLUSIVE);;~
  set_stat self y true true;;~
  unlock_res self y.

(** dls_latch_ix2x and dls_latch_timed_ix2x: without [limit] the result is
    always true.  [x] is the resource the latch state was read from. *)
Fixpoint ix2x_loop (n : nat) (self sid : Z) (k : drid_t) (x : Z) (limit : option Z) (release_ticks count ticks : Z) : dprog bool :=
  match n with
  | O => Spin
  | S n =>
      w <~ wait_latch fuel self x no_sharers limit count ticks;
      match w with
      | None => Ret false
      | Some (count, ticks) =>
          y <~ get_res self k;
          lock_res self y;;~
          l <~ latch_of self x;
          locked <~ (if shared_count l =? 0 then dls_request_latch_x self sid k true 1 release_ticks else Ret false);
          if (locked : bool) then make_exclusive self x y sid;;~ Ret true
          else unlock_res self y;;~ ix2x_loop n self sid k x limit release_ticks count ticks
      end
  end.

Definition dls_latch_ix2x (self sid : Z) (k : drid_t) (x : Z) : dprog bool :=
  ix2x_loop fuel self sid k x None CT_INVALID_ID32 0 0.

(** The limit of the timed version is [wait_ticks]. *)
Definition dls_latch_timed_ix2x (self sid : Z) (k : drid_t) (x wait_ticks release_ticks : Z) : dprog bool :=
  ix2x_loop fuel self sid k x (Some wait_ticks) release_ticks 0 0.

(** The latch of an idle resource becomes exclusive. *)
Definition set_exclusive (self x sid : Z) : dprog unit :=
  set_latch self x (with_sid sid);;~
  set_latch self x (latch_with_stat LATCH_STATUS_X);;~
  set_stat self x true true;;~
  unlock_res self x.

Fixpoint latch_x_loop (n : nat) (self sid : Z) (k : drid_t) : dprog unit :=
  match n with
  | O => Spin
  | S n =>
      x <~ get_res self k;
      lock_res self x;;~
      l <~ latch_of self x;
      if lstat l =? LATCH_STATUS_IDLE then
        locked <~ (if lock_mode l =? DRC_LOCK_EXCLUSIVE then Ret true else dls_request_latch_x self sid k true 1 CT_INVALID_ID32);
        if negb locked then unlock_res self x;;~ latch_x_loop n self sid k
        else
          (if lock_mode l =? DRC_LOCK_EXCLUSIVE then Ret tt else set_latch self x (with_mode DRC_LOCK_EXCLUSIVE));;~
          set_exclusive self x sid
      else if lstat l =? LATCH_STATUS_S then
        set_latch self x (latch_with_stat LATCH_STATUS_IX);;~
        unlock_res self x;;~
        dls_latch_ix2x self sid k x;;~
        Ret tt
      else
        unlock_res self x;;~
        wait_latch fuel self x idle_or_shared None 0 0;;~
        latch_x_loop n self sid k
  end.

Definition dls_latch_x (self sid : Z) (k : drid_t) : dprog unit := valid_drid k;;~ latch_x_loop fuel self sid k.

(** One more sharer. *)
Definition join_sharers (self x : Z) : dprog unit :=
  set_latch self x (fun l => with_count (u16 (shared_count l + 1)) l);;~
  set_stat self x true true;;~
  unlock_res self x.

Fixpoint latch_s_loop (n : nat) (self sid : Z) (k : drid_t) (is_force : bool) : dprog unit :=
  match n with
  | O => Spin
  | S n =>
      x <~ get_res self k;
      lock_res self x;;~
      l <~ latch_of self x;
      if lstat l =? LATCH_STATUS_IDLE then
        locked <~ (if lock_mode l =? DRC_LOCK_NULL then dls_request_latch_s self sid k true 1 CT_INVALID_ID32 else Ret true);
        if negb locked then unlock_res self x;;~ latch_s_loop n self sid k is_force
        else
          (if lock_mode l =? DRC_LOCK_NULL then set_latch self x (with_mode DRC_LOCK_SHARE) else Ret tt);;~
          set_latch self x (latch_with_stat LATCH_STATUS_S);;~
          set_latch self x (with_count 1);;~
          set_latch self x (with_sid sid);;~
          set_stat self x true true;;~
          unlock_res self x
      else if (lstat l =? LATCH_STATUS_S) || ((lstat l =? LATCH_STATUS_IX) && is_force) then join_sharers self x
      else
        unlock_res self x;;~
        wait_latch fuel self x idle_or_shared None 0 0;;~
        latch_s_loop n self sid k is_force
  end.

Definition dls_latch_s (self sid : Z) (k : drid_t) (is_force : bool) : dprog unit :=
  valid_drid k;;~ latch_s_loop fuel self sid k is_force.

(** The ticks that are left for a request. *)
Definition ticks_left (wait_ticks ticks : Z) : Z := if 0 <? u32 (wait_ticks - ticks) then u32 (wait_ticks - ticks) else 0.

Fixpoint timed_s_loop (n : nat) (self sid : Z) (k : drid_t) (wait_ticks : Z) (is_force : bool) (release_ticks count ticks : Z) : dprog bool :=
  match n with
  | O => Spin
  | S n =>
      x <~ get_res self k;
      lock_res self x;;~
      l <~ latch_of self x;
      if lstat l =? LATCH_STATUS_IDLE then
        locked <~ (if lock_mode l =? DRC_LOCK_NULL then dls_request_latch_s self sid k true (ticks_left wait_ticks ticks) release_ticks else Ret true);
        if negb locked then set_stat self x false false;;~ unlock_res self x;;~ Ret false
        else
          (if lock_mode l =? DRC_LOCK_NULL then set_latch self x (with_mode DRC_LOCK_SHARE) else Ret tt);;~
          set_latch self x (latch_with_stat LATCH_STATUS_S);;~
          set_latch self x (with_count 1);;~
          set_stat self x true true;;~
          unlock_res self x;;~
          Ret true
      else if (lstat l =? LATCH_STATUS_S) || ((lstat l =? LATCH_STATUS_IX) && is_force) then join_sharers self x;;~ Ret true
      else
        unlock_res self x;;~
        w <~ wait_latch fuel self x idle_or_shared (Some wait_ticks) count ticks;
        match w with
        | None => Ret false
        | Some (count, ticks) => timed_s_loop n self sid k wait_ticks is_force release_ticks count ticks
        end
  end.

Definition dls_latch_timed_s (self sid : Z) (k : drid_t) (wait_ticks : Z) (is_force : bool) (release_ticks : Z) : dprog bool :=
  valid_drid k;;~ timed_s_loop fuel self sid k wait_ticks is_force release_ticks 0 0.

Fixpoint timed_x_loop (n : nat) (self sid : Z) (k : drid_t) (wait_ticks release_ticks count ticks : Z) : dprog bool :=
  match n with
  | O => Spin
  | S n =>
      x <~ get_res self k;
      lock_res self x;;~
      l <~ latch_of self x;
      if lstat l =? LATCH_STATUS_IDLE then
        locked <~ (if lock_mode l =? DRC_LOCK_EXCLUSIVE then Ret true else dls_request_latch_x self sid k true (ticks_left wait_ticks ticks) release_ticks);
        if negb locked then set_stat self x false false;;~ unlock_res self x;;~ Ret false
        else
          (if lock_mode l =? DRC_LOCK_EXCLUSIVE then Ret tt else set_latch self x (with_mode DRC_LOCK_EXCLUSIVE));;~
          set_exclusive self x sid;;~
          Ret true
      else if lstat l =? LATCH_STATUS_S then
        set_latch self x (latch_with_stat LATCH_STATUS_IX);;~
        unlock_res self x;;~
        got <~ dls_latch_timed_ix2x self sid k x wait_ticks release_ticks;
        if (got : bool) then Ret true
        else
          lock_res self x;;~
          set_latch self x (fun l => latch_with_stat (if 0 <? shared_count l then LATCH_STATUS_S else LATCH_STATUS_IDLE) l);;~
          unlock_res self x;;~
          Ret false
      else
        unlock_res self x;;~
        w <~ wait_latch fuel self x idle_or_shared (Some wait_ticks) count ticks;
        match w with
        | None => Ret false
        | Some (count, ticks) => timed_x_loop n self sid k wait_ticks release_ticks count ticks
        end
  end.

Definition dls_latch_timed_x (self sid : Z) (k : drid_t) (wait_ticks release_ticks : Z) : dprog bool :=
  valid_drid k;;~ timed_x_loop fuel self sid k wait_ticks release_ticks 0 0.

Definition dls_unlatch (self : Z) (k : drid_t) : dprog unit :=
  valid_drid k;;~
  x <~ get_res self k;
  lock_res self x;;~
  l <~ latch_of self x;
  (if 0 <? shared_count l then set_latch self x (fun l => with_count (shared_count l - 1) l) else Ret tt);;~
  l <~ latch_of self x;
  (if ((lstat l =? LATCH_STATUS_S) || (lstat l =? LATCH_STATUS_X)) && (shared_count l =? 0)
   then set_latch self x (latch_with_stat LATCH_STATUS_IDLE) else Ret tt);;~
  set_stat self x false true;;~
  unlock_res self x.
End dls.
