(* ===== verification/DlsInv.v ===== *)
(** * Distributed locks: the invariant of the cluster

    What a thread of the cluster knows is ghost state: the spin locks of local
    resources it holds, with the contents it found or left there, how far its
    request is at the master, and the pointers it has looked up.  The global
    invariant ties it to the local resources and to the catalogs of the
    masters: the master counts every instance among the owners that has a lock
    or is about to ([v_cover]), and while a request is being converted, the
    owners that were asked have made way and stay so ([v_conv]).  Source:
    src/pkg/src/cluster/dtc_dls.c. *)

From stdpp Require Import prelude list gmap.
From S2P Require Import Prelude Bitmap ResPool DrcList ResMap ConvertQ KeyStore GlobalRes DrcTypes DrcPage PageInv DrcLock LockProps DrcLocal LocalThms Threads DrcDls.

Open Scope Z_scope.
Open Scope drc_scope.

(** ** Ghost state *)

(** How far a thread's request is: [Conv j k rm T] when the request of
    instance [j] for lock [k] in mode [rm] is being converted and the owners in
    [T] are still to be asked, [Granted j k m] when it has been claimed. *)
Inductive stage := Rest | Conv (j : Z) (k : drid_t) (rm : Z) (T : gset Z) | Granted (j : Z) (k : drid_t) (m : Z).

Record ghost := mk_gh {
  g_held : list (Z * drid_t * drc_local_lock_res);
  g_stage : stage;
  g_ptr : list (Z * drid_t * Z);
  g_mptr : list (drid_t * Z);
}.

Definition with_stage (st : stage) (g : ghost) : ghost := mk_gh (g_held g) st (g_ptr g) (g_mptr g).
Definition with_held (h : list (Z * drid_t * drc_local_lock_res)) (g : ghost) : ghost := mk_gh h (g_stage g) (g_ptr g) (g_mptr g).
Definition add_ptr (p : Z * drid_t * Z) (g : ghost) : ghost := mk_gh (g_held g) (g_stage g) (p :: g_ptr g) (g_mptr g).
Definition add_mptr (p : drid_t * Z) (g : ghost) : ghost := mk_gh (g_held g) (g_stage g) (g_ptr g) (p :: g_mptr g).
Definition keys (g : ghost) : list (Z * drid_t) := fst <$> g_held g.
Definition stage_key (st : stage) : option (Z * drid_t) :=
  match st with Rest => None | Conv j k _ _ | Granted j k _ => Some (j, k) end.

Lemma key_granted g j k m : g_stage g = Granted j k m -> stage_key (g_stage g) = Some (j, k).
Proof. by intros ->. Qed.

Lemma key_conv g j k rm T : g_stage g = Conv j k rm T -> stage_key (g_stage g) = Some (j, k).
Proof. by intros ->. Qed.

Abbreviation mode_of b := (lock_mode (latch_stat b)).
Abbreviation stat_of b := (lstat (latch_stat b)).
Abbreviation count_of b := (shared_count (latch_stat b)).

(** An instance that was asked to make way for mode [rm] keeps at most mode [m]. *)
Definition makes_way (rm m : Z) : Prop := if rm =? DRC_LOCK_EXCLUSIVE then m = DRC_LOCK_NULL else m <> DRC_LOCK_EXCLUSIVE.

(** [m] covers [m']: an instance that has [m] may keep [m']. *)
Definition covers (m m' : Z) : Prop := m' = DRC_LOCK_NULL \/ m <> DRC_LOCK_NULL /\ (m' = DRC_LOCK_EXCLUSIVE -> m = DRC_LOCK_EXCLUSIVE).

Lemma makes_way_null rm : makes_way rm DRC_LOCK_NULL.
Proof. unfold makes_way. by destruct (rm =? DRC_LOCK_EXCLUSIVE). Qed.

Lemma makes_way_covers rm m m' : covers m m' -> makes_way rm m -> makes_way rm m'.
Proof.
  intros [-> | [Hm Hx]] Hw; [apply makes_way_null |]. unfold makes_way in *. destruct (rm =? DRC_LOCK_EXCLUSIVE); [done | tauto].
Qed.

Section inv.
(** [spin k] tells the spin locks from the latches; [inst_count] bounds the
    numbers of the instances. *)
Context (Q : list Z -> list Z -> Prop) (inst_count : Z) (part_master : Z -> Z) (spin : drid_t -> bool).

Abbreviation master k := (lock_master part_master k).
Abbreviation lview c i k := (local_view (in_local (c i)) k).
Abbreviation mview c k := (lock_view (in_locks (c (master k))) k).
Implicit Types (c : cluster) (g : ghost) (gs rest : list ghost).

(** Instance [i] has lock [k] in mode [m], or has been granted it. *)
Definition has c gs (i : Z) (k : drid_t) (m : Z) : Prop :=
  (exists b, lview c i k = Some b /\ mode_of b = m) \/ (exists g, g ∈ gs /\ g_stage g = Granted i k m).

(** The state of a resource at rest.  A spin lock that is locked is exclusive;
    when its spin word is free it is not locked, and exclusive if it is owned.
    A latch in use has the mode it needs. *)
Definition res_pure (k : drid_t) (b : drc_local_lock_res) : Prop :=
  if spin k then (is_locked b = true -> mode_of b = DRC_LOCK_EXCLUSIVE) /\
                 (ll_lock b = 0 -> is_locked b = false /\ (is_owner b = true -> mode_of b = DRC_LOCK_EXCLUSIVE))
  else (stat_of b = LATCH_STATUS_X -> count_of b = 0 /\ mode_of b = DRC_LOCK_EXCLUSIVE) /\
       (stat_of b = LATCH_STATUS_S \/ 0 < count_of b -> mode_of b <> DRC_LOCK_NULL) /\
       (stat_of b = LATCH_STATUS_IDLE -> count_of b = 0) /\ 0 <= count_of b.

(** A latch that is about to become exclusive is marked before its mode is. *)
Definition res_marked gs (i : Z) (k : drid_t) (b : drc_local_lock_res) : Prop :=
  spin k = false /\ stat_of b = LATCH_STATUS_X /\ count_of b = 0 /\ exists g, g ∈ gs /\ g_stage g = Granted i k DRC_LOCK_EXCLUSIVE.

Record master_ok (k : drid_t) (a : drc_master_res) : Prop := mk_master_ok {
  mo_null : mr_mode a = DRC_LOCK_NULL -> mr_granted_map a = 0;
  mo_spin : spin k = true -> mr_mode a <> DRC_LOCK_SHARE;
  mo_range : forall i, i ∈ inst_set (mr_granted_map a) -> i < inst_count;
}.

Record Inv c gs : Prop := mk_Inv {
  v_local : forall i, local_ok (in_local (c i));
  v_locks : forall i, lock_ok Q [] [] (in_locks (c i));
  v_master : forall k a rs, mview c k = Some (a, rs) -> master_ok k a;
  v_held : forall g i k b, g ∈ gs -> (i, k, b) ∈ g_held g -> lview c i k = Some b /\ ll_lock b = 1;
  v_uniq : NoDup (gs ≫= keys);
  v_ptr : forall g i k x, g ∈ gs -> (i, k, x) ∈ g_ptr g -> exists b, lview c i k = Some b /\ ll_idx b = x;
  v_mptr : forall g k x, g ∈ gs -> (k, x) ∈ g_mptr g -> exists a rs, mview c k = Some (a, rs) /\ mr_idx a = x;
  v_stage : forall g j k, g ∈ gs -> stage_key (g_stage g) = Some (j, k) -> (j, k) ∈ keys g;
  v_conv : forall g j k rm T, g ∈ gs -> g_stage g = Conv j k rm T ->
    inst_ok j /\ (exists a rs, mview c k = Some (a, rs) /\ req_inst_id (lock_conv a) = j) /\
    forall i m, i <> j -> i ∉ T -> has c gs i k m -> makes_way rm m;
  v_cover : forall i k m, has c gs i k m -> m <> DRC_LOCK_NULL ->
    exists a rs, mview c k = Some (a, rs) /\ i ∈ inst_set (mr_granted_map a) /\ (m = DRC_LOCK_EXCLUSIVE -> mr_mode a = DRC_LOCK_EXCLUSIVE);
  v_res : forall i k b, lview c i k = Some b -> res_pure k b \/ res_marked gs i k b;
}.

(** ** The invariant depends on the contents of the state only *)

Lemma Inv_ext c c' gs :
  (forall i, local_ok (in_local (c' i)) /\ lock_ok Q [] [] (in_locks (c' i))) -> (forall i k, lview c' i k = lview c i k) ->
  (forall k, mview c' k = mview c k) -> Inv c gs -> Inv c' gs.
Proof.
  intros E El Em []. assert (Hhas : forall i k m, has c' gs i k m -> has c gs i k m).
  { intros i k m [(b & Hb & Hm) | Hg]; [left | by right]. exists b. by rewrite El in Hb. }
  constructor.
  - intros i. apply E.
  - intros i. apply E.
  - intros k a rs. rewrite Em. apply v_master0.
  - intros g i k b. rewrite El. apply v_held0.
  - done.
  - intros g i k x. rewrite El. apply v_ptr0.
  - intros g k x. rewrite Em. apply v_mptr0.
  - done.
  - intros g j k rm T Hg Hs. rewrite Em. destruct (v_conv0 g j k rm T Hg Hs) as (? & ? & Hw). split; [done |]. split; [done |]. eauto.
  - intros i k m Hh. rewrite Em. by apply v_cover0, Hhas.
  - intros i k b. rewrite El. apply v_res0.
Qed.

Lemma has_perm c gs gs' i k m : gs ≡ₚ gs' -> has c gs i k m -> has c gs' i k m.
Proof. intros Hp [? | (g & Hg & ?)]; [by left | right]. exists g. by rewrite <- Hp. Qed.

Lemma Inv_perm c gs gs' : gs ≡ₚ gs' -> Inv c gs -> Inv c gs'.
Proof.
  intros Hp []. constructor; try done.
  - intros g i k b. rewrite <- Hp. apply v_held0.
  - assert (E : gs' ≫= keys ≡ₚ gs ≫= keys) by (by rewrite Hp). by rewrite E.
  - intros g i k x. rewrite <- Hp. apply v_ptr0.
  - intros g k x. rewrite <- Hp. apply v_mptr0.
  - intros g j k. rewrite <- Hp. apply v_stage0.
  - intros g j k rm T. rewrite <- Hp. intros Hg Hs. destruct (v_conv0 g j k rm T Hg Hs) as (? & ? & Hw). split; [done |]. split; [done |].
    intros i m ? ? Hh. apply (Hw i m); [done .. |]. by apply (has_perm c gs' gs).
  - intros i k m Hh. by apply v_cover0, (has_perm c gs' gs).
  - intros i k b Hb. destruct (v_res0 i k b Hb) as [? | (? & ? & ? & g & Hg & ?)]; [by left | right].
    split_and!; try done. exists g. by rewrite <- Hp.
Qed.

Definition no_ghost : ghost := mk_gh [] Rest [] [].

Lemma Inv_spawn c gs : Inv c gs -> Inv c (no_ghost :: gs).
Proof.
  intros []. assert (Hhas : forall i k m, has c (no_ghost :: gs) i k m -> has c gs i k m).
  { intros i k m [? | (g & Hg & Hs)]; [by left | right]. apply elem_of_cons in Hg as [-> | Hg]; [done | eauto]. }
  constructor; try done; try (intros * Hg; apply elem_of_cons in Hg as [-> | Hg]; [by intros ?%not_elem_of_nil || done | eauto; done]).
  - intros g j k rm T Hg Hs. apply elem_of_cons in Hg as [-> | Hg]; [done |].
    destruct (v_conv0 g j k rm T Hg Hs) as (? & ? & Hw). split; [done |]. split; [done |]. eauto.
  - intros i k m Hh. by apply v_cover0, Hhas.
  - intros i k b Hb. destruct (v_res0 i k b Hb) as [? | (? & ? & ? & g & Hg & ?)]; [by left | right].
    split_and!; try done. exists g. split; [by right | done].
Qed.

(** ** Changing one instance *)

Lemma in_local_set c i m j : in_local (set_local c i m j) = if j =? i then m else in_local (c j).
Proof. unfold set_local, set_inst. by destruct (j =? i). Qed.

Lemma in_locks_set_local c i m j : in_locks (set_local c i m j) = in_locks (c j).
Proof. unfold set_local, set_inst. by destruct (Z.eqb_spec j i) as [-> |]. Qed.

Lemma in_local_set_locks c i l j : in_local (set_locks c i l j) = in_local (c j).
Proof. unfold set_locks, set_inst. by destruct (Z.eqb_spec j i) as [-> |]. Qed.

Lemma in_locks_set c i l j : in_locks (set_locks c i l j) = if j =? i then l else in_locks (c j).
Proof. unfold set_locks, set_inst. by destruct (j =? i). Qed.

Lemma lview_set c i k m' b' j k0 :
  local_same_but k (in_local (c i)) m' -> local_view m' k = Some b' ->
  lview (set_local c i m') j k0 = if decide ((j, k0) = (i, k)) then Some b' else lview c j k0.
Proof.
  intros Hsb Hv. rewrite in_local_set. destruct (Z.eqb_spec j i) as [-> | Hne]; [| rewrite decide_False; congruence].
  destruct (decide (k0 = k)) as [-> | Hne]; [by rewrite decide_True | rewrite decide_False by congruence]. by apply Hsb.
Qed.

Lemma elem_of_keys g i k : (i, k) ∈ keys g <-> exists b, (i, k, b) ∈ g_held g.
Proof.
  unfold keys. rewrite list_elem_of_fmap. split.
  - intros ([[i0 k0] b] & E & Hb). cbn in E. simplify_eq. by exists b.
  - intros [b Hb]. by exists (i, k, b).
Qed.

(** Nobody else holds what the first thread holds. *)
Lemma held_alone c g rest i k b h b' : Inv c (g :: rest) -> (i, k, b) ∈ g_held g -> h ∈ rest -> (i, k, b') ∉ g_held h.
Proof.
  intros [] Hb Hh Hb'. rewrite bind_cons in v_uniq0. apply NoDup_app in v_uniq0 as (_ & Hdis & _).
  apply (Hdis (i, k)); [apply elem_of_keys; eauto |]. apply list_elem_of_bind. exists h. split; [apply elem_of_keys; eauto | done].
Qed.

(** A free spin word is held by nobody. *)
Lemma free_unheld c gs i k b h b' : Inv c gs -> lview c i k = Some b -> ll_lock b = 0 -> h ∈ gs -> (i, k, b') ∉ g_held h.
Proof. intros [] Hb Hl Hh Hb'. destruct (v_held0 h i k b' Hh Hb') as [E ?]. rewrite Hb in E. simplify_eq. congruence. Qed.

Lemma none_unheld c gs i k h b' : Inv c gs -> lview c i k = None -> h ∈ gs -> (i, k, b') ∉ g_held h.
Proof. intros [] Hb Hh Hb'. destruct (v_held0 h i k b' Hh Hb') as [E ?]. congruence. Qed.

(** A step that changes no contents. *)
Lemma Inv_local_same c i m' gs :
  local_ok m' -> (forall k, local_view m' k = lview c i k) -> Inv c gs -> Inv (set_local c i m') gs.
Proof.
  intros Hok Hv Hinv. eapply Inv_ext; [| | | exact Hinv].
  - intros j. rewrite in_local_set, in_locks_set_local. split; [| apply Hinv]. destruct (j =? i); [done | apply Hinv].
  - intros j k. rewrite in_local_set. destruct (Z.eqb_spec j i) as [-> |]; [apply Hv | done].
  - intros k. by rewrite in_locks_set_local.
Qed.

Lemma Inv_locks_view c i l' gs :
  lock_ok Q [] [] l' -> (forall k, lock_view l' k = lock_view (in_locks (c i)) k) -> Inv c gs -> Inv (set_locks c i l') gs.
Proof.
  intros Hok Hv Hinv. eapply Inv_ext; [| | | exact Hinv].
  - intros j. rewrite in_local_set_locks, in_locks_set. split; [apply Hinv |]. destruct (j =? i); [done | apply Hinv].
  - intros j k. by rewrite in_local_set_locks.
  - intros k. rewrite in_locks_set. destruct (Z.eqb_spec (master k) i) as [-> |]; [apply Hv | done].
Qed.

Lemma Inv_locks_same c i gs : Inv c gs -> Inv (set_locks c i (in_locks (c i))) gs.
Proof. intros Hinv. apply Inv_locks_view; [apply Hinv | done | done]. Qed.

(** What a step on resource [k] of instance [i] has to respect. *)
Record local_move c g rest (i : Z) (k : drid_t) (m' : local_map) (b' : drc_local_lock_res) g' : Prop := mk_lmove {
  lm_ok : local_ok m';
  lm_but : local_same_but k (in_local (c i)) m';
  lm_view : local_view m' k = Some b';
  lm_idx : forall b, lview c i k = Some b -> ll_idx b' = ll_idx b;
  lm_alone : forall h b, h ∈ rest -> (i, k, b) ∉ g_held h;
  lm_held : forall j k0 b, (j, k0, b) ∈ g_held g' ->
    ((j, k0) = (i, k) /\ b = b' /\ ll_lock b' = 1) \/ ((j, k0) <> (i, k) /\ (j, k0, b) ∈ g_held g);
  lm_nodup : NoDup (keys g');
  lm_stage : g_stage g' = g_stage g;
  lm_key : forall j k0, stage_key (g_stage g) = Some (j, k0) -> (j, k0) ∈ keys g';
  lm_mptr : g_mptr g' = g_mptr g;
  lm_ptr : forall j k0 x, (j, k0, x) ∈ g_ptr g' -> (j, k0, x) ∈ g_ptr g \/ ((j, k0) = (i, k) /\ x = ll_idx b');
  lm_mode : mode_of b' = DRC_LOCK_NULL \/ exists m, has c (g :: rest) i k m /\ covers m (mode_of b');
  lm_res : res_pure k b' \/ res_marked [g'] i k b';
}.

Lemma has_local_step c g rest i k m' b' g' j k0 m :
  local_move c g rest i k m' b' g' -> has (set_local c i m') (g' :: rest) j k0 m ->
  has c (g :: rest) j k0 m \/ ((j, k0) = (i, k) /\ m = mode_of b').
Proof.
  intros [] [(b & Hb & <-) | (h & Hh & Hs)].
  - rewrite (lview_set c i k m' b' j k0 lm_but0 lm_view0) in Hb. destruct (decide _) as [E | E]; [right | left; left; eauto]. by simplify_eq.
  - left; right. apply elem_of_cons in Hh as [-> | Hh]; [exists g; split; [left | congruence] | exists h; split; [by right | done]].
Qed.

Lemma inv_local_step c g rest i k m' b' g' : Inv c (g :: rest) -> local_move c g rest i k m' b' g' -> Inv (set_local c i m') (g' :: rest).
Proof.
  intros Hinv Hmv. pose proof (has_local_step c g rest i k m' b' g') as Hhas. pose proof Hinv as [].
  pose proof Hmv as []. pose proof (lview_set c i k m' b') as Hlv.
  assert (Hold : forall m, mode_of b' = m -> m <> DRC_LOCK_NULL -> exists m0, has c (g :: rest) i k m0 /\ covers m0 m).
  { intros m Em Hm. destruct lm_mode0 as [E | (m0 & Hm0 & Hc)]; [congruence | exists m0; by rewrite <- Em]. }
  constructor.
  - intros j. rewrite in_local_set. destruct (j =? i); [done | apply v_local0].
  - intros j. rewrite in_locks_set_local. apply v_locks0.
  - intros k0 a rs. rewrite in_locks_set_local. apply v_master0.
  - intros h j k0 b Hh Hb. rewrite Hlv by done. apply elem_of_cons in Hh as [-> | Hh].
    + destruct (lm_held0 j k0 b Hb) as [(E & -> & ?) | [E Hb']]; [by rewrite decide_True | rewrite decide_False by done].
      apply (v_held0 g); [by left | done].
    + destruct (decide _) as [E | E]; [simplify_eq; by destruct (lm_alone0 h b Hh) | apply (v_held0 h); [by right | done]].
  - rewrite bind_cons in *. apply NoDup_app in v_uniq0 as (_ & Hdis & Hnd). apply NoDup_app. split_and!; try done.
    intros [j k0] Hj Hr. apply elem_of_keys in Hj as [b Hb]. destruct (lm_held0 j k0 b Hb) as [(E & _ & _) | [_ Hb']].
    + simplify_eq. apply list_elem_of_bind in Hr as (h & Hk & Hh). apply elem_of_keys in Hk as [b2 Hb2]. by destruct (lm_alone0 h b2 Hh).
    + apply (Hdis (j, k0)); [apply elem_of_keys; eauto | done].
  - intros h j k0 x Hh Hx. rewrite Hlv by done.
    assert (Hx' : (exists b, lview c j k0 = Some b /\ ll_idx b = x) \/ ((j, k0) = (i, k) /\ x = ll_idx b')).
    { apply elem_of_cons in Hh as [-> | Hh]; [destruct (lm_ptr0 j k0 x Hx) as [Hx' | ?]; [left | by right] | left].
      - apply (v_ptr0 g); [by left | done].
      - apply (v_ptr0 h); [by right | done]. }
    destruct (decide _) as [E | E]; [| destruct Hx' as [? | [? _]]; done]. exists b'. split; [done |].
    destruct Hx' as [(b & Hb & <-) | [_ ->]]; [simplify_eq; by apply lm_idx0 | done].
  - intros h k0 x Hh Hx. rewrite in_locks_set_local. apply elem_of_cons in Hh as [-> | Hh].
    + apply (v_mptr0 g); [by left | congruence].
    + apply (v_mptr0 h); [by right | done].
  - intros h j k0 Hh Hs. apply elem_of_cons in Hh as [-> | Hh]; [apply lm_key0; congruence | apply v_stage0; [by right | done]].
  - intros h j k0 rm T Hh Hs. rewrite in_locks_set_local.
    assert (Hold2 : exists h', h' ∈ g :: rest /\ g_stage h' = Conv j k0 rm T).
    { apply elem_of_cons in Hh as [-> | Hh]; [exists g; split; [by left | congruence] | exists h; split; [by right | done]]. }
    destruct Hold2 as (h' & Hh' & Hs'). destruct (v_conv0 h' j k0 rm T Hh' Hs') as (Hjok & Hc & Hw). split; [done |]. split; [done |].
    intros j2 m Hj2 HT Hm. destruct (Hhas j2 k0 m Hmv Hm) as [Hm' | [E ->]]; [by apply (Hw j2 m) |]. simplify_eq.
    destruct (decide (mode_of b' = DRC_LOCK_NULL)) as [-> | Hnn]; [apply makes_way_null |].
    destruct (Hold _ eq_refl Hnn) as (m0 & Hm0 & Hcov). by apply (makes_way_covers rm m0), (Hw i m0).
  - intros j k0 m Hm Hnn. rewrite in_locks_set_local. destruct (Hhas j k0 m Hmv Hm) as [Hm' | [E ->]]; [by apply v_cover0 |]. simplify_eq.
    destruct (Hold _ eq_refl Hnn) as (m0 & Hm0 & [Hc | [Hm0n Hx]]); [done |].
    destruct (v_cover0 i k m0 Hm0 Hm0n) as (a & rs & ? & ? & ?). exists a, rs. split_and!; try done. auto.
  - intros j k0 b Hb. rewrite Hlv in Hb by done. destruct (decide _) as [E | E].
    + simplify_eq. destruct lm_res0 as [? | (? & ? & ? & h & Hh & ?)]; [by left | right]. split_and!; try done. exists h.
      apply list_elem_of_singleton in Hh as ->. split; [left | done].
    + destruct (v_res0 j k0 b Hb) as [? | (? & ? & ? & h & Hh & Hs)]; [by left | right]. split_and!; try done.
      apply elem_of_cons in Hh as [-> | Hh]; [exists g'; split; [left | congruence] | exists h; split; [by right | done]].
Qed.

(** ** Changing the catalog of a master *)

Record master_move c g rest (k : drid_t) (l' : lock_ctx) (a' : drc_master_res) (rs' : list drc_req_info) g' : Prop := mk_mmove {
  mm_ok : lock_ok Q [] [] l';
  mm_but : lock_same_but k (in_locks (c (master k))) l';
  mm_view : lock_view l' k = Some (a', rs');
  mm_master : master_ok k a';
  mm_idx : forall a rs, mview c k = Some (a, rs) -> mr_idx a' = mr_idx a;
  mm_held : g_held g' = g_held g;
  mm_ptr : g_ptr g' = g_ptr g;
  mm_mptr : forall k0 x, (k0, x) ∈ g_mptr g' -> (k0, x) ∈ g_mptr g \/ (k0 = k /\ x = mr_idx a');
  mm_key : forall j k0, stage_key (g_stage g') = Some (j, k0) -> k0 = k /\ (j, k0) ∈ keys g;
  mm_rest : forall h j rm T, h ∈ rest -> g_stage h = Conv j k rm T -> req_inst_id (lock_conv a') = j /\ forall i m, g_stage g' <> Granted i k m;
  mm_conv : forall j rm T, g_stage g' = Conv j k rm T -> inst_ok j /\ req_inst_id (lock_conv a') = j /\
    forall i m, i <> j -> i ∉ T -> has c rest i k m -> makes_way rm m;
  mm_cover : forall i m, has c (g' :: rest) i k m -> m <> DRC_LOCK_NULL ->
    i ∈ inst_set (mr_granted_map a') /\ (m = DRC_LOCK_EXCLUSIVE -> mr_mode a' = DRC_LOCK_EXCLUSIVE);
  mm_res : forall i k0 b, g_stage g = Granted i k0 DRC_LOCK_EXCLUSIVE -> (i, k0, b) ∈ g_held g -> res_pure k0 b;
}.

Lemma mview_set c k l' k0 :
  lock_same_but k (in_locks (c (master k))) l' -> k0 <> k -> mview (set_locks c (master k) l') k0 = mview c k0.
Proof.
  intros Hsb Hk. rewrite in_locks_set. destruct (Z.eqb_spec (master k0) (master k)) as [E |]; [| done]. rewrite E. by apply Hsb.
Qed.

Lemma mview_set_eq c k l' : mview (set_locks c (master k) l') k = lock_view l' k.
Proof. by rewrite in_locks_set, Z.eqb_refl. Qed.

Lemma has_set_locks c i l gs j k m : has (set_locks c i l) gs j k m -> has c gs j k m.
Proof. intros [(b & Hb & ?) | ?]; [left; exists b; by rewrite in_local_set_locks in Hb | by right]. Qed.

(** The thread's own stage aside. *)
Lemma has_cons c g rest i k m : has c (g :: rest) i k m -> has c rest i k m \/ g_stage g = Granted i k m.
Proof. intros [? | (h & Hh & ?)]; [left; by left |]. apply elem_of_cons in Hh as [-> | Hh]; [by right | left; right; eauto]. Qed.

Lemma has_rest c g rest i k m : has c rest i k m -> has c (g :: rest) i k m.
Proof. intros [? | (h & Hh & ?)]; [by left | right; exists h; split; [by right | done]]. Qed.

Lemma inv_master_step c g rest k l' a' rs' g' :
  Inv c (g :: rest) -> master_move c g rest k l' a' rs' g' -> Inv (set_locks c (master k) l') (g' :: rest).
Proof.
  intros Hinv Hmv. pose proof Hinv as []. pose proof Hmv as [].
  assert (Hk : forall k0 a rs, mview (set_locks c (master k) l') k0 = Some (a, rs) -> k0 = k /\ (a, rs) = (a', rs') \/ k0 <> k /\ mview c k0 = Some (a, rs)).
  { intros k0 a rs Hv. destruct (decide (k0 = k)) as [-> |]; [left | right; by rewrite mview_set in Hv].
    rewrite mview_set_eq, mm_view0 in Hv. by simplify_eq. }
  assert (Hhas : forall i k0 m, k0 <> k -> has (set_locks c (master k) l') (g' :: rest) i k0 m -> has c (g :: rest) i k0 m).
  { intros i k0 m Hne [Hr | Hs]%has_set_locks%has_cons; [by apply has_rest |]. by destruct (mm_key0 i k0 (key_granted _ _ _ _ Hs)). }
  constructor.
  - intros i. rewrite in_local_set_locks. apply v_local0.
  - intros i. rewrite in_locks_set. destruct (i =? master k); [done | apply v_locks0].
  - intros k0 a rs [[-> ?] | [_ Hv]]%Hk; [by simplify_eq | by eapply v_master0].
  - intros h i k0 b Hh Hb. rewrite in_local_set_locks. apply elem_of_cons in Hh as [-> | Hh].
    + apply (v_held0 g); [by left | congruence].
    + apply (v_held0 h); [by right | done].
  - rewrite bind_cons in *. unfold keys at 1 in v_uniq0. unfold keys at 1. by rewrite mm_held0.
  - intros h i k0 x Hh Hx. rewrite in_local_set_locks. apply elem_of_cons in Hh as [-> | Hh].
    + apply (v_ptr0 g); [by left | congruence].
    + apply (v_ptr0 h); [by right | done].
  - intros h k0 x Hh Hx.
    assert (Hx' : (exists a rs, mview c k0 = Some (a, rs) /\ mr_idx a = x) \/ (k0 = k /\ x = mr_idx a')).
    { apply elem_of_cons in Hh as [-> | Hh]; [destruct (mm_mptr0 k0 x Hx) as [Hx' | ?]; [left | by right] | left].
      - apply (v_mptr0 g); [by left | done].
      - apply (v_mptr0 h); [by right | done]. }
    destruct (decide (k0 = k)) as [-> | Hne]; [| destruct Hx' as [? | [? _]]; [by rewrite mview_set | done]].
    rewrite mview_set_eq. exists a', rs'. split; [done |]. destruct Hx' as [(a & rs & Hv & <-) | [_ ->]]; [by eapply mm_idx0 | done].
  - intros h j k0 Hh Hs. apply elem_of_cons in Hh as [-> | Hh]; [| apply v_stage0; [by right | done]].
    unfold keys. rewrite mm_held0. by apply mm_key0.
  - intros h j k0 rm T Hh Hs. destruct (decide (k0 = k)) as [-> | Hne].
    + apply elem_of_cons in Hh as [-> | Hh].
      * destruct (mm_conv0 j rm T Hs) as (Hj & Hc & Hw). split; [done |]. split; [rewrite mview_set_eq; eauto |].
        intros i m Hi HT [Hr | Hg]%has_set_locks%has_cons; [by eapply Hw | congruence].
      * destruct (mm_rest0 h j rm T Hh Hs) as [Hc Hng]. destruct (v_conv0 h j k rm T (list_elem_of_further _ _ _ Hh) Hs) as (Hj & _ & Hw).
        split; [done |]. split; [rewrite mview_set_eq; eauto |].
        intros i m Hi HT [Hr | Hg]%has_set_locks%has_cons; [by apply (Hw i m Hi HT), has_rest | by destruct (Hng i m)].
    + apply elem_of_cons in Hh as [-> | Hh]; [by destruct (mm_key0 j k0 (key_conv _ _ _ _ _ Hs)) |].
      destruct (v_conv0 h j k0 rm T (list_elem_of_further _ _ _ Hh) Hs) as (Hj & Hc & Hw). rewrite mview_set by done. eauto.
  - intros i k0 m Hm Hnn. destruct (decide (k0 = k)) as [-> | Hne].
    + rewrite mview_set_eq. destruct (mm_cover0 i m (has_set_locks _ _ _ _ _ _ _ Hm) Hnn) as [? ?]. by exists a', rs'.
    + rewrite mview_set by done. apply (v_cover0 i k0 m); [by apply Hhas | done].
  - intros i k0 b. rewrite in_local_set_locks. intros Hb. destruct (v_res0 i k0 b Hb) as [? | (? & ? & ? & h & Hh & Hs)]; [by left |].
    apply elem_of_cons in Hh as [-> | Hh]; [left | right; split_and!; try done; exists h; split; [by right | done]].
    pose proof (v_stage0 g i k0 (list_elem_of_here _ _) (key_granted _ _ _ _ Hs)) as [b2 Hb2]%elem_of_keys.
    destruct (v_held0 g i k0 b2 (list_elem_of_here _ _) Hb2) as [E _]. rewrite Hb in E. simplify_eq. by apply (mm_res0 i).
Qed.

(** ** Forgetting how far a request is *)

Definition pure_stage g : Prop :=
  match stage_key (g_stage g) with None => True | Some (j, k) => exists b, (j, k, b) ∈ g_held g /\ res_pure k b end.

Lemma pure_marked c g rest i k b : Inv c (g :: rest) -> pure_stage g -> g_stage g = Granted i k DRC_LOCK_EXCLUSIVE -> lview c i k = Some b -> res_pure k b.
Proof.
  intros [] Hp Hs Hb. unfold pure_stage in Hp. rewrite Hs in Hp. destruct Hp as (b2 & Hb2 & Hr).
  destruct (v_held0 g i k b2 (list_elem_of_here _ _) Hb2) as [E _]. rewrite Hb in E. by simplify_eq.
Qed.

Lemma upd_rest g : pure_stage g -> upd Inv g (with_stage Rest g).
Proof.
  intros Hp c rest Hinv. pose proof Hinv as [].
  assert (Hhas : forall i k m, has c (with_stage Rest g :: rest) i k m -> has c (g :: rest) i k m).
  { intros i k m [Hr | Hs]%has_cons; [by apply has_rest | done]. }
  constructor; try done.
  - intros h i k b [-> | Hh]%elem_of_cons Hb; [apply (v_held0 g); [by left | done] | apply (v_held0 h); [by right | done]].
  - intros h i k b [-> | Hh]%elem_of_cons Hb; [apply (v_ptr0 g); [by left | done] | apply (v_ptr0 h); [by right | done]].
  - intros h k x [-> | Hh]%elem_of_cons Hb; [apply (v_mptr0 g); [by left | done] | apply (v_mptr0 h); [by right | done]].
  - intros h j k [-> | Hh]%elem_of_cons Hb; [done | apply (v_stage0 h); [by right | done]].
  - intros h j k rm T [-> | Hh]%elem_of_cons Hs; [done |].
    destruct (v_conv0 h j k rm T (list_elem_of_further _ _ _ Hh) Hs) as (? & ? & Hw). split; [done |]. split; [done |]. eauto.
  - intros i k m Hh. by apply v_cover0, Hhas.
  - intros i k b Hb. destruct (v_res0 i k b Hb) as [? | (? & ? & ? & h & Hh & Hs)]; [by left |].
    apply elem_of_cons in Hh as [-> | Hh]; [left; by eapply pure_marked | right].
    split_and!; try done. exists h. split; [by right | done].
Qed.

(** An owner that was asked has made way. *)
Lemma upd_made_way_gen c g rest i j k rm T :
  Inv c (g :: rest) -> g_stage g = Conv j k rm T -> (forall m, has c (g :: rest) i k m -> makes_way rm m) ->
  Inv c (with_stage (Conv j k rm (T ∖ {[i]})) g :: rest).
Proof.
  intros [] Hst Hway. set (g' := with_stage (Conv j k rm (T ∖ {[i]})) g).
  assert (Hhas : forall i k m, has c (g' :: rest) i k m -> has c (g :: rest) i k m).
  { intros i0 k0 m [Hr | Hs]%has_cons; [by apply has_rest | done]. }
  assert (Hg : g ∈ g :: rest) by left.
  constructor; try done.
  - intros h i0 k0 b [-> | Hh]%elem_of_cons Hb; [by apply (v_held0 g) | apply (v_held0 h); [by right | done]].
  - intros h i0 k0 b [-> | Hh]%elem_of_cons Hb; [by apply (v_ptr0 g) | apply (v_ptr0 h); [by right | done]].
  - intros h k0 x [-> | Hh]%elem_of_cons Hb; [by apply (v_mptr0 g) | apply (v_mptr0 h); [by right | done]].
  - intros h j0 k0 [-> | Hh]%elem_of_cons Hb; [apply (v_stage0 g); [done | by rewrite Hst] | apply (v_stage0 h); [by right | done]].
  - intros h j0 k0 rm0 T0 [-> | Hh]%elem_of_cons Hs.
    + cbn in Hs. simplify_eq. destruct (v_conv0 g j0 k0 rm0 T Hg Hst) as (Hj & Hc & Hw). split; [done |]. split; [done |].
      intros i0 m Hi0 HT Hm%Hhas. destruct (decide (i0 = i)) as [-> |]; [by apply Hway |]. apply (Hw i0 m); [done | set_solver | done].
    + destruct (v_conv0 h j0 k0 rm0 T0 (list_elem_of_further _ _ _ Hh) Hs) as (Hj & Hc & Hw). split; [done |]. split; [done |]. eauto.
  - intros i0 k0 m Hh. by apply v_cover0, Hhas.
  - intros i0 k0 b Hb. destruct (v_res0 i0 k0 b Hb) as [? | (? & ? & ? & h & Hh & Hs)]; [by left | right].
    split_and!; try done. apply elem_of_cons in Hh as [-> | Hh]; [congruence |]. exists h. split; [by right | done].
Qed.

(** A granted stage of the thread that holds the resource is its own. *)
Lemma has_held c g rest i k b m : Inv c (g :: rest) -> (i, k, b) ∈ g_held g -> has c (g :: rest) i k m -> mode_of b = m \/ g_stage g = Granted i k m.
Proof.
  intros Hinv Hb Hm. pose proof Hinv as []. apply has_cons in Hm as [[(b2 & Hb2 & <-) | (h & Hh & Hs)] | Hs]; [left | exfalso | by right].
  - destruct (v_held0 g i k b (list_elem_of_here _ _) Hb) as [E _]. rewrite Hb2 in E. by simplify_eq.
  - apply list_elem_of_further with (y := g) in Hh as Hh'. apply key_granted in Hs. apply (v_stage0 h) in Hs as [b2 Hb2]%elem_of_keys; [| done].
    by eapply held_alone.
Qed.

Lemma upd_made_way g i j k rm T b :
  g_stage g = Conv j k rm T -> (i, k, b) ∈ g_held g -> makes_way rm (mode_of b) -> upd Inv g (with_stage (Conv j k rm (T ∖ {[i]})) g).
Proof.
  intros Hst Hb Hw c rest Hinv. apply upd_made_way_gen; [done | done |].
  intros m Hm. destruct (has_held c g rest i k b m Hinv Hb Hm) as [<- | E]; [done | congruence].
Qed.
End inv.
