(* ===== verification/DlsRules.v ===== *)
(** * Distributed locks: the rules of the atomic actions

    One rule per call a program of [DrcDls] makes: what the call needs the
    thread to know, and what the thread knows afterwards.  Source:
    src/pkg/src/cluster/dtc_dls.c. *)

From stdpp Require Import prelude list gmap.
From S2P Require Import Prelude Bitmap ResPool DrcList ResMap ConvertQ KeyStore GlobalRes DrcTypes DrcPage PageInv DrcLock LockProps DrcLocal LocalThms Threads DrcDls DlsInv.

Open Scope Z_scope.
Open Scope drc_scope.

(** The oracles of a network that loses messages and answers, but delivers no
    error message in place of an answer. *)
Definition no_error_answer (o : dls_oracle) : Prop := o_fate o <> ErrorAnswer.

Section rules.
Context (Q : list Z -> list Z -> Prop) (inst_count : Z) (part_master : Z -> Z) (spin : drid_t -> bool).

Abbreviation Inv := (Inv Q inst_count part_master spin).
Abbreviation master k := (lock_master part_master k).
Abbreviation lview c i k := (local_view (in_local (c i)) k).
Abbreviation mview c k := (lock_view (in_locks (c (master k))) k).
Abbreviation wp := (wp Inv no_error_answer).
Abbreviation upd := (upd Inv).
Abbreviation res_pure := (res_pure spin).
Implicit Types (c : cluster) (g : ghost) (rest : list ghost).

(** ** Reading *)

Lemma wp_get_oracle g (post : dls_oracle -> ghost -> Prop) : (forall o, no_error_answer o -> post o g) -> wp get_oracle g post.
Proof. intros Hp. apply wp_act. intros o c rest o' c' Ho Hinv [= <- <-]. exists g. auto. Qed.

Lemma wp_lift {B} (b : outcome B) g (post : B -> ghost -> Prop) : (forall x, b = Done x -> post x g) -> wp (lift b) g post.
Proof. intros Hp. apply wp_act. intros o c rest x c' Ho Hinv (y & Hy & [= <- <-])%bind_Done. exists g. auto. Qed.

Lemma wp_read {B} i (h : local_map -> outcome B) g (post : B -> ghost -> Prop) :
  (forall c rest x, Inv c (g :: rest) -> h (in_local (c i)) = Done x -> exists g', Inv c (g' :: rest) /\ post x g') ->
  wp (on_local i (fun m => r ← h m; Done (r, m))) g post.
Proof.
  intros Hp. apply wp_act. intros o c rest x c' Ho Hinv ([y m] & (z & Hz & [= <- <-])%bind_Done & [= <- <-])%bind_Done.
  destruct (Hp c rest z Hinv Hz) as (g' & Hinv' & Hpost). exists g'. split; [| done].
  apply Inv_local_same; [apply Hinv' | done | done].
Qed.

(** What a pointer points to. *)
Lemma ptr_items c gs g i k x : Inv c gs -> g ∈ gs -> (i, k, x) ∈ g_ptr g ->
  exists b b0, lview c i k = Some b /\ map_lookup (in_local (c i)) k = Done (Some x) /\ (map_items (in_local (c i))).[x] = Some b0 /\
    bare b0 = b /\ ll_idx b = x.
Proof.
  intros [] Hg Hx. destruct (v_ptr g i k x Hg Hx) as (b & Hb & Hidx).
  destruct (local_lookup _ k b (v_local i) Hb) as (y & Hl & Hy & _). rewrite Hidx in Hy. subst y.
  destruct (local_at _ k x b (v_local i) Hl Hb) as (b0 & Hb0 & Hbare & _). by exists b, b0.
Qed.

Lemma held_items c rest g i k b : Inv c (g :: rest) -> (i, k, b) ∈ g_held g ->
  exists b0, lview c i k = Some b /\ map_lookup (in_local (c i)) k = Done (Some (ll_idx b)) /\
    (map_items (in_local (c i))).[ll_idx b] = Some b0 /\ bare b0 = b /\ ll_lock b = 1.
Proof.
  intros [] Hb. destruct (v_held g i k b (list_elem_of_here _ _) Hb) as [Hv Hl].
  destruct (local_lookup _ k b (v_local i) Hv) as (y & Hlk & Hy & _). subst y.
  destruct (local_at _ k _ b (v_local i) Hlk Hv) as (b0 & Hb0 & Hbare & _). by exists b0.
Qed.

Lemma wp_lock_stat i k b g (post : bool * bool -> ghost -> Prop) :
  (i, k, b) ∈ g_held g -> post (is_locked b, is_owner b) g -> wp (lock_stat i (ll_idx b)) g post.
Proof.
  intros Hb Hp. apply wp_read. intros c rest x Hinv Hrun. exists g. split; [done |].
  destruct (held_items c rest g i k b Hinv Hb) as (b0 & _ & _ & Hb0 & Hbare & _).
  unfold drc_get_local_lock_statx in Hrun. rewrite (arr_get_eq _ _ _ Hb0) in Hrun. injection Hrun as <-. by subst b.
Qed.

Lemma wp_latch_of i k b g (post : drc_local_latch -> ghost -> Prop) :
  (i, k, b) ∈ g_held g -> post (latch_stat b) g -> wp (latch_of i (ll_idx b)) g post.
Proof.
  intros Hb Hp. apply wp_read. intros c rest x Hinv Hrun. exists g. split; [done |].
  destruct (held_items c rest g i k b Hinv Hb) as (b0 & _ & _ & Hb0 & Hbare & _).
  unfold drc_get_local_latch_statx in Hrun. rewrite (arr_get_eq _ _ _ Hb0) in Hrun. injection Hrun as <-. by subst b.
Qed.

(** Without the spin lock anything may be read. *)
Lemma wp_lock_stat_any i x g (post : bool * bool -> ghost -> Prop) : (forall s, post s g) -> wp (lock_stat i x) g post.
Proof. intros Hp. apply wp_read. intros c rest s Hinv _. eauto. Qed.

Lemma wp_latch_any i x g (post : drc_local_latch -> ghost -> Prop) : (forall l, post l g) -> wp (latch_of i x) g post.
Proof. intros Hp. apply wp_read. intros c rest s Hinv _. eauto. Qed.

(** ** Finding a resource *)

Lemma inv_add_ptr c g rest i k x b :
  Inv c (g :: rest) -> lview c i k = Some b -> ll_idx b = x -> Inv c (add_ptr (i, k, x) g :: rest).
Proof.
  intros Hinv Hb Hx. pose proof Hinv as []. assert (Hg : g ∈ g :: rest) by left. constructor; try done.
  - intros h j k0 b0 [-> | Hh]%elem_of_cons H0; [by apply (v_held g) | apply (v_held h); [by right | done]].
  - intros h j k0 y [-> | Hh]%elem_of_cons H0; [| apply (v_ptr h); [by right | done]].
    apply elem_of_cons in H0 as [[= -> -> ->] | H0]; [eauto | by apply (v_ptr g)].
  - intros h k0 y [-> | Hh]%elem_of_cons H0; [by apply (v_mptr g) | apply (v_mptr h); [by right | done]].
  - intros h j k0 [-> | Hh]%elem_of_cons H0; [by apply (v_stage g) | apply (v_stage h); [by right | done]].
  - intros h j k0 rm T [-> | Hh]%elem_of_cons H0.
    + destruct (v_conv g j k0 rm T Hg H0) as (Hj & Hc & Hw). split; [done |]. split; [done |].
      intros i0 m Hi HT [Hr | Hs]%has_cons; apply (Hw i0 m Hi HT); [by apply has_rest | right; by exists g].
    + destruct (v_conv h j k0 rm T (list_elem_of_further _ _ _ Hh) H0) as (Hj & Hc & Hw). split; [done |]. split; [done |].
      intros i0 m Hi HT [Hr | Hs]%has_cons; apply (Hw i0 m Hi HT); [by apply has_rest | right; by exists g].
  - intros i0 k0 m [Hr | Hs]%has_cons; apply v_cover; [by apply has_rest | right; by exists g].
  - intros i0 k0 b0 Hb0. destruct (v_res i0 k0 b0 Hb0) as [? | (? & ? & ? & h & Hh & Hs)]; [by left | right]. split_and!; try done.
    apply elem_of_cons in Hh as [-> | Hh]; [eexists; split; [left | done] | exists h; split; [by right | done]].
Qed.

Lemma find_cases m k r : local_ok m -> drc_get_local_resx_without_create m k = Done r ->
  r = ll_idx <$> local_view m k.
Proof.
  intros Hok Hrun. pose proof (store_cases local_inv m k Hok) as Hc. destruct (local_view m k) as [b |].
  - destruct Hc as (x & b0 & Hl & _ & -> & Hidx & _). pose proof (eq_trans (eq_sym Hrun) Hl) as E. apply Done_inj in E as ->. by rewrite <- Hidx.
  - pose proof (eq_trans (eq_sym Hrun) Hc) as E. by apply Done_inj in E.
Qed.

(** The resource of an instance that does not have one is not locked by it:
    an instance that has no resource has made way. *)
Lemma wp_find i k g (post : option Z -> ghost -> Prop) :
  (forall x, post (Some x) (add_ptr (i, k, x) g)) ->
  (forall g', g' = g \/ (exists j rm T, g_stage g = Conv j k rm T /\ g' = with_stage (Conv j k rm (T ∖ {[i]})) g) ->
     (forall j rm T, g_stage g = Conv j k rm T -> g_stage g' = Conv j k rm (T ∖ {[i]})) -> post None g') ->
  wp (find_res i k) g post.
Proof.
  intros Hsome Hnone. apply wp_read. intros c rest r Hinv Hrun. apply find_cases in Hrun; [| apply Hinv]. subst r.
  destruct (lview c i k) as [b |] eqn:Hb.
  - exists (add_ptr (i, k, ll_idx b) g). split; [by apply (inv_add_ptr c g rest i k _ b Hinv Hb) | apply Hsome].
  - cbn. assert (Hcase : (forall j rm T, g_stage g <> Conv j k rm T) \/ (exists j rm T, g_stage g = Conv j k rm T)).
    { destruct (g_stage g) as [| j k0 rm T |]; [by left | | by left]. destruct (decide (k0 = k)) as [-> |]; [right; eauto | left; congruence]. }
    destruct Hcase as [Hn | (j & rm & T & Hs)].
    { exists g. split; [done |]. apply Hnone; [by left |]. intros j rm T Hs. by destruct (Hn j rm T). }
    exists (with_stage (Conv j k rm (T ∖ {[i]})) g). split; [| apply Hnone; [right; eauto |]; intros; cbn; congruence].
    apply upd_made_way_gen; [done | done |]. intros m [(b & Hb2 & _) | (h & Hh & Hg)]; [congruence |].
    apply key_granted in Hg. apply (v_stage _ _ _ _ _ _ Hinv h) in Hg as [b2 Hb2]%elem_of_keys; [| done].
    by destruct (none_unheld _ _ _ _ c _ i k h b2 Hinv Hb Hh).
Qed.

Lemma get_res_full m k : local_ok m -> local_view m k = None -> store_full m -> drc_get_local_resx m k = Crash KnlPanic.
Proof.
  intros Hok Hv Hfull. pose proof (store_cases local_inv m k Hok) as Hc. rewrite Hv in Hc. unfold drc_get_local_resx. rewrite Hc. ostep.
  unfold drc_create_local_lock_res. rewrite (store_create_full local_inv) by done. ostep. reflexivity.
Qed.

Lemma get_res_inv m k x m' : local_ok m -> drc_get_local_resx m k = Done (x, m') ->
  local_ok m' /\ local_same_but k m m' /\ exists b, local_view m' k = Some b /\ ll_idx b = x /\
    (local_view m k = Some b /\ m' = m \/ local_view m k = None /\ b = bare (new_local k x zero_local)).
Proof.
  intros Hok Hrun. assert (Hnf : local_view m k = None -> ~ store_full m).
  { intros Hv Hfull. pose proof (eq_trans (eq_sym Hrun) (get_res_full m k Hok Hv Hfull)) as E. discriminate E. }
  destruct (get_resx_spec m k Hok Hnf) as (i & m2 & Hr & Hok2 & Hsb & Hl & Hv2 & Hm).
  pose proof (eq_trans (eq_sym Hrun) Hr) as E. apply Done_inj in E. apply pair_eq in E as [<- <-].
  split; [exact Hok2 |]. split; [exact Hsb |]. eexists. split; [exact Hv2 |].
  destruct (local_lookup _ k _ Hok2 Hv2) as (y & Hly & Hy & _). pose proof (eq_trans (eq_sym Hl) Hly) as E. apply Done_inj in E. injection E as <-.
  split; [exact Hy |]. destruct (local_view m k) as [a |]; [left | by right]. split; [done | by apply Hm].
Qed.

Lemma new_local_pure k x : res_pure k (bare (new_local k x zero_local)).
Proof. unfold DlsInv.res_pure. destruct (spin k); [done |]. split_and!; [done | intros [? | ?]; done | done | done]. Qed.

Lemma wp_get i k g (post : Z -> ghost -> Prop) : (forall x, post x (add_ptr (i, k, x) g)) -> wp (get_res i k) g post.
Proof.
  intros Hp. apply wp_act. intros o c rest x c' Ho Hinv ([y m'] & Hrun & [= <- <-])%bind_Done.
  destruct (get_res_inv _ k y m' ltac:(apply Hinv) Hrun) as (Hok' & Hsb & b & Hb & Hidx & Hcase).
  exists (add_ptr (i, k, y) g). split; [| done]. destruct Hcase as [[Hv ->] | [Hv ->]].
  - eapply inv_add_ptr; [| rewrite in_local_set, Z.eqb_refl; exact Hb | done]. by apply Inv_local_same.
  - apply (inv_local_step _ _ _ _ c g rest i k m' (bare (new_local k y zero_local))); [done |]. constructor; try done.
    + intros b. congruence.
    + intros h b Hh. apply (none_unheld _ _ _ _ c _ i k h b Hinv Hv). by right.
    + intros j k0 b Hb0. right. split; [| done]. intros [= -> ->]. by apply (none_unheld _ _ _ _ c _ i k g b Hinv Hv (list_elem_of_here _ _)).
    + pose proof (v_uniq _ _ _ _ _ _ Hinv) as Hu. rewrite bind_cons in Hu. by apply NoDup_app in Hu as [? _].
    + intros j k0 Hs. apply (v_stage _ _ _ _ _ _ Hinv g); [by left | done].
    + intros j k0 z [[= -> -> ->] | Hz]%elem_of_cons; [by right | by left].
    + by left.
    + left. apply new_local_pure.
Qed.

(** ** The spin lock of a resource *)

Lemma key_nodup c g rest : Inv c (g :: rest) -> NoDup (keys g).
Proof. intros [_ _ _ _ Hu]. rewrite bind_cons in Hu. by apply NoDup_app in Hu as [? _]. Qed.

Lemma set_lock_set v w a : set_ll_lock v (set_ll_lock w a) = set_ll_lock v a.
Proof. by destruct a. Qed.

Lemma set_lock_same a v : ll_lock a = v -> set_ll_lock v a = a.
Proof. destruct a. cbn. by intros ->. Qed.

Lemma res_pure_taken k b : res_pure k b -> res_pure k (set_ll_lock 1 b).
Proof. unfold DlsInv.res_pure. destruct (spin k); [| done]. intros [? _]. by split. Qed.

(** Taking a free spin lock. *)
Lemma inv_take c g rest i k b m' :
  Inv c (g :: rest) -> lview c i k = Some b -> ll_lock b = 0 -> local_became k (set_ll_lock 1 b) (in_local (c i)) m' ->
  res_pure k b /\ Inv (set_local c i m') (with_held ((i, k, set_ll_lock 1 b) :: g_held g) g :: rest).
Proof.
  intros Hinv Hb Hl [Hok Hsb Hv _]. pose proof Hinv as [].
  assert (Hun : forall h b', h ∈ g :: rest -> (i, k, b') ∉ g_held h) by (intros h b' Hh; by eapply free_unheld).
  assert (Hres : res_pure k b).
  { destruct (v_res i k b Hb) as [? | (_ & _ & _ & h & Hh & Hs%key_granted)]; [done |].
    apply (v_stage h) in Hs as [b2 Hb2]%elem_of_keys; [| done]. by destruct (Hun h b2 Hh). }
  split; [done |]. apply (inv_local_step _ _ _ _ c g rest i k m' (set_ll_lock 1 b)); [done |]. constructor; try done.
  - intros b2. rewrite Hb. by intros [= <-].
  - intros h b2 Hh. apply Hun. by right.
  - intros j k0 b2 [[= -> -> ->] | Hb2]%elem_of_cons; [by left | right]. split; [| done]. intros [= -> ->]. by destruct (Hun g b2 (list_elem_of_here _ _)).
  - cbn. apply NoDup_cons. split; [| by eapply key_nodup]. intros [b2 Hb2]%elem_of_keys. by destruct (Hun g b2 (list_elem_of_here _ _)).
  - intros j k0 Hs. right. apply v_stage; [by left | done].
  - by left.
  - right. exists (mode_of b). split; [left; eauto |]. unfold covers. cbn. destruct (decide (mode_of b = DRC_LOCK_NULL)); [by left | by right].
  - left. by apply res_pure_taken.
Qed.

Lemma try_lock_inv c g rest i k x got m' :
  Inv c (g :: rest) -> (i, k, x) ∈ g_ptr g -> drc_try_lock_local_resx (in_local (c i)) x = Done (got, m') ->
  exists b, lview c i k = Some b /\ ll_idx b = x /\ got = (ll_lock b =? 0) /\ local_became k (set_ll_lock 1 b) (in_local (c i)) m'.
Proof.
  intros Hinv Hx Hrun. destruct (ptr_items c _ g i k x Hinv (list_elem_of_here _ _) Hx) as (b & b0 & Hv & Hl & _ & _ & Hidx).
  destruct (try_lock_resx_spec _ k x b ltac:(apply Hinv) Hl Hv) as (m2 & Hr & Hbc). rewrite Hrun in Hr. apply Done_inj in Hr. injection Hr as -> ->.
  by exists b.
Qed.

Lemma wp_lock i k x g (post : unit -> ghost -> Prop) :
  (i, k, x) ∈ g_ptr g ->
  (forall b, ll_idx b = x -> ll_lock b = 1 -> res_pure k (set_ll_lock 0 b) -> post tt (with_held ((i, k, b) :: g_held g) g)) ->
  wp (lock_res i x) g post.
Proof.
  intros Hx Hp. apply wp_act. intros o c rest [] c' Ho Hinv ([got m'] & Hrun & Hc)%bind_Done. destruct got; [| done]. injection Hc as <-.
  destruct (try_lock_inv c g rest i k x true m' Hinv Hx Hrun) as (b & Hb & Hidx & Hl & Hbc). symmetry in Hl. apply Z.eqb_eq in Hl.
  destruct (inv_take c g rest i k b m' Hinv Hb Hl Hbc) as [Hres Hinv']. eexists. split; [exact Hinv' |]. apply Hp; [done | done |].
  by rewrite set_lock_set, set_lock_same.
Qed.

Lemma wp_try_lock i k x g (post : bool -> ghost -> Prop) :
  (i, k, x) ∈ g_ptr g ->
  (forall b, ll_idx b = x -> ll_lock b = 1 -> res_pure k (set_ll_lock 0 b) -> post true (with_held ((i, k, b) :: g_held g) g)) ->
  post false g -> wp (try_lock_res i x) g post.
Proof.
  intros Hx Hp Hf. apply wp_act. intros o c rest got c' Ho Hinv ([got2 m'] & Hrun & [= <- <-])%bind_Done.
  destruct (try_lock_inv c g rest i k x got2 m' Hinv Hx Hrun) as (b & Hb & Hidx & -> & Hbc). destruct (Z.eqb_spec (ll_lock b) 0) as [Hl | Hl].
  - destruct (inv_take c g rest i k b m' Hinv Hb Hl Hbc) as [Hres Hinv']. eexists. split; [exact Hinv' |]. apply Hp; [done | done |].
    by rewrite set_lock_set, set_lock_same.
  - exists g. split; [| done]. apply Inv_local_same; [apply Hbc | | done].
    assert (Hl1 : ll_lock b = 1).
    { destruct (local_lookup _ k b ltac:(apply Hinv) Hb) as (y & Hly & _). destruct (local_at _ k y b ltac:(apply Hinv) Hly Hb) as (_ & _ & _ & [[? | ?] _]); [congruence | done]. }
    rewrite set_lock_same in Hbc by done. by apply (became_same k b).
Qed.

(** ** Writing under the spin lock *)

(** A step of the holder on its resource. *)
Lemma inv_held c g rest i k b h b' m' g' :
  Inv c (g :: rest) -> g_held g = (i, k, b) :: h -> local_became k b' (in_local (c i)) m' -> ll_idx b' = ll_idx b ->
  (g' = with_held h g /\ stage_key (g_stage g) <> Some (i, k) \/ g' = with_held ((i, k, b') :: h) g /\ ll_lock b' = 1) ->
  mode_of b' = DRC_LOCK_NULL \/ covers (mode_of b) (mode_of b') \/ g_stage g = Granted i k (mode_of b') ->
  res_pure k b' \/ (spin k = false /\ stat_of b' = LATCH_STATUS_X /\ count_of b' = 0 /\ g_stage g = Granted i k DRC_LOCK_EXCLUSIVE) ->
  Inv (set_local c i m') (g' :: rest).
Proof.
  intros Hinv Hg [Hok Hsb Hv _] Hidx Hg' Hmode Hres. pose proof Hinv as [].
  assert (Hb : (i, k, b) ∈ g_held g) by (rewrite Hg; left).
  pose proof (key_nodup _ _ _ Hinv) as Hnd. unfold keys in Hnd. rewrite Hg in Hnd. cbn in Hnd. apply NoDup_cons in Hnd as [Hni Hnd].
  assert (Hh : forall j k0 b0, (j, k0, b0) ∈ h -> (j, k0) <> (i, k) /\ (j, k0, b0) ∈ g_held g).
  { intros j k0 b0 H0. split; [| rewrite Hg; by right]. intros [= -> ->]. apply Hni. apply list_elem_of_fmap. by exists (i, k, b0). }
  destruct (v_held g i k b (list_elem_of_here _ _) Hb) as [Hvb Hl].
  apply (inv_local_step _ _ _ _ c g rest i k m' b'); [done |]. constructor; try done.
  - intros b2. rewrite Hvb. by intros [= <-].
  - intros h2 b2 Hh2. by eapply held_alone.
  - destruct Hg' as [[-> _] | [-> ?]]; cbn; intros j k0 b2; [intros H2; right; by apply Hh |].
    intros [[= -> -> ->] | H2]%elem_of_cons; [by left | right; by apply Hh].
  - destruct Hg' as [[-> _] | [-> _]]; cbn; [done |]. by apply NoDup_cons.
  - by destruct Hg' as [[-> _] | [-> _]].
  - intros j k0 Hs. pose proof (v_stage g j k0 (list_elem_of_here _ _) Hs) as Hk. unfold keys in Hk. rewrite Hg in Hk. cbn in Hk.
    destruct Hg' as [[-> Hne] | [-> _]]; cbn; [| done]. apply elem_of_cons in Hk as [E | Hk]; [congruence | done].
  - by destruct Hg' as [[-> _] | [-> _]].
  - destruct Hg' as [[-> _] | [-> _]]; cbn; by left.
  - destruct Hmode as [? | [Hc | Hs]]; [by left | right; exists (mode_of b); split; [left; eauto | done] | right].
    exists (mode_of b'). split; [right; by exists g; split; [left |] |]. unfold covers. destruct (decide (mode_of b' = DRC_LOCK_NULL)); [by left | by right].
  - destruct Hres as [? | (? & ? & ? & Hs)]; [by left | right]. split_and!; try done. exists g'. split; [left |].
    by destruct Hg' as [[-> _] | [-> _]].
Qed.

Lemma wp_unlock i k b h g (post : unit -> ghost -> Prop) :
  g_held g = (i, k, b) :: h -> res_pure k (set_ll_lock 0 b) -> stage_key (g_stage g) <> Some (i, k) ->
  post tt (with_held h g) -> wp (unlock_res i (ll_idx b)) g post.
Proof.
  intros Hg Hres Hst Hp. apply wp_act. intros o c rest [] c' Ho Hinv ([[] m'] & (m2 & Hrun & [= ->])%bind_Done & [= <-])%bind_Done.
  assert (Hb : (i, k, b) ∈ g_held g) by (rewrite Hg; left).
  destruct (held_items c rest g i k b Hinv Hb) as (b0 & Hv & Hl & _).
  destruct (unlock_resx_spec _ k _ b ltac:(apply Hinv) Hl Hv) as (m3 & Hr & Hbc). rewrite Hrun in Hr. apply Done_inj in Hr as <-.
  exists (with_held h g). split; [| done]. eapply inv_held; try done; [by left | | by left].
  right; left. unfold covers. cbn. destruct (decide (mode_of b = DRC_LOCK_NULL)); [by left | by right].
Qed.

(** Changing the contents with [f]. *)
Lemma wp_write i k b h g (f : drc_local_lock_res -> drc_local_lock_res) (run : local_map -> outcome (unit * local_map)) (post : unit -> ghost -> Prop) :
  g_held g = (i, k, b) :: h -> content_fn f -> (forall a, ll_lock (f a) = ll_lock a /\ ll_lockc (f a) = ll_lockc a) ->
  (forall m a m', (map_items m).[ll_idx b] = Some a -> run m = Done (tt, m') -> map_put m (ll_idx b) (f a) = Done m') ->
  mode_of (f b) = DRC_LOCK_NULL \/ covers (mode_of b) (mode_of (f b)) \/ g_stage g = Granted i k (mode_of (f b)) ->
  res_pure k (f b) \/ (spin k = false /\ stat_of (f b) = LATCH_STATUS_X /\ count_of (f b) = 0 /\ g_stage g = Granted i k DRC_LOCK_EXCLUSIVE) ->
  post tt (with_held ((i, k, f b) :: h) g) -> wp (on_local i run) g post.
Proof.
  intros Hg Hf Hsp Hput Hmode Hres Hp. apply wp_act. intros o c rest [] c' Ho Hinv ([[] m'] & Hrun & [= <-])%bind_Done.
  assert (Hb : (i, k, b) ∈ g_held g) by (rewrite Hg; left).
  destruct (held_items c rest g i k b Hinv Hb) as (b0 & Hv & Hl & Hb0 & Hbare & Hlk).
  destruct (local_at _ k _ b ltac:(apply Hinv) Hl Hv) as (b1 & Hb1 & Hbare1 & [Hi1 Hi2]).
  destruct (local_set _ k _ b ltac:(apply Hinv) Hl Hv f Hf) as (b2 & m2 & Hb2 & Hba2 & Hr & Hbc).
  { destruct (Hsp b) as [E1 E2]. split; [by rewrite E1 | by rewrite E2]. }
  pose proof (Hput _ _ _ Hb2 Hrun) as Hr2. rewrite Hr in Hr2. apply Done_inj in Hr2 as <-.
  exists (with_held ((i, k, f b) :: h) g). split; [| done]. eapply inv_held; try done.
  - by destruct (Hf 0 b) as (_ & _ & ? & _).
  - right. split; [done |]. destruct (Hsp b) as [-> _]. done.
Qed.

Lemma wp_set_latch i k b h g (f : drc_local_latch -> drc_local_latch) (post : unit -> ghost -> Prop) :
  let b' := set_latch_stat (f (latch_stat b)) b in
  g_held g = (i, k, b) :: h ->
  mode_of b' = DRC_LOCK_NULL \/ covers (mode_of b) (mode_of b') \/ g_stage g = Granted i k (mode_of b') ->
  res_pure k b' \/ (spin k = false /\ stat_of b' = LATCH_STATUS_X /\ count_of b' = 0 /\ g_stage g = Granted i k DRC_LOCK_EXCLUSIVE) ->
  post tt (with_held ((i, k, b') :: h) g) -> wp (set_latch i (ll_idx b) f) g post.
Proof.
  intros b' Hg Hmode Hres Hp. apply (wp_write i k b h g (fun a => set_latch_stat (f (latch_stat a)) a)); try done.
  intros m a m' Ha. rewrite (arr_get_eq _ _ _ Ha), outcome_ret_bind. intros (m2 & Hput & [= <-])%bind_Done. done.
Qed.

Lemma wp_set_stat i k b h g locked owner (post : unit -> ghost -> Prop) :
  let b' := set_lock_stat locked owner b in
  g_held g = (i, k, b) :: h ->
  res_pure k b' \/ (spin k = false /\ stat_of b' = LATCH_STATUS_X /\ count_of b' = 0 /\ g_stage g = Granted i k DRC_LOCK_EXCLUSIVE) ->
  post tt (with_held ((i, k, b') :: h) g) -> wp (set_stat i (ll_idx b) locked owner) g post.
Proof.
  intros b' Hg Hres Hp. apply (wp_write i k b h g (set_lock_stat locked owner)); try done.
  - unfold drc_set_local_lock_statx. intros m a m' Ha. rewrite (arr_get_eq _ _ _ Ha), outcome_ret_bind. intros (m2 & Hput & [= <-])%bind_Done. done.
  - right; left. unfold covers. cbn. destruct (decide (mode_of b = DRC_LOCK_NULL)); [by left | by right].
Qed.

(** ** The catalog of the master *)

Lemma lock_view_at l k a rs : lock_ok Q [] [] l -> lock_view l k = Some (a, rs) ->
  lock_inv a rs /\ exists a0, gres_get (lc_res l) (mr_idx a) = Done a0 /\ a = strip a0.
Proof.
  intros Hok Hv. pose proof (lock_view_cases Q [] [] l k Hok) as Hc. rewrite Hv in Hc.
  destruct Hc as (gh & i & a0 & ids & Hst & _ & Hi & Hget & Ha & _ & _ & -> & -> & Hinv & _).
  destruct (gw_self _ _ _ _ (ls_wf _ _ _ _ _ Hst) i a0 Hi Ha) as [Hidx _].
  split; [by apply (lock_inv_strip a0) |]. exists a0. split; [| done]. by replace (mr_idx (strip a0)) with i.
Qed.

Lemma bound_view c gs k a rs : Inv c gs -> mview c k = Some (a, rs) ->
  master_ok inst_count spin k a /\ lock_inv a rs.
Proof. intros Hinv Hv. split; [by eapply v_master |]. by destruct (lock_view_at _ k a rs (v_locks _ _ _ _ _ _ Hinv _) Hv). Qed.

(** Which owners a converted request still has to ask. *)
Definition asked (j : Z) (k : drid_t) (ans : lock_answer) (T : gset Z) : Prop :=
  if la_granted ans then T = ∅
  else bitmap_ok (la_old_owner_map ans) /\ (forall i, i ∈ inst_set (la_old_owner_map ans) -> i < inst_count) /\
       T = inst_set (la_old_owner_map ans) ∖ {[j]} /\ (spin k = true -> exists o, inst_set (la_old_owner_map ans) ⊆ {[o]}).

Definition lock_mode_ok (k : drid_t) (rm : Z) : Prop := (rm = DRC_LOCK_SHARE /\ spin k = false) \/ rm = DRC_LOCK_EXCLUSIVE.

Lemma conv_asked c gs j k a rs rm ans :
  Inv c gs -> mview c k = Some (a, rs) -> lock_mode_ok k rm -> la_granted ans = compatible rm (mr_mode a) ->
  (la_granted ans = false -> la_old_owner_map ans = mr_granted_map a) ->
  exists T, asked j k ans T /\ forall i m, i <> j -> i ∉ T -> has c gs i k m -> makes_way rm m.
Proof.
  intros Hinv Hv Hrm Hgr Hold. destruct (bound_view c gs k a rs Hinv Hv) as [[Hnull Hspin Hrange] Hli]. pose proof Hli as [].
  assert (Hcov : forall i m, has c gs i k m -> m <> DRC_LOCK_NULL -> i ∈ inst_set (mr_granted_map a) /\ (m = DRC_LOCK_EXCLUSIVE -> mr_mode a = DRC_LOCK_EXCLUSIVE)).
  { intros i m Hm Hn. destruct (v_cover _ _ _ _ _ _ Hinv i k m Hm Hn) as (a2 & rs2 & Hv2 & ? & ?). rewrite Hv in Hv2. by simplify_eq. }
  unfold asked. rewrite Hgr in Hold |- *. destruct (compatible rm (mr_mode a)) eqn:Hc.
  - exists ∅. split; [done |]. intros i m _ _ Hm. destruct (decide (m = DRC_LOCK_NULL)) as [-> | Hn]; [apply makes_way_null |].
    destruct (Hcov i m Hm Hn) as [Hin Hx]. unfold compatible in Hc.
    destruct (decide (mr_mode a = DRC_LOCK_NULL)) as [E | E]; [rewrite (Hnull E), inst_set_0 in Hin; by apply elem_of_empty in Hin |].
    apply Z.eqb_neq in E. rewrite E, orb_false_r in Hc. unfold makes_way. destruct Hrm as [[-> _] | ->]; [| done].
    change ((DRC_LOCK_SHARE =? DRC_LOCK_NULL) || (DRC_LOCK_SHARE =? DRC_LOCK_SHARE) && (mr_mode a =? DRC_LOCK_SHARE)) with (mr_mode a =? DRC_LOCK_SHARE) in Hc.
    apply Z.eqb_eq in Hc. cbn. intros Ex. by rewrite (Hx Ex) in Hc.
  - specialize (Hold eq_refl). rewrite Hold. exists (inst_set (mr_granted_map a) ∖ {[j]}). split.
    + split_and!; try done. intros Hs. destruct Hrm as [[_ Hs'] | ->]; [congruence |]. apply ki_excl.
      destruct (mode_cases _ ki_mode) as [E | [E | E]]; [rewrite E in Hc; done | by destruct (Hspin Hs) | done].
    + intros i m Hi HT Hm. destruct (decide (m = DRC_LOCK_NULL)) as [-> | Hn]; [apply makes_way_null |].
      destruct (Hcov i m Hm Hn) as [Hin _]. exfalso. apply HT, elem_of_difference. split; [done |]. by intros ->%elem_of_singleton.
Qed.

(** Nobody else's request is being converted. *)
Lemma conv_alone c g rest j k b a rs h j2 rm T :
  Inv c (g :: rest) -> (j, k, b) ∈ g_held g -> mview c k = Some (a, rs) -> req_inst_id (lock_conv a) = j \/ req_inst_id (lock_conv a) = CT_INVALID_ID8 ->
  h ∈ rest -> g_stage h <> Conv j2 k rm T.
Proof.
  intros Hinv Hb Hv Hj Hh Hs. apply list_elem_of_further with (y := g) in Hh as Hh'.
  destruct (v_conv _ _ _ _ _ _ Hinv h j2 k rm T Hh' Hs) as (Hok & (a2 & rs2 & Hv2 & Hc) & _). rewrite Hv in Hv2. simplify_eq.
  destruct Hj as [E | E]; [| by destruct (inst_ok_ne _ Hok)]. rewrite E in *.
  apply key_conv in Hs. apply (v_stage _ _ _ _ _ _ Hinv h) in Hs as [b2 Hb2]%elem_of_keys; [| done]. by eapply held_alone.
Qed.

(** ** Requests *)

Lemma request_start_inv e k r ver l step l' :
  lock_ok Q [] [] l -> lock_req_ok r -> lock_request_start e k r no_answer ver l = Done (step, l') ->
  (l' = l /\ exists ans, step = LAnswer ans /\ la_status ans = CT_ERROR) \/
  (lock_ok Q [] [] l' /\ lock_same_but k l l' /\ lock_request_rule r l k l' step).
Proof.
  intros Hok Hr Hrun. destruct (DRC_STOP_DLS_REQ_FOR_REFORMING ver e k) eqn:Hstop.
  { unfold lock_request_start in Hrun. rewrite Hstop in Hrun. apply Done_inj in Hrun. apply pair_eq in Hrun as [<- <-]. left. eauto. }
  right. destruct (request_start_spec Q e k r no_answer ver [] [] l Hok Hr Hstop) as (step2 & l2 & Hrun2 & ? & ? & ?).
  { intros Hv Hfull. unfold lock_request_start in Hrun. rewrite Hstop in Hrun.
    pose proof (lock_view_cases Q [] [] l k Hok) as Hc. rewrite Hv in Hc. destruct Hc as [Hl _]. rewrite Hl, outcome_ret_bind in Hrun.
    destruct (create_lock_spec Q k [] [] l Hok Hv) as (st & g' & Hcr & _ & Hcase). rewrite decide_True in Hcase by done. destruct Hcase as [-> _].
    by rewrite Hcr, outcome_ret_bind in Hrun. }
  pose proof (eq_trans (eq_sym Hrun) Hrun2) as E. apply Done_inj in E. by apply pair_eq in E as [-> ->].
Qed.

Lemma same_view_move c g rest k l' a rs :
  Inv c (g :: rest) -> g_stage g = Rest -> lock_ok Q [] [] l' -> lock_same_but k (in_locks (c (master k))) l' ->
  mview c k = Some (a, rs) -> lock_view l' k = Some (a, rs) -> Inv (set_locks c (master k) l') (g :: rest).
Proof.
  intros Hinv Hst Hok Hsb Hv Hv'. pose proof Hinv as []. apply (inv_master_step _ _ _ _ c g rest k l' a rs); [done |]. constructor; try done.
  - by eapply v_master.
  - intros a2 rs2 E. rewrite Hv in E. by simplify_eq.
  - by left.
  - intros j k0. by rewrite Hst.
  - intros h j rm T Hh Hs. destruct (v_conv h j k rm T (list_elem_of_further _ _ _ Hh) Hs) as (_ & (a2 & rs2 & E & Hc) & _).
    rewrite Hv in E. simplify_eq. split; [done |]. by rewrite Hst.
  - by rewrite Hst.
  - intros i m Hm Hn. destruct (v_cover i k m Hm Hn) as (a2 & rs2 & E & ? & ?). rewrite Hv in E. by simplify_eq.
  - by rewrite Hst.
Qed.

Lemma has_with_conv c g rest j k rm T i k0 m : has c (with_stage (Conv j k rm T) g :: rest) i k0 m -> has c (g :: rest) i k0 m.
Proof. intros [Hr | Hs]%has_cons; [by apply has_rest | discriminate Hs]. Qed.

(** A request that starts being converted. *)
Lemma convert_move c g rest j k b r l' a' ans :
  Inv c (g :: rest) -> (j, k, b) ∈ g_held g -> g_stage g = Rest -> lock_mode_ok k (req_mode r) -> req_inst_id r = j -> inst_ok j ->
  lock_ok Q [] [] l' -> lock_same_but k (in_locks (c (master k))) l' -> lock_view l' k = Some (a', []) -> lock_conv a' = r ->
  match mview c k with
  | None => mr_granted_map a' = 0 /\ mr_mode a' = DRC_LOCK_NULL /\ la_granted ans = true
  | Some (a, rs) => req_inst_id (lock_conv a) = CT_INVALID_ID8 /\ mr_mode a' = mr_mode a /\ mr_granted_map a' = mr_granted_map a /\ mr_idx a' = mr_idx a /\
      la_granted ans = compatible (req_mode r) (mr_mode a) /\ (la_granted ans = false -> la_old_owner_map ans = mr_granted_map a)
  end ->
  exists T, asked j k ans T /\ Inv (set_locks c (master k) l') (with_stage (Conv j k (req_mode r) T) g :: rest).
Proof.
  intros Hinv Hb Hst Hrm Hj Hjok Hok Hsb Hv' Hconv Hcase.
  assert (Hknow : exists T, asked j k ans T /\ (forall i m, i <> j -> i ∉ T -> has c (g :: rest) i k m -> makes_way (req_mode r) m) /\
    master_ok inst_count spin k a' /\ (forall a rs, mview c k = Some (a, rs) -> mr_idx a' = mr_idx a) /\
    (forall h j2 rm T, h ∈ rest -> g_stage h <> Conv j2 k rm T) /\
    forall i m, has c (g :: rest) i k m -> m <> DRC_LOCK_NULL -> i ∈ inst_set (mr_granted_map a') /\ (m = DRC_LOCK_EXCLUSIVE -> mr_mode a' = DRC_LOCK_EXCLUSIVE)).
  { pose proof (v_cover _ _ _ _ _ _ Hinv) as Hcover. pose proof (v_conv _ _ _ _ _ _ Hinv) as Hcv. destruct (mview c k) as [[a rs] |] eqn:Hv.
    - destruct Hcase as (Hidle & Hm & Hg & Hidx & Hgr & Hold). destruct (conv_asked c (g :: rest) j k a rs _ ans Hinv Hv Hrm Hgr Hold) as (T & HT & Hw).
      exists T. split; [exact HT |]. split; [exact Hw |]. split; [| split; [| split]].
      + destruct (v_master _ _ _ _ _ _ Hinv k a rs Hv) as []. by constructor; rewrite ?Hm, ?Hg.
      + intros a2 rs2 E. injection E as <- <-. exact Hidx.
      + intros h j2 rm T2 Hh. apply (conv_alone c g rest j k b a rs h j2 rm T2 Hinv Hb Hv); [by right | exact Hh].
      + intros i m Hm2 Hn. destruct (Hcover i k m Hm2 Hn) as (a2 & rs2 & E & Hin & Hx). rewrite Hv in E. injection E as <- <-. rewrite Hg, Hm. by split.
    - destruct Hcase as (Hg & Hm & Hgr).
      assert (Hno : forall i m, has c (g :: rest) i k m -> m = DRC_LOCK_NULL).
      { intros i m Hh. destruct (decide (m = DRC_LOCK_NULL)) as [| Hn]; [done |]. destruct (Hcover i k m Hh Hn) as (? & ? & E & _). congruence. }
      exists ∅. unfold asked. rewrite Hgr. split; [reflexivity |]. split; [| split; [| split; [| split]]].
      + intros i m _ _ Hh. rewrite (Hno i m Hh). apply makes_way_null.
      + constructor; [by intros | by rewrite Hm | rewrite Hg, inst_set_0; by intros i ?%elem_of_empty].
      + intros a rs E. discriminate E.
      + intros h j2 rm T Hh Hs. destruct (Hcv h j2 k rm T (list_elem_of_further _ _ _ Hh) Hs) as (_ & (? & ? & E & _) & _). congruence.
      + intros i m Hh Hn. by destruct (Hn (Hno i m Hh)). }
  destruct Hknow as (T & HT & Hw & Hmo & Hidx & Halone & Hcov). exists T. split; [exact HT |].
  apply (inv_master_step _ _ _ _ c g rest k l' a' [] (with_stage (Conv j k (req_mode r) T) g)); [exact Hinv |].
  constructor; [exact Hok | exact Hsb | exact Hv' | exact Hmo | exact Hidx | reflexivity | reflexivity | by left | | | | |].
  - intros j0 k0 E. injection E as <- <-. split; [reflexivity |]. apply elem_of_keys. by exists b.
  - intros h j0 rm T0 Hh Hs. by destruct (Halone h j0 rm T0 Hh).
  - intros j0 rm T0 E. injection E as <- <- <-. rewrite Hconv. split; [exact Hjok |]. split; [exact Hj |].
    intros i m Hi HiT Hm. apply (Hw i m Hi HiT). by apply has_rest.
  - intros i m Hm. apply Hcov. by eapply has_with_conv.
  - intros i k0 b0. rewrite Hst. discriminate.
Qed.

(** The thread that asks for lock [k] in the name of instance [j]: it holds the
    local resource, whose contents are in order, and has no request at the
    master. *)
Record requester g (j : Z) (k : drid_t) (b : drc_local_lock_res) (r : drc_req_info) : Prop := mk_requester {
  rq_held : (j, k, b) ∈ g_held g;
  rq_rest : g_stage g = Rest;
  rq_mode_ok : lock_mode_ok k (req_mode r);
  rq_inst : req_inst_id r = j;
  rq_inst_ok : 0 <= j < inst_count;
  rq_count : inst_count <= CT_MAX_INSTANCES;
}.

Lemma requester_ok g j k b r : requester g j k b r -> inst_ok j /\ lock_req_ok r.
Proof.
  intros [_ _ Hm Hi Hj Hc]. assert (Hok : inst_ok j) by (unfold inst_ok; lia). split; [exact Hok |]. split; [by rewrite Hi |].
  destruct Hm as [[-> _] | ->]; unfold mode_ok, DRC_LOCK_NULL, DRC_LOCK_SHARE, DRC_LOCK_EXCLUSIVE; lia.
Qed.

Lemma wp_on_locks {B} i (f : dtc_env -> lock_ctx -> outcome (B * lock_ctx)) g (post : B -> ghost -> Prop) :
  (forall e c rest x l', Inv c (g :: rest) -> f e (in_locks (c i)) = Done (x, l') ->
     exists g', Inv (set_locks c i l') (g' :: rest) /\ post x g') ->
  wp (on_locks i f) g post.
Proof.
  intros Hp. apply wp_act. intros o c rest x c' Ho Hinv ([y l'] & Hrun & E)%bind_Done. apply Done_inj in E. injection E as <- <-. by eapply Hp.
Qed.

Lemma wp_request_start g j k b r ver (post : lock_request_step -> ghost -> Prop) :
  requester g j k b r ->
  (forall ans, la_status ans = CT_ERROR -> post (LAnswer ans) g) ->
  (forall ans T, asked j k ans T -> post (LAnswer ans) (with_stage (Conv j k (req_mode r) T) g)) ->
  (forall x, post (LWait x) (add_mptr (k, x) g)) ->
  wp (on_locks (master k) (fun e l => lock_request_start e k r no_answer ver l)) g post.
Proof.
  intros Hrq Herr Hconv Hwait. destruct (requester_ok g j k b r Hrq) as [Hjok Hrok]. destruct Hrq as [Hb Hst Hm Hi _ _].
  apply wp_on_locks. intros e c rest step l' Hinv Hrun. pose proof (v_locks _ _ _ _ _ _ Hinv (master k)) as Hl.
  destruct (request_start_inv e k r ver _ step l' Hl Hrok Hrun) as [(-> & ans & -> & Hans) | (Hok' & Hsb & Hrule)].
  { exists g. split; [by apply Inv_locks_same | by apply Herr]. }
  destruct Hrule as [a' Hv Hv' Hc Hg Hmo | a a' ans Hv Hidle Hv' (Hs & Hgr & Hold & Hc & Hmo & Hg & Hidx) | a rs m Hv Hc Hin -> | a rs a' x Hv Hc Hin Hv' Hcv Hg Hmo Hidx Hlk | a rs gr m Hv Hcv Hfull Hv'].
  - destruct (convert_move c g rest j k b r l' a' (mk_answer CT_SUCCESS true 0) Hinv Hb Hst Hm Hi Hjok Hok' Hsb Hv' Hc) as (T & HT & Hinv').
    { rewrite Hv. done. }
    eexists. split; [exact Hinv' | by apply Hconv].
  - destruct (convert_move c g rest j k b r l' a' ans Hinv Hb Hst Hm Hi Hjok Hok' Hsb Hv' Hc) as (T & HT & Hinv').
    { rewrite Hv. split_and!; try done. intros E. by rewrite E in Hold. }
    eexists. split; [exact Hinv' | by apply Hconv].
  - exists g. split; [by apply Inv_locks_same | by apply Herr].
  - exists (add_mptr (k, x) g). split; [| by apply Hwait].
    assert (Hx : x = mr_idx a').
    { destruct (lock_view_at _ k a' _ Hok' Hv') as [_ (a0 & _ & ->)]. pose proof (lock_view_cases Q [] [] l' k Hok') as Hcs. rewrite Hv' in Hcs.
      destruct Hcs as (gh & x0 & a1 & ids & Hst1 & Hl1 & Hi1 & _ & Ha1 & _ & _ & E & _). rewrite Hlk in Hl1. apply Done_inj in Hl1. injection Hl1 as <-.
      destruct (gw_self _ _ _ _ (ls_wf _ _ _ _ _ Hst1) x a1 Hi1 Ha1) as [Hself _]. rewrite E. symmetry. exact Hself. }
    destruct (bound_view c _ k a rs Hinv Hv) as [[Hn1 Hn2 Hn3] _].
    apply (inv_master_step _ _ _ _ c g rest k l' a' (rs ++ [r]) (add_mptr (k, x) g)); [exact Hinv |].
    constructor; [exact Hok' | exact Hsb | exact Hv' | | | reflexivity | reflexivity | | | | | |].
    + constructor; rewrite ?Hmo, ?Hg; assumption.
    + intros a2 rs2 E. rewrite Hv in E. injection E as <- <-. exact Hidx.
    + intros k0 y [E | Hy]%elem_of_cons; [right; injection E as -> ->; done | by left].
    + intros j0 k0. cbn. rewrite Hst. discriminate.
    + intros h j0 rm T Hh Hs. destruct (v_conv _ _ _ _ _ _ Hinv h j0 k rm T (list_elem_of_further _ _ _ Hh) Hs) as (_ & (a2 & rs2 & E & Hc2) & _).
      rewrite Hv in E. injection E as <- <-. rewrite Hcv. split; [exact Hc2 |]. cbn. rewrite Hst. discriminate.
    + intros j0 rm T. cbn. rewrite Hst. discriminate.
    + intros i0 m Hm0 Hn0. rewrite Hg, Hmo. destruct (v_cover _ _ _ _ _ _ Hinv i0 k m) as (a2 & rs2 & E & H1 & H2); [| exact Hn0 |].
      { apply has_cons in Hm0 as [Hm0 | E]; [by apply has_rest | cbn in E; rewrite Hst in E; discriminate E]. }
      rewrite Hv in E. injection E as <- <-. by split.
    + intros i0 k0 b0. rewrite Hst. discriminate.
  - exists g. split; [by eapply same_view_move | by apply Herr].
Qed.

(** A poll of a waiting request. *)
Lemma poll_inv e k r ver x l out l' a rs :
  lock_ok Q [] [] l -> lock_view l k = Some (a, rs) -> mr_idx a = x -> lock_req_ok r ->
  lock_wait_loop k r no_answer ver x [(e, fun l => l)] l = Done (out, l') ->
  l' = l /\ forall ans, out = Some ans -> la_status ans = CT_ERROR \/
    (req_inst_id (lock_conv a) = req_inst_id r /\ la_granted ans = compatible (req_mode r) (mr_mode a) /\
     la_old_owner_map ans = if la_granted ans then 0 else mr_granted_map a).
Proof.
  intros Hok Hv Hx [Hr1 Hr2] Hrun. destruct (lock_view_at l k a rs Hok Hv) as [Hinv (a0 & Hget & Ha)]. rewrite Hx in Hget. cbn [lock_wait_loop] in Hrun.
  destruct (DRC_STOP_DLS_REQ_FOR_REFORMING ver e k).
  { apply Done_inj, pair_eq in Hrun as [<- <-]. split; [done |]. intros ans [= <-]. by left. }
  rewrite Hget, outcome_ret_bind in Hrun. apply bind_Done in Hrun as (u & _ & Hrun).
  assert (Hm : mr_mode a0 = mr_mode a) by (by rewrite Ha). assert (Hc : lock_conv a0 = lock_conv a) by (by rewrite Ha).
  assert (Hg : mr_granted_map a0 = mr_granted_map a) by (by rewrite Ha). rewrite Hc, Hm, Hg in Hrun.
  destruct (Z.eqb_spec (req_inst_id r) (req_inst_id (lock_conv a))) as [E | E].
  - rewrite mode_compatible_spec in Hrun by (exact Hr2 || apply Hinv). rewrite outcome_ret_bind in Hrun. apply Done_inj, pair_eq in Hrun as [<- <-].
    split; [done |]. intros ans [= <-]. right. split_and!; done.
  - apply Done_inj, pair_eq in Hrun as [<- <-]. split; [done |]. intros ans. discriminate.
Qed.

Lemma wp_poll g j k b r ver x (post : option lock_answer -> ghost -> Prop) :
  requester g j k b r -> (k, x) ∈ g_mptr g ->
  (forall ans, la_status ans = CT_ERROR -> post (Some ans) g) ->
  (forall ans T, asked j k ans T -> post (Some ans) (with_stage (Conv j k (req_mode r) T) g)) -> post None g ->
  wp (on_locks (master k) (fun e l => lock_wait_loop k r no_answer ver x [(e, fun l => l)] l)) g post.
Proof.
  intros Hrq Hx Herr Hconv Hnone. destruct (requester_ok g j k b r Hrq) as [Hjok Hrok]. destruct Hrq as [Hb Hst Hm Hi _ _].
  apply wp_on_locks. intros e c rest out l' Hinv Hrun.
  destruct (v_mptr _ _ _ _ _ _ Hinv g k x (list_elem_of_here _ _) Hx) as (a & rs & Hv & Hidx).
  destruct (poll_inv e k r ver x _ out l' a rs (v_locks _ _ _ _ _ _ Hinv _) Hv Hidx Hrok Hrun) as [-> Hout].
  destruct out as [ans |]; [| exists g; split; [by apply Inv_locks_same | exact Hnone]].
  destruct (Hout ans eq_refl) as [Hs | (Hc & Hgr & Hold)]; [exists g; split; [by apply Inv_locks_same | by apply Herr] |].
  destruct (conv_asked c (g :: rest) j k a rs _ ans Hinv Hv Hm Hgr) as (T & HT & Hw); [intros E; by rewrite E in Hold |].
  exists (with_stage (Conv j k (req_mode r) T) g). split; [| by apply Hconv].
  apply (inv_master_step _ _ _ _ c g rest k _ a rs); [exact Hinv |].
  constructor; [apply Hinv | by intros k0 _ | exact Hv | by eapply v_master | | reflexivity | reflexivity | by left | | | | |].
  - intros a2 rs2 E. rewrite Hv in E. by injection E as <- <-.
  - intros j0 k0 E. injection E as <- <-. split; [reflexivity |]. apply elem_of_keys. by exists b.
  - intros h j0 rm T0 Hh Hs. destruct (conv_alone c g rest j k b a rs h j0 rm T0 Hinv Hb Hv) as []; [left; congruence | exact Hh | exact Hs].
  - intros j0 rm T0 E. injection E as <- <- <-. split; [exact Hjok |]. split; [congruence |].
    intros i m Hi0 HiT Hm0. apply (Hw i m Hi0 HiT). by apply has_rest.
  - intros i m Hm0%has_with_conv Hn. destruct (v_cover _ _ _ _ _ _ Hinv i k m Hm0 Hn) as (a2 & rs2 & E & H1 & H2). rewrite Hv in E. injection E as <- <-. by split.
  - intros i k0 b0. rewrite Hst. discriminate.
Qed.

(** ** Ending a request *)

Lemma conv_view c g rest j k rm T : Inv c (g :: rest) -> g_stage g = Conv j k rm T ->
  inst_ok j /\ exists a rs b, mview c k = Some (a, rs) /\ req_inst_id (lock_conv a) = j /\ (j, k, b) ∈ g_held g.
Proof.
  intros Hinv Hst. destruct (v_conv _ _ _ _ _ _ Hinv g j k rm T (list_elem_of_here _ _) Hst) as (Hj & (a & rs & Hv & Hc) & _).
  split; [exact Hj |]. apply key_conv in Hst. apply (v_stage _ _ _ _ _ _ Hinv g) in Hst as [b Hb]%elem_of_keys; [| left]. by exists a, rs, b.
Qed.

Lemma has_with_rest c g rest i k m : has c (with_stage Rest g :: rest) i k m -> has c (g :: rest) i k m.
Proof. intros [Hr | Hs]%has_cons; [by apply has_rest | discriminate Hs]. Qed.

Lemma wp_cancel g j k rm T (post : unit -> ghost -> Prop) :
  g_stage g = Conv j k rm T -> post tt (with_stage Rest g) -> wp (cancel_request (master k) k j) g post.
Proof.
  intros Hst Hp. apply wp_on_locks. intros e c rest [] l' Hinv Hrun.
  apply bind_Done in Hrun as ([st l2] & Hrun & E). apply Done_inj in E. injection E as <-.
  destruct (conv_view c g rest j k rm T Hinv Hst) as (Hj & a & rs & b & Hv & Hc & Hb).
  pose proof (cancel_lock_spec Q j k [] [] _ (v_locks _ _ _ _ _ _ Hinv (master k)) (inst_ok_ne _ Hj)) as Hsp. rewrite Hv in Hsp.
  destruct Hsp as (l3 & Hrun3 & Hok' & Hsb & _ & Hcase). rewrite Hrun in Hrun3. apply Done_inj, pair_eq in Hrun3 as [_ <-].
  rewrite Hc, Z.eqb_refl in Hcase. destruct Hcase as (a' & Hv' & Hm & Hg & _ & Hidx).
  exists (with_stage Rest g). split; [| exact Hp]. destruct (bound_view c _ k a rs Hinv Hv) as [[Hn1 Hn2 Hn3] _].
  apply (inv_master_step _ _ _ _ c g rest k l2 a' (tail rs)); [exact Hinv |].
  constructor; [exact Hok' | exact Hsb | exact Hv' | | | reflexivity | reflexivity | by left | | | | |].
  - constructor; rewrite ?Hm, ?Hg; assumption.
  - intros a2 rs2 E. rewrite Hv in E. by injection E as <- <-.
  - intros j0 k0 E. discriminate E.
  - intros h j0 rm0 T0 Hh Hs. destruct (conv_alone c g rest j k b a rs h j0 rm0 T0 Hinv Hb Hv) as []; [by left | exact Hh | exact Hs].
  - intros j0 rm0 T0 E. discriminate E.
  - intros i m Hm0%has_with_rest Hn. rewrite Hm, Hg. destruct (v_cover _ _ _ _ _ _ Hinv i k m Hm0 Hn) as (a2 & rs2 & E & H1 & H2). rewrite Hv in E. injection E as <- <-. by split.
  - intros i k0 b0. rewrite Hst. discriminate.
Qed.

(** Taking an owner that has made way out of the granted map. *)
Lemma wp_clear g i j k T (post : unit -> ghost -> Prop) :
  g_stage g = Conv j k DRC_LOCK_EXCLUSIVE T -> i <> j -> i ∉ T -> inst_ok i -> post tt g -> wp (clear_granted (master k) k i) g post.
Proof.
  intros Hst Hij HiT Hi Hp. apply wp_on_locks. intros e c rest [] l' Hinv Hrun.
  apply bind_Done in Hrun as (l2 & Hrun & E). apply Done_inj in E. injection E as <-.
  destruct (conv_view c g rest j k _ T Hinv Hst) as (Hj & a & rs & b & Hv & Hc & Hb).
  pose proof (clear_granted_spec Q k i [] [] _ (v_locks _ _ _ _ _ _ Hinv (master k)) Hi) as Hsp. rewrite Hv in Hsp.
  destruct Hsp as (l3 & a' & Hrun3 & Hok' & Hsb & Hv' & Hg & Hcv & Hm & Hidx). rewrite Hrun in Hrun3. apply Done_inj in Hrun3 as <-.
  exists g. split; [| exact Hp]. destruct (bound_view c _ k a rs Hinv Hv) as [[Hn1 Hn2 Hn3] Hli].
  destruct (v_conv _ _ _ _ _ _ Hinv g j k _ T (list_elem_of_here _ _) Hst) as (_ & _ & Hw).
  assert (Hne : forall i0 m, has c (g :: rest) i0 k m -> m <> DRC_LOCK_NULL -> i0 ∈ inst_set (mr_granted_map a')).
  { intros i0 m Hm0 Hn. destruct (v_cover _ _ _ _ _ _ Hinv i0 k m Hm0 Hn) as (a2 & rs2 & E & H1 & _). rewrite Hv in E. injection E as <- <-.
    rewrite Hg. apply elem_of_difference. split; [exact H1 |]. intros ->%elem_of_singleton. pose proof (Hw i m Hij HiT Hm0) as Hmw. exact (Hn Hmw). }
  apply (inv_master_step _ _ _ _ c g rest k l2 a' rs); [exact Hinv |].
  constructor; [exact Hok' | exact Hsb | exact Hv' | | | reflexivity | reflexivity | by left | | | | |].
  - constructor; rewrite ?Hm.
    + destruct (Z.eqb_spec (mr_granted_map a') 0) as [E | E]; [by intros _ |]. intros Hnull. specialize (Hn1 Hnull).
      exfalso. apply E. destruct (lock_view_at _ k a' rs Hok' Hv') as [Hli' _]. apply inst_set_empty; [apply Hli' |]. rewrite Hg, Hn1, inst_set_0. set_solver.
    + intros Hs. destruct (mr_granted_map a' =? 0); [done | by apply Hn2].
    + rewrite Hg. intros i0 [Hi0 _]%elem_of_difference. by apply Hn3.
  - intros a2 rs2 E. rewrite Hv in E. by injection E as <- <-.
  - intros j0 k0 E. rewrite Hst in E. injection E as <- <-. split; [reflexivity |]. apply elem_of_keys. by exists b.
  - intros h j0 rm0 T0 Hh Hs. destruct (conv_alone c g rest j k b a rs h j0 rm0 T0 Hinv Hb Hv) as []; [by left | exact Hh | exact Hs].
  - intros j0 rm0 T0 E. rewrite Hst in E. injection E as <- <- <-. rewrite Hcv. split; [exact Hj |]. split; [exact Hc |].
    intros i0 m Hi0 HT0 Hm0. apply (Hw i0 m Hi0 HT0). by apply has_rest.
  - intros i0 m Hm0 Hn. split; [by eapply Hne |]. intros ->. rewrite Hm.
    destruct (v_cover _ _ _ _ _ _ Hinv i0 k _ Hm0 Hn) as (a2 & rs2 & E & _ & H2). rewrite Hv in E. injection E as <- <-.
    destruct (Z.eqb_spec (mr_granted_map a') 0) as [E0 | _]; [| by apply H2].
    pose proof (Hne i0 _ Hm0 Hn) as Hin. rewrite E0, inst_set_0 in Hin. by apply elem_of_empty in Hin.
  - intros i0 k0 b0. rewrite Hst. discriminate.
Qed.

Lemma claim_inv e k ci ver l st l' :
  lock_ok Q [] [] l -> 0 <= lk_new_id ci -> drc_claim_lock_owner e k ci ver false l = Done (st, l') ->
  (st = CT_ERROR /\ l' = l) \/
  exists a rs a', st = CT_SUCCESS /\ lock_view l k = Some (a, rs) /\ lock_claim_ok ci a /\ lock_ok Q [] [] l' /\ lock_same_but k l l' /\
    lock_view l' k = Some (a', tail rs) /\ granted_after ci a a' /\ mr_idx a' = mr_idx a.
Proof.
  intros Hok Hpos Hrun. destruct (drc_lock_bucket_and_stat_with_version_check e k ver false) eqn:Hver.
  2: { unfold drc_claim_lock_owner in Hrun. rewrite Hver in Hrun. apply Done_inj, pair_eq in Hrun as [<- <-]. by left. }
  right. pose proof (lock_view_cases Q [] [] l k Hok) as Hv. destruct (lock_view l k) as [[av rs] |] eqn:Hview.
  2: { unfold drc_claim_lock_owner in Hrun. rewrite Hver in Hrun. destruct Hv as [E _]. rewrite E in Hrun. by rewrite outcome_ret_bind in Hrun. }
  assert (Hcl : lock_claim_ok ci av).
  { destruct Hv as (gh & i & a0 & ids & Hst & Hl & Hi & Hget & Ha & Hids & Hk & -> & -> & Hinv & Hqw).
    unfold drc_claim_lock_owner in Hrun. rewrite Hver, Hl, outcome_ret_bind in Hrun. rewrite Hget, outcome_ret_bind in Hrun.
    apply bind_Done in Hrun as (a1 & Hg & _). by apply (lock_grant_claim ci a0 a1 _ Hinv Hpos). }
  destruct (claim_lock_spec Q e k ci ver false [] [] l av rs Hok Hview Hver Hcl) as (c2 & a' & E & Hok2 & Hsb & Hv' & Hga & _ & Hidx).
  rewrite Hrun in E. apply Done_inj, pair_eq in E as [-> ->]. by exists av, rs, a'.
Qed.

(** Claiming the lock once all owners have made way. *)
Lemma wp_claim g j sid k b rm T ver (post : status_t -> ghost -> Prop) :
  g_stage g = Conv j k rm T -> (forall i, i ∉ T) -> (j, k, b) ∈ g_held g -> lock_mode_ok k rm -> j < inst_count ->
  (rm = DRC_LOCK_SHARE -> mode_of b <> DRC_LOCK_EXCLUSIVE) ->
  post CT_ERROR g -> post CT_SUCCESS (with_stage (Granted j k rm) g) -> wp (claim_lock (master k) k j sid rm ver) g post.
Proof.
  intros Hst HT Hb Hrm Hj Hown Herr Hok. apply wp_on_locks. intros e c rest st l' Hinv Hrun.
  destruct (v_conv _ _ _ _ _ _ Hinv g j k rm T (list_elem_of_here _ _) Hst) as (Hjok & _ & Hw).
  destruct (claim_inv e k (mk_lclaim j rm sid) ver _ st l' (v_locks _ _ _ _ _ _ Hinv (master k)) (proj1 Hjok) Hrun)
    as [[-> ->] | (a & rs & a' & -> & Hv & (Hcl & _ & _) & Hok' & Hsb & Hv' & [Hm Hg] & Hidx)].
  { exists g. split; [by apply Inv_locks_same | exact Herr]. }
  cbn in Hm, Hg, Hcl. exists (with_stage (Granted j k rm) g). split; [| exact Hok]. destruct (bound_view c _ k a rs Hinv Hv) as [[Hn1 Hn2 Hn3] _].
  apply (inv_master_step _ _ _ _ c g rest k l' a' (tail rs)); [exact Hinv |].
  constructor; [exact Hok' | exact Hsb | exact Hv' | | | reflexivity | reflexivity | by left | | | | |].
  - constructor; rewrite ?Hm.
    + destruct Hrm as [[-> _] | ->]; discriminate.
    + intros Hs. destruct Hrm as [[_ E] | ->]; [congruence | discriminate].
    + rewrite Hg. intros i [->%elem_of_singleton | Hi]%elem_of_union; [exact Hj |].
      destruct (rm =? DRC_LOCK_EXCLUSIVE); [by apply elem_of_empty in Hi | by apply Hn3].
  - intros a2 rs2 E. rewrite Hv in E. by injection E as <- <-.
  - intros j0 k0 E. injection E as <- <-. split; [reflexivity |]. apply elem_of_keys. by exists b.
  - intros h j0 rm0 T0 Hh Hs. destruct (conv_alone c g rest j k b a rs h j0 rm0 T0 Hinv Hb Hv) as []; [by left | exact Hh | exact Hs].
  - intros j0 rm0 T0 E. discriminate E.
  - intros i m Hm0 Hn.
    assert (Hm1 : has c (g :: rest) i k m \/ (i = j /\ m = rm)).
    { apply has_cons in Hm0 as [Hr | E]; [left; by apply has_rest | right]. by injection E as <- <-. }
    rewrite Hm, Hg. destruct (decide (i = j)) as [-> | Hij].
    + split; [set_solver |]. intros ->. destruct Hrm as [[-> _] | ->]; [| done]. exfalso.
      destruct Hm1 as [Hm1 | [_ E]]; [| discriminate E]. destruct (has_held _ _ _ _ c g rest j k b _ Hinv Hb Hm1) as [E | E]; [by apply Hown | congruence].
    + destruct Hm1 as [Hm1 | [E _]]; [| congruence]. pose proof (Hw i m Hij (HT i) Hm1) as Hmw. unfold makes_way in Hmw.
      destruct (rm =? DRC_LOCK_EXCLUSIVE); [by destruct (Hn Hmw) |].
      destruct (v_cover _ _ _ _ _ _ Hinv i k m Hm1 Hn) as (a2 & rs2 & E & H1 & _). rewrite Hv in E. injection E as <- <-. split; [set_solver | by intros].
  - intros i k0 b0. rewrite Hst. discriminate.
Qed.

(** ** The try request *)
Lemma wp_try_request g j k b r ver (post : lock_answer -> ghost -> Prop) :
  requester g j k b r ->
  (forall ans, la_status ans = CT_ERROR -> post ans g) ->
  (forall ans T, asked j k ans T -> post ans (with_stage (Conv j k (req_mode r) T) g)) ->
  wp (on_locks (master k) (fun e l => drc_try_request_lock_owner e e k r no_answer ver l)) g post.
Proof.
  intros Hrq Herr Hconv. destruct (requester_ok g j k b r Hrq) as [Hjok Hrok]. destruct Hrq as [Hb Hst Hm Hi _ _].
  apply wp_on_locks. intros e c rest ans l' Hinv Hrun. pose proof (v_locks _ _ _ _ _ _ Hinv (master k)) as Hl.
  assert (Hstop : dtc_is_in_rcy e || DRC_STOP_DLS_REQ_FOR_REFORMING ver e k = true -> l' = in_locks (c (master k)) /\ la_status ans = CT_ERROR).
  { intros E. unfold drc_try_request_lock_owner in Hrun. destruct (dtc_is_in_rcy e); cbn in E; rewrite ?E in Hrun; apply Done_inj, pair_eq in Hrun as [<- <-]; done. }
  destruct (dtc_is_in_rcy e) eqn:Hrcy; [destruct (Hstop eq_refl) as [-> Hs]; exists g; split; [by apply Inv_locks_same | by apply Herr] |].
  destruct (DRC_STOP_DLS_REQ_FOR_REFORMING ver e k) eqn:Hsp; [destruct (Hstop eq_refl) as [-> Hs]; exists g; split; [by apply Inv_locks_same | by apply Herr] |].
  destruct (try_request_lock_spec Q e e k r no_answer ver [] [] _ Hl Hrok Hrcy Hsp) as (ans2 & l2 & Hrun2 & Hok' & Hsb & Hcase).
  rewrite Hrun in Hrun2. apply Done_inj, pair_eq in Hrun2 as [<- <-]. destruct (mview c k) as [[a rs] |] eqn:Hv.
  - destruct (Z.eqb_spec (req_inst_id (lock_conv a)) CT_INVALID_ID8) as [Hidle | _].
    + destruct Hcase as (a' & Hv' & (Hs & Hgr & Hold & Hc & Hmo & Hg & Hidx)).
      destruct (convert_move c g rest j k b r l' a' ans Hinv Hb Hst Hm Hi Hjok Hok' Hsb Hv' Hc) as (T & HT & Hinv').
      { rewrite Hv. split_and!; try done. intros E. by rewrite E in Hold. }
      eexists. split; [exact Hinv' | by apply Hconv].
    + destruct Hcase as [Hs ->]. exists g. split; [by apply Inv_locks_same | by apply Herr].
  - destruct (decide (lock_pool_full (in_locks (c (master k))))) as [Hf | Hf].
    + destruct Hcase as [Hs Hv']. exists g. split; [| by apply Herr]. apply Inv_locks_view; [exact Hok' | | exact Hinv].
      intros k0. destruct (decide (k0 = k)) as [-> | Hk]; [by rewrite Hv, Hv' | by apply Hsb].
    + destruct Hcase as (-> & a' & Hv' & Hc & Hg & Hmo).
      destruct (convert_move c g rest j k b r l' a' (mk_answer CT_SUCCESS true 0) Hinv Hb Hst Hm Hi Hjok Hok' Hsb Hv' Hc) as (T & HT & Hinv').
      { rewrite Hv. done. }
      eexists. split; [exact Hinv' | by apply Hconv].
Qed.
End rules.
