(* ===== verification/DlsProps.v ===== *)
(** * Distributed locks: every program keeps the invariant

    The owner's, the master's and the requester's programs of [DrcDls], each
    proved once with the rules of its actions.  Source:
    src/pkg/src/cluster/dtc_dls.c. *)

From stdpp Require Import prelude list gmap.
From S2P Require Import Prelude Bitmap ResPool DrcList ResMap ConvertQ KeyStore GlobalRes DrcTypes DrcPage PageInv DrcLock LockProps DrcLocal LocalThms Threads DrcDls DlsInv DlsRules.

Open Scope Z_scope.
Open Scope drc_scope.

(** [g'] knows what [g] knows, and its request is at stage [st]. *)
Record grew (g g' : ghost) (st : stage) : Prop := mk_grew {
  gr_held : g_held g' = g_held g;
  gr_stage : g_stage g' = st;
  gr_ptr : forall p, p ∈ g_ptr g -> p ∈ g_ptr g';
  gr_mptr : forall p, p ∈ g_mptr g -> p ∈ g_mptr g';
}.

Lemma grew_refl g : grew g g (g_stage g).
Proof. by constructor. Qed.

Lemma grew_trans g1 g2 g3 st st' : grew g1 g2 st -> grew g2 g3 st' -> grew g1 g3 st'.
Proof. intros [] []. constructor; [congruence | done | auto | auto]. Qed.

Lemma grew_stage g g' st st' : grew g g' st -> grew g (with_stage st' g') st'.
Proof. intros []. by constructor. Qed.

#[export] Hint Resolve grew_refl : drc.

Ltac wpb := apply wp_bind.

Section props.
Context (Q : list Z -> list Z -> Prop) (inst_count : Z) (part_master : Z -> Z) (spin : drid_t -> bool) (fuel : nat).
Hypothesis Hcount : inst_count <= CT_MAX_INSTANCES.

Abbreviation Inv := (Inv Q inst_count part_master spin).
Abbreviation master k := (lock_master part_master k).
Abbreviation wp := (wp Inv no_error_answer).
Abbreviation upd := (upd Inv).
Abbreviation res_pure := (res_pure spin).
Abbreviation lock_mode_ok := (lock_mode_ok spin).
Abbreviation asked := (asked inst_count spin).
Abbreviation requester := (requester inst_count spin).
Implicit Types (g : ghost).

Lemma pure_spin k b : spin k = true -> is_locked b = false \/ mode_of b = DRC_LOCK_EXCLUSIVE ->
  (ll_lock b = 0 -> is_locked b = false /\ (is_owner b = true -> mode_of b = DRC_LOCK_EXCLUSIVE)) -> res_pure k b.
Proof. intros Hs Hm Hl. unfold DlsInv.res_pure. rewrite Hs. split; [| done]. intros E. destruct Hm; congruence. Qed.

Lemma spin_free k b : spin k = true -> res_pure k (set_ll_lock 0 b) -> is_locked b = false /\ (is_owner b = true -> mode_of b = DRC_LOCK_EXCLUSIVE).
Proof. intros Hs. unfold DlsInv.res_pure. rewrite Hs. intros [_ Hl]. by apply Hl. Qed.

Lemma spin_taken k b : spin k = true -> ll_lock b = 1 -> is_locked b = false \/ mode_of b = DRC_LOCK_EXCLUSIVE -> res_pure k b.
Proof. intros Hs Hl Hm. apply pure_spin; [done | done |]. congruence. Qed.

(** Only the state of the latch matters for a latch. *)
Lemma pure_latch k b b' : spin k = false -> latch_stat b' = latch_stat b -> res_pure k b -> res_pure k b'.
Proof. intros Hs E. unfold DlsInv.res_pure. by rewrite Hs, E. Qed.

(** ** Giving a lock up *)

Definition in_use (b : drc_local_lock_res) : Prop := stat_of b = LATCH_STATUS_IDLE \/ stat_of b = LATCH_STATUS_IX /\ count_of b = 0.

(** A latch that is not in use may have any mode. *)
Lemma pure_not_in_use k b b' v :
  res_pure k b -> in_use b -> latch_stat b' = with_mode v (latch_stat b) -> spin k = false -> res_pure k b'.
Proof.
  intros Hp Hu E Hs. unfold DlsInv.res_pure in *. rewrite Hs in *. rewrite E. cbn. destruct Hp as (H1 & H2 & H3 & H4).
  assert (Hc : count_of b = 0) by (destruct Hu as [Hi | [_ ?]]; auto).
  assert (Hx : stat_of b <> LATCH_STATUS_X /\ stat_of b <> LATCH_STATUS_S) by (destruct Hu as [-> | [-> _]]; done).
  split_and!; [by intros ?; destruct Hx | intros [? | ?]; [by destruct Hx | lia] | done | done].
Qed.

(** The outcome of asking instance [i] to make way for the request of [j]. *)
Definition released g (i j : Z) (k : drid_t) (rm : Z) (T : gset Z) (st : status_t) g' : Prop :=
  match st with
  | CT_SUCCESS => grew g g' (Conv j k rm (T ∖ {[i]}))
  | CT_ERROR => exists T', grew g g' (Conv j k rm T')
  end.

(** Handing the spin lock of the owner's resource back. *)
Lemma wp_give_back i j k b rm T g0 g st (post : status_t -> ghost -> Prop) :
  g_held g = (i, k, b) :: g_held g0 -> g_stage g = Conv j k rm T -> i <> j -> res_pure k (set_ll_lock 0 b) ->
  (forall g', grew (with_held (g_held g0) g) g' (Conv j k rm T) -> wp (Ret st) g' post) ->
  wp (unlock_res i (ll_idx b);;~ Ret st) g post.
Proof.
  intros Hg Hst Hij Hp Hpost. wpb. eapply wp_unlock; [exact Hg | exact Hp | rewrite Hst; cbn; congruence |].
  apply Hpost. by constructor.
Qed.

(** Writing the new mode [v] and the new flags, then unlocking. *)
Lemma wp_make_way i j k b rm T v owner g0 g (post : status_t -> ghost -> Prop) :
  g_held g = (i, k, b) :: g_held g0 -> g_stage g = Conv j k rm T -> i <> j -> ll_lock b = 1 -> res_pure k (set_ll_lock 0 b) ->
  (spin k = false -> in_use b) -> covers (mode_of b) v -> makes_way rm v -> (spin k = true -> owner = false) ->
  (forall g', grew (with_held (g_held g0) g) g' (Conv j k rm (T ∖ {[i]})) -> post CT_SUCCESS g') ->
  wp (set_latch i (ll_idx b) (with_mode v);;~ set_stat i (ll_idx b) false owner) g
    (fun _ g' => wp (unlock_res i (ll_idx b);;~ Ret CT_SUCCESS) g' post).
Proof.
  intros Hg Hst Hij Hl Hp Huse Hcov Hway Hown Hpost. set (b1 := set_latch_stat (with_mode v (latch_stat b)) b). set (b2 := set_lock_stat false owner b1).
  assert (Hp1 : forall b', latch_stat b' = with_mode v (latch_stat b) -> 
    (spin k = true -> (is_locked b' = is_locked b \/ is_locked b' = false) /\ (ll_lock b' = 1 \/ is_owner b' = false)) -> res_pure k b').
  { intros b' E Hsp. destruct (spin k) eqn:Hs; [| by apply (pure_not_in_use k (set_ll_lock 0 b) b' v); [| apply Huse | |]].
    destruct (spin_free k b Hs Hp) as [Hlk _]. destruct (Hsp eq_refl) as [Hb Hor].
    assert (is_locked b' = false) by (destruct Hb; congruence).
    apply pure_spin; [done | by left |]. intros ?. split; [done |]. destruct Hor; congruence. }
  wpb. apply (wp_set_latch _ _ _ _ i k b (g_held g0)); [exact Hg | right; left; exact Hcov | left; apply Hp1; [done | intros _; split; by left] |].
  apply (wp_set_stat _ _ _ _ i k b1 (g_held g0)); [done | left; apply Hp1; [done | intros _; split; [by right | by left]] |].
  apply (wp_upd _ _ _ _ (with_stage (Conv j k rm (T ∖ {[i]})) (with_held ((i, k, b2) :: g_held g0) g))).
  { apply (upd_made_way _ _ _ _ _ i j k rm T b2); [exact Hst | left | exact Hway]. }
  wpb. apply (wp_unlock _ _ _ _ i k b2 (g_held g0)); [done | apply Hp1; [done |]; intros Hs; split; right; [done | by apply Hown] | cbn; congruence |].
  apply wp_ret, Hpost. by constructor.
Qed.

Lemma wp_split k mode g (post : status_t -> ghost -> Prop) : (forall st, post st g) -> wp (dls_broadcast_btree_split k mode) g post.
Proof.
  intros Hp. unfold dls_broadcast_btree_split. destruct (_ || _); [by apply wp_ret |]. destruct (_ && _); [by apply wp_ret |].
  wpb. apply wp_get_oracle. intros o _. by apply wp_ret.
Qed.

Lemma wp_release_loop n i j k rm T ver ticks times g :
  g_stage g = Conv j k rm T -> i <> j -> lock_mode_ok k rm ->
  wp (release_loop n i k rm ver ticks times) g (released g i j k rm T).
Proof.
  intros Hst Hij Hrm. revert times g Hst. induction n as [| n IH]; intros times g Hst; [done |]. cbn [release_loop].
  wpb. apply wp_find.
  2: { intros g' [-> | (j2 & rm2 & T2 & E & ->)] Hs; apply wp_ret; cbn.
       - constructor; [done | by apply Hs | done | done].
       - rewrite Hst in E. injection E as <- <- <-. by constructor. }
  intros x. wpb. apply (wp_lock _ _ _ _ i k); [left |]. intros b <- Hl Hp.
  set (g1 := with_held _ _).
  assert (Hg1 : g_held g1 = (i, k, b) :: g_held g) by done. assert (Hst1 : g_stage g1 = Conv j k rm T) by done.
  assert (Hback : forall st, st = CT_ERROR -> wp (unlock_res i (ll_idx b);;~ Ret st) g1 (released g i j k rm T)).
  { intros st ->. apply (wp_give_back i j k b rm T g); [done .. |]. intros g' []. apply wp_ret. exists T. constructor; [done | done | |]; intros p Hpp; auto. apply gr_ptr0. by right. }
  assert (Hloop : forall tm, wp (unlock_res i (ll_idx b);;~ release_loop n i k rm ver ticks tm) g1 (released g i j k rm T)).
  { intros tm. wpb. apply (wp_unlock _ _ _ _ i k b (g_held g)); [done | exact Hp | cbn; rewrite Hst; cbn; congruence |].
    eapply wp_mono; [by apply IH |]. intros st g' H. destruct st; [| destruct H as [T' H]; exists T'];
      (eapply grew_trans; [| exact H]; constructor; [done | exact Hst | by right | done]). }
  wpb. apply (wp_lock_stat _ _ _ _ i k); [left |]. cbn [fst snd].
  destruct (is_locked b && (drid_type k =? DR_TYPE_SHUTDOWN)); [by apply Hback |].
  destruct (negb (ticks =? CT_INVALID_ID32) && (ticks <=? times)); [by apply Hback |].
  destruct (is_locked b) eqn:Hlk; [apply Hloop |].
  wpb. apply wp_get_oracle. intros o Ho. destruct (DRC_STOP_DLS_REQ_FOR_REFORMING ver (o_env o) k); [by apply Hback |].
  wpb. apply (wp_latch_of _ _ _ _ i k); [left |]. wpb. apply (wp_lock_stat _ _ _ _ i k); [left |]. rewrite Hlk. cbn [negb andb].
  destruct ((stat_of b =? LATCH_STATUS_IDLE) || (stat_of b =? LATCH_STATUS_IX) && (count_of b =? 0)) eqn:Hfree; [| apply Hloop].
  assert (Huse : in_use b).
  { apply orb_true_iff in Hfree as [E%Z.eqb_eq | [E%Z.eqb_eq E2%Z.eqb_eq]%andb_true_iff]; [by left | by right]. }
  destruct (Z.eqb_spec (mode_of b) DRC_LOCK_NULL) as [_ | Hnn]; [by apply Hback |].
  wpb. apply wp_split. intros st. destruct (decide (st <> CT_SUCCESS)); [by apply Hback |].
  assert (Hdone : forall g', grew (with_held (g_held g) g1) g' (Conv j k rm (T ∖ {[i]})) -> released g i j k rm T CT_SUCCESS g').
  { intros g' []. constructor; [done | done | intros p Hpp; apply gr_ptr0; by right | done]. }
  wpb. destruct Hrm as [[-> Hns] | ->].
  - change (DRC_LOCK_SHARE =? DRC_LOCK_EXCLUSIVE) with false. cbn match. wpb. apply wp_lift. intros [] _.
    apply (wp_make_way i j k b DRC_LOCK_SHARE T DRC_LOCK_SHARE true g); try done; [by right | congruence].
  - change (DRC_LOCK_EXCLUSIVE =? DRC_LOCK_EXCLUSIVE) with true. cbn match.
    apply (wp_make_way i j k b DRC_LOCK_EXCLUSIVE T DRC_LOCK_NULL false g); try done; by left.
Qed.

Lemma released_error g i j k rm T : g_stage g = Conv j k rm T -> released g i j k rm T CT_ERROR g.
Proof. intros Hst. exists T. rewrite <- Hst. apply grew_refl. Qed.

Lemma released_fail g i j k rm T st g' : released g i j k rm T st g' -> released g i j k rm T CT_ERROR g'.
Proof. destruct st; [intros H; by exists (T ∖ {[i]}) | done]. Qed.

Lemma wp_process_release i j k rm T ver ticks g :
  g_stage g = Conv j k rm T -> i <> j -> lock_mode_ok k rm -> drid_type k <> DR_TYPE_TABLE ->
  wp (dls_process_release_ownership fuel i k rm ver ticks) g (released g i j k rm T).
Proof.
  intros Hst Hij Hrm Hty. unfold dls_process_release_ownership. wpb. apply wp_get_oracle. intros o Ho.
  destruct (DRC_STOP_DLS_REQ_FOR_REFORMING ver (o_env o) k); [by apply wp_ret, released_error |].
  destruct (negb (rm =? DRC_LOCK_EXCLUSIVE) && negb (rm =? DRC_LOCK_SHARE)); [by apply wp_ret, released_error |].
  rewrite (proj2 (Z.eqb_neq _ _) Hty). by apply wp_release_loop.
Qed.

(** Polling reads only. *)
Lemma wp_poll_locked n i x times g (post : Z -> ghost -> Prop) : (forall t, post t g) -> wp (poll_locked n i x times) g post.
Proof.
  intros Hp. revert times. induction n as [| n IH]; intros times; [by apply wp_ret |]. cbn [poll_locked].
  wpb. apply wp_lock_stat_any. intros [[] owner]; [apply IH | by apply wp_ret].
Qed.

Lemma wp_process_try_release i j k T ver g :
  g_stage g = Conv j k DRC_LOCK_EXCLUSIVE T -> i <> j -> spin k = true -> drid_type k <> DR_TYPE_TABLE ->
  wp (dls_process_try_release_ownership i k DRC_LOCK_EXCLUSIVE ver) g (released g i j k DRC_LOCK_EXCLUSIVE T).
Proof.
  intros Hst Hij Hsp Hty. unfold dls_process_try_release_ownership. wpb. apply wp_get_oracle. intros o Ho.
  destruct (DRC_STOP_DLS_REQ_FOR_REFORMING ver (o_env o) k); [by apply wp_ret, released_error |].
  change (negb (DRC_LOCK_EXCLUSIVE =? DRC_LOCK_EXCLUSIVE) && negb (DRC_LOCK_EXCLUSIVE =? DRC_LOCK_SHARE)) with false. cbn match.
  rewrite (proj2 (Z.eqb_neq _ _) Hty). wpb. apply wp_get. intros x. wpb. apply wp_poll_locked. intros times.
  assert (Hptr : grew g (add_ptr (i, k, x) g) (Conv j k DRC_LOCK_EXCLUSIVE T)) by (constructor; [done | done | by right | done]).
  destruct (3 <=? times); [apply wp_ret; by exists T |].
  wpb. apply (wp_lock _ _ _ _ i k); [left |]. intros b <- Hl Hp.
  wpb. apply (wp_latch_of _ _ _ _ i k); [left |]. destruct (Z.eqb_spec (mode_of b) DRC_LOCK_NULL) as [_ | Hnn].
  - apply (wp_give_back i j k b DRC_LOCK_EXCLUSIVE T g); [done .. |]. intros g' Hg'. apply wp_ret. exists T. eapply grew_trans; [exact Hptr |].
    by destruct Hg' as []; constructor.
  - wpb. change (DRC_LOCK_EXCLUSIVE =? DRC_LOCK_EXCLUSIVE) with true. cbn match.
    apply (wp_make_way i j k b DRC_LOCK_EXCLUSIVE T DRC_LOCK_NULL false g); try done; [congruence | by left |].
    intros g' Hg'. eapply grew_trans; [exact Hptr |]. by destruct Hg' as []; constructor.
Qed.

(** ** Messages *)

(** A message whose handler ends in [post], of which an error is always a
    possible reading. *)
Lemma wp_request_msg self k dst r ver h g (post : status_t -> ghost -> Prop) :
  wp (Ret CT_ERROR) g post ->
  (forall q, src_inst q = self -> rq_mode q = req_mode r -> wp (h q) g (fun st g' => post st g' /\ wp (Ret CT_ERROR) g' post)) ->
  wp (dls_request_msg self k dst r ver h) g post.
Proof.
  intros Herr Hh. unfold dls_request_msg. wpb. apply wp_get_oracle. intros o Ho. destruct (CT_MAX_INSTANCES <=? dst); [exact Herr |].
  destruct (o_fate o) eqn:Ef; [exact Herr | | by destruct (Ho Ef) |].
  - wpb. eapply wp_mono; [by apply Hh |]. by intros st g' [_ ?].
  - wpb. eapply wp_mono; [by apply Hh |]. intros st g' [Hp He]. wpb. apply wp_get_oracle. intros o2 _.
    destruct (DRC_STOP_DLS_REQ_FOR_REFORMING ver (o_env o2) k); [exact He | by apply wp_ret].
Qed.

Lemma wp_release_msg self i j k T r ver g :
  g_stage g = Conv j k (req_mode r) T -> i <> j -> lock_mode_ok k (req_mode r) -> drid_type k <> DR_TYPE_TABLE ->
  wp (release_msg fuel self k i r ver) g (released g i j k (req_mode r) T).
Proof.
  intros Hst Hij Hrm Hty. apply wp_request_msg; [by apply wp_ret, released_error |]. intros q _ Hq. rewrite Hq.
  eapply wp_mono; [by apply wp_process_release |]. intros st g' H. split; [done |]. by eapply wp_ret, released_fail.
Qed.

Lemma wp_try_release_msg self i j k T r ver g :
  g_stage g = Conv j k (req_mode r) T -> req_mode r = DRC_LOCK_EXCLUSIVE -> i <> j -> spin k = true -> drid_type k <> DR_TYPE_TABLE ->
  wp (try_release_msg self k i r ver) g (released g i j k (req_mode r) T).
Proof.
  intros Hst Hx Hij Hsp Hty. apply wp_request_msg; [by apply wp_ret, released_error |]. intros q _ Hq. rewrite Hq. rewrite Hx in *.
  eapply wp_mono; [by apply wp_process_try_release |]. intros st g' H. split; [done |]. by eapply wp_ret, released_fail.
Qed.

(** ** Asking the owners *)

(** The outcome of a request up to the point where it may be claimed. *)
Definition convertible g (j : Z) (k : drid_t) (rm : Z) (st : status_t) g' : Prop :=
  match st with
  | CT_SUCCESS => exists T, grew g g' (Conv j k rm T) /\ forall i, i ∉ T
  | CT_ERROR => grew g g' Rest
  end.

Section request.
Context (j : Z) (k : drid_t) (b : drc_local_lock_res) (r : drc_req_info).
Hypotheses (Hpure : res_pure k b) (Hty : drid_type k <> DR_TYPE_TABLE) (Hrm : lock_mode_ok k (req_mode r)) (Hj : 0 <= j < inst_count).
Abbreviation rm := (req_mode r).

Lemma drop_stage g T : g_stage g = Conv j k rm T -> (j, k, b) ∈ g_held g -> upd g (with_stage Rest g).
Proof. intros Hst Hb. apply upd_rest. unfold pure_stage. rewrite Hst. cbn. by exists b. Qed.

(** A request that fails leaves nothing at the master that matters. *)
Lemma wp_ret_error g g0 T (post : status_t -> ghost -> Prop) :
  grew g0 g (Conv j k rm T) -> (j, k, b) ∈ g_held g0 -> (forall g', grew g0 g' Rest -> post CT_ERROR g') -> wp (Ret CT_ERROR) g post.
Proof.
  intros Hg Hb Hp. destruct Hg as [Hh Hs Hp1 Hp2]. apply (wp_upd _ _ _ _ (with_stage Rest g)); [eapply drop_stage; [exact Hs | by rewrite Hh] |].
  apply wp_ret, Hp. by constructor.
Qed.

Lemma wp_cancel_error g g0 T (post : status_t -> ghost -> Prop) :
  grew g0 g (Conv j k rm T) -> (forall g', grew g0 g' Rest -> post CT_ERROR g') -> wp (cancel_request (master k) k j;;~ Ret CT_ERROR) g post.
Proof.
  intros Hg Hp. wpb. eapply wp_cancel; [apply Hg |]. apply wp_ret, Hp. by eapply grew_stage.
Qed.

Lemma wp_owner_refused g g0 T ver (post : status_t -> ghost -> Prop) :
  grew g0 g (Conv j k rm T) -> (j, k, b) ∈ g_held g0 -> (forall g', grew g0 g' Rest -> post CT_ERROR g') ->
  wp (owner_refused (master k) k j ver CT_ERROR) g post.
Proof.
  intros Hg Hb Hp. unfold owner_refused. wpb. apply wp_get_oracle. intros o _.
  destruct (DRC_STOP_DLS_REQ_FOR_REFORMING ver (o_env o) k); [by eapply wp_ret_error | by eapply wp_cancel_error].
Qed.

Lemma not_success st : st <> CT_SUCCESS -> st = CT_ERROR.
Proof. by destruct st. Qed.

Lemma inst_ok_i n i : Z.of_nat (S n) = inst_count - i -> 0 <= i -> inst_ok i.
Proof. unfold inst_ok. lia. Qed.

(** The owners that are still to be asked, from instance [i] on. *)
Definition to_ask (i old : Z) (T : gset Z) : Prop := forall t, t ∈ T -> i <= t < inst_count /\ t ∈ inst_set old /\ t <> j.

Lemma to_ask_skip i old T : to_ask i old T -> i ∉ inst_set old \/ i = j -> to_ask (i + 1) old T.
Proof. intros HT Hi t Ht. destruct (HT t Ht) as (? & ? & ?). assert (t <> i) by (intros ->; by destruct Hi). split_and!; try done; lia. Qed.

Lemma to_ask_next i old T : to_ask i old T -> to_ask (i + 1) old (T ∖ {[i]}).
Proof. intros HT t [Ht Hti%not_elem_of_singleton]%elem_of_difference. destruct (HT t Ht) as (? & ? & ?). split_and!; try done; lia. Qed.

Lemma convertible_trans g g' T st g2 : grew g g' (Conv j k rm T) -> convertible g' j k rm st g2 -> convertible g j k rm st g2.
Proof. intros Hg. destruct st; [intros (T2 & H2 & ?); exists T2; split; [by eapply grew_trans | done] | intros H2; by eapply grew_trans]. Qed.

(** All owners have been asked. *)
Lemma convertible_all i old g T : g_stage g = Conv j k rm T -> to_ask i old T -> inst_count <= i -> convertible g j k rm CT_SUCCESS g.
Proof. intros Hst HT Hi. exists T. rewrite <- Hst. split; [apply grew_refl |]. intros t Ht. destruct (HT t Ht). lia. Qed.

(** Going on after an owner has made way. *)
Lemma wp_made_way g g' i T (body : dprog status_t) :
  grew g g' (Conv j k rm (T ∖ {[i]})) -> i <> j -> inst_ok i -> wp body g' (convertible g' j k rm) ->
  wp ((if rm =? DRC_LOCK_EXCLUSIVE then clear_granted (master k) k i else Ret tt);;~ body) g' (convertible g j k rm).
Proof.
  intros Hg Hij Hi Hbody. apply (wp_mono _ _ _ _ _ (convertible g j k rm)) in Hbody; [| intros st g2; by eapply convertible_trans].
  wpb. destruct (Z.eqb_spec rm DRC_LOCK_EXCLUSIVE) as [Ex | _]; [| by apply wp_ret].
  eapply (wp_clear _ _ _ _ g' i j k (T ∖ {[i]})); [rewrite (gr_stage _ _ _ Hg); by rewrite Ex | done | set_solver | done | exact Hbody].
Qed.

(** Whether instance [i] is an owner. *)
Lemma wp_exist old i g (post : bool -> ghost -> Prop) :
  bitmap_ok old -> inst_ok i -> post (bool_decide (i ∈ inst_set old)) g -> wp (lift (drc_bitmap64_exist old i)) g post.
Proof. intros Hold Hi Hp. apply wp_lift. intros x Hx. rewrite drc_bitmap64_exist_Done in Hx by done. by apply Done_inj in Hx as <-. Qed.

Section owners.
Context (ver old : Z).
Hypotheses (Hold : bitmap_ok old) (Hrj : req_inst_id r = j).

(** The loop of a master that asks for another instance. *)
Lemma wp_ask_owners n i g T :
  Z.of_nat n = inst_count - i -> 0 <= i -> g_stage g = Conv j k rm T -> (j, k, b) ∈ g_held g -> to_ask i old T ->
  wp (ask_owners fuel n i (master k) k r ver old) g (convertible g j k rm).
Proof.
  revert i g T. induction n as [| n IH]; intros i g T Hn Hi Hst Hb HT; cbn [ask_owners].
  { apply wp_ret. eapply convertible_all; [done .. | lia]. }
  assert (Hok : inst_ok i) by (by eapply inst_ok_i). wpb. apply wp_exist; [done | done |]. rewrite Hrj.
  destruct (negb (bool_decide (i ∈ inst_set old)) || (j =? i)) eqn:Hskip.
  { apply (IH (i + 1) g T); [lia | lia | done | done |]. apply to_ask_skip; [done |].
    apply orb_true_iff in Hskip as [E%negb_true_iff%bool_decide_eq_false | E%Z.eqb_eq]; [by left | by right]. }
  apply orb_false_iff in Hskip as [_ Hij%Z.eqb_neq]. wpb. apply (wp_mono _ _ _ _ (released g i j k rm T)).
  { destruct (master k =? i) eqn:Em; [apply Z.eqb_eq in Em; rewrite Em; apply wp_process_release; done | apply wp_release_msg; done]. }
  intros st g' Hrel. destruct (decide (st <> CT_SUCCESS)) as [->%not_success | Hs].
  { destruct Hrel as [T' Hg']. eapply wp_owner_refused; [exact Hg' | exact Hb | by intros]. }
  destruct st; [| by destruct Hs]. apply (wp_made_way g g' i T); [exact Hrel | done | done |].
  apply (IH (i + 1) g' (T ∖ {[i]})); [lia | lia | apply Hrel | by rewrite (gr_held _ _ _ Hrel) | by apply to_ask_next].
Qed.

(** The loop of a master that asks for itself. *)
Lemma wp_release_owners n i g T :
  master k = j -> Z.of_nat n = inst_count - i -> 0 <= i -> g_stage g = Conv j k rm T -> (j, k, b) ∈ g_held g -> to_ask i old T ->
  wp (release_owners fuel n i j k r ver old) g (convertible g j k rm).
Proof.
  intros Hmj. revert i g T. induction n as [| n IH]; intros i g T Hn Hi Hst Hb HT; cbn [release_owners].
  { apply wp_ret. eapply convertible_all; [done .. | lia]. }
  assert (Hok : inst_ok i) by (by eapply inst_ok_i). wpb. apply wp_exist; [done | done |].
  destruct (negb (bool_decide (i ∈ inst_set old)) || (j =? i)) eqn:Hskip.
  { apply (IH (i + 1) g T); [lia | lia | done | done |]. apply to_ask_skip; [done |].
    apply orb_true_iff in Hskip as [E%negb_true_iff%bool_decide_eq_false | E%Z.eqb_eq]; [by left | by right]. }
  apply orb_false_iff in Hskip as [_ Hij%Z.eqb_neq]. wpb. apply (wp_mono _ _ _ _ (released g i j k rm T)).
  { apply wp_release_msg; done. }
  intros st g' Hrel. destruct (decide (st <> CT_SUCCESS)) as [->%not_success | Hs].
  { destruct Hrel as [T' Hg']. pose proof (wp_cancel_error g' g T' (convertible g j k rm) Hg') as Hc. rewrite Hmj in Hc. by apply Hc. }
  destruct st; [| by destruct Hs]. rewrite <- Hmj at 1. apply (wp_made_way g g' i T); [exact Hrel | done | done |].
  apply (IH (i + 1) g' (T ∖ {[i]})); [lia | lia | apply Hrel | by rewrite (gr_held _ _ _ Hrel) | by apply to_ask_next].
Qed.

(** The loop of a try request of the master itself. *)
Lemma wp_try_release_owners n i g T :
  master k = j -> spin k = true -> rm = DRC_LOCK_EXCLUSIVE -> j ∉ inst_set old ->
  Z.of_nat n = inst_count - i -> 0 <= i -> g_stage g = Conv j k rm T -> (j, k, b) ∈ g_held g -> to_ask i old T ->
  wp (try_release_owners n i j k r ver old) g (convertible g j k rm).
Proof.
  intros Hmj Hsp Hx Hnj. revert i g T. induction n as [| n IH]; intros i g T Hn Hi Hst Hb HT; cbn [try_release_owners].
  { apply wp_ret. eapply convertible_all; [done .. | lia]. }
  assert (Hok : inst_ok i) by (by eapply inst_ok_i). wpb. apply wp_exist; [done | done |].
  case_bool_decide as Hin; cbn [negb]; [| apply (IH (i + 1) g T); [lia | lia | done | done |]; apply to_ask_skip; [done | by left]].
  wpb. apply (wp_mono _ _ _ _ (released g i j k rm T)); [apply wp_try_release_msg; try done; by intros -> |].
  intros st g' Hrel. destruct (decide (st <> CT_SUCCESS)) as [->%not_success | Hs].
  { destruct Hrel as [T' Hg']. pose proof (wp_cancel_error g' g T' (convertible g j k rm) Hg') as Hc. rewrite Hmj in Hc. by apply Hc. }
  destruct st; [| by destruct Hs]. eapply wp_mono; [| intros st g2; by eapply convertible_trans].
  apply (IH (i + 1) g' (T ∖ {[i]})); [lia | lia | apply Hrel | by rewrite (gr_held _ _ _ Hrel) | by apply to_ask_next].
Qed.
End owners.

(** ** The request at the master *)

Lemma wp_wait_lock_owner n g x ver (post : lock_answer -> ghost -> Prop) :
  requester g j k b r -> (k, x) ∈ g_mptr g ->
  (forall ans g', la_status ans = CT_ERROR -> grew g g' Rest -> post ans g') ->
  (forall ans g' T, asked j k ans T -> grew g g' (Conv j k rm T) -> post ans g') ->
  wp (wait_lock_owner n (master k) k r ver x) g post.
Proof.
  intros Hrq Hx Herr Hconv. assert (Hst : grew g g Rest) by (rewrite <- (rq_rest _ _ _ _ _ _ _ Hrq); apply grew_refl).
  induction n as [| n IH]; [done |]. cbn [wait_lock_owner]. wpb. apply (wp_poll _ _ _ _ g j k b); [exact Hrq | exact Hx | | | exact IH].
  - intros ans Ha. by apply wp_ret, Herr.
  - intros ans T Ha. apply wp_ret. eapply Hconv; [exact Ha |]. by eapply grew_stage.
Qed.

Lemma wp_request_lock_owner g ver (post : lock_answer -> ghost -> Prop) :
  requester g j k b r ->
  (forall ans g', la_status ans = CT_ERROR -> grew g g' Rest -> post ans g') ->
  (forall ans g' T, asked j k ans T -> grew g g' (Conv j k rm T) -> post ans g') ->
  wp (request_lock_owner fuel (master k) k r ver) g post.
Proof.
  intros Hrq Herr Hconv. assert (Hst : grew g g Rest) by (rewrite <- (rq_rest _ _ _ _ _ _ _ Hrq); apply grew_refl).
  unfold request_lock_owner. wpb. apply (wp_request_start _ _ _ _ g j k b); [exact Hrq | | |].
  - intros ans Ha. by apply wp_ret, Herr.
  - intros ans T Ha. apply wp_ret. eapply Hconv; [exact Ha |]. by eapply grew_stage.
  - intros x. assert (Hg : forall g' st, grew (add_mptr (k, x) g) g' st -> grew g g' st).
    { intros g' st []. constructor; try done. intros p Hp. apply gr_mptr0. by right. }
    apply wp_wait_lock_owner; [destruct Hrq; by constructor | left | |].
    + intros ans g' Ha Hg'. by apply Herr, Hg.
    + intros ans g' T Ha Hg'. eapply Hconv; [exact Ha | by apply Hg].
Qed.

(** Everything is ready to be claimed. *)
Lemma convertible_now g0 g T : grew g0 g (Conv j k rm T) -> (forall i, i ∉ T) -> convertible g0 j k rm CT_SUCCESS g.
Proof. intros Hg HT. by exists T. Qed.

Lemma first_owner_spec n i old x :
  bitmap_ok old -> 0 <= i -> i + Z.of_nat n <= CT_MAX_INSTANCES -> first_owner n i old = Done x ->
  x ∈ inst_set old \/ x = CT_INVALID_ID8 /\ forall t, i <= t < i + Z.of_nat n -> t ∉ inst_set old.
Proof.
  intros Hold. revert i. induction n as [| n IH]; intros i Hi Hn; cbn [first_owner]; [intros [= <-]; right; split; [done | lia] |].
  rewrite drc_bitmap64_exist_Done by (done || lia). rewrite outcome_ret_bind. case_bool_decide as Hin; [intros [= <-]; by left |].
  intros Hrun. destruct (IH (i + 1) ltac:(lia) ltac:(lia) Hrun) as [? | [-> Hno]]; [by left | right]. split; [done |].
  intros t Ht. destruct (decide (t = i)) as [-> |]; [done | apply Hno; lia].
Qed.

(** A spin lock has one owner at most: once the first one has made way, or is
    the requester itself, nobody is left. *)
Lemma one_owner_mine ans T : spin k = true -> asked j k ans T -> la_granted ans = false -> j ∈ inst_set (la_old_owner_map ans) -> forall i, i ∉ T.
Proof.
  intros Hsp Ha Hg Hin i. unfold DlsRules.asked in Ha. rewrite Hg in Ha. destruct Ha as (_ & _ & -> & Ho). destruct (Ho Hsp) as [o Ho'].
  intros [Hi Hne%not_elem_of_singleton]%elem_of_difference. apply Ho', elem_of_singleton in Hi as ->. apply Ho', elem_of_singleton in Hin as ->. done.
Qed.

Lemma one_owner_first ans T x : spin k = true -> asked j k ans T -> la_granted ans = false -> j ∉ inst_set (la_old_owner_map ans) ->
  first_owner (Z.to_nat inst_count) 0 (la_old_owner_map ans) = Done x -> x <> j /\ forall i, i ∉ T ∖ {[x]}.
Proof.
  intros Hsp Ha Hg Hin Hx. unfold DlsRules.asked in Ha. rewrite Hg in Ha. destruct Ha as (Hok & Hlt & -> & Ho). destruct (Ho Hsp) as [o Ho'].
  destruct (first_owner_spec (Z.to_nat inst_count) 0 (la_old_owner_map ans) x Hok (Z.le_refl 0) ltac:(lia) Hx) as [Hxin | [-> Hno]].
  { split; [by intros -> |]. intros i [[Hi _]%elem_of_difference Hne%not_elem_of_singleton]%elem_of_difference.
    apply Ho', elem_of_singleton in Hi as ->. apply Ho', elem_of_singleton in Hxin as ->. done. }
  split; [intros E; apply (inst_ok_ne j); [unfold inst_ok; lia | done] |]. intros i Hi.
  apply elem_of_difference in Hi as [[Hi' _]%elem_of_difference _]. apply (Hno i); [| done]. apply Hlt in Hi' as ?. apply elem_of_inst_set in Hi'. lia.
Qed.

(** The rest of the handler of a spin lock request, from the answer of the
    catalog on; [ask] asks the owner. *)
Lemma wp_ask_one_owner g0 g ver ans T (ask : Z -> dprog status_t) :
  spin k = true -> asked j k ans T -> grew g0 g (Conv j k rm T) -> (j, k, b) ∈ g_held g0 ->
  (forall x, x <> j -> wp (ask x) g (released g x j k rm T)) ->
  wp (if decide (la_status ans <> CT_SUCCESS) then Ret CT_ERROR
      else if la_granted ans then Ret CT_SUCCESS
      else
        mine <~ lift (drc_bitmap64_exist (la_old_owner_map ans) j);
        if (mine : bool) then Ret CT_SUCCESS
        else
          owner_id <~ lift (first_owner (Z.to_nat inst_count) 0 (la_old_owner_map ans));
          ret <~ ask owner_id;
          if decide (ret <> CT_SUCCESS) then owner_refused (master k) k j ver ret else Ret ret) g (convertible g0 j k rm).
Proof.
  intros Hsp Ha Hg Hb Hask. destruct (decide (la_status ans <> CT_SUCCESS)); [by eapply wp_ret_error |].
  destruct (la_granted ans) eqn:Hgr.
  { apply wp_ret. eapply convertible_now; [exact Hg |]. unfold DlsRules.asked in Ha. rewrite Hgr in Ha. subst T. by intros i ?%elem_of_empty. }
  assert (Hold : bitmap_ok (la_old_owner_map ans)) by (unfold DlsRules.asked in Ha; rewrite Hgr in Ha; apply Ha).
  wpb. apply wp_exist; [exact Hold | unfold inst_ok; lia |]. case_bool_decide as Hin.
  { apply wp_ret. eapply convertible_now; [exact Hg |]. by eapply one_owner_mine. }
  wpb. apply wp_lift. intros x Hx. destruct (one_owner_first ans T x Hsp Ha Hgr Hin Hx) as [Hxj HT].
  wpb. eapply wp_mono; [by apply Hask |]. intros st g' Hrel. destruct (decide (st <> CT_SUCCESS)) as [->%not_success | Hs].
  { destruct Hrel as [T' Hg']. eapply wp_owner_refused; [eapply grew_trans; [exact Hg | exact Hg'] | exact Hb | by intros]. }
  destruct st; [| by destruct Hs]. apply wp_ret. eapply convertible_now; [| exact HT]. by eapply grew_trans.
Qed.
End request.

(** The outcome of a request. *)
Definition granted g (j : Z) (k : drid_t) (rm : Z) (st : status_t) g' : Prop :=
  match st with CT_SUCCESS => grew g g' (Granted j k rm) | CT_ERROR => grew g g' Rest end.

(** Spin locks and latches are asked for with their own commands. *)
Definition cmd_ok (k : drid_t) (cmd : lock_cmd) (rm : Z) : Prop :=
  match cmd with
  | REQUEST_LOCK | TRY_REQUEST_LOCK => spin k = true /\ rm = DRC_LOCK_EXCLUSIVE
  | REQUEST_LATCH_S => spin k = false /\ rm = DRC_LOCK_SHARE
  | REQUEST_LATCH_X => spin k = false /\ rm = DRC_LOCK_EXCLUSIVE
  end.

Section handlers.
Context (j : Z) (k : drid_t) (b : drc_local_lock_res).
Hypotheses (Hpure : res_pure k b) (Hty : drid_type k <> DR_TYPE_TABLE).

Lemma requester_rest g r : requester g j k b r -> grew g g Rest.
Proof. intros Hrq. rewrite <- (rq_rest _ _ _ _ _ _ _ Hrq). apply grew_refl. Qed.

Lemma asked_to_ask ans T : asked j k ans T -> la_granted ans = false -> to_ask j 0 (la_old_owner_map ans) T /\ bitmap_ok (la_old_owner_map ans).
Proof.
  unfold DlsRules.asked. intros Ha Hg. rewrite Hg in Ha. destruct Ha as (Hok & Hlt & -> & _). split; [| done].
  intros t [Ht Hne%not_elem_of_singleton]%elem_of_difference. pose proof (Hlt t Ht). apply elem_of_inst_set in Ht as ?. split_and!; lia || done.
Qed.

Lemma asked_granted ans T : asked j k ans T -> la_granted ans = true -> forall i, i ∉ T.
Proof. unfold DlsRules.asked. intros Ha Hg. rewrite Hg in Ha. subst T. by intros i ?%elem_of_empty. Qed.

Lemma wp_ask_master_for_lock g q :
  requester g j k b (lock_req_info q) -> spin k = true ->
  wp (dls_process_ask_master_for_lock inst_count fuel (master k) k q) g (convertible g j k (rq_mode q)).
Proof.
  intros Hrq Hsp. unfold dls_process_ask_master_for_lock. pose proof (requester_rest g _ Hrq) as Hg0.
  destruct (negb (rq_mode q =? DRC_LOCK_EXCLUSIVE) || (CT_MAX_INSTANCES <=? src_inst q)); [by apply wp_ret |].
  pose proof (rq_inst _ _ _ _ _ _ _ Hrq) as Hi. rewrite Hi. wpb. eapply (wp_request_lock_owner j k b); [exact Hrq | |].
  - intros ans g' Ha Hg. rewrite decide_True by (by rewrite Ha). by apply wp_ret.
  - intros ans g' T Ha Hg. apply (wp_ask_one_owner j k b (lock_req_info q) Hpure (rq_inst_ok _ _ _ _ _ _ _ Hrq) g g' (rq_version q) ans T
      (fun x => if master k =? x then dls_process_release_ownership fuel (master k) k (rq_mode q) (rq_version q) (rq_ticks q)
                else release_msg fuel (master k) k x (lock_req_info q) (rq_version q))); [done | done | exact Hg | apply Hrq |].
    intros x Hx. destruct (Z.eqb_spec (master k) x) as [-> |].
    + apply wp_process_release; [apply Hg | done | apply Hrq | done].
    + apply wp_release_msg; [apply Hg | done | apply Hrq | done].
Qed.

Lemma wp_try_ask_master_for_lock g q :
  requester g j k b (lock_req_info q) -> spin k = true ->
  wp (dls_process_try_ask_master_for_lock inst_count (master k) k q) g (convertible g j k (rq_mode q)).
Proof.
  intros Hrq Hsp. unfold dls_process_try_ask_master_for_lock. pose proof (requester_rest g _ Hrq) as Hg0.
  destruct (Z.eqb_spec (rq_mode q) DRC_LOCK_EXCLUSIVE) as [Hx | _]; cbn [negb orb]; [| by apply wp_ret].
  destruct (CT_MAX_INSTANCES <=? src_inst q); [by apply wp_ret |].
  pose proof (rq_inst _ _ _ _ _ _ _ Hrq) as Hi. rewrite Hi. wpb. eapply (wp_try_request _ _ _ _ g j k b); [exact Hrq | |].
  - intros ans Ha. rewrite decide_True by (by rewrite Ha). by apply wp_ret.
  - intros ans T Ha. pose proof (grew_stage _ _ _ (Conv j k (rq_mode q) T) Hg0) as Hg.
    apply (wp_ask_one_owner j k b (lock_req_info q) Hpure (rq_inst_ok _ _ _ _ _ _ _ Hrq) g _ (rq_version q) ans T
      (fun x => if master k =? x then dls_process_try_release_ownership (master k) k (rq_mode q) (rq_version q)
                else try_release_msg (master k) k x (lock_req_info q) (rq_version q))); [done | done | exact Hg | apply Hrq |].
    intros x Hxj. destruct (Z.eqb_spec (master k) x) as [-> |].
    + cbn [req_mode lock_req_info] in *. rewrite Hx in *. apply wp_process_try_release; [apply Hg | done | done | done].
    + apply wp_try_release_msg; [apply Hg | done | done | done | done].
Qed.

Lemma wp_ask_master_for_latch g q mode :
  requester g j k b (lock_req_info q) ->
  wp (dls_process_ask_master_for_latch inst_count fuel (master k) k mode q) g (convertible g j k (rq_mode q)).
Proof.
  intros Hrq. unfold dls_process_ask_master_for_latch. pose proof (requester_rest g _ Hrq) as Hg0.
  destruct (negb (rq_mode q =? mode) || (CT_MAX_INSTANCES <=? src_inst q)); [by apply wp_ret |].
  pose proof (rq_inst _ _ _ _ _ _ _ Hrq) as Hi. pose proof (rq_inst_ok _ _ _ _ _ _ _ Hrq) as Hjr.
  wpb. eapply (wp_request_lock_owner j k b); [exact Hrq | |].
  - intros ans g' Ha Hg. rewrite decide_True by (by rewrite Ha). by apply wp_ret.
  - intros ans g' T Ha Hg. destruct (decide (la_status ans <> CT_SUCCESS)).
    { eapply (wp_ret_error j k b (lock_req_info q)); [done | exact Hg | apply Hrq | done]. }
    destruct (la_granted ans) eqn:Hgr; [apply wp_ret; eapply (convertible_now j k (lock_req_info q)); [exact Hg | by eapply asked_granted] |].
    destruct (asked_to_ask ans T Ha Hgr) as [HT Hold]. eapply wp_mono.
    + eapply (wp_ask_owners j k b (lock_req_info q)); [done | done | apply Hrq | exact Hjr | exact Hold | exact Hi | lia | lia | apply Hg | rewrite (gr_held _ _ _ Hg); apply Hrq | exact HT].
    + intros st g2 H2. eapply (convertible_trans j k (lock_req_info q)); [exact Hg | exact H2].
Qed.

(** ** Claiming *)

(** The claim is refused when the version of the reform has moved on. *)
Lemma wp_claim_request g0 g sid rm T ver :
  grew g0 g (Conv j k rm T) -> (forall i, i ∉ T) -> (j, k, b) ∈ g_held g0 -> lock_mode_ok k rm -> 0 <= j < inst_count ->
  (rm = DRC_LOCK_SHARE -> mode_of b <> DRC_LOCK_EXCLUSIVE) ->
  wp (claim_lock (master k) k j sid rm ver) g (granted g0 j k rm).
Proof.
  intros Hg HT Hb Hrm Hjr Hown. apply wp_post_upd. eapply (wp_claim _ _ _ _ g j sid k b); [apply Hg | exact HT | by rewrite (gr_held _ _ _ Hg) | done | lia | done | |].
  - exists (with_stage Rest g). split; [| by eapply grew_stage]. apply upd_rest. unfold pure_stage. rewrite (gr_stage _ _ _ Hg). cbn.
    exists b. by rewrite (gr_held _ _ _ Hg).
  - eexists. split; [by intros ? ? |]. by eapply grew_stage.
Qed.

Lemma wp_lock_msg g q cmd :
  requester g j k b (lock_req_info q) -> cmd_ok k cmd (rq_mode q) -> (rq_mode q = DRC_LOCK_SHARE -> mode_of b <> DRC_LOCK_EXCLUSIVE) ->
  wp (dls_process_lock_msg inst_count fuel (master k) k cmd q) g (granted g j k (rq_mode q)).
Proof.
  intros Hrq Hcmd Hown. unfold dls_process_lock_msg. wpb. apply (wp_mono _ _ _ _ (convertible g j k (rq_mode q))).
  { destruct cmd; cbn in Hcmd; destruct Hcmd; [by apply wp_ask_master_for_lock | by apply wp_ask_master_for_latch | by apply wp_ask_master_for_latch | by apply wp_try_ask_master_for_lock]. }
  intros [] g' Hc; [rewrite decide_True by done | rewrite decide_False by done; by apply wp_ret]. destruct Hc as (T & Hg & HT).
  pose proof (rq_inst _ _ _ _ _ _ _ Hrq) as Hi. cbn in Hi. rewrite Hi.
  eapply wp_claim_request; [exact Hg | exact HT | apply Hrq | apply Hrq | apply Hrq | exact Hown].
Qed.

(** An error is always a possible reading of the outcome. *)
Lemma granted_error g rm st g' : (j, k, b) ∈ g_held g -> granted g j k rm st g' -> wp (Ret CT_ERROR) g' (granted g j k rm).
Proof.
  intros Hb Hg. destruct st; [| by apply wp_ret]. cbn in Hg. exists (with_stage Rest g'). split; [| by eapply grew_stage].
  apply upd_rest. unfold pure_stage. rewrite (gr_stage _ _ _ Hg). exists b. by rewrite (gr_held _ _ _ Hg).
Qed.

Lemma wp_claim_or_cancel g0 g r ver :
  master k = j -> requester g0 j k b r -> convertible g0 j k (req_mode r) CT_SUCCESS g -> (req_mode r = DRC_LOCK_SHARE -> mode_of b <> DRC_LOCK_EXCLUSIVE) ->
  wp (claim_or_cancel j k r ver) g (granted g0 j k (req_mode r)).
Proof.
  intros Hmj Hrq (T & Hg & HT) Hown. unfold claim_or_cancel. wpb. rewrite (rq_inst _ _ _ _ _ _ _ Hrq).
  pose proof (wp_claim Q inst_count part_master spin g j (req_inst_sid r) k b (req_mode r) T ver
    (fun st g' => wp (if decide (st <> CT_SUCCESS) then cancel_request j k j;;~ Ret st else Ret st) g' (granted g0 j k (req_mode r)))) as Hcl.
  rewrite Hmj in Hcl. apply Hcl; [apply Hg | done | rewrite (gr_held _ _ _ Hg); apply Hrq | apply Hrq | apply Hrq | done | |].
  - rewrite decide_True by done. pose proof (wp_cancel_error j k r g g0 T (granted g0 j k (req_mode r)) Hg) as Hc. rewrite Hmj in Hc. by apply Hc.
  - rewrite decide_False by (by intros ?). apply wp_ret. by eapply grew_stage.
Qed.

(** ** The requester *)

Lemma req_msg_requester g r q :
  requester g j k b r -> src_inst q = j -> rq_mode q = req_mode r -> requester g j k b (lock_req_info q).
Proof. intros [] Hs Hm. constructor; try done. cbn. by rewrite Hm. Qed.

Lemma wp_remote_request g r cmd :
  requester g j k b r -> cmd_ok k cmd (req_mode r) -> (req_mode r = DRC_LOCK_SHARE -> mode_of b <> DRC_LOCK_EXCLUSIVE) ->
  wp (dls_request_msg j k (master k) r (req_version r) (dls_process_lock_msg inst_count fuel (master k) k cmd)) g (granted g j k (req_mode r)).
Proof.
  intros Hrq Hcmd Hown. apply wp_request_msg; [apply wp_ret; by eapply requester_rest |]. intros q Hq Hm. eapply wp_mono.
  - apply wp_lock_msg; [by eapply req_msg_requester | by rewrite Hm | by rewrite Hm].
  - rewrite Hm. intros st g' Hg. split; [exact Hg |]. eapply granted_error; [apply Hrq | exact Hg].
Qed.

Lemma wp_request_lock g r cmd :
  requester g j k b r -> cmd_ok k cmd (req_mode r) -> (req_mode r = DRC_LOCK_SHARE -> mode_of b <> DRC_LOCK_EXCLUSIVE) ->
  wp (dls_request_lock inst_count part_master fuel j k r cmd) g (granted g j k (req_mode r)).
Proof.
  intros Hrq Hcmd Hown. unfold dls_request_lock. destruct (Z.eqb_spec (master k) j) as [Hmj | _]; [| by apply wp_remote_request].
  wpb. rewrite <- Hmj at 1. pose proof (requester_rest g _ Hrq) as Hg0. eapply (wp_request_lock_owner j k b); [exact Hrq | |].
  - intros ans g' Ha Hg. rewrite decide_True by (by rewrite Ha). by apply wp_ret.
  - intros ans g' T Ha Hg. destruct (decide (la_status ans <> CT_SUCCESS)).
    { eapply (wp_ret_error j k b r); [done | exact Hg | apply Hrq | done]. }
    wpb. apply (wp_mono _ _ _ _ (convertible g j k (req_mode r))).
    + destruct (la_granted ans) eqn:Hgr; [apply wp_ret; eapply (convertible_now j k r); [exact Hg | by eapply asked_granted] |].
      destruct (asked_to_ask ans T Ha Hgr) as [HT Hold]. eapply wp_mono.
      * eapply (wp_release_owners j k b r); [done | done | apply Hrq | apply Hrq | exact Hold | done | pose proof (rq_inst_ok _ _ _ _ _ _ _ Hrq); lia | lia | apply Hg |  rewrite (gr_held _ _ _ Hg); apply Hrq | exact HT].
      * intros st g2 H2. eapply (convertible_trans j k r); [exact Hg | exact H2].
    + intros [] g2 Hc; [rewrite decide_False by (by intros ?) | rewrite decide_True by done; by apply wp_ret]. by apply wp_claim_or_cancel.
Qed.

Lemma wp_try_request_lock g sid :
  (j, k, b) ∈ g_held g -> g_stage g = Rest -> 0 <= j < inst_count -> spin k = true ->
  wp (dls_try_request_lock inst_count part_master fuel j sid k) g (granted g j k DRC_LOCK_EXCLUSIVE).
Proof.
  intros Hb Hst Hjr Hsp. unfold dls_try_request_lock. wpb. apply wp_get_oracle. intros o _. set (r := new_req_info _ _ _ _ _).
  assert (Hrq : requester g j k b r) by (constructor; try done; by right). change DRC_LOCK_EXCLUSIVE with (req_mode r).
  destruct (Z.eqb_spec (master k) j) as [Hmj | _]; [| by apply wp_remote_request].
  wpb. rewrite <- Hmj at 1. pose proof (requester_rest g _ Hrq) as Hg0. eapply (wp_try_request _ _ _ _ g j k b); [exact Hrq | |].
  - intros ans Ha. rewrite decide_True by (by rewrite Ha). by apply wp_ret.
  - intros ans T Ha. pose proof (grew_stage _ _ _ (Conv j k (req_mode r) T) Hg0) as Hg. destruct (decide (la_status ans <> CT_SUCCESS)).
    { eapply (wp_ret_error j k b r); [done | exact Hg | apply Hrq | done]. }
    wpb. apply (wp_mono _ _ _ _ (convertible g j k (req_mode r))).
    + destruct (la_granted ans) eqn:Hgr; [apply wp_ret; eapply (convertible_now j k r); [exact Hg | by eapply asked_granted] |].
      destruct (asked_to_ask ans T Ha Hgr) as [HT Hold]. wpb. apply wp_exist; [done | unfold inst_ok; lia |]. case_bool_decide as Hin.
      { pose proof (wp_cancel_error j k r _ g T (convertible g j k (req_mode r)) Hg) as Hc. rewrite Hmj in Hc. by apply Hc. }
      eapply wp_mono.
      * eapply (wp_try_release_owners j k b r); [done | exact Hjr | exact Hold | exact Hmj | done | done | done | lia | lia | apply Hg | apply Hb | exact HT].
      * intros st g2 H2. eapply (convertible_trans j k r); [exact Hg | exact H2].
    + intros [] g2 Hc; [rewrite decide_False by (by intros ?) | rewrite decide_True by done; by apply wp_ret]. by apply wp_claim_or_cancel.
Qed.
End handlers.
End props.
