(* ===== verification/DlsClients.v ===== *)
(** * Distributed locks: what the sessions do

    Every call a session makes on a spin lock or latch keeps the invariant of
    the cluster and ends without a spin lock of a local resource, except
    [dls_spin_lock] and its relatives, which keep the one they took for
    [dls_spin_unlock].  Source: src/pkg/src/cluster/dtc_dls.c. *)

From stdpp Require Import prelude list gmap.
From S2P Require Import Prelude Bitmap ResPool DrcList ResMap ConvertQ KeyStore GlobalRes DrcTypes DrcPage PageInv DrcLock LockProps DrcLocal LocalThms Threads DrcDls DlsInv DlsRules DlsProps.

Open Scope Z_scope.
Open Scope drc_scope.

Section clients.
Context (Q : list Z -> list Z -> Prop) (inst_count : Z) (part_master : Z -> Z) (spin : drid_t -> bool) (fuel : nat).
Hypothesis Hcount : inst_count <= CT_MAX_INSTANCES.

Abbreviation Inv := (Inv Q inst_count part_master spin).
Abbreviation master k := (lock_master part_master k).
Abbreviation wp := (wp Inv no_error_answer).
Abbreviation upd := (upd Inv).
Abbreviation res_pure := (res_pure spin).
Implicit Types (g : ghost).

Context (self : Z) (k : drid_t).
Hypotheses (Hself : 0 <= self < inst_count) (Hty : drid_type k <> DR_TYPE_TABLE).

(** The thread holds nothing and asks for nothing. *)
Definition at_rest g : Prop := g_held g = [] /\ g_stage g = Rest.
(** The thread holds the resource of [k], with contents [b]. *)
Definition holding g (b : drc_local_lock_res) : Prop := g_held g = [(self, k, b)] /\ g_stage g = Rest.

Lemma no_ghost_rest : at_rest no_ghost.
Proof. done. Qed.

Lemma wp_valid g (post : unit -> ghost -> Prop) : post tt g -> wp (valid_drid k) g post.
Proof. intros Hp. apply wp_lift. by intros [] _. Qed.

(** A thread that holds the resource finds it again. *)
Lemma wp_get_held b g (post : Z -> ghost -> Prop) : (self, k, b) ∈ g_held g -> post (ll_idx b) g -> wp (get_res self k) g post.
Proof.
  intros Hb Hp. apply wp_act. intros o c rest x c' Ho Hinv ([y m'] & Hrun & [= <- <-])%bind_Done.
  destruct (get_res_inv _ k y m' ltac:(apply Hinv) Hrun) as (Hok' & Hsb & b2 & Hb2 & Hidx & Hcase).
  destruct (v_held _ _ _ _ _ _ Hinv g self k b (list_elem_of_here _ _) Hb) as [Hv _].
  destruct Hcase as [[Hv2 ->] | [Hv2 _]]; [| congruence]. rewrite Hv in Hv2. injection Hv2 as <-. exists g.
  split; [by apply Inv_local_same | by rewrite <- Hidx].
Qed.

(** Pointers to the resource that is held are all the same. *)
Lemma wp_ptr_held {A} (p : dprog A) b x g (post : A -> ghost -> Prop) :
  match p with Act _ _ _ => True | _ => False end -> (self, k, b) ∈ g_held g -> (self, k, x) ∈ g_ptr g ->
  (x = ll_idx b -> wp p g post) -> wp p g post.
Proof.
  intros Hact Hb Hx Hp. destruct p as [| | B f q]; [done .. |]. intros o c rest y c' Ho Hinv Hrun.
  destruct (v_held _ _ _ _ _ _ Hinv g self k b (list_elem_of_here _ _) Hb) as [Hv _].
  destruct (v_ptr _ _ _ _ _ _ Hinv g self k x (list_elem_of_here _ _) Hx) as (b2 & Hv2 & Hidx). rewrite Hv in Hv2. injection Hv2 as <-.
  by apply (Hp (eq_sym Hidx) o c rest y c').
Qed.

(** A claimed request is forgotten once the resource shows it. *)
Lemma wp_settle {A} (p : dprog A) b g m (post : A -> ghost -> Prop) :
  g_held g = [(self, k, b)] -> g_stage g = Granted self k m -> res_pure k b -> wp p (with_stage Rest g) post -> wp p g post.
Proof. intros Hh Hs Hp. apply wp_upd, upd_rest. unfold pure_stage. rewrite Hs. exists b. rewrite Hh. split; [left | done]. Qed.

(** Taking and giving back the spin lock of the resource. *)
Lemma wp_lock_rest x g (post : unit -> ghost -> Prop) :
  at_rest g -> (self, k, x) ∈ g_ptr g ->
  (forall b g', ll_idx b = x -> ll_lock b = 1 -> res_pure k (set_ll_lock 0 b) -> holding g' b -> (forall p, p ∈ g_ptr g -> p ∈ g_ptr g') -> post tt g') ->
  wp (lock_res self x) g post.
Proof.
  intros [Hh Hs] Hx Hp. apply (wp_lock _ _ _ _ self k); [done |]. intros b Hb Hl Hr. apply (Hp b); try done. split; [cbn; by rewrite Hh | done].
Qed.

Lemma wp_unlock_rest b x g (post : unit -> ghost -> Prop) :
  holding g b -> ll_idx b = x -> res_pure k (set_ll_lock 0 b) -> (forall g', at_rest g' -> g_ptr g' = g_ptr g -> post tt g') -> wp (unlock_res self x) g post.
Proof.
  intros [Hh Hs] <- Hr Hp. apply (wp_unlock _ _ _ _ self k b []); [done | done | by rewrite Hs | by apply Hp].
Qed.

(** Writing the latch and the flags of the resource that is held. *)
Lemma wp_latch_set b x g f (post : unit -> ghost -> Prop) :
  let b' := set_latch_stat (f (latch_stat b)) b in
  holding g b -> ll_idx b = x -> mode_of b' = DRC_LOCK_NULL \/ covers (mode_of b) (mode_of b') -> res_pure k b' ->
  (forall g', holding g' b' -> g_ptr g' = g_ptr g -> post tt g') -> wp (set_latch self x f) g post.
Proof.
  intros b' [Hh Hs] <- Hm Hr Hp. apply (wp_set_latch _ _ _ _ self k b []); [done | destruct Hm; auto | by left |]. apply Hp; [by split | done].
Qed.

Lemma wp_stat_set b x g locked owner (post : unit -> ghost -> Prop) :
  let b' := set_lock_stat locked owner b in
  holding g b -> ll_idx b = x -> res_pure k b' -> (forall g', holding g' b' -> g_ptr g' = g_ptr g -> post tt g') -> wp (set_stat self x locked owner) g post.
Proof. intros b' [Hh Hs] <- Hr Hp. apply (wp_set_stat _ _ _ _ self k b []); [done | by left |]. apply Hp; [by split | done]. Qed.

Lemma covers_refl m : m = DRC_LOCK_NULL \/ covers m m.
Proof. destruct (decide (m = DRC_LOCK_NULL)); [by left | right; by right]. Qed.

(** ** Spin locks *)

Section spinlock.
Hypothesis Hspin : spin k = true.

(** The session is in its critical section. *)
Definition entered g : Prop :=
  exists b, holding g b /\ ll_lock b = 1 /\ is_locked b = true /\ is_owner b = true /\ mode_of b = DRC_LOCK_EXCLUSIVE.

Lemma wp_request_spin_lock n sid b g :
  holding g b -> res_pure k b ->
  wp (dls_request_spin_lock inst_count part_master fuel n self sid k) g (fun _ g' => grew g g' (Granted self k DRC_LOCK_EXCLUSIVE)).
Proof.
  intros Hg Hp. revert g Hg. induction n as [| n IH]; intros g Hg; [done |]. cbn [dls_request_spin_lock]. wpb. apply wp_get_oracle. intros o _. wpb.
  eapply wp_mono; [apply (wp_request_lock Q inst_count part_master spin fuel Hcount self k b Hp Hty) |].
  - destruct Hg as [Hh Hs]. constructor; try done; [rewrite Hh; left | by right].
  - done.
  - done.
  - intros [] g' Hg'; cbn in Hg'; [rewrite decide_True by done; by apply wp_ret | rewrite decide_False by done].
    eapply wp_mono; [apply IH; destruct Hg as [Hh Hs]; split; [by rewrite (gr_held _ _ _ Hg') | apply Hg'] |]. intros [] g2. by eapply grew_trans.
Qed.

(** From the granted lock to the critical section. *)
Lemma wp_enter b g (post : unit -> ghost -> Prop) :
  g_held g = [(self, k, b)] -> ll_lock b = 1 -> is_locked b = false ->
  g_stage g = Granted self k DRC_LOCK_EXCLUSIVE \/ g_stage g = Rest /\ mode_of b = DRC_LOCK_EXCLUSIVE ->
  (forall g', entered g' -> post tt g') ->
  wp (set_latch self (ll_idx b) (with_mode DRC_LOCK_EXCLUSIVE)) g (fun _ g' => wp (set_stat self (ll_idx b) true true) g' post).
Proof.
  intros Hh Hl Hlk Hs Hq. set (b1 := set_latch_stat (with_mode DRC_LOCK_EXCLUSIVE (latch_stat b)) b).
  assert (Hp1 : res_pure k b1) by (apply (spin_taken spin); [done | done | by left]).
  apply (wp_set_latch _ _ _ _ self k b []); [exact Hh | | by left |].
  { destruct Hs as [Hs | [_ Hm]]; [by right; right | right; left; right]. by rewrite Hm. }
  apply (wp_upd _ _ _ _ (with_stage Rest (with_held [(self, k, b1)] g))).
  { apply upd_rest. unfold pure_stage. cbn. destruct Hs as [-> | [-> _]]; [| done]. cbn. exists b1. split; [left | done]. }
  apply (wp_stat_set b1); [done | done | apply (spin_taken spin); [done | done | by right] |]. intros g' Hg' _. apply Hq. by eexists.
Qed.

Lemma wp_spin_lock sid g : at_rest g -> wp (dls_spin_lock inst_count part_master fuel self sid k) g (fun _ => entered).
Proof.
  intros Hg. unfold dls_spin_lock. wpb. apply wp_valid. wpb. apply wp_get. intros x. wpb. apply wp_lock_rest; [done | left |].
  intros b g' <- Hl Hp [Hh Hs] _. destruct (spin_free spin k b Hspin Hp) as [Hlk Hown]. wpb. apply (wp_lock_stat _ _ _ _ self k b); [rewrite Hh; left |].
  cbn beta match. wpb. apply (wp_mono _ _ _ _ (fun _ g2 => g_held g2 = [(self, k, b)] /\ (g_stage g2 = Granted self k DRC_LOCK_EXCLUSIVE \/ g_stage g2 = Rest /\ mode_of b = DRC_LOCK_EXCLUSIVE))).
  - destruct (is_owner b) eqn:Ho; [apply wp_ret; split; [done | right; auto] |].
    eapply wp_mono; [apply (wp_request_spin_lock fuel sid b); [by split | apply (spin_taken spin); [done | done | by left]] |].
    intros [] g2 Hg2. split; [by rewrite (gr_held _ _ _ Hg2) | left; apply Hg2].
  - intros [] g2 [Hh2 Hs2]. wpb. apply wp_enter; [done .. | by intros].
Qed.

Lemma wp_spin_unlock g : entered g -> wp (dls_spin_unlock self k) g (fun _ => at_rest).
Proof.
  intros (b & Hg & Hl & Hlk & Ho & Hm). unfold dls_spin_unlock. wpb. apply wp_valid. wpb. apply (wp_get_held b); [destruct Hg as [-> _]; left |].
  wpb. apply (wp_stat_set b); [done | done | apply (spin_taken spin); [done | done | by left] |]. intros g' Hg' _.
  apply (wp_unlock_rest (set_lock_stat false true b)); [done | done | | by intros]. apply (pure_spin spin); [done | by left | done].
Qed.

(** The outcome of a try: in the critical section, or at rest. *)
Definition tried (got : bool) g : Prop := if got then entered g else at_rest g.

Lemma wp_spin_try sid g : at_rest g -> wp (dls_do_spin_try_lock inst_count part_master fuel self sid k) g tried.
Proof.
  intros Hg. unfold dls_do_spin_try_lock. wpb. apply wp_valid. wpb. apply wp_get. intros x. wpb. apply wp_lock_stat_any. intros [[] owner]; [by apply wp_ret |].
  wpb. apply (wp_try_lock _ _ _ _ self k); [left | | by apply wp_ret]. intros b <- Hl Hp. cbn [negb]. set (g1 := with_held _ _).
  assert (Hg1 : holding g1 b) by (destruct Hg as [Hh Hs]; split; [cbn; by rewrite Hh | done]). destruct (spin_free spin k b Hspin Hp) as [Hlk Hown].
  wpb. apply (wp_lock_stat _ _ _ _ self k b); [destruct Hg1 as [-> _]; left |]. rewrite Hlk. wpb. apply wp_lift. intros [] _.
  wpb. apply (wp_mono _ _ _ _ (fun st g2 => match st with CT_SUCCESS => g_held g2 = [(self, k, b)] /\
    (g_stage g2 = Granted self k DRC_LOCK_EXCLUSIVE \/ g_stage g2 = Rest /\ mode_of b = DRC_LOCK_EXCLUSIVE) | CT_ERROR => holding g2 b end)).
  - destruct Hg1 as [Hh1 Hs1]. destruct (is_owner b) eqn:Ho; [apply wp_ret; split; [done | right; auto] |].
    eapply wp_mono; [apply (wp_try_request_lock Q inst_count part_master spin fuel Hcount self k b); try done; [apply (spin_taken spin); [done | done | by left] | rewrite Hh1; left] |].
    intros [] g2 Hg2; (split; [by rewrite (gr_held _ _ _ Hg2) |]); [left; apply Hg2 | apply Hg2].
  - intros [] g2 Hg2; [rewrite decide_False by (by intros ?) | rewrite decide_True by done].
    + destruct Hg2 as [Hh2 Hs2]. wpb. eapply wp_mono; [apply (wp_enter b g2 (fun _ => entered)); [done .. | by intros] |]. intros [] g3 H3. wpb.
      eapply wp_mono; [exact H3 |]. intros [] g4 H4. by apply wp_ret.
    + wpb. apply (wp_latch_set b); [done | done | by left | apply (spin_taken spin); [done | done | by left] |]. intros g3 Hg3 _.
      wpb. apply (wp_stat_set (set_latch_stat (with_mode DRC_LOCK_NULL (latch_stat b)) b)); [done | done | apply (spin_taken spin); [done | done | by left] |]. intros g4 Hg4 _.
      wpb. apply (wp_unlock_rest (set_lock_stat false false (set_latch_stat (with_mode DRC_LOCK_NULL (latch_stat b)) b))); [done | done | apply (pure_spin spin); [done | by left | done] |].
      intros g5 Hg5 _. by apply wp_ret.
Qed.

Lemma wp_spin_timed_loop n sid timeout sp ticks g :
  at_rest g -> wp (spin_timed_loop inst_count part_master fuel n self sid k timeout sp ticks) g tried.
Proof.
  revert sp ticks g. induction n as [| n IH]; intros sp ticks g Hg; [done |]. cbn [spin_timed_loop]. wpb. eapply wp_mono; [by apply wp_spin_try |].
  intros [] g' Hg'; [by apply wp_ret |]. destruct (timeout <=? ticks); [by apply wp_ret |]. destruct (sp + 1 =? CT_SPIN_COUNT); by apply IH.
Qed.

Lemma wp_spin_timed sid timeout g : at_rest g -> wp (dls_spin_timed_lock inst_count part_master fuel self sid k timeout) g tried.
Proof. intros Hg. unfold dls_spin_timed_lock. wpb. apply wp_valid. by apply wp_spin_timed_loop. Qed.
End spinlock.

(** ** Latches *)

Section latch.
Hypothesis Hlatch : spin k = false.

Lemma latch_lock b v : res_pure k b <-> res_pure k (set_ll_lock v b).
Proof. unfold DlsInv.res_pure. by rewrite Hlatch. Qed.

Lemma latch_stat_pure b locked owner : res_pure k b -> res_pure k (set_lock_stat locked owner b).
Proof. unfold DlsInv.res_pure. by rewrite Hlatch. Qed.

(** What a state of the latch needs to be in order. *)
Lemma latch_pure b :
  (stat_of b = LATCH_STATUS_X -> count_of b = 0 /\ mode_of b = DRC_LOCK_EXCLUSIVE) ->
  (stat_of b = LATCH_STATUS_S \/ 0 < count_of b -> mode_of b <> DRC_LOCK_NULL) ->
  (stat_of b = LATCH_STATUS_IDLE -> count_of b = 0) -> 0 <= count_of b -> res_pure k b.
Proof. unfold DlsInv.res_pure. by rewrite Hlatch. Qed.

Lemma pure_facts b : res_pure k b ->
  (stat_of b = LATCH_STATUS_X -> count_of b = 0 /\ mode_of b = DRC_LOCK_EXCLUSIVE) /\
  (stat_of b = LATCH_STATUS_S \/ 0 < count_of b -> mode_of b <> DRC_LOCK_NULL) /\
  (stat_of b = LATCH_STATUS_IDLE -> count_of b = 0) /\ 0 <= count_of b.
Proof. unfold DlsInv.res_pure. by rewrite Hlatch. Qed.

(** The latch after a request: asked for by a thread that keeps what it knows. *)
Definition latched (g : ghost) (m : Z) (got : bool) g' : Prop := if got then grew g g' (Granted self k m) else grew g g' Rest.

Lemma wp_request_latch n sid mode cmd timeout tt_ rt sp ticks b g :
  cmd_ok spin k cmd mode -> holding g b -> res_pure k b -> (mode = DRC_LOCK_SHARE -> mode_of b <> DRC_LOCK_EXCLUSIVE) ->
  wp (request_latch_loop inst_count part_master fuel n self sid k mode cmd timeout tt_ rt sp ticks) g (latched g mode).
Proof.
  intros Hcmd Hg Hp Hown. revert sp ticks g Hg. induction n as [| n IH]; intros sp ticks g Hg; [done |]. cbn [request_latch_loop].
  wpb. apply wp_get_oracle. intros o _. wpb. pose proof Hg as [Hh Hs].
  assert (Hmode : lock_mode_ok spin k mode) by (destruct cmd; destruct Hcmd; [by right | by left | by right | by right]).
  eapply wp_mono; [apply (wp_request_lock Q inst_count part_master spin fuel Hcount self k b Hp Hty); [| exact Hcmd | exact Hown] |].
  { constructor; try done. rewrite Hh. left. }
  intros st g' Hg'. destruct st; cbn in Hg'; [rewrite decide_True by done; by apply wp_ret | rewrite decide_False by done].
  destruct (timeout && (tt_ <=? ticks)); [by apply wp_ret |].
  assert (Hg2 : holding g' b) by (split; [by rewrite (gr_held _ _ _ Hg') | apply Hg']).
  destruct (sp + 1 =? CT_DLS_SPIN_COUNT); (eapply wp_mono; [by apply IH |]; intros [] g2 H2; (eapply grew_trans; [exact Hg' | exact H2])).
Qed.

Lemma wp_latch_s_request sid timeout tt_ rt b g :
  holding g b -> res_pure k b -> mode_of b <> DRC_LOCK_EXCLUSIVE ->
  wp (dls_request_latch_s inst_count part_master fuel self sid k timeout tt_ rt) g (latched g DRC_LOCK_SHARE).
Proof. intros Hg Hp Hm. by apply (wp_request_latch _ _ _ _ _ _ _ _ _ b). Qed.

Lemma wp_latch_x_request sid timeout tt_ rt b g :
  holding g b -> res_pure k b ->
  wp (dls_request_latch_x inst_count part_master fuel self sid k timeout tt_ rt) g (latched g DRC_LOCK_EXCLUSIVE).
Proof. intros Hg Hp. by apply (wp_request_latch _ _ _ _ _ _ _ _ _ b). Qed.

Lemma latched_ptr g m got g' p : latched g m got g' -> p ∈ g_ptr g -> p ∈ g_ptr g'.
Proof. destruct got; intros []; auto. Qed.

(** Waiting reads only. *)
Lemma wp_wait_latch n x free limit count ticks g (post : option (Z * Z) -> ghost -> Prop) :
  (forall w, post w g) -> wp (wait_latch n self x free limit count ticks) g post.
Proof.
  intros Hp. revert count ticks. induction n as [| n IH]; intros count ticks; [done |]. cbn [wait_latch]. wpb. apply wp_latch_any. intros l.
  destruct (free l); [by apply wp_ret |]. destruct (match limit with Some w => w <=? ticks | None => false end); [by apply wp_ret |].
  destruct (CT_SPIN_COUNT <=? count + 1); apply IH.
Qed.

(** The mode a request was granted for is written down. *)
Lemma wp_mode_granted m b x g (post : unit -> ghost -> Prop) :
  let b' := set_latch_stat (with_mode m (latch_stat b)) b in
  g_held g = [(self, k, b)] -> ll_idx b = x -> g_stage g = Granted self k m -> res_pure k b' ->
  (forall g', holding g' b' -> g_ptr g' = g_ptr g -> post tt g') -> wp (set_latch self x (with_mode m)) g post.
Proof.
  intros b' Hh <- Hs Hr Hp. apply wp_post_upd. apply (wp_set_latch _ _ _ _ self k b []); [exact Hh | by right; right | by left |].
  exists (with_stage Rest (with_held [(self, k, b')] g)). split; [| by apply Hp]. apply upd_rest. unfold pure_stage. cbn. rewrite Hs. exists b'. split; [left | done].
Qed.

(** A state of the latch in which session [sid] is the exclusive one. *)
Lemma pure_exclusive b : stat_of b = LATCH_STATUS_X -> count_of b = 0 -> mode_of b = DRC_LOCK_EXCLUSIVE -> res_pure k b.
Proof. intros Hst Hc Hm. apply latch_pure; rewrite ?Hc, ?Hm; done. Qed.

Lemma pure_idle b : stat_of b = LATCH_STATUS_IDLE -> count_of b = 0 -> res_pure k b.
Proof. intros Hst Hc. apply latch_pure; rewrite ?Hst, ?Hc; try done. by intros [? | ?]. Qed.

(** From an idle latch that is exclusive to the exclusive latch. *)
Lemma wp_set_exclusive b x g sid (post : unit -> ghost -> Prop) :
  holding g b -> ll_idx b = x -> stat_of b = LATCH_STATUS_IDLE -> count_of b = 0 -> mode_of b = DRC_LOCK_EXCLUSIVE ->
  (forall g', at_rest g' -> post tt g') ->
  wp (set_exclusive self x sid) g post.
Proof.
  intros Hg Hx Hst Hc Hm Hp. unfold set_exclusive.
  wpb. eapply wp_latch_set; [exact Hg | done | apply covers_refl | by apply pure_idle |]. intros g1 Hg1 _.
  wpb. eapply wp_latch_set; [exact Hg1 | done | apply covers_refl | by apply pure_exclusive |]. intros g2 Hg2 _.
  wpb. eapply wp_stat_set; [exact Hg2 | done | by apply pure_exclusive |]. intros g3 Hg3 _.
  eapply wp_unlock_rest; [exact Hg3 | done | by apply pure_exclusive |]. intros g4 Hg4 _. by apply Hp.
Qed.

(** From the granted lock on a latch without sharers to the exclusive latch. *)
Lemma wp_make_exclusive b x g sid (post : unit -> ghost -> Prop) :
  g_held g = [(self, k, b)] -> g_stage g = Granted self k DRC_LOCK_EXCLUSIVE -> ll_idx b = x -> res_pure k b -> count_of b = 0 ->
  (forall g', at_rest g' -> post tt g') -> wp (make_exclusive self x x sid) g post.
Proof.
  intros Hh Hs <- Hr Hc Hp. unfold make_exclusive. set (b1 := set_latch_stat (with_sid sid (latch_stat b)) b).
  wpb. apply (wp_set_latch _ _ _ _ self k b []); [exact Hh | destruct (covers_refl (mode_of b)); auto | left; by destruct (pure_facts b Hr) as (? & ? & ? & ?); apply latch_pure |].
  set (b2 := set_latch_stat (latch_with_stat LATCH_STATUS_X (latch_stat b1)) b1).
  wpb. apply (wp_set_latch _ _ _ _ self k b1 []); [done | destruct (covers_refl (mode_of b)); auto | by right |].
  wpb. apply (wp_mode_granted DRC_LOCK_EXCLUSIVE b2); [done | done | done | by apply pure_exclusive |]. intros g3 Hg3 _.
  wpb. eapply wp_stat_set; [exact Hg3 | done | by apply pure_exclusive |]. intros g4 Hg4 _.
  eapply wp_unlock_rest; [exact Hg4 | done | by apply pure_exclusive |]. intros g5 Hg5 _. by apply Hp.
Qed.

(** Giving the spin lock back with the latch as it was. *)
Lemma wp_back b g (post : unit -> ghost -> Prop) :
  holding g b -> res_pure k b -> (forall g', at_rest g' -> g_ptr g' = g_ptr g -> post tt g') -> wp (unlock_res self (ll_idx b)) g post.
Proof. intros Hg Hr Hp. eapply wp_unlock_rest; [exact Hg | done | by apply latch_lock | done]. Qed.

Lemma wp_ix2x n sid x limit rt count ticks g :
  at_rest g -> (self, k, x) ∈ g_ptr g ->
  wp (ix2x_loop inst_count part_master fuel n self sid k x limit rt count ticks) g (fun got g' => at_rest g' /\ (got = false -> (self, k, x) ∈ g_ptr g')).
Proof.
  revert count ticks g. induction n as [| n IH]; intros count ticks g Hg Hx; [done |]. cbn [ix2x_loop].
  wpb. apply wp_wait_latch. intros [[count2 ticks2] |]; [| by apply wp_ret].
  wpb. apply wp_get. intros y. wpb. apply wp_lock_rest; [done | left |]. intros b g1 <- Hl Hr%latch_lock Hg1 Hpt.
  assert (Hx1 : (self, k, x) ∈ g_ptr g1) by (apply Hpt; by right). assert (Hb : (self, k, b) ∈ g_held g1) by (destruct Hg1 as [-> _]; left).
  apply (wp_ptr_held _ b x); [exact I | exact Hb | exact Hx1 |]. intros ->.
  wpb. apply (wp_latch_of _ _ _ _ self k b); [exact Hb |]. wpb.
  apply (wp_mono _ _ _ _ (fun got g2 => latched g1 DRC_LOCK_EXCLUSIVE got g2 /\ (got = true -> count_of b = 0))).
  { destruct (Z.eqb_spec (count_of b) 0) as [Hc | _].
    - eapply wp_mono; [by apply (wp_latch_x_request _ _ _ _ b) |]. by intros [] g2 H2.
    - apply wp_ret. split; [| done]. destruct Hg1 as [_ Hs1]. cbn. rewrite <- Hs1. apply grew_refl. }
  intros got g2 [Hg2 Hc]. assert (Hh2 : g_held g2 = [(self, k, b)]) by (destruct Hg1 as [<- _], got; apply (gr_held _ _ _ Hg2)).
  pose proof (latched_ptr _ _ _ _ _ Hg2 Hx1) as Hx2. destruct got.
  - wpb. apply (wp_make_exclusive b); [exact Hh2 | apply Hg2 | done | done | by apply Hc |]. intros g3 Hg3. by apply wp_ret.
  - wpb. apply (wp_back b); [split; [exact Hh2 | apply Hg2] | done |]. intros g3 Hg3 E. apply IH; [done | by rewrite E].
Qed.

(** A latch is asked for when its mode is not enough. *)
Lemma wp_want_exclusive b g (req : dprog bool) (post : bool -> ghost -> Prop) :
  holding g b -> res_pure k b -> wp req g (latched g DRC_LOCK_EXCLUSIVE) ->
  (forall g', holding g' b -> mode_of b <> DRC_LOCK_EXCLUSIVE -> post false g') ->
  (forall g', g_held g' = [(self, k, b)] -> (if mode_of b =? DRC_LOCK_EXCLUSIVE then g_stage g' = Rest else g_stage g' = Granted self k DRC_LOCK_EXCLUSIVE) -> post true g') ->
  wp (if mode_of b =? DRC_LOCK_EXCLUSIVE then Ret true else req) g post.
Proof.
  intros [Hh Hs] Hr Hreq Hno Hyes. destruct (Z.eqb_spec (mode_of b) DRC_LOCK_EXCLUSIVE) as [Hm | Hm]; [by apply wp_ret, Hyes |].
  eapply wp_mono; [exact Hreq |]. intros [] g' Hg'; cbn in Hg'.
  - apply Hyes; [by rewrite (gr_held _ _ _ Hg') | apply Hg'].
  - apply Hno; [split; [by rewrite (gr_held _ _ _ Hg') | apply Hg'] | done].
Qed.

Lemma wp_go_exclusive {A} b g sid (q : dprog A) (post : A -> ghost -> Prop) :
  g_held g = [(self, k, b)] -> res_pure k b -> stat_of b = LATCH_STATUS_IDLE ->
  (if mode_of b =? DRC_LOCK_EXCLUSIVE then g_stage g = Rest else g_stage g = Granted self k DRC_LOCK_EXCLUSIVE) ->
  (forall g', at_rest g' -> wp q g' post) ->
  wp (if mode_of b =? DRC_LOCK_EXCLUSIVE then Ret tt else set_latch self (ll_idx b) (with_mode DRC_LOCK_EXCLUSIVE)) g
    (fun _ g' => wp (set_exclusive self (ll_idx b) sid) g' (fun _ g2 => wp q g2 post)).
Proof.
  intros Hh Hr Hst Hs Hq. destruct (pure_facts b Hr) as (_ & _ & Hc%(fun f => f Hst) & _). destruct (Z.eqb_spec (mode_of b) DRC_LOCK_EXCLUSIVE) as [Hm | _].
  - apply wp_ret. apply (wp_set_exclusive b); [by split | done .. |]. intros g' Hg'. by apply Hq.
  - apply (wp_mode_granted DRC_LOCK_EXCLUSIVE b); [done | done | done | by apply pure_idle |]. intros g' Hg' _.
    eapply wp_set_exclusive; [exact Hg' | done .. |]. intros g2 Hg2. by apply Hq.
Qed.

(** Announcing that an exclusive session waits for the sharers. *)
Lemma pure_announced b : res_pure k b -> res_pure k (set_latch_stat (latch_with_stat LATCH_STATUS_IX (latch_stat b)) b).
Proof. intros (H1 & H2 & H3 & H4)%pure_facts. apply latch_pure; try done. cbn. intros [? | ?]; [done | apply H2; by right]. Qed.

Lemma wp_latch_x_loop n sid g : at_rest g -> wp (latch_x_loop inst_count part_master fuel n self sid k) g (fun _ => at_rest).
Proof.
  revert g. induction n as [| n IH]; intros g Hg; [done |]. cbn [latch_x_loop].
  wpb. apply wp_get. intros x. wpb. apply wp_lock_rest; [done | left |]. intros b g1 <- Hl Hr%latch_lock Hg1 Hpt.
  assert (Hb : (self, k, b) ∈ g_held g1) by (destruct Hg1 as [-> _]; left). wpb. apply (wp_latch_of _ _ _ _ self k b); [exact Hb |].
  destruct (Z.eqb_spec (stat_of b) LATCH_STATUS_IDLE) as [Hst | _]; [| destruct (Z.eqb_spec (stat_of b) LATCH_STATUS_S) as [Hst | _]].
  - wpb. apply (wp_want_exclusive b g1); [done | done | by apply (wp_latch_x_request _ _ _ _ b) | |].
    + intros g2 Hg2 _. wpb. apply (wp_back b); [done | done |]. intros g3 Hg3 _. by apply IH.
    + intros g2 Hh2 Hs2. cbn [negb]. wpb. eapply wp_mono; [apply (wp_go_exclusive b g2 sid (Ret tt) (fun _ => at_rest)); [done .. |] |]; [intros; by apply wp_ret |].
      intros [] g3 H3. apply wp_post_upd. eapply wp_mono; [exact H3 |]. by intros [] g4.
  - wpb. eapply wp_latch_set; [exact Hg1 | done | apply covers_refl | by apply pure_announced |]. intros g2 Hg2 E2.
    wpb. eapply wp_unlock_rest; [exact Hg2 | done | by apply latch_lock, pure_announced |]. intros g3 Hg3 E3. wpb.
    eapply wp_mono; [apply wp_ix2x; [done | rewrite E3, E2; apply Hpt; left] |]. intros got g4 [Hg4 _]. by apply wp_ret.
  - wpb. apply (wp_back b); [done | done |]. intros g2 Hg2 _. wpb. apply wp_wait_latch. intros _. by apply IH.
Qed.

Lemma wp_latch_x sid g : at_rest g -> wp (dls_latch_x inst_count part_master fuel self sid k) g (fun _ => at_rest).
Proof. intros Hg. unfold dls_latch_x. wpb. apply wp_valid. by apply wp_latch_x_loop. Qed.

(** *** Sharing *)

Lemma pure_shared b : stat_of b = LATCH_STATUS_S -> 0 <= count_of b -> mode_of b <> DRC_LOCK_NULL -> res_pure k b.
Proof. intros Hst Hc Hm. apply latch_pure; rewrite ?Hst; try done. Qed.

(** A latch without a mode is asked for. *)
Lemma wp_want_share b g (req : dprog bool) (post : bool -> ghost -> Prop) :
  holding g b -> res_pure k b -> (mode_of b <> DRC_LOCK_EXCLUSIVE -> wp req g (latched g DRC_LOCK_SHARE)) ->
  (forall g', holding g' b -> post false g') ->
  (forall g', g_held g' = [(self, k, b)] -> (if mode_of b =? DRC_LOCK_NULL then g_stage g' = Granted self k DRC_LOCK_SHARE else g_stage g' = Rest) -> post true g') ->
  wp (if mode_of b =? DRC_LOCK_NULL then req else Ret true) g post.
Proof.
  intros [Hh Hs] Hr Hreq Hno Hyes. destruct (Z.eqb_spec (mode_of b) DRC_LOCK_NULL) as [Hm | Hm]; [| by apply wp_ret, Hyes].
  eapply wp_mono; [apply Hreq; by rewrite Hm |]. intros [] g' Hg'; cbn in Hg'.
  - apply Hyes; [by rewrite (gr_held _ _ _ Hg') | apply Hg'].
  - apply Hno; split; [by rewrite (gr_held _ _ _ Hg') | apply Hg'].
Qed.

(** The mode of the first sharer, and what follows. *)
Lemma wp_go_shared {A} b g (q : dprog A) (post : A -> ghost -> Prop) :
  g_held g = [(self, k, b)] -> res_pure k b -> stat_of b = LATCH_STATUS_IDLE ->
  (if mode_of b =? DRC_LOCK_NULL then g_stage g = Granted self k DRC_LOCK_SHARE else g_stage g = Rest) ->
  (forall b' g', ll_idx b' = ll_idx b -> holding g' b' -> stat_of b' = LATCH_STATUS_S -> count_of b' = 1 -> mode_of b' <> DRC_LOCK_NULL -> wp q g' post) ->
  wp ((if mode_of b =? DRC_LOCK_NULL then set_latch self (ll_idx b) (with_mode DRC_LOCK_SHARE) else Ret tt);;~
      set_latch self (ll_idx b) (latch_with_stat LATCH_STATUS_S);;~ set_latch self (ll_idx b) (with_count 1);;~ q) g post.
Proof.
  intros Hh Hr Hst Hs Hq. destruct (pure_facts b Hr) as (_ & _ & Hc%(fun f => f Hst) & _). wpb.
  apply (wp_mono _ _ _ _ (fun _ g' => exists b', ll_idx b' = ll_idx b /\ holding g' b' /\ count_of b' = 0 /\ mode_of b' <> DRC_LOCK_NULL)).
  { destruct (Z.eqb_spec (mode_of b) DRC_LOCK_NULL) as [_ | Hm]; [| apply wp_ret; by exists b].
    apply (wp_mode_granted DRC_LOCK_SHARE b); [done | done | done | by apply pure_idle |]. intros g' Hg' _. eexists. split_and!; [| exact Hg' | done | done]. done. }
  intros [] g1 (b1 & Hx1 & Hg1 & Hc1 & Hm1).
  wpb. eapply wp_latch_set; [exact Hg1 | done | apply covers_refl | apply pure_shared; [done | cbn; lia | done] |]. intros g2 Hg2 _.
  wpb. eapply wp_latch_set; [exact Hg2 | done | apply covers_refl | by apply pure_shared |]. intros g3 Hg3 _. eapply Hq; [| exact Hg3 | done ..]. done.
Qed.

Lemma u16_nonneg v : 0 <= u16 v.
Proof. apply Z.mod_pos_bound. lia. Qed.

Lemma wp_join b x g (post : unit -> ghost -> Prop) :
  holding g b -> ll_idx b = x -> res_pure k b -> stat_of b = LATCH_STATUS_S -> (forall g', at_rest g' -> post tt g') ->
  wp (join_sharers self x) g post.
Proof.
  intros Hg Hx Hr Hst Hp. destruct (pure_facts b Hr) as (_ & Hm & _ & _). specialize (Hm (or_introl Hst)). unfold join_sharers.
  wpb. eapply wp_latch_set; [exact Hg | done | apply covers_refl | apply pure_shared; [done | apply u16_nonneg | done] |]. intros g1 Hg1 _.
  wpb. eapply wp_stat_set; [exact Hg1 | done | apply pure_shared; [done | apply u16_nonneg | done] |]. intros g2 Hg2 _.
  eapply wp_unlock_rest; [exact Hg2 | done | apply pure_shared; [done | apply u16_nonneg | done] |]. intros g3 Hg3 _. by apply Hp.
Qed.

(** A refused request leaves the latch idle. *)
Lemma wp_refused {A} b x g (q : dprog A) (post : A -> ghost -> Prop) :
  holding g b -> ll_idx b = x -> res_pure k b -> (forall g', at_rest g' -> wp q g' post) ->
  wp (set_stat self x false false;;~ unlock_res self x;;~ q) g post.
Proof.
  intros Hg Hx Hr Hq. wpb. eapply wp_stat_set; [exact Hg | done | by apply latch_stat_pure |]. intros g1 Hg1 _.
  wpb. eapply wp_unlock_rest; [exact Hg1 | done | by apply latch_lock, latch_stat_pure |]. intros g2 Hg2 _. by apply Hq.
Qed.

Lemma wp_latch_s_loop n sid g : at_rest g -> wp (latch_s_loop inst_count part_master fuel n self sid k false) g (fun _ => at_rest).
Proof.
  revert g. induction n as [| n IH]; intros g Hg; [done |]. cbn [latch_s_loop].
  wpb. apply wp_get. intros x. wpb. apply wp_lock_rest; [done | left |]. intros b g1 <- Hl Hr%latch_lock Hg1 Hpt.
  assert (Hb : (self, k, b) ∈ g_held g1) by (destruct Hg1 as [-> _]; left). wpb. apply (wp_latch_of _ _ _ _ self k b); [exact Hb |].
  rewrite andb_false_r, orb_false_r.
  destruct (Z.eqb_spec (stat_of b) LATCH_STATUS_IDLE) as [Hst | _]; [| destruct (Z.eqb_spec (stat_of b) LATCH_STATUS_S) as [Hst | _]].
  - wpb. apply (wp_want_share b g1); [done | done | intros Hm; by apply (wp_latch_s_request _ _ _ _ b) | |].
    + intros g2 Hg2. wpb. apply (wp_back b); [done | done |]. intros g3 Hg3 _. by apply IH.
    + intros g2 Hh2 Hs2. cbn [negb]. apply (wp_go_shared b); [done .. |]. intros b' g3 Hx Hg3 Hst3 Hc3 Hm3.
      wpb. eapply wp_latch_set; [exact Hg3 | done | apply covers_refl | apply pure_shared; [done | cbn; lia | done] |]. intros g4 Hg4 _.
      wpb. eapply wp_stat_set; [exact Hg4 | done | apply pure_shared; [done | cbn; lia | done] |]. intros g5 Hg5 _.
      eapply wp_unlock_rest; [exact Hg5 | done | apply pure_shared; [done | cbn; lia | done] | done].
  - by apply (wp_join b).
  - wpb. apply (wp_back b); [done | done |]. intros g2 Hg2 _. wpb. apply wp_wait_latch. intros _. by apply IH.
Qed.

Lemma wp_latch_s sid g : at_rest g -> wp (dls_latch_s inst_count part_master fuel self sid k false) g (fun _ => at_rest).
Proof. intros Hg. unfold dls_latch_s. wpb. apply wp_valid. by apply wp_latch_s_loop. Qed.

Lemma wp_timed_s_loop n sid wt rt count ticks g :
  at_rest g -> wp (timed_s_loop inst_count part_master fuel n self sid k wt false rt count ticks) g (fun _ => at_rest).
Proof.
  revert count ticks g. induction n as [| n IH]; intros count ticks g Hg; [done |]. cbn [timed_s_loop].
  wpb. apply wp_get. intros x. wpb. apply wp_lock_rest; [done | left |]. intros b g1 <- Hl Hr%latch_lock Hg1 Hpt.
  assert (Hb : (self, k, b) ∈ g_held g1) by (destruct Hg1 as [-> _]; left). wpb. apply (wp_latch_of _ _ _ _ self k b); [exact Hb |].
  rewrite andb_false_r, orb_false_r.
  destruct (Z.eqb_spec (stat_of b) LATCH_STATUS_IDLE) as [Hst | _]; [| destruct (Z.eqb_spec (stat_of b) LATCH_STATUS_S) as [Hst | _]].
  - wpb. apply (wp_want_share b g1); [done | done | intros Hm; by apply (wp_latch_s_request _ _ _ _ b) | |].
    + intros g2 Hg2. apply (wp_refused b); [done .. |]. intros g3 Hg3. by apply wp_ret.
    + intros g2 Hh2 Hs2. cbn [negb]. apply (wp_go_shared b); [done .. |]. intros b' g3 Hx Hg3 Hst3 Hc3 Hm3.
      wpb. eapply wp_stat_set; [exact Hg3 | done | apply pure_shared; [done | cbn; lia | done] |]. intros g5 Hg5 _.
      wpb. eapply wp_unlock_rest; [exact Hg5 | done | apply pure_shared; [done | cbn; lia | done] |]. intros g6 Hg6 _. by apply wp_ret.
  - wpb. apply (wp_join b); [done .. |]. intros g2 Hg2. by apply wp_ret.
  - wpb. apply (wp_back b); [done | done |]. intros g2 Hg2 _. wpb. apply wp_wait_latch. intros [[c2 t2] |]; [by apply IH | by apply wp_ret].
Qed.

Lemma wp_latch_timed_s sid wt rt g : at_rest g -> wp (dls_latch_timed_s inst_count part_master fuel self sid k wt false rt) g (fun _ => at_rest).
Proof. intros Hg. unfold dls_latch_timed_s. wpb. apply wp_valid. by apply wp_timed_s_loop. Qed.

(** *** Waiting for the exclusive latch for a while *)

(** Taking back the announcement. *)
Lemma pure_unannounced b :
  res_pure k b -> res_pure k (set_latch_stat (latch_with_stat (if 0 <? count_of b then LATCH_STATUS_S else LATCH_STATUS_IDLE) (latch_stat b)) b).
Proof.
  intros (H1 & H2 & H3 & H4)%pure_facts. destruct (Z.ltb_spec 0 (count_of b)) as [Hc | Hc].
  - apply pure_shared; [done | done | apply H2; by right].
  - apply pure_idle; [done | cbn; lia].
Qed.

Lemma wp_timed_x_loop n sid wt rt count ticks g :
  at_rest g -> wp (timed_x_loop inst_count part_master fuel n self sid k wt rt count ticks) g (fun _ => at_rest).
Proof.
  revert count ticks g. induction n as [| n IH]; intros count ticks g Hg; [done |]. cbn [timed_x_loop].
  wpb. apply wp_get. intros x. wpb. apply wp_lock_rest; [done | left |]. intros b g1 <- Hl Hr%latch_lock Hg1 Hpt.
  assert (Hb : (self, k, b) ∈ g_held g1) by (destruct Hg1 as [-> _]; left). wpb. apply (wp_latch_of _ _ _ _ self k b); [exact Hb |].
  destruct (Z.eqb_spec (stat_of b) LATCH_STATUS_IDLE) as [Hst | _]; [| destruct (Z.eqb_spec (stat_of b) LATCH_STATUS_S) as [Hst | _]].
  - wpb. apply (wp_want_exclusive b g1); [done | done | by apply (wp_latch_x_request _ _ _ _ b) | |].
    + intros g2 Hg2 _. apply (wp_refused b); [done .. |]. intros g3 Hg3. by apply wp_ret.
    + intros g2 Hh2 Hs2. cbn [negb]. wpb. eapply wp_mono; [apply (wp_go_exclusive b g2 sid (Ret true) (fun _ => at_rest)); [done .. |] |]; [intros; by apply wp_ret |].
      intros [] g3 H3. by wpb.
  - wpb. eapply wp_latch_set; [exact Hg1 | done | apply covers_refl | by apply pure_announced |]. intros g2 Hg2 E2.
    wpb. eapply wp_unlock_rest; [exact Hg2 | done | by apply latch_lock, pure_announced |]. intros g3 Hg3 E3. wpb.
    eapply wp_mono; [apply wp_ix2x; [done | rewrite E3, E2; apply Hpt; left] |]. intros [] g4 [Hg4 Hx4]; [by apply wp_ret |].
    wpb. apply wp_lock_rest; [done | by apply Hx4 |]. intros b2 g5 Hx5 _ Hr5%latch_lock Hg5 _.
    wpb. eapply wp_latch_set; [exact Hg5 | done | apply covers_refl | by apply pure_unannounced |]. intros g6 Hg6 _.
    wpb. eapply wp_unlock_rest; [exact Hg6 | done | by apply latch_lock, pure_unannounced |]. intros g7 Hg7 _. by apply wp_ret.
  - wpb. apply (wp_back b); [done | done |]. intros g2 Hg2 _. wpb. apply wp_wait_latch. intros [[c2 t2] |]; [by apply IH | by apply wp_ret].
Qed.

Lemma wp_latch_timed_x sid wt rt g : at_rest g -> wp (dls_latch_timed_x inst_count part_master fuel self sid k wt rt) g (fun _ => at_rest).
Proof. intros Hg. unfold dls_latch_timed_x. wpb. apply wp_valid. by apply wp_timed_x_loop. Qed.

(** *** Unlatching *)

Lemma wp_unlatch g : at_rest g -> wp (dls_unlatch self k) g (fun _ => at_rest).
Proof.
  intros Hg. unfold dls_unlatch. wpb. apply wp_valid. wpb. apply wp_get. intros x. wpb. apply wp_lock_rest; [done | left |].
  intros b g1 <- Hl Hr%latch_lock Hg1 _. destruct (pure_facts b Hr) as (H1 & H2 & H3 & H4).
  wpb. apply (wp_latch_of _ _ _ _ self k b); [destruct Hg1 as [-> _]; left |]. wpb.
  apply (wp_mono _ _ _ _ (fun _ g' => exists b', ll_idx b' = ll_idx b /\ holding g' b' /\ res_pure k b')).
  { destruct (Z.ltb_spec 0 (count_of b)) as [Hc | _]; [| apply wp_ret; by exists b].
    assert (Hr' : res_pure k (set_latch_stat (with_count (count_of b - 1) (latch_stat b)) b)).
    { apply latch_pure; cbn; [intros E; destruct (H1 E); lia | intros _; apply H2; by right | intros E; pose proof (H3 E); lia | lia]. }
    eapply wp_latch_set; [exact Hg1 | done | apply covers_refl | exact Hr' |]. intros g2 Hg2 _. eexists. split_and!; [| exact Hg2 | exact Hr']. done. }
  intros [] g2 (b2 & <- & Hg2 & Hr2). wpb. apply (wp_latch_of _ _ _ _ self k b2); [destruct Hg2 as [-> _]; left |]. wpb.
  apply (wp_mono _ _ _ _ (fun _ g' => exists b', ll_idx b' = ll_idx b2 /\ holding g' b' /\ res_pure k b')).
  { destruct (((stat_of b2 =? LATCH_STATUS_S) || (stat_of b2 =? LATCH_STATUS_X)) && (count_of b2 =? 0)) eqn:Hz; [| apply wp_ret; by exists b2].
    apply andb_true_iff in Hz as [_ Hz%Z.eqb_eq].
    eapply wp_latch_set; [exact Hg2 | done | apply covers_refl | by apply pure_idle |]. intros g3 Hg3 _. eexists. split_and!; [| exact Hg3 | by apply pure_idle]. done. }
  intros [] g3 (b3 & Hx3 & Hg3 & Hr3). wpb. eapply wp_stat_set; [exact Hg3 | done | by apply latch_stat_pure |]. intros g4 Hg4 _.
  eapply wp_unlock_rest; [exact Hg4 | done | by apply latch_lock, latch_stat_pure | done].
Qed.
End latch.
End clients.
