(* ===== verification/DlsLive.v ===== *)
(** * Distributed locks: a lock that is not in use is handed over

    The invariant says what never happens; this file says what does: a session
    that asks for a spin lock nobody is using gets it, from the master alone or
    from the instance that owned it last.  [run] is a total-correctness triple
    for one thread, on what the cluster shows of one lock: the local resource of
    every instance and the resource of the master.  Source:
    src/pkg/src/cluster/dtc_dls.c. *)

From stdpp Require Import prelude list gmap.
From S2P Require Import Prelude Bitmap ResPool DrcList ResMap ConvertQ KeyStore GlobalRes DrcTypes DrcPage PageInv DrcLock LockProps DrcLocal LocalThms Threads DrcDls DlsInv DlsRules DlsProps.

Open Scope Z_scope.
Open Scope drc_scope.

Section live.
Context (Q : list Z -> list Z -> Prop) (inst_count : Z) (part_master : Z -> Z) (k : drid_t) (o : dls_oracle) (self : Z).

Abbreviation master := (lock_master part_master k).
Abbreviation lview c i := (local_view (in_local (c i)) k).
Abbreviation mview c := (lock_view (in_locks (c master)) k).
Abbreviation lmap := (Z -> option drc_local_lock_res).
Abbreviation mres := (option (drc_master_res * list drc_req_info)).
Implicit Types (c : cluster) (vl : lmap) (vm : mres).

(** What the cluster shows of lock [k]; there is room for it at the master and at instance [self]. *)
Record shows c vl vm : Prop := mk_shows {
  sh_local : forall i, local_ok (in_local (c i));
  sh_locks : forall i, lock_ok Q [] [] (in_locks (c i));
  sh_view : forall i, lview c i = vl i;
  sh_master : mview c = vm;
  sh_room : vl self = None -> ~ store_full (in_local (c self));
  sh_mroom : vm = None -> ~ lock_pool_full (in_locks (c master));
}.

Definition run {A} (p : dprog A) vl vm (post : A -> lmap -> mres -> Prop) : Prop :=
  forall c, shows c vl vm -> exists a c' vl' vm', run_alone o p c = Done (Some (a, c')) /\ shows c' vl' vm' /\ post a vl' vm'.

Lemma run_ret {A} (a : A) vl vm post : post a vl vm -> run (Ret a) vl vm post.
Proof. intros Hp c Hc. by exists a, c, vl, vm. Qed.

Lemma run_bind {A B} (p : dprog A) (q : A -> dprog B) vl vm post :
  run p vl vm (fun a vl' vm' => run (q a) vl' vm' post) -> run (prog_bind p q) vl vm post.
Proof.
  intros Hp c Hc. destruct (Hp c Hc) as (a & c1 & vl1 & vm1 & Hr & Hc1 & Hq). destruct (Hq c1 Hc1) as (b & c2 & vl2 & vm2 & Hr2 & Hc2 & Hpost).
  exists b, c2, vl2, vm2. split; [| done]. by rewrite (run_alone_bind o p q c a c1 Hr).
Qed.

Lemma run_mono {A} (p : dprog A) vl vm (post post' : A -> lmap -> mres -> Prop) :
  run p vl vm post -> (forall a vl vm, post a vl vm -> post' a vl vm) -> run p vl vm post'.
Proof. intros Hp Hpost c Hc. destruct (Hp c Hc) as (a & c1 & vl1 & vm1 & Hr & Hc1 & Hq). exists a, c1, vl1, vm1. auto. Qed.

Definition put vl (i : Z) (b : drc_local_lock_res) : lmap := fun j => if j =? i then Some b else vl j.

Lemma put_eq vl i b : put vl i b i = Some b.
Proof. unfold put. by rewrite Z.eqb_refl. Qed.

Lemma put_ne vl i j b : j <> i -> put vl i b j = vl j.
Proof. intros Hj. unfold put. by rewrite (proj2 (Z.eqb_neq _ _) Hj). Qed.

(** ** The actions *)

Lemma run_oracle vl vm (post : dls_oracle -> lmap -> mres -> Prop) : post o vl vm -> run get_oracle vl vm post.
Proof. intros Hp c Hc. by exists o, c, vl, vm. Qed.

Lemma run_lift {B} (b : outcome B) x vl vm (post : B -> lmap -> mres -> Prop) : b = Done x -> post x vl vm -> run (lift b) vl vm post.
Proof. intros -> Hp c Hc. by exists x, c, vl, vm. Qed.

(** A step on the local resource of instance [i]. *)
Lemma shows_put c vl vm i b m' : shows c vl vm -> local_ok m' -> local_view m' k = Some b -> shows (set_local c i m') (put vl i b) vm.
Proof.
  intros [] Hok Hv. constructor.
  - intros j. rewrite in_local_set. by destruct (j =? i).
  - intros j. by rewrite in_locks_set_local.
  - intros j. rewrite in_local_set. unfold put. destruct (j =? i); [done | apply sh_view0].
  - by rewrite in_locks_set_local.
  - rewrite in_local_set. unfold put. destruct (self =? i); [done | apply sh_room0].
  - by rewrite in_locks_set_local.
Qed.

Lemma run_local {B} i (f : local_map -> outcome (B * local_map)) vl vm x b (post : B -> lmap -> mres -> Prop) :
  (forall m, local_ok m -> local_view m k = vl i -> exists m', f m = Done (x, m') /\ local_ok m' /\ local_view m' k = Some b) ->
  post x (put vl i b) vm -> run (on_local i f) vl vm post.
Proof.
  intros Hf Hp c Hc. pose proof Hc as []. destruct (Hf (in_local (c i)) (sh_local0 i) (sh_view0 i)) as (m' & Hr & Hok & Hv).
  exists x, (set_local c i m'), (put vl i b), vm. split; [| split; [by apply shows_put | done]]. cbn. by rewrite Hr.
Qed.

Lemma shows_id c vl vm i : shows c vl vm -> shows (set_local c i (in_local (c i))) vl vm.
Proof.
  intros []. constructor; [| | | | |]; intros; rewrite ?in_locks_set_local, ?in_local_set; auto; by match goal with |- context [?j =? i] => destruct (Z.eqb_spec j i) as [-> |] end; auto.
Qed.

(** A read of a resource that is there. *)
Lemma run_read {B} i (f : local_map -> outcome (B * local_map)) vl vm x b (post : B -> lmap -> mres -> Prop) :
  vl i = Some b -> (forall m j, local_ok m -> map_lookup m k = Done (Some j) -> local_view m k = Some b -> ll_idx b = j -> f m = Done (x, m)) ->
  post x vl vm -> run (on_local i f) vl vm post.
Proof.
  intros Hb Hf Hp c Hc. pose proof Hc as []. pose proof (sh_view0 i) as Hv. rewrite Hb in Hv.
  destruct (local_lookup _ k b (sh_local0 i) Hv) as (j & Hl & Hj & _).
  exists x, (set_local c i (in_local (c i))), vl, vm. split; [cbn; by rewrite (Hf _ j (sh_local0 i) Hl Hv Hj) |]. split; [by apply shows_id | done].
Qed.

Lemma run_find i b vl vm (post : option Z -> lmap -> mres -> Prop) :
  vl i = Some b -> post (Some (ll_idx b)) vl vm -> run (find_res i k) vl vm post.
Proof. intros Hb. apply (run_read i _ _ _ _ b); [done |]. intros m j _ Hl _ ->. unfold drc_get_local_resx_without_create. by rewrite Hl. Qed.

Lemma run_find_none i vl vm (post : option Z -> lmap -> mres -> Prop) : vl i = None -> post None vl vm -> run (find_res i k) vl vm post.
Proof.
  intros Hb Hp c Hc. pose proof Hc as []. pose proof (sh_view0 i) as Hv. rewrite Hb in Hv.
  pose proof (store_cases local_inv _ k (sh_local0 i)) as Hcs. rewrite Hv in Hcs.
  exists None, (set_local c i (in_local (c i))), vl, vm. split; [cbn; unfold drc_get_local_resx_without_create; by rewrite Hcs |]. split; [by apply shows_id | done].
Qed.

Lemma run_get vl vm (post : Z -> lmap -> mres -> Prop) :
  (forall b, vl self = Some b \/ vl self = None /\ b = bare (new_local k (ll_idx b) zero_local) -> post (ll_idx b) (put vl self b) vm) ->
  run (get_res self k) vl vm post.
Proof.
  intros Hp c Hc. pose proof Hc as []. destruct (get_resx_spec _ k (sh_local0 self)) as (x & m' & Hr & Hok & _ & Hl & Hv & _); [rewrite sh_view0; apply sh_room0 |].
  rewrite sh_view0 in Hv. destruct (local_lookup _ k _ Hok Hv) as (y & Hly & Hy & _). rewrite Hl in Hly. injection Hly as <-.
  set (b := match vl self with Some a => a | None => bare (new_local k x zero_local) end) in *.
  exists x, (set_local c self m'), (put vl self b), vm. split; [cbn; by rewrite Hr |]. split; [by apply shows_put |].
  assert (Hb : vl self = Some b \/ vl self = None /\ b = bare (new_local k x zero_local)) by (unfold b; destruct (vl self); [by left | by right]).
  clearbody b. subst x. by apply Hp.
Qed.

Lemma run_lock i b vl vm (post : unit -> lmap -> mres -> Prop) :
  vl i = Some b -> ll_lock b = 0 -> post tt (put vl i (set_ll_lock 1 b)) vm -> run (lock_res i (ll_idx b)) vl vm post.
Proof.
  intros Hb Hl Hp c Hc. pose proof Hc as []. pose proof (sh_view0 i) as Hv. rewrite Hb in Hv.
  destruct (local_lookup _ k b (sh_local0 i) Hv) as (j & Hlk & Hj & _). subst j.
  destruct (try_lock_resx_spec _ k _ b (sh_local0 i) Hlk Hv) as (m' & Hr & [Hok _ Hv' _]). rewrite Hl in Hr. change (0 =? 0) with true in Hr.
  exists tt, (set_local c i m'), (put vl i (set_ll_lock 1 b)), vm. split; [| split; [by apply shows_put | done]].
  unfold lock_res. cbn. unfold drc_lock_local_resx. rewrite Hr. done.
Qed.

(** Writing. *)
Lemma run_write i b f (g : local_map -> outcome (unit * local_map)) vl vm (post : unit -> lmap -> mres -> Prop) :
  vl i = Some b -> content_fn f -> (forall a, (ll_lock (f a) = ll_lock a \/ ll_lock (f a) = 0) /\ ll_lockc (f a) = ll_lockc a) ->
  (forall m a m', (map_items m).[ll_idx b] = Some a -> map_put m (ll_idx b) (f a) = Done m' -> g m = Done (tt, m')) ->
  post tt (put vl i (f b)) vm -> run (on_local i g) vl vm post.
Proof.
  intros Hb Hf Hs Hg Hp. eapply run_local; [| exact Hp]. intros m Hok Hv. rewrite Hb in Hv.
  destruct (local_lookup _ k b Hok Hv) as (j & Hl & Hj & _). subst j. destruct (local_at _ k _ b Hok Hl Hv) as (_ & _ & _ & [Hi1 Hi2]).
  destruct (local_set _ k _ b Hok Hl Hv f Hf) as (a & m' & Ha & _ & Hr & [Hok' _ Hv' _]).
  { destruct (Hs b) as [[E | E] E2]; (split; [rewrite E | by rewrite E2]); [done | by left]. }
  exists m'. by rewrite (Hg m a m' Ha Hr).
Qed.

Lemma run_set_latch i b f vl vm (post : unit -> lmap -> mres -> Prop) :
  vl i = Some b -> post tt (put vl i (set_latch_stat (f (latch_stat b)) b)) vm -> run (set_latch i (ll_idx b) f) vl vm post.
Proof.
  intros Hb. apply (run_write i b (fun a => set_latch_stat (f (latch_stat a)) a)); try done; [intros a; split; [by left | done] |].
  intros m a m' Ha Hput. rewrite (arr_get_eq _ _ _ Ha), outcome_ret_bind, Hput. done.
Qed.

Lemma run_set_stat i b locked owner vl vm (post : unit -> lmap -> mres -> Prop) :
  vl i = Some b -> post tt (put vl i (set_lock_stat locked owner b)) vm -> run (set_stat i (ll_idx b) locked owner) vl vm post.
Proof.
  intros Hb. apply (run_write i b (set_lock_stat locked owner)); try done; [intros a; split; [by left | done] |].
  intros m a m' Ha Hput. unfold drc_set_local_lock_statx. rewrite (arr_get_eq _ _ _ Ha), outcome_ret_bind, Hput. done.
Qed.

Lemma run_unlock i b vl vm (post : unit -> lmap -> mres -> Prop) :
  vl i = Some b -> post tt (put vl i (set_ll_lock 0 b)) vm -> run (unlock_res i (ll_idx b)) vl vm post.
Proof.
  intros Hb. apply (run_write i b (set_ll_lock 0)); try done; [intros a; split; [by right | done] |].
  intros m a m' Ha Hput. unfold drc_unlock_local_resx. rewrite (arr_get_eq _ _ _ Ha), outcome_ret_bind. by rewrite Hput.
Qed.

Lemma run_lock_stat i b vl vm (post : bool * bool -> lmap -> mres -> Prop) :
  vl i = Some b -> post (is_locked b, is_owner b) vl vm -> run (lock_stat i (ll_idx b)) vl vm post.
Proof.
  intros Hb. apply (run_read i _ _ _ _ b); [done |]. intros m j Hok Hl Hv ->. destruct (local_at _ k _ b Hok Hl Hv) as (b0 & Hb0 & <- & _).
  unfold drc_get_local_lock_statx. by rewrite (arr_get_eq _ _ _ Hb0).
Qed.

Lemma run_latch_of i b vl vm (post : drc_local_latch -> lmap -> mres -> Prop) :
  vl i = Some b -> post (latch_stat b) vl vm -> run (latch_of i (ll_idx b)) vl vm post.
Proof.
  intros Hb. apply (run_read i _ _ _ _ b); [done |]. intros m j Hok Hl Hv ->. destruct (local_at _ k _ b Hok Hl Hv) as (b0 & Hb0 & <- & _).
  unfold drc_get_local_latch_statx. by rewrite (arr_get_eq _ _ _ Hb0).
Qed.

(** *** The master *)

Lemma run_locks {B} (f : dtc_env -> lock_ctx -> outcome (B * lock_ctx)) vl vm (post : B -> lmap -> mres -> Prop) :
  (forall l, lock_ok Q [] [] l -> lock_view l k = vm -> (vm = None -> ~ lock_pool_full l) ->
     exists x l' v, f (o_env o) l = Done (x, l') /\ lock_ok Q [] [] l' /\ lock_view l' k = Some v /\ post x vl (Some v)) ->
  run (on_locks master f) vl vm post.
Proof.
  intros Hf c Hc. pose proof Hc as []. destruct (Hf (in_locks (c master)) (sh_locks0 master) sh_master0 sh_mroom0) as (x & l' & v & Hr & Hok & Hv & Hp).
  exists x, (set_locks c master l'), vl, (Some v). split; [cbn; by rewrite Hr |]. split; [| done]. constructor.
  - intros i. by rewrite in_local_set_locks.
  - intros i. rewrite in_locks_set. by destruct (i =? master).
  - intros i. by rewrite in_local_set_locks.
  - by rewrite in_locks_set, Z.eqb_refl.
  - rewrite in_local_set_locks. exact sh_room0.
  - done.
Qed.

(** No reform runs, messages are answered and no index splits. *)
Abbreviation ver := (trigger_version (o_env o)).
Hypotheses (Hstop : DRC_STOP_DLS_REQ_FOR_REFORMING ver (o_env o) k = false)
           (Hver : drc_lock_bucket_and_stat_with_version_check (o_env o) k ver false = CT_SUCCESS)
           (Hfate : o_fate o = Answer) (Hsplit : o_split o = CT_SUCCESS)
           (Htable : drid_type k <> DR_TYPE_TABLE) (Hvalid : drid_type k <> DR_TYPE_INVALID).

(** The owners and the mode the master counts when nobody asks. *)
Definition idle_master vm (granted mode : Z) : Prop :=
  match vm with
  | None => granted = 0 /\ mode = DRC_LOCK_NULL
  | Some (a, rs) => rs = [] /\ req_inst_id (lock_conv a) = CT_INVALID_ID8 /\ mr_granted_map a = granted /\ mr_mode a = mode
  end.

Lemma run_request_owner fuel r vl vm granted mode (post : lock_answer -> lmap -> mres -> Prop) :
  lock_req_ok r -> idle_master vm granted mode ->
  (forall a, lock_conv a = r -> mr_granted_map a = granted -> mr_mode a = mode ->
     post (mk_answer CT_SUCCESS (compatible (req_mode r) mode) (if compatible (req_mode r) mode then 0 else granted)) vl (Some (a, []))) ->
  run (request_lock_owner fuel master k r ver) vl vm post.
Proof.
  intros Hr Hidle Hp. unfold request_lock_owner. apply run_bind, run_locks. intros l Hok Hv Hroom.
  destruct (request_start_spec Q (o_env o) k r no_answer ver [] [] l Hok Hr Hstop) as (step & l' & Hrun & Hok' & _ & Hrule); [rewrite Hv; exact Hroom |].
  assert (Hst : exists a, step = LAnswer (mk_answer CT_SUCCESS (compatible (req_mode r) mode) (if compatible (req_mode r) mode then 0 else granted)) /\
    lock_view l' k = Some (a, []) /\ lock_conv a = r /\ mr_granted_map a = granted /\ mr_mode a = mode).
  { destruct vm as [[a0 rs] |]; destruct Hrule as [a' Hn Hv' Hc Hg Hm | a a' ans Ha Hc Hv' Hcn | a rs2 m Ha Hc | a rs2 a' x Ha Hc | a rs2 gr m Ha Hc Hf Hv']; try congruence.
    - rewrite Hv in Ha. injection Ha as <- ->. destruct Hidle as (_ & _ & <- & <-). exists a'. destruct ans as [st gr old], Hcn as (Hs & Hgr & Hold & Hc' & Hm & Hg & _).
      cbn in Hs, Hgr, Hold. rewrite andb_true_r in Hold. subst. done.
    - rewrite Hv in Ha. injection Ha as <- ->. by destruct Hidle as (_ & E & _).
    - rewrite Hv in Ha. injection Ha as <- ->. by destruct Hidle as (_ & E & _).
    - rewrite Hv in Ha. injection Ha as <- ->. by destruct Hidle as (_ & E & _).
    - destruct Hidle as [-> ->]. exists a'. unfold compatible. rewrite orb_true_r. done. }
  destruct Hst as (a & -> & Hv' & Hc & Hg & Hm). exists (LAnswer (mk_answer CT_SUCCESS (compatible (req_mode r) mode) (if compatible (req_mode r) mode then 0 else granted))), l', (a, []).
  split_and!; [done | done | done |]. by apply run_ret, Hp.
Qed.

(** Claiming the converted request of instance [j]. *)
Lemma run_claim j sid a vl (post : status_t -> lmap -> mres -> Prop) :
  req_inst_id (lock_conv a) = j -> req_mode (lock_conv a) = DRC_LOCK_EXCLUSIVE -> inst_ok j ->
  (forall a', mr_mode a' = DRC_LOCK_EXCLUSIVE -> inst_set (mr_granted_map a') = {[j]} -> post CT_SUCCESS vl (Some (a', []))) ->
  run (claim_lock master k j sid DRC_LOCK_EXCLUSIVE ver) vl (Some (a, [])) post.
Proof.
  intros Hj Hm Hok Hp. apply run_locks. intros l Hl Hv _.
  destruct (claim_lock_spec Q (o_env o) k (mk_lclaim j DRC_LOCK_EXCLUSIVE sid) ver false [] [] l a [] Hl Hv Hver) as (l' & a' & Hrun & Hl' & _ & Hv' & [Hm' Hg'] & _).
  { split_and!; [done | done | by apply inst_ok_ne | by left]. }
  exists CT_SUCCESS, l', (a', []). split_and!; [done | done | done |]. apply Hp; [done |]. rewrite Hg'. cbn. by rewrite (right_id_L ∅ (∪)).
Qed.

Lemma run_clear i a vl (post : unit -> lmap -> mres -> Prop) :
  inst_ok i -> (forall a', lock_conv a' = lock_conv a -> post tt vl (Some (a', []))) -> run (clear_granted master k i) vl (Some (a, [])) post.
Proof.
  intros Hi Hp. apply run_locks. intros l Hl Hv _. pose proof (clear_granted_spec Q k i [] [] l Hl Hi) as Hsp. rewrite Hv in Hsp.
  destruct Hsp as (l' & a' & Hrun & Hl' & _ & Hv' & _ & Hc & _). exists tt, l', (a', []). split_and!; [by rewrite Hrun | done | done | by apply Hp].
Qed.

(** ** The owner gives the lock up *)

(** The resource of a lock that is owned and not in use. *)
Definition unused (b : drc_local_lock_res) : Prop :=
  ll_lock b = 0 /\ is_locked b = false /\ stat_of b = LATCH_STATUS_IDLE /\ mode_of b <> DRC_LOCK_NULL.

(** Instance [x] has no resource or has given its lock up; the others are as they were. *)
Definition gave_up vl (x : Z) vl' : Prop :=
  (forall j, j <> x -> vl' j = vl j) /\ forall b, vl' x = Some b -> mode_of b = DRC_LOCK_NULL /\ is_owner b = false.

Lemma run_split mode vl vm (post : status_t -> lmap -> mres -> Prop) :
  post CT_SUCCESS vl vm -> run (dls_broadcast_btree_split k mode) vl vm post.
Proof.
  intros Hp. unfold dls_broadcast_btree_split. destruct (_ || _); [by apply run_ret |]. destruct (_ && _); [by apply run_ret |].
  apply run_bind, run_oracle, run_ret. by rewrite Hsplit.
Qed.

Lemma run_release fuel x ticks vl vm (post : status_t -> lmap -> mres -> Prop) :
  (forall b, vl x = Some b -> unused b) -> ticks = CT_INVALID_ID32 -> (forall vl', gave_up vl x vl' -> post CT_SUCCESS vl' vm) ->
  run (dls_process_release_ownership (S fuel) x k DRC_LOCK_EXCLUSIVE ver ticks) vl vm post.
Proof.
  intros Hx -> Hp. unfold dls_process_release_ownership. apply run_bind, run_oracle. rewrite Hstop. cbn [negb andb Z.eqb].
  change (negb (DRC_LOCK_EXCLUSIVE =? DRC_LOCK_EXCLUSIVE) && negb (DRC_LOCK_EXCLUSIVE =? DRC_LOCK_SHARE)) with false. cbn match.
  rewrite (proj2 (Z.eqb_neq _ _) Htable). cbn [release_loop]. apply run_bind. destruct (vl x) as [b |] eqn:Hb.
  2: { apply run_find_none; [done |]. apply run_ret, Hp. split; [done |]. intros b. by rewrite Hb. }
  destruct (Hx b eq_refl) as (Hl & Hlk & Hst & Hm). apply (run_find x b); [done |].
  apply run_bind, (run_lock x b); [done | done |]. set (b1 := set_ll_lock 1 b).
  apply run_bind. apply (run_lock_stat x b1); [apply put_eq |]. change (is_locked b1) with (is_locked b). rewrite Hlk. cbn [andb].
  change (negb (CT_INVALID_ID32 =? CT_INVALID_ID32)) with false. cbn [andb].
  apply run_bind, run_oracle. rewrite Hstop. apply run_bind. apply (run_latch_of x b1); [apply put_eq |].
  apply run_bind. apply (run_lock_stat x b1); [apply put_eq |]. change (is_locked b1) with (is_locked b). change (latch_stat b1) with (latch_stat b).
  rewrite Hlk, Hst, (proj2 (Z.eqb_neq _ _) Hm). cbn [negb andb orb Z.eqb LATCH_STATUS_IDLE].
  apply run_bind, run_split. rewrite decide_False by (by intros ?). change (DRC_LOCK_EXCLUSIVE =? DRC_LOCK_EXCLUSIVE) with true. cbn match.
  apply run_bind, run_bind. apply (run_set_latch x b1); [apply put_eq |]. set (b2 := set_latch_stat _ b1).
  apply (run_set_stat x b2); [apply put_eq |]. set (b3 := set_lock_stat false false b2).
  apply run_bind. apply (run_unlock x b3); [apply put_eq |]. apply run_ret, Hp. split.
  - intros j Hj. by rewrite !put_ne.
  - intros b4. rewrite put_eq. by intros [= <-].
Qed.

Lemma run_msg from dst r h vl vm (post : status_t -> lmap -> mres -> Prop) :
  0 <= dst < CT_MAX_INSTANCES ->
  run (h (mk_lock_req from (req_inst_sid r) (o_rsn o) (dtc_now (o_env o)) ver (req_mode r) (release_timeout_ticks r))) vl vm post ->
  run (dls_request_msg from k dst r ver h) vl vm post.
Proof.
  intros Hd Hh. unfold dls_request_msg. apply run_bind, run_oracle. rewrite (proj2 (Z.leb_gt _ _)) by lia. rewrite Hfate.
  apply run_bind. eapply run_mono; [exact Hh |]. intros st vl' vm' Hp. apply run_bind, run_oracle. rewrite Hstop. by apply run_ret.
Qed.

(** ** The request *)

Hypotheses (Hcount : inst_count <= CT_MAX_INSTANCES) (Hmaster : 0 <= master < CT_MAX_INSTANCES).

Lemma run_exist old i vl vm (post : bool -> lmap -> mres -> Prop) :
  bitmap_ok old -> inst_ok i -> post (bool_decide (i ∈ inst_set old)) vl vm -> run (lift (drc_bitmap64_exist old i)) vl vm post.
Proof. intros Hold Hi. apply run_lift. by apply drc_bitmap64_exist_Done. Qed.

(** The lock can be had by instance [self] at once: the master counts no owner, or one that is not using it. *)
Definition available vl vm : Prop :=
  exists granted mode, idle_master vm granted mode /\
    (mode = DRC_LOCK_NULL \/
     mode = DRC_LOCK_EXCLUSIVE /\ bitmap_ok granted /\ exists x, inst_set granted = {[x]} /\ x <> self /\ x < inst_count /\ forall b, vl x = Some b -> unused b).

(** Every other instance has kept its resource or given the lock up. *)
Definition others_yield vl vl' : Prop :=
  vl' self = vl self /\ forall j, j <> self -> vl' j = vl j \/ forall b, vl' j = Some b -> mode_of b = DRC_LOCK_NULL /\ is_owner b = false.

Lemma yield_refl vl : others_yield vl vl.
Proof. split; [done |]. intros j _. by left. Qed.

Lemma yield_gave_up vl x vl' : x <> self -> gave_up vl x vl' -> others_yield vl vl'.
Proof. intros Hx [Hne Hup]. split; [by apply Hne |]. intros j _. destruct (decide (j = x)) as [-> |]; [right; exact Hup | left; by apply Hne]. Qed.

Section request.
Context (r : drc_req_info) (fuel : nat).
Hypotheses (Hself : 0 <= self < inst_count) (Hr1 : req_inst_id r = self) (Hr2 : req_mode r = DRC_LOCK_EXCLUSIVE)
           (Hr3 : release_timeout_ticks r = CT_INVALID_ID32) (Hr4 : req_version r = ver).

Lemma live_req_ok : lock_req_ok r.
Proof. split; [rewrite Hr1; unfold inst_ok; lia | rewrite Hr2; unfold mode_ok, DRC_LOCK_NULL, DRC_LOCK_EXCLUSIVE; lia]. Qed.

(** A message to an owner that is not using the lock. *)
Lemma run_release_msg from q x vl vm (post : status_t -> lmap -> mres -> Prop) :
  req_mode q = DRC_LOCK_EXCLUSIVE -> release_timeout_ticks q = CT_INVALID_ID32 -> inst_ok x -> (forall b, vl x = Some b -> unused b) ->
  (forall vl', gave_up vl x vl' -> post CT_SUCCESS vl' vm) -> run (release_msg (S fuel) from k x q ver) vl vm post.
Proof. intros Hm Ht Hx Hb Hp. apply run_msg; [exact Hx |]. cbn. rewrite Hm. by apply run_release. Qed.

Lemma run_release_owners n i old x vl a (post : status_t -> lmap -> mres -> Prop) :
  master = self -> bitmap_ok old -> inst_set old = {[x]} -> x <> self -> 0 <= i -> i + Z.of_nat n = inst_count -> i <= x ->
  x < inst_count -> (forall b, vl x = Some b -> unused b) -> lock_conv a = r ->
  (forall vl' a', others_yield vl vl' -> lock_conv a' = r -> post CT_SUCCESS vl' (Some (a', []))) ->
  run (release_owners (S fuel) n i self k r ver old) vl (Some (a, [])) post.
Proof.
  intros Hms Hold Hset Hxs Hi Hn Hix Hx Hb Hc Hp. revert i Hi Hn Hix. induction n as [| n IH]; intros i Hi Hn Hix; [lia |]. cbn [release_owners].
  assert (Hok : inst_ok i) by (unfold inst_ok; lia). apply run_bind, run_exist; [done | done |]. rewrite Hset.
  destruct (decide (i = x)) as [-> | Hne]; [rewrite bool_decide_eq_true_2 by set_solver | rewrite bool_decide_eq_false_2 by set_solver].
  2: { cbn [negb orb]. apply IH; lia. }
  rewrite (proj2 (Z.eqb_neq self x)) by done. cbn [negb orb]. apply run_bind. apply run_release_msg; [done .. |]. intros vl' Hup.
  rewrite decide_False by (by intros ?). rewrite Hr2. change (DRC_LOCK_EXCLUSIVE =? DRC_LOCK_EXCLUSIVE) with true. cbn match.
  apply run_bind. rewrite <- Hms at 1. apply run_clear; [done |]. intros a' Ha'. pose proof (yield_gave_up vl x vl' Hxs Hup) as Hy. clear IH Hix.
  assert (Hskip : forall n i, x < i -> i + Z.of_nat n = inst_count -> run (release_owners (S fuel) n i self k r ver old) vl' (Some (a', [])) post).
  { clear n Hn. induction n as [| n IH]; intros t Ht Hn; [apply run_ret, Hp; [done | congruence] |]. cbn [release_owners].
    apply run_bind, run_exist; [done | unfold inst_ok; lia |]. rewrite Hset, bool_decide_eq_false_2 by (intros ?%elem_of_singleton; lia). apply IH; lia. }
  apply Hskip; lia.
Qed.

(** The outcome: the master counts [self] as the only owner. *)
Definition handed_over vl (vl' : lmap) (vm' : mres) : Prop :=
  others_yield vl vl' /\ exists a, vm' = Some (a, []) /\ mr_mode a = DRC_LOCK_EXCLUSIVE /\ inst_set (mr_granted_map a) = {[self]}.

Lemma run_request_self vl vm (post : status_t -> lmap -> mres -> Prop) :
  master = self -> available vl vm -> (forall vl' vm', handed_over vl vl' vm' -> post CT_SUCCESS vl' vm') ->
  run (dls_request_lock inst_count part_master (S fuel) self k r REQUEST_LOCK) vl vm post.
Proof.
  intros Hms (granted & mode & Hidle & Hmode) Hp. unfold dls_request_lock. rewrite Hr4, (proj2 (Z.eqb_eq _ _) Hms).
  apply run_bind. rewrite <- Hms at 1. apply (run_request_owner _ r vl vm granted mode); [exact live_req_ok | exact Hidle |]. intros a Hc Hg Hm. cbn [la_status la_granted la_old_owner_map].
  rewrite decide_False by (by intros ?). apply run_bind. rewrite Hr2.
  assert (Hclaim : forall vl' a', others_yield vl vl' -> lock_conv a' = r ->
    run (if decide (CT_SUCCESS <> CT_SUCCESS) then Ret CT_SUCCESS else claim_or_cancel self k r ver) vl' (Some (a', [])) post).
  { intros vl' a' Hy Hca. rewrite decide_False by (by intros ?). unfold claim_or_cancel. apply run_bind. rewrite Hr1, Hr2. rewrite <- Hms at 1.
    apply run_claim; [by rewrite Hca | by rewrite Hca | unfold inst_ok; lia |]. intros a2 Hm2 Hg2. rewrite decide_False by (by intros ?).
    apply run_ret, Hp. split; [done |]. by exists a2. }
  destruct Hmode as [-> | (-> & Hold & x & Hset & Hxs & Hx & Hb)].
  - change (compatible DRC_LOCK_EXCLUSIVE DRC_LOCK_NULL) with true. cbn match. apply run_ret. apply Hclaim; [apply yield_refl | done].
  - change (compatible DRC_LOCK_EXCLUSIVE DRC_LOCK_EXCLUSIVE) with false. cbn match.
    assert (Hx0 : x ∈ inst_set granted) by set_solver. apply elem_of_inst_set in Hx0.
    apply (run_release_owners _ _ _ x); [done | done | done | done | lia | lia | lia | done | done | done |]. intros vl' a' Hy Hc'. by apply Hclaim.
Qed.

Lemma run_first_owner old x vl vm (post : Z -> lmap -> mres -> Prop) :
  bitmap_ok old -> inst_set old = {[x]} -> x < inst_count -> post x vl vm -> run (lift (first_owner (Z.to_nat inst_count) 0 old)) vl vm post.
Proof.
  intros Hold Hset Hx. apply run_lift. assert (Hx0 : x ∈ inst_set old) by set_solver. apply elem_of_inst_set in Hx0.
  assert (Hgen : forall n i, 0 <= i <= x -> x < i + Z.of_nat n -> i + Z.of_nat n <= CT_MAX_INSTANCES -> first_owner n i old = Done x).
  { induction n as [| n IH]; intros i Hi Hn Hmax; [lia |]. cbn [first_owner]. rewrite drc_bitmap64_exist_Done by (done || lia). rewrite outcome_ret_bind, Hset.
    destruct (decide (i = x)) as [-> | Hne]; [by rewrite bool_decide_eq_true_2 by set_solver |].
    rewrite bool_decide_eq_false_2 by (by intros ?%elem_of_singleton). apply IH; lia. }
  apply Hgen; lia.
Qed.

Lemma run_request_remote vl vm (post : status_t -> lmap -> mres -> Prop) :
  master <> self -> available vl vm -> (forall vl' vm', handed_over vl vl' vm' -> post CT_SUCCESS vl' vm') ->
  run (dls_request_lock inst_count part_master (S fuel) self k r REQUEST_LOCK) vl vm post.
Proof.
  intros Hms (granted & mode & Hidle & Hmode) Hp. unfold dls_request_lock. rewrite Hr4, (proj2 (Z.eqb_neq _ _) Hms).
  apply run_msg; [exact Hmaster |]. rewrite Hr2. set (q := mk_lock_req _ _ _ _ _ _ _). unfold dls_process_lock_msg. apply run_bind.
  assert (Hclaim : forall vl' a', others_yield vl vl' -> lock_conv a' = lock_req_info q ->
    run (if decide (CT_SUCCESS = CT_SUCCESS) then claim_lock master k (src_inst q) (src_sid q) (rq_mode q) (rq_version q) else Ret CT_SUCCESS) vl' (Some (a', [])) post).
  { intros vl' a' Hy Hca. rewrite decide_True by done. apply run_claim; [by rewrite Hca | by rewrite Hca | unfold inst_ok; cbn; lia |].
    intros a2 Hm2 Hg2. apply Hp. split; [done |]. by exists a2. }
  unfold dls_process_ask_master_for_lock. change (negb (rq_mode q =? DRC_LOCK_EXCLUSIVE)) with false. cbn [src_inst orb q].
  rewrite (proj2 (Z.leb_gt _ _)) by lia. apply run_bind. apply (run_request_owner _ (lock_req_info q) vl vm granted mode); [| exact Hidle |].
  { split; [unfold inst_ok; cbn; lia | unfold mode_ok; cbn; unfold DRC_LOCK_NULL, DRC_LOCK_EXCLUSIVE; lia]. }
  intros a Hc Hg Hm. cbn [la_status la_granted la_old_owner_map]. rewrite decide_False by (by intros ?). change (req_mode (lock_req_info q)) with DRC_LOCK_EXCLUSIVE.
  destruct Hmode as [-> | (-> & Hold & x & Hset & Hxs & Hx & Hb)].
  - change (compatible DRC_LOCK_EXCLUSIVE DRC_LOCK_NULL) with true. cbn match. apply run_ret, Hclaim; [apply yield_refl | done].
  - change (compatible DRC_LOCK_EXCLUSIVE DRC_LOCK_EXCLUSIVE) with false. cbn match.
    assert (Hx0 : x ∈ inst_set granted) by set_solver. apply elem_of_inst_set in Hx0.
    apply run_bind, run_exist; [done | unfold inst_ok; cbn; lia |]. cbn [req_inst_id lock_req_info src_inst q].
    rewrite Hset, bool_decide_eq_false_2 by (by intros ?%elem_of_singleton).
    apply run_bind, (run_first_owner _ x); [done | done | done |]. apply run_bind.
    assert (Hthen : forall vl', gave_up vl x vl' -> run (if decide (CT_SUCCESS <> CT_SUCCESS) then owner_refused master k self (rq_version q) CT_SUCCESS else Ret CT_SUCCESS) vl' (Some (a, []))
      (fun st vl2 vm2 => run (if decide (st = CT_SUCCESS) then claim_lock master k (src_inst q) (src_sid q) (rq_mode q) (rq_version q) else Ret st) vl2 vm2 post)).
    { intros vl' Hup. rewrite decide_False by (by intros ?). apply run_ret. apply Hclaim; [by apply (yield_gave_up vl x vl') | done]. }
    destruct (Z.eqb_spec master x) as [Hmx | _].
    + rewrite Hmx at 1. apply run_release; [done | done | exact Hthen].
    + apply run_release_msg; [done | done | unfold inst_ok; lia | done | exact Hthen].
Qed.
End request.

(** ** The theorem *)

Hypothesis Hself : 0 <= self < inst_count.

(** The lock is locked by [self], which the master counts as the only owner; every other instance has kept its
    resource or given the lock up. *)
Definition acquired vl vl' vm' : Prop :=
  (exists b, vl' self = Some b /\ is_locked b = true /\ is_owner b = true /\ mode_of b = DRC_LOCK_EXCLUSIVE) /\
  (forall j b, j <> self -> vl' j = Some b -> vl j = Some b \/ mode_of b = DRC_LOCK_NULL /\ is_owner b = false) /\
  exists a, vm' = Some (a, []) /\ mr_mode a = DRC_LOCK_EXCLUSIVE /\ inst_set (mr_granted_map a) = {[self]}.

Lemma run_enter b vl vl1 vl' vm' :
  vl1 self = Some b -> (forall j, j <> self -> vl1 j = vl j) -> handed_over vl1 vl' vm' ->
  run (set_latch self (ll_idx b) (with_mode DRC_LOCK_EXCLUSIVE);;~ set_stat self (ll_idx b) true true) vl' vm' (fun _ => acquired vl).
Proof.
  intros Hb Hv1 [[Hs Hy] Ha]. apply run_bind. rewrite Hb in Hs.
  apply (run_set_latch self b); [done |]. set (b2 := set_latch_stat _ b). apply (run_set_stat self b2); [apply put_eq |]. split_and!; [| | done].
  - exists (set_lock_stat true true b2). by rewrite put_eq.
  - intros j b3 Hj. rewrite !put_ne by done. intros H3. destruct (Hy j Hj) as [E | Hn]; [left; by rewrite <- H3, E, Hv1 | right; by apply Hn].
Qed.

Lemma available_ext vl vl1 vm : (forall j, j <> self -> vl1 j = vl j) -> available vl vm -> available vl1 vm.
Proof.
  intros Hv (gr & md & Hi & Hm). exists gr, md. split; [exact Hi |]. destruct Hm as [-> | (-> & Hok & x & Hs & Hx & Hlt & Hu)]; [by left | right].
  split_and!; try done. exists x. split_and!; try done. intros b0. rewrite Hv by done. apply Hu.
Qed.

Lemma run_spin_lock sid fuel vl vm :
  (forall b, vl self = Some b -> ll_lock b = 0 /\ is_locked b = false /\ is_owner b = false) -> available vl vm ->
  run (dls_spin_lock inst_count part_master (S fuel) self sid k) vl vm (fun _ => acquired vl).
Proof.
  intros Hfree Hav. unfold dls_spin_lock. apply run_bind. unfold valid_drid. rewrite (proj2 (Z.eqb_neq _ _) Hvalid). apply (run_lift _ tt); [done |].
  apply run_bind, run_get. intros b Hb. assert (Hb0 : ll_lock b = 0 /\ is_locked b = false /\ is_owner b = false) by (destruct Hb as [Hb | [_ ->]]; [by apply Hfree | done]).
  destruct Hb0 as (Hl & Hlk & Ho). apply run_bind. apply (run_lock self b); [apply put_eq | done |]. set (b1 := set_ll_lock 1 b). set (vl1 := put _ _ b1).
  assert (Hb1 : vl1 self = Some b1) by apply put_eq. assert (Hv1 : forall j, j <> self -> vl1 j = vl j) by (intros j Hj; unfold vl1; by rewrite !put_ne).
  apply run_bind. apply (run_lock_stat self b1); [done |]. change (is_owner b1) with (is_owner b). rewrite Ho. cbn beta match.
  apply run_bind. cbn [dls_request_spin_lock]. apply run_bind, run_oracle. apply run_bind. apply (available_ext vl vl1 vm Hv1) in Hav.
  destruct (decide (master = self)) as [Hms | Hms]; [apply run_request_self | apply run_request_remote]; try done;
    intros vl' vm' Hh; rewrite decide_True by done; apply run_ret; by apply (run_enter b1 vl vl1).
Qed.

(** C10: a session that asks for a spin lock nobody is using gets it after a bounded number of actions of its own
    thread, when no reform runs, messages are answered and the pools have room: a lock nobody owns from its master, a
    lock another instance owns and does not use from that instance, which gives it up. *)
Theorem dls_spin_lock_handed_over c sid fuel :
  (forall i, local_ok (in_local (c i)) /\ lock_ok Q [] [] (in_locks (c i))) ->
  (lview c self = None -> ~ store_full (in_local (c self))) -> (mview c = None -> ~ lock_pool_full (in_locks (c master))) ->
  (forall b, lview c self = Some b -> ll_lock b = 0 /\ is_locked b = false /\ is_owner b = false) -> available (fun i => lview c i) (mview c) ->
  exists c', run_alone o (dls_spin_lock inst_count part_master (S fuel) self sid k) c = Done (Some (tt, c')) /\
    acquired (fun i => lview c i) (fun i => lview c' i) (mview c').
Proof.
  intros Hok Hroom Hmroom Hfree Hav. destruct (run_spin_lock sid fuel _ _ Hfree Hav c) as ([] & c' & vl' & vm' & Hrun & [_ _ Hv Hm _ _] & Hacq).
  - constructor; try done; intros i; by destruct (Hok i).
  - exists c'. split; [done |]. subst vm'. destruct Hacq as ((b & Hb & ?) & Ho & Ha). split_and!; [exists b; by rewrite Hv | | done].
    intros j b2 Hj. rewrite Hv. by apply Ho.
Qed.
End live.
