(* ===== verification/DlsThms.v ===== *)
(** * Distributed locks: mutual exclusion across the cluster

    The theorems about the sessions of a cluster that lock and unlock spin
    locks and latches in any interleaving, from the initialised state on, and
    small clusters on which they are applied.  Source:
    src/pkg/src/cluster/dtc_dls.c. *)

From stdpp Require Import prelude list gmap.
From S2P Require Import Prelude Bitmap ResPool DrcList ResMap ConvertQ KeyStore GlobalRes DrcTypes DrcPage PageInv DrcLock LockProps LockThms DrcLocal LocalThms LocalDemo Threads DrcDls DlsInv DlsRules DlsProps DlsClients DlsLive.

Open Scope Z_scope.
Open Scope drc_scope.

(** ** The sessions *)

(** What a session of the cluster runs: a critical section under a spin lock,
    or a call on a latch, on an instance of the cluster.  [spin] tells the
    resources used as spin locks from the latches; tables have locks of their
    own.  [fuel] is the number of turns every loop of the call gets. *)
Inductive dls_client (inst_count : Z) (part_master : Z -> Z) (spin : drid_t -> bool) : dprog unit -> Prop :=
| cl_spin fuel i sid k : 0 <= i < inst_count -> drid_type k <> DR_TYPE_TABLE -> spin k = true ->
    dls_client inst_count part_master spin (dls_spin_lock inst_count part_master fuel i sid k;;~ dls_spin_unlock i k)
| cl_spin_timed fuel i sid k timeout : 0 <= i < inst_count -> drid_type k <> DR_TYPE_TABLE -> spin k = true ->
    dls_client inst_count part_master spin
      (got <~ dls_spin_timed_lock inst_count part_master fuel i sid k timeout; if (got : bool) then dls_spin_unlock i k else Ret tt)
| cl_spin_try fuel i sid k : 0 <= i < inst_count -> drid_type k <> DR_TYPE_TABLE -> spin k = true ->
    dls_client inst_count part_master spin
      (got <~ dls_spin_try_lock inst_count part_master fuel i sid k; if (got : bool) then dls_spin_unlock i k else Ret tt)
| cl_latch_x fuel i sid k : 0 <= i < inst_count -> drid_type k <> DR_TYPE_TABLE -> spin k = false ->
    dls_client inst_count part_master spin (dls_latch_x inst_count part_master fuel i sid k)
| cl_latch_s fuel i sid k : 0 <= i < inst_count -> drid_type k <> DR_TYPE_TABLE -> spin k = false ->
    dls_client inst_count part_master spin (dls_latch_s inst_count part_master fuel i sid k false)
| cl_timed_x fuel i sid k wait_ticks release_ticks : 0 <= i < inst_count -> drid_type k <> DR_TYPE_TABLE -> spin k = false ->
    dls_client inst_count part_master spin (dls_latch_timed_x inst_count part_master fuel i sid k wait_ticks release_ticks;;~ Ret tt)
| cl_timed_s fuel i sid k wait_ticks release_ticks : 0 <= i < inst_count -> drid_type k <> DR_TYPE_TABLE -> spin k = false ->
    dls_client inst_count part_master spin (dls_latch_timed_s inst_count part_master fuel i sid k wait_ticks false release_ticks;;~ Ret tt)
| cl_unlatch i k : 0 <= i < inst_count -> drid_type k <> DR_TYPE_TABLE -> spin k = false ->
    dls_client inst_count part_master spin (dls_unlatch i k).

(** A cluster whose instances have just initialised their maps and pools. *)
Definition fresh_inst (s : instance_st) : Prop :=
  exists (m : local_map) (g : lock_catalog) (p : lock_pool) n1 z1 n2 z2 n3 z3,
    (map_inited m = false /\ inited (res_pool m) = false /\ block_header_size <= z1 /\ 0 < n1 < 2 ^ 31) /\
    (map_inited (res_map g) = false /\ inited (res_pool (res_map g)) = false /\ block_header_size <= z2 /\ 0 < n2 < 2 ^ 31) /\
    (inited p = false /\ block_header_size <= z3 /\ 0 < n3 <= CT_INVALID_ID32) /\
    drc_res_map_init m n1 z1 true true = Done (CT_SUCCESS, in_local s) /\
    drc_global_res_init g n2 z2 true true = Done (CT_SUCCESS, lc_res (in_locks s)) /\
    drc_res_pool_init p z3 n3 true = Done (CT_SUCCESS, lc_pool (in_locks s)).

Definition nothing_held (rs ls : list Z) : Prop := rs = [] /\ ls = [].

Lemma fresh_facts s : fresh_inst s ->
  local_ok (in_local s) /\ lock_ok nothing_held [] [] (in_locks s) /\ (forall k, local_view (in_local s) k = None) /\ forall k, lock_view (in_locks s) k = None.
Proof.
  intros (m & g & p & n1 & z1 & n2 & z2 & n3 & z3 & (? & ? & ? & ?) & (? & ? & ? & ?) & (? & ? & ?) & Hm & Hg & Hp).
  destruct (store_init local_inv m n1 z1) as (m' & Hm' & Hok & _ & Hv); [done .. |]. rewrite Hm in Hm'. apply Done_inj, pair_eq in Hm' as [_ <-].
  destruct (lock_init_ok nothing_held g p z2 z3 n2 n3) as (g' & p' & Hg' & Hp' & Hlok & Hlv); [done .. |].
  rewrite Hg in Hg'. apply Done_inj, pair_eq in Hg' as [_ <-]. rewrite Hp in Hp'. apply Done_inj, pair_eq in Hp' as [_ <-].
  destruct s as [lm [lp lr]]. split_and!; done.
Qed.

Section thms.
Context (inst_count : Z) (part_master : Z -> Z) (spin : drid_t -> bool).
Abbreviation Inv := (Inv nothing_held inst_count part_master spin).
Abbreviation lview c i k := (local_view (in_local (c i)) k).
Abbreviation step ok := (thread_step ok (dls_client inst_count part_master spin)).

Lemma fresh_inv (c : cluster) : (forall i, fresh_inst (c i)) -> Inv c [].
Proof.
  intros Hc. assert (Hno : forall i k m, ~ has c [] i k m).
  { intros i k m [(b & Hb & _) | (g & Hg & _)]; [| by apply elem_of_nil in Hg]. destruct (fresh_facts _ (Hc i)) as (_ & _ & Hv & _). by rewrite Hv in Hb. }
  constructor; try (intros * Hg; by apply elem_of_nil in Hg).
  - intros i. apply (fresh_facts _ (Hc i)).
  - intros i. apply (fresh_facts _ (Hc i)).
  - intros k a rs. destruct (fresh_facts _ (Hc (lock_master part_master k))) as (_ & _ & _ & Hv). by rewrite Hv.
  - by apply NoDup_nil.
  - intros i k m Hm. by destruct (Hno i k m).
  - intros i k b. destruct (fresh_facts _ (Hc i)) as (_ & _ & Hv & _). by rewrite Hv.
Qed.

Lemma client_wp p : inst_count <= CT_MAX_INSTANCES -> dls_client inst_count part_master spin p -> wp Inv no_error_answer p no_ghost (fun _ _ => True).
Proof.
  intros Hn [fuel i sid k Hi Hty Hs | fuel i sid k tm Hi Hty Hs | fuel i sid k Hi Hty Hs | fuel i sid k Hi Hty Hs | fuel i sid k Hi Hty Hs | fuel i sid k w r Hi Hty Hs | fuel i sid k w r Hi Hty Hs | i k Hi Hty Hs].
  - wpb. eapply wp_mono; [by apply wp_spin_lock |]. intros [] g Hg. eapply wp_mono; [by eapply wp_spin_unlock | done].
  - wpb. eapply wp_mono; [by apply wp_spin_timed |]. intros [] g Hg; [eapply wp_mono; [by eapply wp_spin_unlock | done] | by apply wp_ret].
  - wpb. eapply wp_mono; [by apply wp_spin_try |]. intros [] g Hg; [eapply wp_mono; [by eapply wp_spin_unlock | done] | by apply wp_ret].
  - eapply wp_mono; [by apply wp_latch_x | done].
  - eapply wp_mono; [by apply wp_latch_s | done].
  - wpb. eapply wp_mono; [by apply wp_latch_timed_x |]. intros ? g Hg. by apply wp_ret.
  - wpb. eapply wp_mono; [by apply wp_latch_timed_s |]. intros ? g Hg. by apply wp_ret.
  - eapply wp_mono; [by apply wp_unlatch | done].
Qed.

(** The invariant holds in every reachable configuration. *)
Lemma reachable_inv c0 c l :
  inst_count <= CT_MAX_INSTANCES -> (forall i, fresh_inst (c0 i)) -> rtc (step no_error_answer) (c0, []) (c, l) -> exists gs, Inv c gs.
Proof.
  intros Hn Hc Hsteps. destruct (threads_invariant Inv no_error_answer (dls_client inst_count part_master spin) no_ghost (fun _ => True)) with (cf := (c0, [] : list (dprog unit))) (cf' := (c, l)) as (gs & Hinv & _).
  - intros s gs gs'. apply Inv_perm.
  - intros s gs. apply Inv_spawn.
  - intros p. by apply client_wp.
  - done.
  - exists []. split; [by apply fresh_inv | constructor].
  - by exists gs.
Qed.

(** Two instances never have a lock at once when one has it exclusively. *)
Lemma has_exclusive c gs i j k m : Inv c gs -> has c gs i k DRC_LOCK_EXCLUSIVE -> has c gs j k m -> m <> DRC_LOCK_NULL -> i = j.
Proof.
  intros Hinv Hi Hj Hm. destruct (v_cover _ _ _ _ _ _ Hinv i k _ Hi) as (a & rs & Hv & Hin & Hx); [done |].
  destruct (v_cover _ _ _ _ _ _ Hinv j k m Hj Hm) as (a2 & rs2 & Hv2 & Hin2 & _). rewrite Hv in Hv2. injection Hv2 as <- <-.
  destruct (lock_view_at _ _ k a rs (v_locks _ _ _ _ _ _ Hinv _) Hv) as [Hli _]. destruct (ki_excl _ _ Hli (Hx eq_refl)) as [o Ho].
  apply Ho, elem_of_singleton in Hin. apply Ho, elem_of_singleton in Hin2. congruence.
Qed.

Lemma has_view c gs i k b : lview c i k = Some b -> has c gs i k (mode_of b).
Proof. intros Hb. left. by exists b. Qed.

(** The exclusive latch has, or has been granted, the exclusive mode. *)
Lemma stat_exclusive c gs i k b : Inv c gs -> spin k = false -> lview c i k = Some b -> stat_of b = LATCH_STATUS_X -> has c gs i k DRC_LOCK_EXCLUSIVE.
Proof.
  intros Hinv Hs Hb Hst. destruct (v_res _ _ _ _ _ _ Hinv i k b Hb) as [Hp | (_ & _ & _ & g & Hg & Hgr)]; [| right; by exists g].
  apply (pure_facts spin k Hs) in Hp as [H1 _]. destruct (H1 Hst) as [_ <-]. by apply has_view.
Qed.

(** C2: whatever the sessions of the cluster do, in any interleaving and with any messages and answers lost, at most
    one instance has a distributed spin lock locked. *)
Theorem dls_spin_exclusive c0 c l i j k a b :
  inst_count <= CT_MAX_INSTANCES -> (forall i, fresh_inst (c0 i)) -> rtc (step no_error_answer) (c0, []) (c, l) ->
  spin k = true -> lview c i k = Some a -> lview c j k = Some b -> is_locked a = true -> is_locked b = true -> i = j.
Proof.
  intros Hn Hc Hsteps Hs Ha Hb Hla Hlb. destruct (reachable_inv c0 c l Hn Hc Hsteps) as [gs Hinv].
  assert (Hx : forall i b, lview c i k = Some b -> is_locked b = true -> has c gs i k DRC_LOCK_EXCLUSIVE).
  { intros i0 b0 Hb0 Hl0. destruct (v_res _ _ _ _ _ _ Hinv i0 k b0 Hb0) as [Hp | (E & _)]; [| congruence].
    unfold DlsInv.res_pure in Hp. rewrite Hs in Hp. destruct Hp as [<- _]; [by apply has_view | done]. }
  apply (has_exclusive c gs i j k DRC_LOCK_EXCLUSIVE Hinv); [by eapply Hx | by eapply Hx | done].
Qed.

(** C3: whatever the sessions of the cluster do, in any interleaving and with any messages and answers lost, while
    an instance has a latch exclusively no other instance has it exclusively or shared, or counts sharers of it. *)
Theorem dls_latch_exclusive c0 c l i j k a b :
  inst_count <= CT_MAX_INSTANCES -> (forall i, fresh_inst (c0 i)) -> rtc (step no_error_answer) (c0, []) (c, l) ->
  spin k = false -> i <> j -> lview c i k = Some a -> lview c j k = Some b -> stat_of a = LATCH_STATUS_X ->
  stat_of b <> LATCH_STATUS_X /\ stat_of b <> LATCH_STATUS_S /\ count_of b = 0 /\ count_of a = 0.
Proof.
  intros Hn Hc Hsteps Hs Hij Ha Hb Hst. destruct (reachable_inv c0 c l Hn Hc Hsteps) as [gs Hinv].
  pose proof (stat_exclusive c gs i k a Hinv Hs Ha Hst) as Hi.
  assert (Hno : forall m, has c gs j k m -> m = DRC_LOCK_NULL).
  { intros m Hm. destruct (decide (m = DRC_LOCK_NULL)) as [| Hne]; [done |]. by destruct (Hij (has_exclusive c gs i j k m Hinv Hi Hm Hne)). }
  assert (Hca : count_of a = 0).
  { destruct (v_res _ _ _ _ _ _ Hinv i k a Ha) as [Hp | (_ & _ & ? & _)]; [| done]. by destruct (proj1 (pure_facts spin k Hs a Hp) Hst). }
  pose proof (Hno _ (has_view c gs j k b Hb)) as Hm.
  destruct (v_res _ _ _ _ _ _ Hinv j k b Hb) as [Hp | (_ & _ & _ & g & Hg & Hgr)]; [| by discriminate (Hno DRC_LOCK_EXCLUSIVE (or_intror (ex_intro _ g (conj Hg Hgr))))].
  destruct (pure_facts spin k Hs b Hp) as (H1 & H2 & _ & H4). split_and!; [intros E; destruct (H1 E) as [_ E2]; by rewrite Hm in E2 | intros E; by apply H2; [left |] | | done].
  destruct (decide (0 < count_of b)) as [Hgt | ?]; [by destruct (H2 (or_intror Hgt)) | lia].
Qed.

(** C19: the master is a directory of the lock: in every reachable state, an instance whose local
    resource has the lock in some mode is among the owners its master counts, and an instance that has it exclusively
    is the only one, with the master's mode exclusive and every other local mode null. *)
Theorem dls_directory_exact c0 c l i k a :
  inst_count <= CT_MAX_INSTANCES -> (forall i, fresh_inst (c0 i)) -> rtc (step no_error_answer) (c0, []) (c, l) ->
  lview c i k = Some a -> mode_of a <> DRC_LOCK_NULL ->
  exists r rs, lock_view (in_locks (c (lock_master part_master k))) k = Some (r, rs) /\ i ∈ inst_set (mr_granted_map r) /\ i < inst_count /\
    (mode_of a = DRC_LOCK_EXCLUSIVE -> mr_mode r = DRC_LOCK_EXCLUSIVE /\ inst_set (mr_granted_map r) = {[i]} /\
       forall j b, j <> i -> lview c j k = Some b -> mode_of b = DRC_LOCK_NULL).
Proof.
  intros Hn Hc Hsteps Ha Hm. destruct (reachable_inv c0 c l Hn Hc Hsteps) as [gs Hinv].
  pose proof (has_view c gs i k a Ha) as Hi. destruct (v_cover _ _ _ _ _ _ Hinv i k _ Hi Hm) as (r & rs & Hv & Hin & Hx).
  exists r, rs. split_and!; [done | done | by apply (v_master _ _ _ _ _ _ Hinv k r rs Hv) |]. intros E. split_and!; [by apply Hx | |].
  - destruct (lock_view_at _ _ k r rs (v_locks _ _ _ _ _ _ Hinv _) Hv) as [Hli _]. destruct (ki_excl _ _ Hli (Hx E)) as [o Ho].
    pose proof (Ho i Hin) as ->%elem_of_singleton. apply set_eq. intros t. rewrite elem_of_singleton. split; [intros Ht; by apply Ho, elem_of_singleton in Ht | by intros ->].
  - intros j b Hj Hb. destruct (decide (mode_of b = DRC_LOCK_NULL)) as [| Hne]; [done |]. rewrite E in Hi.
    by destruct Hj; rewrite (has_exclusive c gs i j k _ Hinv Hi (has_view c gs j k b Hb) Hne).
Qed.
End thms.

(** ** A cluster of two instances *)

Module DlsDemo.

Definition inst0 : instance_st := mk_inst LocalDemo.lm0 LockDemo.lc0.
Definition c0 : cluster := fun _ => inst0.
Definition masters (_ : Z) : Z := 0.
Definition env : dtc_env := LockDemo.env.
Definition oracle (f : fate) : dls_oracle := mk_oracle env f true CT_SUCCESS CT_SUCCESS 1.
Definition k : drid_t := LockDemo.lk.

Lemma c0_fresh i : fresh_inst (c0 i).
Proof.
  exists LocalDemo.raw_map, LockDemo.raw_catalog, LockDemo.raw_pool, 4, 64, 2, 96, 3, 56.
  split_and!; try reflexivity; try lia; try (unfold block_header_size, CT_INVALID_ID32; lia).
Qed.

(** [n] actions of a session, alone. *)
Definition turn (n : nat) (f : fate) (p : dprog unit) (c : cluster) : dprog unit * cluster :=
  LocalDemo.result (p, c) (run_some n (oracle f) p c).

Lemma turn_steps (ok : dls_oracle -> Prop) client n f p c l1 l2 :
  ok (oracle f) -> rtc (thread_step ok client) (c, l1 ++ p :: l2) ((turn n f p c).2, l1 ++ (turn n f p c).1 :: l2).
Proof.
  intros Ho. unfold turn. destruct (run_some n (oracle f) p c) as [[p' c'] |] eqn:E; [| apply rtc_refl]. by apply (run_some_steps ok client n (oracle f)).
Qed.

Definition section_of (i : Z) : dprog unit := dls_spin_lock 2 masters 20 i 5 k;;~ dls_spin_unlock i k.
Definition locked_at (c : cluster) (i : Z) : option bool := is_locked <$> local_view (in_local (c i)) k.
Definition is_spin (x : drid_t) : bool := bool_decide (x = k).

Lemma section_client i : 0 <= i < 2 -> dls_client 2 masters is_spin (section_of i).
Proof. intros Hi. unfold section_of. apply (cl_spin 2 masters is_spin 20 i 5 k Hi); [vm_compute; discriminate | vm_compute; reflexivity]. Qed.

(** A session that is started and runs [n] actions. *)
Lemma session_steps (ok : dls_oracle -> Prop) client n f p c l :
  ok (oracle f) -> client p -> rtc (thread_step ok client) (c, l) ((turn n f p c).2, (turn n f p c).1 :: l).
Proof. intros Ho Hp. eapply rtc_l; [by apply ts_spawn |]. apply (turn_steps ok client n f p c [] l Ho). Qed.

Lemma answer_ok f : f <> ErrorAnswer -> no_error_answer (oracle f).
Proof. done. Qed.

(** Instance 0 has had the lock; a session of instance 1 is in its critical section. *)
Definition d1 : cluster := (turn 100 Answer (section_of 0) c0).2.
Definition d2 : cluster := (turn 25 Answer (section_of 1) d1).2.

Lemma d2_reachable : exists l, rtc (thread_step no_error_answer (dls_client 2 masters is_spin)) (c0, []) (d2, l).
Proof.
  eexists. etrans; [apply (session_steps _ _ 100 Answer (section_of 0)); [by apply answer_ok | by apply section_client] |].
  apply (session_steps _ _ 25 Answer (section_of 1)); [by apply answer_ok | by apply section_client].
Qed.

Example d2_locked : (locked_at d2 0, locked_at d2 1) = (Some false, Some true).
Proof. vm_compute. reflexivity. Qed.

Lemma locked_view c i v : locked_at c i = Some v -> exists b, local_view (in_local (c i)) k = Some b /\ is_locked b = v.
Proof. unfold locked_at. intros (b & Hb & E)%fmap_Some. exists b. exact (conj Hb (eq_sym E)). Qed.

Lemma dls_spin_exclusive_witness : locked_at d2 1 = Some true /\ locked_at d2 0 <> Some true.
Proof.
  assert (H1 : locked_at d2 1 = Some true) by (vm_compute; reflexivity). split; [exact H1 |]. intros H0.
  destruct (locked_view d2 1 true H1) as (b & Hb & Lb). destruct (locked_view d2 0 true H0) as (a & Ha & La).
  destruct d2_reachable as [l Hl].
  assert (E : 0 = 1) by (apply (dls_spin_exclusive 2 masters is_spin c0 d2 l 0 1 k a b); [discriminate | exact c0_fresh | exact Hl | vm_compute; reflexivity | exact Ha | exact Hb | exact La | exact Lb]).
  discriminate E.
Defined.

(** The lock passes from instance 0, which is not using it, to instance 1. *)
Definition used_at (c : cluster) (i : Z) : option (Z * bool * Z * Z) :=
  (fun b => (ll_lock b, is_locked b, lstat (latch_stat b), lock_mode (latch_stat b))) <$> local_view (in_local (c i)) k.
Definition master_at (c : cluster) : option (Z * Z * Z * nat) :=
  (fun v => (req_inst_id (lock_conv v.1), mr_granted_map v.1, mr_mode v.1, length v.2)) <$> lock_view (in_locks (c 0)) k.

Lemma d1_reachable : exists l, rtc (thread_step no_error_answer (dls_client 2 masters is_spin)) (c0, []) (d1, l).
Proof. eexists. apply (session_steps _ _ 100 Answer (section_of 0)); [by apply answer_ok | by apply section_client]. Qed.

Lemma master_idle c g m : master_at c = Some (CT_INVALID_ID8, g, m, 0%nat) -> idle_master (lock_view (in_locks (c 0)) k) g m.
Proof.
  unfold master_at. intros H. destruct (lock_view (in_locks (c 0)) k) as [[a rs] |]; [| discriminate H]. injection H as E1 E2 E3 E4.
  apply length_zero_iff_nil in E4. exact (conj E4 (conj E1 (conj E2 E3))).
Qed.

Lemma used_unused c i m : used_at c i = Some (0, false, LATCH_STATUS_IDLE, m) -> m <> DRC_LOCK_NULL ->
  forall b, local_view (in_local (c i)) k = Some b -> unused b.
Proof. unfold used_at. intros H Hm b Hb. rewrite Hb in H. injection H as E1 E2 E3 E4. unfold unused. rewrite E4. exact (conj E1 (conj E2 (conj E3 Hm))). Qed.

Lemma d1_idle : master_at d1 = Some (CT_INVALID_ID8, 1, DRC_LOCK_EXCLUSIVE, 0%nat).
Proof. vm_compute. reflexivity. Qed.
Lemma d1_unused : used_at d1 0 = Some (0, false, LATCH_STATUS_IDLE, DRC_LOCK_EXCLUSIVE).
Proof. vm_compute. reflexivity. Qed.
Lemma only_0 : inst_set 1 = {[0]}.
Proof. apply (bool_decide_unpack _). vm_compute. exact I. Qed.
Lemma one_ok : bitmap_ok 1.
Proof. split; [lia | reflexivity]. Qed.
Lemma x_not_null : DRC_LOCK_EXCLUSIVE <> DRC_LOCK_NULL.
Proof. discriminate. Qed.

Lemma available_from c : master_at c = Some (CT_INVALID_ID8, 1, DRC_LOCK_EXCLUSIVE, 0%nat) ->
  used_at c 0 = Some (0, false, LATCH_STATUS_IDLE, DRC_LOCK_EXCLUSIVE) ->
  available 2 1 (fun i => local_view (in_local (c i)) k) (lock_view (in_locks (c 0)) k).
Proof.
  intros Hm Hu. exists 1, DRC_LOCK_EXCLUSIVE. split; [exact (master_idle c _ _ Hm) |]. right. split; [reflexivity |]. split; [exact one_ok |].
  exists 0. split; [exact only_0 |]. split; [discriminate |]. split; [lia |]. exact (used_unused c 0 _ Hu x_not_null).
Qed.

Lemma k_free : DRC_STOP_DLS_REQ_FOR_REFORMING (trigger_version env) env k = false /\
  drc_lock_bucket_and_stat_with_version_check env k (trigger_version env) false = CT_SUCCESS.
Proof. split; vm_compute; reflexivity. Qed.
Lemma k_type : drid_type k <> DR_TYPE_TABLE /\ drid_type k <> DR_TYPE_INVALID.
Proof. split; vm_compute; discriminate. Qed.
Lemma masters_ok x : 0 <= lock_master masters x < CT_MAX_INSTANCES.
Proof. split; [discriminate | reflexivity]. Qed.
Lemma master_there c x : master_at c = Some x -> lock_view (in_locks (c 0)) k = None -> False.
Proof. unfold master_at. intros H E. rewrite E in H. discriminate H. Qed.
Lemma d1_local : in_local (d1 1) = LocalDemo.lm0.
Proof. vm_compute. reflexivity. Qed.

Lemma dls_spin_lock_handed_over_witness :
  exists c', run_alone (oracle Answer) (dls_spin_lock 2 masters 1 1 5 k) d1 = Done (Some (tt, c')) /\
    exists b, local_view (in_local (c' 1)) k = Some b /\ is_locked b = true.
Proof.
  destruct d1_reachable as [l Hl]. destruct (reachable_inv 2 masters is_spin c0 d1 l ltac:(discriminate) c0_fresh Hl) as [gs Hinv].
  destruct (dls_spin_lock_handed_over nothing_held 2 masters k (oracle Answer) 1 (proj1 k_free) (proj2 k_free) eq_refl eq_refl (proj1 k_type) (proj2 k_type)
    ltac:(discriminate) (masters_ok k) ltac:(lia) d1 5 0%nat) as (c' & Hrun & (b & Hb & Hlk & _) & _).
  - intros i. split; [exact (v_local _ _ _ _ _ _ Hinv i) | exact (v_locks _ _ _ _ _ _ Hinv i)].
  - intros _. rewrite d1_local. exact (proj1 (proj2 LocalDemo.lm0_facts)).
  - intros H. destruct (master_there d1 _ d1_idle H).
  - intros b. rewrite d1_local, (proj2 (proj2 LocalDemo.lm0_facts)). discriminate.
  - exact (available_from d1 d1_idle d1_unused).
  - exists c'. split; [exact Hrun |]. exists b. split; [exact Hb | exact Hlk].
Defined.

(** *** A latch *)

Definition kl : drid_t := mk_drid 65538 9 0 0.
Definition stat_at (c : cluster) (i : Z) : option (Z * Z * Z) :=
  (fun b => (lstat (latch_stat b), shared_count (latch_stat b), lock_mode (latch_stat b))) <$> local_view (in_local (c i)) kl.

(** Instance 0 shares the latch and leaves it; instance 1 gets it exclusively. *)
Definition e1 : cluster := (turn 100 Answer (dls_latch_s 2 masters 20 0 5 kl false) c0).2.
Definition e2 : cluster := (turn 100 Answer (dls_unlatch 0 kl) e1).2.
Definition e3 : cluster := (turn 100 Answer (dls_latch_x 2 masters 20 1 5 kl) e2).2.

Lemma kl_s : dls_client 2 masters is_spin (dls_latch_s 2 masters 20 0 5 kl false).
Proof. apply (cl_latch_s 2 masters is_spin 20 0 5 kl); [lia | vm_compute; discriminate | vm_compute; reflexivity]. Qed.
Lemma kl_x i sid : 0 <= i < 2 -> dls_client 2 masters is_spin (dls_latch_x 2 masters 20 i sid kl).
Proof. intros Hi. apply (cl_latch_x 2 masters is_spin 20 i sid kl Hi); [vm_compute; discriminate | vm_compute; reflexivity]. Qed.
Lemma kl_un : dls_client 2 masters is_spin (dls_unlatch 0 kl).
Proof. apply (cl_unlatch 2 masters is_spin 0 kl); [lia | vm_compute; discriminate | vm_compute; reflexivity]. Qed.

Lemma e3_reachable : exists l, rtc (thread_step no_error_answer (dls_client 2 masters is_spin)) (c0, []) (e3, l).
Proof.
  eexists. etrans; [apply (session_steps _ _ 100 Answer (dls_latch_s 2 masters 20 0 5 kl false)); [by apply answer_ok | apply kl_s] |].
  etrans; [apply (session_steps _ _ 100 Answer (dls_unlatch 0 kl)); [by apply answer_ok | apply kl_un] |].
  apply (session_steps _ _ 100 Answer (dls_latch_x 2 masters 20 1 5 kl)); [by apply answer_ok | by apply kl_x].
Qed.

Example e1_shared : stat_at e1 0 = Some (LATCH_STATUS_S, 1, DRC_LOCK_SHARE).
Proof. vm_compute. reflexivity. Qed.
Example e3_exclusive : (stat_at e3 0, stat_at e3 1) = (Some (LATCH_STATUS_IDLE, 0, DRC_LOCK_NULL), Some (LATCH_STATUS_X, 0, DRC_LOCK_EXCLUSIVE)).
Proof. vm_compute. reflexivity. Qed.

Lemma stat_view c i s n m : stat_at c i = Some (s, n, m) ->
  exists b, local_view (in_local (c i)) kl = Some b /\ stat_of b = s /\ count_of b = n /\ mode_of b = m.
Proof. unfold stat_at. intros (b & Hb & E)%fmap_Some. exists b. injection E as -> -> ->. exact (conj Hb (conj eq_refl (conj eq_refl eq_refl))). Qed.

Lemma dls_latch_exclusive_witness : exists a b, local_view (in_local (e3 1)) kl = Some a /\ local_view (in_local (e3 0)) kl = Some b /\
  stat_of a = LATCH_STATUS_X /\ stat_of b <> LATCH_STATUS_S.
Proof.
  assert (H1 : stat_at e3 1 = Some (LATCH_STATUS_X, 0, DRC_LOCK_EXCLUSIVE)) by (vm_compute; reflexivity).
  assert (H0 : stat_at e3 0 = Some (LATCH_STATUS_IDLE, 0, DRC_LOCK_NULL)) by (vm_compute; reflexivity).
  destruct (stat_view _ _ _ _ _ H1) as (a & Ha & Hs & _). destruct (stat_view _ _ _ _ _ H0) as (b & Hb & _). destruct e3_reachable as [l Hl].
  exists a, b. split; [exact Ha |]. split; [exact Hb |]. split; [exact Hs |].
  apply (dls_latch_exclusive 2 masters is_spin c0 e3 l 1 0 kl a b); [discriminate | exact c0_fresh | exact Hl | vm_compute; reflexivity | discriminate | exact Ha | exact Hb | exact Hs].
Defined.

Lemma dls_directory_exact_witness : exists r rs, lock_view (in_locks (e3 0)) kl = Some (r, rs) /\ 1 ∈ inst_set (mr_granted_map r).
Proof.
  assert (H1 : stat_at e3 1 = Some (LATCH_STATUS_X, 0, DRC_LOCK_EXCLUSIVE)) by (vm_compute; reflexivity).
  destruct (stat_view _ _ _ _ _ H1) as (a & Ha & _ & _ & Hm). destruct e3_reachable as [l Hl].
  destruct (dls_directory_exact 2 masters is_spin c0 e3 l 1 kl a) as (r & rs & Hv & Hin & _); [discriminate | exact c0_fresh | exact Hl | exact Ha | rewrite Hm; discriminate |].
  exists r, rs. split; [exact Hv | exact Hin].
Defined.

(** *** An error message in place of an answer *)

(** A session of instance 0, the master, is in its critical section; a session of instance 1 asks. *)
Definition w1 : cluster := (turn 9 Answer (section_of 0) c0).2.
Definition w2 : cluster := (turn 9 ErrorAnswer (section_of 1) w1).2.

(** An error message in place of an answer is read as success: when one arrives, two instances
    are in the critical section of the same spin lock at once. *)
Theorem dls_error_answer_breaks_exclusion :
  exists c l, rtc (thread_step (fun _ => True) (dls_client 2 masters is_spin)) (c0, []) (c, l) /\ locked_at c 0 = Some true /\ locked_at c 1 = Some true.
Proof.
  exists w2. eexists. split; [| split; vm_compute; reflexivity].
  etrans; [apply (session_steps _ _ 9 Answer (section_of 0)); [done | by apply section_client] |].
  apply (session_steps _ _ 9 ErrorAnswer (section_of 1)); [done | by apply section_client].
Qed.

(** *** A forced share *)

(** Instance 0 shares the latch; a second session of it waits for it exclusively; the sharer leaves; instance 1 gets
    the latch exclusively; a third session of instance 0 forces a share. *)
Definition f1 : cluster := (turn 100 Answer (dls_latch_s 2 masters 20 0 5 kl false) c0).2.
Definition f2 : cluster := (turn 7 Answer (dls_latch_x 2 masters 20 0 6 kl) f1).2.
Definition f3 : cluster := (turn 100 Answer (dls_unlatch 0 kl) f2).2.
Definition f4 : cluster := (turn 100 Answer (dls_latch_x 2 masters 20 1 7 kl) f3).2.
Definition f5 : cluster := (turn 100 Answer (dls_latch_s 2 masters 20 0 8 kl true) f4).2.

(** A share that is forced past a waiting exclusive session is not asked for at the master:
    with it, an instance counts a sharer of a latch that another instance has exclusively. *)
Theorem dls_forced_share_breaks_exclusion :
  exists c l, rtc (thread_step no_error_answer (fun p => dls_client 2 masters is_spin p \/ p = dls_latch_s 2 masters 20 0 8 kl true)) (c0, []) (c, l) /\
    stat_at c 0 = Some (LATCH_STATUS_IX, 1, DRC_LOCK_NULL) /\ stat_at c 1 = Some (LATCH_STATUS_X, 0, DRC_LOCK_EXCLUSIVE).
Proof.
  exists f5. eexists. split; [| split; vm_compute; reflexivity].
  etrans; [apply (session_steps _ _ 100 Answer (dls_latch_s 2 masters 20 0 5 kl false)); [by apply answer_ok | left; apply kl_s] |].
  etrans; [apply (session_steps _ _ 7 Answer (dls_latch_x 2 masters 20 0 6 kl)); [by apply answer_ok | left; by apply kl_x] |].
  etrans; [apply (session_steps _ _ 100 Answer (dls_unlatch 0 kl)); [by apply answer_ok | left; apply kl_un] |].
  etrans; [apply (session_steps _ _ 100 Answer (dls_latch_x 2 masters 20 1 7 kl)); [by apply answer_ok | left; by apply kl_x] |].
  apply (session_steps _ _ 100 Answer (dls_latch_s 2 masters 20 0 8 kl true)); [by apply answer_ok | by right].
Qed.
End DlsDemo.
