(* ===== verification/DrcPart.v ===== *)
(** * The partition table and its remastering (dtc_drc.c)

    Every resource belongs to one of [DRC_MAX_PART_NUM] partitions and every
    partition has one master instance.  [part_map] gives the master of each
    partition and links the partitions of an instance into a list;
    [inst_part_tbl] has the head and the length of each instance's list.  When
    instances join or leave, a new table is computed in [target_part_map] and
    [target_inst_part_tbl] together with the set of migration tasks.  This
    file also has the deposit map and the remaster status of the instances.
    Source: src/pkg/src/cluster/dtc_drc.c and dtc_drc.h. *)

From stdpp Require Import prelude list.
From S2P Require Import Prelude GlobalRes DrcTypes.

Open Scope Z_scope.
Open Scope drc_scope.

(** ** Data *)

Definition PART_INIT : Z := 0.
Definition PART_NORMAL : Z := 1.
Definition PART_WAIT_MIGRATE : Z := 2.
Definition PART_MIGRATING : Z := 3.
Definition PART_WAIT_RECOVERY : Z := 4.

Record drc_part := mk_part { pt_inst : Z; pt_status : Z; pt_next : Z }.
Record drc_inst_part := mk_ipart { ip_first : Z; ip_last : Z; ip_count : Z; ip_expected : Z; ip_used : bool }.
Record drc_remaster_task := mk_task { export_inst : Z; import_inst : Z; task_part : Z; task_status : Z }.

Record drc_remaster_mngr := mk_remaster {
  target_part_map : list drc_part;
  target_inst_part_tbl : list drc_inst_part;
  remaster_task_set : list drc_remaster_task;
  task_num : Z;
  tmp_part_map : list drc_part;
  tmp_inst_part_tbl : list drc_inst_part;
}.

Record drc_part_mngr := mk_mngr {
  version : Z;
  pm_inited : bool;
  inst_num : Z;
  pm_remaster_status : drc_remaster_status;
  is_reentrant : bool;
  remaster_inst : Z;
  mgrt_fail_list : bool;
  part_map : list drc_part;
  inst_part_tbl : list drc_inst_part;
  remaster_mngr : drc_remaster_mngr;
}.

Definition set_expected (v : Z) (e : drc_inst_part) : drc_inst_part :=
  mk_ipart (ip_first e) (ip_last e) (ip_count e) v (ip_used e).
Definition set_count (v : Z) (e : drc_inst_part) : drc_inst_part :=
  mk_ipart (ip_first e) (ip_last e) v (ip_expected e) (ip_used e).
Definition set_used (v : bool) (e : drc_inst_part) : drc_inst_part :=
  mk_ipart (ip_first e) (ip_last e) (ip_count e) (ip_expected e) v.
Definition set_first_count (f c : Z) (e : drc_inst_part) : drc_inst_part :=
  mk_ipart f (ip_last e) c (ip_expected e) (ip_used e).

Definition rm_set_tbl (rm : drc_remaster_mngr) (t : list drc_inst_part) : drc_remaster_mngr :=
  mk_remaster (target_part_map rm) t (remaster_task_set rm) (task_num rm) (tmp_part_map rm) (tmp_inst_part_tbl rm).
Definition rm_set_tasks (rm : drc_remaster_mngr) (ts : list drc_remaster_task) (n : Z) : drc_remaster_mngr :=
  mk_remaster (target_part_map rm) (target_inst_part_tbl rm) ts n (tmp_part_map rm) (tmp_inst_part_tbl rm).
Definition pm_set_remaster (m : drc_part_mngr) (rm : drc_remaster_mngr) : drc_part_mngr :=
  mk_mngr (version m) (pm_inited m) (inst_num m) (pm_remaster_status m) (is_reentrant m) (remaster_inst m) (mgrt_fail_list m)
    (part_map m) (inst_part_tbl m) rm.
Definition pm_set_inst_num (m : drc_part_mngr) (n : Z) : drc_part_mngr :=
  mk_mngr (version m) (pm_inited m) n (pm_remaster_status m) (is_reentrant m) (remaster_inst m) (mgrt_fail_list m)
    (part_map m) (inst_part_tbl m) (remaster_mngr m).

(** ** The first table *)

(** One iteration of the assignment loop of [drc_part_init]: partition [i] goes to
    [inst_id], at the end of its list. *)
Definition part_assign (i inst_id : Z) (pm : list drc_part) (tbl : list drc_inst_part)
    : outcome (list drc_part * list drc_inst_part) :=
  a ← arr_get pm i;
  pm ← arr_set pm i (mk_part inst_id PART_INIT (pt_next a));
  e ← arr_get tbl inst_id;
  '(pm, e) ← (if ip_count e =? 0 then Done (pm, mk_ipart (u16 i) (ip_last e) (ip_count e) (ip_expected e) true)
              else b ← arr_get pm (ip_last e);
                   pm ← arr_set pm (ip_last e) (mk_part (pt_inst b) (pt_status b) (u16 i));
                   Done (pm, e));
  tbl ← arr_set tbl inst_id (mk_ipart (ip_first e) (u16 i) (u16 (ip_count e + 1)) (ip_expected e) (ip_used e));
  a ← arr_get pm i;
  pm ← arr_set pm i (mk_part (pt_inst a) (pt_status a) CT_INVALID_ID8);
  Done (pm, tbl).

Fixpoint part_init_loop (n : nat) (i : Z) (ids : list Z) (num : Z) (pm : list drc_part) (tbl : list drc_inst_part)
    : outcome (list drc_part * list drc_inst_part) :=
  match n with
  | O => Done (pm, tbl)
  | S n =>
      inst_id ← arr_get ids (i mod num);
      '(pm, tbl) ← part_assign i inst_id pm tbl;
      part_init_loop n (i + 1) ids num pm tbl
  end.

Definition drc_part_init (inst_id_array : list Z) (num : Z) (m : drc_part_mngr) : outcome drc_part_mngr :=
  if (num =? 0) || pm_inited m then Done m
  else
    '(pm, tbl) ← part_init_loop (Z.to_nat DRC_MAX_PART_NUM) 0 inst_id_array num (part_map m) (inst_part_tbl m);
    let tbl := List.map (fun e => if ip_used e then set_expected (ip_count e) e else e) tbl in
    Done (mk_mngr 1 true num REMASTER_DONE true (remaster_inst m) false pm tbl (remaster_mngr m)).

(** ** Migration tasks *)

(** Take [n] partitions of instance [inst] off the list at [current], linked in
    [pm], as new tasks; the partition after them. *)
Fixpoint export_loop (n : nat) (current inst : Z) (pm : list drc_part) (rm : drc_remaster_mngr)
    : outcome (Z * drc_remaster_mngr) :=
  match n with
  | O => Done (current, rm)
  | S n =>
      t ← arr_get (remaster_task_set rm) (task_num rm);
      ts ← arr_set (remaster_task_set rm) (task_num rm) (mk_task inst (import_inst t) current (task_status t));
      a ← arr_get pm current;
      export_loop n (pt_next a) inst pm (rm_set_tasks rm ts (u32 (task_num rm + 1)))
  end.

Definition drc_set_remaster_taskset_export_inst (i : Z) (rm : drc_remaster_mngr) : outcome drc_remaster_mngr :=
  e ← arr_get (target_inst_part_tbl rm) i;
  if ip_expected e <? ip_count e then
    '(current, rm) ← export_loop (Z.to_nat (ip_count e - ip_expected e)) (ip_first e) i (target_part_map rm) rm;
    tbl ← arr_set (target_inst_part_tbl rm) i (set_first_count current (ip_expected e) e);
    Done (rm_set_tbl rm tbl)
  else Done rm.

Fixpoint taskset_reformer_loop (n : nat) (i reformer : Z) (rm : drc_remaster_mngr) : outcome drc_remaster_mngr :=
  match n with
  | O => Done rm
  | S n =>
      e ← arr_get (target_inst_part_tbl rm) i;
      rm ← (if ip_used e then
              tbl ← arr_set (target_inst_part_tbl rm) i (set_expected (if reformer =? i then DRC_MAX_PART_NUM else 0) e);
              drc_set_remaster_taskset_export_inst i (rm_set_tbl rm tbl)
            else Done rm);
      taskset_reformer_loop n (i + 1) reformer rm
  end.

Definition drc_set_remaster_taskset_drc_in_reformer_mode (m : drc_part_mngr) : outcome drc_part_mngr :=
  rm ← taskset_reformer_loop (Z.to_nat CT_MAX_INSTANCES) 0 (remaster_inst m) (remaster_mngr m);
  Done (pm_set_remaster m rm).

(** The share of the [seq]-th of the used instances. *)
Definition share (avg remain seq : Z) : Z := if seq <? remain then avg + 1 else avg.

Fixpoint taskset_loop (n : nat) (i seq avg remain : Z) (rm : drc_remaster_mngr) : outcome drc_remaster_mngr :=
  match n with
  | O => Done rm
  | S n =>
      e ← arr_get (target_inst_part_tbl rm) i;
      if ip_used e then
        tbl ← arr_set (target_inst_part_tbl rm) i (set_expected (u16 (share avg remain seq)) e);
        rm ← drc_set_remaster_taskset_export_inst i (rm_set_tbl rm tbl);
        taskset_loop n (i + 1) (seq + 1) avg remain rm
      else taskset_loop n (i + 1) seq avg remain rm
  end.

Definition drc_set_remaster_taskset (num : Z) (m : drc_part_mngr) : outcome drc_part_mngr :=
  rm ← taskset_loop (Z.to_nat CT_MAX_INSTANCES) 0 0 (DRC_MAX_PART_NUM / num) (DRC_MAX_PART_NUM mod num) (remaster_mngr m);
  Done (pm_set_remaster m rm).

(** Give the partition of task [i] to instance [inst], at the front of its list. *)
Definition import_task (i inst status : Z) (rm : drc_remaster_mngr) : outcome drc_remaster_mngr :=
  t ← arr_get (remaster_task_set rm) i;
  ts ← arr_set (remaster_task_set rm) i (mk_task (export_inst t) inst (task_part t) status);
  let part_id := task_part t in
  e ← arr_get (target_inst_part_tbl rm) inst;
  pm ← arr_set (target_part_map rm) part_id (mk_part inst status (ip_first e));
  let last := if ip_count e =? 0 then part_id else ip_last e in
  tbl ← arr_set (target_inst_part_tbl rm) inst (mk_ipart part_id last (u16 (ip_count e + 1)) (ip_expected e) (ip_used e));
  Done (mk_remaster pm tbl ts (task_num rm) (tmp_part_map rm) (tmp_inst_part_tbl rm)).

(** ** Instances join *)

(** No new instance is in the table yet. *)
Fixpoint all_new (ids : list Z) (tbl : list drc_inst_part) : outcome unit :=
  match ids with
  | [] => Done tt
  | id :: ids => e ← arr_get tbl id; _ ← knl_panic (negb (ip_used e)); all_new ids tbl
  end.

Fixpoint mark_new (ids : list Z) (tbl : list drc_inst_part) : outcome (list drc_inst_part) :=
  match ids with
  | [] => Done tbl
  | id :: ids => e ← arr_get tbl id; tbl ← arr_set tbl id (set_count 0 (set_used true e)); mark_new ids tbl
  end.

Fixpoint scaleout_import (n : nat) (i loop : Z) (ids : list Z) (rm : drc_remaster_mngr) : outcome drc_remaster_mngr :=
  match n with
  | O => Done rm
  | S n =>
      id ← arr_get ids loop;
      e ← arr_get (target_inst_part_tbl rm) id;
      let loop := if ip_expected e <=? ip_count e then loop + 1 else loop in
      id ← arr_get ids loop;
      rm ← import_task i id PART_WAIT_MIGRATE rm;
      scaleout_import n (i + 1) loop ids rm
  end.

(** [new_id_array] is the whole array of the join list, of which the first
    [new_num] entries are set; [reformer_mode] is the condition on the control
    version and the kernel attribute. *)
Definition drc_scaleout_remaster (reformer_mode : bool) (new_id_array : list Z) (new_num : Z) (m : drc_part_mngr)
    : outcome (status_t * drc_part_mngr) :=
  if new_num =? 0 then Done (CT_SUCCESS, m)
  else
    let news := take (Z.to_nat new_num) new_id_array in
    _ ← all_new news (inst_part_tbl m);
    let num := new_num + inst_num m in
    tbl ← mark_new news (target_inst_part_tbl (remaster_mngr m));
    let m := pm_set_remaster m (rm_set_tbl (remaster_mngr m) tbl) in
    m ← (if negb reformer_mode then drc_set_remaster_taskset num m else drc_set_remaster_taskset_drc_in_reformer_mode m);
    rm ← scaleout_import (Z.to_nat (task_num (remaster_mngr m))) 0 0 new_id_array (remaster_mngr m);
    Done (CT_SUCCESS, pm_set_inst_num (pm_set_remaster m rm) (u8 num)).

(** ** Instances leave *)

Fixpoint all_used (ids : list Z) (tbl : list drc_inst_part) : outcome unit :=
  match ids with
  | [] => Done tt
  | id :: ids => e ← arr_get tbl id; _ ← knl_panic (ip_used e); all_used ids tbl
  end.

Fixpoint mark_deleted (ids : list Z) (tbl : list drc_inst_part) : outcome (list drc_inst_part) :=
  match ids with
  | [] => Done tbl
  | id :: ids => e ← arr_get tbl id; tbl ← arr_set tbl id (set_expected 0 (set_used false e)); mark_deleted ids tbl
  end.

(** Shares for the instances that stay, tasks for the partitions of the others. *)
Fixpoint scalein_export (n : nat) (i seq avg remain : Z) (pm : list drc_part) (rm : drc_remaster_mngr) : outcome drc_remaster_mngr :=
  match n with
  | O => Done rm
  | S n =>
      e ← arr_get (target_inst_part_tbl rm) i;
      if ip_used e then
        tbl ← arr_set (target_inst_part_tbl rm) i (set_expected (u16 (share avg remain seq)) e);
        scalein_export n (i + 1) (seq + 1) avg remain pm (rm_set_tbl rm tbl)
      else if 0 <? ip_count e then
        '(_, rm) ← export_loop (Z.to_nat (ip_count e)) (ip_first e) i pm rm;
        tbl ← arr_set (target_inst_part_tbl rm) i (set_count 0 e);
        scalein_export n (i + 1) seq avg remain pm (rm_set_tbl rm tbl)
      else scalein_export n (i + 1) seq avg remain pm rm
  end.

(** The inner while loop: the next instance with room. *)
Fixpoint find_room (fuel : nat) (loop : Z) (tbl : list drc_inst_part) : outcome Z :=
  match fuel with
  | O => Crash OutOfFuel
  | S fuel =>
      e ← arr_get tbl loop;
      if negb (ip_used e) || (ip_expected e <=? ip_count e) then find_room fuel (loop + 1) tbl else Done loop
  end.

Fixpoint scalein_import (n : nat) (i loop status : Z) (rm : drc_remaster_mngr) : outcome drc_remaster_mngr :=
  match n with
  | O => Done rm
  | S n =>
      loop ← find_room (S (Z.to_nat CT_MAX_INSTANCES)) loop (target_inst_part_tbl rm);
      rm ← import_task i loop status rm;
      scalein_import n (i + 1) loop status rm
  end.

Definition drc_scalein_remaster (delete_id_array : list Z) (delete_num : Z) (is_abort : bool) (m : drc_part_mngr)
    : outcome (status_t * drc_part_mngr) :=
  _ ← knl_panic (negb ((delete_num =? 0) || (inst_num m <=? delete_num)));
  let dels := take (Z.to_nat delete_num) delete_id_array in
  _ ← all_used dels (inst_part_tbl m);
  let num := inst_num m - delete_num in
  let avg := DRC_MAX_PART_NUM / num in
  let remain := DRC_MAX_PART_NUM mod num in
  tbl ← mark_deleted dels (target_inst_part_tbl (remaster_mngr m));
  let rm := rm_set_tbl (remaster_mngr m) tbl in
  let start_task_num := task_num rm in
  rm ← scalein_export (Z.to_nat CT_MAX_INSTANCES) 0 0 avg remain (part_map m) rm;
  let status := if is_abort then PART_WAIT_RECOVERY else PART_WAIT_MIGRATE in
  rm ← scalein_import (Z.to_nat (task_num rm - start_task_num)) start_task_num 0 status rm;
  let rm := if is_abort then rm_set_tasks rm (remaster_task_set rm) start_task_num else rm in
  Done (CT_SUCCESS, pm_set_inst_num (pm_set_remaster m rm) num).

(** ** A reform: from the published table to the target, and back *)

Definition drc_int_remaster_target (m : drc_part_mngr) : drc_part_mngr :=
  pm_set_remaster m (mk_remaster (part_map m) (inst_part_tbl m) (remaster_task_set (remaster_mngr m)) 0 (part_map m) (inst_part_tbl m)).

Inductive reform_list := mk_rlist (inst_id_list : list Z) (inst_id_count : Z).
Definition inst_id_list (l : reform_list) : list Z := let 'mk_rlist l _ := l in l.
Definition inst_id_count (l : reform_list) : Z := let 'mk_rlist _ n := l in n.
Record reform_info := mk_reform {
  rf_master_id : Z;
  rf_after : reform_list;
  rf_join : reform_list;
  rf_leave : reform_list;
  rf_abort : reform_list;
  rf_fail : reform_list;
}.

(** The steps of [drc_execute_remaster] under the table lock. *)
Definition drc_execute_remaster (reformer_mode : bool) (rf : reform_info) (m : drc_part_mngr) : outcome (status_t * drc_part_mngr) :=
  let m := drc_int_remaster_target m in
  '(_, m) ← (if 0 <? inst_id_count (rf_join rf)
             then drc_scaleout_remaster reformer_mode (inst_id_list (rf_join rf)) (inst_id_count (rf_join rf)) m else Done (CT_SUCCESS, m));
  '(_, m) ← (if 0 <? inst_id_count (rf_leave rf)
             then drc_scalein_remaster (inst_id_list (rf_leave rf)) (inst_id_count (rf_leave rf)) false m else Done (CT_SUCCESS, m));
  '(_, m) ← (if mgrt_fail_list m && (0 <? inst_id_count (rf_abort rf))
             then drc_scalein_remaster (inst_id_list (rf_abort rf)) (inst_id_count (rf_abort rf)) true m else Done (CT_SUCCESS, m));
  '(_, m) ← (if mgrt_fail_list m && (0 <? inst_id_count (rf_fail rf))
             then drc_scalein_remaster (inst_id_list (rf_fail rf)) (inst_id_count (rf_fail rf)) true m else Done (CT_SUCCESS, m));
  Done (CT_SUCCESS, m).

(** The copies of the publishing step: the target becomes the table. *)
Definition publish_target (m : drc_part_mngr) : drc_part_mngr :=
  mk_mngr (version m) (pm_inited m) (inst_num m) (pm_remaster_status m) (is_reentrant m) (remaster_inst m) (mgrt_fail_list m)
    (target_part_map (remaster_mngr m)) (target_inst_part_tbl (remaster_mngr m)) (remaster_mngr m).

(** ** Deposit instances *)

(** The map has [CT_MAX_INSTANCES] entries. *)
Definition drc_deposit_map_init : list Z := seqZ 0 CT_MAX_INSTANCES.

Definition drc_get_deposit_id (inst_id : Z) (dm : list Z) : outcome Z :=
  if CT_MAX_INSTANCES <? inst_id then Done CT_INVALID_ID8
  else d ← arr_get dm inst_id; Done (u8 d).

Definition drc_set_deposit_id (inst_id deposit_id : Z) (dm : list Z) : outcome (list Z) := arr_set dm inst_id deposit_id.

Fixpoint set_deposit_ids (ids : list Z) (deposit : Z -> Z) (dm : list Z) : outcome (list Z) :=
  match ids with
  | [] => Done dm
  | id :: ids => dm ← drc_set_deposit_id id (deposit id) dm; set_deposit_ids ids deposit dm
  end.

(** The set entries of a list of the reform. *)
Definition rf_ids (l : reform_list) : list Z := take (Z.to_nat (inst_id_count l)) (inst_id_list l).

Definition drc_remaster_inst_list (rf : reform_info) (dm : list Z) : outcome (list Z) :=
  dm ← set_deposit_ids (rf_ids (rf_leave rf)) (fun _ => rf_master_id rf) dm;
  dm ← set_deposit_ids (rf_ids (rf_abort rf)) (fun _ => rf_master_id rf) dm;
  dm ← set_deposit_ids (rf_ids (rf_join rf)) (fun id => id) dm;
  set_deposit_ids (rf_ids (rf_fail rf)) (fun _ => rf_master_id rf) dm.

Definition drc_onemaster_inst_list (master_id inst_count : Z) (dm : list Z) : outcome (list Z) :=
  set_deposit_ids (seqZ 0 (u8 inst_count)) (fun _ => master_id) dm.

(** ** Remaster status *)

Definition drc_update_remaster_local_status (status : drc_remaster_status) (m : drc_part_mngr) : drc_part_mngr :=
  if decide (pm_remaster_status m <> REMASTER_FAIL) then
    mk_mngr (version m) (pm_inited m) (inst_num m) status
      (if remaster_num REMASTER_PREPARE <? remaster_num status then false else is_reentrant m) (remaster_inst m)
      (if decide (status = REMASTER_DONE) then true else mgrt_fail_list m)
      (part_map m) (inst_part_tbl m) (remaster_mngr m)
  else m.

(** [drm] has the remaster status the master knows of every instance. *)
Definition drc_master_update_inst_remaster_status (inst_id : Z) (status : drc_remaster_status) (drm : list drc_remaster_status)
    : outcome (status_t * list drc_remaster_status) :=
  cur ← arr_get drm inst_id;
  drm ← (if remaster_num cur <? remaster_num status then arr_set drm inst_id status else Done drm);
  Done (CT_SUCCESS, drm).

Fixpoint all_at (ids : list Z) (status : drc_remaster_status) (drm : list drc_remaster_status) : outcome bool :=
  match ids with
  | [] => Done true
  | id :: ids => s ← arr_get drm id; if decide (s <> status) then Done false else all_at ids status drm
  end.

Definition drc_remaster_is_ready (rf : reform_info) (status : drc_remaster_status) (drm : list drc_remaster_status) : outcome bool :=
  after ← all_at (rf_ids (rf_after rf)) status drm;
  if negb after then Done false else all_at (rf_ids (rf_leave rf)) status drm.

Definition REMASTER_SLEEP_INTERVAL : Z := 5.

(** [polls k] is what the [k]-th turn of the loop reads: the instances' statuses
    and the local one. *)
Fixpoint wait_ready_loop (fuel k : nat) (polls : nat -> list drc_remaster_status * drc_remaster_status) (rf : reform_info)
    (elapsed timeout : Z) (status : drc_remaster_status) : outcome status_t :=
  match fuel with
  | O => Crash OutOfFuel
  | S fuel =>
      let '(drm, local) := polls k in
      ready ← drc_remaster_is_ready rf status drm;
      if (ready : bool) then Done CT_SUCCESS
      else if decide (local = REMASTER_FAIL) then Done CT_ERROR
      else if timeout <=? elapsed then Done CT_ERROR
      else wait_ready_loop fuel (S k) polls rf (u64 (elapsed + REMASTER_SLEEP_INTERVAL)) timeout status
  end.

(** Enough turns for the time limit. *)
Definition wait_turns (timeout : Z) : nat := S (S (Z.to_nat (timeout / REMASTER_SLEEP_INTERVAL))).

Definition drc_remaster_wait_all_node_ready (polls : nat -> list drc_remaster_status * drc_remaster_status) (rf : reform_info)
    (timeout : Z) (status : drc_remaster_status) : outcome status_t :=
  wait_ready_loop (wait_turns timeout) 0 polls rf 0 timeout status.
