(* ===== verification/PartProps.v ===== *)
(** * The partition table: lemmas

    [tbl_wf] ties the two halves of a table together: the lists threaded
    through the partition map are, per instance, exactly the partitions the
    map gives to it.  [T] are the partitions taken off the lists as tasks and
    not yet given to their new master.  Source: src/pkg/src/cluster/dtc_drc.c. *)

From stdpp Require Import prelude list.
From S2P Require Import Prelude GlobalRes DrcTypes DrcPart.

Open Scope Z_scope.
Open Scope drc_scope.

(** ** Sums over the instances *)

Fixpoint sumf (f : Z -> Z) (n : nat) (i : Z) : Z :=
  match n with O => 0 | S n => f i + sumf f n (i + 1) end.

Lemma sumf_ext f g n i : (forall j, i <= j < i + Z.of_nat n -> f j = g j) -> sumf f n i = sumf g n i.
Proof.
  revert i. induction n as [| n IH]; intros i H; cbn; [done |]. rewrite (H i) by lia. f_equal. apply IH. intros; apply H; lia.
Qed.

Lemma sumf_snoc f n i : sumf f (S n) i = sumf f n i + f (i + Z.of_nat n).
Proof.
  revert i. induction n as [| n IH]; intros i; [unfold sumf; rewrite Z.add_0_r, Nat2Z.inj_0, Z.add_0_r; lia |].
  change (sumf f (S (S n)) i) with (f i + sumf f (S n) (i + 1)). rewrite IH.
  change (sumf f (S n) i) with (f i + sumf f n (i + 1)). replace (i + 1 + Z.of_nat n) with (i + Z.of_nat (S n)) by lia. lia.
Qed.

Lemma sumf_add f g n i : sumf (fun j => f j + g j) n i = sumf f n i + sumf g n i.
Proof. revert i. induction n as [| n IH]; intros i; cbn; [done |]. rewrite IH. lia. Qed.

Lemma sumf_nonneg f n i : (forall j, i <= j < i + Z.of_nat n -> 0 <= f j) -> 0 <= sumf f n i.
Proof.
  revert i. induction n as [| n IH]; intros i H; cbn; [done |]. pose proof (H i ltac:(lia)).
  assert (0 <= sumf f n (i + 1)) by (apply IH; intros; apply H; lia). lia.
Qed.

Lemma sumf_zero f n i : (forall j, i <= j < i + Z.of_nat n -> 0 <= f j) -> sumf f n i = 0 ->
  forall j, i <= j < i + Z.of_nat n -> f j = 0.
Proof.
  revert i. induction n as [| n IH]; intros i H H0 j Hj; [lia |]. cbn in H0. pose proof (H i ltac:(lia)) as Hi.
  assert (Hr : 0 <= sumf f n (i + 1)) by (apply sumf_nonneg; intros; apply H; lia).
  destruct (decide (j = i)) as [-> |]; [lia |]. apply (IH (i + 1)); [intros; apply H; lia | lia | lia].
Qed.

Lemma sumf_pos f n i : 0 < sumf f n i -> exists j, i <= j < i + Z.of_nat n /\ 0 < f j.
Proof.
  revert i. induction n as [| n IH]; intros i H; cbn in H; [lia |]. destruct (decide (0 < f i)); [exists i; split; [lia | done] |].
  destruct (IH (i + 1)) as (j & Hj & Hp); [lia |]. exists j. split; [lia | done].
Qed.

(** Changing one term changes the sum by the difference. *)
Lemma sumf_change f g n i k :
  i <= k < i + Z.of_nat n -> (forall j, j <> k -> g j = f j) -> sumf g n i = sumf f n i + (g k - f k).
Proof.
  revert i. induction n as [| n IH]; intros i Hk Hg; [lia |]. cbn. destruct (decide (i = k)) as [-> |].
  - rewrite (sumf_ext g f n (k + 1)); [lia |]. intros j Hj. apply Hg. lia.
  - rewrite (IH (i + 1)) by (done || lia). rewrite (Hg i) by done. lia.
Qed.

Lemma length_concat_sumf (own : Z -> list Z) n i :
  Z.of_nat (length (concat (own <$> seqZ i (Z.of_nat n)))) = sumf (fun j => Z.of_nat (length (own j))) n i.
Proof.
  revert i. induction n as [| n IH]; intros i; [done |]. rewrite Nat2Z.inj_succ, seqZ_cons by lia. cbn [fmap list_fmap concat].
  rewrite length_app, Nat2Z.inj_add. cbn [sumf]. f_equal. replace (Z.pred (Z.succ (Z.of_nat n))) with (Z.of_nat n) by lia.
  by rewrite <- IH, Z.add_1_r.
Qed.

(** ** Ranks and shares *)

(** The number of used instances below [i]. *)
Definition rank (u : Z -> bool) (i : Z) : Z := sumf (fun j => if u j then 1 else 0) (Z.to_nat i) 0.

Lemma rank_succ u i : 0 <= i -> rank u (i + 1) = rank u i + (if u i then 1 else 0).
Proof.
  intros Hi. unfold rank. replace (Z.to_nat (i + 1)) with (S (Z.to_nat i)) by lia. rewrite sumf_snoc.
  by replace (0 + Z.of_nat (Z.to_nat i)) with i by lia.
Qed.

Lemma rank_range u i : 0 <= i -> 0 <= rank u i <= i.
Proof.
  intros Hi. replace i with (Z.of_nat (Z.to_nat i)) by lia. induction (Z.to_nat i) as [| n IH]; [done |].
  rewrite Nat2Z.inj_succ, <- Z.add_1_r, rank_succ by lia. destruct (u _); lia.
Qed.

Lemma rank_mono u i j : 0 <= i <= j -> rank u i <= rank u j.
Proof.
  intros Hij. replace j with (i + Z.of_nat (Z.to_nat (j - i))) by lia. induction (Z.to_nat (j - i)) as [| n IH]; [by rewrite Z.add_0_r |].
  rewrite Nat2Z.inj_succ, <- Z.add_1_r, Z.add_assoc, rank_succ by lia. destruct (u _); lia.
Qed.

Lemma rank_sub u v i : 0 <= i -> (forall j, 0 <= j < i -> u j = true -> v j = true) -> rank u i <= rank v i.
Proof.
  intros Hi. replace i with (Z.of_nat (Z.to_nat i)) by lia. induction (Z.to_nat i) as [| n IH]; intros Hu; [done |].
  rewrite Nat2Z.inj_succ, <- Z.add_1_r, !rank_succ by lia.
  assert (rank u (Z.of_nat n) <= rank v (Z.of_nat n)) by (apply IH; intros; apply Hu; [lia | done]). pose proof (Hu (Z.of_nat n) ltac:(lia)) as Hn.
  destruct (u (Z.of_nat n)); [rewrite Hn by done; lia |]. destruct (v _); lia.
Qed.

Abbreviation quota num s := (share (DRC_MAX_PART_NUM / num) (DRC_MAX_PART_NUM mod num) s).

Lemma quota_range num s : 1 <= num <= CT_MAX_INSTANCES -> 0 <= s -> 0 < quota num s <= DRC_MAX_PART_NUM.
Proof.
  unfold share, DRC_MAX_PART_NUM, CT_MAX_INSTANCES. intros Hn Hs.
  assert (1 <= 1024 / num) by (apply Z.div_le_lower_bound; lia).
  pose proof (Z.div_mod 1024 num ltac:(lia)) as He. pose proof (Z.mod_pos_bound 1024 num ltac:(lia)).
  assert (1024 / num <= num * (1024 / num)) by nia. destruct (Z.ltb_spec s (1024 mod num)); lia.
Qed.

(** With more instances nobody's share grows. *)
Lemma quota_anti n n' s s' : 1 <= n <= n' -> 0 <= s <= s' -> quota n' s' <= quota n s.
Proof.
  unfold share, DRC_MAX_PART_NUM. intros Hn Hs.
  pose proof (Z.div_mod 1024 n ltac:(lia)) as He. pose proof (Z.div_mod 1024 n' ltac:(lia)) as He'.
  pose proof (Z.mod_pos_bound 1024 n ltac:(lia)). pose proof (Z.mod_pos_bound 1024 n' ltac:(lia)).
  assert (1024 / n' <= 1024 / n) by (apply Z.div_le_compat_l; lia).
  assert (0 <= 1024 / n) by (apply Z.div_pos; lia).
  assert (1024 / n' = 1024 / n -> 1024 mod n' <= 1024 mod n) by (intros E; rewrite E in He'; nia).
  destruct (Z.ltb_spec s' (1024 mod n')), (Z.ltb_spec s (1024 mod n)); lia.
Qed.

(** The shares of the used instances add up to the number of partitions. *)
Lemma quota_sum u num : rank u CT_MAX_INSTANCES = num -> 1 <= num ->
  sumf (fun j => if u j then quota num (rank u j) else 0) (Z.to_nat CT_MAX_INSTANCES) 0 = DRC_MAX_PART_NUM.
Proof.
  intros Hr Hn. set (q := DRC_MAX_PART_NUM / num). set (r := DRC_MAX_PART_NUM mod num).
  assert (Hsum : forall n, sumf (fun j => if u j then share q r (rank u j) else 0) n 0 =
    q * rank u (Z.of_nat n) + Z.min r (rank u (Z.of_nat n))).
  { induction n as [| n IH]; [change (rank u (Z.of_nat 0)) with 0; cbn; pose proof (Z.mod_pos_bound DRC_MAX_PART_NUM num ltac:(lia)); lia |].
    rewrite sumf_snoc, IH, Nat2Z.inj_succ, <- Z.add_1_r, rank_succ by lia. cbn [Z.add]. rewrite ?Z.add_0_l.
    destruct (u (Z.of_nat n)); [| lia]. unfold share. destruct (Z.ltb_spec (rank u (Z.of_nat n)) r); lia. }
  rewrite Hsum, Z2Nat.id by (unfold CT_MAX_INSTANCES; lia). rewrite Hr.
  pose proof (Z.div_mod DRC_MAX_PART_NUM num ltac:(lia)). pose proof (Z.mod_pos_bound DRC_MAX_PART_NUM num ltac:(lia)). subst q r. lia.
Qed.

(** ** Tables *)

(** [ids] is a prefix of the list of partitions that starts at [hd]. *)
Fixpoint pchain (pm : list drc_part) (hd : Z) (ids : list Z) : Prop :=
  match ids with
  | [] => True
  | p :: ids => hd = p /\ exists a, pm.[p] = Some a /\ pchain pm (pt_next a) ids
  end.

Definition used (tbl : list drc_inst_part) (i : Z) : bool := match tbl.[i] with Some e => ip_used e | None => false end.

Record tbl_wf (pm : list drc_part) (tbl : list drc_inst_part) (own : Z -> list Z) (T : list Z) : Prop := mk_tbl_wf {
  tw_pm : Z.of_nat (length pm) = DRC_MAX_PART_NUM;
  tw_tbl : Z.of_nat (length tbl) = CT_MAX_INSTANCES;
  tw_own : forall i p, p ∈ own i <-> p ∉ T /\ exists a, pm.[p] = Some a /\ pt_inst a = i;
  tw_nodup : forall i, NoDup (own i);
  tw_chain : forall i e, tbl.[i] = Some e -> pchain pm (ip_first e) (own i) /\ ip_count e = Z.of_nat (length (own i));
  tw_inst : forall p a, pm.[p] = Some a -> 0 <= pt_inst a < CT_MAX_INSTANCES;
  tw_T : NoDup T /\ forall p, p ∈ T -> 0 <= p < DRC_MAX_PART_NUM;
}.

Lemma pchain_ext pm pm' hd ids : (forall p, p ∈ ids -> pm'.[p] = pm.[p]) -> pchain pm hd ids -> pchain pm' hd ids.
Proof.
  revert hd. induction ids as [| p ids IH]; intros hd He; [done |]. intros (-> & a & Ha & Hc). split; [done |].
  exists a. rewrite He by set_solver. split; [done |]. apply IH; [| done]. intros q Hq. apply He. set_solver.
Qed.

Section wf.
Context {pm : list drc_part} {tbl : list drc_inst_part} {own : Z -> list Z} {T : list Z}.
Hypothesis Hwf : tbl_wf pm tbl own T.

Lemma tw_part p : 0 <= p < DRC_MAX_PART_NUM -> exists a, pm.[p] = Some a.
Proof. intros Hp. apply lookupZ_is_Some. by rewrite (tw_pm _ _ _ _ Hwf). Qed.

Lemma tw_entry i : 0 <= i < CT_MAX_INSTANCES -> exists e, tbl.[i] = Some e.
Proof. intros Hi. apply lookupZ_is_Some. by rewrite (tw_tbl _ _ _ _ Hwf). Qed.

Lemma tw_own_range i p : p ∈ own i -> 0 <= i < CT_MAX_INSTANCES /\ 0 <= p < DRC_MAX_PART_NUM.
Proof.
  intros (_ & a & Ha & <-)%(tw_own _ _ _ _ Hwf). split; [by eapply tw_inst |]. rewrite <- (tw_pm _ _ _ _ Hwf). by eapply lookupZ_lt.
Qed.

Lemma tw_own_inj i j p : p ∈ own i -> p ∈ own j -> i = j.
Proof. intros (_ & a & Ha & <-)%(tw_own _ _ _ _ Hwf) (_ & b & Hb & <-)%(tw_own _ _ _ _ Hwf). congruence. Qed.

(** Every partition is on exactly one list or is a task. *)
Lemma tw_total : sumf (fun j => Z.of_nat (length (own j))) (Z.to_nat CT_MAX_INSTANCES) 0 + Z.of_nat (length T) = DRC_MAX_PART_NUM.
Proof.
  rewrite <- length_concat_sumf, <- Nat2Z.inj_add, <- length_app. destruct (tw_T _ _ _ _ Hwf) as [HndT HT].
  set (all := concat (own <$> _)).
  assert (Hin : forall p, p ∈ all <-> exists i, 0 <= i < CT_MAX_INSTANCES /\ p ∈ own i).
  { intros p. unfold all. rewrite list_elem_of_In, in_concat. split.
    - intros (l & (i & <- & Hi)%in_map_iff & Hp). rewrite <- list_elem_of_In in Hi, Hp. apply elem_of_seqZ in Hi.
      exists i. split; [unfold CT_MAX_INSTANCES in *; lia | done].
    - intros (i & Hi & Hp). exists (own i). rewrite in_map_iff, <- list_elem_of_In. split; [| done]. exists i. split; [done |].
      rewrite <- list_elem_of_In, elem_of_seqZ. unfold CT_MAX_INSTANCES in *. lia. }
  assert (Hall : all ++ T ≡ₚ seqZ 0 DRC_MAX_PART_NUM).
  { apply NoDup_Permutation.
    - apply NoDup_app. split; [| split; [| done]].
      + unfold all. clear -Hwf. generalize (NoDup_seqZ 0 (Z.of_nat (Z.to_nat CT_MAX_INSTANCES))).
        induction (seqZ 0 _) as [| i l IH]; cbn; [constructor |]. intros [Hi Hl]%NoDup_cons. apply NoDup_app.
        split; [apply (tw_nodup _ _ _ _ Hwf) |]. split; [| by apply IH]. intros p Hp Hc.
        rewrite list_elem_of_In, in_concat in Hc. destruct Hc as (l' & (j & <- & Hj)%in_map_iff & Hq). rewrite <- list_elem_of_In in Hj, Hq.
        rewrite (tw_own_inj _ _ _ Hp Hq) in Hi. done.
      + intros p (i & _ & Hp)%Hin. by apply (tw_own _ _ _ _ Hwf) in Hp as [? _].
    - apply NoDup_seqZ.
    - intros p. rewrite elem_of_app, Hin, elem_of_seqZ. split.
      + intros [(i & _ & Hp%tw_own_range) | Hp%HT]; lia.
      + intros Hp. destruct (decide (p ∈ T)) as [| HpT]; [by right |]. left. destruct (tw_part p) as [a Ha]; [lia |].
        exists (pt_inst a). split; [by eapply tw_inst |]. apply (tw_own _ _ _ _ Hwf). eauto. }
  rewrite (Permutation_length Hall), length_seqZ. done.
Qed.

Lemma tw_own_length i : Z.of_nat (length (own i)) + Z.of_nat (length T) <= DRC_MAX_PART_NUM.
Proof.
  pose proof tw_total as Ht. set (f := fun j => if decide (j = i) then 0 else Z.of_nat (length (own j))).
  assert (Hn : 0 <= sumf f (Z.to_nat CT_MAX_INSTANCES) 0) by (apply sumf_nonneg; intros j _; unfold f; destruct (decide (j = i)); lia).
  destruct (decide (0 <= i < CT_MAX_INSTANCES)) as [Hi | Hi].
  - rewrite (sumf_change f _ _ 0 i) in Ht; [unfold f at 2 in Ht; rewrite decide_True in Ht by done; lia | unfold CT_MAX_INSTANCES in *; lia |].
    intros j Hj. unfold f. by rewrite decide_False.
  - destruct (own i) as [| p l] eqn:E; cbn.
    + assert (0 <= sumf (fun j => Z.of_nat (length (own j))) (Z.to_nat CT_MAX_INSTANCES) 0) by (apply sumf_nonneg; lia). lia.
    + destruct (tw_own_range i p) as [? _]; [rewrite E; set_solver | done].
Qed.

(** Changing fields of an entry that the lists do not depend on. *)
Lemma tw_set_entry i e e' :
  tbl.[i] = Some e -> ip_first e' = ip_first e -> ip_count e' = ip_count e -> tbl_wf pm (tbl.[i <- e']) own T.
Proof.
  intros He Hf Hc. destruct Hwf as [? ? ? ? Hch ? ?]. constructor; try done; [by rewrite length_insertZ |].
  intros j d [[<- <-] | [_ Hd]]%lookupZ_insertZ_Some; [| by apply Hch]. rewrite Hf, Hc. by apply Hch.
Qed.
End wf.

Definition own_set (own : Z -> list Z) (i : Z) (l : list Z) : Z -> list Z := fun j => if decide (j = i) then l else own j.

Lemma own_set_eq own i l : own_set own i l i = l.
Proof. unfold own_set. by rewrite decide_True. Qed.
Lemma own_set_ne own i l j : j <> i -> own_set own i l j = own j.
Proof. intros. unfold own_set. by rewrite decide_False. Qed.

(** ** Taking partitions off a list *)

(** The tasks recorded so far are those of [T], each with its present master as exporter. *)
Definition tasks_are (pm : list drc_part) (ts : list drc_remaster_task) (T : list Z) : Prop :=
  Z.of_nat (length ts) = DRC_MAX_PART_NUM /\
  forall k p, T !! k = Some p -> exists t a, ts.[Z.of_nat k] = Some t /\ task_part t = p /\ pm.[p] = Some a /\ export_inst t = pt_inst a.

Lemma export_loop_spec ids rest cur inst pm0 pm rm T :
  pchain pm0 cur (ids ++ rest) -> (forall p, p ∈ ids -> exists a, pm.[p] = Some a /\ pt_inst a = inst) ->
  tasks_are pm (remaster_task_set rm) T -> task_num rm = Z.of_nat (length T) ->
  Z.of_nat (length T) + Z.of_nat (length ids) <= DRC_MAX_PART_NUM ->
  exists cur' ts, export_loop (length ids) cur inst pm0 rm = Done (cur', rm_set_tasks rm ts (Z.of_nat (length (T ++ ids)))) /\
    pchain pm0 cur' rest /\ tasks_are pm ts (T ++ ids) /\
    forall x, x < Z.of_nat (length T) -> ts.[x] = (remaster_task_set rm).[x].
Proof.
  revert cur rm T. induction ids as [| p ids IH]; intros cur rm T Hc Hin Hts Htn Hlen; cbn [length export_loop].
  - exists cur, (remaster_task_set rm). rewrite app_nil_r. split; [| done]. rewrite <- Htn. by destruct rm.
  - destruct Hc as (-> & a0 & Ha0 & Hc). destruct Hts as [Hl Hts]. cbn [length] in Hlen.
    destruct (lookupZ_is_Some (remaster_task_set rm) (task_num rm)) as [t Ht]; [lia |].
    rewrite (arr_get_eq _ _ _ Ht). ostep. rewrite (arr_set_eq _ _ _ _ Ht). ostep. rewrite (arr_get_eq _ _ _ Ha0). ostep.
    destruct (IH (pt_next a0) (rm_set_tasks rm ((remaster_task_set rm).[task_num rm <- mk_task inst (import_inst t) p (task_status t)]) (u32 (task_num rm + 1)))
      (T ++ [p]) Hc) as (cur' & ts & Hrun & Hc' & Hts' & Hold); cbn.
    + intros q Hq. apply Hin. set_solver.
    + split; [by rewrite length_insertZ |]. intros k q Hk. apply lookup_app_Some in Hk as [Hk | [Hge Hk]].
      * destruct (Hts k q Hk) as (t' & a & Ht' & Hp & Ha & He). exists t', a. rewrite lookupZ_insertZ_ne; [done |].
        apply lookup_lt_Some in Hk. lia.
      * apply list_lookup_singleton_Some in Hk as [Hk <-]. destruct (Hin p) as (a & Ha & <-); [set_solver |].
        eexists _, a. replace (Z.of_nat k) with (task_num rm) by lia. rewrite lookupZ_insertZ_eq by lia. done.
    + rewrite length_app, u32_small; [cbn; lia |]. unfold DRC_MAX_PART_NUM in *. lia.
    + rewrite length_app. cbn. lia.
    + exists cur', ts. rewrite <- (assoc_L (++)) in Hrun, Hts'. split; [exact Hrun |]. split; [done |]. split; [done |].
      intros x Hx. rewrite Hold by (rewrite length_app; lia). apply lookupZ_insertZ_ne. lia.
Qed.

(** Wf after [ids], the front of the list of [i], became tasks. *)
Lemma tw_take pm tbl own T i e ids rest cur :
  tbl_wf pm tbl own T -> tbl.[i] = Some e -> own i = ids ++ rest -> pchain pm cur rest ->
  tbl_wf pm (tbl.[i <- set_first_count cur (Z.of_nat (length rest)) e]) (own_set own i rest) (T ++ ids).
Proof.
  intros Hwf He Hids Hc. pose proof Hwf as [Hl1 Hl2 Ho Hnd Hch Hi [HndT HT]].
  assert (Hd : NoDup (ids ++ rest)) by (rewrite <- Hids; apply Hnd). apply NoDup_app in Hd as (Hd1 & Hd12 & Hd2).
  assert (HidsT : forall p, p ∈ ids -> p ∉ T) by (intros p Hp; assert (Hp' : p ∈ own i) by (rewrite Hids; set_solver); by apply Ho in Hp' as [? _]).
  constructor; try done.
  - by rewrite length_insertZ.
  - intros j p. destruct (decide (j = i)) as [-> | Hne].
    + rewrite own_set_eq, not_elem_of_app. split.
      * intros Hp. assert (Hp' : p ∈ own i) by (rewrite Hids; set_solver). apply Ho in Hp' as [HpT Hex]. split; [| done]. split; [done |].
        intros Hpi. by apply (Hd12 p).
      * intros [[HpT Hpi] Hex]. assert (Hp : p ∈ own i) by (by apply Ho). rewrite Hids in Hp. set_solver.
    + rewrite own_set_ne, not_elem_of_app, Ho by done. split; [| tauto]. intros [HpT Hex]. split; [| done]. split; [done |].
      intros Hpi. destruct Hex as (a & Ha & <-). assert (Hp : p ∈ own i) by (rewrite Hids; set_solver). apply Ho in Hp as (_ & b & Hb & <-). congruence.
  - intros j. destruct (decide (j = i)) as [-> | Hne]; [by rewrite own_set_eq | rewrite own_set_ne by done; apply Hnd].
  - intros j d [[<- <-] | [Hne Hd]]%lookupZ_insertZ_Some; [by rewrite own_set_eq | rewrite own_set_ne by done; by apply Hch].
  - split; [apply NoDup_app; split; [done | split; [| done]]; intros p Hp Hpi; by apply (HidsT p) |].
    intros p [Hp | Hp]%elem_of_app; [by apply HT |]. apply (tw_own_range Hwf i). rewrite Hids. set_solver.
Qed.

(** ** Giving a task's partition to its new master *)

Lemma import_spec k p inst status rm own T t e :
  tbl_wf (target_part_map rm) (target_inst_part_tbl rm) own (p :: T) -> (remaster_task_set rm).[k] = Some t -> task_part t = p ->
  (target_inst_part_tbl rm).[inst] = Some e ->
  exists rm', import_task k inst status rm = Done rm' /\ task_num rm' = task_num rm /\
    remaster_task_set rm' = (remaster_task_set rm).[k <- mk_task (export_inst t) inst p status] /\
    target_part_map rm' = (target_part_map rm).[p <- mk_part inst status (ip_first e)] /\
    (exists l, target_inst_part_tbl rm' = (target_inst_part_tbl rm).[inst <- mk_ipart p l (ip_count e + 1) (ip_expected e) (ip_used e)]) /\
    tbl_wf (target_part_map rm') (target_inst_part_tbl rm') (own_set own inst (p :: own inst)) T.
Proof.
  intros Hwf Ht Hp He. pose proof Hwf as [Hl1 Hl2 Ho Hnd Hch Hi [[HpT HndT]%NoDup_cons HT]].
  destruct (tw_part Hwf p) as [a Ha]; [apply HT; set_solver |]. destruct (Hch inst e He) as [Hci Hcnt].
  pose proof (tw_own_length Hwf inst) as Hlen. pose proof (lookupZ_lt _ _ _ Ha) as Hpr. pose proof (lookupZ_lt _ _ _ He) as Hir.
  unfold import_task. rewrite (arr_get_eq _ _ _ Ht). ostep. rewrite (arr_set_eq _ _ _ _ Ht). ostep. rewrite (arr_get_eq _ _ _ He). ostep.
  rewrite Hp, (arr_set_eq _ _ _ _ Ha). ostep. rewrite (arr_set_eq _ _ _ _ He). ostep.
  rewrite u16_small by (unfold DRC_MAX_PART_NUM in *; lia).
  eexists. split; [done |]. cbn. split; [done |]. split; [done |]. split; [done |]. split; [by eexists |].
  assert (Hpo : forall j, p ∉ own j) by (intros j Hj; apply Ho in Hj as [Hj _]; set_solver).
  assert (Hlk : forall q b, ((target_part_map rm).[p <- mk_part inst status (ip_first e)]).[q] = Some b ->
    (q = p /\ b = mk_part inst status (ip_first e)) \/ (q <> p /\ (target_part_map rm).[q] = Some b)).
  { intros q b [[<- <-] | [Hne Hb]]%lookupZ_insertZ_Some; [by left | right]. split; [congruence | done]. }
  constructor; rewrite ?length_insertZ; try done.
  - intros j q. assert (Hex : forall j, (exists b, ((target_part_map rm).[p <- mk_part inst status (ip_first e)]).[q] = Some b /\ pt_inst b = j) <->
      (q = p /\ j = inst) \/ (q <> p /\ exists b, (target_part_map rm).[q] = Some b /\ pt_inst b = j)).
    { intros j'. split.
      - intros (b & [[-> ->] | [Hne Hb]]%Hlk & Hbi); [left | right]; naive_solver.
      - intros [[-> ->] | (Hne & b & Hb & Hbi)]; [eexists; by rewrite lookupZ_insertZ_eq | exists b]. rewrite lookupZ_insertZ_ne by congruence. done. }
    rewrite Hex. destruct (decide (j = inst)) as [-> | Hne].
    + rewrite own_set_eq, elem_of_cons, Ho. rewrite not_elem_of_cons. destruct (decide (q = p)) as [-> |]; [naive_solver | naive_solver].
    + rewrite own_set_ne, Ho by done. rewrite not_elem_of_cons. naive_solver.
  - intros j. destruct (decide (j = inst)) as [-> | Hne]; [rewrite own_set_eq; constructor; [apply Hpo | apply Hnd] | rewrite own_set_ne by done; apply Hnd].
  - intros j d [[<- <-] | [Hne Hd]]%lookupZ_insertZ_Some.
    + rewrite own_set_eq. cbn. split; [| lia]. split; [done |]. eexists. rewrite lookupZ_insertZ_eq by done. split; [done |]. cbn.
      eapply pchain_ext; [| exact Hci]. intros q Hq. apply lookupZ_insertZ_ne. intros <-. by apply (Hpo inst).
    + rewrite own_set_ne by congruence. destruct (Hch j d Hd) as [Hcj Hcc]. split; [| done].
      eapply pchain_ext; [| exact Hcj]. intros q Hq. apply lookupZ_insertZ_ne. intros <-. by apply (Hpo j).
  - intros q b [[-> ->] | [_ Hb]]%Hlk; cbn; [lia | by eapply Hi].
  - split; [done |]. intros q Hq. apply HT. set_solver.
Qed.

(** ** The tasks of a scale-out *)

Lemma own_set_id own i l : own i = l -> forall j, own_set own i l j = own j.
Proof. intros <- j. unfold own_set. by destruct (decide (j = i)) as [-> |]. Qed.

(** The entry of an instance after some of its partitions became tasks. *)
Lemma export_inst_spec i rm own T e :
  tbl_wf (target_part_map rm) (target_inst_part_tbl rm) own T -> tasks_are (target_part_map rm) (remaster_task_set rm) T ->
  task_num rm = Z.of_nat (length T) -> (target_inst_part_tbl rm).[i] = Some e -> 0 <= ip_expected e ->
  exists rm' e' ids rest, drc_set_remaster_taskset_export_inst i rm = Done rm' /\ own i = ids ++ rest /\
    Z.of_nat (length rest) = Z.min (Z.of_nat (length (own i))) (ip_expected e) /\
    target_part_map rm' = target_part_map rm /\ target_inst_part_tbl rm' = (target_inst_part_tbl rm).[i <- e'] /\
    ip_expected e' = ip_expected e /\ ip_used e' = ip_used e /\
    tbl_wf (target_part_map rm') (target_inst_part_tbl rm') (own_set own i rest) (T ++ ids) /\
    tasks_are (target_part_map rm') (remaster_task_set rm') (T ++ ids) /\ task_num rm' = Z.of_nat (length (T ++ ids)).
Proof.
  intros Hwf Hts Htn He Hex. destruct (tw_chain _ _ _ _ Hwf i e He) as [Hc Hcnt].
  unfold drc_set_remaster_taskset_export_inst. rewrite (arr_get_eq _ _ _ He). ostep.
  destruct (Z.ltb_spec (ip_expected e) (ip_count e)) as [Hlt | Hge].
  - set (n := Z.to_nat (ip_count e - ip_expected e)). set (ids := take n (own i)). set (rest := drop n (own i)).
    assert (Hsplit : own i = ids ++ rest) by (symmetry; apply take_drop).
    assert (Hn : length ids = n) by (unfold ids; rewrite length_take; lia).
    assert (Hr : Z.of_nat (length rest) = ip_expected e) by (unfold rest; rewrite length_drop; lia).
    rewrite Hsplit in Hc. pose proof (tw_own_length Hwf i) as Hlen.
    destruct (export_loop_spec ids rest (ip_first e) i (target_part_map rm) (target_part_map rm) rm T) as (cur & ts & Hrun & Hc' & Hts' & _); try done.
    { intros p Hp. assert (Hp' : p ∈ own i) by (rewrite Hsplit; set_solver). by apply (tw_own _ _ _ _ Hwf) in Hp' as [_ ?]. }
    { unfold ids. rewrite length_take. lia. }
    rewrite Hn in Hrun. rewrite Hrun. ostep. cbn [target_inst_part_tbl rm_set_tasks]. rewrite (arr_set_eq _ _ _ _ He). ostep.
    eexists _, _, ids, rest. split; [done |]. cbn. split; [done |]. split; [rewrite Hr; lia |]. split; [done |]. split; [done |]. split; [done |].
    split; [done |]. split; [| split; [exact Hts' | done]]. rewrite <- Hr. by apply tw_take.
  - exists rm, e, [], (own i). rewrite app_nil_r. split; [done |]. split; [done |]. split; [lia |]. split; [done |].
    split; [by rewrite insertZ_id |]. split; [done |]. split; [done |]. split; [| done].
    pose proof (tw_take _ _ _ _ i e [] (own i) (ip_first e) Hwf He ltac:(done) Hc) as Hw. rewrite app_nil_r, <- Hcnt in Hw.
    replace (set_first_count (ip_first e) (ip_count e) e) with e in Hw by (by destruct e). by rewrite insertZ_id in Hw.
Qed.

Section taskset.
Context (q r : Z) (u : Z -> bool).
Hypothesis Hshare : forall s, 0 <= s -> 0 <= share q r s <= DRC_MAX_PART_NUM.
Abbreviation goal_of j := (share q r (rank u j)).

Lemma taskset_loop_spec n i rm own T :
  0 <= i -> i + Z.of_nat n = CT_MAX_INSTANCES ->
  tbl_wf (target_part_map rm) (target_inst_part_tbl rm) own T -> tasks_are (target_part_map rm) (remaster_task_set rm) T ->
  task_num rm = Z.of_nat (length T) -> (forall j, used (target_inst_part_tbl rm) j = u j) ->
  exists rm' own' T', taskset_loop n i (rank u i) q r rm = Done rm' /\ target_part_map rm' = target_part_map rm /\
    tbl_wf (target_part_map rm') (target_inst_part_tbl rm') own' T' /\ tasks_are (target_part_map rm') (remaster_task_set rm') T' /\
    task_num rm' = Z.of_nat (length T') /\ (forall j, used (target_inst_part_tbl rm') j = u j) /\
    (forall j, j < i \/ u j = false -> (target_inst_part_tbl rm').[j] = (target_inst_part_tbl rm).[j] /\ own' j = own j) /\
    (forall j, i <= j -> u j = true -> Z.of_nat (length (own' j)) = Z.min (Z.of_nat (length (own j))) (goal_of j) /\
       forall e, (target_inst_part_tbl rm').[j] = Some e -> ip_expected e = goal_of j).
Proof.
  revert i rm own T. induction n as [| n IH]; intros i rm own T Hi Hn Hwf Hts Htn Hu; cbn [taskset_loop].
  - exists rm, own, T. split_and!; try done. intros j Hj Huj. exfalso. assert (used (target_inst_part_tbl rm) j = false); [| congruence].
    unfold used. destruct (_.[j]) eqn:E; [| done]. apply lookupZ_lt in E. rewrite (tw_tbl _ _ _ _ Hwf) in E. lia.
  - destruct (tw_entry Hwf i) as [e He]; [lia |]. rewrite (arr_get_eq _ _ _ He). ostep.
    assert (Hue : ip_used e = u i) by (rewrite <- Hu; unfold used; by rewrite He). rewrite Hue.
    pose proof (rank_range u i Hi) as Hrk. pose proof (rank_succ u i Hi) as Hrs. pose proof (lookupZ_lt _ _ _ He) as Hir.
    destruct (u i) eqn:Hui.
    2: { destruct (IH (i + 1) rm own T) as (rm' & own' & T' & Hrun & Hpm & Hwf' & Hts' & Htn' & Hu' & Hlow & Hhi); try done; [lia | lia |].
         rewrite Z.add_0_r in Hrs. rewrite Hrs in Hrun. exists rm', own', T'. split_and!; try done.
         - intros j Hj. apply Hlow. destruct Hj; [left; lia | by right].
         - intros j Hj Huj. apply Hhi; [| done]. destruct (decide (j = i)) as [-> |]; [congruence | lia]. }
    rewrite (arr_set_eq _ _ _ _ He). ostep. rewrite u16_small.
    2: { pose proof (Hshare (rank u i) ltac:(lia)). unfold DRC_MAX_PART_NUM in *. lia. }
    set (e1 := set_expected (goal_of i) e). set (rm1 := rm_set_tbl rm _).
    destruct (export_inst_spec i rm1 own T e1) as (rm2 & e2 & ids & rest & Hrun2 & Hsp & Hrest & Hpm2 & Htbl2 & Hexp2 & Hus2 & Hwf2 & Hts2 & Htn2).
    { by apply (tw_set_entry Hwf i e). } { done. } { done. } { by apply lookupZ_insertZ_eq. } { cbn. pose proof (Hshare (rank u i) ltac:(lia)). lia. }
    rewrite Hrun2. ostep. cbn in Htbl2. rewrite insertZ_insertZ in Htbl2. rewrite <- Hrs.
    assert (Hin : forall j, j <> i -> (target_inst_part_tbl rm2).[j] = (target_inst_part_tbl rm).[j]).
    { intros j Hj. rewrite Htbl2. by apply lookupZ_insertZ_ne. }
    assert (Hii : (target_inst_part_tbl rm2).[i] = Some e2) by (rewrite Htbl2; by apply lookupZ_insertZ_eq).
    destruct (IH (i + 1) rm2 (own_set own i rest) (T ++ ids)) as (rm' & own' & T' & Hrun & Hpm & Hwf' & Hts' & Htn' & Hu' & Hlow & Hhi); try done; [lia | lia | |].
    { intros j. destruct (decide (j = i)) as [-> | Hj]; [| rewrite <- Hu; unfold used; by rewrite Hin].
      unfold used. rewrite Hii, Hus2. cbn. congruence. }
    exists rm', own', T'. split_and!; try done.
    + by rewrite Hpm, Hpm2.
    + intros j Hj. assert (j <> i) by (intros ->; destruct Hj; [lia | congruence]).
      destruct (Hlow j) as [-> ->]; [destruct Hj; [left; lia | by right] |]. rewrite own_set_ne by done. by rewrite Hin.
    + intros j Hj Huj. destruct (decide (j = i)) as [-> | Hne].
      * destruct (Hlow i) as [Ht Ho]; [left; lia |]. rewrite Ho, own_set_eq. split; [exact Hrest |].
        intros e' He'. rewrite Ht, Hii in He'. injection He' as <-. exact Hexp2.
      * destruct (Hhi j) as [Hl Hx]; [lia | done |]. rewrite own_set_ne in Hl by done. done.
Qed.
End taskset.

(** ** Giving the tasks to their new masters *)

(** The tasks from number [k] on are those of [T]. *)
Definition tasks_at (ts : list drc_remaster_task) (k : Z) (T : list Z) : Prop :=
  forall x p, T !! x = Some p -> exists t, ts.[k + Z.of_nat x] = Some t /\ task_part t = p.

(** Between [rm] and [rm'] exactly the partitions [T] moved, each as its task
    says, to an instance of [S]. *)
Record moved (rm rm' : drc_remaster_mngr) (k : Z) (T : list Z) (S : Z -> Prop) : Prop := mk_moved {
  mv_pm : forall p, p ∉ T -> (target_part_map rm').[p] = (target_part_map rm).[p];
  mv_ts : forall j, j < k \/ k + Z.of_nat (length T) <= j -> (remaster_task_set rm').[j] = (remaster_task_set rm).[j];
  mv_task : forall x p, T !! x = Some p -> exists t t' a, (remaster_task_set rm).[k + Z.of_nat x] = Some t /\
    (remaster_task_set rm').[k + Z.of_nat x] = Some t' /\ task_part t' = p /\ export_inst t' = export_inst t /\
    (target_part_map rm').[p] = Some a /\ pt_inst a = import_inst t' /\ S (import_inst t');
  mv_num : task_num rm' = task_num rm;
  mv_len : length (remaster_task_set rm') = length (remaster_task_set rm);
}.

Lemma moved_nil rm k S : moved rm rm k [] S.
Proof. constructor; done. Qed.

Lemma moved_cons rm rm1 rm' k p T (S : Z -> Prop) t inst status f :
  0 <= k -> p ∉ T -> (remaster_task_set rm).[k] = Some t -> is_Some ((target_part_map rm).[p]) -> S inst ->
  remaster_task_set rm1 = (remaster_task_set rm).[k <- mk_task (export_inst t) inst p status] ->
  target_part_map rm1 = (target_part_map rm).[p <- mk_part inst status f] -> task_num rm1 = task_num rm ->
  moved rm1 rm' (k + 1) T S -> moved rm rm' k (p :: T) S.
Proof.
  intros Hk HpT Ht [a Ha] HS Hts1 Hpm1 Hn1 [Hpm Hts Htask Hnum Hlen]. pose proof (lookupZ_lt _ _ _ Ht). pose proof (lookupZ_lt _ _ _ Ha).
  constructor.
  - intros q [Hne Hq]%not_elem_of_cons. rewrite Hpm, Hpm1 by done. by apply lookupZ_insertZ_ne.
  - intros j Hj. cbn [length] in Hj. rewrite Hts, Hts1 by lia. apply lookupZ_insertZ_ne. lia.
  - intros [| x] q Hq; cbn in Hq.
    + injection Hq as <-. rewrite Z.add_0_r. eexists t, _, _. split; [done |]. rewrite Hts by lia. rewrite Hts1, lookupZ_insertZ_eq by done.
      split; [done |]. rewrite Hpm, Hpm1, lookupZ_insertZ_eq by done. done.
    + replace (k + Z.of_nat (Datatypes.S x)) with (k + 1 + Z.of_nat x) by lia. destruct (Htask x q Hq) as (t1 & t' & a' & H1 & Hrest).
      exists t1, t', a'. split; [| done]. rewrite <- H1, Hts1. symmetry. apply lookupZ_insertZ_ne. lia.
  - by rewrite Hnum.
  - by rewrite Hlen, Hts1, length_insertZ.
Qed.

(** The first task of a run: where it is, and what is left. *)
Lemma tasks_at_cons ts k p T : tasks_at ts k (p :: T) ->
  (exists t, ts.[k] = Some t /\ task_part t = p) /\ tasks_at ts (k + 1) T.
Proof.
  intros H. split; [specialize (H O p eq_refl); by rewrite Z.add_0_r in H |]. intros x q Hx. specialize (H (S x) q Hx).
  by replace (k + 1 + Z.of_nat x) with (k + Z.of_nat (S x)) by lia.
Qed.

Lemma tasks_at_put ts k j T t : tasks_at ts k T -> j < k -> tasks_at (ts.[j <- t]) k T.
Proof. intros H Hj x p Hx. rewrite lookupZ_insertZ_ne by lia. by apply H. Qed.

Definition room (tbl : list drc_inst_part) (j : Z) : Z :=
  match tbl.[j] with Some e => if ip_used e then ip_expected e - ip_count e else 0 | None => 0 end.

(** Import of the first task by an instance with room. *)
Lemma import_step k p T inst status rm own e :
  0 <= k -> tbl_wf (target_part_map rm) (target_inst_part_tbl rm) own (p :: T) -> tasks_at (remaster_task_set rm) k (p :: T) ->
  (target_inst_part_tbl rm).[inst] = Some e ->
  exists rm1 e1, import_task k inst status rm = Done rm1 /\
    tbl_wf (target_part_map rm1) (target_inst_part_tbl rm1) (own_set own inst (p :: own inst)) T /\
    tasks_at (remaster_task_set rm1) (k + 1) T /\
    (target_inst_part_tbl rm1).[inst] = Some e1 /\ ip_count e1 = ip_count e + 1 /\ ip_expected e1 = ip_expected e /\ ip_used e1 = ip_used e /\
    (forall j, j <> inst -> (target_inst_part_tbl rm1).[j] = (target_inst_part_tbl rm).[j]) /\
    forall rm' (S : Z -> Prop), S inst -> moved rm1 rm' (k + 1) T S -> moved rm rm' k (p :: T) S.
Proof.
  intros Hk Hwf Hat He. destruct (tasks_at_cons _ _ _ _ Hat) as [(t & Ht & Htp) Hat'].
  destruct (import_spec k p inst status rm own T t e Hwf Ht Htp He) as (rm1 & Hrun & Hn & Hts & Hpm & (l & Htbl) & Hwf1).
  pose proof (lookupZ_lt _ _ _ He). destruct (tw_T _ _ _ _ Hwf) as [[HpT _]%NoDup_cons HT].
  eexists rm1, _. split; [done |]. split; [done |]. split; [rewrite Hts; apply tasks_at_put; [done | lia] |].
  split; [rewrite Htbl; by apply lookupZ_insertZ_eq |]. split; [done |]. split; [done |]. split; [done |]. split.
  - intros j Hj. rewrite Htbl. by apply lookupZ_insertZ_ne.
  - intros rm' S HS. apply (moved_cons rm rm1 rm' k p T S t inst status (ip_first e)); try done.
    destruct (tw_part Hwf p) as [a Ha]; [apply HT; set_solver | by exists a].
Qed.

(** *** Joining instances take the tasks in turn *)

Definition expects (tbl : list drc_inst_part) (l : list Z) : Z :=
  foldr (fun d s => match tbl.[d] with Some e => ip_expected e | None => 0 end + s) 0 l.

Lemma expects_ext tbl tbl' l : (forall d, d ∈ l -> tbl'.[d] = tbl.[d]) -> expects tbl' l = expects tbl l.
Proof.
  unfold expects. induction l as [| d l IH]; intros H; cbn; [done |]. rewrite (H d) by set_solver. rewrite IH; [done |]. intros c Hc. apply H. set_solver.
Qed.

Definition fresh_entry (tbl : list drc_inst_part) (d : Z) : Prop :=
  exists e, tbl.[d] = Some e /\ ip_count e = 0 /\ 0 < ip_expected e.

Lemma expects_nonneg tbl l : Forall (fresh_entry tbl) l -> 0 <= expects tbl l /\ (expects tbl l = 0 -> l = []).
Proof.
  unfold expects. induction 1 as [| d l (e & He & _ & Hpos) _ [IH1 IH2]]; cbn; [done |]. rewrite He. split; [lia |]. intros. lia.
Qed.

(** [e'] is [e] filled up. *)
Definition filled (e e' : drc_inst_part) : Prop :=
  ip_count e' = ip_expected e /\ ip_expected e' = ip_expected e /\ ip_used e' = ip_used e.

Lemma scaleout_import_spec arr T : forall k pre id suf rest rm own e,
  arr = pre ++ id :: suf ++ rest -> NoDup (id :: suf) -> 0 <= k ->
  tbl_wf (target_part_map rm) (target_inst_part_tbl rm) own T -> tasks_at (remaster_task_set rm) k T ->
  (target_inst_part_tbl rm).[id] = Some e -> ip_count e <= ip_expected e -> Forall (fresh_entry (target_inst_part_tbl rm)) suf ->
  Z.of_nat (length T) = ip_expected e - ip_count e + expects (target_inst_part_tbl rm) suf ->
  exists rm' own', scaleout_import (length T) k (Z.of_nat (length pre)) arr rm = Done rm' /\
    tbl_wf (target_part_map rm') (target_inst_part_tbl rm') own' [] /\ moved rm rm' k T (fun j => j ∈ id :: suf) /\
    (forall j, j ∉ id :: suf -> (target_inst_part_tbl rm').[j] = (target_inst_part_tbl rm).[j]) /\
    (forall j d, j ∈ id :: suf -> (target_inst_part_tbl rm).[j] = Some d -> exists d', (target_inst_part_tbl rm').[j] = Some d' /\ filled d d').
Proof.
  induction T as [| p T IH]; intros k pre id suf rest rm own e Harr Hnd Hk Hwf Hat He Hle Hsuf Hlen; cbn [length scaleout_import].
  { destruct (expects_nonneg _ _ Hsuf) as [Hn Hnil]. cbn in Hlen. assert (suf = []) as -> by (apply Hnil; lia).
    exists rm, own. split; [done |]. split; [done |]. split; [apply moved_nil |]. split; [done |].
    intros j d ->%list_elem_of_singleton Hd. exists d. split; [done |]. assert (d = e) as -> by congruence. cbn in Hlen. split; [lia | done]. }
  assert (Hget : forall (pre : list Z) x l, arr = pre ++ x :: l -> arr_get arr (Z.of_nat (length pre)) = Done x).
  { intros pre0 x l ->. apply arr_get_eq, lookupZ_Some. split; [lia |]. rewrite Nat2Z.id. by apply list_lookup_middle. }
  rewrite (Hget pre id (suf ++ rest) Harr). ostep. rewrite (arr_get_eq _ _ _ He). ostep.
  apply NoDup_cons in Hnd as Hnd'. destruct Hnd' as [Hid Hnds]. destruct (Z.leb_spec (ip_expected e) (ip_count e)) as [Hfull | Hroom].
  - destruct suf as [| id2 suf]; [cbn in Hlen; lia |]. apply Forall_cons in Hsuf as [(e2 & He2 & Hc2 & Hx2) Hsuf].
    replace (Z.of_nat (length pre) + 1) with (Z.of_nat (length (pre ++ [id]))) by (rewrite length_app; cbn; lia).
    assert (Harr' : arr = (pre ++ [id]) ++ id2 :: suf ++ rest) by (rewrite Harr; by rewrite <- (assoc_L (++))).
    rewrite (Hget _ _ _ Harr'). ostep.
    destruct (import_step k p T id2 PART_WAIT_MIGRATE rm own e2 Hk Hwf Hat He2) as (rm1 & e1 & -> & Hwf1 & Hat1 & He1 & Hc1 & Hx1 & Hu1 & Hoth & Hmv). ostep.
    apply NoDup_cons in Hnds as Hnds'. destruct Hnds' as [Hid2 _].
    assert (Hsame : forall d, d ∈ suf -> (target_inst_part_tbl rm1).[d] = (target_inst_part_tbl rm).[d]) by (intros d Hd; apply Hoth; intros ->; done).
    destruct (IH (k + 1) (pre ++ [id]) id2 suf rest rm1 _ e1 Harr' Hnds ltac:(lia) Hwf1 Hat1 He1) as (rm' & own' & -> & Hwf' & Hmv' & Hout & Hin).
    { lia. }
    { eapply Forall_impl; [apply Forall_and; split; [exact Hsuf | apply Forall_forall; exact Hsame] |].
      intros d [(ed & Hed & Hrest) Hd]. exists ed. by rewrite Hd. }
    { rewrite (expects_ext _ _ _ Hsame). cbn [length expects foldr] in Hlen. rewrite He2 in Hlen. fold (expects (target_inst_part_tbl rm) suf) in Hlen. lia. }
    exists rm', own'. split; [done |]. split; [done |]. split.
    { apply Hmv; [set_solver |]. destruct Hmv' as [? ? Htask ? ?]. constructor; try done. intros x q' Hq. destruct (Htask x q' Hq) as (t & t' & a & ? & ? & ? & ? & ? & ? & HS).
      exists t, t', a. split_and!; try done. set_solver. }
    split.
    { intros j [Hj1 Hj2]%not_elem_of_cons. rewrite Hout by done. apply Hoth. intros ->. set_solver. }
    intros j d Hj Hd. destruct (decide (j = id)) as [-> | Hne].
    + assert (d = e) as -> by congruence. exists e. rewrite Hout by done. rewrite Hoth by (intros ->; set_solver). split; [done |]. split; [lia | done].
    + destruct (decide (j = id2)) as [-> | Hne2].
      * assert (d = e2) as -> by congruence. destruct (Hin id2 e1) as (d' & Hd' & Hf1 & Hf2 & Hf3); [set_solver | done |]. exists d'. split; [done |]. unfold filled. split_and!; congruence.
      * apply Hin; [set_solver |]. by rewrite Hoth.
  - rewrite (Hget _ _ _ Harr). ostep.
    destruct (import_step k p T id PART_WAIT_MIGRATE rm own e Hk Hwf Hat He) as (rm1 & e1 & -> & Hwf1 & Hat1 & He1 & Hc1 & Hx1 & Hu1 & Hoth & Hmv). ostep.
    assert (Hsame : forall d, d ∈ suf -> (target_inst_part_tbl rm1).[d] = (target_inst_part_tbl rm).[d]) by (intros d Hd; apply Hoth; intros ->; done).
    destruct (IH (k + 1) pre id suf rest rm1 _ e1 Harr Hnd ltac:(lia) Hwf1 Hat1 He1) as (rm' & own' & -> & Hwf' & Hmv' & Hout & Hin).
    { lia. }
    { eapply Forall_impl; [apply Forall_and; split; [exact Hsuf | apply Forall_forall; exact Hsame] |].
      intros d [(ed & Hed & Hrest) Hd]. exists ed. by rewrite Hd. }
    { rewrite (expects_ext _ _ _ Hsame). cbn [length] in Hlen. lia. }
    exists rm', own'. split; [done |]. split; [done |]. split; [apply Hmv; [set_solver | done] |]. split.
    { intros j Hj. rewrite Hout by done. apply Hoth. intros ->. set_solver. }
    intros j d Hj Hd. destruct (decide (j = id)) as [-> | Hne].
    + assert (d = e) as -> by congruence. destruct (Hin id e1) as (d' & Hd' & Hf1 & Hf2 & Hf3); [set_solver | done |]. exists d'. split; [done |]. unfold filled. split_and!; congruence.
    + apply Hin; [done |]. by rewrite Hoth.
Qed.

(** *** Staying instances take the tasks wherever there is room *)

Lemma room_nonzero tbl j : room tbl j <> 0 -> 0 <= j < Z.of_nat (length tbl).
Proof. unfold room. destruct (tbl.[j]) eqn:E; [| done]. intros _. by eapply lookupZ_lt. Qed.

Lemma find_room_spec fuel loop tbl j :
  0 <= loop <= j -> 0 < room tbl j -> (Z.to_nat (j - loop) < fuel)%nat ->
  exists i e, find_room fuel loop tbl = Done i /\ loop <= i <= j /\ tbl.[i] = Some e /\ 0 < room tbl i /\
    forall k, loop <= k < i -> room tbl k <= 0.
Proof.
  revert loop. induction fuel as [| fuel IH]; intros loop Hl Hj Hf; [lia |]. cbn [find_room].
  assert (Hjr : 0 <= j < Z.of_nat (length tbl)) by (apply room_nonzero; lia).
  destruct (lookupZ_is_Some tbl loop) as [e He]; [lia |]. rewrite (arr_get_eq _ _ _ He). ostep.
  assert (Hr : room tbl loop = if ip_used e then ip_expected e - ip_count e else 0) by (unfold room; by rewrite He).
  destruct (negb (ip_used e) || (ip_expected e <=? ip_count e)) eqn:Hb.
  - assert (Hz : room tbl loop <= 0). { rewrite Hr. destruct (ip_used e); [| done]. cbn in Hb. apply Z.leb_le in Hb. lia. }
    destruct (IH (loop + 1)) as (i & e' & Hrun & Hi & He' & Hri & Hlow); [| done | |].
    { destruct (decide (loop = j)) as [-> |]; lia. }
    { destruct (decide (loop = j)) as [-> |]; lia. }
    exists i, e'. split_and!; try done; try lia. intros k Hk. destruct (decide (k = loop)) as [-> |]; [done | apply Hlow; lia].
  - apply orb_false_iff in Hb as [Hu%negb_false_iff Hlt%Z.leb_gt]. exists loop, e. rewrite Hr, Hu. split_and!; try done; try lia.
Qed.

Lemma scalein_import_spec status T : forall k loop rm own,
  0 <= k -> 0 <= loop -> tbl_wf (target_part_map rm) (target_inst_part_tbl rm) own T -> tasks_at (remaster_task_set rm) k T ->
  (forall j, 0 <= room (target_inst_part_tbl rm) j) -> (forall j, j < loop -> room (target_inst_part_tbl rm) j = 0) ->
  sumf (room (target_inst_part_tbl rm)) (Z.to_nat CT_MAX_INSTANCES) 0 = Z.of_nat (length T) ->
  exists rm' own', scalein_import (length T) k loop status rm = Done rm' /\
    tbl_wf (target_part_map rm') (target_inst_part_tbl rm') own' [] /\
    moved rm rm' k T (fun j => used (target_inst_part_tbl rm) j = true) /\
    (forall j e, (target_inst_part_tbl rm).[j] = Some e -> exists e', (target_inst_part_tbl rm').[j] = Some e' /\
       if ip_used e then filled e e' else e' = e).
Proof.
  induction T as [| p T IH]; intros k loop rm own Hk Hloop Hwf Hat Hroom Hlow Hsum; cbn [length scalein_import].
  { exists rm, own. split; [done |]. split; [done |]. split; [apply moved_nil |]. intros j e He. exists e. split; [done |].
    destruct (ip_used e) eqn:Hu; [| done]. pose proof (lookupZ_lt _ _ _ He) as Hj. rewrite (tw_tbl _ _ _ _ Hwf) in Hj.
    assert (Hz : room (target_inst_part_tbl rm) j = 0).
    { apply (sumf_zero _ (Z.to_nat CT_MAX_INSTANCES) 0); [intros; apply Hroom | done | unfold CT_MAX_INSTANCES in *; lia]. }
    unfold room in Hz. rewrite He, Hu in Hz. split; [lia | done]. }
  set (tbl := target_inst_part_tbl rm) in *. cbn [length] in Hsum.
  assert (Hex : exists j, loop <= j /\ 0 < room tbl j).
  { destruct (sumf_pos (room tbl) (Z.to_nat CT_MAX_INSTANCES) 0) as (j & _ & Hj); [lia |]. exists j. split; [| done].
    destruct (decide (j < loop)) as [Hlt%Hlow |]; lia. }
  destruct Hex as (j & Hj & Hjr). assert (Hjb : 0 <= j < CT_MAX_INSTANCES) by (rewrite <- (tw_tbl _ _ _ _ Hwf); apply room_nonzero; unfold tbl in *; lia).
  destruct (find_room_spec (S (Z.to_nat CT_MAX_INSTANCES)) loop tbl j) as (i & e & Hrun & Hi & He & Hir & Hbtw); [lia | done | unfold CT_MAX_INSTANCES in *; lia |].
  rewrite Hrun. ostep. destruct (import_step k p T i status rm own e Hk Hwf Hat He) as (rm1 & e1 & -> & Hwf1 & Hat1 & He1 & Hc1 & Hx1 & Hu1 & Hoth & Hmv). ostep.
  assert (Hroom1 : forall j, room (target_inst_part_tbl rm1) j = if decide (j = i) then room tbl i - 1 else room tbl j).
  { intros j'. case_decide as Hd; [subst j' | unfold room; by rewrite Hoth]. unfold room in *. rewrite He in Hir |- *. rewrite He1, Hu1, Hc1, Hx1.
    destruct (ip_used e); lia. }
  destruct (IH (k + 1) i rm1 (own_set own i (p :: own i))) as (rm' & own' & -> & Hwf' & Hmv' & Hall); [lia | lia | done | done | | | |].
  { intros j'. rewrite Hroom1. case_decide; [lia | apply Hroom]. }
  { intros j' Hj'. rewrite Hroom1, decide_False by lia. destruct (decide (j' < loop)); [by apply Hlow |]. pose proof (Hroom j'). pose proof (Hbtw j'). lia. }
  { rewrite (sumf_change (room tbl) _ _ 0 i); [rewrite Hroom1, decide_True by done; lia | unfold CT_MAX_INSTANCES in *; lia |].
    intros j' Hj'. by rewrite Hroom1, decide_False. }
  assert (Hused : forall j, used (target_inst_part_tbl rm1) j = used tbl j).
  { intros j'. unfold used. destruct (decide (j' = i)) as [-> | Hne]; [by rewrite He1, He | by rewrite Hoth]. }
  exists rm', own'. split; [done |]. split; [done |]. split.
  { apply Hmv; [unfold used; rewrite He; unfold room in Hir; rewrite He in Hir; by destruct (ip_used e) |].
    destruct Hmv' as [? ? Htask ? ?]. constructor; try done. intros x q Hq. destruct (Htask x q Hq) as (t & t' & a & ? & ? & ? & ? & ? & ? & HS).
    exists t, t', a. rewrite <- Hused. done. }
  intros j' d Hd. destruct (decide (j' = i)) as [-> | Hne].
  - assert (d = e) as -> by congruence. destruct (Hall i e1 He1) as (e' & He' & Hf). exists e'. split; [done |]. rewrite Hu1 in Hf.
    unfold room in Hir. rewrite He in Hir. destruct (ip_used e) eqn:Hue; [| lia]. destruct Hf as (? & ? & ?). unfold filled. split_and!; congruence.
  - apply Hall. by rewrite Hoth.
Qed.

(** *** The tasks of a scale-in *)

Definition set_share (q r : Z) (u : Z -> bool) (j : Z) (e : drc_inst_part) : drc_inst_part :=
  if u j then set_expected (share q r (rank u j)) e else set_count 0 e.

Section scalein.
Context (q r : Z) (u : Z -> bool) (pm0 : list drc_part).
Hypothesis Hshare : forall s, 0 <= s -> 0 <= share q r s <= DRC_MAX_PART_NUM.

(** The partitions of the instances that leave are linked in [pm0], the table
    before the reform. *)
Lemma scalein_export_spec n i rm own T :
  0 <= i -> i + Z.of_nat n = CT_MAX_INSTANCES ->
  tbl_wf (target_part_map rm) (target_inst_part_tbl rm) own T -> tasks_are (target_part_map rm) (remaster_task_set rm) T ->
  task_num rm = Z.of_nat (length T) -> (forall j, used (target_inst_part_tbl rm) j = u j) ->
  (forall j e, (target_inst_part_tbl rm).[j] = Some e -> u j = false -> pchain pm0 (ip_first e) (own j)) ->
  exists rm' own' T', scalein_export n i (rank u i) q r pm0 rm = Done rm' /\ target_part_map rm' = target_part_map rm /\
    tbl_wf (target_part_map rm') (target_inst_part_tbl rm') own' (T ++ T') /\ tasks_are (target_part_map rm') (remaster_task_set rm') (T ++ T') /\
    task_num rm' = Z.of_nat (length (T ++ T')) /\
    (forall j, own' j = if (i <=? j) && negb (u j) then [] else own j) /\
    (forall j e, (target_inst_part_tbl rm).[j] = Some e -> (target_inst_part_tbl rm').[j] = Some (if i <=? j then set_share q r u j e else e)) /\
    (forall x t, x < Z.of_nat (length T) -> (remaster_task_set rm).[x] = Some t -> (remaster_task_set rm').[x] = Some t).
Proof.
  revert i rm own T. induction n as [| n IH]; intros i rm own T Hi Hn Hwf Hts Htn Hu Hch; cbn [scalein_export].
  { exists rm, own, []. rewrite app_nil_r. split_and!; try done.
    - intros j. destruct (Z.leb_spec i j) as [Hj |]; [| done]. destruct (own j) as [| p l] eqn:E; [by destruct (_ && _) |].
      destruct (tw_own_range Hwf j p) as [? _]; [rewrite E; set_solver | lia].
    - intros j e He. pose proof (lookupZ_lt _ _ _ He) as Hj. rewrite (tw_tbl _ _ _ _ Hwf) in Hj.
      destruct (Z.leb_spec i j); [lia | done]. }
  destruct (tw_entry Hwf i) as [e He]; [lia |]. rewrite (arr_get_eq _ _ _ He). ostep.
  assert (Hue : ip_used e = u i) by (rewrite <- Hu; unfold used; by rewrite He). rewrite Hue.
  pose proof (rank_range u i Hi) as Hrk. pose proof (rank_succ u i Hi) as Hrs. pose proof (lookupZ_lt _ _ _ He) as Hir.
  destruct (tw_chain _ _ _ _ Hwf i e He) as [Hc Hcnt].
  (** One more instance is done: entry [i] became [set_share q r u i e]. *)
  assert (Hstep : forall rm1 own1 T1 e1,
    target_part_map rm1 = target_part_map rm -> target_inst_part_tbl rm1 = (target_inst_part_tbl rm).[i <- e1] -> ip_used e1 = u i ->
    e1 = set_share q r u i e -> own1 i = (if u i then own i else []) -> (forall j, j <> i -> own1 j = own j) ->
    tbl_wf (target_part_map rm1) (target_inst_part_tbl rm1) own1 (T ++ T1) -> tasks_are (target_part_map rm1) (remaster_task_set rm1) (T ++ T1) ->
    task_num rm1 = Z.of_nat (length (T ++ T1)) ->
    (forall x t, x < Z.of_nat (length T) -> (remaster_task_set rm).[x] = Some t -> (remaster_task_set rm1).[x] = Some t) ->
    exists rm' own' T', scalein_export n (i + 1) (rank u (i + 1)) q r pm0 rm1 = Done rm' /\ target_part_map rm' = target_part_map rm /\
      tbl_wf (target_part_map rm') (target_inst_part_tbl rm') own' (T ++ T') /\ tasks_are (target_part_map rm') (remaster_task_set rm') (T ++ T') /\
      task_num rm' = Z.of_nat (length (T ++ T')) /\
      (forall j, own' j = if (i <=? j) && negb (u j) then [] else own j) /\
      (forall j e, (target_inst_part_tbl rm).[j] = Some e -> (target_inst_part_tbl rm').[j] = Some (if i <=? j then set_share q r u j e else e)) /\
      (forall x t, x < Z.of_nat (length T) -> (remaster_task_set rm).[x] = Some t -> (remaster_task_set rm').[x] = Some t)).
  { intros rm1 own1 T1 e1 Hpm1 Htbl1 Hu1 He1 Howi Hown Hwf1 Hts1 Htn1 Hold.
    assert (Hii : (target_inst_part_tbl rm1).[i] = Some e1) by (rewrite Htbl1; by apply lookupZ_insertZ_eq).
    assert (Hij : forall j, j <> i -> (target_inst_part_tbl rm1).[j] = (target_inst_part_tbl rm).[j]) by (intros j Hj; rewrite Htbl1; by apply lookupZ_insertZ_ne).
    destruct (IH (i + 1) rm1 own1 (T ++ T1)) as (rm' & own' & T' & Hrun & Hpm' & Hwf' & Hts' & Htn' & Hown' & Htbl' & Hold'); try done; [lia | lia | | |].
    { intros j. destruct (decide (j = i)) as [-> | Hj]; [unfold used; by rewrite Hii | rewrite <- Hu; unfold used; by rewrite Hij]. }
    { intros j d Hd Huj. destruct (decide (j = i)) as [-> | Hj]; [by rewrite Howi, Huj |]. rewrite Hown by done. apply Hch; [by rewrite <- Hij | done]. }
    exists rm', own', (T1 ++ T'). rewrite (assoc_L (++)). split_and!; try done.
    - by rewrite Hpm'.
    - intros j. rewrite Hown'. destruct (decide (j = i)) as [-> | Hj].
      + rewrite Howi, Z.leb_refl. destruct (Z.leb_spec (i + 1) i); [lia |]. cbn. by destruct (u i).
      + rewrite Hown by done. destruct (Z.leb_spec (i + 1) j), (Z.leb_spec i j); try lia; done.
    - intros j d Hd. destruct (decide (j = i)) as [-> | Hj].
      + rewrite (Htbl' i e1 Hii). destruct (Z.leb_spec (i + 1) i); [lia |]. rewrite Z.leb_refl. congruence.
      + rewrite (Htbl' j d) by (by rewrite Hij). destruct (Z.leb_spec (i + 1) j), (Z.leb_spec i j); try lia; done.
    - intros x t Hx Ht. apply Hold'; [rewrite length_app; lia |]. by apply Hold. }
  destruct (u i) eqn:Hui.
  - rewrite (arr_set_eq _ _ _ _ He). ostep. rewrite u16_small by (pose proof (Hshare (rank u i) ltac:(lia)); unfold DRC_MAX_PART_NUM in *; lia).
    rewrite <- Hrs. apply (Hstep _ own [] (set_expected (share q r (rank u i)) e)); try done.
    + unfold set_share. by rewrite Hui.
    + rewrite app_nil_r. by apply (tw_set_entry Hwf i e).
    + by rewrite app_nil_r.
    + by rewrite app_nil_r.
  - rewrite Z.add_0_r in Hrs. destruct (Z.ltb_spec 0 (ip_count e)) as [Hpos | Hzero].
    + destruct (export_loop_spec (own i) [] (ip_first e) i pm0 (target_part_map rm) rm T) as (cur & ts & Hrun & _ & Hts' & Hold); try done.
      { rewrite app_nil_r. by apply Hch. }
      { intros p Hp. by apply (tw_own _ _ _ _ Hwf) in Hp as [_ ?]. }
      { pose proof (tw_own_length Hwf i). lia. }
      replace (Z.to_nat (ip_count e)) with (length (own i)) by lia. rewrite Hrun. ostep. cbn [target_inst_part_tbl rm_set_tasks].
      rewrite (arr_set_eq _ _ _ _ He). ostep. rewrite <- Hrs.
      apply (Hstep _ (own_set own i []) (own i) (set_count 0 e)); try done.
      * unfold set_share. by rewrite Hui.
      * apply own_set_eq.
      * intros j Hj. by apply own_set_ne.
      * apply (tw_take _ _ _ _ i e (own i) [] (ip_first e) Hwf He); [by rewrite app_nil_r | done].
      * intros x t Hx Ht. cbn. by rewrite Hold.
    + assert (Hnil : own i = []) by (destruct (own i); [done | cbn in Hcnt; lia]).
      assert (Hid : set_count 0 e = e) by (unfold set_count; rewrite Hnil in Hcnt; change 0 with (Z.of_nat (length (@nil Z))); rewrite <- Hcnt; by destruct e).
      rewrite <- Hrs. apply (Hstep rm own [] e); try done; rewrite ?app_nil_r; try done.
      * by rewrite insertZ_id.
      * unfold set_share. by rewrite Hui.
Qed.
End scalein.
