(* ===== verification/PartThms.v ===== *)
(** * The partition table: properties of a reform

    [table_ok] is what a partition table promises the rest of the system:
    every partition has one master, which is a live instance, the lists of the
    instances say the same as the map, and the load is balanced.  Joining and
    leaving instances keep it, and move no partition that need not move.
    Source: src/pkg/src/cluster/dtc_drc.c. *)

From stdpp Require Import prelude list.
From S2P Require Import Prelude GlobalRes DrcTypes DrcPart PartProps.

Open Scope Z_scope.
Open Scope drc_scope.

(** ** The promise *)

Record balanced (tbl : list drc_inst_part) (num : Z) : Prop := mk_balanced {
  ba_num : rank (used tbl) CT_MAX_INSTANCES = num;
  ba_some : 1 <= num;
  ba_count : forall j e, tbl.[j] = Some e -> ip_count e = if ip_used e then quota num (rank (used tbl) j) else 0;
}.

Definition table_ok (pm : list drc_part) (tbl : list drc_inst_part) (num : Z) : Prop :=
  (exists own, tbl_wf pm tbl own []) /\ balanced tbl num.

(** The partitions [T] were given to instances of [S], each as the task of the
    same number says, and no other partition changed. *)
Record reassigned (pm pm' : list drc_part) (ts : list drc_remaster_task) (T : list Z) (S : Z -> Prop) : Prop := mk_reassigned {
  ra_rest : forall p, p ∉ T -> pm'.[p] = pm.[p];
  ra_task : forall x p, T !! x = Some p -> exists t a a', ts.[Z.of_nat x] = Some t /\ task_part t = p /\
    pm.[p] = Some a /\ export_inst t = pt_inst a /\ pm'.[p] = Some a' /\ import_inst t = pt_inst a' /\ S (import_inst t);
}.

Lemma moved_reassigned pm rm rm' T S :
  target_part_map rm = pm -> tasks_are pm (remaster_task_set rm) T -> moved rm rm' 0 T S ->
  reassigned pm (target_part_map rm') (remaster_task_set rm') T S.
Proof.
  intros Hpm [_ Hts] Hmv. constructor; [rewrite <- Hpm; apply Hmv |]. intros x p Hx.
  destruct (Hts x p Hx) as (t0 & a & Ht0 & _ & Ha & Hexp). destruct (mv_task _ _ _ _ _ Hmv x p Hx) as (t & t' & a' & Ht & Ht' & Htp & Hexp' & Ha' & Hi & HS).
  rewrite Z.add_0_l in Ht, Ht'. exists t', a, a'. split_and!; try done. congruence.
Qed.

(** ** Sums over a set of instances *)

Lemma sumf_indicator g (l : list Z) n i : NoDup l -> (forall d, d ∈ l -> i <= d < i + Z.of_nat n) ->
  sumf (fun j => if decide (j ∈ l) then g j else 0) n i = foldr (fun d s => g d + s) 0 l.
Proof.
  induction l as [| d l IH]; intros Hnd Hr.
  - cbn. clear. revert i. induction n as [| n IHn]; intros i; cbn [sumf]; [done |]. rewrite decide_False by set_solver. by rewrite IHn.
  - apply NoDup_cons in Hnd as [Hd Hnd]. cbn. rewrite <- IH; [| done | intros; apply Hr; set_solver].
    rewrite (sumf_change (fun j => if decide (j ∈ l) then g j else 0) _ n i d).
    + rewrite (decide_True (P := d ∈ d :: l)), (decide_False (P := d ∈ l)) by set_solver. lia.
    + apply Hr. set_solver.
    + intros j Hj. destruct (decide (j ∈ l)) as [Hjl | Hjl]; [rewrite decide_True by set_solver | rewrite decide_False by set_solver]; done.
Qed.

Lemma foldr_const (l : list Z) : foldr (fun _ s => 1 + s) 0 l = Z.of_nat (length l).
Proof. induction l as [| d l IH]; cbn [foldr length]; lia. Qed.

Lemma rank_ext u v i : 0 <= i -> (forall j, 0 <= j < i -> u j = v j) -> rank u i = rank v i.
Proof. intros Hi H. apply sumf_ext. intros j Hj. rewrite H; [done | lia]. Qed.

(** Adding a list of new instances raises the number of used ones by its length. *)
Lemma rank_add u v (l : list Z) : NoDup l -> (forall d, d ∈ l -> 0 <= d < CT_MAX_INSTANCES /\ u d = false) ->
  (forall j, 0 <= j < CT_MAX_INSTANCES -> v j = u j || bool_decide (j ∈ l)) ->
  rank v CT_MAX_INSTANCES = rank u CT_MAX_INSTANCES + Z.of_nat (length l).
Proof.
  intros Hnd Hl Hv. unfold rank. rewrite <- foldr_const, <- (sumf_indicator (fun _ => 1) l (Z.to_nat CT_MAX_INSTANCES) 0 Hnd), <- sumf_add.
  2: { intros d Hd. destruct (Hl d Hd) as [? _]. unfold CT_MAX_INSTANCES in *. lia. }
  apply sumf_ext. intros j Hj. rewrite Hv by (unfold CT_MAX_INSTANCES in *; lia).
  case_bool_decide as Hd; [rewrite decide_True by done | rewrite decide_False by done]; [destruct (Hl j Hd) as [_ ->]; done |].
  rewrite orb_false_r. destruct (u j); lia.
Qed.

(** ** Marking entries *)

Lemma all_new_ok l tbl : (forall d, d ∈ l -> 0 <= d < Z.of_nat (length tbl) /\ used tbl d = false) -> all_new l tbl = Done tt.
Proof.
  induction l as [| d l IH]; intros H; cbn [all_new]; [done |]. destruct (H d) as [Hd Hu]; [set_solver |].
  destruct (lookupZ_is_Some tbl d Hd) as [e He]. rewrite (arr_get_eq _ _ _ He). ostep. unfold used in Hu. rewrite He in Hu. rewrite Hu. cbn [negb knl_panic].
  ostep. apply IH. intros; apply H; set_solver.
Qed.

Lemma all_used_ok l tbl : (forall d, d ∈ l -> used tbl d = true) -> all_used l tbl = Done tt.
Proof.
  induction l as [| d l IH]; intros H; cbn [all_used]; [done |]. pose proof (H d ltac:(set_solver)) as Hu. unfold used in Hu.
  destruct (tbl.[d]) as [e |] eqn:He; [| done]. rewrite (arr_get_eq _ _ _ He). ostep. rewrite Hu. cbn [knl_panic]. ostep. apply IH. intros; apply H; set_solver.
Qed.

(** Both markings are a map over the listed entries. *)
Definition marks (f : drc_inst_part -> drc_inst_part) (l : list Z) (tbl tbl' : list drc_inst_part) : Prop :=
  length tbl' = length tbl /\ forall j e, tbl.[j] = Some e -> tbl'.[j] = Some (if decide (j ∈ l) then f e else e).

Lemma marks_step (f : drc_inst_part -> drc_inst_part) (run : list Z -> list drc_inst_part -> outcome (list drc_inst_part)) :
  (forall tbl, run [] tbl = Done tbl) ->
  (forall d l tbl, run (d :: l) tbl = (e ← arr_get tbl d; tbl ← arr_set tbl d (f e); run l tbl)) ->
  forall l tbl, NoDup l -> (forall d, d ∈ l -> 0 <= d < Z.of_nat (length tbl)) -> exists tbl', run l tbl = Done tbl' /\ marks f l tbl tbl'.
Proof.
  intros Hnil Hcons. induction l as [| d l IH]; intros tbl Hnd Hr.
  - exists tbl. split; [apply Hnil |]. split; [done |]. intros j e He. by rewrite decide_False by set_solver.
  - apply NoDup_cons in Hnd as [Hd Hnd]. destruct (lookupZ_is_Some tbl d) as [e He]; [apply Hr; set_solver |].
    rewrite Hcons, (arr_get_eq _ _ _ He). ostep. rewrite (arr_set_eq _ _ _ _ He). ostep. pose proof (lookupZ_lt _ _ _ He) as Hdl.
    destruct (IH (tbl.[d <- f e]) Hnd) as (tbl' & -> & Hlen & Hm); [intros c Hc; rewrite length_insertZ; apply Hr; set_solver |].
    exists tbl'. split; [done |]. split; [by rewrite Hlen, length_insertZ |]. intros j c Hc. destruct (decide (j = d)) as [-> | Hne].
    + rewrite (Hm d (f e)) by (by apply lookupZ_insertZ_eq). rewrite decide_False by done. rewrite decide_True by set_solver. congruence.
    + rewrite (Hm j c) by (by rewrite lookupZ_insertZ_ne). destruct (decide (j ∈ l)); [rewrite decide_True by set_solver | rewrite decide_False by set_solver]; done.
Qed.

Lemma mark_new_ok l tbl : NoDup l -> (forall d, d ∈ l -> 0 <= d < Z.of_nat (length tbl)) ->
  exists tbl', mark_new l tbl = Done tbl' /\ marks (fun e => set_count 0 (set_used true e)) l tbl tbl'.
Proof. apply (marks_step _ mark_new); done. Qed.

Lemma mark_deleted_ok l tbl : NoDup l -> (forall d, d ∈ l -> 0 <= d < Z.of_nat (length tbl)) ->
  exists tbl', mark_deleted l tbl = Done tbl' /\ marks (fun e => set_expected 0 (set_used false e)) l tbl tbl'.
Proof. apply (marks_step _ mark_deleted); done. Qed.

(** Entries [j] with the same head and count as before carry the same lists. *)
Lemma tw_marks pm tbl tbl' own T f l :
  tbl_wf pm tbl own T -> marks f l tbl tbl' -> (forall j e, j ∈ l -> tbl.[j] = Some e -> ip_first (f e) = ip_first e /\ ip_count (f e) = ip_count e) ->
  tbl_wf pm tbl' own T.
Proof.
  intros [? Hl ? ? Hch ? ?] [Hlen Hm] Hf. constructor; try done; [by rewrite Hlen |].
  intros j e' He'. destruct (lookupZ_is_Some tbl j) as [e He]; [rewrite <- Hlen; by eapply lookupZ_lt |].
  rewrite (Hm j e He) in He'. injection He' as <-. destruct (decide (j ∈ l)) as [Hj |]; [| by apply Hch].
  destruct (Hf j e Hj He) as [-> ->]. by apply Hch.
Qed.

Lemma marks_used f l tbl tbl' (b : bool) :
  marks f l tbl tbl' -> (forall e, ip_used (f e) = b) -> (forall d, d ∈ l -> 0 <= d < Z.of_nat (length tbl)) ->
  forall j, used tbl' j = if decide (j ∈ l) then b else used tbl j.
Proof.
  intros [Hlen Hm] Hf Hr j. unfold used. destruct (tbl.[j]) as [e |] eqn:He.
  - rewrite (Hm j e He). destruct (decide (j ∈ l)); [apply Hf | done].
  - destruct (tbl'.[j]) as [e' |] eqn:He'.
    + destruct (lookupZ_is_Some tbl j) as [e He2]; [rewrite <- Hlen; by eapply lookupZ_lt | congruence].
    + destruct (decide (j ∈ l)) as [Hj |]; [| done]. destruct (lookupZ_is_Some tbl j (Hr j Hj)). congruence.
Qed.

(** ** Instances join *)

Lemma table_num_range pm tbl own T num : tbl_wf pm tbl own T -> balanced tbl num -> 1 <= num <= CT_MAX_INSTANCES.
Proof. intros _ [<- ? _]. split; [done |]. apply rank_range. done. Qed.

Lemma quota_bounds num : 1 <= num <= CT_MAX_INSTANCES -> forall s, 0 <= s -> 0 <= quota num s <= DRC_MAX_PART_NUM.
Proof. intros Hn s Hs. pose proof (quota_range num s Hn Hs). lia. Qed.

(** An instance that is not in use has no partitions. *)
Lemma own_unused pm tbl own num j : tbl_wf pm tbl own [] -> balanced tbl num -> used tbl j = false -> own j = [].
Proof.
  intros Hwf Hba Hu. destruct (own j) as [| p l] eqn:E; [done |]. destruct (tw_own_range Hwf j p) as [Hj _]; [rewrite E; set_solver |].
  destruct (tw_entry Hwf j Hj) as [e He]. pose proof (ba_count _ _ Hba j e He) as Hc. unfold used in Hu. rewrite He in Hu. rewrite Hu in Hc.
  destruct (tw_chain _ _ _ _ Hwf j e He) as [_ Hc']. rewrite E in Hc'. cbn in Hc'. lia.
Qed.

Lemma own_count pm tbl own num j : tbl_wf pm tbl own [] -> balanced tbl num -> used tbl j = true ->
  Z.of_nat (length (own j)) = quota num (rank (used tbl) j).
Proof.
  intros Hwf Hba Hu. pose proof Hu as Hu'. unfold used in Hu'. destruct (tbl.[j]) as [e |] eqn:He; [| done].
  destruct (tw_chain _ _ _ _ Hwf j e He) as [_ <-]. rewrite (ba_count _ _ Hba j e He), Hu'. done.
Qed.

(** The tasks cut so far are exactly what the new instances expect. *)
Lemma scaleout_demand num u pm tbl own T news :
  1 <= num -> rank u CT_MAX_INSTANCES = num -> tbl_wf pm tbl own T -> NoDup news ->
  (forall d, d ∈ news -> 0 <= d < CT_MAX_INSTANCES /\ u d = true) ->
  (forall j, u j = true -> j ∉ news -> Z.of_nat (length (own j)) = quota num (rank u j)) ->
  (forall j, u j = false \/ j ∈ news -> own j = []) ->
  (forall d e, d ∈ news -> tbl.[d] = Some e -> ip_expected e = quota num (rank u d)) ->
  Z.of_nat (length T) = expects tbl news.
Proof.
  intros Hn Hr Hwf Hnd Hnews Hold Hnone Hexp. pose proof (tw_total Hwf) as Ht. pose proof (quota_sum u num Hr Hn) as Hq.
  assert (He : expects tbl news = foldr (fun d s => quota num (rank u d) + s) 0 news).
  { unfold expects. clear Hnd Hold Hnone. induction news as [| d l IH]; cbn [foldr]; [done |]. rewrite IH; [| intros; apply Hnews; set_solver | intros c e Hc; apply Hexp; set_solver].
    destruct (tw_entry Hwf d) as [e He]; [apply Hnews; set_solver |]. rewrite He, (Hexp d e) by (done || set_solver). done. }
  rewrite He, <- (sumf_indicator (fun d => quota num (rank u d)) news (Z.to_nat CT_MAX_INSTANCES) 0 Hnd).
  2: { intros d Hd. destruct (Hnews d Hd) as [? _]. unfold CT_MAX_INSTANCES in *. lia. }
  assert (Hsum : sumf (fun j => if u j then quota num (rank u j) else 0) (Z.to_nat CT_MAX_INSTANCES) 0 =
    sumf (fun j => Z.of_nat (length (own j))) (Z.to_nat CT_MAX_INSTANCES) 0 +
    sumf (fun j => if decide (j ∈ news) then quota num (rank u j) else 0) (Z.to_nat CT_MAX_INSTANCES) 0); [| lia].
  rewrite <- sumf_add. apply sumf_ext. intros j _. destruct (decide (j ∈ news)) as [Hj | Hj].
  - rewrite (Hnone j (or_intror Hj)). destruct (Hnews j Hj) as [_ ->]. done.
  - destruct (u j) eqn:Hu; [rewrite (Hold j Hu Hj); lia | rewrite (Hnone j (or_introl Hu)); done].
Qed.

Definition can_join (tbl : list drc_inst_part) (news : list Z) : Prop :=
  news <> [] /\ NoDup news /\ forall d, d ∈ news -> 0 <= d < CT_MAX_INSTANCES /\ used tbl d = false.

Lemma scaleout_spec m arr news :
  table_ok (part_map m) (inst_part_tbl m) (inst_num m) -> Z.of_nat (length (remaster_task_set (remaster_mngr m))) = DRC_MAX_PART_NUM ->
  can_join (inst_part_tbl m) news -> news `prefix_of` arr ->
  exists m' T, drc_scaleout_remaster false arr (Z.of_nat (length news)) (drc_int_remaster_target m) = Done (CT_SUCCESS, m') /\
    table_ok (target_part_map (remaster_mngr m')) (target_inst_part_tbl (remaster_mngr m')) (inst_num m') /\
    inst_num m' = inst_num m + Z.of_nat (length news) /\ task_num (remaster_mngr m') = Z.of_nat (length T) /\
    (forall j, used (target_inst_part_tbl (remaster_mngr m')) j = used (inst_part_tbl m) j || bool_decide (j ∈ news)) /\
    reassigned (part_map m) (target_part_map (remaster_mngr m')) (remaster_task_set (remaster_mngr m')) T (fun d => d ∈ news) /\
    mgrt_fail_list m' = mgrt_fail_list m /\ length (remaster_task_set (remaster_mngr m')) = length (remaster_task_set (remaster_mngr m)).
Proof.
  intros [[own Hwf] Hba] Hlts (Hne & Hnd & Hnews) [rest Harr]. pose proof (table_num_range _ _ _ _ _ Hwf Hba) as Hnr.
  set (tbl := inst_part_tbl m) in *. set (num := inst_num m) in *. set (k := Z.of_nat (length news)).
  assert (Htake : take (Z.to_nat k) arr = news) by (unfold k; by rewrite Nat2Z.id, Harr, take_app_length).
  assert (Hk : 0 < k) by (destruct news; [done | unfold k; cbn; lia]).
  assert (Hrng : forall d, d ∈ news -> 0 <= d < Z.of_nat (length tbl)) by (intros d Hd; rewrite (tw_tbl _ _ _ _ Hwf); by apply Hnews).
  destruct (mark_new_ok news tbl Hnd Hrng) as (tbl1 & Hmark & Hmk). pose proof (marks_used _ _ _ _ true Hmk ltac:(done) Hrng) as Hu1.
  set (u := used tbl1) in *. set (num' := k + num).
  assert (Hu : forall j, u j = used tbl j || bool_decide (j ∈ news)).
  { intros j. rewrite Hu1. destruct (decide (j ∈ news)); [rewrite bool_decide_eq_true_2 by done; by rewrite orb_true_r | rewrite bool_decide_eq_false_2 by done; by rewrite orb_false_r]. }
  assert (Hrk : rank u CT_MAX_INSTANCES = num').
  { rewrite (rank_add (used tbl) u news Hnd Hnews) by (intros; apply Hu). rewrite (ba_num _ _ Hba). unfold num', k. lia. }
  assert (Hnr' : 1 <= num' <= CT_MAX_INSTANCES) by (rewrite <- Hrk; pose proof (rank_range u CT_MAX_INSTANCES ltac:(done)); split; [unfold num' in *; lia | lia]).
  assert (Hnew0 : forall d, d ∈ news -> own d = []) by (intros d Hd; eapply own_unused; [done | done | by apply Hnews]).
  assert (Hwf1 : tbl_wf (part_map m) tbl1 own []).
  { eapply tw_marks; [exact Hwf | exact Hmk |]. intros j e Hj He. split; [done |]. cbn. destruct (tw_chain _ _ _ _ Hwf j e He) as [_ ->]. by rewrite (Hnew0 j Hj). }
  set (rm1 := rm_set_tbl (remaster_mngr (drc_int_remaster_target m)) tbl1).
  destruct (taskset_loop_spec (DRC_MAX_PART_NUM / num') (DRC_MAX_PART_NUM mod num') u (quota_bounds num' Hnr') (Z.to_nat CT_MAX_INSTANCES) 0 rm1 own [])
    as (rm2 & own2 & T & Hrun2 & Hpm2 & Hwf2 & Hts2 & Htn2 & Hu2 & Hlow2 & Hhi2); try done.
  change (target_part_map rm1) with (part_map m) in Hpm2. change (target_inst_part_tbl rm1) with tbl1 in Hlow2.
  assert (Hlen2 : forall j, u j = true -> j ∉ news -> Z.of_nat (length (own2 j)) = quota num' (rank u j)).
  { intros j Huj Hj. assert (Huo : used tbl j = true) by (rewrite Hu, bool_decide_eq_false_2, orb_false_r in Huj; done).
    assert (Hjr : 0 <= j < CT_MAX_INSTANCES) by (unfold used in Huo; destruct (tbl.[j]) eqn:E; [rewrite <- (tw_tbl _ _ _ _ Hwf); by eapply lookupZ_lt | done]).
    destruct (Hhi2 j) as [-> _]; [lia | done |]. rewrite (own_count _ _ _ _ _ Hwf Hba Huo).
    apply Z.min_r, quota_anti; [unfold num'; lia |]. split; [apply rank_range; lia |]. apply rank_sub; [lia |]. intros i _ Hi. rewrite Hu, Hi. done. }
  assert (Hnone2 : forall j, u j = false \/ j ∈ news -> own2 j = []).
  { intros j [Huj | Hj].
    - destruct (Hlow2 j (or_intror Huj)) as [_ ->]. eapply own_unused; [exact Hwf | exact Hba |]. rewrite Hu in Huj. by apply orb_false_iff in Huj as [? _].
    - destruct (Hhi2 j) as [Hl _]; [by apply Hnews | rewrite Hu, bool_decide_eq_true_2, orb_true_r; done |].
      rewrite (Hnew0 j Hj) in Hl. apply length_zero_iff_nil. pose proof (quota_range num' (rank u j) Hnr' (proj1 (rank_range u j (proj1 (proj1 (Hnews j Hj)))))). cbn in Hl. lia. }
  assert (Hexp2 : forall d e, d ∈ news -> (target_inst_part_tbl rm2).[d] = Some e -> ip_expected e = quota num' (rank u d)).
  { intros d e Hd. apply Hhi2; [by apply Hnews | by rewrite Hu, bool_decide_eq_true_2, orb_true_r]. }
  assert (Hnews' : forall d, d ∈ news -> 0 <= d < CT_MAX_INSTANCES /\ u d = true).
  { intros d Hd. split; [by apply Hnews | by rewrite Hu, bool_decide_eq_true_2, orb_true_r]. }
  pose proof (scaleout_demand num' u _ _ own2 T news (proj1 Hnr') Hrk Hwf2 Hnd Hnews' Hlen2 Hnone2 Hexp2) as Hdem.
  assert (Hfresh : Forall (fresh_entry (target_inst_part_tbl rm2)) news).
  { apply Forall_forall. intros d Hd. destruct (tw_entry Hwf2 d) as [e He]; [by apply Hnews |]. exists e. split; [done |].
    destruct (tw_chain _ _ _ _ Hwf2 d e He) as [_ ->]. rewrite (Hnone2 d (or_intror Hd)), (Hexp2 d e Hd He). split; [done |].
    apply quota_range; [done |]. apply rank_range. by apply Hnews. }
  destruct news as [| id suf]; [done |]. apply Forall_cons in Hfresh as [(e & He & Hec & Hex) Hfresh].
  destruct (scaleout_import_spec arr T 0 [] id suf rest rm2 own2 e) as (rm3 & own3 & Hrun3 & Hwf3 & Hmv3 & Hout3 & Hin3); try done; [| lia | |].
  { intros x p Hx. destruct (proj2 Hts2 x p Hx) as (t & a & Ht & Htp & _). by exists t. }
  { rewrite Hdem, Hec. unfold expects. cbn [foldr]. rewrite He. lia. }
  exists (pm_set_inst_num (pm_set_remaster (drc_int_remaster_target m) rm3) num'), T.
  assert (Hu3 : forall j, used (target_inst_part_tbl rm3) j = u j).
  { intros j. rewrite <- Hu2. unfold used. destruct (decide (j ∈ id :: suf)) as [Hj | Hj]; [| by rewrite Hout3].
    destruct (tw_entry Hwf2 j) as [d Hd]; [by apply Hnews |]. destruct (Hin3 j d Hj Hd) as (d' & -> & _ & _ & Hf). by rewrite Hd. }
  split.
  { unfold drc_scaleout_remaster. rewrite (proj2 (Z.eqb_neq _ _)) by lia. rewrite Htake.
    change (inst_part_tbl (drc_int_remaster_target m)) with tbl. rewrite all_new_ok by (intros d Hd; split; [by apply Hrng | by apply Hnews]). ostep.
    change (target_inst_part_tbl (remaster_mngr (drc_int_remaster_target m))) with tbl. rewrite Hmark. ostep. cbn [negb].
    unfold drc_set_remaster_taskset. change (inst_num (drc_int_remaster_target m)) with num. fold num'. fold rm1. cbn [remaster_mngr pm_set_remaster]. change (rank u 0) with 0 in Hrun2. rewrite Hrun2. ostep.
    ostep. cbn [remaster_mngr pm_set_remaster]. rewrite Htn2, Nat2Z.id. change (Z.of_nat (length [])) with 0 in Hrun3. rewrite Hrun3. ostep.
    rewrite u8_small by (unfold CT_MAX_INSTANCES in *; lia). done. }
  cbn [remaster_mngr inst_num pm_set_inst_num pm_set_remaster mgrt_fail_list]. split; [| split; [unfold num'; lia |]; split; [by rewrite (mv_num _ _ _ _ _ Hmv3) |]].
  - split; [by exists own3 |]. constructor; [| lia |].
    + rewrite <- Hrk. apply rank_ext; [done |]. intros; apply Hu3.
    + intros j d3 Hd3. pose proof (Hu3 j) as Huj. unfold used at 1 in Huj. rewrite Hd3 in Huj. rewrite Huj.
      assert (Hjr : 0 <= j < CT_MAX_INSTANCES) by (rewrite <- (tw_tbl _ _ _ _ Hwf3); by eapply lookupZ_lt).
      rewrite (rank_ext _ u) by (intros; done || apply Hu3 || lia). destruct (decide (j ∈ id :: suf)) as [Hj | Hj].
      * destruct (tw_entry Hwf2 j Hjr) as [d Hd]. destruct (Hin3 j d Hj Hd) as (d' & Hd' & Hf & _). assert (d' = d3) as -> by congruence.
        rewrite Hf, (Hexp2 j d Hj Hd). by rewrite (proj2 (Hnews' j Hj)).
      * rewrite Hout3 in Hd3 by done. destruct (tw_chain _ _ _ _ Hwf2 j d3 Hd3) as [_ ->]. destruct (u j) eqn:Huj'; [by apply Hlen2 | by rewrite (Hnone2 j (or_introl Huj'))].
  - split; [intros j; rewrite Hu3; apply Hu |]. split; [eapply moved_reassigned; [exact Hpm2 | by rewrite <- Hpm2 | exact Hmv3] |]. split; [done |].
    rewrite (mv_len _ _ _ _ _ Hmv3). apply Nat2Z.inj. rewrite (proj1 Hts2). done.
Qed.

(** ** Instances leave *)

Definition can_leave (tbl : list drc_inst_part) (num : Z) (dels : list Z) : Prop :=
  dels <> [] /\ NoDup dels /\ Z.of_nat (length dels) < num /\ forall d, d ∈ dels -> used tbl d = true.

Lemma used_range pm tbl own T j : tbl_wf pm tbl own T -> used tbl j = true -> 0 <= j < CT_MAX_INSTANCES.
Proof.
  intros Hwf Hu. unfold used in Hu. destruct (tbl.[j]) eqn:E; [| done]. rewrite <- (tw_tbl _ _ _ _ Hwf). by eapply lookupZ_lt.
Qed.

(** The rooms left by the departed add up to their partitions. *)
Lemma scalein_supply num u pm tbl own T :
  1 <= num -> rank u CT_MAX_INSTANCES = num -> tbl_wf pm tbl own T ->
  (forall j, 0 <= j < CT_MAX_INSTANCES -> room tbl j = if u j then quota num (rank u j) - Z.of_nat (length (own j)) else 0) ->
  (forall j, u j = false -> own j = []) ->
  sumf (room tbl) (Z.to_nat CT_MAX_INSTANCES) 0 = Z.of_nat (length T).
Proof.
  intros Hn Hr Hwf Hroom Hnone. pose proof (tw_total Hwf) as Ht. pose proof (quota_sum u num Hr Hn) as Hq.
  assert (Hsum : sumf (fun j => if u j then quota num (rank u j) else 0) (Z.to_nat CT_MAX_INSTANCES) 0 =
    sumf (room tbl) (Z.to_nat CT_MAX_INSTANCES) 0 + sumf (fun j => Z.of_nat (length (own j))) (Z.to_nat CT_MAX_INSTANCES) 0); [| lia].
  rewrite <- sumf_add. apply sumf_ext. intros j Hj. rewrite Hroom by (unfold CT_MAX_INSTANCES in *; lia).
  destruct (u j) eqn:Hu; [lia | by rewrite (Hnone j Hu)].
Qed.

Lemma scalein_spec m arr dels is_abort :
  table_ok (part_map m) (inst_part_tbl m) (inst_num m) -> Z.of_nat (length (remaster_task_set (remaster_mngr m))) = DRC_MAX_PART_NUM ->
  can_leave (inst_part_tbl m) (inst_num m) dels -> dels `prefix_of` arr ->
  exists m' T, drc_scalein_remaster arr (Z.of_nat (length dels)) is_abort (drc_int_remaster_target m) = Done (CT_SUCCESS, m') /\
    table_ok (target_part_map (remaster_mngr m')) (target_inst_part_tbl (remaster_mngr m')) (inst_num m') /\
    inst_num m' = inst_num m - Z.of_nat (length dels) /\ task_num (remaster_mngr m') = (if is_abort then 0 else Z.of_nat (length T)) /\
    (forall j, used (target_inst_part_tbl (remaster_mngr m')) j = used (inst_part_tbl m) j && negb (bool_decide (j ∈ dels))) /\
    reassigned (part_map m) (target_part_map (remaster_mngr m')) (remaster_task_set (remaster_mngr m')) T
      (fun d => used (inst_part_tbl m) d = true /\ d ∉ dels) /\
    (forall p a, (part_map m).[p] = Some a -> p ∈ T <-> pt_inst a ∈ dels) /\
    mgrt_fail_list m' = mgrt_fail_list m /\ length (remaster_task_set (remaster_mngr m')) = length (remaster_task_set (remaster_mngr m)).
Proof.
  intros [[own Hwf] Hba] Hlts (Hne & Hnd & Hlt & Hdels) [rest Harr]. pose proof (table_num_range _ _ _ _ _ Hwf Hba) as Hnr.
  set (tbl := inst_part_tbl m) in *. set (num := inst_num m) in *. set (k := Z.of_nat (length dels)) in *.
  assert (Htake : take (Z.to_nat k) arr = dels) by (unfold k; by rewrite Nat2Z.id, Harr, take_app_length).
  assert (Hk : 0 < k) by (destruct dels; [done | unfold k; cbn; lia]).
  assert (Hrng : forall d, d ∈ dels -> 0 <= d < Z.of_nat (length tbl)) by (intros d Hd; rewrite (tw_tbl _ _ _ _ Hwf); eapply used_range; [done | by apply Hdels]).
  destruct (mark_deleted_ok dels tbl Hnd Hrng) as (tbl1 & Hmark & Hmk). pose proof (marks_used _ _ _ _ false Hmk ltac:(done) Hrng) as Hu1.
  set (u := used tbl1) in *. set (num' := num - k).
  assert (Hu : forall j, u j = used tbl j && negb (bool_decide (j ∈ dels))).
  { intros j. rewrite Hu1. destruct (decide (j ∈ dels)); [rewrite bool_decide_eq_true_2 by done; by rewrite andb_false_r | rewrite bool_decide_eq_false_2 by done; by rewrite andb_true_r]. }
  assert (Hdu : forall d, d ∈ dels -> 0 <= d < CT_MAX_INSTANCES /\ u d = false).
  { intros d Hd. split; [rewrite <- (tw_tbl _ _ _ _ Hwf); by apply Hrng |]. by rewrite Hu, bool_decide_eq_true_2, andb_false_r. }
  assert (Hrk : rank u CT_MAX_INSTANCES = num').
  { pose proof (rank_add u (used tbl) dels Hnd Hdu) as Hra. rewrite (ba_num _ _ Hba) in Hra. unfold num'. rewrite Hra; [unfold k; lia |]. intros j _. rewrite Hu.
    case_bool_decide as Hd; [rewrite (Hdels j Hd); by rewrite orb_true_r | by rewrite andb_true_r, orb_false_r]. }
  assert (Hnr' : 1 <= num' <= CT_MAX_INSTANCES) by (unfold num'; lia).
  assert (Hwf1 : tbl_wf (part_map m) tbl1 own []) by (eapply tw_marks; [exact Hwf | exact Hmk | done]).
  set (rm1 := rm_set_tbl (remaster_mngr (drc_int_remaster_target m)) tbl1).
  destruct (scalein_export_spec (DRC_MAX_PART_NUM / num') (DRC_MAX_PART_NUM mod num') u (part_map m) (quota_bounds num' Hnr') (Z.to_nat CT_MAX_INSTANCES) 0 rm1 own [])
    as (rm2 & own2 & T & Hrun2 & Hpm2 & Hwf2 & Hts2 & Htn2 & Hown2 & Htbl2 & _); try done.
  { intros j e He _. by apply (tw_chain _ _ _ _ Hwf1). }
  cbn [app] in Hwf2, Hts2, Htn2. change (target_part_map rm1) with (part_map m) in Hpm2. change (target_inst_part_tbl rm1) with tbl1 in Htbl2.
  assert (Hnone2 : forall j, u j = false -> own2 j = []).
  { intros j Hj. rewrite Hown2, Hj. destruct (Z.leb_spec 0 j) as [| Hneg]; [done |]. destruct (own j) as [| p l] eqn:E; [done |].
    destruct (tw_own_range Hwf j p) as [? _]; [rewrite E; apply list_elem_of_here | lia]. }
  assert (Hsame2 : forall j, u j = true -> own2 j = own j) by (intros j Hj; rewrite Hown2, Hj, andb_false_r; done).
  assert (Hent : forall j, 0 <= j < CT_MAX_INSTANCES -> exists e, tbl1.[j] = Some e /\ (target_inst_part_tbl rm2).[j] = Some (set_share (DRC_MAX_PART_NUM / num') (DRC_MAX_PART_NUM mod num') u j e) /\ ip_used e = u j).
  { intros j Hj. destruct (tw_entry Hwf1 j Hj) as [e He]. exists e. split; [done |]. rewrite (Htbl2 j e He). destruct (Z.leb_spec 0 j); [| lia]. split; [done |]. unfold u, used. by rewrite He. }
  assert (Hroom : forall j, 0 <= j < CT_MAX_INSTANCES -> room (target_inst_part_tbl rm2) j = if u j then quota num' (rank u j) - Z.of_nat (length (own2 j)) else 0).
  { intros j Hj. destruct (Hent j Hj) as (e & He & He2 & Hue). unfold room. rewrite He2. unfold set_share. destruct (u j) eqn:Huj; cbn; rewrite Hue; [| done].
    rewrite (Hsame2 j Huj). by destruct (tw_chain _ _ _ _ Hwf1 j e He) as [_ <-]. }
  assert (Hge : forall j, 0 <= room (target_inst_part_tbl rm2) j).
  { intros j. destruct (decide (0 <= j < CT_MAX_INSTANCES)) as [Hj | Hj].
    - rewrite Hroom by done. destruct (u j) eqn:Huj; [| done]. assert (Huo : used tbl j = true) by (rewrite Hu in Huj; by apply andb_true_iff in Huj as [? _]).
      rewrite (Hsame2 j Huj), (own_count _ _ _ _ _ Hwf Hba Huo). pose proof (quota_anti num' num (rank u j) (rank (used tbl) j)) as Hq.
      assert (quota num (rank (used tbl) j) <= quota num' (rank u j)); [| lia]. apply Hq; [unfold num'; lia |]. split; [apply rank_range; lia |].
      apply rank_sub; [lia |]. intros i _ Hi. rewrite Hu in Hi. by apply andb_true_iff in Hi as [? _].
    - unfold room. destruct (_.[j]) as [e |] eqn:E; [| done]. apply lookupZ_lt in E. rewrite (tw_tbl _ _ _ _ Hwf2) in E. lia. }
  pose proof (scalein_supply num' u _ _ own2 T (proj1 Hnr') Hrk Hwf2 Hroom Hnone2) as Hsup.
  destruct (scalein_import_spec (if is_abort then PART_WAIT_RECOVERY else PART_WAIT_MIGRATE) T 0 0 rm2 own2) as (rm3 & own3 & Hrun3 & Hwf3 & Hmv3 & Hall3); try done.
  { intros x p Hx. destruct (proj2 Hts2 x p Hx) as (t & a & Ht & Htp & _). by exists t. }
  { intros j Hj. destruct (decide (room (target_inst_part_tbl rm2) j = 0)) as [| Hnz]; [done |]. apply room_nonzero in Hnz. lia. }
  assert (Hu2 : forall j, used (target_inst_part_tbl rm2) j = u j).
  { intros j. destruct (decide (0 <= j < CT_MAX_INSTANCES)) as [Hj | Hj].
    - destruct (Hent j Hj) as (e & _ & He2 & Hue). unfold used. rewrite He2. unfold set_share. by destruct (u j).
    - assert (Hout : forall t, Z.of_nat (length t) = CT_MAX_INSTANCES -> used t j = false).
      { intros t Hl. unfold used. destruct (t.[j]) eqn:E; [apply lookupZ_lt in E; lia | done]. }
      unfold u. rewrite !Hout; [done | apply (tw_tbl _ _ _ _ Hwf1) | apply (tw_tbl _ _ _ _ Hwf2)]. }
  assert (Hu3 : forall j, used (target_inst_part_tbl rm3) j = u j).
  { intros j. rewrite <- Hu2. unfold used. destruct ((target_inst_part_tbl rm2).[j]) as [e |] eqn:E.
    - destruct (Hall3 j e E) as (e' & -> & Hf). destruct (ip_used e) eqn:Hue; [destruct Hf as (_ & _ & ->); done | by subst e'].
    - destruct ((target_inst_part_tbl rm3).[j]) eqn:E3; [| done]. destruct (tw_entry Hwf2 j) as [? ?]; [rewrite <- (tw_tbl _ _ _ _ Hwf3); by eapply lookupZ_lt | congruence]. }
  exists (pm_set_inst_num (pm_set_remaster (drc_int_remaster_target m) (if is_abort then rm_set_tasks rm3 (remaster_task_set rm3) 0 else rm3)) num'), T.
  split.
  { unfold drc_scalein_remaster. change (inst_num (drc_int_remaster_target m)) with num. rewrite (proj2 (Z.eqb_neq k 0)), (proj2 (Z.leb_gt num k)) by lia.
    cbn [orb negb knl_panic]. ostep. rewrite Htake. change (inst_part_tbl (drc_int_remaster_target m)) with tbl. rewrite (all_used_ok dels tbl Hdels). ostep.
    change (target_inst_part_tbl (remaster_mngr (drc_int_remaster_target m))) with tbl. rewrite Hmark. ostep. fold num'. fold rm1.
    change (part_map (drc_int_remaster_target m)) with (part_map m). change (rank u 0) with 0 in Hrun2. rewrite Hrun2. ostep. change (task_num rm1) with 0.
    rewrite Htn2, Z.sub_0_r, Nat2Z.id, Hrun3. ostep. by destruct is_abort. }
  cbn [remaster_mngr inst_num pm_set_inst_num pm_set_remaster mgrt_fail_list].
  assert (Hpm : forall rm', target_part_map (if is_abort then rm_set_tasks rm3 (remaster_task_set rm3) rm' else rm3) = target_part_map rm3) by (by destruct is_abort).
  assert (Htb : target_inst_part_tbl (if is_abort then rm_set_tasks rm3 (remaster_task_set rm3) 0 else rm3) = target_inst_part_tbl rm3) by (by destruct is_abort).
  assert (Htk : remaster_task_set (if is_abort then rm_set_tasks rm3 (remaster_task_set rm3) 0 else rm3) = remaster_task_set rm3) by (by destruct is_abort).
  rewrite Hpm, Htb, Htk. split; [| split; [done |]; split; [destruct is_abort; [done |]; by rewrite (mv_num _ _ _ _ _ Hmv3) |]].
  - split; [by exists own3 |]. constructor; [| lia |].
    + rewrite <- Hrk. apply rank_ext; [done |]. intros; apply Hu3.
    + intros j d3 Hd3. pose proof (Hu3 j) as Huj. unfold used at 1 in Huj. rewrite Hd3 in Huj. rewrite Huj.
      assert (Hjr : 0 <= j < CT_MAX_INSTANCES) by (rewrite <- (tw_tbl _ _ _ _ Hwf3); by eapply lookupZ_lt).
      rewrite (rank_ext _ u) by (intros; done || apply Hu3 || lia). destruct (Hent j Hjr) as (e & He & He2 & Hue). destruct (Hall3 j _ He2) as (e' & He' & Hf).
      assert (e' = d3) as -> by congruence. unfold set_share in Hf. destruct (u j) eqn:Hj; cbn in Hf; rewrite Hue in Hf; [by destruct Hf as (-> & _) | by subst d3].
  - split; [intros j; rewrite Hu3; apply Hu |]. split; [| split; [| split; [done | rewrite (mv_len _ _ _ _ _ Hmv3); apply Nat2Z.inj; rewrite (proj1 Hts2); done]]].
    + eapply moved_reassigned; [exact Hpm2 | by rewrite <- Hpm2 |]. destruct Hmv3 as [? ? Htask ? ?]. constructor; try done. intros x p Hx.
      destruct (Htask x p Hx) as (t & t' & a & ? & ? & ? & ? & ? & ? & HS). exists t, t', a. split_and!; try done.
      * rewrite Hu2, Hu in HS. by apply andb_true_iff in HS as [? _].
      * rewrite Hu2, Hu in HS. apply andb_true_iff in HS as [_ HS%negb_true_iff%bool_decide_eq_false]. done.
    + intros p a Ha. assert (Hpo : p ∈ own (pt_inst a)) by (apply (tw_own _ _ _ _ Hwf); split; [apply not_elem_of_nil | eauto]).
      assert (Huo : used tbl (pt_inst a) = true).
      { destruct (used tbl (pt_inst a)) eqn:E; [done |]. rewrite (own_unused _ _ _ _ _ Hwf Hba E) in Hpo. by apply not_elem_of_nil in Hpo. }
      assert (Hu2a : u (pt_inst a) = negb (bool_decide (pt_inst a ∈ dels))) by (rewrite Hu, Huo; done).
      split.
      * intros HpT. apply dec_stable. intros Hn. rewrite bool_decide_eq_false_2 in Hu2a by done. rewrite <- (Hsame2 _ Hu2a) in Hpo.
        apply (tw_own _ _ _ _ Hwf2) in Hpo as [? _]. done.
      * intros Hd. rewrite bool_decide_eq_true_2 in Hu2a by done. apply dec_stable. intros HpT.
        assert (p ∈ own2 (pt_inst a)) as Hp2; [| rewrite (Hnone2 _ Hu2a) in Hp2; by apply not_elem_of_nil in Hp2]. apply (tw_own _ _ _ _ Hwf2). split; [done |]. exists a. by rewrite Hpm2.
Qed.

(** ** The first table *)

Lemma pchain_seq pm n i :
  (forall p, i <= p < i + Z.of_nat n -> exists a, pm.[p] = Some a /\ (p + 1 < i + Z.of_nat n -> pt_next a = p + 1)) ->
  pchain pm i (seqZ i (Z.of_nat n)).
Proof.
  revert i. induction n as [| n IH]; intros i H; [done |]. rewrite Nat2Z.inj_succ, seqZ_cons by lia. replace (Z.pred (Z.succ (Z.of_nat n))) with (Z.of_nat n) by lia.
  destruct (H i) as (a & Ha & Hn); [lia |]. split; [done |]. exists a. split; [done |]. destruct n as [| n]; [done |].
  rewrite Hn by lia. rewrite <- Z.add_1_r. apply IH. intros p Hp. destruct (H p) as (b & Hb & Hnb); [lia |]. exists b. split; [done |]. intros. apply Hnb. lia.
Qed.

(** The state of the assignment loop when one instance [id] takes everything. *)
Record init_inv (id i : Z) (pm : list drc_part) (tbl : list drc_inst_part) : Prop := mk_init_inv {
  in_pm : Z.of_nat (length pm) = DRC_MAX_PART_NUM;
  in_tbl : Z.of_nat (length tbl) = CT_MAX_INSTANCES;
  in_mine : exists e, tbl.[id] = Some e /\ ip_count e = i /\ ip_used e = (0 <? i) /\ (0 < i -> ip_first e = 0 /\ ip_last e = i - 1);
  in_others : forall j e, j <> id -> tbl.[j] = Some e -> ip_used e = false /\ ip_count e = 0;
  in_parts : forall p, 0 <= p < i -> exists a, pm.[p] = Some a /\ pt_inst a = id /\ (p + 1 < i -> pt_next a = p + 1);
}.

Lemma part_assign_one id i pm tbl :
  0 <= id < CT_MAX_INSTANCES -> 0 <= i < DRC_MAX_PART_NUM -> init_inv id i pm tbl ->
  exists pm' tbl', part_assign i id pm tbl = Done (pm', tbl') /\ init_inv id (i + 1) pm' tbl'.
Proof.
  intros Hid Hi [Hlp Hlt (e & He & Hc & Hu & Hfl) Hoth Hparts]. unfold DRC_MAX_PART_NUM in *.
  destruct (lookupZ_is_Some pm i) as [a Ha]; [lia |]. unfold part_assign. rewrite (arr_get_eq _ _ _ Ha). ostep.
  rewrite (arr_set_eq _ _ _ _ Ha). ostep. rewrite (arr_get_eq _ _ _ He). ostep. set (pm1 := pm.[i <- _]).
  assert (Hlp1 : Z.of_nat (length pm1) = 1024) by (unfold pm1; by rewrite length_insertZ).
  assert (H1 : forall p, pm1.[p] = if decide (p = i) then Some (mk_part id PART_INIT (pt_next a)) else pm.[p]).
  { intros p. unfold pm1. case_decide as Hp; [subst p; apply lookupZ_insertZ_eq; lia | apply lookupZ_insertZ_ne; done]. }
  assert (Hmid : exists pm2 e2, (if ip_count e =? 0 then Done (pm1, mk_ipart (u16 i) (ip_last e) (ip_count e) (ip_expected e) true)
      else b ← arr_get pm1 (ip_last e); pm ← arr_set pm1 (ip_last e) (mk_part (pt_inst b) (pt_status b) (u16 i)); Done (pm, e)) = Done (pm2, e2) /\
      length pm2 = length pm1 /\ ip_first e2 = 0 /\ ip_used e2 = true /\ ip_count e2 = i /\
      (exists b, pm2.[i] = Some b /\ pt_inst b = id) /\
      forall p, 0 <= p < i -> exists b, pm2.[p] = Some b /\ pt_inst b = id /\ pt_next b = p + 1).
  { rewrite Hc. destruct (Z.eqb_spec i 0) as [-> | Hi0].
    - eexists _, _. split; [done |]. cbn. split_and!; try done; [| lia]. eexists. rewrite H1, decide_True by done. done.
    - destruct Hfl as [Hf Hl]; [lia |]. destruct (Hparts (i - 1)) as (b & Hb & Hbi & _); [lia |]. rewrite Hl.
      assert (Hb1 : pm1.[i - 1] = Some b) by (rewrite H1, decide_False by lia; done). rewrite (arr_get_eq _ _ _ Hb1). ostep.
      rewrite (arr_set_eq _ _ _ _ Hb1). ostep. rewrite u16_small by lia. eexists _, e. split; [done |]. split; [apply length_insertZ |].
      split; [done |]. split; [rewrite Hu; apply Z.ltb_lt; lia |]. split; [done |]. split.
      + eexists. rewrite lookupZ_insertZ_ne by lia. rewrite H1, decide_True by done. done.
      + intros p Hp. destruct (decide (p = i - 1)) as [-> | Hne].
        * eexists. rewrite lookupZ_insertZ_eq by lia. split; [done |]. cbn. split; [done | lia].
        * rewrite lookupZ_insertZ_ne by lia. rewrite H1, decide_False by lia. destruct (Hparts p) as (c & Hcp & Hci & Hcn); [lia |]. exists c. split_and!; try done. apply Hcn. lia. }
  destruct Hmid as (pm2 & e2 & -> & Hlp2 & Hf2 & Hu2 & Hc2 & (b & Hb & Hbi) & Hp2). ostep.
  rewrite (arr_set_eq _ _ _ _ He). ostep. rewrite (arr_get_eq _ _ _ Hb). ostep. rewrite (arr_set_eq _ _ _ _ Hb). ostep.
  pose proof (lookupZ_lt _ _ _ He). rewrite !u16_small by lia. eexists _, _. split; [done |]. constructor.
  - rewrite length_insertZ. unfold DRC_MAX_PART_NUM. lia.
  - by rewrite length_insertZ.
  - eexists. rewrite lookupZ_insertZ_eq by done. split; [done |]. cbn. split; [lia |]. split; [rewrite Hu2; symmetry; apply Z.ltb_lt; lia |]. intros _. split; [done | lia].
  - intros j d Hj Hd. rewrite lookupZ_insertZ_ne in Hd by done. by eapply Hoth.
  - intros p Hp. destruct (decide (p = i)) as [-> | Hne].
    + eexists. rewrite lookupZ_insertZ_eq by (by eapply lookupZ_lt). split; [done |]. split; [done |]. lia.
    + rewrite lookupZ_insertZ_ne by done. destruct (Hp2 p) as (c & Hcp & Hci & Hcn); [lia |]. exists c. done.
Qed.

Lemma part_init_loop_one id n i pm tbl :
  0 <= id < CT_MAX_INSTANCES -> 0 <= i -> i + Z.of_nat n = DRC_MAX_PART_NUM -> init_inv id i pm tbl ->
  exists pm' tbl', part_init_loop n i [id] 1 pm tbl = Done (pm', tbl') /\ init_inv id DRC_MAX_PART_NUM pm' tbl'.
Proof.
  intros Hid. revert i pm tbl. induction n as [| n IH]; intros i pm tbl Hi Hn Hinv; cbn [part_init_loop].
  - rewrite Z.add_0_r in Hn. subst i. by exists pm, tbl.
  - rewrite Z.mod_1_r, (arr_get_eq [id] 0 id) by done. ostep. destruct (part_assign_one id i pm tbl Hid ltac:(lia) Hinv) as (pm1 & tbl1 & -> & Hinv1). ostep.
    apply IH; [lia | lia | done].
Qed.

(** An unused table: no instance is known. *)
Definition blank_table (m : drc_part_mngr) : Prop :=
  pm_inited m = false /\ Z.of_nat (length (part_map m)) = DRC_MAX_PART_NUM /\ Z.of_nat (length (inst_part_tbl m)) = CT_MAX_INSTANCES /\
  Z.of_nat (length (remaster_task_set (remaster_mngr m))) = DRC_MAX_PART_NUM /\
  forall j e, (inst_part_tbl m).[j] = Some e -> ip_used e = false /\ ip_count e = 0.

Lemma part_init_ok m id :
  blank_table m -> 0 <= id < CT_MAX_INSTANCES ->
  exists m', drc_part_init [id] 1 m = Done m' /\ table_ok (part_map m') (inst_part_tbl m') (inst_num m') /\
    (forall j, used (inst_part_tbl m') j = bool_decide (j = id)) /\ remaster_mngr m' = remaster_mngr m.
Proof.
  intros (Hin & Hlp & Hlt & _ & Hblank) Hid. unfold drc_part_init. rewrite Hin. cbn [orb Z.eqb].
  destruct (part_init_loop_one id (Z.to_nat DRC_MAX_PART_NUM) 0 (part_map m) (inst_part_tbl m)) as (pm & tbl & Hrun & [Hl1 Hl2 (e & He & Hc & Hu & Hfl) Hoth Hparts]); try done.
  { constructor; try done.
    - destruct (lookupZ_is_Some (inst_part_tbl m) id) as [e He]; [lia |]. exists e. destruct (Hblank _ _ He) as [-> ->]. done.
    - intros j e _ He. by apply (Hblank j).
    - intros p Hp. lia. }
  rewrite Hrun. ostep. eexists. split; [done |]. cbn [part_map inst_part_tbl inst_num remaster_mngr]. set (f := fun e => if ip_used e then set_expected (ip_count e) e else e).
  assert (Hmap : forall j, (List.map f tbl).[j] = f <$> tbl.[j]).
  { intros j. unfold lookupZ. rewrite length_map. destruct (_ && _); [apply list_lookup_fmap | done]. }
  assert (Hf : forall e, ip_used (f e) = ip_used e /\ ip_count (f e) = ip_count e /\ ip_first (f e) = ip_first e) by (intros d; unfold f; by destruct d as [? ? ? ? []]).
  assert (Hused : forall j, used (List.map f tbl) j = bool_decide (j = id)).
  { intros j. unfold used. rewrite Hmap. case_bool_decide as Hj; [subst j; rewrite He; cbn; rewrite (proj1 (Hf e)); by rewrite Hu |].
    destruct (tbl.[j]) as [d |] eqn:Hd; cbn; [| done]. rewrite (proj1 (Hf d)). exact (proj1 (Hoth j d Hj Hd)). }
  split; [| split; [done | done]]. split.
  - exists (fun j => if decide (j = id) then seqZ 0 DRC_MAX_PART_NUM else []). constructor; try done.
    + by rewrite length_map.
    + intros j p. case_decide as Hj.
      * subst j. rewrite elem_of_seqZ. split.
        -- intros Hp. split; [apply not_elem_of_nil |]. destruct (Hparts p) as (a & Ha & Hai & _); [lia |]. by exists a.
        -- intros (_ & a & Ha & _). apply lookupZ_lt in Ha. lia.
      * split; [by intros ?%not_elem_of_nil |]. intros (_ & a & Ha & Hai). pose proof (lookupZ_lt _ _ _ Ha). destruct (Hparts p) as (b & Hb & Hbi & _); [lia |]. congruence.
    + intros j. case_decide; [apply NoDup_seqZ | constructor].
    + intros j d Hd. rewrite Hmap in Hd. destruct (tbl.[j]) as [d0 |] eqn:Hd0; [| discriminate Hd]. injection Hd as <-. destruct (Hf d0) as (_ & -> & ->). case_decide as Hj.
      * subst j. assert (d0 = e) as -> by congruence. destruct (Hfl ltac:(done)) as [-> _]. rewrite length_seqZ. split; [| by rewrite Hc].
        apply (pchain_seq pm (Z.to_nat DRC_MAX_PART_NUM) 0). intros p Hp. destruct (Hparts p) as (a & Ha & _ & Hn); [unfold DRC_MAX_PART_NUM in *; lia |]. exists a. split; [done |].
        intros Hp'. apply Hn. unfold DRC_MAX_PART_NUM in *. lia.
      * by destruct (Hoth j d0 Hj Hd0) as [_ ->].
    + intros p a Ha. pose proof (lookupZ_lt _ _ _ Ha). destruct (Hparts p) as (b & Hb & Hbi & _); [lia |]. assert (a = b) as -> by congruence. by rewrite Hbi.
    + split; [constructor | by intros p ?%not_elem_of_nil].
  - constructor; [| done |].
    + rewrite (rank_add (fun _ => false) _ [id]); [| apply NoDup_singleton | intros d ->%list_elem_of_singleton; done |]; [reflexivity |].
      intros j _. rewrite Hused. cbn [orb]. by rewrite (bool_decide_ext _ _ (list_elem_of_singleton j id)).
    + intros j d Hd. pose proof (Hused j) as Huj. unfold used in Huj. rewrite Hd in Huj. rewrite Huj. rewrite Hmap in Hd. destruct (tbl.[j]) as [d0 |] eqn:Hd0; [| done].
      injection Hd as <-. destruct (Hf d0) as (_ & -> & _). case_bool_decide as Hj; [| exact (proj2 (Hoth j d0 Hj Hd0))].
      subst j. assert (d0 = e) as -> by congruence. rewrite Hc. unfold share. destruct (Z.ltb_spec (rank (used (List.map f tbl)) id) (DRC_MAX_PART_NUM mod 1)) as [Hr |]; [| done].
      pose proof (rank_range (used (List.map f tbl)) id ltac:(lia)). rewrite Z.mod_1_r in Hr. lia.
Qed.

(** ** Reforms *)

(** The reforms of one kind: instances only join, only leave, only aborted or only failed, and the failure lists are to be migrated
    ([mgrt_fail_list], which the end of a remaster sets).  A reform that mixes two kinds runs a second pass on lists that the first
    one has changed, see [leave_and_abort_strands_partitions]. *)
Inductive one_kind (m : drc_part_mngr) (rf : reform_info) : Prop :=
| join_only news : can_join (inst_part_tbl m) news -> news `prefix_of` inst_id_list (rf_join rf) ->
    inst_id_count (rf_join rf) = Z.of_nat (length news) -> inst_id_count (rf_leave rf) = 0 -> inst_id_count (rf_abort rf) = 0 ->
    inst_id_count (rf_fail rf) = 0 -> one_kind m rf
| leave_only dels : can_leave (inst_part_tbl m) (inst_num m) dels -> dels `prefix_of` inst_id_list (rf_leave rf) ->
    inst_id_count (rf_leave rf) = Z.of_nat (length dels) -> inst_id_count (rf_join rf) = 0 -> inst_id_count (rf_abort rf) = 0 ->
    inst_id_count (rf_fail rf) = 0 -> one_kind m rf
| abort_only dels : can_leave (inst_part_tbl m) (inst_num m) dels -> dels `prefix_of` inst_id_list (rf_abort rf) -> mgrt_fail_list m = true ->
    inst_id_count (rf_abort rf) = Z.of_nat (length dels) -> inst_id_count (rf_join rf) = 0 -> inst_id_count (rf_leave rf) = 0 ->
    inst_id_count (rf_fail rf) = 0 -> one_kind m rf
| fail_only dels : can_leave (inst_part_tbl m) (inst_num m) dels -> dels `prefix_of` inst_id_list (rf_fail rf) -> mgrt_fail_list m = true ->
    inst_id_count (rf_fail rf) = Z.of_nat (length dels) -> inst_id_count (rf_join rf) = 0 -> inst_id_count (rf_leave rf) = 0 ->
    inst_id_count (rf_abort rf) = 0 -> one_kind m rf.

Definition mngr_ok (m : drc_part_mngr) : Prop :=
  table_ok (part_map m) (inst_part_tbl m) (inst_num m) /\ Z.of_nat (length (remaster_task_set (remaster_mngr m))) = DRC_MAX_PART_NUM.

Lemma ltb_length {A} (l : list A) : l <> [] -> (0 <? Z.of_nat (length l)) = true.
Proof. destruct l; [done |]. intros _. apply Z.ltb_lt. cbn. lia. Qed.

(** Run through the parts of a reform that have nothing to do. *)
Ltac osteps := repeat first [ostep | rewrite andb_false_r].

Lemma execute_ok m rf :
  mngr_ok m -> one_kind m rf -> exists m', drc_execute_remaster false rf m = Done (CT_SUCCESS, m') /\ mngr_ok (publish_target m').
Proof.
  intros [Hok Hlen] [news Hcj Hpre Hc H1 H2 H3 | dels Hcl Hpre Hc H1 H2 H3 | dels Hcl Hpre Hmg Hc H1 H2 H3 | dels Hcl Hpre Hmg Hc H1 H2 H3];
    unfold drc_execute_remaster.
  - rewrite Hc, H1, H2, H3, (ltb_length news) by apply Hcj. destruct (scaleout_spec m _ news Hok Hlen Hcj Hpre) as (m' & T & -> & Htab & Hnum & _ & _ & _ & _ & Hlt).
    cbn [Z.ltb Z.compare]. osteps. exists m'. split; [done |]. split; [exact Htab |]. cbn. by rewrite Hlt.
  - rewrite Hc, H1, H2, H3, (ltb_length dels) by apply Hcl. cbn [Z.ltb Z.compare]. ostep.
    destruct (scalein_spec m _ dels false Hok Hlen Hcl Hpre) as (m' & T & -> & Htab & Hnum & _ & _ & _ & _ & _ & Hlt).
    osteps. exists m'. split; [done |]. split; [exact Htab |]. cbn. by rewrite Hlt.
  - rewrite Hc, H1, H2, H3, (ltb_length dels) by apply Hcl. cbn [Z.ltb Z.compare]. ostep. ostep.
    change (mgrt_fail_list (drc_int_remaster_target m)) with (mgrt_fail_list m). rewrite Hmg. cbn [andb].
    destruct (scalein_spec m _ dels true Hok Hlen Hcl Hpre) as (m' & T & -> & Htab & Hnum & _ & _ & _ & _ & _ & Hlt).
    osteps. exists m'. split; [done |]. split; [exact Htab |]. cbn. by rewrite Hlt.
  - rewrite Hc, H1, H2, H3, (ltb_length dels) by apply Hcl. cbn [Z.ltb Z.compare]. ostep. ostep. rewrite andb_false_r. ostep.
    change (mgrt_fail_list (drc_int_remaster_target m)) with (mgrt_fail_list m). rewrite Hmg. cbn [andb].
    destruct (scalein_spec m _ dels true Hok Hlen Hcl Hpre) as (m' & T & -> & Htab & Hnum & _ & _ & _ & _ & _ & Hlt).
    osteps. exists m'. split; [done |]. split; [exact Htab |]. cbn. by rewrite Hlt.
Qed.

(** A step of the table: a published reform of one kind outside of reformer mode, or a change of the remaster status. *)
Inductive part_step : drc_part_mngr -> drc_part_mngr -> Prop :=
| pstep_reform rf m m' : one_kind m rf -> drc_execute_remaster false rf m = Done (CT_SUCCESS, m') -> part_step m (publish_target m')
| pstep_status st m : part_step m (drc_update_remaster_local_status st m).

Lemma part_step_ok m m' : part_step m m' -> mngr_ok m -> mngr_ok m'.
Proof.
  intros [rf m1 m2 Hk Hrun | st m1] Hok.
  - destruct (execute_ok m1 rf Hok Hk) as (m3 & Hrun3 & Hok3). rewrite Hrun in Hrun3. injection Hrun3 as ->. exact Hok3.
  - unfold drc_update_remaster_local_status. by destruct (decide _).
Qed.

Lemma table_masters pm tbl num p : table_ok pm tbl num -> 0 <= p < DRC_MAX_PART_NUM ->
  exists a, pm.[p] = Some a /\ used tbl (pt_inst a) = true.
Proof.
  intros [[own Hwf] Hba] Hp. destruct (tw_part Hwf p Hp) as [a Ha]. exists a. split; [done |]. destruct (used tbl (pt_inst a)) eqn:E; [done |].
  assert (Hpo : p ∈ own (pt_inst a)) by (apply (tw_own _ _ _ _ Hwf); split; [apply not_elem_of_nil | eauto]).
  rewrite (own_unused _ _ _ _ _ Hwf Hba E) in Hpo. by apply not_elem_of_nil in Hpo.
Qed.

Lemma table_fair pm tbl num i j e d : table_ok pm tbl num -> tbl.[i] = Some e -> tbl.[j] = Some d -> ip_used e = true -> ip_used d = true ->
  ip_count e <= ip_count d + 1.
Proof.
  intros [_ Hba] He Hd Hue Hud. rewrite (ba_count _ _ Hba i e He), (ba_count _ _ Hba j d Hd), Hue, Hud. unfold share.
  destruct (_ <? _), (_ <? _); lia.
Qed.

(** ** Theorems *)

(** C5: after any sequence of reforms each of which is of one kind - all
    its instances join, or leave, or aborted, or failed - every partition has
    exactly one master, which is in use, the list of each instance's partitions
    agrees with the map, and the numbers of partitions of two instances in use
    differ by at most one.  The reforms are made outside of reformer mode; the
    aborted and failed instances are those that are to be migrated, and at
    least one instance stays.  Reforms that mix two kinds are not covered: for
    them the claim is false. *)
Theorem part_reach_balanced m0 id m1 m :
  blank_table m0 -> 0 <= id < CT_MAX_INSTANCES -> drc_part_init [id] 1 m0 = Done m1 -> rtc part_step m1 m ->
  table_ok (part_map m) (inst_part_tbl m) (inst_num m) /\
  (forall p, 0 <= p < DRC_MAX_PART_NUM -> exists a, (part_map m).[p] = Some a /\ used (inst_part_tbl m) (pt_inst a) = true) /\
  (forall i j e d, (inst_part_tbl m).[i] = Some e -> (inst_part_tbl m).[j] = Some d -> ip_used e = true -> ip_used d = true -> ip_count e <= ip_count d + 1).
Proof.
  intros Hb Hid Hinit Hsteps. assert (Hok : mngr_ok m).
  { destruct (part_init_ok m0 id Hb Hid) as (m' & Hrun & Htab & _ & Hrm). rewrite Hinit in Hrun. injection Hrun as <-.
    assert (H1 : mngr_ok m1) by (split; [done | rewrite Hrm; apply Hb]). clear -Hsteps H1. induction Hsteps as [| ? ? ? Hst _ IH]; [done |]. apply IH. by eapply part_step_ok. }
  destruct Hok as [Htab _]. split; [done |]. split; [intros p Hp; by eapply table_masters | intros i j e d; by eapply table_fair].
Qed.

(** C26: when instances join, the new table is balanced over the old and
    new instances together; only partitions that move to a new instance change
    their master, and the task set lists each of them with its old and its new
    master. *)
Theorem scaleout_remaster_correct m arr news :
  mngr_ok m -> can_join (inst_part_tbl m) news -> news `prefix_of` arr ->
  exists m' T, drc_scaleout_remaster false arr (Z.of_nat (length news)) (drc_int_remaster_target m) = Done (CT_SUCCESS, m') /\
    table_ok (target_part_map (remaster_mngr m')) (target_inst_part_tbl (remaster_mngr m')) (inst_num m + Z.of_nat (length news)) /\
    task_num (remaster_mngr m') = Z.of_nat (length T) /\
    (forall j, used (target_inst_part_tbl (remaster_mngr m')) j = used (inst_part_tbl m) j || bool_decide (j ∈ news)) /\
    reassigned (part_map m) (target_part_map (remaster_mngr m')) (remaster_task_set (remaster_mngr m')) T (fun d => d ∈ news).
Proof.
  intros [Hok Hlen] Hcj Hpre. destruct (scaleout_spec m arr news Hok Hlen Hcj Hpre) as (m' & T & Hrun & Htab & Hnum & Htn & Hu & Hra & _).
  exists m', T. rewrite <- Hnum. done.
Qed.

(** C27: when instances leave or fail, the new table is balanced over those
    that stay; exactly the partitions of the departed change their master, each
    to an instance that stays, and for a failed instance no task is left. *)
Theorem scalein_remaster_correct m arr dels is_abort :
  mngr_ok m -> can_leave (inst_part_tbl m) (inst_num m) dels -> dels `prefix_of` arr ->
  exists m' T, drc_scalein_remaster arr (Z.of_nat (length dels)) is_abort (drc_int_remaster_target m) = Done (CT_SUCCESS, m') /\
    table_ok (target_part_map (remaster_mngr m')) (target_inst_part_tbl (remaster_mngr m')) (inst_num m - Z.of_nat (length dels)) /\
    task_num (remaster_mngr m') = (if is_abort then 0 else Z.of_nat (length T)) /\
    (forall j, used (target_inst_part_tbl (remaster_mngr m')) j = used (inst_part_tbl m) j && negb (bool_decide (j ∈ dels))) /\
    reassigned (part_map m) (target_part_map (remaster_mngr m')) (remaster_task_set (remaster_mngr m')) T
      (fun d => used (inst_part_tbl m) d = true /\ d ∉ dels) /\
    (forall p a, (part_map m).[p] = Some a -> p ∈ T <-> pt_inst a ∈ dels).
Proof.
  intros [Hok Hlen] Hcl Hpre. destruct (scalein_spec m arr dels is_abort Hok Hlen Hcl Hpre) as (m' & T & Hrun & Htab & Hnum & Htn & Hu & Hra & Hp & _).
  exists m', T. rewrite <- Hnum. done.
Qed.
