(* ===== verification/RemasterThms.v ===== *)
(** * Waiting for the instances, and deposit instances

    The loop in which the reformer waits for every instance to reach a status,
    and the map that says which instance stands in for another.  Source:
    src/pkg/src/cluster/dtc_drc.c. *)

From stdpp Require Import prelude list.
From S2P Require Import Prelude GlobalRes DrcTypes DrcPart.

Open Scope Z_scope.
Open Scope drc_scope.

(** ** Waiting *)

Definition valid_ids (ids : list Z) : Prop := Forall (fun id => 0 <= id < CT_MAX_INSTANCES) ids.

(** Every instance that stays and every one that leaves has reached [status]. *)
Definition all_ready (rf : reform_info) (status : drc_remaster_status) (drm : list drc_remaster_status) : Prop :=
  Forall (fun id => drm.[id] = Some status) (rf_ids (rf_after rf) ++ rf_ids (rf_leave rf)).

Lemma all_at_spec ids status drm :
  valid_ids ids -> Z.of_nat (length drm) = CT_MAX_INSTANCES ->
  all_at ids status drm = Done (bool_decide (Forall (fun id => drm.[id] = Some status) ids)).
Proof.
  intros Hids Hlen. induction Hids as [| id ids Hid _ IH]; cbn [all_at]; [done |].
  destruct (lookupZ_is_Some drm id) as [s Hs]; [lia |]. rewrite (arr_get_eq _ _ _ Hs). ostep. case_decide as Hne.
  - rewrite bool_decide_eq_false_2; [done |]. rewrite Forall_cons. intros [? _]. congruence.
  - subst s. rewrite IH. f_equal. apply bool_decide_ext. rewrite Forall_cons. tauto.
Qed.

Lemma is_ready_spec rf status drm :
  valid_ids (rf_ids (rf_after rf)) -> valid_ids (rf_ids (rf_leave rf)) -> Z.of_nat (length drm) = CT_MAX_INSTANCES ->
  exists b, drc_remaster_is_ready rf status drm = Done b /\ (b = true <-> all_ready rf status drm).
Proof.
  intros Ha Hl Hlen. unfold drc_remaster_is_ready, all_ready. rewrite (all_at_spec _ _ _ Ha Hlen). ostep.
  pose proof (Forall_app (fun id => drm.[id] = Some status) (rf_ids (rf_after rf)) (rf_ids (rf_leave rf))) as Happ.
  case_bool_decide as H1; cbn [negb].
  - rewrite (all_at_spec _ _ _ Hl Hlen). eexists. split; [done |]. rewrite bool_decide_eq_true. tauto.
  - eexists. split; [done |]. split; [done | tauto].
Qed.

Section wait.
Context (polls : nat -> list drc_remaster_status * drc_remaster_status) (rf : reform_info) (timeout : Z) (status : drc_remaster_status).
Hypothesis Hafter : valid_ids (rf_ids (rf_after rf)).
Hypothesis Hleave : valid_ids (rf_ids (rf_leave rf)).
Hypothesis Hpolls : forall k, Z.of_nat (length (polls k).1) = CT_MAX_INSTANCES.
Hypothesis Htimeout : 0 <= timeout < 2 ^ 63.

(** Turn [k] finds everybody ready, and no earlier turn gave up. *)
Definition ready_in_time (k0 k : nat) : Prop :=
  all_ready rf status (polls k).1 /\
  forall j, (k0 <= j < k)%nat -> (polls j).2 <> REMASTER_FAIL /\ REMASTER_SLEEP_INTERVAL * Z.of_nat j < timeout.

Lemma wait_loop_spec fuel k :
  timeout < REMASTER_SLEEP_INTERVAL * (Z.of_nat k + Z.of_nat fuel - 1) -> (0 < fuel)%nat ->
  exists r, wait_ready_loop fuel k polls rf (REMASTER_SLEEP_INTERVAL * Z.of_nat k) timeout status = Done r /\
    (r = CT_SUCCESS <-> exists j, (k <= j)%nat /\ ready_in_time k j).
Proof.
  revert k. induction fuel as [| fuel IH]; intros k Hf Hpos; [lia |]. unfold REMASTER_SLEEP_INTERVAL in *.
  cbn [wait_ready_loop]. pose proof (Hpolls k) as Hlen. destruct (polls k) as [drm local] eqn:Hp. cbn in Hlen.
  destruct (is_ready_spec rf status drm Hafter Hleave Hlen) as (b & -> & Hb). ostep.
  assert (Hhere : all_ready rf status drm -> exists j, (k <= j)%nat /\ ready_in_time k j).
  { intros Hr. exists k. split; [done |]. split; [by rewrite Hp | lia]. }
  assert (Hstop : ~ all_ready rf status drm -> local = REMASTER_FAIL \/ timeout <= 5 * Z.of_nat k -> ~ exists j, (k <= j)%nat /\ ready_in_time k j).
  { intros Hn Hwhy (j & Hj & Hr & Hbefore). destruct (decide (j = k)) as [-> |]; [by rewrite Hp in Hr |].
    destruct (Hbefore k) as [H1 H2]; [lia |]. rewrite Hp in H1. unfold REMASTER_SLEEP_INTERVAL in H2. destruct Hwhy; [done | lia]. }
  destruct b; [exists CT_SUCCESS; split; [done |]; split; [intros _; apply Hhere; tauto | done] |].
  assert (Hn : ~ all_ready rf status drm) by (rewrite <- Hb; done).
  case_decide as Hfail; [exists CT_ERROR; split; [done |]; split; [done | intros H; destruct (Hstop Hn (or_introl Hfail) H)] |].
  destruct (Z.leb_spec timeout (5 * Z.of_nat k)) as [Hto | Hto].
  { exists CT_ERROR. split; [done |]. split; [done | intros H; destruct (Hstop Hn (or_intror Hto) H)]. }
  change REMASTER_SLEEP_INTERVAL with 5. replace (u64 (5 * Z.of_nat k + 5)) with (5 * Z.of_nat (S k)) by (unfold u64; rewrite Z.mod_small; lia).
  destruct (IH (S k)) as (r & -> & Hr); [lia | lia |]. exists r. split; [done |]. rewrite Hr. split.
  - intros (j & Hj & Hrj & Hbef). exists j. split; [lia |]. split; [done |]. intros i Hi. destruct (decide (i = k)) as [-> |]; [rewrite Hp; split; [done | unfold REMASTER_SLEEP_INTERVAL; lia] | apply Hbef; lia].
  - intros (j & Hj & Hrj & Hbef). assert (j <> k) by (intros ->; rewrite Hp in Hrj; done). exists j. split; [lia |]. split; [done |]. intros i Hi. apply Hbef. lia.
Qed.

(** C39: the wait for all instances always comes to an end, whatever its turns
    see (the fuel of timeout / 5 + 2 turns is never used up); it succeeds exactly
    when some turn finds every instance at the awaited status and no earlier
    turn found that the local remaster has failed or the time has run out. *)
Theorem wait_all_node_ready_terminates :
  exists r, drc_remaster_wait_all_node_ready polls rf timeout status = Done r /\ (r = CT_SUCCESS <-> exists k, ready_in_time 0 k).
Proof.
  destruct (wait_loop_spec (wait_turns timeout) 0) as (r & Hrun & Hr).
  - unfold wait_turns, REMASTER_SLEEP_INTERVAL. pose proof (Z.div_pos timeout 5 ltac:(lia) ltac:(lia)). pose proof (Z.mod_pos_bound timeout 5 ltac:(lia)). pose proof (Z.div_mod timeout 5 ltac:(lia)). lia.
  - unfold wait_turns. lia.
  - exists r. split; [exact Hrun |]. rewrite Hr. split; [intros (j & _ & H); by exists j | intros (j & H); exists j; split; [lia | done]].
Qed.
End wait.

(** ** Status *)

(** A failed remaster stays failed whatever status is reported
    locally, the status the master keeps of an instance only grows, and no
    other instance's status is touched. *)
Theorem remaster_status_monotone m st inst drm :
  0 <= inst < CT_MAX_INSTANCES -> Z.of_nat (length drm) = CT_MAX_INSTANCES ->
  (pm_remaster_status m = REMASTER_FAIL -> drc_update_remaster_local_status st m = m) /\
  exists drm' old new, drc_master_update_inst_remaster_status inst st drm = Done (CT_SUCCESS, drm') /\
    drm.[inst] = Some old /\ drm'.[inst] = Some new /\ remaster_num new = Z.max (remaster_num old) (remaster_num st) /\
    forall j, j <> inst -> drm'.[j] = drm.[j].
Proof.
  intros Hi Hlen. split.
  - intros Hf. unfold drc_update_remaster_local_status. rewrite decide_False; [done |]. intros Hne. exact (Hne Hf).
  - destruct (lookupZ_is_Some drm inst) as [old Hold]; [lia |]. unfold drc_master_update_inst_remaster_status. rewrite (arr_get_eq _ _ _ Hold). ostep.
    destruct (Z.ltb_spec (remaster_num old) (remaster_num st)).
    + rewrite (arr_set_eq _ _ _ _ Hold). ostep. eexists _, old, st. split; [done |]. split; [done |]. rewrite lookupZ_insertZ_eq by lia. split; [done |]. split; [lia |].
      intros j Hj. by apply lookupZ_insertZ_ne.
    + ostep. exists drm, old, old. split_and!; try done. lia.
Qed.

(** ** Deposit instances *)

Lemma set_deposit_ids_spec ids deposit dm :
  valid_ids ids -> Z.of_nat (length dm) = CT_MAX_INSTANCES ->
  exists dm', set_deposit_ids ids deposit dm = Done dm' /\ Z.of_nat (length dm') = CT_MAX_INSTANCES /\
    forall i, dm'.[i] = if decide (i ∈ ids) then Some (deposit i) else dm.[i].
Proof.
  intros Hids. revert dm. induction Hids as [| id ids Hid _ IH]; intros dm Hlen; cbn [set_deposit_ids].
  - exists dm. split; [done |]. split; [done |]. intros i. by rewrite decide_False by set_solver.
  - destruct (lookupZ_is_Some dm id) as [d Hd]; [lia |]. unfold drc_set_deposit_id. rewrite (arr_set_eq _ _ _ _ Hd). ostep.
    destruct (IH (dm.[id <- deposit id])) as (dm' & -> & Hlen' & Hdm'); [by rewrite length_insertZ |]. exists dm'. split; [done |]. split; [done |].
    intros i. rewrite Hdm'. destruct (decide (i ∈ ids)) as [Hi | Hi]; [by rewrite decide_True by set_solver |].
    destruct (decide (i = id)) as [-> | Hne]; [rewrite decide_True by set_solver; apply lookupZ_insertZ_eq; lia |].
    rewrite decide_False by set_solver. apply lookupZ_insertZ_ne. congruence.
Qed.

(** The instance that stands in for [i] after a reform; [old] stood in before. *)
Definition deposit_after (rf : reform_info) (i old : Z) : Z :=
  if decide (i ∈ rf_ids (rf_fail rf)) then rf_master_id rf
  else if decide (i ∈ rf_ids (rf_join rf)) then i
  else if decide (i ∈ rf_ids (rf_abort rf) ++ rf_ids (rf_leave rf)) then rf_master_id rf else old.

(** After a reform the instance that stands in for another is the
    reformer when that one left, aborted or failed, itself when it joined, and
    the same as before otherwise. *)
Theorem remaster_inst_list_correct rf dm i old :
  valid_ids (rf_ids (rf_leave rf)) -> valid_ids (rf_ids (rf_abort rf)) -> valid_ids (rf_ids (rf_join rf)) -> valid_ids (rf_ids (rf_fail rf)) ->
  Z.of_nat (length dm) = CT_MAX_INSTANCES -> 0 <= rf_master_id rf < CT_MAX_INSTANCES -> 0 <= i < CT_MAX_INSTANCES -> drc_get_deposit_id i dm = Done old ->
  exists dm', drc_remaster_inst_list rf dm = Done dm' /\ drc_get_deposit_id i dm' = Done (deposit_after rf i old).
Proof.
  intros H1 H2 H3 H4 Hlen Hm Hi Hold. unfold drc_remaster_inst_list.
  destruct (set_deposit_ids_spec _ (fun _ => rf_master_id rf) dm H1 Hlen) as (d1 & -> & Hl1 & Hd1). ostep.
  destruct (set_deposit_ids_spec _ (fun _ => rf_master_id rf) d1 H2 Hl1) as (d2 & -> & Hl2 & Hd2). ostep.
  destruct (set_deposit_ids_spec _ (fun id => id) d2 H3 Hl2) as (d3 & -> & Hl3 & Hd3). ostep.
  destruct (set_deposit_ids_spec _ (fun _ => rf_master_id rf) d3 H4 Hl3) as (d4 & -> & _ & Hd4). exists d4. split; [done |].
  unfold drc_get_deposit_id in *. destruct (Z.ltb_spec CT_MAX_INSTANCES i); [lia |]. destruct (lookupZ_is_Some dm i) as [d Hd]; [lia |].
  rewrite (arr_get_eq _ _ _ Hd) in Hold. rewrite outcome_ret_bind in Hold. injection Hold as <-. unfold arr_get, deposit_after. rewrite Hd4, Hd3, Hd2, Hd1, Hd.
  assert (Hms : u8 (rf_master_id rf) = rf_master_id rf) by (apply u8_small; unfold CT_MAX_INSTANCES in *; lia).
  assert (His : u8 i = i) by (apply u8_small; unfold CT_MAX_INSTANCES in *; lia).
  destruct (decide (i ∈ rf_ids (rf_fail rf))); [ostep; by rewrite Hms |]. destruct (decide (i ∈ rf_ids (rf_join rf))); [ostep; by rewrite His |].
  destruct (decide (i ∈ rf_ids (rf_abort rf))); [rewrite decide_True by set_solver; ostep; by rewrite Hms |].
  destruct (decide (i ∈ rf_ids (rf_leave rf))); [rewrite decide_True by set_solver; ostep; by rewrite Hms |].
  rewrite decide_False by set_solver. ostep. done.
Qed.

(** The bound check of the deposit lookup lets the first invalid
    instance number through, and the lookup then reads past the map. *)
Theorem get_deposit_id_past_end dm :
  Z.of_nat (length dm) = CT_MAX_INSTANCES -> drc_get_deposit_id CT_MAX_INSTANCES dm = Crash OutOfBounds.
Proof.
  intros Hlen. unfold drc_get_deposit_id. rewrite Z.ltb_irrefl. unfold arr_get. destruct (dm.[CT_MAX_INSTANCES]) eqn:E; [| done].
  apply lookupZ_lt in E. lia.
Qed.
