(* ===== verification/PartDemo.v ===== *)
(** * The partition table on a small cluster

    A cluster is started on instance 0, instances 1 and 2 join, and the
    remaster ends.  The properties of the partition table are applied to it,
    and two reforms are shown in which the code does not do what it means to.
    Source: src/pkg/src/cluster/dtc_drc.c. *)

From stdpp Require Import prelude list.
From S2P Require Import Prelude GlobalRes DrcTypes DrcPart PartProps PartThms RemasterThms.

Open Scope Z_scope.
Open Scope drc_scope.

Module PartDemo.

(** ** The cluster *)

Definition m0 : drc_part_mngr :=
  mk_mngr 0 false 0 REMASTER_PREPARE false 0 false (replicate 1024 (mk_part 0 0 0)) (replicate 64 (mk_ipart 0 0 0 0 false))
    (mk_remaster [] [] (replicate 1024 (mk_task 0 0 0 0)) 0 [] []).

Definition none : reform_list := mk_rlist [] 0.
Definition joining : reform_info := mk_reform 0 (mk_rlist [0; 1; 2] 3) (mk_rlist [1; 2] 2) none none none.

(** The result of a run that does not crash. *)
Definition result {A} (d : A) (o : outcome A) : A := match o with Done a => a | Crash _ => d end.

Definition m1 : drc_part_mngr := result m0 (drc_part_init [0] 1 m0).
Definition joined : drc_part_mngr := snd (result (CT_SUCCESS, m1) (drc_execute_remaster false joining m1)).
Definition m2 : drc_part_mngr := publish_target joined.
Definition m3 : drc_part_mngr := drc_update_remaster_local_status REMASTER_DONE m2.

Lemma lookup_blank j e : (replicate 64 (mk_ipart 0 0 0 0 false)).[j] = Some e -> e = mk_ipart 0 0 0 0 false.
Proof. intros [_ [-> _]%lookup_replicate]%lookupZ_Some. reflexivity. Qed.

Lemma m0_blank : blank_table m0.
Proof.
  split; [reflexivity |]. split; [vm_compute; reflexivity |]. split; [vm_compute; reflexivity |]. split; [vm_compute; reflexivity |].
  intros j e He%lookup_blank. rewrite He. split; reflexivity.
Qed.

Lemma zero_ok : 0 <= 0 < CT_MAX_INSTANCES.
Proof. unfold CT_MAX_INSTANCES. lia. Qed.

(** The specifications give the states of the run, so that no table of a
    thousand partitions has to be computed. *)
Lemma init_m1 : drc_part_init [0] 1 m0 = Done m1 /\ mngr_ok m1 /\ forall j, used (inst_part_tbl m1) j = bool_decide (j = 0).
Proof.
  destruct (part_init_ok m0 0 m0_blank zero_ok) as (m & Hrun & Htab & Hused & Hrm). unfold m1. rewrite Hrun. cbn [result].
  split; [reflexivity |]. split; [| exact Hused]. split; [exact Htab |]. rewrite Hrm. apply m0_blank.
Qed.

Lemma run_init : drc_part_init [0] 1 m0 = Done m1.
Proof. exact (proj1 init_m1). Qed.

Lemma m1_ok : mngr_ok m1.
Proof. exact (proj1 (proj2 init_m1)). Qed.

Lemma joiners : can_join (inst_part_tbl m1) [1; 2].
Proof.
  split; [discriminate |]. split; [apply (bool_decide_unpack _); vm_compute; exact I |].
  intros d [-> | [-> | []%not_elem_of_nil]%elem_of_cons]%elem_of_cons; (split; [unfold CT_MAX_INSTANCES; lia |]); exact (proj2 (proj2 init_m1) _).
Qed.

Lemma joining_kind : one_kind m1 joining.
Proof. refine (join_only m1 joining [1; 2] joiners _ _ _ _ _); try reflexivity; try (exists []; reflexivity). Qed.

Lemma run_join : drc_execute_remaster false joining m1 = Done (CT_SUCCESS, joined).
Proof. unfold joined. destruct (execute_ok m1 joining m1_ok joining_kind) as (m' & -> & _). reflexivity. Qed.

Lemma join_run m m' m'' :
  drc_execute_remaster false joining m = Done (CT_SUCCESS, m') -> drc_scaleout_remaster false [1; 2] 2 (drc_int_remaster_target m) = Done (CT_SUCCESS, m'') ->
  m' = m''.
Proof.
  unfold drc_execute_remaster. cbn [joining rf_join rf_leave rf_abort rf_fail inst_id_count inst_id_list none Z.ltb Z.compare]. intros Hex Hrun.
  revert Hex. rewrite Hrun. osteps. intros [= <-]. reflexivity.
Qed.

(** What the reform made of the table. *)
Lemma joined_table : 1 < inst_num joined /\ forall j, used (target_inst_part_tbl (remaster_mngr joined)) j = bool_decide (j = 0) || bool_decide (j ∈ [1; 2]).
Proof.
  destruct m1_ok as [Htab Hlen]. destruct (scaleout_spec m1 [1; 2] [1; 2] Htab Hlen joiners) as (m' & T & Hrun & _ & Hnum & _ & Hu & _); [exists []; reflexivity |].
  rewrite (join_run m1 joined m' run_join Hrun).
  split.
  - destruct Htab as [[own Hwf] Hba]. pose proof (table_num_range _ _ _ _ _ Hwf Hba) as Hr. rewrite Hnum. cbn [length]. lia.
  - intros j. rewrite Hu, (proj2 (proj2 init_m1)). reflexivity.
Qed.

Lemma join_step : part_step m1 m2.
Proof. exact (pstep_reform joining m1 joined joining_kind run_join). Qed.

Lemma reach_3 : rtc part_step m1 m3.
Proof. exact (rtc_l _ _ _ _ join_step (rtc_once _ _ (pstep_status REMASTER_DONE m2))). Qed.

Lemma m3_ok : mngr_ok m3.
Proof. exact (part_step_ok _ _ (pstep_status REMASTER_DONE m2) (part_step_ok _ _ join_step m1_ok)). Qed.

Lemma published_table st m :
  inst_num (drc_update_remaster_local_status st (publish_target m)) = inst_num m /\
  inst_part_tbl (drc_update_remaster_local_status st (publish_target m)) = target_inst_part_tbl (remaster_mngr m).
Proof. unfold drc_update_remaster_local_status. destruct (decide _); split; reflexivity. Qed.

(** ** The properties applied *)

Lemma part_reach_balanced_witness : table_ok (part_map m3) (inst_part_tbl m3) (inst_num m3).
Proof. exact (proj1 (part_reach_balanced m0 0 m1 m3 m0_blank zero_ok run_init reach_3)). Defined.

Lemma scaleout_remaster_correct_witness :
  exists m' (T : list Z), drc_scaleout_remaster false [1; 2] 2 (drc_int_remaster_target m1) = Done (CT_SUCCESS, m') /\
    task_num (remaster_mngr m') = Z.of_nat (length T).
Proof.
  destruct (scaleout_remaster_correct m1 [1; 2] [1; 2] m1_ok joiners) as (m' & T & Hrun & _ & Htn & _); [exists []; reflexivity |].
  exists m', T. split; [exact Hrun | exact Htn].
Defined.

Lemma leavers : can_leave (inst_part_tbl m3) (inst_num m3) [1].
Proof.
  split; [discriminate |]. split; [apply (bool_decide_unpack _); vm_compute; exact I |]. unfold m3, m2. destruct (published_table REMASTER_DONE joined) as [-> ->], joined_table as [Hn Hu].
  split; [exact Hn |]. intros d [-> | []%not_elem_of_nil]%elem_of_cons. rewrite Hu. reflexivity.
Qed.

Lemma scalein_remaster_correct_witness :
  exists m' (T : list Z), drc_scalein_remaster [1] 1 false (drc_int_remaster_target m3) = Done (CT_SUCCESS, m') /\
    task_num (remaster_mngr m') = Z.of_nat (length T).
Proof.
  destruct (scalein_remaster_correct m3 [1] [1] false m3_ok leavers) as (m' & T & Hrun & _ & Htn & _); [exists []; reflexivity |].
  exists m', T. split; [exact Hrun | exact Htn].
Defined.

(** Everybody is ready at the third turn. *)
Definition slow_polls (k : nat) : list drc_remaster_status * drc_remaster_status :=
  (replicate 64 (match k with O | S O => REMASTER_PREPARE | _ => REMASTER_ASSIGN_TASK end), REMASTER_PREPARE).

Lemma wait_all_node_ready_terminates_witness :
  exists r, drc_remaster_wait_all_node_ready slow_polls joining 5000 REMASTER_ASSIGN_TASK = Done r /\ r = CT_SUCCESS.
Proof.
  destruct (wait_all_node_ready_terminates slow_polls joining 5000 REMASTER_ASSIGN_TASK) as (r & Hrun & _).
  - apply (bool_decide_unpack _). vm_compute. exact I.
  - apply (bool_decide_unpack _). vm_compute. exact I.
  - intros k. unfold slow_polls. cbn [fst]. rewrite length_replicate. reflexivity.
  - lia.
  - exists r. split; [exact Hrun |]. vm_compute in Hrun. injection Hrun as <-. reflexivity.
Defined.

Lemma remaster_status_monotone_witness :
  exists drm', drc_master_update_inst_remaster_status 1 REMASTER_MIGRATE (replicate 64 REMASTER_PREPARE) = Done (CT_SUCCESS, drm').
Proof.
  destruct (remaster_status_monotone m3 REMASTER_MIGRATE 1 (replicate 64 REMASTER_PREPARE)) as [_ (drm' & _ & _ & Hrun & _)];
    [unfold CT_MAX_INSTANCES; lia | vm_compute; reflexivity |]. exists drm'. exact Hrun.
Defined.

Definition leaving : reform_info := mk_reform 0 (mk_rlist [0] 1) none (mk_rlist [1] 1) (mk_rlist [2] 1) none.

Lemma remaster_inst_list_correct_witness :
  exists dm', drc_remaster_inst_list leaving drc_deposit_map_init = Done dm' /\ drc_get_deposit_id 2 dm' = Done 0.
Proof.
  destruct (remaster_inst_list_correct leaving drc_deposit_map_init 2 2) as (dm' & Hrun & Hget);
    [apply (bool_decide_unpack _); vm_compute; exact I .. | vm_compute; reflexivity | unfold CT_MAX_INSTANCES; cbn; lia | unfold CT_MAX_INSTANCES; lia | vm_compute; reflexivity |].
  exists dm'. split; [exact Hrun |]. rewrite Hget. vm_compute. reflexivity.
Defined.

Lemma get_deposit_id_past_end_witness : drc_get_deposit_id 64 drc_deposit_map_init = Crash OutOfBounds.
Proof. apply (get_deposit_id_past_end drc_deposit_map_init). vm_compute. reflexivity. Defined.

(** ** Two reforms that go wrong *)

(** The partitions that [inst] masters in a map. *)
Definition mastered (inst : Z) (pm : list drc_part) : nat := length (filter (fun a => pt_inst a = inst) pm).

(** When one reform has both an instance that leaves and one that
    aborted, the second pass of the scale-in follows the links of the table
    before the reform although the first pass has changed the lists: half of
    the partitions keep the aborted instance as their master. *)
Theorem leave_and_abort_strands_partitions :
  match drc_execute_remaster false leaving m3 with
  | Done (st, m') => st = CT_SUCCESS /\ mastered 2 (target_part_map (remaster_mngr m')) = 511%nat /\
      used (target_inst_part_tbl (remaster_mngr m')) 2 = false
  | Crash _ => False
  end.
Proof. vm_compute. split; [reflexivity |]. split; reflexivity. Qed.

Definition with_reformer (i : Z) (m : drc_part_mngr) : drc_part_mngr :=
  mk_mngr (version m) (pm_inited m) (inst_num m) (pm_remaster_status m) (is_reentrant m) i (mgrt_fail_list m) (part_map m) (inst_part_tbl m) (remaster_mngr m).

(** When an instance joins while the catalog is to be moved to
    the reformer, the tasks are offered to the joining instances, which expect
    nothing, and the loop runs past the list of instances. *)
Theorem reformer_mode_scaleout_overruns :
  drc_scaleout_remaster true ([3] ++ replicate 63 0) 1 (drc_int_remaster_target (with_reformer 1 m3)) = Crash OutOfBounds.
Proof. vm_compute. reflexivity. Qed.

End PartDemo.
