(* ===== verification/DrcMgrt.v ===== *)
(** * Migration of partitions (dtc_drc.c)

    When a partition gets another master, the old master (the exporter) packs
    the page and lock resources of the partition into messages, the new master
    (the importer) enters them into its catalog, and at the end of the reform
    the exporter frees its own.  The page and the lock side have the same
    shape; [MgrtRes] is what a resource type provides, the loops are written
    once, and the handlers of the code are their two instances.

    A message is a header and a block of structures; a structure is found at
    the offset at which it was written ([cell_at]), and reading anything else
    there is a crash.  [self] is DRC_SELF_INST_ID, [net] tells how each attempt
    to send ends, [malloc_ok] whether memory can be had.  The exporter holds the
    spin lock [res_part_stat_lock] of the partition while it packs, which every
    handler that changes a resource of the partition takes too, so nothing
    changes under it.  Statistics counters, log lines, sequence numbers of
    messages and spin locks are left out.
    Source: src/pkg/src/cluster/dtc_drc.c, dtc_drc.h. *)

From stdpp Require Import prelude list.
From S2P Require Import Prelude Bitmap ResPool DrcList ResMap ConvertQ GlobalRes DrcTypes DrcPart.

Open Scope Z_scope.
Open Scope drc_scope.

(** ** Messages *)

(** Sizes of the structures, in bytes. *)
Definition sizeof_res_master_msg : Z := 80.
Definition sizeof_buf_res_msg : Z := 56.
Definition sizeof_lock_res_msg : Z := 40.
Definition sizeof_le_msg : Z := 4.
Definition sizeof_uint32 : Z := 4.
Definition MES_MESSAGE_BUFFER_SIZE : Z := 32 * 1024 + 64.
Definition REMASTER_MIG_MAX_BUF_RES_NUM : Z := (MES_MESSAGE_BUFFER_SIZE - sizeof_res_master_msg) / sizeof_buf_res_msg.
Definition REMASTER_MIG_MAX_LOCK_RES_NUM : Z := (MES_MESSAGE_BUFFER_SIZE - sizeof_res_master_msg) / sizeof_lock_res_msg.
Definition REMASTER_SEND_MSG_RETRY_TIMES : nat := 3.

Definition DRC_RES_PAGE_TYPE : Z := 1.
Definition DRC_RES_LOCK_TYPE : Z := 2.
Definition PART_MIGRATE_COMPLETE : Z := 6.

Record drc_buf_res_msg := mk_bmsg {
  bm_mode : Z; bm_claimed_owner : Z; bm_latest_edp : Z; bm_latest_edp_lsn : Z; bm_le_num : Z; bm_page_id : page_id_t;
  bm_lsn : Z; bm_edp_map : Z; bm_readonly_copies : Z;
}.
Record drc_lock_res_msg := mk_lmsg { lm_res_id : drid_t; lm_mode : Z; lm_le_num : Z; lm_granted_map : Z }.
Record drc_le_msg := mk_le { le_inst_id : Z; le_mode : Z; le_inst_sid : Z }.

(** A structure in the block of a message. *)
Inductive mgrt_cell :=
| CellBuf (m : drc_buf_res_msg) | CellLock (m : drc_lock_res_msg) | CellLe (m : drc_le_msg) | CellCnt (n : Z).

Definition cell_size (c : mgrt_cell) : Z :=
  match c with
  | CellBuf _ => sizeof_buf_res_msg | CellLock _ => sizeof_lock_res_msg | CellLe _ => sizeof_le_msg | CellCnt _ => sizeof_uint32
  end.

(** The structure that begins [off] bytes into the block. *)
Fixpoint cell_at (off : Z) (cells : list mgrt_cell) : option mgrt_cell :=
  match cells with
  | [] => None
  | c :: cells => if off =? 0 then Some c else if off <? cell_size c then None else cell_at (off - cell_size c) cells
  end.

Record drc_res_master_msg := mk_mgrt {
  mg_src : Z; mg_dst : Z; mg_size : Z; mg_part_id : Z; mg_res_num : Z; mg_is_part_end : bool; mg_res_type : Z;
  mg_version : Z; mg_cells : list mgrt_cell;
}.

(** Reading at [offset], counted from the start of the message. *)
Definition read_cell {M} (proj : mgrt_cell -> option M) (cells : list mgrt_cell) (offset : Z) : outcome M :=
  match (c ← cell_at (offset - sizeof_res_master_msg) cells; proj c) with
  | Some m => Done m
  | None => Crash OutOfBounds
  end.

Definition as_le (c : mgrt_cell) : option drc_le_msg := match c with CellLe m => Some m | _ => None end.
Definition as_cnt (c : mgrt_cell) : option Z := match c with CellCnt n => Some n | _ => None end.
Definition as_buf (c : mgrt_cell) : option drc_buf_res_msg := match c with CellBuf m => Some m | _ => None end.
Definition as_lock (c : mgrt_cell) : option drc_lock_res_msg := match c with CellLock m => Some m | _ => None end.

(** How an attempt to send ends, and the alive instances seen after a failure. *)
Record send_attempt := mk_attempt { sa_ok : bool; sa_view : Z }.

Fixpoint send_retry (n k : nat) (att : nat -> send_attempt) (dst : Z) : outcome status_t :=
  match n with
  | O => Done CT_ERROR
  | S n => if sa_ok (att k) then Done CT_SUCCESS
           else alive ← drc_bitmap64_exist (sa_view (att k)) dst;
                if negb (alive : bool) then Done CT_ERROR else send_retry n (S k) att dst
  end.

Definition drc_mes_send_data_with_retry (att : nat -> send_attempt) (m : drc_res_master_msg) : outcome status_t :=
  if CT_MAX_INSTANCES <=? mg_dst m then Done CT_ERROR
  else send_retry REMASTER_SEND_MSG_RETRY_TIMES 0 att (mg_dst m).

(** ** Waiting requests in messages *)

Definition DRC_LE_SET (le : drc_lock_item) (inst_id mode inst_sid next : Z) : drc_lock_item :=
  mk_lock_item next (req_set_sid inst_sid (req_set_mode mode (req_set_inst inst_id (req_info le)))).

Fixpoint set_le_loop (n : nat) (loop : Z) (le converting : drc_lock_item) (q : drc_list) (pool : lock_pool)
    : outcome (list mgrt_cell) :=
  match n with
  | O => Done []
  | S n =>
      le ← (if loop =? 0 then Done converting
            else if loop =? 1 then DRC_GET_RES_ADDR_BY_ID pool (first q) else DRC_GET_RES_ADDR_BY_ID pool (li_next le));
      rest ← set_le_loop n (loop + 1) le converting q pool;
      Done (CellLe (mk_le (req_inst_id (req_info le)) (req_mode (req_info le)) (req_inst_sid (req_info le))) :: rest)
  end.

Definition drc_set_le_msg (le_num : Z) (converting : drc_lock_item) (q : drc_list) (pool : lock_pool) : outcome (list mgrt_cell) :=
  set_le_loop (Z.to_nat le_num) 0 converting converting q pool.

Fixpoint get_le_loop (n : nat) (cells : list mgrt_cell) (addr : Z) (q : drc_list) (pool : lock_pool) : outcome (drc_list * lock_pool) :=
  match n with
  | O => Done (q, pool)
  | S n =>
      le_msg ← read_cell as_le cells addr;
      '(le_idx, pool) ← drc_res_pool_alloc_item pool;
      if CT_INVALID_ID32 =? le_idx then Done (q, pool)
      else
        lock_item ← DRC_GET_RES_ADDR_BY_ID pool le_idx;
        pool ← drc_res_put pool le_idx (DRC_LE_SET lock_item (le_inst_id le_msg) (le_mode le_msg) (le_inst_sid le_msg) CT_INVALID_ID32);
        '(q, pool) ←
          (if count q =? 0 then Done (mk_list le_idx le_idx (count q), pool)
           else tail ← DRC_GET_RES_ADDR_BY_ID pool (last q);
                pool ← drc_res_put pool (last q) (mk_lock_item le_idx (req_info tail));
                Done (mk_list (first q) le_idx (count q), pool));
        get_le_loop n cells (addr + sizeof_le_msg) (mk_list (first q) (last q) (u32 (count q + 1))) pool
  end.

Definition drc_get_le_msg (cells : list mgrt_cell) (addr q_num : Z) (q : drc_list) (pool : lock_pool) : outcome (drc_list * lock_pool) :=
  get_le_loop (Z.to_nat q_num) cells addr q pool.

(** ** Resources and their messages *)

Definition buf_res_msg (b : drc_buf_res) (le_num : Z) : drc_buf_res_msg :=
  mk_bmsg (br_mode b) (br_claimed_owner b) (br_latest_edp b) (br_latest_edp_lsn b) (u8 le_num) (br_page_id b) (br_lsn b)
    (br_edp_map b) (br_readonly_copies b).

Definition lock_res_msg (a : drc_master_res) (le_num : Z) : drc_lock_res_msg :=
  mk_lmsg (mr_res_id a) (mr_mode a) le_num (mr_granted_map a).

(** The request being converted and the queue, from the message at [offset]. *)
Definition le_of_msg (cells : list mgrt_cell) (addr le_num : Z) (conv : drc_lock_item) (q : drc_list) (pool : lock_pool)
    : outcome (drc_lock_item * drc_list * lock_pool) :=
  le_msg ← read_cell as_le cells addr;
  let conv := DRC_LE_SET conv (le_inst_id le_msg) (le_mode le_msg) (le_inst_sid le_msg) CT_INVALID_ID32 in
  if 1 <? le_num then
    '(q, pool) ← drc_get_le_msg cells (addr + sizeof_le_msg) (le_num - 1) q pool;
    Done (conv, q, pool)
  else Done (conv, q, pool).

Definition drc_init_buf_res `{KernelAttr} (b : drc_buf_res) (m : drc_buf_res_msg) (id : Z) (cells : list mgrt_cell) (offset : Z)
    (pool : lock_pool) : outcome (drc_buf_res * lock_pool) :=
  '(conv, q, pool) ←
    (if bm_le_num m =? 0
     then Done (DRC_LE_SET (br_converting b) CT_INVALID_ID8 DRC_LOCK_NULL CT_INVALID_ID16 CT_INVALID_ID32, DRC_LIST_INIT, pool)
     else le_of_msg cells (offset + sizeof_buf_res_msg) (bm_le_num m) (br_converting b) (br_convert_q b) pool);
  Done (mk_buf_res (br_next b) id (bm_claimed_owner m) (bm_latest_edp m) DRC_RES_INVALID_ACTION (bm_latest_edp_lsn m) (bm_mode m)
          (bm_page_id m) conv q (drc_page_partid (bm_page_id m)) true (bm_edp_map m)
          (mk_node (prev (br_node b)) (nnext (br_node b)) id) (bm_lsn m) (bm_readonly_copies m), pool).

Definition dtc_init_lock_res (a : drc_master_res) (m : drc_lock_res_msg) (id : Z) (cells : list mgrt_cell) (offset : Z)
    (pool : lock_pool) : outcome (drc_master_res * lock_pool) :=
  '(conv, q, pool) ←
    (if lm_le_num m =? 0
     then Done (mk_lock_item (li_next (mr_converting a)) (req_set_inst CT_INVALID_ID8 (req_info (mr_converting a))), DRC_LIST_INIT, pool)
     else le_of_msg cells (offset + sizeof_lock_res_msg) (lm_le_num m) (mr_converting a) DRC_LIST_INIT pool);
  Done (mk_master_res CT_INVALID_ID32 id (lm_res_id m) (lm_mode m) (drc_lock_partid (lm_res_id m)) (lm_granted_map m) conv q
          (mk_node (prev (mr_node a)) (nnext (mr_node a)) id), pool).

Definition drc_check_migrate_buf_res_info (b : drc_buf_res) (m : drc_buf_res_msg) : status_t :=
  if negb (br_claimed_owner b =? bm_claimed_owner m) || negb (br_mode b =? bm_mode m) || negb (br_latest_edp b =? bm_latest_edp m) ||
     negb (br_latest_edp_lsn b =? bm_latest_edp_lsn m) || negb (br_lsn b =? bm_lsn m) || negb (br_edp_map b =? bm_edp_map m) ||
     negb (br_readonly_copies b =? bm_readonly_copies m)
  then CT_ERROR else CT_SUCCESS.

(** What a resource type provides to the migration: its type number, the
    request being converted, its message and the size of it, the key in the
    message, how far the importer moves after it, the comparison with a resource
    that is there already, and the initialisation. *)
Class MgrtRes (A K M : Type) := {
  mt_type : Z;
  mt_conv : A -> drc_lock_item;
  mt_q : A -> drc_list;
  mt_msg : A -> Z -> M;
  mt_cell : M -> mgrt_cell;
  mt_as : mgrt_cell -> option M;
  mt_key : M -> K;
  mt_size : Z;
  mt_step : M -> Z;
  mt_check : A -> M -> status_t;
  mt_init : A -> M -> Z -> list mgrt_cell -> Z -> lock_pool -> outcome (A * lock_pool);
}.

#[export] Instance buf_MgrtRes `{KernelAttr} : MgrtRes drc_buf_res page_id_t drc_buf_res_msg := {|
  mt_type := DRC_RES_PAGE_TYPE; mt_conv := br_converting; mt_q := br_convert_q; mt_msg := buf_res_msg; mt_cell := CellBuf; mt_as := as_buf;
  mt_key := bm_page_id; mt_size := sizeof_buf_res_msg; mt_step m := sizeof_buf_res_msg + bm_le_num m * sizeof_le_msg;
  mt_check := drc_check_migrate_buf_res_info; mt_init := drc_init_buf_res |}.

(** The importer of locks never sets the number of waiting requests by which
    it moves on, and does not compare a lock that is there already. *)
#[export] Instance lock_MgrtRes : MgrtRes drc_master_res drid_t drc_lock_res_msg := {|
  mt_type := DRC_RES_LOCK_TYPE; mt_conv := mr_converting; mt_q := mr_convert_q; mt_msg := lock_res_msg; mt_cell := CellLock; mt_as := as_lock;
  mt_key := lm_res_id; mt_size := sizeof_lock_res_msg; mt_step _ := sizeof_lock_res_msg + 0 * sizeof_le_msg;
  mt_check _ _ := CT_SUCCESS; mt_init := dtc_init_lock_res |}.

(** ** The exporter *)

(** The message being filled: its header, the next free offset, the number of
    resources and the structures in it; [ex_sent] are the messages sent. *)
Record export := mk_export { ex_offset : Z; ex_num : Z; ex_cells : list mgrt_cell; ex_sent : list drc_res_master_msg }.

(** The header of the messages for a task (drc_init_res_master_msg). *)
Definition drc_init_res_master_msg (self : Z) (task : drc_remaster_task) (res_type version : Z) (size res_num : Z) (is_part_end : bool)
    (cells : list mgrt_cell) : drc_res_master_msg :=
  mk_mgrt self (import_inst task) size (task_part task) res_num is_part_end res_type version cells.

Section exporter.
Context {A K M : Type} `{HG : GlobalItem A K} `{HM : !MgrtRes A K M}.
Context (self : Z) (task : drc_remaster_task) (trigger_version : Z) (net : nat -> nat -> send_attempt).
(** What the other threads do to the catalog and the request pool while the
    exporter sleeps with [n] looks left. *)
Context (others : nat -> drc_global_res A -> lock_pool -> drc_global_res A * lock_pool).
Implicit Types (g : drc_global_res A) (pool : lock_pool) (e : export).

(** Send what is in the message; the attempts of the [n]-th message are [net n]. *)
Definition export_send e (is_part_end : bool) : outcome (status_t * export) :=
  let m := drc_init_res_master_msg self task mt_type trigger_version (ex_offset e) (ex_num e) is_part_end (ex_cells e) in
  ret ← drc_mes_send_data_with_retry (net (length (ex_sent e))) m;
  match (ret : status_t) with
  | CT_SUCCESS => Done (CT_SUCCESS, mk_export (ex_offset e) (ex_num e) (ex_cells e) (ex_sent e ++ [m]))
  | CT_ERROR => Done (CT_ERROR, e)
  end.

(** [while (converting.req_info.inst_id != CT_INVALID_ID8) cm_sleep(3)]: at
    most [turns] looks at the resource [idx], which is read again after every
    sleep; the resource as the last look found it. *)
Fixpoint wait_converting (turns : nat) (idx : Z) g pool : outcome (A * drc_global_res A * lock_pool) :=
  match turns with
  | O => Crash OutOfFuel
  | S turns =>
      a ← gres_get g idx;
      if req_inst_id (req_info (mt_conv a)) =? CT_INVALID_ID8 then Done (a, g, pool)
      else let '(g, pool) := others turns g pool in wait_converting turns idx g pool
  end.

Definition export_le_num (a : A) : Z :=
  if CT_INVALID_ID8 =? req_inst_id (req_info (mt_conv a)) then 0 else u32 (1 + count (mt_q a)).

(** Put resource [a] into the message. *)
Definition export_put (a : A) (le_num : Z) pool e : outcome export :=
  les ← (if 0 <? le_num then drc_set_le_msg le_num (mt_conv a) (mt_q a) pool else Done []);
  Done (mk_export (ex_offset e + (mt_size + sizeof_le_msg * le_num)) (ex_num e + 1)
          (ex_cells e ++ mt_cell (mt_msg a le_num) :: les) (ex_sent e)).

(** The loop over the partition list: [n] resources left, the next is [idx]. *)
Fixpoint export_res_loop (turns n : nat) (idx : Z) g pool e : outcome (status_t * export * drc_global_res A * lock_pool) :=
  match n with
  | O => Done (CT_SUCCESS, e, g, pool)
  | S n =>
      '(a, g, pool) ← wait_converting turns idx g pool;
      let le_num := export_le_num a in
      '(ret, e) ←
        (if MES_MESSAGE_BUFFER_SIZE <? ex_offset e + mt_size + sizeof_le_msg * le_num
         then '(ret, e) ← export_send e false;
              match (ret : status_t) with
              | CT_ERROR => Done (CT_ERROR, e)
              | CT_SUCCESS => Done (CT_SUCCESS, mk_export sizeof_res_master_msg 0 [] (ex_sent e))
              end
         else Done (CT_SUCCESS, e));
      match (ret : status_t) with
      | CT_ERROR => Done (CT_ERROR, e, g, pool)
      | CT_SUCCESS => e ← export_put a le_num pool e;
                      export_res_loop turns n (nnext (node_of a)) g pool e
      end
  end.
End exporter.

Definition export_init : export := mk_export sizeof_res_master_msg 0 [] [].

(** What other threads may do to a catalog while the exporter sleeps. *)
Definition sleepers (A : Type) : Type := nat -> drc_global_res A -> lock_pool -> drc_global_res A * lock_pool.

(** Status, [*res_count], the messages sent, and the catalog and the pool at
    the end, which the exporter itself does not change. *)
Definition drc_send_buf_master_blk `{KernelAttr} (self : Z) (task : drc_remaster_task) (trigger_version : Z) (malloc_ok : bool) (turns : nat)
    (net : nat -> nat -> send_attempt) (others : sleepers drc_buf_res) (g : buf_catalog) (pool : lock_pool)
    : outcome (status_t * Z * list drc_res_master_msg * buf_catalog * lock_pool) :=
  res_list ← arr_get (res_parts g) (task_part task);
  if 0 =? count res_list then Done (CT_SUCCESS, 0, [], g, pool)
  else if negb malloc_ok then Done (CT_ERROR, 0, [], g, pool)
  else
    '(ret, e, g, pool) ← export_res_loop self task trigger_version net others turns (Z.to_nat (count res_list)) (first res_list) g pool export_init;
    match (ret : status_t) with
    | CT_ERROR => Done (CT_ERROR, count res_list, ex_sent e, g, pool)
    | CT_SUCCESS => '(ret, e) ← export_send (A := drc_buf_res) self task trigger_version net e false;
                    Done (ret, count res_list, ex_sent e, g, pool)
    end.

(** DRC_MGRT_MSG_SET_RES_CNT: the counts follow the resources. *)
Definition DRC_MGRT_MSG_SET_RES_CNT (buf_cnt lock_cnt : Z) (e : export) : export :=
  mk_export (ex_offset e + sizeof_uint32 + sizeof_uint32) (ex_num e) (ex_cells e ++ [CellCnt buf_cnt; CellCnt lock_cnt]) (ex_sent e).

(** The message buffer is used again: only the header and the counts are sent. *)
Definition drc_send_mgrt_part_end (self : Z) (task : drc_remaster_task) (trigger_version : Z) (net : nat -> nat -> send_attempt)
    (buf_cnt lock_cnt : Z) (e : export) : outcome (status_t * export) :=
  export_send (A := drc_master_res) self task trigger_version net
    (DRC_MGRT_MSG_SET_RES_CNT buf_cnt lock_cnt (mk_export sizeof_res_master_msg 0 [] (ex_sent e))) true.

Definition drc_send_lock_master_blk (self : Z) (task : drc_remaster_task) (trigger_version : Z) (malloc_ok : bool) (turns : nat)
    (net : nat -> nat -> send_attempt) (others : sleepers drc_master_res) (buf_res_cnt : Z) (g : lock_catalog) (pool : lock_pool)
    : outcome (status_t * Z * list drc_res_master_msg * lock_catalog * lock_pool) :=
  if negb malloc_ok then Done (CT_ERROR, 0, [], g, pool)
  else
    res_list ← arr_get (res_parts g) (task_part task);
    '(ret, e, g, pool) ← export_res_loop self task trigger_version net others turns (Z.to_nat (count res_list)) (first res_list) g pool export_init;
    match (ret : status_t) with
    | CT_ERROR => Done (CT_ERROR, 0, ex_sent e, g, pool)
    | CT_SUCCESS =>
        res_list ← arr_get (res_parts g) (task_part task);
        '(ret, e) ←
          (if ex_offset e + sizeof_uint32 + sizeof_uint32 <=? MES_MESSAGE_BUFFER_SIZE
           then export_send (A := drc_master_res) self task trigger_version net (DRC_MGRT_MSG_SET_RES_CNT buf_res_cnt (count res_list) e) true
           else '(ret, e) ← export_send (A := drc_master_res) self task trigger_version net e false;
                match (ret : status_t) with
                | CT_ERROR => Done (CT_ERROR, e)
                | CT_SUCCESS => drc_send_mgrt_part_end self task trigger_version net buf_res_cnt (count res_list) e
                end);
        Done (ret, match (ret : status_t) with CT_SUCCESS => count res_list | CT_ERROR => 0 end, ex_sent e, g, pool)
    end.

(** The pages first, then the locks with the counts of both; [gl] is the
    catalog of locks when their turn comes. *)
Definition drc_migrate_master_blk `{KernelAttr} (self : Z) (task : drc_remaster_task) (trigger_version : Z) (malloc_ok malloc_ok' : bool)
    (turns : nat) (net : nat -> nat -> send_attempt) (others : sleepers drc_buf_res) (others' : sleepers drc_master_res)
    (g : buf_catalog) (gl : lock_catalog) (pool : lock_pool)
    : outcome (status_t * list drc_res_master_msg * buf_catalog * lock_catalog * lock_pool) :=
  _ ← knl_panic (task_status task =? PART_WAIT_MIGRATE);
  '(ret, buf_res_cnt, sent, g, pool) ← drc_send_buf_master_blk self task trigger_version malloc_ok turns net others g pool;
  match (ret : status_t) with
  | CT_ERROR => Done (CT_ERROR, sent, g, gl, pool)
  | CT_SUCCESS =>
      '(ret, _, sent', gl, pool) ← drc_send_lock_master_blk self task trigger_version malloc_ok' turns
                                     (fun n => net (length sent + n)%nat) others' buf_res_cnt gl pool;
      Done (ret, sent ++ sent', g, gl, pool)
  end.

(** ** The importer *)

(** What the exporter announced for a partition, and who it is (rc_part_info_t). *)
Record rc_part_info := mk_pinfo { pi_buf_cnt : Z; pi_lock_cnt : Z; pi_src_inst : Z }.

(** The resources imported so far for a partition (drc_mgrt_res_cnt_t). *)
Record drc_mgrt_res_cnt := mk_rcnt { rc_buf_cnt : Z; rc_lock_cnt : Z }.

(** The catalogs and the part of the remaster manager that migration uses. *)
Record mgrt_ctx := mk_mctx {
  mx_buf : buf_catalog; mx_lock : lock_catalog; mx_items : lock_pool;
  mx_cnt : list drc_mgrt_res_cnt; mx_info : list rc_part_info; mx_tasks : list drc_remaster_task;
}.

Section importer.
Context {A K M : Type} `{HG : GlobalItem A K} `{HM : !MgrtRes A K M}.
Implicit Types (g : drc_global_res A) (pool : lock_pool).

(** Enter the resource of message [m] under item [id]; [None]: the resource
    that is there already has other contents. *)
Definition import_one (cells : list mgrt_cell) (offset : Z) (m : M) (id : Z) g pool : outcome (option (bool * drc_global_res A * lock_pool)) :=
  r ← gres_lookup g (mt_key m);
  match (r : option Z) with
  | Some j =>
      a ← gres_get g j;
      match mt_check a m with
      | CT_ERROR => Done None
      | CT_SUCCESS => g ← gres_free g id; Done (Some (false, g, pool))
      end
  | None =>
      a ← gres_get g id;
      '(a, pool) ← mt_init a m id cells offset pool;
      g ← gres_put g id a;
      g ← gres_map_add g (mt_key m) id;
      g ← gres_part_add g id;
      Done (Some (true, g, pool))
  end.

(** Status, offset reached, number of resources added, catalog and lock items. *)
Fixpoint import_loop (cells : list mgrt_cell) (offset : Z) (idx : list Z) (real_add : Z) g pool
    : outcome (status_t * Z * Z * drc_global_res A * lock_pool) :=
  match idx with
  | [] => Done (CT_SUCCESS, offset, real_add, g, pool)
  | id :: idx =>
      m ← read_cell mt_as cells offset;
      r ← import_one cells offset m id g pool;
      match (r : option (bool * drc_global_res A * lock_pool)) with
      | None => Done (CT_ERROR, offset, real_add, g, pool)
      | Some (added, g, pool) => import_loop cells (offset + mt_step m) idx (if added then u32 (real_add + 1) else real_add) g pool
      end
  end.

Definition gres_alloc_batch g (num : Z) : outcome (status_t * list Z * drc_global_res A) :=
  '(ret, idx, p) ← drc_res_pool_alloc_batch_item (res_pool (res_map g)) num;
  Done (ret, idx, g_set_pool g p).
End importer.

Definition drc_migrate_buf_res_l `{KernelAttr} (m : drc_res_master_msg) (idx : list Z) (g : buf_catalog) (pool : lock_pool)
    : outcome (status_t * Z * Z * buf_catalog * lock_pool) :=
  import_loop (K := page_id_t) (mg_cells m) sizeof_res_master_msg idx 0 g pool.

Definition drc_migrate_lock_res_l (m : drc_res_master_msg) (idx : list Z) (g : lock_catalog) (pool : lock_pool)
    : outcome (status_t * Z * Z * lock_catalog * lock_pool) :=
  import_loop (K := drid_t) (mg_cells m) sizeof_res_master_msg idx 0 g pool.

Definition drc_process_buf_master_blk `{KernelAttr} (trigger_version : Z) (malloc_ok : bool) (m : drc_res_master_msg) (c : mgrt_ctx)
    : outcome (status_t * mgrt_ctx) :=
  if (REMASTER_MIG_MAX_BUF_RES_NUM <? mg_res_num m) || (DRC_MAX_PART_NUM <=? mg_part_id m) || negb (mg_version m =? trigger_version)
  then Done (CT_ERROR, c)
  else if mg_res_num m =? 0 then Done (CT_SUCCESS, c)
  else if negb malloc_ok then Done (CT_ERROR, c)
  else
    '(status, idx, g) ← gres_alloc_batch (mx_buf c) (mg_res_num m);
    let c := mk_mctx g (mx_lock c) (mx_items c) (mx_cnt c) (mx_info c) (mx_tasks c) in
    match (status : status_t) with
    | CT_ERROR => Done (CT_ERROR, c)
    | CT_SUCCESS =>
        '(status, _, real_add, g, pool) ← drc_migrate_buf_res_l m idx (mx_buf c) (mx_items c);
        let c := mk_mctx g (mx_lock c) pool (mx_cnt c) (mx_info c) (mx_tasks c) in
        match (status : status_t) with
        | CT_ERROR => Done (CT_ERROR, c)
        | CT_SUCCESS =>
            n ← arr_get (mx_cnt c) (mg_part_id m);
            cnt ← arr_set (mx_cnt c) (mg_part_id m) (mk_rcnt (rc_buf_cnt n + real_add) (rc_lock_cnt n));
            Done (CT_SUCCESS, mk_mctx (mx_buf c) (mx_lock c) (mx_items c) cnt (mx_info c) (mx_tasks c))
        end
    end.

(** The first task that moves [part_id] from [export] to this instance gets [status]. *)
Fixpoint drc_update_remaster_task_status (self part_id status export : Z) (tasks : list drc_remaster_task) : list drc_remaster_task :=
  match tasks with
  | [] => []
  | t :: ts =>
      if (task_part t =? part_id) && (export_inst t =? export) && (import_inst t =? self)
      then mk_task (export_inst t) (import_inst t) (task_part t) status :: ts
      else t :: drc_update_remaster_task_status self part_id status export ts
  end.

Definition drc_process_mgrt_part_end (self : Z) (m : drc_res_master_msg) (part_id offset : Z) (c : mgrt_ctx) : outcome (status_t * mgrt_ctx) :=
  buf_cnt ← read_cell as_cnt (mg_cells m) offset;
  lock_cnt ← read_cell as_cnt (mg_cells m) (offset + sizeof_uint32);
  info ← arr_set (mx_info c) part_id (mk_pinfo buf_cnt lock_cnt (mg_src m));
  Done (CT_SUCCESS, mk_mctx (mx_buf c) (mx_lock c) (mx_items c) (mx_cnt c) info
                      (drc_update_remaster_task_status self part_id PART_MIGRATING (mg_src m) (mx_tasks c))).

(** The status that [drc_migrate_lock_res_l] finds is always success: a lock
    that is there already is not compared. *)
Definition drc_process_lock_master_blk (self trigger_version : Z) (malloc_ok : bool) (m : drc_res_master_msg) (c : mgrt_ctx)
    : outcome (status_t * mgrt_ctx) :=
  if (REMASTER_MIG_MAX_LOCK_RES_NUM <? mg_res_num m) || (DRC_MAX_PART_NUM <=? mg_part_id m) || negb (mg_version m =? trigger_version)
  then Done (CT_ERROR, c)
  else if negb malloc_ok then Done (CT_ERROR, c)
  else
    '(status, idx, g) ← gres_alloc_batch (mx_lock c) (mg_res_num m);
    let c := mk_mctx (mx_buf c) g (mx_items c) (mx_cnt c) (mx_info c) (mx_tasks c) in
    match (status : status_t) with
    | CT_ERROR => Done (CT_ERROR, c)
    | CT_SUCCESS =>
        '(_, offset, real_add, g, pool) ← drc_migrate_lock_res_l m idx (mx_lock c) (mx_items c);
        n ← arr_get (mx_cnt c) (mg_part_id m);
        cnt ← arr_set (mx_cnt c) (mg_part_id m) (mk_rcnt (rc_buf_cnt n) (rc_lock_cnt n + real_add));
        let c := mk_mctx (mx_buf c) g pool cnt (mx_info c) (mx_tasks c) in
        if mg_is_part_end m then drc_process_mgrt_part_end self m (mg_part_id m) offset c else Done (CT_SUCCESS, c)
    end.

Definition drc_check_mgrt_data_msg (m : drc_res_master_msg) : status_t :=
  if mg_size m <? sizeof_res_master_msg then CT_ERROR
  else if (mg_res_type m =? DRC_RES_PAGE_TYPE) && (mg_size m <? sizeof_res_master_msg + mg_res_num m * sizeof_buf_res_msg) then CT_ERROR
  else if (mg_res_type m =? DRC_RES_LOCK_TYPE) && (mg_size m <? sizeof_res_master_msg + mg_res_num m * sizeof_lock_res_msg) then CT_ERROR
  else CT_SUCCESS.

(** The handler of migration messages; the status of the two handlers is not looked at. *)
Definition drc_process_mgrt_data `{KernelAttr} (self : Z) (rst : drc_remaster_status) (rc : reform_status) (trigger_version : Z)
    (malloc_ok : bool) (m : drc_res_master_msg) (c : mgrt_ctx) : outcome mgrt_ctx :=
  match drc_check_mgrt_data_msg m with
  | CT_ERROR => Done c
  | CT_SUCCESS =>
      if bool_decide (rst = REMASTER_DONE) || (reform_num REFORM_RECOVER_DONE <=? reform_num rc) || (reform_num rc <? reform_num REFORM_FROZEN)
      then Done c
      else if mg_res_type m =? DRC_RES_PAGE_TYPE then '(_, c) ← drc_process_buf_master_blk trigger_version malloc_ok m c; Done c
      else if mg_res_type m =? DRC_RES_LOCK_TYPE then '(_, c) ← drc_process_lock_master_blk self trigger_version malloc_ok m c; Done c
      else Done c
  end.

(** One turn of the loop of [remaster_part_proc] for task [i]. *)
Definition remaster_part_turn (self i : Z) (c : mgrt_ctx) : outcome mgrt_ctx :=
  t ← arr_get (mx_tasks c) i;
  if negb ((import_inst t =? self) && negb (export_inst t =? self)) then Done c
  else if negb (task_status t =? PART_MIGRATING) then Done c
  else
    info ← arr_get (mx_info c) (task_part t);
    bufs ← arr_get (res_parts (mx_buf c)) (task_part t);
    locks ← arr_get (res_parts (mx_lock c)) (task_part t);
    if negb (pi_buf_cnt info =? count bufs) || negb (pi_lock_cnt info =? count locks) then Done c
    else Done (mk_mctx (mx_buf c) (mx_lock c) (mx_items c) (mx_cnt c) (mx_info c)
                 (drc_update_remaster_task_status self (task_part t) PART_MIGRATE_COMPLETE (pi_src_inst info) (mx_tasks c))).

(** ** Freeing a partition *)

Section free.
Context {A K : Type} `{GlobalItem A K}.
Implicit Types (g : drc_global_res A).

(** Unlink the resources from the map and wipe them; [ids] collects them. *)
Fixpoint free_part_loop (n : nat) (idx : Z) (ids : list Z) g : outcome (list Z * drc_global_res A) :=
  match n with
  | O => Done (ids, g)
  | S n =>
      a ← gres_get g idx;
      g ← gres_map_remove (K := K) g (key_of a);
      a ← gres_get g idx;
      g ← gres_put g idx item_zero;
      free_part_loop n (nnext (node_of a)) (ids ++ [idx]) g
  end.

(** The code of [drc_free_buf_res_by_part] and [drc_free_lock_res_by_part]. *)
Definition drc_free_res_by_part (malloc_ok : bool) (part_id : Z) g : outcome (drc_global_res A) :=
  part_list ← arr_get (res_parts g) part_id;
  if count part_list =? 0 then Done g
  else if negb malloc_ok then Done g
  else
    '(ids, g) ← free_part_loop (Z.to_nat (count part_list)) (first part_list) [] g;
    p ← drc_res_pool_free_batch_item (res_pool (res_map g)) ids;
    parts ← arr_set (res_parts g) part_id DRC_LIST_INIT;
    Done (mk_global (res_map (g_set_pool g p)) parts).
End free.

Definition drc_free_buf_res_by_part `{KernelAttr} (malloc_ok : bool) (part_id : Z) (g : buf_catalog) : outcome buf_catalog :=
  drc_free_res_by_part (K := page_id_t) malloc_ok part_id g.
Definition drc_free_lock_res_by_part (malloc_ok : bool) (part_id : Z) (g : lock_catalog) : outcome lock_catalog :=
  drc_free_res_by_part (K := drid_t) malloc_ok part_id g.

(** The body of a thread: [n] tasks from [i] on. *)
Fixpoint drc_free_migrated_res_proc `{KernelAttr} (self : Z) (malloc_ok : bool) (n : nat) (i : Z) (tasks : list drc_remaster_task)
    (g : buf_catalog) (gl : lock_catalog) : outcome (buf_catalog * lock_catalog) :=
  match n with
  | O => Done (g, gl)
  | S n =>
      t ← arr_get tasks i;
      if negb (export_inst t =? self) then drc_free_migrated_res_proc self malloc_ok n (i + 1) tasks g gl
      else
        g ← drc_free_buf_res_by_part malloc_ok (task_part t) g;
        gl ← drc_free_lock_res_by_part malloc_ok (task_part t) gl;
        drc_free_migrated_res_proc self malloc_ok n (i + 1) tasks g gl
  end.

Definition DRC_FREE_MIG_RES_MAX_THREAD_NUM : Z := 8.

(** The tasks of thread [i] of [DRC_FREE_MIG_RES_MAX_THREAD_NUM]: first task and number. *)
Definition free_thread_range (local_task_num i : Z) : Z * Z :=
  let count_per_thread := local_task_num / DRC_FREE_MIG_RES_MAX_THREAD_NUM in
  (i * count_per_thread,
   if i =? DRC_FREE_MIG_RES_MAX_THREAD_NUM - 1 then count_per_thread + local_task_num mod DRC_FREE_MIG_RES_MAX_THREAD_NUM else count_per_thread).

Fixpoint free_threads `{KernelAttr} (self local_task_num : Z) (malloc_ok : bool) (created : list bool) (i : Z) (tasks : list drc_remaster_task)
    (g : buf_catalog) (gl : lock_catalog) : outcome (status_t * buf_catalog * lock_catalog) :=
  match created with
  | [] => Done (CT_SUCCESS, g, gl)
  | false :: _ => Done (CT_ERROR, g, gl)
  | true :: created =>
      let '(start, cnt) := free_thread_range local_task_num i in
      '(g, gl) ← drc_free_migrated_res_proc self malloc_ok (Z.to_nat cnt) start tasks g gl;
      free_threads self local_task_num malloc_ok created (i + 1) tasks g gl
  end.

(** The threads work on different partitions; they are run one after the other.
    [created] tells for each of them whether it could be created. *)
Definition drc_free_migrated_res `{KernelAttr} (self local_task_num : Z) (malloc_ok : bool) (created : list bool)
    (local_task_set : list drc_remaster_task) (g : buf_catalog) (gl : lock_catalog) : outcome (status_t * buf_catalog * lock_catalog) :=
  free_threads self local_task_num malloc_ok created 0 local_task_set g gl.
