(* ===== verification/MgrtProps.v ===== *)
(** * The loops of the migration

    What the shared loops of DrcMgrt.v do, for any resource type that keeps the
    laws [MgrtLaws]: the exporter packs the resources of a partition into
    messages in the order of its list, the importer enters the resources of a
    message into its catalog, and a partition is freed.
    Source: src/pkg/src/cluster/dtc_drc.c. *)

From stdpp Require Import prelude list.
From S2P Require Import Prelude Bitmap ResPool DrcList ResMap ConvertQ GlobalRes DrcTypes DrcPart DrcMgrt.

Open Scope Z_scope.
Open Scope drc_scope.

(** ** Sending *)

(** Every message gets through: one of the three attempts succeeds, and the
    destination is alive as long as they fail. *)
Definition net_up (net : nat -> nat -> send_attempt) (dst : Z) : Prop :=
  0 <= dst < CT_MAX_INSTANCES /\
  forall n, exists k, (k < REMASTER_SEND_MSG_RETRY_TIMES)%nat /\ sa_ok (net n k) = true /\
    forall j, (j < k)%nat -> bitmap_ok (sa_view (net n j)) /\ dst ∈ inst_set (sa_view (net n j)).

Lemma send_retry_up n i att dst k :
  0 <= dst < CT_MAX_INSTANCES -> (k < n)%nat -> sa_ok (att (i + k)%nat) = true ->
  (forall j, (j < k)%nat -> bitmap_ok (sa_view (att (i + j)%nat)) /\ dst ∈ inst_set (sa_view (att (i + j)%nat))) ->
  send_retry n i att dst = Done CT_SUCCESS.
Proof.
  intros Hd. revert i k. induction n as [| n IH]; intros i k Hk Hok Hal; [lia |]. cbn [send_retry].
  destruct (sa_ok (att i)) eqn:E; [done |]. destruct k as [| k]; [rewrite Nat.add_0_r in Hok; congruence |].
  destruct (Hal 0%nat ltac:(lia)) as [Hbm Hin]. rewrite Nat.add_0_r in Hbm, Hin.
  rewrite drc_bitmap64_exist_Done by done. ostep. rewrite bool_decide_eq_true_2 by done. cbn [negb].
  apply (IH (S i) k); [lia | by rewrite Nat.add_succ_comm |]. intros j Hj. rewrite Nat.add_succ_comm. apply Hal. lia.
Qed.

Lemma send_up net dst n m : net_up net dst -> mg_dst m = dst -> drc_mes_send_data_with_retry (net n) m = Done CT_SUCCESS.
Proof.
  intros [Hd Hnet] Hm. unfold drc_mes_send_data_with_retry. rewrite Hm. destruct (Z.leb_spec CT_MAX_INSTANCES dst); [lia |].
  destruct (Hnet n) as (k & Hk & Hok & Hal). by apply (send_retry_up _ 0 (net n) dst k).
Qed.

Lemma net_up_shift net dst i : net_up net dst -> net_up (fun n => net (i + n)%nat) dst.
Proof. intros [Hd Hnet]. split; [done |]. intros n. apply Hnet. Qed.

(** ** Offsets *)

Definition cells_size (cells : list mgrt_cell) : Z := foldr (fun c s => cell_size c + s) 0 cells.

Lemma cell_size_pos c : 0 < cell_size c.
Proof. by destruct c. Qed.

Lemma cells_size_nonneg cells : 0 <= cells_size cells.
Proof. induction cells as [| c cells IH]; cbn; [lia |]. pose proof (cell_size_pos c). unfold cells_size in IH. lia. Qed.

Lemma cells_size_app l l' : cells_size (l ++ l') = cells_size l + cells_size l'.
Proof. unfold cells_size. induction l as [| c l IH]; [done |]. cbn. lia. Qed.

Lemma cell_at_spec pre c post : cell_at (cells_size pre) (pre ++ c :: post) = Some c.
Proof.
  induction pre as [| d pre IH]; [done |]. pose proof (cells_size_nonneg pre). pose proof (cell_size_pos d).
  unfold cells_size in *. cbn [app cell_at foldr]. destruct (Z.eqb_spec (cell_size d + foldr (fun c s => cell_size c + s) 0 pre) 0); [lia |].
  destruct (Z.ltb_spec (cell_size d + foldr (fun c s => cell_size c + s) 0 pre) (cell_size d)); [lia |].
  by replace (cell_size d + foldr (fun c s => cell_size c + s) 0 pre - cell_size d) with (foldr (fun c s => cell_size c + s) 0 pre) by lia.
Qed.

Lemma read_cell_spec {M} (proj : mgrt_cell -> option M) pre c post off m :
  off = sizeof_res_master_msg + cells_size pre -> proj c = Some m -> read_cell proj (pre ++ c :: post) off = Done m.
Proof.
  intros -> Hm. unfold read_cell. replace (sizeof_res_master_msg + cells_size pre - sizeof_res_master_msg) with (cells_size pre) by lia.
  rewrite cell_at_spec. cbn. by rewrite Hm.
Qed.

(** ** What the loops rely on *)

Section laws.
Context {A K M : Type} `{HG : GlobalItem A K} `{HM : !MgrtRes A K M}.

(** No request is being converted. *)
Definition idle (a : A) : Prop := req_inst_id (req_info (mt_conv a)) = CT_INVALID_ID8.

#[global] Instance idle_dec a : Decision (idle a).
Proof. unfold idle. apply _. Defined.

Class MgrtLaws (P : A -> list drc_req_info -> Prop) : Prop := {
  ml_as m : mt_as (mt_cell m) = Some m;
  ml_cell m : cell_size (mt_cell m) = mt_size;
  ml_size : 0 < mt_size <= 56;
  ml_key a n : mt_key (mt_msg a n) = key_of (K := K) a;
  ml_step a : mt_step (mt_msg a 0) = mt_size;
  ml_strip a b : strip a = strip b -> mt_msg a 0 = mt_msg b 0 /\ mt_conv a = mt_conv b;
  ml_check a : mt_check a (mt_msg a 0) = CT_SUCCESS;
  ml_idle a rs : P a rs -> idle a -> rs = [];
  ml_init a b id cells off pool : P b [] -> idle b ->
    exists a', mt_init a (mt_msg b 0) id cells off pool = Done (a', pool) /\ nidx (node_of a') = id /\ res_idx a' = id /\
      res_part a' = part_hash (K := K) (key_of a') /\ count (res_q a') = 0 /\ mt_msg a' 0 = mt_msg b 0 /\ idle a' /\ P a' [];
}.
End laws.

Section exporter.
Context {A K M : Type} `{HG : GlobalItem A K} `{HM : !MgrtRes A K M}.
Context {P : A -> list drc_req_info -> Prop} {Hlaws : MgrtLaws (K := K) (M := M) P}.
Context (self : Z) (task : drc_remaster_task) (ver : Z) (net : nat -> nat -> send_attempt).
Context (Hnet : net_up net (import_inst task)).
Implicit Types (e : export) (ms : list M) (chunks : list (list M)) (g : drc_global_res A) (pool : lock_pool).

Definition mcells ms : list mgrt_cell := List.map mt_cell ms.

Lemma mcells_size ms : cells_size (mcells ms) = mt_size * Z.of_nat (length ms).
Proof. unfold mcells. induction ms as [| m ms IH]; [cbn; lia |]. cbn [List.map length]. unfold cells_size in *. cbn [foldr]. rewrite ml_cell, IH. lia. Qed.

(** The message that carries the resources [ms], followed by the structures [extra]. *)
Definition blk_msg ms (extra : list mgrt_cell) (is_end : bool) : drc_res_master_msg :=
  drc_init_res_master_msg self task mt_type ver (sizeof_res_master_msg + mt_size * Z.of_nat (length ms) + cells_size extra)
    (Z.of_nat (length ms)) is_end (mcells ms ++ extra).

(** [chunks] were sent and [cur] is in the message being filled. *)
Record packing e chunks cur : Prop := mk_packing {
  pk_off : ex_offset e = sizeof_res_master_msg + mt_size * Z.of_nat (length cur);
  pk_num : ex_num e = Z.of_nat (length cur);
  pk_cells : ex_cells e = mcells cur;
  pk_sent : ex_sent e = List.map (fun ch => blk_msg ch [] false) chunks;
  pk_fits : ex_offset e <= MES_MESSAGE_BUFFER_SIZE;
  pk_chunks : Forall (fun ch => ch <> [] /\ sizeof_res_master_msg + mt_size * Z.of_nat (length ch) <= MES_MESSAGE_BUFFER_SIZE) chunks;
}.

Lemma packing_init : packing export_init [] [].
Proof. constructor; cbn; try done; lia. Qed.

(** Sending the message as it is, or with the counts behind the resources. *)
Lemma export_send_extra e chunks cur extra (is_end : bool) :
  packing e chunks cur ->
  export_send self task ver net (mk_export (ex_offset e + cells_size extra) (ex_num e) (ex_cells e ++ extra) (ex_sent e)) is_end =
  Done (CT_SUCCESS, mk_export (ex_offset e + cells_size extra) (ex_num e) (ex_cells e ++ extra) (ex_sent e ++ [blk_msg cur extra is_end])).
Proof.
  intros Hp. unfold export_send. cbn [ex_sent ex_offset ex_num ex_cells]. rewrite (send_up net (import_inst task)) by done. ostep.
  unfold blk_msg. by rewrite (pk_off _ _ _ Hp), (pk_num _ _ _ Hp), (pk_cells _ _ _ Hp).
Qed.

Lemma export_send_plain e chunks cur (is_end : bool) :
  packing e chunks cur ->
  export_send self task ver net e is_end =
  Done (CT_SUCCESS, mk_export (ex_offset e) (ex_num e) (ex_cells e) (ex_sent e ++ [blk_msg cur [] is_end])).
Proof.
  intros Hp. pose proof (export_send_extra e chunks cur [] is_end Hp) as Hs. cbn in Hs. rewrite Z.add_0_r, app_nil_r in Hs. by destruct e.
Qed.

Lemma export_le_num_idle (a : A) : idle a -> export_le_num a = 0.
Proof. unfold idle, export_le_num. by intros ->. Qed.

(** A resource nobody converts is not waited for. *)
Lemma wait_idle others turns idx g pool a :
  (g_items g).[idx] = Some a -> idle a -> wait_converting others (S turns) idx g pool = Done (a, g, pool).
Proof. unfold idle. intros Ha Hi. cbn [wait_converting]. unfold gres_get. rewrite (arr_get_eq _ _ _ Ha). ostep. by rewrite Hi. Qed.

Lemma export_put_spec e chunks cur (a : A) pool :
  packing e chunks cur -> ex_offset e + mt_size <= MES_MESSAGE_BUFFER_SIZE ->
  exists e', export_put a 0 pool e = Done e' /\ packing e' chunks (cur ++ [mt_msg a 0]).
Proof.
  intros Hp Hf. unfold export_put. cbn [Z.ltb Z.compare]. ostep. eexists. split; [done |]. constructor; cbn.
  - rewrite (pk_off _ _ _ Hp), length_app. cbn. lia.
  - rewrite (pk_num _ _ _ Hp), length_app. cbn. lia.
  - rewrite (pk_cells _ _ _ Hp). unfold mcells. by rewrite map_app.
  - by eapply pk_sent.
  - lia.
  - by eapply pk_chunks.
Qed.

(** Make room: the message is sent first when the next resource does not fit. *)
Lemma export_room e chunks cur :
  packing e chunks cur ->
  exists e' chunks' cur',
    (if MES_MESSAGE_BUFFER_SIZE <? ex_offset e + mt_size + sizeof_le_msg * 0
     then '(ret, e) ← export_send self task ver net e false;
          match (ret : status_t) with
          | CT_ERROR => Done (CT_ERROR, e)
          | CT_SUCCESS => Done (CT_SUCCESS, mk_export sizeof_res_master_msg 0 [] (ex_sent e))
          end
     else Done (CT_SUCCESS, e)) = Done (CT_SUCCESS, e') /\
    packing e' chunks' cur' /\ concat chunks' ++ cur' = concat chunks ++ cur /\ ex_offset e' + mt_size <= MES_MESSAGE_BUFFER_SIZE.
Proof.
  intros Hp. pose proof ml_size as Hsz. unfold sizeof_le_msg. destruct (Z.ltb_spec MES_MESSAGE_BUFFER_SIZE (ex_offset e + mt_size + 4 * 0)) as [Hlt | Hle].
  - rewrite (export_send_plain e chunks cur false Hp). ostep. eexists _, (chunks ++ [cur]), []. split; [done |]. split; [| split].
    + constructor; cbn; try done; [| rewrite map_app; cbn; by rewrite (pk_sent _ _ _ Hp) |].
      * lia.
      * apply Forall_app. split; [by eapply pk_chunks |]. apply Forall_singleton.
        pose proof (pk_off _ _ _ Hp) as Ho. pose proof (pk_fits _ _ _ Hp) as Hf. split; [| by rewrite <- Ho].
        intros ->. cbn in Ho. unfold MES_MESSAGE_BUFFER_SIZE, sizeof_res_master_msg in *. lia.
    + rewrite concat_app. cbn. by rewrite !app_nil_r.
    + cbn. unfold MES_MESSAGE_BUFFER_SIZE, sizeof_res_master_msg. lia.
  - exists e, chunks, cur. split; [done |]. split; [done |]. split; [done | lia].
Qed.

(** The resources of the list, in its order. *)
Definition res_msgs (items : list A) (ids : list Z) : list M :=
  omap (fun i => (fun a => mt_msg a 0) <$> items.[i]) ids.

Lemma export_msgs_spec others turns ids p q g pool e chunks cur idx :
  dseg (g_items g) p idx ids q CT_INVALID_ID32 -> packing e chunks cur ->
  (forall i a, i ∈ ids -> (g_items g).[i] = Some a -> idle a) ->
  exists e' chunks' cur', export_res_loop self task ver net others (S turns) (length ids) idx g pool e = Done (CT_SUCCESS, e', g, pool) /\
    packing e' chunks' cur' /\ concat chunks' ++ cur' = (concat chunks ++ cur) ++ res_msgs (g_items g) ids /\
    (ids <> [] -> cur' <> []).
Proof.
  revert p idx e chunks cur. induction ids as [| i ids IH]; intros p idx e chunks cur Hseg Hp Hidle.
  - exists e, chunks, cur. cbn [length export_res_loop res_msgs omap list_omap]. rewrite app_nil_r. done.
  - cbn in Hseg. destruct Hseg as (-> & a & Ha & _ & _ & Hseg). cbn [length export_res_loop].
    assert (Hi : idle a) by (apply (Hidle i); [set_solver | done]). rewrite (wait_idle others turns i g pool a Ha Hi). ostep. rewrite (export_le_num_idle a Hi).
    destruct (export_room e chunks cur Hp) as (e1 & ch1 & cur1 & -> & Hp1 & Hc1 & Hf1). ostep.
    destruct (export_put_spec e1 ch1 cur1 a pool Hp1 Hf1) as (e2 & -> & Hp2). ostep.
    destruct (IH _ _ e2 ch1 (cur1 ++ [mt_msg a 0]) Hseg Hp2) as (e' & ch' & cur' & Hrun & Hp' & Hc' & Hne).
    { intros j b Hj. apply Hidle. set_solver. }
    exists e', ch', cur'. split; [exact Hrun |]. split; [done |]. split.
    + rewrite Hc', <- Hc1. unfold res_msgs. cbn. rewrite Ha. cbn. by rewrite <- !(assoc_L (++)).
    + intros _ ->. destruct ids as [| j ids]; [| by destruct (Hne ltac:(done))].
      rewrite app_nil_r in Hc'. cbn in Hc'. unfold res_msgs in Hc'. cbn in Hc'. rewrite app_nil_r in Hc'.
      cbn [length export_res_loop] in Hrun. injection Hrun as <-. pose proof (pk_num _ _ _ Hp') as H1'. pose proof (pk_num _ _ _ Hp2) as H2'.
      rewrite H1' in H2'. rewrite length_app in H2'. cbn in H2'. lia.
Qed.

End exporter.

(** ** Counting resources *)

Section counting.
Context {A K : Type} `{HG : GlobalItem A K}.
Context (P : A -> list drc_req_info -> Prop).
Implicit Types (g : drc_global_res A) (pool : lock_pool) (gh : gghost) (k : K).

Local Abbreviation gwf := (gwf (K := K) P).
Local Abbreviation res_view := (res_view (K := K)).

(** The keys of the resources [ids]. *)
Definition keys_of (items : list A) (ids : list Z) : list K := omap (fun i => key_of <$> items.[i]) ids.

Lemma elem_of_reskeys items ids k : k ∈ keys_of items ids <-> exists i a, i ∈ ids /\ items.[i] = Some a /\ key_of a = k.
Proof.
  unfold keys_of. rewrite list_elem_of_omap. split.
  - intros (i & Hi & E). destruct (items.[i]) as [a |] eqn:Ha; [| done]. injection E as <-. by exists i, a.
  - intros (i & a & Hi & Ha & <-). exists i. by rewrite Ha.
Qed.

Lemma keys_of_length items ids : (forall i, i ∈ ids -> is_Some items.[i]) -> length (keys_of items ids) = length ids.
Proof.
  induction ids as [| i ids IH]; intros Hids; [done |]. unfold keys_of in *. cbn. destruct (Hids i) as [a Ha]; [set_solver |]. rewrite Ha. cbn.
  f_equal. apply IH. intros j Hj. apply Hids. set_solver.
Qed.

Lemma keys_of_nodup gh pool g ids : gwf gh pool g -> ids ⊆ linked gh -> NoDup ids -> NoDup (keys_of (g_items g) ids).
Proof.
  intros Hwf Hsub. induction 1 as [| i ids Hi _ IH]; [constructor |]. unfold keys_of. cbn. destruct ((g_items g).[i]) as [a |] eqn:Ha; cbn.
  - constructor; [| apply IH; set_solver]. intros (j & b & Hj & Hb & Hk)%elem_of_reskeys. apply Hi.
    assert (i = j) as -> by (eapply (mw_keys _ _ _ _ (gw_map _ _ _ _ Hwf)); [apply Hsub; set_solver | apply Hsub; set_solver | done | done | done]). done.
  - apply IH. set_solver.
Qed.

Lemma linked_item gh pool g i : gwf gh pool g -> i ∈ linked gh -> is_Some (g_items g).[i].
Proof. intros Hwf Hi. destruct (mw_item (gw_map _ _ _ _ Hwf) i) as [a Ha]; [set_solver | by exists a]. Qed.

(** The keys under which a catalog has something: as many as it has linked resources. *)
Lemma gwf_keys gh pool g : gwf gh pool g ->
  exists ks, NoDup ks /\ length ks = length (linked gh) /\ forall k, k ∈ ks <-> is_Some (res_view pool g k).
Proof.
  intros Hwf. exists (keys_of (g_items g) (linked gh)).
  assert (Hnd : NoDup (linked gh)) by (pose proof (mw_nodup (gw_map _ _ _ _ Hwf)) as Hnd; by apply NoDup_app in Hnd as (_ & _ & (_ & _ & ?)%NoDup_app)).
  split; [by eapply keys_of_nodup |]. split; [apply keys_of_length; intros i; by eapply linked_item |].
  intros k. rewrite elem_of_reskeys. split.
  - intros (i & a & Hi & Ha & <-). destruct (gwf_ql P Hwf i a Ha) as [ids Hids]. rewrite (gwf_view_Some P Hwf i a ids) by done. done.
  - intros [[b rs] Hb]. pose proof (gwf_view P Hwf k) as Hv. rewrite Hb in Hv. destruct Hv as (i & a & ids & _ & Hi & Ha & _ & Hk & _). by exists i, a.
Qed.

(** The list of a partition is as long as there are keys of the partition. *)
Lemma gwf_part_keys gh pool g h l : gwf gh pool g -> (res_parts g).[h] = Some l ->
  exists ids, (gg_pl gh).[h] = Some ids /\ list_rep (g_items g) l ids /\ ids ⊆ linked gh /\ NoDup (keys_of (g_items g) ids) /\
    length (keys_of (g_items g) ids) = length ids /\
    forall k, k ∈ keys_of (g_items g) ids <-> part_hash k = h /\ is_Some (res_view pool g k).
Proof.
  intros Hwf Hl. pose proof (gw_parts _ _ _ _ Hwf) as Hp. destruct (lookupZ_is_Some (gg_pl gh) h) as [ids Hids].
  { rewrite (pt_len _ _ _ Hp). by eapply lookupZ_lt. }
  assert (Hsub : ids ⊆ linked gh) by (intros i Hi; rewrite <- (gw_linked _ _ _ _ Hwf); apply elem_of_concat; eauto).
  exists ids. split; [done |]. split; [by eapply pt_rep |]. split; [done |].
  split; [eapply keys_of_nodup; [done | done | by eapply pt_nodup_one] |]. split; [apply keys_of_length; intros i Hi; eapply linked_item; [done | by apply Hsub] |].
  intros k. rewrite elem_of_reskeys. split.
  - intros (i & a & Hi & Ha & <-). pose proof (Hsub i Hi) as Hil. destruct (gw_self _ _ _ _ Hwf i a Hil Ha) as [_ Hpart].
    split; [rewrite <- Hpart; by eapply pt_item |]. destruct (gwf_ql P Hwf i a Ha) as [q Hq]. by rewrite (gwf_view_Some P Hwf i a q).
  - intros [Hh [[b rs] Hb]]. pose proof (gwf_view P Hwf k) as Hv. rewrite Hb in Hv. destruct Hv as (i & a & q & _ & Hi & Ha & _ & Hk & _).
    exists i, a. split; [| done]. rewrite <- (gw_linked _ _ _ _ Hwf) in Hi. apply elem_of_concat in Hi as (h' & ids' & Hids' & Hi).
    pose proof (pt_item _ _ _ Hp _ _ _ _ Hids' Hi Ha) as Hpart.
    assert (Hil : i ∈ linked gh) by (rewrite <- (gw_linked _ _ _ _ Hwf); apply elem_of_concat; eauto).
    destruct (gw_self _ _ _ _ Hwf i a Hil Ha) as [_ Hpart']. assert (h' = h) as -> by congruence. by simplify_eq.
Qed.

(** *** Catalogs that no other thread is changing *)

Definition catalog_ok pool g : Prop := exists gh, gwf gh pool g /\ gg_held gh = [].

Definition room g : Z := item_num (res_pool (res_map g)) - used_num (res_pool (res_map g)).

Lemma gwf_room gh pool g : gwf gh pool g -> room g = Z.of_nat (length (gg_free gh)).
Proof. intros Hwf. pose proof (pw_used _ _ (mw_pool _ _ _ _ (gw_map _ _ _ _ Hwf))). unfold room. lia. Qed.

Lemma gwf_item_num gh pool g : gwf gh pool g -> item_num (res_pool (res_map g)) = Z.of_nat (length (gg_ql gh)).
Proof. intros Hwf. rewrite (gw_qlen _ _ _ _ Hwf). symmetry. apply (pw_len _ _ (mw_pool _ _ _ _ (gw_map _ _ _ _ Hwf))). Qed.

(** Room is lost only to keys that were not there before. *)
Lemma room_bound pool g g' (extra : list K) :
  catalog_ok pool g -> catalog_ok pool g' -> item_num (res_pool (res_map g')) = item_num (res_pool (res_map g)) ->
  (forall k, is_Some (res_view pool g' k) -> is_Some (res_view pool g k) \/ k ∈ extra) ->
  room g - Z.of_nat (length extra) <= room g'.
Proof.
  intros (gh & Hwf & Hh) (gh' & Hwf' & Hh') Hn Hk. rewrite (gwf_room _ _ _ Hwf), (gwf_room _ _ _ Hwf').
  destruct (gwf_keys _ _ _ Hwf) as (ks & Hnd & Hlen & Hks). destruct (gwf_keys _ _ _ Hwf') as (ks' & Hnd' & Hlen' & Hks').
  assert (Hle : (length ks' <= length (ks ++ extra))%nat).
  { apply submseteq_length, NoDup_submseteq; [done |]. intros k Hkk. apply elem_of_app. rewrite Hks. apply Hk. by apply Hks'. }
  rewrite length_app in Hle. pose proof (Permutation_length (mw_perm _ _ _ _ (gw_map _ _ _ _ Hwf))) as Hp.
  pose proof (Permutation_length (mw_perm _ _ _ _ (gw_map _ _ _ _ Hwf'))) as Hp'. rewrite Hn in Hp'. rewrite Hh in Hp. rewrite Hh' in Hp'.
  rewrite !length_app in Hp, Hp'. cbn in Hp, Hp'. lia.
Qed.

End counting.

(** ** The importer *)

Section importer.
Context {A K M : Type} `{HG : GlobalItem A K} `{HM : !MgrtRes A K M}.
Context (P : A -> list drc_req_info -> Prop) (HPstrip : forall a b rs, strip a = strip b -> P a rs -> P b rs).
Context {Hlaws : MgrtLaws (K := K) (M := M) P}.
Implicit Types (g : drc_global_res A) (pool : lock_pool) (gh : gghost) (m : M) (k : K).

Local Abbreviation gwf := (gwf (K := K) P).
Local Abbreviation res_view := (res_view (K := K)).

(** The resource [v'] of the importer has what [v] of the exporter tells in its
    message, nobody converts it and nobody waits; or both have none. *)
Definition arrived (v v' : option (A * list drc_req_info)) : Prop :=
  match v, v' with
  | Some (a, _), Some (a', rs) => mt_msg a' 0 = mt_msg a 0 /\ idle a' /\ rs = []
  | None, None => True
  | _, _ => False
  end.

(** The message of a resource that may be exported. *)
Definition good_msg m : Prop := exists a, m = mt_msg a 0 /\ idle a /\ P a [].

Lemma strip_strip (a : A) : strip (strip a) = strip a.
Proof. unfold strip at 2. by rewrite strip_set_node, strip_set_next. Qed.

Lemma msg_strip (a : A) : mt_msg (strip a) 0 = mt_msg a 0.
Proof. apply ml_strip, strip_strip. Qed.

Lemma idle_strip (a : A) : idle (strip a) <-> idle a.
Proof. unfold idle. by rewrite (proj2 (ml_strip (strip a) a (strip_strip a))). Qed.

(** Taking a batch of items. *)
Lemma gwf_alloc_loop taken fl gh pool g idx :
  gwf gh pool g -> gg_free gh = taken ++ fl ->
  exists g', alloc_batch_loop (length taken) (free_list (res_pool (res_map g))) idx (res_pool (res_map g)) =
      Done (idx ++ taken, res_pool (res_map g')) /\ g' = g_set_pool g (res_pool (res_map g')) /\
    gwf (mk_gg fl (reverse taken ++ gg_held gh) (gg_bl gh) (gg_pl gh) (gg_ql gh) (gg_lfree gh) (gg_lrest gh)) pool g' /\
    forall k, res_view pool g' k = res_view pool g k.
Proof.
  revert gh g idx. induction taken as [| i taken IH]; intros gh g idx Hwf Hfl.
  - exists g. cbn in *. subst fl. rewrite app_nil_r. split; [done |]. split; [by destruct g as [[] ?] |]. split; [by destruct gh | done].
  - destruct (gwf_alloc P HPstrip gh pool g i (taken ++ fl) Hwf Hfl) as (g1 & Hrun & Hne & Hwf1 & Hit & Hv1).
    unfold gres_alloc, drc_res_pool_alloc_item in Hrun.
    pose proof (mw_pool _ _ _ _ (gw_map _ _ _ _ Hwf)) as Hpw. rewrite (pw_inited _ _ Hpw) in Hrun. cbn [negb] in Hrun.
    pose proof (pw_chain _ _ Hpw) as Hc. rewrite Hfl in Hc. cbn in Hc. destruct Hc as (Hhd & a & Ha & _).
    rewrite Hhd in Hrun. rewrite (proj2 (Z.eqb_neq _ _) Hne) in Hrun. rewrite (arr_get_eq _ _ _ Ha) in Hrun.
    rewrite !outcome_ret_bind in Hrun. cbv beta match in Hrun. injection Hrun as Hg1.
    cbn [length alloc_batch_loop]. rewrite Hhd, (arr_get_eq _ _ _ Ha). ostep.
    destruct (IH _ g1 (idx ++ [i]) Hwf1 eq_refl) as (g' & Hrun' & Hg' & Hwf' & Hv').
    rewrite <- Hg1 in Hrun'. cbn in Hrun'. exists g'. rewrite Hrun', <- (assoc_L (++)). split; [done |]. split; [| split].
    + rewrite Hg'. rewrite <- Hg1. done.
    + cbn in Hwf'. rewrite reverse_cons, <- (assoc_L (++)). exact Hwf'.
    + intros k. rewrite Hv', Hv1. done.
Qed.

Lemma gwf_alloc_batch gh pool g taken fl :
  gwf gh pool g -> gg_free gh = taken ++ fl -> gg_free gh <> [] ->
  exists g', gres_alloc_batch g (Z.of_nat (length taken)) = Done (CT_SUCCESS, taken, g') /\
    gwf (mk_gg fl (reverse taken ++ gg_held gh) (gg_bl gh) (gg_pl gh) (gg_ql gh) (gg_lfree gh) (gg_lrest gh)) pool g' /\
    forall k, res_view pool g' k = res_view pool g k.
Proof.
  intros Hwf Hfl Hne. pose proof (mw_pool _ _ _ _ (gw_map _ _ _ _ Hwf)) as Hpw. pose proof (pool_wf_fits _ _ Hpw) as Hfit.
  pose proof (pw_used _ _ Hpw) as Hused. pose proof (pw_max _ _ Hpw) as Hmax. rewrite Hfl, length_app in Hused.
  destruct (gwf_alloc_loop taken fl gh pool g [] Hwf Hfl) as (g' & Hrun & Hg' & Hwf' & Hv').
  exists g'. split; [| done]. unfold gres_alloc_batch, drc_res_pool_alloc_batch_item. rewrite (pw_inited _ _ Hpw). cbn [negb].
  destruct (Z.ltb_spec (item_num (res_pool (res_map g))) (Z.of_nat (length taken))); [lia |]. unfold CT_INVALID_ID32 in Hmax.
  rewrite u32_small by lia. destruct (Z.ltb_spec (item_num (res_pool (res_map g))) (used_num (res_pool (res_map g)) + Z.of_nat (length taken))); [lia |].
  cbn [orb]. destruct (Z.eqb_spec (free_list (res_pool (res_map g))) CT_INVALID_ID32) as [E | _]; [by apply (free_list_nil _ _ Hpw) in E |].
  rewrite Nat2Z.id, Hrun. ostep. ostep. by rewrite <- Hg'.
Qed.

(** The catalog has the contents of [m] under key [k], and nobody waits for it. *)
Definition holds pool g k m : Prop := exists a, res_view pool g k = Some (a, []) /\ idle a /\ mt_msg a 0 = m.

Lemma holds_arrived pool g k a rs : holds pool g k (mt_msg a 0) -> arrived (Some (a, rs)) (res_view pool g k).
Proof. intros (a' & -> & Hi & Hm). by cbn. Qed.

Lemma good_key_dec m k : good_msg m -> mt_key m = k \/ mt_key m <> k.
Proof.
  intros (a & -> & _). rewrite ml_key. rewrite <- (is_same_res_spec k a). destruct (is_same_res k a); [by left | by right].
Qed.

Lemma key_in_dec (ms : list M) k : Forall good_msg ms -> (exists m, m ∈ ms /\ mt_key m = k) \/ (forall m, m ∈ ms -> mt_key m <> k).
Proof.
  induction 1 as [| m ms Hm _ IH]; [right; set_solver |]. destruct (good_key_dec m k Hm) as [E | E]; [left; exists m; set_solver |].
  destruct IH as [(m' & ? & ?) | IH]; [left; exists m'; set_solver |]. right. intros m' [-> | ?]%elem_of_cons; auto.
Qed.

Definition ghost_with gh fl held bl pl : gghost := mk_gg fl held bl pl (gg_ql gh) (gg_lfree gh) (gg_lrest gh).

(** A resource that is there already gives its item back. *)
Lemma import_one_there cells off m id gh pool g held' :
  gwf gh pool g -> gg_held gh ≡ₚ id :: held' -> holds pool g (mt_key m) m ->
  exists g', import_one cells off m id g pool = Done (Some (false, g', pool)) /\
    gwf (ghost_with gh (id :: gg_free gh) held' (gg_bl gh) (gg_pl gh)) pool g' /\ forall k, res_view pool g' k = res_view pool g k.
Proof.
  intros Hwf Hheld (b & Hb & _ & Hm). pose proof (gwf_view P Hwf (mt_key m)) as Hv. rewrite Hb in Hv.
  destruct Hv as (j & a & ids & Hl & Hj & Ha & _ & _ & Hba & _). unfold import_one. rewrite Hl. ostep.
  unfold gres_get. rewrite (arr_get_eq _ _ _ Ha). ostep.
  assert (Hma : mt_msg a 0 = m) by (rewrite <- Hm, Hba; symmetry; apply msg_strip).
  assert (Hck : mt_check a m = CT_SUCCESS) by (rewrite <- Hma; apply ml_check). rewrite Hck.
  destruct (gwf_free P HPstrip gh pool g id held' Hwf Hheld) as (g' & -> & Hwf' & Hv' & _). ostep. by exists g'.
Qed.

(** Otherwise it is entered. *)
Lemma import_one_new cells off m id gh pool g held' :
  gwf gh pool g -> gg_held gh ≡ₚ id :: held' -> good_msg m -> res_view pool g (mt_key m) = None ->
  exists g' bl' pl', import_one cells off m id g pool = Done (Some (true, g', pool)) /\
    gwf (ghost_with gh (gg_free gh) held' bl' pl') pool g' /\ holds pool g' (mt_key m) m /\ view_but (mt_key m) pool g pool g'.
Proof.
  intros Hwf Hheld (b & -> & Hib & HPb) Hnone. pose proof (gwf_view P Hwf (mt_key (mt_msg b 0))) as Hv. rewrite Hnone in Hv. destruct Hv as [Hl Hnew].
  assert (Hih : id ∈ gg_free gh ++ gg_held gh) by (rewrite Hheld; set_solver).
  destruct (gwf_held_item P HPstrip _ _ _ _ Hwf Hih) as [old Hold]. unfold import_one. rewrite Hl. ostep.
  unfold gres_get. rewrite (arr_get_eq _ _ _ Hold). ostep.
  destruct (ml_init old b id cells off pool HPb Hib) as (a & -> & Hn & Hi & Hp & Hq & Hm & Hia & HPa). ostep.
  assert (Hka : key_of a = mt_key (mt_msg b 0)) by (rewrite <- Hm; symmetry; apply ml_key).
  destruct (gwf_map_add P HPstrip gh pool g id (mt_key (mt_msg b 0)) a held' Hwf Hheld Hka Hq Hnew) as (g0 & g1 & bl' & n & -> & Hadd & Hhl).
  ostep. rewrite Hadd. ostep.
  destruct (gwf_insert P HPstrip _ _ _ _ _ _ _ _ _ Hhl) as (g2 & pl' & -> & Hwf2 & Hv2 & Hvk).
  { by rewrite node_of_set_next. } { by rewrite res_idx_set_next. } { by rewrite res_part_set_next, Hp, Hka. }
  { eapply HPstrip; [| exact HPa]. by rewrite strip_set_next. }
  ostep. exists g2, bl', pl'. split; [done |]. split; [done |]. split; [| done].
  exists (strip (set_item_next n a)). split; [done |]. rewrite strip_set_next. split; [by apply idle_strip |]. by rewrite msg_strip.
Qed.

(** Either way the catalog has the resource afterwards. *)
Lemma import_one_spec cells off m id gh pool g held' :
  gwf gh pool g -> gg_held gh ≡ₚ id :: held' -> good_msg m -> res_view pool g (mt_key m) = None \/ holds pool g (mt_key m) m ->
  exists (added : bool) g' fl' bl' pl', import_one cells off m id g pool = Done (Some (added, g', pool)) /\
    gwf (ghost_with gh fl' held' bl' pl') pool g' /\ holds pool g' (mt_key m) m /\ view_but (mt_key m) pool g pool g'.
Proof.
  intros Hwf Hheld Hgood [Hnone | Hthere].
  - destruct (import_one_new cells off m id gh pool g held' Hwf Hheld Hgood Hnone) as (g' & bl' & pl' & H'). by exists true, g', (gg_free gh), bl', pl'.
  - destruct (import_one_there cells off m id gh pool g held' Hwf Hheld Hthere) as (g' & Hrun & Hwf' & Hv).
    exists false, g', (id :: gg_free gh), (gg_bl gh), (gg_pl gh). split; [done |]. split; [done |]. split; [| intros k _; apply Hv].
    destruct Hthere as (a & Hva & Ha). exists a. by rewrite Hv.
Qed.

(** The messages of one block: nothing in the catalog contradicts them, and they do not contradict each other. *)
Definition importable pool g (ms : list M) : Prop :=
  Forall good_msg ms /\ (forall m, m ∈ ms -> res_view pool g (mt_key m) = None \/ holds pool g (mt_key m) m) /\
  (forall m m', m ∈ ms -> m' ∈ ms -> mt_key m = mt_key m' -> m = m').

Lemma holds_view pool g g' k m : res_view pool g' k = res_view pool g k -> holds pool g k m -> holds pool g' k m.
Proof. intros E (a & Ha & H'). exists a. by rewrite E. Qed.

Lemma importable_tail pool g g' m ms :
  importable pool g (m :: ms) -> holds pool g' (mt_key m) m -> view_but (mt_key m) pool g pool g' -> importable pool g' ms.
Proof.
  intros ([Hm Hms]%Forall_cons & Hfree & Hco) Hh Hv. split; [done |]. split; [| intros; apply Hco; set_solver].
  intros m' Hm'. destruct (good_key_dec m (mt_key m') Hm) as [E | Hne].
  - rewrite <- (Hco m m') by (done || set_solver). by right.
  - rewrite (Hv (mt_key m')) by done. destruct (Hfree m') as [? | Hh']; [set_solver | by left | right]. eapply holds_view; [| done]. by apply Hv.
Qed.

Lemma import_loop_spec ms cells pre post off idx ra gh pool g held' :
  cells = pre ++ mcells ms ++ post -> off = sizeof_res_master_msg + cells_size pre -> length idx = length ms ->
  gwf gh pool g -> gg_held gh ≡ₚ idx ++ held' -> importable pool g ms ->
  exists ra' g' fl' bl' pl' held2, import_loop cells off idx ra g pool = Done (CT_SUCCESS, off + mt_size * Z.of_nat (length ms), ra', g', pool) /\
    held2 ≡ₚ held' /\ gwf (ghost_with gh fl' held2 bl' pl') pool g' /\ (forall m, m ∈ ms -> holds pool g' (mt_key m) m) /\
    (forall k, (forall m, m ∈ ms -> mt_key m <> k) -> res_view pool g' k = res_view pool g k).
Proof.
  revert pre off idx ra gh g. induction ms as [| m ms IH]; intros pre off idx ra gh g Hcells Hoff Hlen Hwf Hheld Himp.
  - destruct idx as [| ? ?]; [| done]. exists ra, g, (gg_free gh), (gg_bl gh), (gg_pl gh), (gg_held gh). cbn. rewrite Z.mul_0_r, Z.add_0_r.
    split; [done |]. split; [done |]. split; [by destruct gh |]. split; [set_solver | done].
  - destruct idx as [| id idx]; [done |]. injection Hlen as Hlen. cbn [import_loop]. pose proof Himp as ([Hgm _]%Forall_cons & Hfree & _).
    rewrite Hcells. cbn [mcells List.map app].
    rewrite (read_cell_spec mt_as pre (mt_cell m) (List.map mt_cell ms ++ post) off m Hoff (ml_as m)). ostep.
    rewrite <- app_comm_cons in Hheld. destruct (import_one_spec (pre ++ mt_cell m :: List.map mt_cell ms ++ post) off m id gh pool g (idx ++ held') Hwf Hheld Hgm)
      as (added & g1 & fl1 & bl1 & pl1 & -> & Hwf1 & Hh1 & Hv1); [apply Hfree; set_solver |]. ostep.
    pose proof (importable_tail pool g g1 m ms Himp Hh1 Hv1) as Himp1.
    assert (Hst : mt_step m = mt_size) by (destruct Hgm as (a & -> & _); apply ml_step).
    destruct (IH (pre ++ [mt_cell m]) (off + mt_step m) idx (if added then u32 (ra + 1) else ra) (ghost_with gh fl1 (idx ++ held') bl1 pl1) g1)
      as (ra' & g' & fl' & bl' & pl' & held2 & Hrun & Hp2 & Hwf' & Hh' & Hv'); try done.
    { by rewrite Hcells, <- (assoc_L (++)). }
    { rewrite cells_size_app, Hoff, Hst. unfold cells_size at 3. cbn [foldr]. rewrite ml_cell. lia. }
    rewrite Hcells in Hrun. cbn [mcells List.map app] in Hrun. exists ra', g', fl', bl', pl', held2. rewrite Hrun, Hst. split.
    { replace (off + mt_size + mt_size * Z.of_nat (length ms)) with (off + mt_size * Z.of_nat (length (m :: ms))) by (cbn [length]; lia). done. }
    split; [done |]. split; [done |]. split.
    + intros m' [-> | Hm']%elem_of_cons; [| by apply Hh']. destruct Himp as ([_ Hgms]%Forall_cons & _ & Hco).
      destruct (key_in_dec ms (mt_key m) Hgms) as [(m2 & Hm2 & Hk2) | Hout]; [| by eapply holds_view; [by apply Hv' |]].
      assert (m2 = m) as -> by (apply Hco; [set_solver | set_solver | done]). by apply Hh'.
    + intros k Hk. rewrite Hv'; [apply Hv1 |]; [intros ->; by apply (Hk m); [apply elem_of_cons; left |] |].
      intros m' Hm'. apply Hk. set_solver.
Qed.

(** A block of a message. *)
Lemma import_block pool g ms post :
  catalog_ok P pool g -> importable pool g ms -> Z.of_nat (length ms) <= room g -> 0 < room g ->
  exists idx g1 ra g', gres_alloc_batch g (Z.of_nat (length ms)) = Done (CT_SUCCESS, idx, g1) /\
    import_loop (mcells ms ++ post) sizeof_res_master_msg idx 0 g1 pool =
      Done (CT_SUCCESS, sizeof_res_master_msg + mt_size * Z.of_nat (length ms), ra, g', pool) /\
    catalog_ok P pool g' /\ item_num (res_pool (res_map g')) = item_num (res_pool (res_map g)) /\
    (forall m, m ∈ ms -> holds pool g' (mt_key m) m) /\
    (forall k, (forall m, m ∈ ms -> mt_key m <> k) -> res_view pool g' k = res_view pool g k).
Proof.
  intros (gh & Hwf & Hheld) (Hgood & Hfree & Hco) Hroom Hpos. rewrite (gwf_room P _ _ _ Hwf) in Hroom, Hpos.
  rewrite <- (length_take_le (gg_free gh) (length ms)) by lia. set (idx := take (length ms) (gg_free gh)).
  assert (Hlen : length idx = length ms) by (apply length_take_le; lia).
  destruct (gwf_alloc_batch gh pool g idx (drop (length ms) (gg_free gh)) Hwf) as (g1 & Halloc & Hwf1 & Hv1);
    [unfold idx; by rewrite take_drop | intros E; rewrite E in Hpos; cbn in Hpos; lia |]. rewrite Hheld, app_nil_r in Hwf1.
  destruct (import_loop_spec ms (mcells ms ++ post) [] post sizeof_res_master_msg idx 0 _ pool g1 [] eq_refl ltac:(done) Hlen Hwf1)
    as (ra & g' & fl' & bl' & pl' & held2 & Hrun & Hp2 & Hwf' & Hh & Hv).
  { cbn. rewrite app_nil_r. apply reverse_Permutation. }
  { split; [done |]. split; [| done]. intros m Hm. rewrite Hv1. destruct (Hfree m Hm) as [? | Hh]; [by left | right]. eapply holds_view; [apply Hv1 | done]. }
  exists idx, g1, ra, g'. rewrite Hlen. split; [by rewrite <- Hlen |]. split; [done |]. apply Permutation_nil_r in Hp2 as ->. split; [by eexists |]. split.
  - rewrite (gwf_item_num P _ _ _ Hwf), (gwf_item_num P _ _ _ Hwf'). done.
  - split; [done |]. intros k Hk. rewrite Hv by done. apply Hv1.
Qed.

(** *** The resources of a partition *)

Definition part_idle pool g (h : Z) : Prop := forall k a rs, part_hash k = h -> res_view pool g k = Some (a, rs) -> idle a.

Lemma res_msgs_keys items ids : List.map mt_key (res_msgs items ids) = keys_of items ids.
Proof.
  unfold res_msgs, keys_of. induction ids as [| i ids IH]; [done |]. cbn. destruct (items.[i]) as [a |]; cbn; [| done]. by rewrite ml_key, IH.
Qed.

Lemma elem_of_res_msgs items ids m : m ∈ res_msgs items ids <-> exists i a, i ∈ ids /\ items.[i] = Some a /\ mt_msg a 0 = m.
Proof.
  unfold res_msgs. rewrite list_elem_of_omap. split.
  - intros (i & Hi & E). destruct (items.[i]) as [a |] eqn:Ha; [| done]. injection E as <-. by exists i, a.
  - intros (i & a & Hi & Ha & <-). exists i. by rewrite Ha.
Qed.

(** [all] are the messages of the resources that the catalog has in partition [h]. *)
Record part_msgs pool g (h : Z) (all : list M) : Prop := mk_part_msgs {
  pg_good : Forall good_msg all;
  pg_nodup : NoDup (List.map mt_key all);
  pg_view : forall m, m ∈ all -> part_hash (mt_key m) = h /\ exists a rs, res_view pool g (mt_key m) = Some (a, rs) /\ mt_msg a 0 = m;
  pg_all : forall k, part_hash k = h -> is_Some (res_view pool g k) -> exists m, m ∈ all /\ mt_key m = k;
}.

Lemma part_messages pool g h l :
  catalog_ok P pool g -> (res_parts g).[h] = Some l -> part_idle pool g h ->
  exists ids, list_rep (g_items g) l ids /\ (forall i a, i ∈ ids -> (g_items g).[i] = Some a -> idle a) /\
    part_msgs pool g h (res_msgs (g_items g) ids) /\ Z.of_nat (length (res_msgs (g_items g) ids)) = count l.
Proof.
  intros (gh & Hwf & _) Hl Hidle. destruct (gwf_part_keys P gh pool g h l Hwf Hl) as (ids & Hids & Hrep & Hsub & Hnd & Hlen & Hks).
  assert (Hit : forall i a, i ∈ ids -> (g_items g).[i] = Some a -> exists q, res_view pool g (key_of a) = Some (strip a, queue_reqs (addr pool) q) /\
    (gg_ql gh).[i] = Some q /\ part_hash (key_of a) = h).
  { intros i a Hi Ha. destruct (gwf_ql P Hwf i a Ha) as [q Hq]. exists q. split; [by apply (gwf_view_Some P Hwf i a q); [apply Hsub | |] |].
    split; [done |]. apply Hks, elem_of_reskeys. by exists i, a. }
  assert (Hid : forall i a, i ∈ ids -> (g_items g).[i] = Some a -> idle a).
  { intros i a Hi Ha. destruct (Hit i a Hi Ha) as (q & Hv & _ & Hh). by apply idle_strip, (Hidle _ _ _ Hh Hv). }
  exists ids. split; [done |]. split; [done |]. split; [constructor |].
  - apply Forall_forall. intros m (i & a & Hi & Ha & <-)%elem_of_res_msgs. exists a. split; [done |]. pose proof (Hid i a Hi Ha) as Hia.
    split; [done |]. destruct (Hit i a Hi Ha) as (q & _ & Hq & _). pose proof (gw_inv _ _ _ _ Hwf _ _ _ (Hsub i Hi) Ha Hq) as HP.
    by rewrite (ml_idle _ _ HP Hia) in HP.
  - by rewrite res_msgs_keys.
  - intros m (i & a & Hi & Ha & <-)%elem_of_res_msgs. rewrite ml_key. destruct (Hit i a Hi Ha) as (q & Hv & _ & Hh). split; [done |].
    eexists _, _. split; [exact Hv | apply msg_strip].
  - intros k Hk Hs. destruct (proj1 (elem_of_reskeys (g_items g) ids k) (proj2 (Hks k) (conj Hk Hs))) as (i & a & Hi & Ha & <-).
    exists (mt_msg a 0). split; [| apply ml_key]. apply elem_of_res_msgs. by exists i, a.
  - rewrite <- (length_map mt_key), res_msgs_keys, Hlen. symmetry. apply Hrep.
Qed.

(** *** Blocks in any order *)

Section delivery.
Context (pool : lock_pool) (g0 : drc_global_res A) (h : Z) (all : list M).
Context (Hgood : Forall good_msg all) (Hnd : NoDup (List.map mt_key all)) (Hpart : forall m, m ∈ all -> part_hash (mt_key m) = h).
Context (Hok0 : catalog_ok P pool g0) (Hempty : forall k, part_hash k = h -> res_view pool g0 k = None).

(** The importer after some blocks: of the partition it has resources that
    were exported, as they were exported, and the rest is as it was. *)
Record delivered g : Prop := mk_delivered {
  dl_ok : catalog_ok P pool g;
  dl_num : item_num (res_pool (res_map g)) = item_num (res_pool (res_map g0));
  dl_part : forall m, m ∈ all -> res_view pool g (mt_key m) = None \/ holds pool g (mt_key m) m;
  dl_rest : forall k, (forall m, m ∈ all -> mt_key m <> k) -> res_view pool g k = res_view pool g0 k;
}.

Lemma all_inj m m' : m ∈ all -> m' ∈ all -> mt_key m = mt_key m' -> m = m'.
Proof.
  clear -Hnd. revert Hnd. induction all as [| x l IH]; [set_solver |]. cbn. intros [Hx Hl]%NoDup_cons.
  assert (Hout : forall y, y ∈ l -> mt_key y <> mt_key x) by (intros y Hy E; apply Hx; rewrite <- E; by apply list_elem_of_fmap_2).
  intros [-> | Hm]%elem_of_cons [-> | Hm']%elem_of_cons E; [done | | | by apply IH].
  - by destruct (Hout m' Hm').
  - by destruct (Hout m Hm).
Qed.

Lemma delivered_init : delivered g0.
Proof. constructor; try done. intros m Hm. left. by apply Hempty, Hpart. Qed.

Lemma delivered_room g : delivered g -> room g0 - Z.of_nat (length all) <= room g.
Proof.
  intros []. rewrite <- (length_map mt_key). apply (room_bound P pool); try done. intros k Hk. destruct (key_in_dec all k Hgood) as [(m & Hm & <-) | Hout].
  - right. by apply list_elem_of_fmap_2.
  - left. by rewrite <- dl_rest0.
Qed.

Lemma delivered_importable g ms : delivered g -> ms ⊆ all -> importable pool g ms.
Proof.
  intros [] Hsub. split; [rewrite Forall_forall in *; eauto |]. split; [eauto |]. intros m m' Hm Hm'. apply all_inj; auto.
Qed.

(** One more block. *)
Lemma delivered_block g ms post :
  delivered g -> ms ⊆ all -> Z.of_nat (length ms) <= room g0 - Z.of_nat (length all) -> 0 < room g0 - Z.of_nat (length all) ->
  exists idx g1 ra g', gres_alloc_batch g (Z.of_nat (length ms)) = Done (CT_SUCCESS, idx, g1) /\
    import_loop (mcells ms ++ post) sizeof_res_master_msg idx 0 g1 pool =
      Done (CT_SUCCESS, sizeof_res_master_msg + mt_size * Z.of_nat (length ms), ra, g', pool) /\
    delivered g' /\ (forall m, m ∈ ms -> holds pool g' (mt_key m) m) /\
    (forall m, m ∈ all -> holds pool g (mt_key m) m -> holds pool g' (mt_key m) m).
Proof.
  intros Hd Hsub Hlen Hpos. pose proof (delivered_room g Hd) as Hroom. pose proof (delivered_importable g ms Hd Hsub) as Himp.
  destruct (import_block pool g ms post (dl_ok _ Hd) Himp) as (idx & g1 & ra & g' & Halloc & Hrun & Hok' & Hnum & Hh & Hv); [lia | lia |].
  assert (Hkeep : forall m, m ∈ all -> holds pool g (mt_key m) m -> holds pool g' (mt_key m) m).
  { intros m Hm Hm'. destruct (key_in_dec ms (mt_key m)) as [(m2 & Hm2 & E) | Hout]; [apply Himp | |].
    - assert (m2 = m) as -> by (apply all_inj; auto). by apply Hh.
    - eapply holds_view; [by apply Hv | done]. }
  exists idx, g1, ra, g'. split; [done |]. split; [done |]. split; [| done]. constructor; [done | | |].
  - rewrite Hnum. apply dl_num, Hd.
  - intros m Hm. destruct (key_in_dec ms (mt_key m)) as [(m2 & Hm2 & E) | Hout]; [apply Himp | |].
    + assert (m2 = m) as -> by (apply all_inj; auto). right. by apply Hh.
    + destruct (dl_part _ Hd m Hm) as [Hn | Hm']; [left; by rewrite Hv | right; by apply Hkeep].
  - intros k Hk. rewrite Hv; [by apply Hd |]. intros m Hm. apply Hk. by apply Hsub.
Qed.

(** The list of the partition is as long as what was exported exactly when all of it is there. *)
Lemma delivered_count g l :
  delivered g -> (res_parts g).[h] = Some l -> count l = Z.of_nat (length all) <-> forall m, m ∈ all -> holds pool g (mt_key m) m.
Proof.
  intros Hd Hl. destruct (dl_ok _ Hd) as (gh & Hwf & _). destruct (gwf_part_keys P gh pool g h l Hwf Hl) as (ids & _ & [_ Hc] & _ & Hnd' & Hlen & Hks).
  rewrite Hc, <- Hlen, <- (length_map mt_key all). set (ks := keys_of (g_items g) ids) in *.
  assert (Hsub : ks ⊆ List.map mt_key all).
  { intros k [Hk Hs]%Hks. destruct (key_in_dec all k Hgood) as [(m & Hm & <-) | Hout]; [by apply list_elem_of_fmap_2 |].
    rewrite (dl_rest _ Hd k Hout), (Hempty k Hk) in Hs. by destruct Hs. }
  split.
  - intros Heq%Nat2Z.inj m Hm. destruct (dl_part _ Hd m Hm) as [Hn |]; [| done]. exfalso.
    assert (Hperm : ks ≡ₚ List.map mt_key all) by (apply submseteq_length_Permutation; [by apply NoDup_submseteq | lia]).
    assert (Hin : mt_key m ∈ ks) by (rewrite Hperm; by apply list_elem_of_fmap_2). apply Hks in Hin as [_ Hs]. rewrite Hn in Hs. by destruct Hs.
  - intros Hall. f_equal. apply Permutation_length. apply NoDup_Permutation; [done | done |]. intros k. split; [apply Hsub |].
    intros (m & -> & Hm)%list_elem_of_fmap_1. apply Hks. split; [by apply Hpart |]. destruct (Hall m Hm) as (a & -> & _). done.
Qed.
End delivery.

(** What was delivered, compared with what the exporter [gE] has in the partition. *)
Lemma delivered_views pool g0 g poolE gE h (all : list M) :
  part_msgs poolE gE h all -> delivered pool g0 all g -> (forall k, part_hash k = h -> res_view pool g0 k = None) ->
  (forall k, part_hash k = h -> res_view pool g k = None \/ arrived (res_view poolE gE k) (res_view pool g k)) /\
  ((forall m, m ∈ all -> holds pool g (mt_key m) m) <-> forall k, part_hash k = h -> arrived (res_view poolE gE k) (res_view pool g k)) /\
  (forall k, part_hash k <> h -> res_view pool g k = res_view pool g0 k).
Proof.
  intros Hpm Hd Hempty.
  assert (Hcase : forall k, part_hash k = h -> (exists a rs, mt_msg a 0 ∈ all /\ mt_key (mt_msg a 0) = k /\ res_view poolE gE k = Some (a, rs)) \/
    (res_view poolE gE k = None /\ res_view pool g k = None)).
  { intros k Hk. destruct (key_in_dec all k (pg_good _ _ _ _ Hpm)) as [(m & Hm & <-) | Hout].
    - left. destruct (pg_view _ _ _ _ Hpm m Hm) as (_ & a & rs & Hv & <-). by exists a, rs.
    - right. rewrite (dl_rest _ _ _ _ Hd k Hout), (Hempty k Hk). split; [| done].
      destruct (res_view poolE gE k) as [v |] eqn:E; [| done]. destruct (pg_all _ _ _ _ Hpm k Hk) as (m & Hm & Hmk); [by rewrite E |]. by destruct (Hout m Hm). }
  split; [| split].
  - intros k Hk. destruct (Hcase k Hk) as [(a & rs & Hm & <- & ->) | [_ ->]]; [| by left].
    destruct (dl_part _ _ _ _ Hd _ Hm) as [Hn | Hh]; [by left | right; by apply holds_arrived].
  - split.
    + intros Ha k Hk. destruct (Hcase k Hk) as [(a & rs & Hm & <- & ->) | [-> ->]]; [by apply holds_arrived, Ha | done].
    + intros Ha m Hm. destruct (pg_view _ _ _ _ Hpm m Hm) as (Hk & a & rs & Hv & _). destruct (dl_part _ _ _ _ Hd m Hm) as [Hn | Hh]; [| done].
      pose proof (Ha _ Hk) as E. by rewrite Hv, Hn in E.
  - intros k Hk. apply (dl_rest _ _ _ _ Hd). intros m Hm <-. by destruct (pg_view _ _ _ _ Hpm m Hm).
Qed.
End importer.

(** ** Freeing a partition *)

Section batch.
Context {A K : Type} `{ResKey A K}.

Lemma free_batch_step (p : drc_res_pool A) i ids :
  inited p = true -> i <= item_num p -> free_batch_loop (i :: ids) p = (p1 ← drc_res_pool_free_item p i; free_batch_loop ids p1).
Proof.
  intros Hin Hi. cbn [free_batch_loop]. unfold drc_res_pool_free_item. rewrite Hin. cbn [negb]. destruct (Z.ltb_spec (item_num p) i); [lia |].
  destruct (arr_get (addr p) i) as [b |]; [| done]. ostep. ostep. destruct (arr_set _ _ _); done.
Qed.

Lemma map_wf_free_batch (m : drc_res_map A) fl held' bl ids :
  map_wf (K := K) m fl (ids ++ held') bl ->
  exists p', free_batch_loop ids (res_pool m) = Done p' /\ map_wf (K := K) (map_set_pool m p') (reverse ids ++ fl) held' bl /\
    links_only (map_items m) (addr p') ids.
Proof.
  revert m fl. induction ids as [| i ids IH]; intros m fl Hwf.
  - exists (res_pool m). split; [done |]. split; [by destruct m | apply links_only_refl].
  - assert (Hr : 0 <= i < item_num (res_pool m)) by (apply (mw_item_range Hwf); set_solver).
    destruct (map_wf_free Hwf i (ids ++ held') ltac:(done)) as (p1 & Hrun & Hwf1 & Hlo1 & Hn1 & _).
    rewrite free_batch_step; [| apply (pw_inited _ _ (mw_pool _ _ _ _ Hwf)) | lia]. rewrite Hrun. ostep.
    destruct (IH (map_set_pool m p1) (i :: fl) Hwf1) as (p' & Hrun' & Hwf' & Hlo'). exists p'. cbn in Hrun'. rewrite Hrun'. split; [done |].
    split; [rewrite reverse_cons, <- (assoc_L (++)); exact Hwf' |].
    destruct Hlo1 as (Hl1 & Ho1 & Hs1), Hlo' as (Hl2 & Ho2 & Hs2). cbn in Ho2, Hs2, Hl2. split; [congruence |]. split.
    + intros j Hj. rewrite Ho2, Ho1 by set_solver. done.
    + intros j a Ha. destruct (Hs1 j a Ha) as [n Hj]. destruct (Hs2 j _ Hj) as [n' Hj']. exists n'. by rewrite Hj', set_item_next_set.
Qed.
End batch.

Section freeing.
Context {A K : Type} `{HG : GlobalItem A K}.
Context (P : A -> list drc_req_info -> Prop) (HPstrip : forall a b rs, strip a = strip b -> P a rs -> P b rs).
Implicit Types (g : drc_global_res A) (pool : lock_pool) (gh : gghost) (k : K).

Local Abbreviation gwf := (gwf (K := K) P).

(** The resources [ids] are unlinked from the map and wiped; the others are as they were. *)
Record wiped gh g (ids : list Z) bl' g' : Prop := mk_wiped {
  wp_map : map_wf (K := K) (res_map g') (gg_free gh) (reverse ids ++ gg_held gh) bl';
  wp_bl : ids ++ concat bl' ≡ₚ linked gh;
  wp_parts : res_parts g' = res_parts g;
  wp_len : length (g_items g') = length (g_items g);
  wp_keep : forall j a, j ∉ ids -> (g_items g).[j] = Some a ->
              exists a', (g_items g').[j] = Some a' /\ strip a' = strip a /\ node_of a' = node_of a;
  wp_zero : forall j, j ∈ ids -> exists n, (g_items g').[j] = Some (set_item_next n item_zero);
}.

Lemma wiped_step gh pool g ids bl1 g1 i a :
  gwf gh pool g -> wiped gh g ids bl1 g1 -> i ∈ linked gh -> i ∉ ids -> (g_items g).[i] = Some a ->
  exists a1 g2 a2 g3 bl2, gres_get g1 i = Done a1 /\ gres_map_remove (K := K) g1 (key_of a1) = Done g2 /\ gres_get g2 i = Done a2 /\
    nnext (node_of a2) = nnext (node_of a) /\ gres_put g2 i item_zero = Done g3 /\ wiped gh g (ids ++ [i]) bl2 g3.
Proof.
  intros Hwf Hw Hi Hni Ha. destruct (wp_keep _ _ _ _ _ Hw i a Hni Ha) as (a1 & Ha1 & Hs1 & Hn1).
  assert (Hib : i ∈ concat bl1) by (rewrite <- (wp_bl _ _ _ _ _ Hw) in Hi; apply elem_of_app in Hi as [|]; done).
  destruct (map_wf_remove _ _ _ _ i a1 (key_of a1) (wp_map _ _ _ _ _ Hw) Hib Ha1 eq_refl) as (m2 & bl2 & Hrun & Hm2 & Hbl2 & Hlo & _ & _).
  pose proof Hlo as (Hl2 & Ho2 & Hs2). destruct (Hs2 i a1 Ha1) as [n Hi2]. pose proof (lookupZ_lt _ _ _ Hi2) as Hlt.
  exists a1, (g_set_map g1 m2), (set_item_next n a1), (g_set_items (g_set_map g1 m2) ((map_items m2).[i <- item_zero])), bl2. split_and!.
  - by apply arr_get_eq.
  - unfold gres_map_remove. by rewrite Hrun.
  - by apply arr_get_eq.
  - by rewrite node_of_set_next, Hn1.
  - unfold gres_put. cbn. by rewrite (arr_set_eq _ _ _ _ Hi2).
  - constructor; cbn.
    + rewrite reverse_snoc. cbn. apply (map_wf_put Hm2 i (set_item_next n a1)); [done |]. left. set_solver.
    + rewrite <- (wp_bl _ _ _ _ _ Hw), <- Hbl2, <- (assoc_L (++)). done.
    + by apply (wp_parts _ _ _ _ _ Hw).
    + rewrite length_insertZ, Hl2. apply (wp_len _ _ _ _ _ Hw).
    + intros j b Hj Hb. destruct (wp_keep _ _ _ _ _ Hw j b) as (b1 & Hb1 & Hsb & Hnb); [set_solver | done |].
      destruct (Hs2 j b1 Hb1) as [n' Hj']. rewrite lookupZ_insertZ_ne by set_solver. eexists. split; [done |].
      by rewrite strip_set_next, node_of_set_next.
    + intros j Hj. destruct (decide (j = i)) as [-> | Hne].
      * exists (item_next item_zero). rewrite lookupZ_insertZ_eq by done. by rewrite set_item_next_id.
      * destruct (wp_zero _ _ _ _ _ Hw j) as [n0 Hj0]; [set_solver |]. destruct (Hs2 j _ Hj0) as [n' Hj']. exists n'.
        rewrite lookupZ_insertZ_ne by done. by rewrite Hj', set_item_next_set.
Qed.

Lemma free_part_loop_spec gh pool g todo ids bl1 g1 p idx q :
  gwf gh pool g -> dseg (g_items g) p idx todo q CT_INVALID_ID32 -> wiped gh g ids bl1 g1 -> todo ⊆ linked gh -> NoDup (ids ++ todo) ->
  exists g2 bl2, free_part_loop (K := K) (length todo) idx ids g1 = Done (ids ++ todo, g2) /\ wiped gh g (ids ++ todo) bl2 g2.
Proof.
  intros Hwf. revert ids bl1 g1 p idx. induction todo as [| i todo IH]; intros ids bl1 g1 p idx Hseg Hw Hsub Hnd.
  - exists g1, bl1. rewrite app_nil_r. done.
  - cbn in Hseg. destruct Hseg as (-> & a & Ha & _ & _ & Hseg).
    assert (Hni : i ∉ ids) by (intros Hin; apply NoDup_app in Hnd as (_ & Hd & _); apply (Hd i Hin); set_solver).
    destruct (wiped_step gh pool g ids bl1 g1 i a Hwf Hw) as (a1 & g2 & a2 & g3 & bl2 & H1' & H2' & H3' & Hnx & H4' & Hw3); [set_solver | done | done |].
    cbn [length free_part_loop]. rewrite H1'. ostep. rewrite H2'. ostep. rewrite H3'. ostep. rewrite H4'. ostep. rewrite Hnx.
    destruct (IH (ids ++ [i]) bl2 g3 i _ Hseg Hw3) as (g4 & bl4 & Hrun & Hw4); [set_solver | by rewrite <- (assoc_L (++)) |].
    rewrite <- (assoc_L (++)) in Hrun, Hw4. by exists g4, bl4.
Qed.

(** The catalog without partition [h], whose resources [ids] have no waiting requests. *)
Lemma wiped_gwf gh pool g h l ids bl2 g2 p' :
  gwf gh pool g -> (res_parts g).[h] = Some l -> (gg_pl gh).[h] = Some ids -> (forall i, i ∈ ids -> (gg_ql gh).[i] = Some []) ->
  wiped gh g ids bl2 g2 -> map_wf (K := K) (map_set_pool (res_map g2) p') (reverse ids ++ gg_free gh) (gg_held gh) bl2 ->
  links_only (g_items g2) (addr p') ids ->
  let g' := mk_global (res_map (g_set_pool g2 p')) ((res_parts g2).[h <- DRC_LIST_INIT]) in
  let gh' := mk_gg (reverse ids ++ gg_free gh) (gg_held gh) bl2 ((gg_pl gh).[h <- []]) (gg_ql gh) (gg_lfree gh) (gg_lrest gh) in
  gwf gh' pool g' /\ (forall k, part_hash k = h -> res_view pool g' k = None) /\
  (forall k, part_hash k <> h -> res_view pool g' k = res_view pool g k).
Proof.
  intros Hwf Hl Hids Hq Hw Hm (Hlen & Hout & Hin) g' gh'. pose proof (gw_parts _ _ _ _ Hwf) as Hp. pose proof (lookupZ_lt _ _ _ Hl) as Hlt.
  pose proof (concat_insertZ_perm (gg_pl gh) h ids [] Hids) as Hc. cbn in Hc.
  assert (Hlink : concat ((gg_pl gh).[h <- []]) ≡ₚ concat bl2).
  { apply (Permutation_app_inv_l ids). rewrite (wp_bl _ _ _ _ _ Hw), <- (gw_linked _ _ _ _ Hwf). by symmetry. }
  assert (Hnd : NoDup (ids ++ concat bl2)) by (rewrite (wp_bl _ _ _ _ _ Hw), <- (gw_linked _ _ _ _ Hwf); by eapply pt_nodup).
  assert (Hnot : forall j, j ∈ concat bl2 -> j ∉ ids) by (apply NoDup_app in Hnd as (_ & Hd & _); intros j Hj Hji; by apply (Hd j)).
  (* what became of each resource *)
  assert (Hkeep : forall j a, j ∉ ids -> (g_items g).[j] = Some a -> exists a', (addr p').[j] = Some a' /\ strip a' = strip a /\ node_of a' = node_of a).
  { intros j a Hj Ha. destruct (wp_keep _ _ _ _ _ Hw j a Hj Ha) as (a1 & Ha1 & Hs & Hn). exists a1. by rewrite Hout. }
  assert (Hback : forall j a', j ∉ ids -> (addr p').[j] = Some a' -> exists a, (g_items g).[j] = Some a /\ strip a' = strip a).
  { intros j a' Hj Ha'. destruct (lookupZ_is_Some (g_items g) j) as [a Ha]; [rewrite <- (wp_len _ _ _ _ _ Hw), <- Hlen; by eapply lookupZ_lt |].
    destruct (Hkeep j a Hj Ha) as (b & Hb & Hs & _). simplify_eq. eauto. }
  assert (Hzero : forall j a, j ∈ ids -> (addr p').[j] = Some a -> strip a = strip item_zero /\ count (res_q a) = 0).
  { intros j a Hj Ha. destruct (wp_zero _ _ _ _ _ Hw j Hj) as [n Hn]. destruct (Hin j _ Hn) as [n' Hn']. simplify_eq.
    rewrite set_item_next_set, strip_set_next, res_q_set_next, res_q_zero. done. }
  assert (Hsub : forall j, j ∈ concat bl2 -> j ∈ linked gh) by (intros j Hj; rewrite <- (wp_bl _ _ _ _ _ Hw); set_solver).
  assert (Hunl : forall j, j ∉ concat bl2 -> j ∉ ids -> j ∉ linked gh) by (intros j Hj Hj'; rewrite <- (wp_bl _ _ _ _ _ Hw); set_solver).
  assert (Hwf' : gwf gh' pool g').
  { constructor; cbn; try done.
    - eapply (parts_wf_change (g_items g)).
      + intros j a Hj Ha. destruct (Hkeep j a) as (a' & Ha' & Hs & Hn); [apply Hnot; by rewrite <- Hlink | done |].
        exists a'. split; [done |]. split; [done |]. by destruct (strip_fields _ _ Hs) as (_ & _ & ? & _).
      + rewrite (wp_parts _ _ _ _ _ Hw). eapply (parts_wf_one _ _ _ _ _ l DRC_LIST_INIT ids []); try done; [apply nodes_only_refl | set_solver | | set_solver].
        apply NoDup_app in Hnd as (_ & _ & Hnd). by rewrite Hlink.
    - rewrite (wp_parts _ _ _ _ _ Hw), length_insertZ. by eapply gw_nparts.
    - rewrite Hlen, (wp_len _ _ _ _ _ Hw). by eapply gw_qlen.
    - intros j a ql Ha Hql. destruct (decide (j ∈ ids)) as [Hj | Hj].
      + rewrite (Hq j Hj) in Hql. injection Hql as <-. destruct (Hzero j a Hj Ha) as [_ Hcnt]. by split.
      + destruct (Hback j a Hj Ha) as (b & Hb & Hs). destruct (strip_fields _ _ Hs) as (_ & _ & _ & ->). by eapply gw_queues.
    - intros j ql Hql Hj. destruct (decide (j ∈ ids)) as [Hji | Hji]; [rewrite (Hq j Hji) in Hql; congruence |]. eapply gw_unlinked; [done | done |]. by apply Hunl.
    - intros j a Hj Ha. destruct (decide (j ∈ ids)) as [Hji | Hji]; [by apply (Hzero j) |]. destruct (Hback j a Hji Ha) as (b & Hb & ->).
      eapply gw_blank; [done | by apply Hunl | done].
    - by eapply gw_lpool.
    - by eapply gw_lperm.
    - intros j a Hj Ha. destruct (Hback j a (Hnot j Hj) Ha) as (b & Hb & Hs). destruct (strip_fields _ _ Hs) as (-> & -> & -> & _).
      eapply gw_self; [done | by apply Hsub | done].
    - intros j a ql Hj Ha Hql. destruct (Hback j a (Hnot j Hj) Ha) as (b & Hb & Hs). eapply HPstrip; [by symmetry |].
      eapply gw_inv; [done | by apply Hsub | done | done]. }
  assert (Hother : forall j a, j ∈ concat bl2 -> (g_items g).[j] = Some a -> part_hash (K := K) (key_of a) <> h).
  { intros j a Hj Ha E. destruct (gw_self _ _ _ _ Hwf j a (Hsub j Hj) Ha) as [_ Hpart]. rewrite <- Hlink in Hj. apply elem_of_concat in Hj as (h' & ids' & Hids' & Hj).
    destruct (decide (h = h')) as [<- | Hne]; [rewrite lookupZ_insertZ_eq in Hids' by (rewrite (pt_len _ _ _ Hp); done); set_solver |].
    rewrite lookupZ_insertZ_ne in Hids' by done. pose proof (pt_item _ _ _ Hp _ _ _ _ Hids' Hj Ha). congruence. }
  split; [done |]. split.
  - intros k Hk. pose proof (gwf_view P Hwf' k) as Hv. destruct (res_view pool g' k) as [[b rs] |]; [| done].
    destruct Hv as (j & a' & ql & _ & Hj & Ha' & _ & Hkey & _). cbn in Hj, Ha'. destruct (Hback j a' (Hnot j Hj) Ha') as (a & Ha & Hs).
    destruct (strip_fields _ _ Hs) as (Hka & _). by destruct (Hother j a Hj Ha); rewrite <- Hka, Hkey.
  - intros k Hk. eapply (gwf_view_ext P); [done | done | |]; cbn.
    + intros j a ql Hj Ha Hkey Hql. assert (Hji : j ∉ ids).
      { intros Hji. destruct (gw_self _ _ _ _ Hwf j a Hj Ha) as [_ Hpart]. pose proof (pt_item _ _ _ Hp _ _ _ _ Hids Hji Ha). congruence. }
      split; [rewrite <- (wp_bl _ _ _ _ _ Hw) in Hj; set_solver |]. destruct (Hkeep j a Hji Ha) as (a' & Ha' & Hs & _). by exists a', ql.
    + intros j a' Hj Ha' Hkey. split; [by apply Hsub |]. destruct (Hback j a' (Hnot j Hj) Ha') as (a & Ha & Hs).
      destruct (strip_fields _ _ Hs) as (Hka & _). exists a. split; [done | congruence].
Qed.

Lemma free_part_spec pool g h l (malloc_ok : bool) :
  catalog_ok P pool g -> (res_parts g).[h] = Some l -> (forall k a rs, part_hash k = h -> res_view pool g k = Some (a, rs) -> rs = []) ->
  malloc_ok = true ->
  exists g', drc_free_res_by_part (K := K) malloc_ok h g = Done g' /\ catalog_ok P pool g' /\
    (forall k, part_hash k = h -> res_view pool g' k = None) /\ (forall k, part_hash k <> h -> res_view pool g' k = res_view pool g k).
Proof.
  intros (gh & Hwf & Hheld) Hl Hquiet ->. unfold drc_free_res_by_part. rewrite (arr_get_eq _ _ _ Hl). ostep.
  destruct (gwf_part_keys P gh pool g h l Hwf Hl) as (ids & Hids & [Hseg Hcnt] & Hsub & _ & _ & Hks).
  destruct (Z.eqb_spec (count l) 0) as [E | E]; cbn [negb].
  - exists g. split; [done |]. split; [by exists gh |]. split; [| done]. intros k Hk. destruct (res_view pool g k) as [v |] eqn:Hv; [| done].
    assert (Hin : k ∈ keys_of (g_items g) ids) by (apply Hks; by rewrite Hv). destruct ids; [by apply not_elem_of_nil in Hin | cbn in Hcnt; lia].
  - rewrite Hcnt, Nat2Z.id. assert (Hnd : NoDup ids) by (eapply pt_nodup_one; [by eapply gw_parts | done]).
    destruct (free_part_loop_spec gh pool g ids [] (gg_bl gh) g _ _ _ Hwf Hseg) as (g2 & bl2 & -> & Hw); try done.
    { constructor; try done; [by eapply gw_map | intros j a _ Ha; by exists a |]. intros j Hj. by apply not_elem_of_nil in Hj. }
    ostep. cbn [app] in *. pose proof (wp_map _ _ _ _ _ Hw) as Hm2. rewrite Hheld, app_nil_r in Hm2.
    assert (Hm2' : map_wf (K := K) (res_map g2) (gg_free gh) (ids ++ []) bl2) by (eapply map_wf_held_perm; [| exact Hm2]; rewrite app_nil_r; apply reverse_Permutation).
    destruct (map_wf_free_batch _ _ _ _ _ Hm2') as (p' & Hfree & Hm3 & Hlo).
    unfold drc_res_pool_free_batch_item. pose proof (mw_pool _ _ _ _ Hm2) as Hpw. rewrite (pw_inited _ _ Hpw). cbn [negb].
    assert (Hu : used_num (res_pool (res_map g2)) <? Z.of_nat (length ids) = false).
    { apply Z.ltb_ge. pose proof (pw_used _ _ Hpw) as Hu. pose proof (Permutation_length (mw_perm _ _ _ _ Hm2)) as Hpl. rewrite !length_app, length_reverse, length_seqZ in Hpl.
      pose proof (pw_len _ _ Hpw). lia. }
    rewrite Hu, Hfree. ostep. rewrite (arr_set_eq _ _ _ l) by (by rewrite (wp_parts _ _ _ _ _ Hw)). ostep. eexists. split; [done |].
    assert (Hq : forall i, i ∈ ids -> (gg_ql gh).[i] = Some []).
    { intros i Hi. pose proof (Hsub i Hi) as Hil. destruct (linked_item P gh pool g i Hwf Hil) as [a Ha]. destruct (gwf_ql P Hwf i a Ha) as [q Hq].
      pose proof (gwf_view_Some P Hwf i a q Hil Ha Hq) as Hv. assert (Hh : part_hash (key_of a) = h) by (apply Hks, elem_of_reskeys; by exists i, a).
      pose proof (Hquiet _ _ _ Hh Hv) as Hnil. destruct q as [| x q]; [done |]. pose proof (gwf_queue P Hwf i a _ Ha Hq) as Hqw.
      destruct (qw_item Hqw x) as [it Hit]; [set_solver |]. by rewrite (queue_reqs_cons _ _ _ _ Hit) in Hnil. }
    destruct (wiped_gwf gh pool g h l ids bl2 g2 p' Hwf Hl Hids Hq Hw) as (Hwf' & Hnone & Hkeep).
    + by rewrite Hheld.
    + exact Hlo.
    + split; [eexists; split; [exact Hwf' | exact Hheld] |]. done.
Qed.
End freeing.
