(* ===== verification/MgrtThms.v ===== *)
(** * Migration is correct

    A partition is moved: the exporter packs it, the importer enters what
    arrives, in whatever order and however often it arrives, the importer knows
    when it has everything, and the exporter frees the partition.
    Source: src/pkg/src/cluster/dtc_drc.c. *)

From stdpp Require Import prelude list.
From S2P Require Import Prelude Bitmap ResPool DrcList ResMap ConvertQ GlobalRes DrcTypes DrcPage PageInv DrcLock LockProps DrcPart DrcMgrt MgrtProps.

Open Scope Z_scope.
Open Scope drc_scope.

(** ** Pages and locks keep the laws *)

#[local] Opaque drc_lock_partid drc_page_partid.

#[export] Instance buf_MgrtLaws `{KernelAttr} : MgrtLaws (K := page_id_t) (M := drc_buf_res_msg) buf_inv.
Proof.
  constructor; try done.
  - intros a b (n & m & ->)%strip_buf_eq. done.
  - intros a. cbn. unfold drc_check_migrate_buf_res_info. cbn. by rewrite !Z.eqb_refl.
  - intros a rs Hinv Hi. by apply (bi_idle _ _ Hinv).
  - intros a b id cells off pool Hinv Hi. eexists. split; [reflexivity |]. split; [done |]. split; [done |]. split; [done |]. split; [done |].
    split; [done |]. split; [done |]. destruct Hinv. constructor; cbn; eauto; try (by left); try (by right).
Qed.

#[export] Instance lock_MgrtLaws : MgrtLaws (K := drid_t) (M := drc_lock_res_msg) lock_inv.
Proof.
  constructor; try done.
  - intros a b (n & m & ->)%strip_lock_eq. done.
  - intros a rs Hinv Hi. by apply (ki_idle _ _ Hinv).
  - intros a b id cells off pool Hinv Hi. eexists. split; [reflexivity |]. split; [reflexivity |]. split; [reflexivity |]. split; [reflexivity |]. split; [reflexivity |].
    split; [done |]. split; [done |]. destruct Hinv. constructor; cbn; eauto; try (by left).
Qed.

Lemma in_chunks {M} (x : M) (chunks : list (list M)) : x ∈ concat chunks <-> exists ch, ch ∈ chunks /\ x ∈ ch.
Proof. rewrite list_elem_of_In, in_concat. by setoid_rewrite <- list_elem_of_In. Qed.

Section migration.
Context `{HA : KernelAttr}.
Implicit Types (c : mgrt_ctx) (m : drc_res_master_msg) (g : buf_catalog) (gl : lock_catalog) (pool : lock_pool).

Local Abbreviation page_msgs := (list drc_buf_res_msg).
Local Abbreviation lock_msgs := (list drc_lock_res_msg).

(** ** The messages of a partition *)

Section one_task.
Context (self : Z) (task : drc_remaster_task) (ver : Z) (allb : page_msgs) (alll : lock_msgs).

(** A message that carries pages, and one that carries locks and perhaps the counts. *)
Definition page_block (ms : page_msgs) : drc_res_master_msg := blk_msg (K := page_id_t) self task ver ms [] false.
Definition lock_block (ms : lock_msgs) (is_end : bool) : drc_res_master_msg :=
  blk_msg (K := drid_t) self task ver ms (if is_end then [CellCnt (Z.of_nat (length allb)); CellCnt (Z.of_nat (length alll))] else []) is_end.

Definition page_fits (ms : page_msgs) : Prop := Z.of_nat (length ms) <= REMASTER_MIG_MAX_BUF_RES_NUM.
Definition lock_fits (ms : lock_msgs) : Prop := Z.of_nat (length ms) <= REMASTER_MIG_MAX_LOCK_RES_NUM.

Inductive sent_msg m : Prop :=
| sent_pages ms : m = page_block ms -> ms ⊆ allb -> ms <> [] -> page_fits ms -> sent_msg m
| sent_locks ms is_end : m = lock_block ms is_end -> ms ⊆ alll -> lock_fits ms -> sent_msg m.

(** Everything is in some message, and the counts are too. *)
Record sent_all (sent : list drc_res_master_msg) : Prop := mk_sent_all {
  sl_msgs : Forall sent_msg sent;
  sl_pages : forall b, b ∈ allb -> exists ms, page_block ms ∈ sent /\ b ∈ ms;
  sl_locks : forall l, l ∈ alll -> exists ms is_end, lock_block ms is_end ∈ sent /\ l ∈ ms;
  sl_end : exists ms, lock_block ms true ∈ sent;
}.
End one_task.

Lemma page_fits_bytes (ms : page_msgs) : sizeof_res_master_msg + 56 * Z.of_nat (length ms) <= MES_MESSAGE_BUFFER_SIZE -> page_fits ms.
Proof. unfold page_fits, REMASTER_MIG_MAX_BUF_RES_NUM, sizeof_res_master_msg, MES_MESSAGE_BUFFER_SIZE, sizeof_buf_res_msg. intros Hl. apply Z.div_le_lower_bound; lia. Qed.

Lemma lock_fits_bytes (ms : lock_msgs) : sizeof_res_master_msg + 40 * Z.of_nat (length ms) <= MES_MESSAGE_BUFFER_SIZE -> lock_fits ms.
Proof. unfold lock_fits, REMASTER_MIG_MAX_LOCK_RES_NUM, sizeof_res_master_msg, MES_MESSAGE_BUFFER_SIZE, sizeof_lock_res_msg. intros Hl. apply Z.div_le_lower_bound; lia. Qed.

(** ** The exporter sends everything *)

(** The length of the list of partition [h]. *)
Definition part_count {A} (g : drc_global_res A) (h : Z) : Z := match (res_parts g).[h] with Some l => count l | None => 0 end.

Section export.
Context (self : Z) (task : drc_remaster_task) (ver : Z).

Lemma catalog_part {A K} `{GlobalItem A K} (P : A -> list drc_req_info -> Prop) pool (g : drc_global_res A) h :
  catalog_ok (K := K) P pool g -> 0 <= h < DRC_MAX_PART_NUM -> exists l, (res_parts g).[h] = Some l.
Proof. intros (gh & Hwf & _) Hh. apply lookupZ_is_Some. by rewrite (gw_nparts _ _ _ _ Hwf). Qed.

(** The pages go out in blocks that fit. *)
Lemma send_buf_spec net others turns pool g :
  net_up net (import_inst task) -> catalog_ok (K := page_id_t) buf_inv pool g -> 0 <= task_part task < DRC_MAX_PART_NUM ->
  part_idle (K := page_id_t) pool g (task_part task) ->
  exists allb chunks, drc_send_buf_master_blk self task ver true (S turns) net others g pool =
      Done (CT_SUCCESS, Z.of_nat (length allb), List.map (page_block self task ver) chunks, g, pool) /\
    part_msgs (K := page_id_t) buf_inv pool g (task_part task) allb /\ concat chunks = allb /\ Forall (fun ch => ch <> [] /\ page_fits ch) chunks /\
    Z.of_nat (length allb) = part_count g (task_part task).
Proof.
  intros Hnet Hok Hh Hidle. destruct (catalog_part _ _ _ _ Hok Hh) as [l Hl].
  destruct (part_messages buf_inv pool g (task_part task) l Hok Hl Hidle) as (ids & [Hseg Hcnt] & Hid & Hall & Hlen).
  assert (Hpc : part_count g (task_part task) = count l) by (unfold part_count; by rewrite Hl).
  exists (res_msgs (g_items g) ids). rewrite Hlen. unfold drc_send_buf_master_blk. rewrite (arr_get_eq _ _ _ Hl). ostep.
  destruct (Z.eqb_spec 0 (count l)) as [E | E]; cbn [negb].
  - exists []. rewrite <- E in Hlen |- *. destruct (res_msgs (g_items g) ids) as [| x l0] eqn:Er; [| cbn in Hlen; lia]. split_and!; try done. congruence.
  - rewrite Hcnt, Nat2Z.id.
    destruct (export_msgs_spec self task ver net Hnet others turns ids _ _ g pool export_init [] [] _ Hseg (packing_init self task ver) Hid)
      as (e & chunks & cur & -> & Hp & Hc & Hne). ostep.
    rewrite (export_send_plain self task ver net Hnet e chunks cur false Hp). ostep. exists (chunks ++ [cur]). cbn [ex_sent].
    split; [by rewrite (pk_sent _ _ _ _ _ _ Hp), map_app |]. split; [done |]. split; [rewrite concat_app; cbn; by rewrite app_nil_r |]. split; [| by rewrite Hpc].
    assert (Hcur : cur <> []) by (apply Hne; intros ->; cbn in Hcnt; lia). apply Forall_app. split.
    + eapply Forall_impl; [exact (pk_chunks _ _ _ _ _ _ Hp) |]. intros ch [Hch Hf]. split; [done | by apply page_fits_bytes].
    + apply Forall_singleton. split; [done |]. apply page_fits_bytes. pose proof (pk_off _ _ _ _ _ _ Hp) as Ho. pose proof (pk_fits _ _ _ _ _ _ Hp).
      cbn in Ho. unfold sizeof_buf_res_msg in Ho. lia.
Qed.

(** The locks too; the last block has the counts. *)
Lemma send_lock_spec net others turns pool gl allb :
  net_up net (import_inst task) -> catalog_ok (K := drid_t) lock_inv pool gl -> 0 <= task_part task < DRC_MAX_PART_NUM ->
  part_idle (K := drid_t) pool gl (task_part task) ->
  exists alll chunks cur n, drc_send_lock_master_blk self task ver true (S turns) net others (Z.of_nat (length allb)) gl pool =
      Done (CT_SUCCESS, n, List.map (fun ms => lock_block self task ver allb alll ms false) chunks ++ [lock_block self task ver allb alll cur true], gl, pool) /\
    part_msgs (K := drid_t) lock_inv pool gl (task_part task) alll /\ concat chunks ++ cur = alll /\ Forall lock_fits chunks /\ lock_fits cur /\
    Z.of_nat (length alll) = part_count gl (task_part task).
Proof.
  intros Hnet Hok Hh Hidle. destruct (catalog_part _ _ _ _ Hok Hh) as [l Hl].
  destruct (part_messages lock_inv pool gl (task_part task) l Hok Hl Hidle) as (ids & [Hseg Hcnt] & Hid & Hall & Hlen).
  assert (Hpc : Z.of_nat (length (res_msgs (g_items gl) ids)) = part_count gl (task_part task)) by (unfold part_count; by rewrite Hl).
  exists (res_msgs (g_items gl) ids). unfold drc_send_lock_master_blk. cbn [negb]. rewrite (arr_get_eq _ _ _ Hl). ostep.
  rewrite Hcnt, Nat2Z.id.
  destruct (export_msgs_spec self task ver net Hnet others turns ids _ _ gl pool export_init [] [] _ Hseg (packing_init self task ver) Hid)
    as (e & chunks & cur & -> & Hp & Hc & _). ostep. rewrite (arr_get_eq _ _ _ Hl). ostep. set (cnts := [CellCnt (Z.of_nat (length allb)); CellCnt (count l)]).
  assert (Hcnts : forall ms, blk_msg (K := drid_t) self task ver ms cnts true = lock_block self task ver allb (res_msgs (g_items gl) ids) ms true)
    by (intros ms; unfold lock_block; by rewrite Hlen).
  assert (Hfits : Forall lock_fits chunks).
  { eapply Forall_impl; [exact (pk_chunks _ _ _ _ _ _ Hp) |]. intros ch [_ Hf]. by apply lock_fits_bytes. }
  assert (Hcur : lock_fits cur).
  { apply lock_fits_bytes. pose proof (pk_off _ _ _ _ _ _ Hp) as Ho. pose proof (pk_fits _ _ _ _ _ _ Hp). cbn in Ho. unfold sizeof_lock_res_msg in Ho. lia. }
  destruct (Z.leb_spec (ex_offset e + sizeof_uint32 + sizeof_uint32) MES_MESSAGE_BUFFER_SIZE) as [Hle | Hgt].
  - pose proof (export_send_extra self task ver net Hnet e chunks cur cnts true Hp) as Hs.
    replace (ex_offset e + cells_size cnts) with (ex_offset e + sizeof_uint32 + sizeof_uint32) in Hs by (unfold cnts, cells_size; cbn; lia).
    unfold DRC_MGRT_MSG_SET_RES_CNT. fold cnts. rewrite Hs. ostep. exists chunks, cur, (count l). cbn [ex_sent].
    rewrite (pk_sent _ _ _ _ _ _ Hp), (Hcnts cur). done.
  - rewrite (export_send_plain self task ver net Hnet e chunks cur false Hp). ostep. unfold drc_send_mgrt_part_end, DRC_MGRT_MSG_SET_RES_CNT. cbn [ex_sent ex_offset ex_num ex_cells app].
    assert (Hp0 : packing (K := drid_t) self task ver (mk_export sizeof_res_master_msg 0 [] (ex_sent e ++ [blk_msg (K := drid_t) self task ver cur [] false])) (chunks ++ [cur]) []).
    { constructor; cbn; try done; [by rewrite (pk_sent _ _ _ _ _ _ Hp), map_app |].
      apply Forall_app. split; [exact (pk_chunks _ _ _ _ _ _ Hp) |]. apply Forall_singleton.
      pose proof (pk_off _ _ _ _ _ _ Hp) as Ho. pose proof (pk_fits _ _ _ _ _ _ Hp) as Hf. split; [| rewrite Ho in Hf; exact Hf].
      intros ->. cbn in Ho. unfold sizeof_uint32, MES_MESSAGE_BUFFER_SIZE, sizeof_res_master_msg in *. lia. }
    pose proof (export_send_extra self task ver net Hnet _ _ [] cnts true Hp0) as Hs. cbn [ex_offset ex_num ex_cells ex_sent app] in Hs.
    change (sizeof_res_master_msg + cells_size cnts) with (sizeof_res_master_msg + sizeof_uint32 + sizeof_uint32) in Hs. fold cnts. rewrite Hs. ostep.
    exists (chunks ++ [cur]), [], (count l). cbn [ex_sent]. split; [by rewrite (pk_sent _ _ _ _ _ _ Hp), map_app, (Hcnts []) |].
    split; [done |]. split; [rewrite concat_app, app_nil_r; cbn; by rewrite app_nil_r |]. split; [by apply Forall_app; split; [| apply Forall_singleton] |].
    split; [by vm_compute | exact Hpc].
Qed.

(** Both together. *)
Lemma migrate_sends net others others' turns pool g gl :
  net_up net (import_inst task) -> 0 <= task_part task < DRC_MAX_PART_NUM -> task_status task = PART_WAIT_MIGRATE ->
  catalog_ok (K := page_id_t) buf_inv pool g -> part_idle (K := page_id_t) pool g (task_part task) ->
  catalog_ok (K := drid_t) lock_inv pool gl -> part_idle (K := drid_t) pool gl (task_part task) ->
  exists allb alll sent, drc_migrate_master_blk self task ver true true (S turns) net others others' g gl pool = Done (CT_SUCCESS, sent, g, gl, pool) /\
    part_msgs (K := page_id_t) buf_inv pool g (task_part task) allb /\ part_msgs (K := drid_t) lock_inv pool gl (task_part task) alll /\
    sent_all self task ver allb alll sent /\
    Z.of_nat (length allb) = part_count g (task_part task) /\ Z.of_nat (length alll) = part_count gl (task_part task).
Proof.
  intros Hnet Hh Hst Hok Hidle Hokl Hidlel. destruct (send_buf_spec net others turns pool g Hnet Hok Hh Hidle) as (allb & chunks & Hb & Hallb & Hc & Hf & Hnb).
  destruct (send_lock_spec _ others' turns pool gl allb (net_up_shift net _ (length (List.map (page_block self task ver) chunks)) Hnet) Hokl Hh Hidlel)
    as (alll & lchunks & cur & n & Hl & Halll & Hlc & Hlf & Hcf & Hnl).
  exists allb, alll, (List.map (page_block self task ver) chunks ++ (List.map (fun ms => lock_block self task ver allb alll ms false) lchunks ++
    [lock_block self task ver allb alll cur true])).
  unfold drc_migrate_master_blk. rewrite Hst, Z.eqb_refl. unfold knl_panic at 1. ostep. rewrite Hb. ostep. rewrite Hl. ostep. split; [done |]. split; [done |]. split; [done |]. split; [| done].
  assert (Hsub : forall ch, ch ∈ chunks -> ch ⊆ allb) by (intros ch Hch x Hx; rewrite <- Hc; apply in_chunks; by exists ch).
  assert (Hsubl : forall ch, ch ∈ lchunks -> ch ⊆ alll).
  { intros ch Hch x Hx. rewrite <- Hlc. apply elem_of_app. left. apply in_chunks. by exists ch. }
  rewrite Forall_forall in Hf. rewrite Forall_forall in Hlf. constructor.
  - apply Forall_forall. intros m [(ch & -> & Hch)%list_elem_of_fmap_1 | [(ch & -> & Hch)%list_elem_of_fmap_1 | ->%list_elem_of_singleton]%elem_of_app]%elem_of_app.
    + destruct (Hf ch Hch). apply (sent_pages _ _ _ _ _ _ ch); auto.
    + apply (sent_locks _ _ _ _ _ _ ch false); auto.
    + apply (sent_locks _ _ _ _ _ _ cur true); auto. rewrite <- Hlc. set_solver.
  - intros b Hb'. rewrite <- Hc in Hb'. apply in_chunks in Hb' as (ch & Hch & Hx).
    exists ch. split; [| done]. apply elem_of_app. left. by apply list_elem_of_fmap_2.
  - intros b Hb'. rewrite <- Hlc in Hb'. apply elem_of_app in Hb' as [Hb' | Hb'].
    + apply in_chunks in Hb' as (ch & Hch & Hx). exists ch, false. split; [| done].
      apply elem_of_app. right. apply elem_of_app. left. by apply (list_elem_of_fmap_2 (fun ms => lock_block self task ver allb alll ms false)).
    + exists cur, true. split; [| done]. apply elem_of_app. right. apply elem_of_app. right. by apply list_elem_of_singleton.
  - exists cur. apply elem_of_app. right. apply elem_of_app. right. by apply list_elem_of_singleton.
Qed.
End export.

(** ** The importer takes what arrives *)

Lemma update_task_spec self st pre t post :
  Forall (fun t' => task_part t' <> task_part t) pre -> import_inst t = self ->
  drc_update_remaster_task_status self (task_part t) st (export_inst t) (pre ++ t :: post) =
  pre ++ mk_task (export_inst t) self (task_part t) st :: post.
Proof.
  intros Hpre <-. induction Hpre as [| t' pre Hne _ IH]; cbn [app drc_update_remaster_task_status].
  - by rewrite !Z.eqb_refl.
  - rewrite (proj2 (Z.eqb_neq _ _) Hne). cbn [andb]. by rewrite IH.
Qed.

Section import.
Context (exp self : Z) (task : drc_remaster_task) (ver : Z) (allb : page_msgs) (alll : lock_msgs) (nb nl : Z) (c0 : mgrt_ctx) (pre post : list drc_remaster_task).
Context (rst : drc_remaster_status) (rc : reform_status).

(** The importer can take the partition: the reform is under way, the
    task is its own, no resource of the partition is there yet, and there is
    room for all resources and a message more. *)
Record import_ready : Prop := mk_ready {
  ir_rst : rst <> REMASTER_DONE;
  ir_rc : reform_num REFORM_FROZEN <= reform_num rc < reform_num REFORM_RECOVER_DONE;
  ir_part : 0 <= task_part task < DRC_MAX_PART_NUM;
  ir_exp : export_inst task = exp;
  ir_imp : import_inst task = self;
  ir_wait : task_status task = PART_WAIT_MIGRATE;
  ir_ne : exp <> self;
  ir_tasks : mx_tasks c0 = pre ++ task :: post;
  ir_pre : Forall (fun t => task_part t <> task_part task) pre;
  ir_buf : catalog_ok (K := page_id_t) buf_inv (mx_items c0) (mx_buf c0);
  ir_lock : catalog_ok (K := drid_t) lock_inv (mx_items c0) (mx_lock c0);
  ir_nobuf : forall k : page_id_t, part_hash k = task_part task -> res_view (mx_items c0) (mx_buf c0) k = None;
  ir_nolock : forall k : drid_t, part_hash k = task_part task -> res_view (mx_items c0) (mx_lock c0) k = None;
  ir_roomb : REMASTER_MIG_MAX_BUF_RES_NUM <= room (mx_buf c0) - nb;
  ir_rooml : REMASTER_MIG_MAX_LOCK_RES_NUM <= room (mx_lock c0) - nl;
  ir_cnt : Z.of_nat (length (mx_cnt c0)) = DRC_MAX_PART_NUM;
  ir_info : Z.of_nat (length (mx_info c0)) = DRC_MAX_PART_NUM;
}.

Local Abbreviation has_page c b := (holds (K := page_id_t) (mx_items c0) (mx_buf c) (bm_page_id b) b).
Local Abbreviation has_lock c l := (holds (K := drid_t) (mx_items c0) (mx_lock c) (lm_res_id l) l).

(** The importer after some messages; [ended]: one of them had the counts. *)
Record importing (ended : bool) c : Prop := mk_importing {
  im_buf : delivered (K := page_id_t) buf_inv (mx_items c0) (mx_buf c0) allb (mx_buf c);
  im_lock : delivered (K := drid_t) lock_inv (mx_items c0) (mx_lock c0) alll (mx_lock c);
  im_items : mx_items c = mx_items c0;
  im_cnt : Z.of_nat (length (mx_cnt c)) = DRC_MAX_PART_NUM;
  im_info : Z.of_nat (length (mx_info c)) = DRC_MAX_PART_NUM;
  im_end : ended = true -> (mx_info c).[task_part task] = Some (mk_pinfo (Z.of_nat (length allb)) (Z.of_nat (length alll)) exp);
  im_tasks : mx_tasks c = pre ++ (if ended then mk_task exp self (task_part task) PART_MIGRATING else task) :: post;
}.

Context (Hready : import_ready) (Hnb : Z.of_nat (length allb) = nb) (Hnl : Z.of_nat (length alll) = nl).
Context (Hb : Forall (good_msg (K := page_id_t) buf_inv) allb) (Hbnd : NoDup (List.map bm_page_id allb))
  (Hbp : forall b, b ∈ allb -> part_hash (A := drc_buf_res) (bm_page_id b) = task_part task).
Context (Hl : Forall (good_msg (K := drid_t) lock_inv) alll) (Hlnd : NoDup (List.map lm_res_id alll))
  (Hlp : forall l, l ∈ alll -> part_hash (A := drc_master_res) (lm_res_id l) = task_part task).

Lemma importing_init : importing false c0.
Proof.
  destruct Hready. constructor; try done.
  - apply (delivered_init buf_inv (mx_items c0) (mx_buf c0) (task_part task) allb); done.
  - apply (delivered_init lock_inv (mx_items c0) (mx_lock c0) (task_part task) alll); done.
Qed.

Lemma guard_open : bool_decide (rst = REMASTER_DONE) || (reform_num REFORM_RECOVER_DONE <=? reform_num rc) || (reform_num rc <? reform_num REFORM_FROZEN) = false.
Proof.
  destruct Hready. rewrite bool_decide_eq_false_2 by done. cbn [orb]. apply orb_false_iff. split; [apply Z.leb_gt | apply Z.ltb_ge]; lia.
Qed.

(** The size of a block agrees with its number of resources. *)
Lemma page_block_check ms : drc_check_mgrt_data_msg (page_block exp task ver ms) = CT_SUCCESS.
Proof.
  unfold drc_check_mgrt_data_msg, page_block, blk_msg, drc_init_res_master_msg. cbn [mg_size mg_res_type mg_res_num mt_size mt_type buf_MgrtRes cells_size foldr].
  unfold sizeof_res_master_msg, sizeof_buf_res_msg. destruct (Z.ltb_spec (80 + 56 * Z.of_nat (length ms) + 0) 80); [lia |].
  destruct (Z.ltb_spec (80 + 56 * Z.of_nat (length ms) + 0) (80 + Z.of_nat (length ms) * 56)); [lia |]. reflexivity.
Qed.

Lemma lock_block_check ms is_end : drc_check_mgrt_data_msg (lock_block exp task ver allb alll ms is_end) = CT_SUCCESS.
Proof.
  unfold drc_check_mgrt_data_msg, lock_block, blk_msg, drc_init_res_master_msg. cbn [mg_size mg_res_type mg_res_num mt_size mt_type lock_MgrtRes].
  pose proof (cells_size_nonneg (if is_end then [CellCnt (Z.of_nat (length allb)); CellCnt (Z.of_nat (length alll))] else [])) as Hx.
  set (x := cells_size _) in *. unfold sizeof_res_master_msg, sizeof_lock_res_msg. destruct (Z.ltb_spec (80 + 40 * Z.of_nat (length ms) + x) 80); [lia |].
  destruct (Z.ltb_spec (80 + 40 * Z.of_nat (length ms) + x) (80 + Z.of_nat (length ms) * 40)); [lia |]. reflexivity.
Qed.

(** A block of pages. *)
Lemma process_pages ended c ms :
  importing ended c -> ms ⊆ allb -> ms <> [] -> page_fits ms ->
  exists c', drc_process_mgrt_data self rst rc ver true (page_block exp task ver ms) c = Done c' /\ importing ended c' /\
    (forall b, b ∈ ms -> has_page c' b) /\ (forall b, b ∈ allb -> has_page c b -> has_page c' b) /\ mx_lock c' = mx_lock c.
Proof.
  intros Him Hsub Hne Hfit. pose proof guard_open as Hguard. pose proof Hready as []. unfold page_fits in Hfit.
  destruct (delivered_block buf_inv buf_inv_strip (mx_items c0) (mx_buf c0) allb Hb Hbnd ir_buf0 (mx_buf c) ms [] (im_buf _ _ Him) Hsub)
    as (idx & g1 & ra & g' & Halloc & Hrun & Hd & Hh & Hkeep).
  { lia. } { assert (0 < REMASTER_MIG_MAX_BUF_RES_NUM) by done. lia. }
  destruct (lookupZ_is_Some (mx_cnt c) (task_part task)) as [n Hn]; [by rewrite (im_cnt _ _ Him) |].
  unfold drc_process_mgrt_data. rewrite page_block_check, Hguard. change (mg_res_type (page_block exp task ver ms) =? DRC_RES_PAGE_TYPE) with true.
  unfold drc_process_buf_master_blk, page_block, blk_msg, drc_init_res_master_msg. cbn [mg_res_num mg_part_id mg_version mg_cells].
  rewrite (proj2 (Z.ltb_ge _ _) Hfit), (proj2 (Z.leb_gt _ _) (proj2 ir_part0)), Z.eqb_refl. cbn [orb negb].
  rewrite (proj2 (Z.eqb_neq (Z.of_nat (length ms)) 0)) by (destruct ms; [done | cbn; lia]).
  rewrite Halloc. ostep. cbn [mx_buf mx_items]. unfold drc_migrate_buf_res_l. cbn [mg_cells]. rewrite (im_items _ _ Him), Hrun. ostep.
  cbn [mx_cnt]. rewrite (arr_get_eq _ _ _ Hn). ostep. rewrite (arr_set_eq _ _ _ _ Hn). ostep. ostep. eexists. split; [reflexivity |].
  cbn [mx_buf mx_lock]. split; [| done]. destruct Him. constructor; cbn [mx_buf mx_lock mx_items mx_cnt mx_info mx_tasks]; rewrite ?length_insertZ; done.
Qed.

(** A block of locks. *)
Lemma process_locks ended c ms is_end :
  importing ended c -> ms ⊆ alll -> lock_fits ms ->
  exists c', drc_process_mgrt_data self rst rc ver true (lock_block exp task ver allb alll ms is_end) c = Done c' /\ importing (ended || is_end) c' /\
    (forall l, l ∈ ms -> has_lock c' l) /\ (forall l, l ∈ alll -> has_lock c l -> has_lock c' l) /\ mx_buf c' = mx_buf c.
Proof.
  intros Him Hsub Hfit. pose proof guard_open as Hguard. pose proof Hready as []. unfold lock_fits in Hfit.
  set (extra := if is_end then [CellCnt (Z.of_nat (length allb)); CellCnt (Z.of_nat (length alll))] else []).
  destruct (delivered_block lock_inv lock_inv_strip (mx_items c0) (mx_lock c0) alll Hl Hlnd ir_lock0 (mx_lock c) ms extra (im_lock _ _ Him) Hsub)
    as (idx & g1 & ra & g' & Halloc & Hrun & Hd & Hh & Hkeep).
  { lia. } { assert (0 < REMASTER_MIG_MAX_LOCK_RES_NUM) by done. lia. }
  destruct (lookupZ_is_Some (mx_cnt c) (task_part task)) as [n Hn]; [by rewrite (im_cnt _ _ Him) |].
  unfold drc_process_mgrt_data. rewrite lock_block_check, Hguard. change (mg_res_type (lock_block exp task ver allb alll ms is_end) =? DRC_RES_PAGE_TYPE) with false.
  change (mg_res_type (lock_block exp task ver allb alll ms is_end) =? DRC_RES_LOCK_TYPE) with true.
  unfold drc_process_lock_master_blk, lock_block, blk_msg, drc_init_res_master_msg. fold extra. cbn [mg_res_num mg_part_id mg_version mg_cells mg_is_part_end].
  rewrite (proj2 (Z.ltb_ge _ _) Hfit), (proj2 (Z.leb_gt _ _) (proj2 ir_part0)), Z.eqb_refl. cbn [orb negb].
  rewrite Halloc. ostep. cbn [mx_lock mx_items]. unfold drc_migrate_lock_res_l. cbn [mg_cells]. rewrite (im_items _ _ Him), Hrun. ostep.
  cbn [mx_cnt]. rewrite (arr_get_eq _ _ _ Hn). ostep. rewrite (arr_set_eq _ _ _ _ Hn). ostep. destruct is_end.
  - unfold drc_process_mgrt_part_end, extra. cbn [mg_cells mg_src mx_info mx_tasks].
    assert (Hsz : cells_size (mcells (K := drid_t) ms) = sizeof_lock_res_msg * Z.of_nat (length ms)) by exact (mcells_size (P := lock_inv) ms).
    set (nb' := Z.of_nat (length allb)). set (nl' := Z.of_nat (length alll)). set (off := sizeof_res_master_msg + mt_size * Z.of_nat (length ms)).
    assert (Hr1 : read_cell as_cnt (mcells ms ++ [CellCnt nb'; CellCnt nl']) off = Done nb')
      by (apply (read_cell_spec as_cnt (mcells ms) (CellCnt nb') [CellCnt nl']); [by rewrite Hsz | done]).
    assert (Hr2 : read_cell as_cnt (mcells ms ++ [CellCnt nb'; CellCnt nl']) (off + sizeof_uint32) = Done nl').
    { change [CellCnt nb'; CellCnt nl'] with ([CellCnt nb'] ++ [CellCnt nl']). rewrite (assoc_L (++)).
      apply (read_cell_spec as_cnt (mcells ms ++ [CellCnt nb']) (CellCnt nl') []); [| done]. rewrite cells_size_app, Hsz. symmetry. apply Z.add_assoc. }
    rewrite Hr1. ostep. rewrite Hr2. ostep.
    destruct (lookupZ_is_Some (mx_info c) (task_part task)) as [pi Hpi]; [by rewrite (im_info _ _ Him) |].
    rewrite (arr_set_eq _ _ _ _ Hpi). ostep. ostep. eexists. split; [reflexivity |]. rewrite orb_true_r. cbn [mx_buf mx_lock]. split; [| done].
    pose proof Him as []. constructor; cbn [mx_buf mx_lock mx_items mx_cnt mx_info mx_tasks]; rewrite ?length_insertZ; try done.
    + intros _. apply lookupZ_insertZ_eq. by eapply lookupZ_lt.
    + rewrite im_tasks0. set (t := if ended then _ else task). assert (Hpt : task_part t = task_part task) by (by unfold t; destruct ended).
      assert (Het : export_inst t = exp) by (by unfold t; destruct ended). assert (Hit : import_inst t = self) by (by unfold t; destruct ended).
      rewrite <- Hpt, <- Het. apply update_task_spec; [by rewrite Hpt | done].
  - ostep. eexists. split; [reflexivity |]. rewrite orb_false_r.
    cbn [mx_buf mx_lock]. split; [| done]. destruct Him. constructor; cbn [mx_buf mx_lock mx_items mx_cnt mx_info mx_tasks]; rewrite ?length_insertZ; done.
Qed.

(** *** Any messages, in any order *)

(** The messages [msgs] are handled one after the other. *)
Fixpoint deliver (msgs : list drc_res_master_msg) c : outcome mgrt_ctx :=
  match msgs with
  | [] => Done c
  | m :: msgs => c ← drc_process_mgrt_data self rst rc ver true m c; deliver msgs c
  end.

Lemma page_in_block b ms : CellBuf b ∈ mg_cells (page_block exp task ver ms) <-> b ∈ ms.
Proof using Type.
  unfold page_block, blk_msg, drc_init_res_master_msg. cbn [mg_cells]. rewrite app_nil_r. unfold mcells. cbn. split.
  - intros (x & E & Hx)%list_elem_of_fmap_1. by injection E as ->.
  - apply (list_elem_of_fmap_2 CellBuf).
Qed.

Lemma lock_in_block l ms is_end : CellLock l ∈ mg_cells (lock_block exp task ver allb alll ms is_end) <-> l ∈ ms.
Proof using Type.
  unfold lock_block, blk_msg, drc_init_res_master_msg. cbn [mg_cells]. unfold mcells. rewrite elem_of_app. cbn. split.
  - intros [(x & E & Hx)%list_elem_of_fmap_1 | Hx]; [by injection E as -> |]. destruct is_end; [by apply elem_of_cons in Hx as [? | ?%list_elem_of_singleton] | by apply not_elem_of_nil in Hx].
  - intros Hx. left. by apply (list_elem_of_fmap_2 CellLock).
Qed.

Lemma block_cells_apart ms lms is_end b l :
  CellLock l ∉ mg_cells (page_block exp task ver ms) /\ CellBuf b ∉ mg_cells (lock_block exp task ver allb alll lms is_end).
Proof using Type.
  unfold page_block, lock_block, blk_msg, drc_init_res_master_msg, mcells. cbn [mg_cells]. rewrite !elem_of_app. split.
  - intros [(x & E & _)%list_elem_of_fmap_1 | Hx%not_elem_of_nil]; done.
  - intros [(x & E & _)%list_elem_of_fmap_1 | Hx]; [done |]. destruct is_end; [by apply elem_of_cons in Hx as [? | ?%list_elem_of_singleton] | by apply not_elem_of_nil in Hx].
Qed.

Lemma deliver_spec msgs ended c :
  importing ended c -> Forall (sent_msg exp task ver allb alll) msgs ->
  exists c', deliver msgs c = Done c' /\ importing (ended || existsb mg_is_part_end msgs) c' /\
    (forall b, b ∈ allb -> has_page c b \/ (exists m, m ∈ msgs /\ CellBuf b ∈ mg_cells m) -> has_page c' b) /\
    (forall l, l ∈ alll -> has_lock c l \/ (exists m, m ∈ msgs /\ CellLock l ∈ mg_cells m) -> has_lock c' l).
Proof.
  intros Him Hall. revert ended c Him. induction Hall as [| m msgs Hm _ IH]; intros ended c Him.
  - exists c. cbn. rewrite orb_false_r. split; [done |]. split; [done |]. split; intros x _ [Hx | (m & Hm & _)]; try done; by apply not_elem_of_nil in Hm.
  - cbn [deliver existsb]. destruct Hm as [ms -> Hsub Hne Hfit | ms is_end -> Hsub Hfit].
    + destruct (process_pages ended c ms Him Hsub Hne Hfit) as (c1 & -> & Him1 & Hnew & Hkeep & Hlk). ostep.
      destruct (IH ended c1 Him1) as (c' & -> & Him' & Hp & Hk). exists c'. split; [done |]. split; [exact Him' |]. split.
      * intros b Hbin [Hx | (m & [-> | Hm]%elem_of_cons & Hcell)]; apply Hp; try done; [left; by apply Hkeep | left; apply Hnew; by apply page_in_block in Hcell | right; eauto].
      * intros l Hlin [Hx | (m & [-> | Hm]%elem_of_cons & Hcell)]; apply Hk; try done; [left; by rewrite Hlk | by apply (block_cells_apart ms [] false (mk_bmsg 0 0 0 0 0 (mk_page_id 0 0) 0 0 0) l) in Hcell | right; eauto].
    + destruct (process_locks ended c ms is_end Him Hsub Hfit) as (c1 & -> & Him1 & Hnew & Hkeep & Hbf). ostep.
      destruct (IH _ c1 Him1) as (c' & -> & Him' & Hp & Hk). exists c'. split; [done |]. split; [by rewrite orb_assoc |]. split.
      * intros b Hbin [Hx | (m & [-> | Hm]%elem_of_cons & Hcell)]; apply Hp; try done; [left; by rewrite Hbf | by apply (block_cells_apart [] ms is_end b (mk_lmsg (mk_drid 0 0 0 0) 0 0 0)) in Hcell | right; eauto].
      * intros l Hlin [Hx | (m & [-> | Hm]%elem_of_cons & Hcell)]; apply Hk; try done; [left; by apply Hkeep | left; apply Hnew; by apply lock_in_block in Hcell | right; eauto].
Qed.

(** *** Knowing when everything is there *)

Definition completed c (i : Z) : Prop := exists t, (mx_tasks c).[i] = Some t /\ task_status t = PART_MIGRATE_COMPLETE.

Lemma turn_spec ended c :
  importing ended c ->
  exists c2, remaster_part_turn self (Z.of_nat (length pre)) c = Done c2 /\ mx_buf c2 = mx_buf c /\ mx_lock c2 = mx_lock c /\ mx_items c2 = mx_items c /\
    (completed c2 (Z.of_nat (length pre)) <-> ended = true /\ (forall b, b ∈ allb -> has_page c b) /\ (forall l, l ∈ alll -> has_lock c l)).
Proof.
  intros Him. pose proof Hready as []. unfold remaster_part_turn. rewrite (im_tasks _ _ Him). rewrite (arr_get_eq _ _ _ (lookupZ_middle pre post _)). ostep.
  assert (Hsame : forall t, (mx_tasks c).[Z.of_nat (length pre)] = Some t -> task_status t <> PART_MIGRATE_COMPLETE).
  { intros t. rewrite (im_tasks _ _ Him), lookupZ_middle. intros [= <-]. destruct ended; [done |]. by rewrite ir_wait0. }
  destruct ended.
  - cbn [import_inst export_inst task_part task_status]. rewrite Z.eqb_refl, (proj2 (Z.eqb_neq exp self) ir_ne0). cbn [negb andb]. rewrite Z.eqb_refl. cbn [negb].
    rewrite (arr_get_eq _ _ _ (im_end _ _ Him eq_refl)). ostep.
    destruct (catalog_part _ _ _ _ (dl_ok _ _ _ _ _ (im_buf _ _ Him)) ir_part0) as [bl Hbl].
    destruct (catalog_part _ _ _ _ (dl_ok _ _ _ _ _ (im_lock _ _ Him)) ir_part0) as [ll Hll].
    rewrite (arr_get_eq _ _ _ Hbl). ostep. rewrite (arr_get_eq _ _ _ Hll). ostep. cbn [pi_buf_cnt pi_lock_cnt pi_src_inst].
    pose proof (delivered_count buf_inv buf_inv_strip (mx_items c0) (mx_buf c0) (task_part task) allb Hb Hbnd Hbp ir_nobuf0 (mx_buf c) bl (im_buf _ _ Him) Hbl) as Hcb.
    pose proof (delivered_count lock_inv lock_inv_strip (mx_items c0) (mx_lock c0) (task_part task) alll Hl Hlnd Hlp ir_nolock0 (mx_lock c) ll (im_lock _ _ Him) Hll) as Hcl.
    destruct (Z.eqb_spec (Z.of_nat (length allb)) (count bl)) as [E1 | E1]; [destruct (Z.eqb_spec (Z.of_nat (length alll)) (count ll)) as [E2 | E2] |]; cbn [negb orb].
    + eexists. split; [reflexivity |]. split; [done |]. split; [done |]. split; [done |]. split.
      * intros _. split; [done |]. split; [by apply Hcb | by apply Hcl].
      * intros _. exists (mk_task exp self (task_part task) PART_MIGRATE_COMPLETE). split; [| done]. cbn [mx_tasks].
        pose proof (update_task_spec self PART_MIGRATE_COMPLETE pre (mk_task exp self (task_part task) PART_MIGRATING) post ir_pre0 eq_refl) as Hup.
        cbn [task_part export_inst] in Hup. rewrite Hup. apply lookupZ_middle.
    + exists c. split; [done |]. split; [done |]. split; [done |]. split; [done |]. split; [intros (t & Ht & Hs); by destruct (Hsame t Ht) |].
      intros (_ & _ & Ha). by destruct E2; symmetry; apply Hcl.
    + exists c. split; [done |]. split; [done |]. split; [done |]. split; [done |]. split; [intros (t & Ht & Hs); by destruct (Hsame t Ht) |].
      intros (_ & Ha & _). by destruct E1; symmetry; apply Hcb.
  - exists c. split; [by rewrite ir_wait0; destruct (negb _) |]. split; [done |]. split; [done |]. split; [done |].
    split; [intros (t & Ht & Hs); by destruct (Hsame t Ht) | by intros [? _]].
Qed.
End import.

(** ** Theorems *)

(** The exporter can move the partition of the task. *)
Record exportable pool g gl task : Prop := mk_exportable {
  xp_part : 0 <= task_part task < DRC_MAX_PART_NUM;
  xp_wait : task_status task = PART_WAIT_MIGRATE;
  xp_buf : catalog_ok (K := page_id_t) buf_inv pool g;
  xp_lock : catalog_ok (K := drid_t) lock_inv pool gl;
  xp_idle : part_idle (K := page_id_t) pool g (task_part task);
  xp_idlel : part_idle (K := drid_t) pool gl (task_part task);
}.

(** What a master knows of a page and of a lock, field by field.  The action
    that is pending on a page is not part of it: the importer starts with none. *)
Record same_page (b b' : drc_buf_res) : Prop := mk_same_page {
  sp_id : br_page_id b' = br_page_id b;
  sp_owner : br_claimed_owner b' = br_claimed_owner b;
  sp_mode : br_mode b' = br_mode b;
  sp_copies : br_readonly_copies b' = br_readonly_copies b;
  sp_edp_map : br_edp_map b' = br_edp_map b;
  sp_latest_edp : br_latest_edp b' = br_latest_edp b;
  sp_latest_edp_lsn : br_latest_edp_lsn b' = br_latest_edp_lsn b;
  sp_lsn : br_lsn b' = br_lsn b;
}.

Record same_lock (a a' : drc_master_res) : Prop := mk_same_lock {
  sk_id : mr_res_id a' = mr_res_id a;
  sk_mode : mr_mode a' = mr_mode a;
  sk_granted : mr_granted_map a' = mr_granted_map a;
}.

(** The importer has what the exporter has, and nobody converts it or waits for it. *)
Definition page_moved (v v' : option (drc_buf_res * list drc_req_info)) : Prop :=
  match v, v' with
  | Some (b, _), Some (b', rs) => same_page b b' /\ req_inst_id (req_info (br_converting b')) = CT_INVALID_ID8 /\ rs = []
  | None, None => True
  | _, _ => False
  end.

Definition lock_moved (v v' : option (drc_master_res * list drc_req_info)) : Prop :=
  match v, v' with
  | Some (a, _), Some (a', rs) => same_lock a a' /\ req_inst_id (req_info (mr_converting a')) = CT_INVALID_ID8 /\ rs = []
  | None, None => True
  | _, _ => False
  end.

Lemma page_msg_same b b' : buf_res_msg b' 0 = buf_res_msg b 0 <-> same_page b b'.
Proof. split; [intros [=]; by constructor |]. intros []. unfold buf_res_msg. congruence. Qed.

Lemma lock_msg_same a a' : lock_res_msg a' 0 = lock_res_msg a 0 <-> same_lock a a'.
Proof. split; [intros [=]; by constructor |]. intros []. unfold lock_res_msg. congruence. Qed.

Lemma page_arrived v v' : arrived (M := drc_buf_res_msg) v v' <-> page_moved v v'.
Proof. destruct v as [[b rs] |], v' as [[b' rs'] |]; [| done..]. cbn. by rewrite page_msg_same. Qed.

Lemma lock_arrived v v' : arrived (M := drc_lock_res_msg) v v' <-> lock_moved v v'.
Proof. destruct v as [[a rs] |], v' as [[a' rs'] |]; [| done..]. cbn. by rewrite lock_msg_same. Qed.

(** The importer has the partition as the exporter has it. *)
Definition same_partition pool g gl (h : Z) c : Prop :=
  (forall k : page_id_t, part_hash k = h -> page_moved (res_view pool g k) (res_view (mx_items c) (mx_buf c) k)) /\
  (forall k : drid_t, part_hash k = h -> lock_moved (res_view pool gl k) (res_view (mx_items c) (mx_lock c) k)).

(** Each of its pages and locks is there as the exporter has it, or not yet. *)
Definition partial_partition pool g gl (h : Z) c : Prop :=
  (forall k : page_id_t, part_hash k = h -> let v := res_view (mx_items c) (mx_buf c) k in v = None \/ page_moved (res_view pool g k) v) /\
  (forall k : drid_t, part_hash k = h -> let v := res_view (mx_items c) (mx_lock c) k in v = None \/ lock_moved (res_view pool gl k) v).

(** Nothing but partition [h] differs. *)
Definition same_outside (h : Z) c0 c : Prop :=
  (forall k : page_id_t, part_hash k <> h -> res_view (mx_items c) (mx_buf c) k = res_view (mx_items c0) (mx_buf c0) k) /\
  (forall k : drid_t, part_hash k <> h -> res_view (mx_items c) (mx_lock c) k = res_view (mx_items c0) (mx_lock c0) k).

Definition catalogs_ok c : Prop :=
  catalog_ok (K := page_id_t) buf_inv (mx_items c) (mx_buf c) /\ catalog_ok (K := drid_t) lock_inv (mx_items c) (mx_lock c).

(** Everything about the move of one partition, for any messages that arrive. *)
Lemma migration_steps exp self task ver net others others' turns pool g gl c0 pre post rst rc :
  exportable pool g gl task -> net_up net (import_inst task) ->
  import_ready exp self task (part_count g (task_part task)) (part_count gl (task_part task)) c0 pre post rst rc ->
  exists sent, drc_migrate_master_blk exp task ver true true (S turns) net others others' g gl pool = Done (CT_SUCCESS, sent, g, gl, pool) /\
    (exists m, m ∈ sent /\ mg_is_part_end m = true) /\
    forall msgs, msgs ⊆ sent ->
    exists c c2, deliver self ver rst rc msgs c0 = Done c /\ catalogs_ok c /\ same_outside (task_part task) c0 c /\
      partial_partition pool g gl (task_part task) c /\
      (sent ⊆ msgs -> same_partition pool g gl (task_part task) c) /\
      remaster_part_turn self (Z.of_nat (length pre)) c = Done c2 /\ mx_buf c2 = mx_buf c /\ mx_lock c2 = mx_lock c /\
      (completed c2 (Z.of_nat (length pre)) <-> (exists m, m ∈ msgs /\ mg_is_part_end m = true) /\ same_partition pool g gl (task_part task) c).
Proof.
  intros [] Hnet Hr. destruct (migrate_sends exp task ver net others others' turns pool g gl Hnet xp_part0 xp_wait0 xp_buf0 xp_idle0 xp_lock0 xp_idlel0)
    as (allb & alll & sent & Hrun & Hpb & Hpl & Hsent & Hnb & Hnl).
  exists sent. split; [done |]. split; [destruct (sl_end _ _ _ _ _ _ Hsent) as [ms Hms]; by exists (lock_block exp task ver allb alll ms true) |].
  intros msgs Hsub. pose proof Hr as [].
  assert (Hbp : forall b, b ∈ allb -> part_hash (A := drc_buf_res) (bm_page_id b) = task_part task) by (intros b Hb; by apply (pg_view _ _ _ _ _ Hpb b)).
  assert (Hlp : forall l, l ∈ alll -> part_hash (A := drc_master_res) (lm_res_id l) = task_part task) by (intros l Hl; by apply (pg_view _ _ _ _ _ Hpl l)).
  pose proof (importing_init exp self task allb alll _ _ c0 pre post rst rc Hr Hbp Hlp) as Him0.
  assert (Hall : Forall (sent_msg exp task ver allb alll) msgs).
  { pose proof (sl_msgs _ _ _ _ _ _ Hsent) as Hs. rewrite Forall_forall in Hs |- *. auto. }
  pose proof (deliver_spec exp self task ver allb alll _ _ c0 pre post rst rc Hr Hnb Hnl (pg_good _ _ _ _ _ Hpb) (pg_nodup _ _ _ _ _ Hpb)
    (pg_good _ _ _ _ _ Hpl) (pg_nodup _ _ _ _ _ Hpl) msgs false c0 Him0 Hall) as (c & Hdel & Him & Hpages & Hlocks).
  pose proof (turn_spec exp self task allb alll _ _ c0 pre post rst rc Hr (pg_good _ _ _ _ _ Hpb) (pg_nodup _ _ _ _ _ Hpb) Hbp
    (pg_good _ _ _ _ _ Hpl) (pg_nodup _ _ _ _ _ Hpl) Hlp _ c Him) as (c2 & Hturn & Hb2 & Hl2 & _ & Hcomp).
  destruct (delivered_views buf_inv buf_inv_strip _ _ _ pool g (task_part task) allb Hpb (im_buf _ _ _ _ _ _ _ _ _ _ Him) ir_nobuf0) as (Hvb & Hab & Hob).
  destruct (delivered_views lock_inv lock_inv_strip _ _ _ pool gl (task_part task) alll Hpl (im_lock _ _ _ _ _ _ _ _ _ _ Him) ir_nolock0) as (Hvl & Hal & Hol).
  pose proof (im_items _ _ _ _ _ _ _ _ _ _ Him) as Hit.
  assert (Hsame : same_partition pool g gl (task_part task) c <->
    (forall b, b ∈ allb -> holds (K := page_id_t) (mx_items c0) (mx_buf c) (bm_page_id b) b) /\
    (forall l, l ∈ alll -> holds (K := drid_t) (mx_items c0) (mx_lock c) (lm_res_id l) l)).
  { unfold same_partition. rewrite Hit, Hab, Hal. by setoid_rewrite page_arrived; setoid_rewrite lock_arrived. }
  exists c, c2. split; [done |]. split; [| split; [| split; [| split; [| split; [done | split; [done | split; [done |]]]]]]].
  - unfold catalogs_ok. rewrite Hit. split; [by apply (im_buf _ _ _ _ _ _ _ _ _ _ Him) | by apply (im_lock _ _ _ _ _ _ _ _ _ _ Him)].
  - unfold same_outside. by rewrite Hit.
  - unfold partial_partition. rewrite Hit. setoid_rewrite page_arrived in Hvb. setoid_rewrite lock_arrived in Hvl. done.
  - intros Hfull. apply Hsame. split.
    + intros b Hb. apply Hpages; [done |]. right. destruct (sl_pages _ _ _ _ _ _ Hsent b Hb) as (ms & Hms & Hbm). exists (page_block exp task ver ms).
      split; [by apply Hfull | by apply page_in_block].
    + intros l Hl. apply Hlocks; [done |]. right. destruct (sl_locks _ _ _ _ _ _ Hsent l Hl) as (ms & is_end & Hms & Hlm).
      exists (lock_block exp task ver allb alll ms is_end). split; [by apply Hfull | by apply (proj2 (lock_in_block exp task ver allb alll l ms is_end))].
  - rewrite Hcomp, Hsame. cbn [orb]. rewrite existsb_exists. by setoid_rewrite <- list_elem_of_In.
Qed.

(** ** Freeing what was moved *)

Lemma part_quiet {A K M} `{HG : GlobalItem A K} `{HM : !MgrtRes A K M} (P : A -> list drc_req_info -> Prop)
    {HPs : forall a b rs, strip a = strip b -> P a rs -> P b rs} {Hlaws : @MgrtLaws A K M _ _ _ _ _ P} pool (g : drc_global_res A) h (k : K) a rs :
  catalog_ok (K := K) P pool g -> @part_idle A K M _ _ _ _ _ pool g h -> part_hash k = h -> res_view pool g k = Some (a, rs) -> rs = [].
Proof.
  intros (gh & Hwf & _) Hidle Hk Hv. pose proof (Hidle k a rs Hk Hv) as Hi. pose proof (gwf_view P Hwf k) as Hc. rewrite Hv in Hc.
  destruct Hc as (j & b & q & _ & Hj & Hb & Hq & _ & -> & ->). eapply (@ml_idle A K M _ _ _ _ _ P Hlaws (strip b)); [| exact Hi].
  eapply HPs; [| exact (gw_inv _ _ _ _ Hwf j b q Hj Hb Hq)]. symmetry. unfold strip at 2. by rewrite strip_set_node, strip_set_next.
Qed.

(** Exactly the resources of the partitions [parts] are gone. *)
Definition freed {A K} `{GlobalItem A K} (pool : lock_pool) (parts : list Z) (g g' : drc_global_res A) : Prop :=
  forall k : K, res_view pool g' k = if decide (part_hash k ∈ parts) then None else res_view pool g k.

Lemma freed_nil {A K} `{GlobalItem A K} pool (g : drc_global_res A) : freed (K := K) pool [] g g.
Proof. intros k. by rewrite decide_False by apply not_elem_of_nil. Qed.

Lemma freed_app {A K} `{GlobalItem A K} pool p1 p2 (g1 g2 g3 : drc_global_res A) :
  freed (K := K) pool p1 g1 g2 -> freed (K := K) pool p2 g2 g3 -> freed (K := K) pool (p1 ++ p2) g1 g3.
Proof.
  intros H1' H2' k. rewrite H2', H1'. destruct (decide (part_hash k ∈ p2)) as [E2 | E2], (decide (part_hash k ∈ p1)) as [E1 | E1];
    (destruct (decide (part_hash k ∈ p1 ++ p2)) as [E | E]; rewrite elem_of_app in E); tauto || done.
Qed.

(** The partitions that the tasks move away from this instance. *)
Definition freed_parts (self : Z) (tasks : list drc_remaster_task) : list Z := List.map task_part (filter (fun t => export_inst t = self) tasks).

(** The catalogs of the exporter: every partition to be freed is idle. *)
Record freeable pool (parts : list Z) g gl : Prop := mk_freeable {
  fb_buf : catalog_ok (K := page_id_t) buf_inv pool g;
  fb_lock : catalog_ok (K := drid_t) lock_inv pool gl;
  fb_range : forall h, h ∈ parts -> 0 <= h < DRC_MAX_PART_NUM;
  fb_idle : forall h, h ∈ parts -> part_idle (K := page_id_t) pool g h;
  fb_idlel : forall h, h ∈ parts -> part_idle (K := drid_t) pool gl h;
}.

Lemma free_one pool parts h g gl :
  freeable pool parts g gl -> h ∈ parts ->
  exists g' gl', drc_free_buf_res_by_part true h g = Done g' /\ drc_free_lock_res_by_part true h gl = Done gl' /\
    freed (K := page_id_t) pool [h] g g' /\ freed (K := drid_t) pool [h] gl gl' /\ freeable pool parts g' gl'.
Proof.
  intros [Hb Hl Hr Hi Hil] Hh. destruct (catalog_part _ _ _ _ Hb (Hr h Hh)) as [l Hll]. destruct (catalog_part _ _ _ _ Hl (Hr h Hh)) as [l' Hll'].
  destruct (free_part_spec buf_inv buf_inv_strip pool g h l true Hb Hll) as (g' & Hrun & Hok & Hnone & Hkeep); [| done |].
  { intros k a rs. apply (part_quiet (HPs := buf_inv_strip) buf_inv pool g h k a rs Hb (Hi h Hh)). }
  destruct (free_part_spec lock_inv lock_inv_strip pool gl h l' true Hl Hll') as (gl' & Hrunl & Hokl & Hnonel & Hkeepl); [| done |].
  { intros k a rs. apply (part_quiet (HPs := lock_inv_strip) lock_inv pool gl h k a rs Hl (Hil h Hh)). }
  assert (Hf : freed (K := page_id_t) pool [h] g g') by (intros k; destruct (decide _) as [E%list_elem_of_singleton | E]; [by apply Hnone | apply Hkeep; by rewrite list_elem_of_singleton in E]).
  assert (Hfl : freed (K := drid_t) pool [h] gl gl') by (intros k; destruct (decide _) as [E%list_elem_of_singleton | E]; [by apply Hnonel | apply Hkeepl; by rewrite list_elem_of_singleton in E]).
  exists g', gl'. split; [exact Hrun |]. split; [exact Hrunl |]. split; [done |]. split; [done |]. constructor; try done.
  - intros h' Hh' k a rs Hk Hv. rewrite Hf in Hv. destruct (decide _) in Hv; [done |]. by apply (Hi h' Hh' k a rs).
  - intros h' Hh' k a rs Hk Hv. rewrite Hfl in Hv. destruct (decide _) in Hv; [done |]. by apply (Hil h' Hh' k a rs).
Qed.

Lemma freed_parts_app self l1 l2 : freed_parts self (l1 ++ l2) = freed_parts self l1 ++ freed_parts self l2.
Proof. unfold freed_parts. by rewrite filter_app, List.map_app. Qed.

Lemma free_proc_spec pool self tasks parts n : forall i g gl,
  0 <= i -> i + Z.of_nat n <= Z.of_nat (length tasks) -> freeable pool parts g gl -> freed_parts self (slice i (i + Z.of_nat n) tasks) ⊆ parts ->
  exists g' gl', drc_free_migrated_res_proc self true n i tasks g gl = Done (g', gl') /\ freeable pool parts g' gl' /\
    freed (K := page_id_t) pool (freed_parts self (slice i (i + Z.of_nat n) tasks)) g g' /\
    freed (K := drid_t) pool (freed_parts self (slice i (i + Z.of_nat n) tasks)) gl gl'.
Proof.
  induction n as [| n IH]; intros i g gl Hi Hlen Hf Hsub.
  - exists g, gl. split; [done |]. split; [done |]. unfold slice. replace (Z.to_nat (i + Z.of_nat 0 - i)) with 0%nat by lia. split; apply freed_nil.
  - destruct (lookup_lt_is_Some_2 tasks (Z.to_nat i)) as [t Ht]; [lia |]. assert (Hti : tasks.[i] = Some t) by (by apply lookupZ_Some).
    rewrite (slice_cons i n tasks t Hi Hti) in *. cbn [drc_free_migrated_res_proc]. rewrite (arr_get_eq _ _ _ Hti). ostep.
    destruct (Z.eqb_spec (export_inst t) self) as [E | E]; cbn [negb].
    + assert (Hc : freed_parts self (t :: slice (i + 1) (i + 1 + Z.of_nat n) tasks) = [task_part t] ++ freed_parts self (slice (i + 1) (i + 1 + Z.of_nat n) tasks))
        by (unfold freed_parts; by rewrite filter_cons_True).
      rewrite Hc in *. destruct (free_one pool parts (task_part t) g gl Hf) as (g1 & gl1 & -> & -> & Hb & Hl & Hf1); [apply Hsub; set_solver |]. ostep. ostep.
      destruct (IH (i + 1) g1 gl1) as (g' & gl' & -> & Hf' & Hb' & Hl'); [lia | lia | done | set_solver |].
      exists g', gl'. split; [done |]. split; [done |]. split; eapply freed_app; eauto.
    + unfold freed_parts in *. rewrite filter_cons_False in * by done. apply IH; [lia | lia | done | done].
Qed.

(** The threads that are still to run cover the tasks from the first of them on. *)
Lemma free_threads_spec pool self tasks parts k : forall i g gl,
  0 <= i -> i + Z.of_nat k = DRC_FREE_MIG_RES_MAX_THREAD_NUM -> freeable pool parts g gl -> freed_parts self tasks ⊆ parts ->
  let n := Z.of_nat (length tasks) in
  let start := if (k =? 0)%nat then n else i * (n / DRC_FREE_MIG_RES_MAX_THREAD_NUM) in
  exists g' gl', free_threads self n true (replicate k true) i tasks g gl = Done (CT_SUCCESS, g', gl') /\ freeable pool parts g' gl' /\
    freed (K := page_id_t) pool (freed_parts self (slice start n tasks)) g g' /\ freed (K := drid_t) pool (freed_parts self (slice start n tasks)) gl gl'.
Proof.
  induction k as [| k IH]; intros i g gl Hi Hik Hf Hsub n start; change DRC_FREE_MIG_RES_MAX_THREAD_NUM with 8 in *.
  - exists g, gl. split; [done |]. split; [done |]. subst start. cbn [Nat.eqb]. unfold slice. rewrite Z.sub_diag. split; apply freed_nil.
  - assert (Hq : 0 <= n / 8) by (apply Z.div_pos; lia). pose proof (Z.div_mod n 8) as Hdm. pose proof (Z.mod_pos_bound n 8) as Hm.
    set (cnt := snd (free_thread_range n i)).
    set (nexts := if (k =? 0)%nat then n else (i + 1) * (n / 8)).
    assert (Hcnt : 0 <= cnt /\ i * (n / 8) + cnt = nexts /\ nexts <= n).
    { subst cnt nexts. unfold free_thread_range, DRC_FREE_MIG_RES_MAX_THREAD_NUM. cbn [snd].
      destruct k; cbn [Nat.eqb]; (destruct (Z.eqb_spec i (8 - 1)); [try lia |]; try lia). }
    destruct Hcnt as (Hc0 & Hc1 & Hc2).
    assert (Hsl : forall a b, freed_parts self (slice a b tasks) ⊆ parts).
    { intros a b x Hx. apply Hsub. revert Hx. unfold freed_parts, slice. rewrite !list_elem_of_In, !in_map_iff. intros (t & Ht & Hin).
      exists t. split; [done |]. rewrite <- list_elem_of_In, list_elem_of_filter in *. destruct Hin as [Hs Hin]. split; [done |].
      eapply subseteq_drop, subseteq_take, Hin. }
    destruct (free_proc_spec pool self tasks parts (Z.to_nat cnt) (i * (n / 8)) g gl) as (g1 & gl1 & Hr1 & Hf1 & Hb1 & Hl1); [nia | lia | done | done |].
    rewrite Z2Nat.id, Hc1 in Hb1, Hl1 by done.
    destruct (IH (i + 1) g1 gl1) as (g' & gl' & Hr & Hf' & Hb & Hl); [lia | lia | done | done |]. fold n in Hr, Hb, Hl.
    exists g', gl'. cbn [replicate free_threads]. fold cnt. change (free_thread_range n i) with (i * (n / 8), cnt). cbv beta iota. rewrite Hr1. ostep. rewrite Hr.
    split; [done |]. split; [done |]. subst start. cbn [Nat.eqb].
    assert (Hsplit : freed_parts self (slice (i * (n / 8)) n tasks) = freed_parts self (slice (i * (n / 8)) nexts tasks) ++ freed_parts self (slice nexts n tasks)).
    { rewrite <- freed_parts_app, slice_app; [done | nia | done]. }
    rewrite Hsplit. split; eapply freed_app; eauto.
Qed.

(** A partition with one resource, which is not being converted. *)
Lemma single_idle {A K M} `{HG : GlobalItem A K} `{HM : !MgrtRes A K M} (P : A -> list drc_req_info -> Prop) {Hlaws : @MgrtLaws A K M _ _ _ _ _ P}
    pool (g : drc_global_res A) h l :
  catalog_ok (K := K) P pool g -> (res_parts g).[h] = Some l -> count l = 1 -> (exists b, (g_items g).[first l] = Some b /\ @idle A K M _ b) ->
  @part_idle A K M _ _ _ _ _ pool g h.
Proof.
  intros (gh & Hwf & _) Hl Hc (b & Hb & Hi) k a rs Hk Hv. destruct (gwf_part_keys P gh pool g h l Hwf Hl) as (ids & _ & [Hseg Hcnt] & Hsub & _ & _ & Hks).
  assert (Hin : k ∈ keys_of (g_items g) ids) by (apply Hks; rewrite Hv; by split). apply elem_of_reskeys in Hin as (i & b' & Hin & Hb' & Hkb).
  destruct ids as [| i0 [| ? ?]]; [set_solver | | cbn in Hcnt; lia]. apply list_elem_of_singleton in Hin as ->. destruct Hseg as (Hf & _).
  rewrite Hf, Hb' in Hb. injection Hb as ->. destruct (gwf_ql P Hwf i0 b Hb') as [q Hq].
  pose proof (gwf_view_Some P Hwf i0 b q (Hsub i0 ltac:(set_solver)) Hb' Hq) as Hw. rewrite Hkb, Hv in Hw. injection Hw as -> _. by apply (idle_strip P).
Qed.

(** Nothing of partition [h] is left in the catalogs of the exporter, the rest is as it was. *)
Definition part_gone pool (h : Z) g gl g' gl' : Prop :=
  freed (K := page_id_t) pool [h] g g' /\ freed (K := drid_t) pool [h] gl gl' /\
  catalog_ok (K := page_id_t) buf_inv pool g' /\ catalog_ok (K := drid_t) lock_inv pool gl'.

(** C13: the exporter sends messages for a partition in which no request is
    being converted; whichever of them arrive, in whatever order and however
    often, the importer, which has none of the partition and room for it,
    enters them without error, its catalogs stay well formed, everything
    outside of the partition stays as it was, each page and each lock of the
    partition is absent or as the exporter has it (a page: owner, mode, copies,
    early dirty pages and lsn; a lock: mode and owners; nobody converting or
    waiting), and the next turn of the importer's loop completes the task
    exactly when the message with the counts has arrived and the whole partition
    is there.  The pending action of a page is not carried over. *)
Theorem migration_any_order exp self task ver net others others' turns pool g gl c0 pre post rst rc :
  exportable pool g gl task -> net_up net (import_inst task) ->
  import_ready exp self task (part_count g (task_part task)) (part_count gl (task_part task)) c0 pre post rst rc ->
  exists sent, drc_migrate_master_blk exp task ver true true (S turns) net others others' g gl pool = Done (CT_SUCCESS, sent, g, gl, pool) /\
    forall msgs, msgs ⊆ sent ->
    exists c c2, deliver self ver rst rc msgs c0 = Done c /\ catalogs_ok c /\ same_outside (task_part task) c0 c /\
      partial_partition pool g gl (task_part task) c /\
      remaster_part_turn self (Z.of_nat (length pre)) c = Done c2 /\
      (completed c2 (Z.of_nat (length pre)) <-> (exists m, m ∈ msgs /\ mg_is_part_end m = true) /\ same_partition pool g gl (task_part task) c).
Proof.
  intros Hx Hnet Hr. destruct (migration_steps exp self task ver net others others' turns pool g gl c0 pre post rst rc Hx Hnet Hr) as (sent & Hrun & _ & Hall).
  exists sent. split; [done |]. intros msgs Hsub. destruct (Hall msgs Hsub) as (c & c2 & Hdel & Hok & Hout & Hpart & _ & Hturn & _ & _ & Hc).
  exists c, c2. done.
Qed.

(** C12: moving a partition in which no request is being converted to an importer
    that has none of it and room for it: what the exporter sends, entered by the
    importer, gives the importer every page of the partition with the owner, mode,
    copies, early dirty pages and lsn that the exporter had, every lock with its
    mode and owners, and nothing else of the partition; the next turn of its
    loop completes the task; and the exporter then frees the partition, which
    leaves none of its pages and locks and everything else in place.  The
    pending action of a page is not carried over. *)
Theorem partition_migrates exp self task ver net others others' turns pool g gl c0 pre post rst rc :
  exportable pool g gl task -> net_up net (import_inst task) ->
  import_ready exp self task (part_count g (task_part task)) (part_count gl (task_part task)) c0 pre post rst rc ->
  exists sent c c2 g' gl', drc_migrate_master_blk exp task ver true true (S turns) net others others' g gl pool = Done (CT_SUCCESS, sent, g, gl, pool) /\
    deliver self ver rst rc sent c0 = Done c /\ catalogs_ok c /\ same_outside (task_part task) c0 c /\ same_partition pool g gl (task_part task) c /\
    remaster_part_turn self (Z.of_nat (length pre)) c = Done c2 /\ completed c2 (Z.of_nat (length pre)) /\ mx_buf c2 = mx_buf c /\ mx_lock c2 = mx_lock c /\
    drc_free_buf_res_by_part true (task_part task) g = Done g' /\ drc_free_lock_res_by_part true (task_part task) gl = Done gl' /\
    part_gone pool (task_part task) g gl g' gl'.
Proof.
  intros Hx Hnet Hr. destruct (migration_steps exp self task ver net others others' turns pool g gl c0 pre post rst rc Hx Hnet Hr) as (sent & Hrun & Hend & Hall).
  destruct (Hall sent) as (c & c2 & Hdel & Hok & Hout & _ & Hsame & Hturn & Hb2 & Hl2 & Hc); [done |]. specialize (Hsame ltac:(done)).
  pose proof Hx as []. destruct (free_one pool [task_part task] (task_part task) g gl) as (g' & gl' & Hfb & Hfl & Hb & Hl & []).
  { constructor; try done; by intros h ->%list_elem_of_singleton. } { by apply list_elem_of_singleton. }
  exists sent, c, c2, g', gl'. split_and!; try done. by apply Hc.
Qed.

(** C28: at the end of a reform, with all threads created, the exporter frees
    the pages and locks of exactly the partitions that its tasks moved away,
    however the tasks are divided among the eight threads; everything else
    stays, and the catalogs stay well formed. *)
Theorem free_migrated_res_correct pool self tasks g gl :
  freeable pool (freed_parts self tasks) g gl ->
  exists g' gl', drc_free_migrated_res self (Z.of_nat (length tasks)) true (replicate 8 true) tasks g gl = Done (CT_SUCCESS, g', gl') /\
    freed (K := page_id_t) pool (freed_parts self tasks) g g' /\ freed (K := drid_t) pool (freed_parts self tasks) gl gl' /\
    catalog_ok (K := page_id_t) buf_inv pool g' /\ catalog_ok (K := drid_t) lock_inv pool gl'.
Proof.
  intros Hf. destruct (free_threads_spec pool self tasks (freed_parts self tasks) 8 0 g gl) as (g' & gl' & Hrun & [] & Hb & Hl); try done.
  pose proof (slice_all tasks) as Hs.
  cbn [Nat.eqb] in Hb, Hl. rewrite Z.mul_0_l, Hs in Hb, Hl. by exists g', gl'.
Qed.
End migration.
