(* ===== verification/MgrtDemo.v ===== *)
(** * A partition moves between two small catalogs

    Instance 0 is the master of partition 0, with a page that instance 1 owns
    and a lock that instance 1 holds; instance 1 takes the partition over.  The
    properties of migration are applied to this move.
    Source: src/pkg/src/cluster/dtc_drc.c. *)

From stdpp Require Import prelude list.
From S2P Require Import Prelude Bitmap ResPool DrcList ResMap ConvertQ GlobalRes DrcTypes DrcPage PageInv PageProps PageThms DrcLock LockProps LockThms DrcPart DrcMgrt MgrtProps MgrtThms.

Open Scope Z_scope.
Open Scope drc_scope.

Module MgrtDemo.
Import Demo.

Definition result {A} (d : A) (o : outcome A) : A := match o with Done a => a | Crash _ => d end.

(** ** The exporter *)

Definition lkid : drid_t := mk_drid 65538 1081 0 0.
Definition ask (inst mode : Z) (c : lock_ctx) : lock_ctx :=
  snd (result (None, c) (drc_request_lock_owner LockDemo.env [] lkid (LockDemo.req inst mode 100) LockDemo.ans0 1 c)).
Definition take_it (inst mode : Z) (c : lock_ctx) : lock_ctx :=
  snd (result (CT_ERROR, c) (drc_claim_lock_owner LockDemo.env lkid (mk_lclaim inst mode inst) 1 false c)).

(** Instance 1 asks for the lock and takes it. *)
Definition e1 : lock_ctx := ask 1 DRC_LOCK_EXCLUSIVE LockDemo.lc0.
Definition e2 : lock_ctx := take_it 1 DRC_LOCK_EXCLUSIVE e1.

Lemma ask_ok inst mode c : lock_ok LockDemo.alone [] [] c -> inst_ok inst -> mode_ok mode -> ~ lock_pool_full c -> lock_ok LockDemo.alone [] [] (ask inst mode c).
Proof.
  intros Hok Hi Hm Hf. unfold ask.
  destruct (request_lock_ok LockDemo.alone LockDemo.env [] lkid (LockDemo.req inst mode 100) LockDemo.ans0 1 [] [] c Hok (LockDemo.req_ok inst mode 100 Hi Hm)) as (out & c' & Hrun & Hok');
    [constructor | exact (fun _ => Hf) |]. rewrite Hrun. exact Hok'.
Qed.

Lemma take_ok inst mode c : lock_ok LockDemo.alone [] [] c -> 0 <= inst -> lock_ok LockDemo.alone [] [] (take_it inst mode c).
Proof.
  intros Hok Hi. unfold take_it. destruct (drc_claim_lock_owner LockDemo.env lkid (mk_lclaim inst mode inst) 1 false c) as [[st c'] |] eqn:E; [| exact Hok].
  exact (claim_lock_ok LockDemo.alone LockDemo.env lkid (mk_lclaim inst mode inst) 1 false st [] [] c c' Hok Hi E).
Qed.

Lemma e1_ok : lock_ok LockDemo.alone [] [] e1.
Proof. apply ask_ok; [apply LockDemo.lc0_ok | apply LockDemo.lk_inst_1 | apply LockDemo.mode_x | vm_compute; discriminate]. Qed.
Lemma e2_ok : lock_ok LockDemo.alone [] [] e2.
Proof. apply take_ok; [apply e1_ok | lia]. Qed.

Lemma page_catalog_ok c : page_ok 2 alone [] [] c -> catalog_ok (K := page_id_t) buf_inv (pc_pool c) (pc_res c).
Proof.
  intros (gh & [Hwf (others & lothers & Hh & _ & -> & _) _]). exists gh. split; [exact Hwf |]. apply Permutation_nil. symmetry. exact Hh.
Qed.

Lemma lock_catalog_ok c : lock_ok LockDemo.alone [] [] c -> catalog_ok (K := drid_t) lock_inv (lc_pool c) (lc_res c).
Proof.
  intros (gh & [Hwf (others & lothers & Hh & _ & -> & _)]). exists gh. split; [exact Hwf |]. apply Permutation_nil. symmetry. exact Hh.
Qed.

Definition items : lock_pool := pc_pool c1.
Definition pages : buf_catalog := pc_res c1.
Definition locks : lock_catalog := lc_res e2.

Lemma pages_ok : catalog_ok (K := page_id_t) buf_inv items pages.
Proof. exact (page_catalog_ok c1 c1_ok). Qed.

Lemma same_items : lc_pool e2 = items.
Proof. vm_compute. reflexivity. Qed.

Lemma locks_ok : catalog_ok (K := drid_t) lock_inv items locks.
Proof. rewrite <- same_items. exact (lock_catalog_ok e2 e2_ok). Qed.

(** Both resources are in partition 0, and nothing is being converted. *)
Lemma hashes : part_hash (A := drc_buf_res) pg = 0 /\ part_hash (A := drc_master_res) lkid = 0.
Proof. split; vm_compute; reflexivity. Qed.

Lemma pages_idle : part_idle (K := page_id_t) items pages 0.
Proof.
  apply (single_idle buf_inv items pages 0 (mk_list 0 0 1)); [exact pages_ok | vm_compute; reflexivity | reflexivity |].
  eexists. split; vm_compute; reflexivity.
Qed.

Lemma locks_idle : part_idle (K := drid_t) items locks 0.
Proof.
  apply (single_idle lock_inv items locks 0 (mk_list 0 0 1)); [exact locks_ok | vm_compute; reflexivity | reflexivity |].
  eexists. split; vm_compute; reflexivity.
Qed.

Definition move : drc_remaster_task := mk_task 0 1 0 PART_WAIT_MIGRATE.

Lemma part_0 : 0 <= 0 < DRC_MAX_PART_NUM.
Proof. unfold DRC_MAX_PART_NUM. lia. Qed.

Lemma move_exportable : exportable items pages locks move.
Proof. constructor; [exact part_0 | reflexivity | exact pages_ok | exact locks_ok | exact pages_idle | exact locks_idle]. Qed.

(** The first attempt to send fails, the second succeeds. *)
Definition net (n k : nat) : send_attempt := mk_attempt (1 <=? k)%nat 3.

Lemma net_works : net_up net 1.
Proof.
  split; [unfold CT_MAX_INSTANCES; lia |]. intros n. exists 1%nat. split; [unfold REMASTER_SEND_MSG_RETRY_TIMES; lia |]. split; [reflexivity |].
  intros j _. split; [vm_compute; split; congruence |]. cbn [sa_view net]. vm_compute. set_solver.
Qed.

(** ** The importer *)

Definition imp_pool : lock_pool := snd (result (CT_ERROR, raw_pool) (drc_res_pool_init raw_pool 56 3 true)).
Definition imp_pages : buf_catalog := snd (result (CT_ERROR, raw_catalog) (drc_global_res_init raw_catalog 600 112 true true)).
Definition imp_locks : lock_catalog := snd (result (CT_ERROR, LockDemo.raw_catalog) (drc_global_res_init LockDemo.raw_catalog 900 96 true true)).

Lemma imp_pages_ok : catalog_ok (K := page_id_t) buf_inv imp_pool imp_pages /\ room imp_pages = 600 /\ forall k : page_id_t, res_view imp_pool imp_pages k = None.
Proof.
  destruct (gwf_init (K := page_id_t) buf_inv buf_inv_strip raw_catalog raw_pool 112 56 600 3) as (g & p & Hg & Hp & Hwf & Hv);
    try reflexivity; try (unfold block_header_size, CT_INVALID_ID32; lia).
  unfold imp_pages, imp_pool. rewrite Hg, Hp. cbn [result snd]. split; [eexists; split; [exact Hwf | reflexivity] |]. split; [| exact Hv].
  rewrite (gwf_room buf_inv _ _ _ Hwf). cbn [gg_free]. rewrite length_seqZ. reflexivity.
Qed.

Lemma imp_locks_ok : catalog_ok (K := drid_t) lock_inv imp_pool imp_locks /\ room imp_locks = 900 /\ forall k : drid_t, res_view imp_pool imp_locks k = None.
Proof.
  destruct (gwf_init (K := drid_t) lock_inv lock_inv_strip LockDemo.raw_catalog raw_pool 96 56 900 3) as (g & p & Hg & Hp & Hwf & Hv);
    try reflexivity; try (unfold block_header_size, CT_INVALID_ID32; lia).
  unfold imp_locks, imp_pool. rewrite Hg, Hp. cbn [result snd]. split; [eexists; split; [exact Hwf | reflexivity] |]. split; [| exact Hv].
  rewrite (gwf_room lock_inv _ _ _ Hwf). cbn [gg_free]. rewrite length_seqZ. reflexivity.
Qed.

Definition mc0 : mgrt_ctx :=
  mk_mctx imp_pages imp_locks imp_pool (replicate (Z.to_nat DRC_MAX_PART_NUM) (mk_rcnt 0 0)) (replicate (Z.to_nat DRC_MAX_PART_NUM) (mk_pinfo 0 0 0)) [move].

Lemma counts : part_count pages 0 = 1 /\ part_count locks 0 = 1.
Proof. split; vm_compute; reflexivity. Qed.

Lemma move_ready : import_ready 0 1 move (part_count pages 0) (part_count locks 0) mc0 [] [] REMASTER_MIGRATE REFORM_FROZEN.
Proof.
  destruct imp_pages_ok as (Hb & Hbr & Hbv), imp_locks_ok as (Hl & Hlr & Hlv). rewrite (proj1 counts), (proj2 counts).
  refine (mk_ready 0 1 move 1 1 mc0 [] [] REMASTER_MIGRATE REFORM_FROZEN _ _ part_0 eq_refl eq_refl eq_refl _ eq_refl (Forall_nil_2 _) Hb Hl (fun k _ => Hbv k) (fun k _ => Hlv k) _ _ _ _).
  - discriminate.
  - vm_compute. split; [discriminate | reflexivity].
  - discriminate.
  - cbn [mx_buf mc0]. rewrite Hbr. vm_compute. discriminate.
  - cbn [mx_lock mc0]. rewrite Hlr. vm_compute. discriminate.
  - cbn [mx_cnt mc0]. rewrite length_replicate. reflexivity.
  - cbn [mx_info mc0]. rewrite length_replicate. reflexivity.
Qed.

(** ** The move *)

(** While the exporter sleeps nothing happens; it does not sleep here. *)
Definition still (A : Type) : sleepers A := fun _ g pool => (g, pool).

Lemma migration_any_order_witness :
  exists sent, drc_migrate_master_blk 0 move 1 true true 1 net (still _) (still _) pages locks items = Done (CT_SUCCESS, sent, pages, locks, items) /\
    forall msgs, msgs ⊆ sent -> exists c, deliver 1 1 REMASTER_MIGRATE REFORM_FROZEN msgs mc0 = Done c.
Proof.
  destruct (migration_any_order 0 1 move 1 net (still _) (still _) 0 items pages locks mc0 [] [] REMASTER_MIGRATE REFORM_FROZEN move_exportable net_works move_ready) as (sent & Hrun & Hall).
  exists sent. split; [exact Hrun |]. intros msgs Hsub. destruct (Hall msgs Hsub) as (c & c2 & Hdel & _). exists c. exact Hdel.
Defined.

Lemma partition_migrates_witness :
  exists sent c c2, drc_migrate_master_blk 0 move 1 true true 1 net (still _) (still _) pages locks items = Done (CT_SUCCESS, sent, pages, locks, items) /\
    deliver 1 1 REMASTER_MIGRATE REFORM_FROZEN sent mc0 = Done c /\ page_moved (res_view items pages pg) (res_view (mx_items c) (mx_buf c) pg) /\
    lock_moved (res_view items locks lkid) (res_view (mx_items c) (mx_lock c) lkid) /\ remaster_part_turn 1 0 c = Done c2 /\ completed c2 0.
Proof.
  destruct (partition_migrates 0 1 move 1 net (still _) (still _) 0 items pages locks mc0 [] [] REMASTER_MIGRATE REFORM_FROZEN move_exportable net_works move_ready)
    as (sent & c & c2 & _ & _ & Hrun & Hdel & _ & _ & [Hsb Hsl] & Hturn & Hc & _).
  exists sent, c, c2. split; [exact Hrun |]. split; [exact Hdel |]. split; [exact (Hsb pg (proj1 hashes)) |]. split; [exact (Hsl lkid (proj2 hashes)) |].
  split; [exact Hturn | exact Hc].
Defined.

(** The page and the lock that move: instance 1 owns the page and has the lock exclusively. *)
Example moved_page : (fun v => (br_claimed_owner v.1, br_mode v.1)) <$> res_view items pages pg = Some (1, DRC_LOCK_EXCLUSIVE).
Proof. vm_compute. reflexivity. Qed.
Example moved_lock : (fun v => (mr_granted_map v.1, mr_mode v.1)) <$> res_view items locks lkid = Some (2, DRC_LOCK_EXCLUSIVE).
Proof. vm_compute. reflexivity. Qed.

(** The tasks of the exporter: partition 0 leaves, partition 1 comes. *)
Definition tasks : list drc_remaster_task := [mk_task 1 0 1 PART_WAIT_MIGRATE; move].

Lemma free_migrated_res_correct_witness :
  exists g' gl', drc_free_migrated_res 0 2 true (replicate 8 true) tasks pages locks = Done (CT_SUCCESS, g', gl') /\
    res_view items g' pg = None /\ res_view items gl' lkid = None.
Proof.
  assert (Hp : freed_parts 0 tasks = [0]) by reflexivity.
  destruct (free_migrated_res_correct items 0 tasks pages locks) as (g' & gl' & Hrun & Hb & Hl & _).
  - rewrite Hp. constructor; [exact pages_ok | exact locks_ok | | |]; intros h Hh; apply list_elem_of_singleton in Hh; subst h;
      [exact part_0 | exact pages_idle | exact locks_idle].
  - rewrite Hp in Hb, Hl. exists g', gl'. split; [exact Hrun |]. split.
    + rewrite Hb. apply decide_True. rewrite (proj1 hashes). apply list_elem_of_singleton. reflexivity.
    + rewrite Hl. apply decide_True. rewrite (proj2 hashes). apply list_elem_of_singleton. reflexivity.
Defined.
End MgrtDemo.
