(* ===== verification/DrcRcy.v ===== *)
(** * Recovery of the catalog (dtc_drc.c)

    When an instance fails, the partitions it was the master of have no
    resources any more.  Every instance that stays goes through the controls of
    its buffer and through its local locks, and reports what it has of these
    partitions to their new masters, which rebuild the resources.

    A report of pages or locks goes out in batches, one buffer per new master;
    what belongs to a partition of the reporting instance itself is entered
    directly.  [old_master] and [new_master] are the partition table and the
    target table, [send_ok] tells for each message whether it could be sent, and
    [failed] whether another thread had set REMASTER_FAIL when a control was
    looked at.  The threads of a reporting instance have buffers of their own
    for pages and are run one after the other; for locks they share one buffer,
    and the operations on it are kept apart so that they can be interleaved.
    Statistics counters, log lines, trace records and CM_ASSERT, which does
    nothing in a release build, are left out.
    Source: src/pkg/src/cluster/dtc_drc.c, dtc_drc.h. *)

From stdpp Require Import prelude list.
From S2P Require Import Prelude Bitmap ResPool DrcList ResMap ConvertQ KeyStore GlobalRes DrcTypes DrcPage DrcLock DrcLocal BufCtrl DrcPart DrcMgrt.

Open Scope Z_scope.
Open Scope drc_scope.

(** ** Data *)

Record page_info := mk_pinf { pf_page_id : page_id_t; pf_lock_mode : Z; pf_is_edp : bool; pf_lsn : Z }.
Record drc_recovery_lock_res := mk_linf { lf_res_id : drid_t; lf_lock_mode : Z }.

Definition sizeof_page_info : Z := 24.
Definition sizeof_msg_page_info : Z := 56.
Definition sizeof_recovery_lock_res : Z := 28.
Definition sizeof_recovery_lock_res_msg : Z := 56.
Definition DRC_BATCH_BUF_SIZE : Z := 30000.
Definition DRC_PAGE_CACHE_INFO_BATCH_CNT : Z := DRC_BATCH_BUF_SIZE / sizeof_page_info.
Definition CT_MAX_SESSIONS : Z := 19380.

(** A message of either kind: [rm_infos] is what follows the header. *)
Record rcy_msg (A : Type) := mk_rmsg { rm_src : Z; rm_dst : Z; rm_size : Z; rm_count : Z; rm_buffer_len : Z; rm_infos : list A }.
Arguments mk_rmsg {_}. Arguments rm_src {_}. Arguments rm_dst {_}. Arguments rm_size {_}. Arguments rm_count {_}.
Arguments rm_buffer_len {_}. Arguments rm_infos {_}.

(** What recovery changes at an instance: the status of the remaster, the page
    catalog, and the numbers of reports sent and acknowledged. *)
Record rcy_ctx := mk_rcy { ry_status : drc_remaster_status; ry_buf : buf_catalog; ry_task_num : Z; ry_complete_num : Z }.

(** drc_update_remaster_local_status(REMASTER_FAIL) *)
Definition rcy_fail (c : rcy_ctx) : rcy_ctx := mk_rcy REMASTER_FAIL (ry_buf c) (ry_task_num c) (ry_complete_num c).
Definition rcy_set_buf (g : buf_catalog) (c : rcy_ctx) : rcy_ctx := mk_rcy (ry_status c) g (ry_task_num c) (ry_complete_num c).
Definition rcy_sent (c : rcy_ctx) : rcy_ctx := mk_rcy (ry_status c) (ry_buf c) (ry_task_num c + 1) (ry_complete_num c).

(** ** Entering a report of pages *)

(** The first part of an update: the earlier dirty page of the report. *)
Definition update_edp_info (b : drc_buf_res) (p : page_info) (inst_id : Z) : outcome drc_buf_res :=
  if pf_is_edp p then
    let b := if br_latest_edp_lsn b <? pf_lsn p then set_br_latest_edp_lsn (pf_lsn p) (set_br_latest_edp inst_id b) else b in
    edp_map ← drc_bitmap64_set (br_edp_map b) inst_id;
    Done (set_br_edp_map edp_map b)
  else Done b.

(** The resource of the page is there: the report is added to it.  A second
    exclusive owner is an error, which leaves the rest of the report in place. *)
Definition drc_update_page_info (b : drc_buf_res) (p : page_info) (inst_id : Z) : outcome drc_buf_res :=
  b ← update_edp_info b p inst_id;
  if pf_lock_mode p =? DRC_LOCK_NULL then Done b
  else
    let b := set_br_mode (pf_lock_mode p) b in
    if pf_lock_mode p =? DRC_LOCK_EXCLUSIVE then
      if negb (br_claimed_owner b =? CT_INVALID_ID8) then Done b else Done (set_br_claimed_owner inst_id b)
    else if pf_lock_mode p =? DRC_LOCK_SHARE then
      copies ← drc_bitmap64_set (br_readonly_copies b) inst_id;
      Done (set_br_readonly_copies copies b)
    else Done b.

(** The fields of a new resource before it is linked; [old] is the item. *)
Definition rcy_buf_res (p : page_info) (inst_id idx : Z) (old : drc_buf_res) : outcome drc_buf_res :=
  copies ← (if pf_lock_mode p =? DRC_LOCK_EXCLUSIVE then Done 0
            else if pf_lock_mode p =? DRC_LOCK_SHARE then drc_bitmap64_set 0 inst_id else Done 0);
  edp_map ← (if pf_is_edp p then drc_bitmap64_set 0 inst_id else Done 0);
  Done (mk_buf_res (br_next old) idx (if pf_lock_mode p =? DRC_LOCK_EXCLUSIVE then inst_id else CT_INVALID_ID8)
          (if pf_is_edp p then inst_id else CT_INVALID_ID8) DRC_RES_INVALID_ACTION (if pf_is_edp p then pf_lsn p else 0)
          (pf_lock_mode p) (pf_page_id p) (mk_lock_item CT_INVALID_ID32 g_invalid_req_info) DRC_LIST_INIT
          (br_part_id old) true edp_map (br_node old) 0 copies).

Section pages.
Context `{HA : KernelAttr}.

(** Whether item [item_idx] was used, and the catalog. *)
Definition drc_rcy_page_info (p : page_info) (inst_id item_idx : Z) (g : buf_catalog) : outcome (bool * buf_catalog) :=
  found ← gres_lookup g (pf_page_id p);
  match (found : option Z) with
  | Some i =>
      b ← gres_get g i;
      b ← drc_update_page_info b p inst_id;
      g ← gres_put g i b;
      Done (false, g)
  | None =>
      old ← gres_get g item_idx;
      b ← rcy_buf_res p inst_id item_idx old;
      g ← gres_put g item_idx b;
      g ← gres_map_add g (pf_page_id p) item_idx;
      b ← gres_get g item_idx;
      g ← gres_put g item_idx (set_part_and_node (pf_page_id p) item_idx b);
      g ← gres_part_add g item_idx;
      Done (true, g)
  end.

(** The loop over the report: [n] infos from number [i] on; [alloc_index] items are used. *)
Fixpoint rcy_page_loop (n : nat) (i : Z) (pinfos : list page_info) (inst_id : Z) (idx : list Z) (alloc_index : Z) (g : buf_catalog)
    : outcome (Z * buf_catalog) :=
  match n with
  | O => Done (alloc_index, g)
  | S n =>
      p ← arr_get pinfos i;
      item ← arr_get idx alloc_index;
      '(used, g) ← drc_rcy_page_info p inst_id item g;
      rcy_page_loop n (i + 1) pinfos inst_id idx (if (used : bool) then u32 (alloc_index + 1) else alloc_index) g
  end.

Definition drc_rcy_page_info_l (inst_id : Z) (pinfos : list page_info) (count : Z) (c : rcy_ctx) : outcome rcy_ctx :=
  '(status, idx, g) ← gres_alloc_batch (ry_buf c) count;
  match (status : status_t) with
  | CT_ERROR => Done (rcy_fail (rcy_set_buf g c))
  | CT_SUCCESS =>
      '(alloc_index, g) ← rcy_page_loop (Z.to_nat count) 0 pinfos inst_id idx 0 g;
      if alloc_index <? count then
        pool ← drc_res_pool_free_batch_item (res_pool (res_map g)) (drop (Z.to_nat alloc_index) idx);
        Done (rcy_set_buf (g_set_pool g pool) c)
      else Done (rcy_set_buf g c)
  end.

Definition dtc_check_send_page_info_msg (m : rcy_msg page_info) : status_t :=
  if rm_size m <? sizeof_msg_page_info then CT_ERROR
  else if negb (sizeof_msg_page_info + rm_count m * sizeof_page_info =? rm_size m) then CT_ERROR
  else CT_SUCCESS.

(** The handler of reports; [true] when the report is acknowledged. *)
Definition drc_process_send_page_info (cluster_nodes : Z) (rc : reform_status) (malloc_ok : bool) (m : rcy_msg page_info) (c : rcy_ctx)
    : outcome (bool * rcy_ctx) :=
  match dtc_check_send_page_info_msg m with
  | CT_ERROR => Done (false, c)
  | CT_SUCCESS =>
      if cluster_nodes <=? 2 then Done (false, c)
      else if bool_decide (ry_status c = REMASTER_DONE) || (reform_num rc <? reform_num REFORM_FROZEN) || (reform_num REFORM_RECOVER_DONE <=? reform_num rc) ||
         (DRC_PAGE_CACHE_INFO_BATCH_CNT <? rm_count m) || (cluster_nodes <=? rm_src m) || negb (rm_buffer_len m =? rm_count m * sizeof_page_info) ||
         negb (rm_size m =? sizeof_msg_page_info + sizeof_page_info * rm_count m)
      then Done (false, c)
      else if negb malloc_ok then Done (false, c)
      else c ← drc_rcy_page_info_l (rm_src m) (rm_infos m) (rm_count m) c; Done (true, c)
  end.
End pages.

(** An acknowledgement of a report has arrived. *)
Definition drc_process_remaster_recovery_task_ack (cluster_nodes : Z) (rc : reform_status) (c : rcy_ctx) : rcy_ctx :=
  if cluster_nodes <=? 2 then c
  else if bool_decide (ry_status c = REMASTER_DONE) || (reform_num rc <? reform_num REFORM_FROZEN) || (reform_num REFORM_RECOVER_DONE <=? reform_num rc) then c
  else mk_rcy (ry_status c) (ry_buf c) (ry_task_num c) (ry_complete_num c + 1).

(** ** Reporting pages *)

Definition drc_get_page_remaster_id `{KernelAttr} (new_master : Z -> Z) (pagid : page_id_t) : Z := new_master (drc_page_partid pagid).
Definition drc_get_lock_remaster_id (new_master : Z -> Z) (lock_id : drid_t) : Z := new_master (drc_lock_partid lock_id).

(** A thread that collects: the instance, a buffer of infos per master (its
    length is the count), the messages sent and the page requests under way. *)
Record collect := mk_collect {
  co_ctx : rcy_ctx; co_batch : list (list page_info); co_sent : list (rcy_msg page_info); co_reqs : list page_id_t;
}.

Definition drc_init_batch_buf : list (list page_info) := replicate (Z.to_nat CT_MAX_INSTANCES) [].

Section collecting.
Context `{HA : KernelAttr} (self_id : Z) (old_master new_master : Z -> Z) (send_ok : nat -> Z -> bool).

Definition page_info_msg (dst : Z) (buf : list page_info) : rcy_msg page_info :=
  let count := Z.of_nat (length buf) in
  mk_rmsg self_id dst (u16 (sizeof_msg_page_info + sizeof_page_info * count)) count (count * sizeof_page_info) buf.

(** Status, instance and messages sent. *)
Definition drc_send_page_info2master (new_master_id : Z) (buf : list page_info) (c : rcy_ctx) (sent : list (rcy_msg page_info))
    : outcome (status_t * rcy_ctx * list (rcy_msg page_info)) :=
  if self_id =? new_master_id then
    c ← drc_rcy_page_info_l self_id buf (Z.of_nat (length buf)) c;
    Done (CT_SUCCESS, c, sent)
  else if send_ok (length sent) new_master_id then Done (CT_SUCCESS, rcy_sent c, sent ++ [page_info_msg new_master_id buf])
  else Done (CT_ERROR, rcy_fail c, sent).

Definition ctrl_info (ctrl : buf_ctrl) : page_info :=
  mk_pinf (bc_page_id ctrl) (bc_lock_mode ctrl) (bc_is_edp ctrl) (ph_lsn (bc_page ctrl)).

Definition drc_cache_page_info (master_id : Z) (ctrl : buf_ctrl) (s : collect) : outcome collect :=
  buf ← arr_get (co_batch s) master_id;
  let buf := buf ++ [ctrl_info ctrl] in
  if Z.of_nat (length buf) =? DRC_PAGE_CACHE_INFO_BATCH_CNT then
    '(ret, c, sent) ← drc_send_page_info2master master_id buf (co_ctx s) (co_sent s);
    _ ← knl_panic (bool_decide ((ret : status_t) = CT_SUCCESS));
    batch ← arr_set (co_batch s) master_id [];
    Done (mk_collect c batch sent (co_reqs s))
  else
    batch ← arr_set (co_batch s) master_id buf;
    Done (mk_collect (co_ctx s) batch (co_sent s) (co_reqs s)).

(** The loop over the instances: [n] from [instid] on. *)
Fixpoint send_rest_loop (n : nat) (instid : Z) (s : collect) : outcome collect :=
  match n with
  | O => Done s
  | S n =>
      buf ← arr_get (co_batch s) instid;
      if Z.of_nat (length buf) =? 0 then send_rest_loop n (instid + 1) s
      else
        '(_, c, sent) ← drc_send_page_info2master instid buf (co_ctx s) (co_sent s);
        batch ← arr_set (co_batch s) instid [];
        send_rest_loop n (instid + 1) (mk_collect c batch sent (co_reqs s))
  end.

Definition drc_send_rest_page_info (s : collect) : outcome collect := send_rest_loop (Z.to_nat CT_MAX_INSTANCES) 0 s.

(** One control of the buffer. *)
Definition collect_ctrl (inst_id : Z) (ctrl : buf_ctrl) (s : collect) : outcome collect :=
  s ← (if decide (bc_transfer_status ctrl = BUF_TRANS_TRY_REMOTE) then
         if CT_MAX_SESSIONS <=? Z.of_nat (length (co_reqs s)) then Crash OutOfBounds
         else Done (mk_collect (co_ctx s) (co_batch s) (co_sent s) (co_reqs s ++ [bc_page_id ctrl]))
       else Done s);
  if (bc_lock_mode ctrl =? DRC_LOCK_NULL) && negb (bc_is_edp ctrl) then Done s
  else if negb (bool_decide (drc_get_page_master_id old_master (bc_page_id ctrl) = Some inst_id)) then Done s
  else drc_cache_page_info (drc_get_page_remaster_id new_master (bc_page_id ctrl)) ctrl s.

(** A buffer set up to its high water mark; a slot that is not in use has no
    control ([bucket_id == CT_INVALID_ID32]).  [false]: the remaster has failed. *)
Fixpoint collect_set (failed : Z -> bool) (inst_id i : Z) (slots : list (option buf_ctrl)) (s : collect) : outcome (bool * collect) :=
  match slots with
  | [] => Done (true, s)
  | slot :: slots =>
      if failed i || bool_decide (ry_status (co_ctx s) = REMASTER_FAIL) then Done (false, s)
      else
        s ← (match slot with None => Done s | Some ctrl => collect_ctrl inst_id ctrl s end);
        collect_set failed inst_id (i + 1) slots s
  end.

Fixpoint collect_sets (failed : Z -> Z -> bool) (inst_id : Z) (n : nat) (j : Z) (buf_set : list (list (option buf_ctrl))) (s : collect)
    : outcome (bool * collect) :=
  match n with
  | O => Done (true, s)
  | S n =>
      slots ← arr_get buf_set j;
      '(go_on, s) ← collect_set (failed j) inst_id 0 slots s;
      if negb (go_on : bool) then Done (false, s) else collect_sets failed inst_id n (j + 1) buf_set s
  end.

(** A thread: [count_per_thread] buffer sets from [start] on. *)
Definition drc_collect_page_info (failed : Z -> Z -> bool) (malloc_ok : bool) (inst_id start count_per_thread : Z) (buf_set : list (list (option buf_ctrl)))
    (s : collect) : outcome collect :=
  if negb malloc_ok then Done (mk_collect (rcy_fail (co_ctx s)) (co_batch s) (co_sent s) (co_reqs s))
  else
    '(go_on, s) ← collect_sets failed inst_id (Z.to_nat count_per_thread) start buf_set
                    (mk_collect (co_ctx s) drc_init_batch_buf (co_sent s) (co_reqs s));
    if negb (go_on : bool) then Done s else drc_send_rest_page_info s.

(** 32 on ARM. *)
Definition DRC_REMASTER_RCY_MAX_THREAD_NUM : Z := 16.

Definition rcy_thread_range (total i : Z) : Z * Z :=
  let count_per_thread := total / DRC_REMASTER_RCY_MAX_THREAD_NUM in
  (i * count_per_thread,
   if i =? DRC_REMASTER_RCY_MAX_THREAD_NUM - 1 then count_per_thread + total mod DRC_REMASTER_RCY_MAX_THREAD_NUM else count_per_thread).

Fixpoint collect_threads (failed : Z -> Z -> bool) (malloc_ok : bool) (inst_id : Z) (created : list bool) (i : Z) (buf_set : list (list (option buf_ctrl)))
    (s : collect) : outcome (status_t * collect) :=
  match created with
  | [] => Done (CT_SUCCESS, s)
  | false :: _ => Done (CT_ERROR, mk_collect (rcy_fail (co_ctx s)) (co_batch s) (co_sent s) (co_reqs s))
  | true :: created =>
      let '(start, cnt) := rcy_thread_range (Z.of_nat (length buf_set)) i in
      s ← drc_collect_page_info failed malloc_ok inst_id start cnt buf_set s;
      collect_threads failed malloc_ok inst_id created (i + 1) buf_set s
  end.

Definition drc_handle_buf_res_recovery (failed : Z -> Z -> bool) (malloc_ok : bool) (created : list bool) (inst_id : Z)
    (buf_set : list (list (option buf_ctrl))) (s : collect) : outcome (status_t * collect) :=
  collect_threads failed malloc_ok inst_id created 0 buf_set s.
End collecting.

(** ** Locks *)

(** What recovery of locks changes: the lock catalog, the status and the
    number of reports of the instance, the buffer all threads share, and the
    messages sent. *)
Record lock_rcy := mk_lrcy {
  lr_ctx : lock_ctx; lr_rcy : rcy_ctx;
  lr_batch : list (list drc_recovery_lock_res); lr_max_count : Z; lr_sent : list (rcy_msg drc_recovery_lock_res);
}.

Definition lr_set_ctx (c : lock_ctx) (s : lock_rcy) : lock_rcy :=
  mk_lrcy c (lr_rcy s) (lr_batch s) (lr_max_count s) (lr_sent s).
Definition lr_set_rcy (c : rcy_ctx) (s : lock_rcy) : lock_rcy :=
  mk_lrcy (lr_ctx s) c (lr_batch s) (lr_max_count s) (lr_sent s).
Definition lr_set_batch (b : list (list drc_recovery_lock_res)) (s : lock_rcy) : lock_rcy :=
  mk_lrcy (lr_ctx s) (lr_rcy s) b (lr_max_count s) (lr_sent s).

Definition drc_reset_lock_batch_buf (s : lock_rcy) : lock_rcy :=
  mk_lrcy (lr_ctx s) (lr_rcy s) (replicate (Z.to_nat CT_MAX_INSTANCES) []) (DRC_BATCH_BUF_SIZE / sizeof_recovery_lock_res) (lr_sent s).

(** The request that stands for the report: its fields that are set. *)
Definition rcy_lock_req (inst_id sid mode rsn now version lsn : Z) (r : drc_req_info) : drc_req_info :=
  mk_req inst_id mode DRC_LOCK_MODE_MAX (req_owner_result r) sid rsn now version lsn (release_timeout_ticks r).

(** Enter the request into resource [i] and let it be claimed. *)
Definition rcy_claim_lock (e : dtc_env) (lock_id : drid_t) (i inst_id sid mode rsn now : Z) (c : lock_ctx) : outcome lock_ctx :=
  a ← gres_get (lc_res c) i;
  g ← gres_put (lc_res c) i (set_lock_conv (rcy_lock_req inst_id sid mode rsn now (trigger_version e) CT_INVALID_ID64 (lock_conv a)) a);
  '(_, c) ← drc_claim_lock_owner e lock_id (mk_lclaim inst_id mode sid) (trigger_version e) true (lc_set_res c g);
  Done c.

(** A lock in a report of instance [inst_id]. *)
Definition drc_rcy_lock_res_info (e : dtc_env) (l : drc_recovery_lock_res) (inst_id : Z) (c : lock_ctx) : outcome (status_t * lock_ctx) :=
  found ← gres_lookup (lc_res c) (lf_res_id l);
  match (found : option Z) with
  | None =>
      '(ret, g) ← drc_create_lock_res (lf_res_id l) (lc_res c);
      match (ret : status_t) with
      | CT_ERROR => Done (CT_ERROR, lc_set_res c g)
      | CT_SUCCESS =>
          found ← gres_lookup g (lf_res_id l);
          match (found : option Z) with
          | None => Done (CT_ERROR, lc_set_res c g)
          | Some i => c ← rcy_claim_lock e (lf_res_id l) i inst_id CT_INVALID_ID16 (lf_lock_mode l) 0 0 (lc_set_res c g); Done (CT_SUCCESS, c)
          end
      end
  | Some i =>
      a ← gres_get (lc_res c) i;
      granted ← drc_bitmap64_exist (mr_granted_map a) inst_id;
      compatible ← mode_compatible (lf_lock_mode l) (mr_mode a);
      if (granted : bool) || negb (compatible : bool) then Done (CT_ERROR, c)
      else c ← rcy_claim_lock e (lf_res_id l) i inst_id CT_INVALID_ID16 (lf_lock_mode l) 0 0 c; Done (CT_SUCCESS, c)
  end.

Definition drc_check_recovery_lock_res_msg (m : rcy_msg drc_recovery_lock_res) : status_t :=
  if rm_size m <? sizeof_recovery_lock_res_msg then CT_ERROR
  else if negb (sizeof_recovery_lock_res_msg + rm_count m * sizeof_recovery_lock_res =? rm_size m) then CT_ERROR
  else CT_SUCCESS.

(** The status of each lock is not looked at. *)
Fixpoint rcy_lock_loop (e : dtc_env) (n : nat) (i : Z) (linfos : list drc_recovery_lock_res) (inst_id : Z) (c : lock_ctx) : outcome lock_ctx :=
  match n with
  | O => Done c
  | S n =>
      l ← arr_get linfos i;
      '(_, c) ← drc_rcy_lock_res_info e l inst_id c;
      rcy_lock_loop e n (i + 1) linfos inst_id c
  end.

(** The handler of reports of locks; [true] when the report is acknowledged. *)
Definition drc_process_recovery_lock_res (e : dtc_env) (cluster_nodes : Z) (m : rcy_msg drc_recovery_lock_res) (s : lock_rcy) : outcome (bool * lock_rcy) :=
  match drc_check_recovery_lock_res_msg m with
  | CT_ERROR => Done (false, s)
  | CT_SUCCESS =>
      if (lr_max_count s <? rm_count m) || (cluster_nodes <=? 2) then Done (false, s)
      else if negb (rm_buffer_len m =? rm_count m * sizeof_recovery_lock_res) ||
              negb (rm_size m =? sizeof_recovery_lock_res_msg + sizeof_recovery_lock_res * rm_count m) then Done (false, s)
      else c ← rcy_lock_loop e (Z.to_nat (rm_count m)) 0 (rm_infos m) (rm_src m) (lr_ctx s); Done (true, lr_set_ctx c s)
  end.

(** *** Reporting locks *)

Section lock_reports.
Context (e : dtc_env) (self_id : Z) (old_master new_master : Z -> Z) (send_ok : nat -> Z -> bool).
Context (sid rsn : Z).

Definition lock_info_msg (dst : Z) (buf : list drc_recovery_lock_res) : rcy_msg drc_recovery_lock_res :=
  let count := Z.of_nat (length buf) in
  mk_rmsg self_id dst (u16 (sizeof_recovery_lock_res_msg + sizeof_recovery_lock_res * count)) count (count * sizeof_recovery_lock_res) buf.

Definition drc_send_lock_info (dst : Z) (s : lock_rcy) : outcome (status_t * lock_rcy) :=
  buf ← arr_get (lr_batch s) dst;
  if negb (send_ok (length (lr_sent s)) dst) then Done (CT_ERROR, s)
  else Done (CT_SUCCESS, mk_lrcy (lr_ctx s) (rcy_sent (lr_rcy s)) (lr_batch s) (lr_max_count s) (lr_sent s ++ [lock_info_msg dst buf])).

(** The counts are not reset. *)
Fixpoint send_last_loop (n : nat) (i : Z) (s : lock_rcy) : outcome (status_t * lock_rcy) :=
  match n with
  | O => Done (CT_SUCCESS, s)
  | S n =>
      buf ← arr_get (lr_batch s) i;
      if Z.of_nat (length buf) =? 0 then send_last_loop n (i + 1) s
      else
        '(ret, s) ← drc_send_lock_info i s;
        match (ret : status_t) with CT_ERROR => Done (CT_ERROR, s) | CT_SUCCESS => send_last_loop n (i + 1) s end
  end.

Definition drc_send_last_lock_info (s : lock_rcy) : outcome (status_t * lock_rcy) := send_last_loop (Z.to_nat CT_MAX_INSTANCES) 0 s.

Definition drc_collect_and_send_lock_info (r : drc_local_lock_res) (dst : Z) (s : lock_rcy) : outcome (status_t * lock_rcy) :=
  let mode := lock_mode (latch_stat r) in
  let mode := if is_owner r && (mode =? DRC_LOCK_NULL) then DRC_LOCK_EXCLUSIVE else mode in
  if mode =? DRC_LOCK_NULL then Done (CT_SUCCESS, s)
  else
    buf ← arr_get (lr_batch s) dst;
    if DRC_BATCH_BUF_SIZE <? (Z.of_nat (length buf) + 1) * sizeof_recovery_lock_res then Crash OutOfBounds
    else
      let buf := buf ++ [mk_linf (ll_res_id r) mode] in
      batch ← arr_set (lr_batch s) dst buf;
      let s := lr_set_batch batch s in
      if lr_max_count s <=? Z.of_nat (length buf) then
        '(ret, s) ← drc_send_lock_info dst s;
        match (ret : status_t) with
        | CT_ERROR => Done (CT_ERROR, s)
        | CT_SUCCESS => batch ← arr_set (lr_batch s) dst []; Done (CT_SUCCESS, lr_set_batch batch s)
        end
      else Done (CT_SUCCESS, s).

(** A lock of a partition of this instance is entered directly: a resource is
    created, whether or not there is one. *)
Definition drc_recovery_lockinfo (r : drc_local_lock_res) (dst : Z) (s : lock_rcy) : outcome lock_rcy :=
  if self_id =? dst then
    let mode := lock_mode (latch_stat r) in
    if mode =? DRC_LOCK_NULL then Done s
    else
      '(_, g) ← drc_create_lock_res (ll_res_id r) (lc_res (lr_ctx s));
      found ← gres_lookup g (ll_res_id r);
      match (found : option Z) with
      | None => Crash NullPointer
      | Some i => c ← rcy_claim_lock e (ll_res_id r) i self_id sid mode rsn (dtc_now e) (lc_set_res (lr_ctx s) g); Done (lr_set_ctx c s)
      end
  else '(_, s) ← drc_collect_and_send_lock_info r dst s; Done s.

(** The locks of a bucket: [n] from item [idx] on. *)
Fixpoint rcy_bucket (abort_id : Z) (n : nat) (idx : Z) (m : local_map) (s : lock_rcy) : outcome lock_rcy :=
  match n with
  | O => Done s
  | S n =>
      r ← arr_get (map_items m) idx;
      s ← (if drc_get_lock_master_id old_master (ll_res_id r) =? abort_id
           then drc_recovery_lockinfo r (drc_get_lock_remaster_id new_master (ll_res_id r)) s else Done s);
      rcy_bucket abort_id n (ll_next r) m s
  end.

(** [n] buckets from [i] on; [false]: the remaster has failed. *)
Fixpoint rcy_buckets (failed : Z -> bool) (abort_id : Z) (n : nat) (i : Z) (m : local_map) (s : lock_rcy) : outcome (bool * lock_rcy) :=
  match n with
  | O => Done (true, s)
  | S n =>
      if failed i || bool_decide (ry_status (lr_rcy s) = REMASTER_FAIL) then Done (false, s)
      else
        b ← arr_get (buckets m) i;
        s ← rcy_bucket abort_id (Z.to_nat (bcount b)) (bfirst b) m s;
        rcy_buckets failed abort_id n (i + 1) m s
  end.

(** A thread: [count_per_thread] buckets from [start] on. *)
Definition drc_lock_res_recovery (failed : Z -> bool) (abort_id start count_per_thread : Z) (m : local_map) (s : lock_rcy) : outcome lock_rcy :=
  '(go_on, s) ← rcy_buckets failed abort_id (Z.to_nat count_per_thread) start m (drc_reset_lock_batch_buf s);
  if negb (go_on : bool) then Done s else '(_, s) ← drc_send_last_lock_info s; Done s.

Fixpoint lock_threads (failed : Z -> bool) (abort_id : Z) (created : list bool) (i : Z) (m : local_map) (s : lock_rcy) : outcome (status_t * lock_rcy) :=
  match created with
  | [] => Done (CT_SUCCESS, s)
  | false :: _ => Done (CT_ERROR, lr_set_rcy (rcy_fail (lr_rcy s)) s)
  | true :: created =>
      let '(start, cnt) := rcy_thread_range (bucket_num m) i in
      s ← drc_lock_res_recovery failed abort_id start cnt m s;
      lock_threads failed abort_id created (i + 1) m s
  end.

(** The threads one after the other; what happens when they do not run one
    after the other is stated with the theorems. *)
Definition drc_handle_lock_res_recovery (failed : Z -> bool) (created : list bool) (abort_id : Z) (m : local_map) (s : lock_rcy)
    : outcome (status_t * lock_rcy) :=
  lock_threads failed abort_id created 0 m s.
End lock_reports.

(** ** The recovery step of the remaster *)

Section step.
Context `{HA : KernelAttr} (e : dtc_env) (self_id : Z) (old_master new_master : Z -> Z) (send_ok : nat -> Z -> bool) (sid rsn : Z).
Context (locks_failed : Z -> bool) (failed : Z -> Z -> bool) (malloc_ok : bool) (created created' : list bool).
Context (buf_set : list (list (option buf_ctrl))) (locals : local_map).

(** The state of both kinds of reports. *)
Record remaster_rcy := mk_rr { rr_lock : lock_rcy; rr_page : collect }.

Definition co_set_ctx (c : rcy_ctx) (s : collect) : collect := mk_collect c (co_batch s) (co_sent s) (co_reqs s).

(** For every failed instance the locks, then the pages; [ret] is the status of the last pages. *)
Fixpoint remaster_recovery_loop (n : nat) (i : Z) (abort_list : list Z) (ret : status_t) (s : remaster_rcy) : outcome (status_t * remaster_rcy) :=
  match n with
  | O => Done (ret, s)
  | S n =>
      if decide (ry_status (lr_rcy (rr_lock s)) = REMASTER_FAIL) then Done (CT_ERROR, s)
      else
        abort_id ← arr_get abort_list i;
        '(st, l) ← drc_handle_lock_res_recovery e self_id old_master new_master send_ok sid rsn locks_failed created abort_id locals (rr_lock s);
        match (st : status_t) with
        | CT_ERROR => Done (CT_ERROR, mk_rr l (co_set_ctx (lr_rcy l) (rr_page s)))
        | CT_SUCCESS =>
            '(ret, p) ← drc_handle_buf_res_recovery self_id old_master new_master send_ok failed malloc_ok created' abort_id buf_set
                          (co_set_ctx (lr_rcy l) (rr_page s));
            remaster_recovery_loop n (i + 1) abort_list ret (mk_rr (lr_set_rcy (co_ctx p) l) p)
        end
  end.

Definition drc_remaster_recovery (rf : reform_info) (s : remaster_rcy) : outcome (status_t * remaster_rcy) :=
  remaster_recovery_loop (Z.to_nat (inst_id_count (rf_abort rf))) 0 (inst_id_list (rf_abort rf)) CT_SUCCESS s.
End step.

Definition drc_remaster_recovery_is_complete (c : rcy_ctx) : bool := ry_task_num c <=? ry_complete_num c.

(** The value of a release build; 10 minutes in a debug build. *)
Definition REMASTER_RECOVER_TIMEOUT : Z := 20 * 1000.

(** drc_update_remaster_local_status: a remaster that has failed stays failed. *)
Definition rcy_set_status (st : drc_remaster_status) (c : rcy_ctx) : rcy_ctx :=
  if decide (ry_status c = REMASTER_FAIL) then c else mk_rcy st (ry_buf c) (ry_task_num c) (ry_complete_num c).

(** [polls k] is the instance as the [k]-th turn of the wait finds it: other
    threads enter reports and count acknowledgements. *)
Fixpoint recover_wait_loop (fuel k : nat) (polls : nat -> rcy_ctx) (wait_time : Z) : outcome (status_t * rcy_ctx) :=
  match fuel with
  | O => Crash OutOfFuel
  | S fuel =>
      if drc_remaster_recovery_is_complete (polls k) then Done (CT_SUCCESS, polls k)
      else if (REMASTER_RECOVER_TIMEOUT <=? wait_time) || bool_decide (ry_status (polls k) = REMASTER_FAIL)
      then Done (CT_ERROR, rcy_fail (polls k))
      else recover_wait_loop fuel (S k) polls (u64 (wait_time + REMASTER_SLEEP_INTERVAL))
  end.

Definition drc_reset_remaster_recovery_task_num (c : rcy_ctx) : rcy_ctx := mk_rcy (ry_status c) (ry_buf c) 0 0.

(** [recover] is the run of [drc_remaster_recovery], [polls] what others make of
    its result while this thread waits, [ack_ok] whether the master of the
    reform could be told of success.  The result has the acknowledgements that
    [drc_remaster_task_ack] was called with. *)
Definition drc_remaster_step_recover (recover : rcy_ctx -> outcome (status_t * rcy_ctx)) (polls : rcy_ctx -> nat -> rcy_ctx) (ack_ok : bool) (c : rcy_ctx)
    : outcome (status_t * list status_t * rcy_ctx) :=
  '(ret, c) ← recover (drc_reset_remaster_recovery_task_num c);
  match (ret : status_t) with
  | CT_ERROR => Done (CT_ERROR, [], rcy_fail c)
  | CT_SUCCESS =>
      '(ret, c) ← recover_wait_loop (wait_turns REMASTER_RECOVER_TIMEOUT) 0 (polls c) 0;
      match (ret : status_t) with
      | CT_ERROR => Done (CT_ERROR, [CT_ERROR], c)
      | CT_SUCCESS =>
          if ack_ok then Done (CT_SUCCESS, [CT_SUCCESS], rcy_set_status REMASTER_PUBLISH c) else Done (CT_ERROR, [CT_SUCCESS], rcy_fail c)
      end
  end.
