(* ===== verification/RcyProps.v ===== *)
(** * The catalog rebuilt from reports: lemmas

    What a list of reports says about a page, and that the resource of the page
    says just that, in whatever order the reports arrive.
    Source: src/pkg/src/cluster/dtc_drc.c. *)

From stdpp Require Import prelude list gmap.
From S2P Require Import Prelude Bitmap ResPool DrcList ResMap ConvertQ GlobalRes DrcTypes DrcPage PageInv DrcPart DrcMgrt MgrtProps DrcRcy.

Open Scope Z_scope.
Open Scope drc_scope.

(** ** What reports say *)

(** A report: who sent it, and what it says. *)
Abbreviation report := (Z * page_info)%type.

Implicit Types (reps : list report) (k : page_id_t).

Definition says (Q : page_info -> Prop) reps k (i : Z) : Prop := exists p, (i, p) ∈ reps /\ pf_page_id p = k /\ Q p.

Definition has_x (p : page_info) : Prop := pf_lock_mode p = DRC_LOCK_EXCLUSIVE.
Definition has_s (p : page_info) : Prop := pf_lock_mode p = DRC_LOCK_SHARE.
Definition has_edp (p : page_info) : Prop := pf_is_edp p = true.

#[global] Instance has_x_dec p : Decision (has_x p).
Proof. unfold has_x. apply _. Defined.
#[global] Instance has_s_dec p : Decision (has_s p).
Proof. unfold has_s. apply _. Defined.
#[global] Instance has_edp_dec p : Decision (has_edp p).
Proof. unfold has_edp. apply _. Defined.

Definition reported reps k : Prop := exists i p, (i, p) ∈ reps /\ pf_page_id p = k.

(** The reports come from instances that have a page exclusively only alone,
    and are worth sending. *)
Record reports_ok reps : Prop := mk_reports_ok {
  ro_inst : forall i p, (i, p) ∈ reps -> inst_ok i;
  ro_mode : forall i p, (i, p) ∈ reps -> pf_lock_mode p = DRC_LOCK_NULL \/ has_s p \/ has_x p;
  ro_some : forall i p, (i, p) ∈ reps -> pf_lock_mode p = DRC_LOCK_NULL -> pf_is_edp p = true;
  ro_lsn : forall i p, (i, p) ∈ reps -> pf_is_edp p = true -> 0 < pf_lsn p;
  ro_excl : forall i p j q, (i, p) ∈ reps -> (j, q) ∈ reps -> pf_page_id p = pf_page_id q -> has_x p -> pf_lock_mode q <> DRC_LOCK_NULL -> i = j /\ has_x q;
}.

(** Resource [b] says about its page what the reports say. *)
Record tells reps k (b : drc_buf_res) : Prop := mk_tells {
  te_page : br_page_id b = k;
  te_owner : forall i, inst_ok i -> br_claimed_owner b = i <-> says has_x reps k i;
  te_none : br_claimed_owner b = CT_INVALID_ID8 \/ inst_ok (br_claimed_owner b);
  te_copies : bitmap_ok (br_readonly_copies b) /\ forall i, i ∈ inst_set (br_readonly_copies b) <-> says has_s reps k i;
  te_edps : bitmap_ok (br_edp_map b) /\ forall i, i ∈ inst_set (br_edp_map b) <-> says has_edp reps k i;
  te_latest : forall i p, (i, p) ∈ reps -> pf_page_id p = k -> has_edp p ->
                pf_lsn p <= br_latest_edp_lsn b /\ says (fun q => has_edp q /\ pf_lsn q = br_latest_edp_lsn b) reps k (br_latest_edp b);
  te_unwritten : (forall i, ~ says has_edp reps k i) -> br_latest_edp b = CT_INVALID_ID8 /\ br_latest_edp_lsn b = 0;
  te_mode : forall i p, (i, p) ∈ reps -> pf_page_id p = k -> pf_lock_mode p <> DRC_LOCK_NULL -> br_mode b = pf_lock_mode p;
  te_unlocked : (forall i p, (i, p) ∈ reps -> pf_page_id p = k -> pf_lock_mode p = DRC_LOCK_NULL) -> br_mode b = DRC_LOCK_NULL;
  te_idle : req_inst_id (converting_req b) = CT_INVALID_ID8 /\ count (br_convert_q b) = 0 /\ br_pending b = DRC_RES_INVALID_ACTION /\ br_is_used b = true;
}.

Lemma says_app Q reps k j i p : pf_page_id p = k -> says Q (reps ++ [(i, p)]) k j <-> says Q reps k j \/ j = i /\ Q p.
Proof.
  intros Hk. split.
  - intros (q & [Hq | [= -> ->]%list_elem_of_singleton]%elem_of_app & Hp & HQ); [left; by exists q | by right].
  - intros [(q & Hq & Hp & HQ) | [-> HQ]]; [exists q | exists p]; rewrite elem_of_app, list_elem_of_singleton; auto.
Qed.

Lemma tells_strip reps k b : tells reps k (strip b) <-> tells reps k b.
Proof. split; intros []; by constructor. Qed.

(** One report more. *)
Lemma tells_step reps k b i p b' :
  reports_ok (reps ++ [(i, p)]) -> pf_page_id p = k -> tells reps k b ->
  br_page_id b' = k ->
  br_claimed_owner b' = (if decide (has_x p) then i else br_claimed_owner b) ->
  bitmap_ok (br_readonly_copies b') -> inst_set (br_readonly_copies b') = (if decide (has_s p) then {[i]} else ∅) ∪ inst_set (br_readonly_copies b) ->
  bitmap_ok (br_edp_map b') -> inst_set (br_edp_map b') = (if decide (has_edp p) then {[i]} else ∅) ∪ inst_set (br_edp_map b) ->
  (br_latest_edp b', br_latest_edp_lsn b') =
    (if decide (has_edp p /\ br_latest_edp_lsn b < pf_lsn p) then (i, pf_lsn p) else (br_latest_edp b, br_latest_edp_lsn b)) ->
  br_mode b' = (if decide (pf_lock_mode p = DRC_LOCK_NULL) then br_mode b else pf_lock_mode p) ->
  req_inst_id (converting_req b') = CT_INVALID_ID8 /\ count (br_convert_q b') = 0 /\ br_pending b' = DRC_RES_INVALID_ACTION /\ br_is_used b' = true ->
  tells (reps ++ [(i, p)]) k b'.
Proof.
  intros Hro Hk [] Hpage Howner Hcok Hcopies Heok Hedp Hlatest Hmode Hidle.
  assert (Hin : (i, p) ∈ reps ++ [(i, p)]) by (apply elem_of_app; right; by apply list_elem_of_singleton).
  assert (Hold : forall j q, (j, q) ∈ reps -> (j, q) ∈ reps ++ [(i, p)]) by (intros; apply elem_of_app; by left).
  pose proof (ro_inst _ Hro i p Hin) as Hiok.
  assert (Hx : forall j q, (j, q) ∈ reps -> pf_page_id q = k -> has_x p -> pf_lock_mode q <> DRC_LOCK_NULL -> i = j /\ has_x q).
  { intros j q Hq Hqk Hxp Hn. apply (ro_excl _ Hro i p j q); auto. congruence. }
  constructor; try done.
  - intros j Hj. rewrite says_app by done. rewrite Howner. destruct (decide (has_x p)) as [Hxp | Hxp].
    + split; [by intros -> ; right |]. intros [(q & Hq & Hqk & Hxq) | [-> _]]; [| done]. destruct (Hx j q Hq Hqk Hxp); [by rewrite Hxq | done].
    + rewrite te_owner0 by done. tauto.
  - rewrite Howner. destruct (decide (has_x p)); [by right | done].
  - split; [done |]. intros j. rewrite says_app, Hcopies by done. destruct te_copies0 as [_ Hc]. rewrite elem_of_union, Hc.
    destruct (decide (has_s p)); set_solver.
  - split; [done |]. intros j. rewrite says_app, Hedp by done. destruct te_edps0 as [_ Hc]. rewrite elem_of_union, Hc.
    destruct (decide (has_edp p)); set_solver.
  - intros j q Hq Hqk He. destruct (decide (has_edp p /\ br_latest_edp_lsn b < pf_lsn p)) as [[Hep Hlt] | Hno].
    + injection Hlatest as -> ->. split.
      * apply elem_of_app in Hq as [Hq | [= -> ->]%list_elem_of_singleton]; [| done]. destruct (te_latest0 j q Hq Hqk He). lia.
      * apply says_app; [done |]. by right.
    + injection Hlatest as -> ->. assert (Hor : (j, q) ∈ reps \/ j = i /\ q = p) by (apply elem_of_app in Hq as [Hq | [= -> ->]%list_elem_of_singleton]; auto).
      destruct Hor as [Hq' | [-> ->]].
      * destruct (te_latest0 j q Hq' Hqk He) as [Hle Hs]. split; [done |]. apply says_app; [done | by left].
      * assert (Hle : pf_lsn p <= br_latest_edp_lsn b) by (destruct (decide (br_latest_edp_lsn b < pf_lsn p)); [by destruct Hno | lia]).
        split; [done |]. apply says_app; [done |]. left. pose proof (ro_lsn _ Hro i p Hin He).
        destruct (set_choose_or_empty (inst_set (br_edp_map b))) as [[j' Hj'] | Hemp].
        -- apply te_edps0 in Hj' as (q' & Hq' & Hk' & He'). by apply (te_latest0 j' q').
        -- destruct te_unwritten0 as [_ Hz]; [intros j' Hj'; apply te_edps0 in Hj'; set_solver | lia].
  - intros Hall. assert (Hne : ~ has_edp p) by (intros He; apply (Hall i), says_app; auto). rewrite decide_False in Hlatest by tauto.
    injection Hlatest as -> ->. apply te_unwritten0. intros j Hj. apply (Hall j), says_app; auto.
  - intros j q Hq Hqk Hn. rewrite Hmode. apply elem_of_app in Hq as [Hq | [= -> ->]%list_elem_of_singleton]; [| by rewrite decide_False].
    destruct (decide (pf_lock_mode p = DRC_LOCK_NULL)) as [E | E]; [by apply (te_mode0 j q) |].
    destruct (ro_mode _ Hro i p Hin) as [? | [Hs | Hxp]]; [done | | destruct (Hx j q Hq Hqk Hxp Hn) as [_ Hxq]; by rewrite Hxq].
    destruct (ro_mode _ Hro j q (Hold _ _ Hq)) as [? | [Hsq | Hxq]]; [done | by rewrite Hs, Hsq |].
    destruct (ro_excl _ Hro j q i p (Hold _ _ Hq) Hin) as [_ Hxp]; [congruence | done | done |]. by rewrite Hxp, Hxq.
  - intros Hall. rewrite Hmode, decide_True by (by apply (Hall i p)). apply te_unlocked0. intros j q Hq. apply (Hall j). auto.
Qed.

(** A resource that tells what reports say is a good one. *)
Lemma tells_inv reps k b : reports_ok reps -> tells reps k b -> buf_inv b [].
Proof.
  intros Hro []. destruct te_idle0 as (Hconv & _ & Hpend & Hused). destruct te_copies0 as [Hcok Hc], te_edps0 as [Heok He].
  assert (Hset : forall bm, bitmap_ok bm -> bm <> 0 -> exists i, i ∈ inst_set bm).
  { intros bm Hok Hne. destruct (set_choose_or_empty (inst_set bm)) as [|E]; [done |]. destruct Hne. apply inst_set_empty; [done |]. by apply leibniz_equiv. }
  constructor; try done; try (by left).
  - intros Hne. destruct (Hset _ Hcok Hne) as [i (p & Hp & Hk & Hs)%Hc]. rewrite (te_mode0 i p Hp Hk); [done |]. by rewrite Hs.
  - right. by rewrite Hpend.
  - intros Ho Hz Hne. destruct (Hset _ Heok Hne) as [i (p & Hp & Hk & Hs)%He]. destruct (te_latest0 i p Hp Hk Hs) as (_ & q & Hq & _).
    split; [by apply (ro_inst _ Hro _ q) |]. intros Hm.
    destruct (decide (Forall (fun r => pf_page_id r.2 = k -> pf_lock_mode r.2 = DRC_LOCK_NULL) reps)) as [Hall | Hex].
    + rewrite te_unlocked0 in Hm; [done |]. rewrite Forall_forall in Hall. intros j r Hr. by apply (Hall (j, r)).
    + apply not_Forall_Exists, Exists_exists in Hex as ([j r] & Hr & Hnot); [| apply _]. cbn in Hnot.
      assert (Hkr : pf_page_id r = k) by (destruct (decide (pf_page_id r = k)); [done | by destruct Hnot]).
      assert (Hmr : pf_lock_mode r <> DRC_LOCK_NULL) by (intros E; by apply Hnot).
      pose proof (te_mode0 j r Hr Hkr Hmr) as E. destruct (ro_mode _ Hro j r Hr) as [? | [Hsr | Hxr]]; [done | | rewrite Hm, Hxr in E; done].
      assert (Hin : j ∈ inst_set (br_readonly_copies b)) by (apply Hc; by exists r). by rewrite Hz, inst_set_0 in Hin.
Qed.

(** The resource of a page that nothing is known of. *)
Definition blank_res k : drc_buf_res :=
  mk_buf_res 0 0 CT_INVALID_ID8 CT_INVALID_ID8 DRC_RES_INVALID_ACTION 0 DRC_LOCK_NULL k (mk_lock_item CT_INVALID_ID32 g_invalid_req_info) DRC_LIST_INIT
    0 true 0 (mk_node 0 0 0) 0 0.

Lemma blank_tells k : tells [] k (blank_res k).
Proof.
  assert (Hno : forall Q i, ~ says Q [] k i) by (intros Q i (p & Hp & _); by apply not_elem_of_nil in Hp).
  constructor; cbn; try done; try (by left).
  - intros i Hi. split; [| by intros ?%Hno]. intros <-. unfold inst_ok, CT_INVALID_ID8, CT_MAX_INSTANCES in Hi. lia.
  - split; [done |]. intros i. rewrite inst_set_0. split; [set_solver | by intros ?%Hno].
  - split; [done |]. intros i. rewrite inst_set_0. split; [set_solver | by intros ?%Hno].
  - intros i p Hp. by apply not_elem_of_nil in Hp.
  - intros i p Hp. by apply not_elem_of_nil in Hp.
Qed.

(** What an update leaves alone. *)
Definition same_place (b b' : drc_buf_res) : Prop :=
  br_next b' = br_next b /\ br_node b' = br_node b /\ br_page_id b' = br_page_id b /\ br_idx b' = br_idx b /\ br_part_id b' = br_part_id b /\
  br_convert_q b' = br_convert_q b.

(** The edp part of an update. *)
Lemma update_edp b i p :
  inst_ok i -> bitmap_ok (br_edp_map b) ->
  exists b1 m, update_edp_info b p i = Done b1 /\
    bitmap_ok m /\ inst_set m = (if decide (has_edp p) then {[i]} else ∅) ∪ inst_set (br_edp_map b) /\
    exists le ll, (le, ll) = (if decide (has_edp p /\ br_latest_edp_lsn b < pf_lsn p) then (i, pf_lsn p) else (br_latest_edp b, br_latest_edp_lsn b)) /\
    b1 = set_br_edp_map m (set_br_latest_edp_lsn ll (set_br_latest_edp le b)).
Proof.
  intros Hi Hok. unfold update_edp_info. destruct (pf_is_edp p) eqn:E.
  - destruct (drc_bitmap64_set_Done (br_edp_map b) i Hok Hi) as (m & Hm & Hmok & Hset & _).
    destruct (Z.ltb_spec (br_latest_edp_lsn b) (pf_lsn p)) as [Hlt | Hge]; cbn; rewrite Hm; ostep.
    + eexists _, m. split; [reflexivity |]. split; [done |]. rewrite decide_True by done. split; [done |].
      exists i, (pf_lsn p). rewrite decide_True by done. split; [done |]. by destruct b.
    + eexists _, m. split; [reflexivity |]. split; [done |]. rewrite decide_True by done. split; [done |].
      exists (br_latest_edp b), (br_latest_edp_lsn b). rewrite decide_False by lia. split; [done |]. by destruct b.
  - assert (Hne : ~ has_edp p) by (unfold has_edp; by rewrite E). exists b, (br_edp_map b). split; [done |]. split; [done |].
    rewrite decide_False by done. split; [set_solver |]. exists (br_latest_edp b), (br_latest_edp_lsn b). rewrite decide_False by tauto.
    split; [done |]. by destruct b.
Qed.

Lemma update_tells reps k b i p :
  reports_ok (reps ++ [(i, p)]) -> pf_page_id p = k -> tells reps k b ->
  exists b', drc_update_page_info b p i = Done b' /\ tells (reps ++ [(i, p)]) k b' /\ same_place b b'.
Proof.
  intros Hro Hk Ht. assert (Hin : (i, p) ∈ reps ++ [(i, p)]) by (apply elem_of_app; right; by apply list_elem_of_singleton).
  pose proof (ro_inst _ Hro i p Hin) as Hi. pose proof Ht as [].
  destruct (update_edp b i p Hi (proj1 te_edps0)) as (b1 & m & Hrun & Hmok & Hm & le & ll & Hl & ->). unfold drc_update_page_info. rewrite Hrun. ostep. clear Hrun.
  destruct (ro_mode _ Hro i p Hin) as [Hn | [Hs | Hx]].
  - rewrite (proj2 (Z.eqb_eq _ _) Hn). eexists. split; [reflexivity |]. split; [| done].
    eapply (tells_step reps k b i p); try done; cbn [br_page_id br_claimed_owner br_readonly_copies br_edp_map br_mode set_br_edp_map set_br_latest_edp_lsn set_br_latest_edp].
    + rewrite decide_False; [done |]. unfold has_x. by rewrite Hn.
    + apply te_copies0.
    + rewrite decide_False; [set_solver |]. unfold has_s. by rewrite Hn.
    + by rewrite decide_True.
  - rewrite (proj2 (Z.eqb_neq _ _)) by (by rewrite Hs). rewrite (proj2 (Z.eqb_neq _ DRC_LOCK_EXCLUSIVE)) by (by rewrite Hs).
    rewrite (proj2 (Z.eqb_eq _ _) Hs). destruct (drc_bitmap64_set_Done (br_readonly_copies b) i (proj1 te_copies0) Hi) as (m' & Hset & Hmok' & Hm' & _).
    cbn [br_readonly_copies set_br_mode set_br_edp_map set_br_latest_edp_lsn set_br_latest_edp]. rewrite Hset. ostep. eexists. split; [reflexivity |]. split; [| done].
    eapply (tells_step reps k b i p); try done; cbn.
    + rewrite decide_False; [done |]. unfold has_x. by rewrite Hs.
    + by rewrite decide_True.
    + rewrite decide_False; [done |]. by rewrite Hs.
  - rewrite (proj2 (Z.eqb_neq _ _)) by (by rewrite Hx). rewrite (proj2 (Z.eqb_eq _ DRC_LOCK_EXCLUSIVE) Hx).
    assert (Hgo : forall b', br_claimed_owner b' = i -> b' = set_br_claimed_owner i (set_br_mode (pf_lock_mode p) (set_br_edp_map m (set_br_latest_edp_lsn ll (set_br_latest_edp le b)))) ->
      tells (reps ++ [(i, p)]) k b' /\ same_place b b').
    { intros b' Ho ->. split; [| done]. eapply (tells_step reps k b i p); try done; cbn.
      - by rewrite decide_True.
      - apply te_copies0.
      - rewrite decide_False; [set_solver |]. unfold has_s. by rewrite Hx.
      - rewrite decide_False; [done |]. by rewrite Hx. }
    cbn [br_claimed_owner set_br_mode set_br_edp_map set_br_latest_edp_lsn set_br_latest_edp].
    destruct (Z.eqb_spec (br_claimed_owner b) CT_INVALID_ID8) as [E | E]; cbn [negb].
    + eexists. split; [reflexivity |]. by apply Hgo.
    + assert (Ho : br_claimed_owner b = i).
      { destruct te_none0 as [? | Hok]; [done |]. destruct (proj1 (te_owner0 _ Hok) eq_refl) as (q & Hq & Hqk & Hxq).
        destruct (ro_excl _ Hro i p (br_claimed_owner b) q) as [-> _]; try done; [apply elem_of_app; by left | congruence | by rewrite Hxq]. }
      eexists. split; [reflexivity |]. apply Hgo; [done |]. rewrite <- Ho. by destruct b.
Qed.

(** A new resource. *)
Lemma new_tells i p idx old :
  reports_ok [(i, p)] ->
  exists b, rcy_buf_res p i idx old = Done b /\ br_idx b = idx /\ br_node b = br_node old /\ tells [(i, p)] (pf_page_id p) b.
Proof.
  intros Hro. pose proof (blank_tells (pf_page_id p)) as Ht. assert (Hin : (i, p) ∈ [(i, p)]) by (by apply list_elem_of_singleton).
  pose proof (ro_inst _ Hro i p Hin) as Hi. destruct (drc_bitmap64_set_Done 0 i bitmap_ok_0 Hi) as (m & Hset & Hmok & Hm & _). rewrite inst_set_0 in Hm.
  assert (Hgo : forall copies edps, bitmap_ok copies -> bitmap_ok edps -> inst_set copies = (if decide (has_s p) then {[i]} else ∅) ->
    inst_set edps = (if decide (has_edp p) then {[i]} else ∅) ->
    tells [(i, p)] (pf_page_id p) (mk_buf_res (br_next old) idx (if pf_lock_mode p =? DRC_LOCK_EXCLUSIVE then i else CT_INVALID_ID8)
          (if pf_is_edp p then i else CT_INVALID_ID8) DRC_RES_INVALID_ACTION (if pf_is_edp p then pf_lsn p else 0)
          (pf_lock_mode p) (pf_page_id p) (mk_lock_item CT_INVALID_ID32 g_invalid_req_info) DRC_LIST_INIT
          (br_part_id old) true edps (br_node old) 0 copies)).
  { intros copies edps Hc He Hsc Hse. eapply (tells_step [] _ _ i p _ Hro eq_refl Ht); cbn; try done.
    - unfold has_x. destruct (Z.eqb_spec (pf_lock_mode p) DRC_LOCK_EXCLUSIVE); [by rewrite decide_True | by rewrite decide_False].
    - rewrite inst_set_0. set_solver.
    - rewrite inst_set_0. set_solver.
    - destruct (decide (has_edp p /\ 0 < pf_lsn p)) as [[Hep _] | Hn]; [by rewrite Hep |]. destruct (pf_is_edp p) eqn:E; [| done].
      destruct Hn. split; [done |]. by apply (ro_lsn _ Hro i p).
    - destruct (decide (pf_lock_mode p = DRC_LOCK_NULL)); done. }
  assert (Hcopies : exists copies, (if pf_lock_mode p =? DRC_LOCK_EXCLUSIVE then Done 0
      else if pf_lock_mode p =? DRC_LOCK_SHARE then drc_bitmap64_set 0 i else Done 0) = Done copies /\
      bitmap_ok copies /\ inst_set copies = (if decide (has_s p) then {[i]} else ∅)).
  { destruct (decide (has_s p)) as [Hs | Hs].
    - exists m. rewrite Hs. cbn. split; [done |]. split; [done |]. set_solver.
    - exists 0. destruct (Z.eqb_spec (pf_lock_mode p) DRC_LOCK_EXCLUSIVE); [| rewrite (proj2 (Z.eqb_neq _ _) Hs)]; (split; [done |]; split; [done | apply inst_set_0]). }
  assert (Hedps : exists edps, (if pf_is_edp p then drc_bitmap64_set 0 i else Done 0) = Done edps /\
      bitmap_ok edps /\ inst_set edps = (if decide (has_edp p) then {[i]} else ∅)).
  { destruct (decide (has_edp p)) as [He | He].
    - exists m. rewrite He. split; [done |]. split; [done |]. set_solver.
    - exists 0. apply not_true_is_false in He. rewrite He. split; [done |]. split; [done | apply inst_set_0]. }
  destruct Hcopies as (copies & Hc1 & Hc2 & Hc3), Hedps as (edps & He1 & He2 & He3). unfold rcy_buf_res. rewrite Hc1. ostep. rewrite He1. ostep.
  eexists. split; [reflexivity |]. split; [done |]. split; [done |]. by apply Hgo.
Qed.

(** Only the reports of the page count. *)
Lemma tells_ext reps reps' k b : (forall i p, pf_page_id p = k -> (i, p) ∈ reps <-> (i, p) ∈ reps') -> tells reps k b -> tells reps' k b.
Proof.
  intros Heq []. assert (Hs : forall Q i, says Q reps k i <-> says Q reps' k i).
  { intros Q i. split; intros (p & Hp & Hk & HQ); exists p; (split; [by apply (Heq i p Hk) | done]). }
  constructor; try done.
  - intros i Hi. by rewrite <- Hs, te_owner0.
  - split; [apply te_copies0 |]. intros i. rewrite <- Hs. apply te_copies0.
  - split; [apply te_edps0 |]. intros i. rewrite <- Hs. apply te_edps0.
  - intros i p Hp Hk He. rewrite <- Hs. apply (te_latest0 i p); [by apply (Heq i p Hk) | done | done].
  - intros Hno. apply te_unwritten0. intros i. rewrite Hs. apply Hno.
  - intros i p Hp Hk. apply (te_mode0 i p); [by apply (Heq i p Hk) | done].
  - intros Hno. apply te_unlocked0. intros i p Hp Hk. apply (Hno i p); [by apply (Heq i p Hk) | done].
Qed.

Lemma reports_ok_sub reps reps' : reps' ⊆ reps -> reports_ok reps -> reports_ok reps'.
Proof. intros Hsub []. constructor; eauto. Qed.

(** ** The catalog *)

Section catalog.
Context `{HA : KernelAttr}.
Implicit Types (g : buf_catalog) (pool : lock_pool) (gh : gghost).

Local Abbreviation bgwf := (gwf (K := page_id_t) buf_inv).
Local Abbreviation view := (res_view (A := drc_buf_res) (K := page_id_t)).

#[global] Instance reported_dec reps k : Decision (reported reps k).
Proof.
  destruct (decide (Exists (fun r => pf_page_id r.2 = k) reps)) as [H | H].
  - left. apply Exists_exists in H as ([i p] & Hp & Hk). by exists i, p.
  - right. intros (i & p & Hp & Hk). apply H, Exists_exists. by exists (i, p).
Defined.

(** The catalog [g] has grown out of [g0] by the reports. *)
Record rebuilt pool g0 reps g : Prop := mk_rebuilt {
  rb_told : forall k, reported reps k -> exists b, view pool g k = Some (b, []) /\ tells reps k b;
  rb_rest : forall k, ~ reported reps k -> view pool g k = view pool g0 k;
}.

Lemma rebuilt_init pool g0 : rebuilt pool g0 [] g0.
Proof. split; [| done]. intros k (i & p & Hp & _). by apply not_elem_of_nil in Hp. Qed.

Lemma rebuilt_view pool g0 reps g g' : (forall k, view pool g' k = view pool g k) -> rebuilt pool g0 reps g -> rebuilt pool g0 reps g'.
Proof. intros Hv []. split; intros k; rewrite Hv; auto. Qed.

Lemma reported_app reps i p k : reported (reps ++ [(i, p)]) k <-> reported reps k \/ pf_page_id p = k.
Proof.
  unfold reported. setoid_rewrite elem_of_app. setoid_rewrite list_elem_of_singleton. split.
  - intros (j & q & [Hq | [= -> ->]] & Hk); [left; by exists j, q | by right].
  - intros [(j & q & Hq & Hk) | Hk]; [exists j, q | exists i, p]; auto.
Qed.

(** One resource more, or one changed. *)
Lemma rebuilt_step pool g0 reps g g' i p b :
  rebuilt pool g0 reps g -> view_but (K := page_id_t) (pf_page_id p) pool g pool g' -> view pool g' (pf_page_id p) = Some (b, []) ->
  tells (reps ++ [(i, p)]) (pf_page_id p) b -> rebuilt pool g0 (reps ++ [(i, p)]) g'.
Proof.
  intros [Htold Hrest] Hv Hb Ht. split.
  - intros k Hk. destruct (decide (pf_page_id p = k)) as [<- | Hne]; [by exists b |]. apply reported_app in Hk as [Hk | ?]; [| done].
    destruct (Htold k Hk) as (b0 & Hb0 & Ht0). exists b0. split; [by rewrite Hv |]. eapply tells_ext; [| done].
    intros j q Hq. rewrite elem_of_app, list_elem_of_singleton. split; [auto |]. intros [? | [= -> ->]]; congruence || done.
  - intros k Hk. rewrite reported_app in Hk. rewrite Hv by (intros ->; tauto). apply Hrest. tauto.
Qed.

(** A change of a resource that leaves its queue alone. *)
Lemma gwf_put_same gh pool g i b b' ids :
  bgwf gh pool g -> i ∈ linked gh -> (g_items g).[i] = Some b -> (gg_ql gh).[i] = Some ids -> same_place b b' ->
  buf_inv b' (queue_reqs (addr pool) ids) ->
  exists g', gres_put g i b' = Done g' /\
    bgwf (ghost_with gh (gg_free gh) (gg_held gh) (gg_bl gh) (gg_pl gh)) pool g' /\ view_but (K := page_id_t) (br_page_id b) pool g pool g' /\
    view pool g' (br_page_id b) = Some (strip b', queue_reqs (addr pool) ids).
Proof.
  intros Hwf Hi Hb Hids (Hn & Hnode & Hpage & Hidx & Hpart & Hq) Hinv.
  destruct (gwf_update buf_inv gh pool g i b b' ids ids pool (gg_lfree gh) []) as (Hrun & Hwf' & Hv & Hvk); try done.
  - cbn [res_q buf_GlobalItem app]. rewrite Hq. by apply (gwf_queue buf_inv Hwf).
  - eexists. split; [exact Hrun |]. split; [| split; [exact Hv | exact Hvk]]. cbn [app] in Hwf'. unfold ghost_with.
    by rewrite (insertZ_id (gg_ql gh) i ids) in Hwf'.
Qed.

Lemma queue_reqs_nil gh pool g i b ids : bgwf gh pool g -> (g_items g).[i] = Some b -> (gg_ql gh).[i] = Some ids -> queue_reqs (addr pool) ids = [] -> ids = [].
Proof.
  intros Hwf Hb Hids Hnil. destruct ids as [| x ids]; [done |]. pose proof (gwf_queue buf_inv Hwf i b _ Hb Hids) as Hqw.
  destruct (qw_item Hqw x) as [it Hit]; [set_solver |]. by rewrite (queue_reqs_cons _ _ _ _ Hit) in Hnil.
Qed.

(** One page of a report. *)
Lemma rcy_page_spec gh pool g0 reps g i p id held' :
  bgwf gh pool g -> gg_held gh ≡ₚ id :: held' -> rebuilt pool g0 reps g -> reports_ok (reps ++ [(i, p)]) -> view pool g0 (pf_page_id p) = None ->
  exists (used : bool) g' held2 bl' pl', drc_rcy_page_info p i id g = Done (used, g') /\
    bgwf (ghost_with gh (gg_free gh) held2 bl' pl') pool g' /\ held2 ≡ₚ (if used then held' else id :: held') /\
    rebuilt pool g0 (reps ++ [(i, p)]) g'.
Proof.
  intros Hwf Hheld Hrb Hro Hnew. pose proof (gwf_view buf_inv Hwf (pf_page_id p)) as Hv. unfold drc_rcy_page_info.
  destruct (decide (reported reps (pf_page_id p))) as [Hrep | Hrep].
  - destruct (rb_told _ _ _ _ Hrb _ Hrep) as (bv & Hbv & Ht). rewrite Hbv in Hv. destruct Hv as (j & b & ids & -> & Hj & Hb & Hids & Hk & -> & Hq).
    ostep. unfold gres_get. rewrite (arr_get_eq _ _ _ Hb). ostep. apply (proj1 (tells_strip _ _ b)) in Ht.
    destruct (update_tells reps (pf_page_id p) b i p Hro eq_refl Ht) as (b' & -> & Ht' & Hplace). ostep.
    destruct (gwf_put_same gh pool g j b b' ids Hwf Hj Hb Hids Hplace) as (g' & -> & Hwf' & Hv' & Hvk).
    { rewrite <- Hq. by eapply tells_inv. }
    ostep. cbn in Hk. rewrite Hk, <- Hq in *. exists false, g', (gg_held gh), (gg_bl gh), (gg_pl gh). split; [done |]. split; [done |]. split; [done |].
    eapply rebuilt_step; [done | done | done |]. by apply (proj2 (tells_strip _ _ b')).
  - rewrite (rb_rest _ _ _ _ Hrb _ Hrep), Hnew in Hv. destruct Hv as [-> Hout]. ostep.
    assert (Hih : id ∈ gg_free gh ++ gg_held gh) by (rewrite Hheld; set_solver).
    destruct (gwf_held_item buf_inv buf_inv_strip _ _ _ _ Hwf Hih) as [old Hold]. assert (Hget : gres_get g id = Done old) by (unfold gres_get; by apply arr_get_eq). rewrite Hget. ostep.
    assert (Hro1 : reports_ok [(i, p)]) by (eapply reports_ok_sub; [| done]; set_solver).
    destruct (new_tells i p id old Hro1) as (b & -> & Hidx & Hnode & Ht). ostep.
    destruct (gwf_map_add buf_inv buf_inv_strip gh pool g id (pf_page_id p) b held' Hwf Hheld) as (g1 & g2 & bl' & n & -> & Hadd & Hh); [apply Ht | apply Ht | done |].
    ostep. rewrite Hadd. ostep.
    assert (Hget2 : gres_get g2 id = Done (set_item_next n b)) by (unfold gres_get; apply arr_get_eq, Hh). rewrite Hget2. ostep.
    set (b2 := set_part_and_node (pf_page_id p) id (set_item_next n b)).
    destruct (half_linked_put buf_inv buf_inv_strip _ _ _ _ _ _ _ _ _ b2 Hh) as [-> Hh2]; [done | done | apply Ht |]. ostep.
    assert (Ht2 : tells [(i, p)] (pf_page_id p) b2) by (destruct Ht; by constructor).
    destruct (gwf_insert buf_inv buf_inv_strip _ _ _ _ _ _ _ _ _ Hh2) as (g3 & pl' & -> & Hwf3 & Hv3 & Hvk3); [done | exact Hidx | done | by eapply tells_inv |].
    ostep. exists true, g3, held', bl', pl'. split; [done |]. split; [exact Hwf3 |]. split; [done |].
    eapply rebuilt_step; [done | done | done |]. apply (proj2 (tells_strip _ _ b2)). eapply tells_ext; [| done]. intros j q Hq. rewrite elem_of_app, list_elem_of_singleton.
    split; [auto |]. intros [Hin |]; [| done]. destruct Hrep. by exists j, q.
Qed.

(** The pages of a report, from some page on. *)
Lemma rcy_page_loop_spec i idx pool g0 held' todo : forall done_ used rest reps gh g,
  idx = used ++ rest -> (length todo <= length rest)%nat -> Z.of_nat (length idx) < 2 ^ 32 ->
  bgwf gh pool g -> gg_held gh ≡ₚ rest ++ held' -> rebuilt pool g0 reps g -> reports_ok (reps ++ List.map (pair i) todo) ->
  (forall p, p ∈ todo -> view pool g0 (pf_page_id p) = None) ->
  exists used' rest' g' held2 bl' pl', idx = used' ++ rest' /\
    rcy_page_loop (length todo) (Z.of_nat (length done_)) (done_ ++ todo) i idx (Z.of_nat (length used)) g = Done (Z.of_nat (length used'), g') /\
    bgwf (ghost_with gh (gg_free gh) held2 bl' pl') pool g' /\ held2 ≡ₚ rest' ++ held' /\ rebuilt pool g0 (reps ++ List.map (pair i) todo) g'.
Proof.
  induction todo as [| p todo IH]; intros done_ used rest reps gh g Hidx Hlen Hmax Hwf Hheld Hrb Hro Hnew.
  - exists used, rest, g, (gg_held gh), (gg_bl gh), (gg_pl gh). split; [done |]. split; [done |]. split; [by destruct gh |]. split; [done |]. cbn. by rewrite app_nil_r.
  - destruct rest as [| id rest]; [cbn in Hlen; lia |]. cbn [length rcy_page_loop].
    assert (Hitem : idx.[Z.of_nat (length used)] = Some id) by (rewrite Hidx; apply lookupZ_middle).
    rewrite (arr_get_eq _ _ _ (lookupZ_middle done_ todo p)). ostep. rewrite (arr_get_eq _ _ _ Hitem). ostep.
    cbn [List.map] in Hro. rewrite cons_middle, (assoc_L (++)) in Hro. rewrite <- app_comm_cons in Hheld.
    destruct (rcy_page_spec gh pool g0 reps g i p id (rest ++ held') Hwf Hheld Hrb) as (u & g1 & held1 & bl1 & pl1 & -> & Hwf1 & Hh1 & Hrb1);
      [eapply reports_ok_sub; [| exact Hro]; set_solver | apply Hnew; set_solver |]. ostep.
    cbn [List.map]. rewrite (cons_middle (i, p) reps), (assoc_L (++)), (cons_middle p done_), (assoc_L (++)).
    replace (Z.of_nat (length done_) + 1) with (Z.of_nat (length (done_ ++ [p]))) by (rewrite length_app; cbn; lia).
    rewrite Hidx, length_app in Hmax. cbn in Hmax. destruct u.
    + rewrite u32_small by lia. replace (Z.of_nat (length used) + 1) with (Z.of_nat (length (used ++ [id]))) by (rewrite length_app; cbn; lia).
      destruct (IH (done_ ++ [p]) (used ++ [id]) rest (reps ++ [(i, p)]) (ghost_with gh (gg_free gh) held1 bl1 pl1) g1) as (used' & rest' & g' & held2 & bl' & pl' & Hi' & Hrun & Hwf' & H2 & Hrb');
        [by rewrite <- (assoc_L (++)) | cbn in Hlen; lia | rewrite Hidx, length_app; cbn; lia | exact Hwf1 | done | done | done | set_solver |].
      exists used', rest', g', held2, bl', pl'. done.
    + destruct (IH (done_ ++ [p]) used (id :: rest) (reps ++ [(i, p)]) (ghost_with gh (gg_free gh) held1 bl1 pl1) g1) as (used' & rest' & g' & held2 & bl' & pl' & Hi' & Hrun & Hwf' & H2 & Hrb');
        [done | cbn in *; lia | rewrite Hidx, length_app; cbn; lia | exact Hwf1 | done | done | done | set_solver |].
      exists used', rest', g', held2, bl', pl'. done.
Qed.

(** Giving back a batch of items. *)
Lemma gwf_free_loop ids : forall gh pool g held',
  bgwf gh pool g -> gg_held gh ≡ₚ ids ++ held' ->
  exists p' held2, free_batch_loop ids (res_pool (res_map g)) = Done p' /\ held2 ≡ₚ held' /\
    bgwf (ghost_with gh (reverse ids ++ gg_free gh) held2 (gg_bl gh) (gg_pl gh)) pool (g_set_pool g p') /\
    forall k, view pool (g_set_pool g p') k = view pool g k.
Proof.
  induction ids as [| i ids IH]; intros gh pool g held' Hwf Hheld.
  - exists (res_pool (res_map g)), (gg_held gh). split; [done |]. split; [done |].
    assert (E : g_set_pool g (res_pool (res_map g)) = g) by (by destruct g as [[] ?]). rewrite E. split; [by destruct gh | done].
  - rewrite <- app_comm_cons in Hheld. destruct (gwf_free buf_inv buf_inv_strip gh pool g i (ids ++ held') Hwf Hheld) as (g1 & Hrun & Hwf1 & Hv1 & _).
    assert (Hr : 0 <= i < item_num (res_pool (res_map g))).
    { apply (mw_item_range (gw_map _ _ _ _ Hwf)). rewrite Hheld. set_solver. }
    rewrite free_batch_step; [| apply (pw_inited _ _ (mw_pool _ _ _ _ (gw_map _ _ _ _ Hwf))) | lia].
    unfold gres_free in Hrun. destruct (drc_res_pool_free_item (res_pool (res_map g)) i) as [p1 |]; [| done]. injection Hrun as <-. ostep.
    destruct (IH _ pool _ held' Hwf1) as (p' & held2 & Hrun & Hh2 & Hwf' & Hv'); [done |]. exists p', held2. split; [exact Hrun |]. split; [done |].
    split; [rewrite reverse_cons, <- (assoc_L (++)); exact Hwf' |]. intros k. rewrite <- (Hv1 k). apply Hv'.
Qed.

Lemma gwf_free_batch gh pool g ids :
  bgwf gh pool g -> gg_held gh ≡ₚ ids ->
  exists p', drc_res_pool_free_batch_item (res_pool (res_map g)) ids = Done p' /\
    bgwf (ghost_with gh (reverse ids ++ gg_free gh) [] (gg_bl gh) (gg_pl gh)) pool (g_set_pool g p') /\
    forall k, view pool (g_set_pool g p') k = view pool g k.
Proof.
  intros Hwf Hheld. destruct (gwf_free_loop ids gh pool g [] Hwf) as (p' & held2 & Hrun & Hh2 & Hwf' & Hv); [by rewrite app_nil_r |].
  apply Permutation_nil_r in Hh2 as ->. exists p'. split; [| done]. pose proof (mw_pool _ _ _ _ (gw_map _ _ _ _ Hwf)) as Hpw.
  unfold drc_res_pool_free_batch_item. rewrite (pw_inited _ _ Hpw). cbn [negb].
  assert (Hu : used_num (res_pool (res_map g)) <? Z.of_nat (length ids) = false).
  { apply Z.ltb_ge. pose proof (pw_used _ _ Hpw) as Hu. pose proof (Permutation_length (mw_perm _ _ _ _ (gw_map _ _ _ _ Hwf))) as Hpl.
    rewrite !length_app, Hheld, length_seqZ in Hpl. pose proof (pw_len _ _ Hpw). lia. }
  by rewrite Hu.
Qed.

(** A whole report. *)
Lemma rcy_report_spec pool g0 reps i pinfos c :
  catalog_ok (K := page_id_t) buf_inv pool (ry_buf c) -> rebuilt pool g0 reps (ry_buf c) -> reports_ok (reps ++ List.map (pair i) pinfos) ->
  (forall p, p ∈ pinfos -> view pool g0 (pf_page_id p) = None) -> Z.of_nat (length pinfos) <= room (ry_buf c) -> 0 < room (ry_buf c) ->
  exists g', drc_rcy_page_info_l i pinfos (Z.of_nat (length pinfos)) c = Done (rcy_set_buf g' c) /\
    catalog_ok (K := page_id_t) buf_inv pool g' /\ item_num (res_pool (res_map g')) = item_num (res_pool (res_map (ry_buf c))) /\
    rebuilt pool g0 (reps ++ List.map (pair i) pinfos) g'.
Proof.
  intros (gh & Hwf & Hheld) Hrb Hro Hnew Hroom Hpos. rewrite (gwf_room buf_inv _ _ _ Hwf) in Hroom, Hpos.
  set (idx := take (length pinfos) (gg_free gh)). assert (Hlen : length idx = length pinfos) by (apply length_take_le; lia).
  destruct (gwf_alloc_batch buf_inv buf_inv_strip gh pool (ry_buf c) idx (drop (length pinfos) (gg_free gh)) Hwf) as (g1 & Halloc & Hwf1 & Hv1);
    [unfold idx; by rewrite take_drop | intros E; rewrite E in Hpos; cbn in Hpos; lia |]. rewrite Hheld, app_nil_r in Hwf1. rewrite Hlen in Halloc.
  assert (Hmax : Z.of_nat (length idx) < 2 ^ 32).
  { pose proof (mw_pool _ _ _ _ (gw_map _ _ _ _ Hwf)) as Hpw. pose proof (pool_wf_fits _ _ Hpw) as Hfit. pose proof (pw_max _ _ Hpw) as Hm.
    pose proof (pw_used _ _ Hpw). unfold CT_INVALID_ID32 in Hm. rewrite Hlen. lia. }
  set (gh1 := mk_gg _ _ _ _ _ _ _) in Hwf1.
  destruct (rcy_page_loop_spec i idx pool g0 [] pinfos [] [] idx reps gh1 g1) as (used & rest & g2 & held2 & bl' & pl' & Hidx & Hrun & Hwf2 & Hh2 & Hrb2);
    [done | lia | done | exact Hwf1 | cbn; rewrite app_nil_r; apply reverse_Permutation | by eapply rebuilt_view | done | done |]. rewrite app_nil_r in Hh2.
  cbn [app length] in Hrun. change (Z.of_nat 0) with 0 in Hrun.
  unfold drc_rcy_page_info_l. rewrite Halloc. ostep. rewrite Nat2Z.id, Hrun. ostep.
  destruct (Z.ltb_spec (Z.of_nat (length used)) (Z.of_nat (length pinfos))) as [Hlt | Hge].
  - rewrite Nat2Z.id, Hidx, drop_app_length. destruct (gwf_free_batch _ pool g2 rest Hwf2 Hh2) as (p' & -> & Hwf3 & Hv3). ostep.
    exists (g_set_pool g2 p'). split; [done |]. split; [eexists; by split |]. split; [| by eapply rebuilt_view].
    rewrite (gwf_item_num buf_inv _ _ _ Hwf3), (gwf_item_num buf_inv _ _ _ Hwf). done.
  - assert (rest = []) as -> by (apply nil_length_inv; apply (f_equal length) in Hidx; rewrite length_app in Hidx; lia).
    apply Permutation_nil_r in Hh2 as ->. exists g2. split; [done |]. split; [eexists; by split |]. split; [| done].
    rewrite (gwf_item_num buf_inv _ _ _ Hwf2), (gwf_item_num buf_inv _ _ _ Hwf). done.
Qed.

(** *** A master that rebuilds its part of the catalog *)

(** [g0]: the catalog before, which has none of [pages] and room for them
    and for one report more. *)
Record can_rebuild pool g0 (pages : list page_id_t) : Prop := mk_can_rebuild {
  cr_ok : catalog_ok (K := page_id_t) buf_inv pool g0;
  cr_new : forall k, k ∈ pages -> view pool g0 k = None;
  cr_room : DRC_PAGE_CACHE_INFO_BATCH_CNT <= room g0 - Z.of_nat (length pages);
}.

Definition about (pages : list page_id_t) reps : Prop := forall i p, (i, p) ∈ reps -> pf_page_id p ∈ pages.

Record recovering pool g0 reps c : Prop := mk_recovering {
  rv_ok : catalog_ok (K := page_id_t) buf_inv pool (ry_buf c);
  rv_num : item_num (res_pool (res_map (ry_buf c))) = item_num (res_pool (res_map g0));
  rv_built : rebuilt pool g0 reps (ry_buf c);
}.

Lemma recovering_init pool c pages : can_rebuild pool (ry_buf c) pages -> recovering pool (ry_buf c) [] c.
Proof. intros []. constructor; [done | done | apply rebuilt_init]. Qed.

Lemma recovering_room pool g0 pages reps c : can_rebuild pool g0 pages -> about pages reps -> recovering pool g0 reps c -> DRC_PAGE_CACHE_INFO_BATCH_CNT <= room (ry_buf c).
Proof.
  intros [] Hab []. assert (Hr : room g0 - Z.of_nat (length pages) <= room (ry_buf c)); [| lia].
  apply (room_bound (K := page_id_t) buf_inv pool); try done. intros k Hk. destruct (decide (reported reps k)) as [(i & p & Hp & <-) | Hno].
  - right. by apply (Hab i).
  - left. by rewrite <- (rb_rest _ _ _ _ rv_built0 k Hno).
Qed.

Lemma recovering_step pool g0 pages reps i pinfos c :
  can_rebuild pool g0 pages -> about pages (reps ++ List.map (pair i) pinfos) -> reports_ok (reps ++ List.map (pair i) pinfos) ->
  Z.of_nat (length pinfos) <= DRC_PAGE_CACHE_INFO_BATCH_CNT -> recovering pool g0 reps c ->
  exists c', drc_rcy_page_info_l i pinfos (Z.of_nat (length pinfos)) c = Done c' /\ recovering pool g0 (reps ++ List.map (pair i) pinfos) c' /\
    c' = rcy_set_buf (ry_buf c') c.
Proof.
  intros Hcan Hab Hro Hlen Hrec. assert (Habr : about pages reps) by (intros j p Hp; apply (Hab j); set_solver).
  pose proof (recovering_room pool g0 pages reps c Hcan Habr Hrec) as Hroom. assert (0 < DRC_PAGE_CACHE_INFO_BATCH_CNT) by done. destruct Hrec as [Hok Hnum Hrb].
  destruct (rcy_report_spec pool g0 reps i pinfos c Hok Hrb Hro) as (g' & Hrun & Hok' & Hnum' & Hrb'); [| lia | lia |].
  { intros p Hp. apply (cr_new _ _ _ Hcan). apply (Hab i). apply elem_of_app. right. by apply (list_elem_of_fmap_2 (pair i)). }
  exists (rcy_set_buf g' c). split; [done |]. split; [| done]. constructor; [done | cbn; by rewrite Hnum' | done].
Qed.
End catalog.
