(* ===== verification/RcySend.v ===== *)
(** * Reports of pages are complete

    What an instance finds in its buffer reaches the new masters: every page
    in exactly the reports for its master, in the order of the buffer; and what
    a master gets, it enters.
    Source: src/pkg/src/cluster/dtc_drc.c. *)

From stdpp Require Import prelude list gmap.
From S2P Require Import Prelude Bitmap ResPool DrcList ResMap ConvertQ GlobalRes DrcTypes DrcPage PageInv BufCtrl DrcPart DrcMgrt MgrtProps DrcRcy RcyProps.

Open Scope Z_scope.
Open Scope drc_scope.

Section send.
Context `{HA : KernelAttr}.
Implicit Types (ctrls : list buf_ctrl) (s : collect) (c : rcy_ctx).

Section reporter.
Context (self_id : Z) (old_master new_master : Z -> Z) (send_ok : nat -> Z -> bool) (inst_id : Z).
Context (Hself : inst_ok self_id) (Hmaster : forall h, inst_ok (new_master h)) (Hsend : forall n d, send_ok n d = true).

(** ** What is to be reported *)

(** The control says something of a page whose master was [inst_id]. *)
Definition worth (ctrl : buf_ctrl) : bool :=
  negb ((bc_lock_mode ctrl =? DRC_LOCK_NULL) && negb (bc_is_edp ctrl)) &&
  bool_decide (drc_get_page_master_id old_master (bc_page_id ctrl) = Some inst_id).

Definition to_master (m : Z) (ctrl : buf_ctrl) : bool := worth ctrl && (drc_get_page_remaster_id new_master (bc_page_id ctrl) =? m).

(** The infos for master [m]. *)
Definition infos_for (m : Z) ctrls : list page_info := List.map ctrl_info (List.filter (to_master m) ctrls).

Definition asking (ctrl : buf_ctrl) : bool := bool_decide (bc_transfer_status ctrl = BUF_TRANS_TRY_REMOTE).

Lemma infos_for_app m l1 l2 : infos_for m (l1 ++ l2) = infos_for m l1 ++ infos_for m l2.
Proof. unfold infos_for. by rewrite List.filter_app, List.map_app. Qed.

Lemma infos_for_one m ctrl : infos_for m [ctrl] = if to_master m ctrl then [ctrl_info ctrl] else [].
Proof. unfold infos_for. cbn. by destruct (to_master m ctrl). Qed.

(** ** What has been reported *)

(** The infos in messages for [m]. *)
Definition told (m : Z) (sent : list (rcy_msg page_info)) : list page_info := concat (List.map rm_infos (List.filter (fun x => rm_dst x =? m) sent)).

Lemma told_app m l1 l2 : told m (l1 ++ l2) = told m l1 ++ told m l2.
Proof. unfold told. by rewrite List.filter_app, List.map_app, concat_app. Qed.

Lemma told_one m d buf : told m [page_info_msg self_id d buf] = if d =? m then buf else [].
Proof. unfold told. cbn. destruct (d =? m); cbn; [apply app_nil_r | done]. Qed.

(** A message of this instance. *)
Definition report_msg (m : rcy_msg page_info) : Prop :=
  exists d buf, m = page_info_msg self_id d buf /\ inst_ok d /\ d <> self_id /\ buf <> [] /\ Z.of_nat (length buf) <= DRC_PAGE_CACHE_INFO_BATCH_CNT.

Context (pool : lock_pool) (g0 : buf_catalog) (pages : list page_id_t) (reps0 : list report) (all : list buf_ctrl) (reqs0 : list page_id_t).
Context (Hcan : can_rebuild pool g0 pages) (Hab : about pages (reps0 ++ List.map (pair self_id) (infos_for self_id all)))
  (Hro : reports_ok (reps0 ++ List.map (pair self_id) (infos_for self_id all))).
Context (Hreqs : Z.of_nat (length reqs0) + Z.of_nat (length (List.filter asking all)) <= CT_MAX_SESSIONS).

(** After the controls [seen] of the buffer; [ent] are the infos this instance
    has entered as a master. *)
Record collecting (c0 : rcy_ctx) (seen : list buf_ctrl) (ent : list page_info) s : Prop := mk_collecting {
  cl_len : length (co_batch s) = Z.to_nat CT_MAX_INSTANCES;
  cl_batch : forall m buf, (co_batch s).[m] = Some buf ->
    Z.of_nat (length buf) < DRC_PAGE_CACHE_INFO_BATCH_CNT /\ infos_for m seen = (if m =? self_id then ent else told m (co_sent s)) ++ buf;
  cl_msgs : Forall report_msg (co_sent s);
  cl_rec : recovering pool g0 (reps0 ++ List.map (pair self_id) ent) (co_ctx s);
  cl_status : ry_status (co_ctx s) = ry_status c0;
  cl_tasks : ry_task_num (co_ctx s) = ry_task_num c0 + Z.of_nat (length (co_sent s)) /\ ry_complete_num (co_ctx s) = ry_complete_num c0;
  cl_reqs : co_reqs s = reqs0 ++ List.map bc_page_id (List.filter asking seen);
}.

Lemma infos_incl m seen : seen ⊆ all -> infos_for m seen ⊆ infos_for m all.
Proof.
  intros Hsub p. unfold infos_for. rewrite !list_elem_of_In, !in_map_iff. intros (x & Hx & Hin). exists x. split; [done |].
  rewrite filter_In in *. split; [| apply Hin]. apply list_elem_of_In, Hsub, list_elem_of_In, Hin.
Qed.

Lemma map_pair_incl (i : Z) (l l' : list page_info) : l ⊆ l' -> List.map (pair i) l ⊆ List.map (pair i) l'.
Proof. intros Hsub p. rewrite !list_elem_of_In, !in_map_iff. intros (x & Hx & Hin). exists x. split; [done |]. by apply list_elem_of_In, Hsub, list_elem_of_In. Qed.

(** Sending the buffer of one master. *)
Lemma send_one c0 seen ent s m buf :
  collecting c0 seen ent s -> seen ⊆ all -> inst_ok m -> buf <> [] -> Z.of_nat (length buf) <= DRC_PAGE_CACHE_INFO_BATCH_CNT ->
  (m = self_id -> ent ++ buf ⊆ infos_for m all) ->
  exists c' sent', drc_send_page_info2master self_id send_ok m buf (co_ctx s) (co_sent s) = Done (CT_SUCCESS, c', sent') /\
    Forall report_msg sent' /\ ry_status c' = ry_status c0 /\
    (ry_task_num c' = ry_task_num c0 + Z.of_nat (length sent') /\ ry_complete_num c' = ry_complete_num c0) /\
    recovering pool g0 (reps0 ++ List.map (pair self_id) (if m =? self_id then ent ++ buf else ent)) c' /\
    (forall m', m' <> self_id -> told m' sent' = told m' (co_sent s) ++ (if m =? m' then buf else [])).
Proof.
  intros [] Hsub Hm Hne0 Hlen Hent. unfold drc_send_page_info2master. rewrite (Z.eqb_sym self_id m). destruct (Z.eqb_spec m self_id) as [-> | Hne].
  - specialize (Hent eq_refl).
    assert (Hincl : (reps0 ++ List.map (pair self_id) ent) ++ List.map (pair self_id) buf ⊆ reps0 ++ List.map (pair self_id) (infos_for self_id all)).
    { rewrite <- (assoc_L (++)), <- List.map_app. intros x. rewrite !elem_of_app. intros [? | Hx]; [by left | right]. by eapply map_pair_incl. }
    destruct (recovering_step pool g0 pages (reps0 ++ List.map (pair self_id) ent) self_id buf (co_ctx s)) as (c' & -> & Hrec & Hc'); try done.
    { intros j p Hp. apply (Hab j), Hincl, Hp. } { exact (reports_ok_sub _ _ Hincl Hro). }
    ostep. exists c', (co_sent s). split; [done |]. split; [done |]. split; [by rewrite Hc' |]. split; [by rewrite Hc' |]. split.
    + by rewrite List.map_app, (assoc_L (++)).
    + intros m' Hm'. rewrite (proj2 (Z.eqb_neq self_id m')) by done. by rewrite app_nil_r.
  - rewrite Hsend. eexists _, _. split; [done |]. split.
    { apply Forall_app. split; [done |]. apply Forall_singleton. by exists m, buf. }
    split; [done |]. split; [destruct cl_tasks0; rewrite length_app; cbn; lia |]. split; [destruct cl_rec0; by constructor |].
    intros m' Hm'. by rewrite told_app, told_one.
Qed.

(** One control. *)
Lemma collect_one c0 seen ent s ctrl :
  collecting c0 seen ent s -> seen ++ [ctrl] ⊆ all -> Z.of_nat (length (List.filter asking (seen ++ [ctrl]))) <= Z.of_nat (length (List.filter asking all)) ->
  exists ent' s', collect_ctrl self_id old_master new_master send_ok inst_id ctrl s = Done s' /\ collecting c0 (seen ++ [ctrl]) ent' s'.
Proof.
  intros Hc Hsub Hask. pose proof Hc as [].
  set (s1 := mk_collect (co_ctx s) (co_batch s) (co_sent s) (reqs0 ++ List.map bc_page_id (List.filter asking (seen ++ [ctrl])))).
  assert (Hreq : (if decide (bc_transfer_status ctrl = BUF_TRANS_TRY_REMOTE) then
         if CT_MAX_SESSIONS <=? Z.of_nat (length (co_reqs s)) then Crash OutOfBounds
         else Done (mk_collect (co_ctx s) (co_batch s) (co_sent s) (co_reqs s ++ [bc_page_id ctrl]))
       else Done s) = Done s1).
  { unfold s1. rewrite cl_reqs0, !List.filter_app, List.map_app, (assoc_L (++)) in *. cbn [List.filter] in *. destruct (decide _) as [E | E].
    - assert (Ha : asking ctrl = true) by (by apply bool_decide_eq_true_2). rewrite Ha in *. rewrite length_app in Hask. cbn [length] in Hask.
      destruct (Z.leb_spec CT_MAX_SESSIONS (Z.of_nat (length (reqs0 ++ List.map bc_page_id (List.filter asking seen))))) as [Hle |]; [| done].
      rewrite length_app, length_map in Hle. lia.
    - assert (Ha : asking ctrl = false) by (by apply bool_decide_eq_false_2). rewrite Ha. cbn. rewrite app_nil_r, <- cl_reqs0. by destruct s. }
  unfold collect_ctrl. rewrite Hreq. ostep.
  assert (Hskip : worth ctrl = false -> collecting c0 (seen ++ [ctrl]) ent s1).
  { intros Hw. constructor; try done. cbn. intros m buf Hbuf. rewrite infos_for_app, infos_for_one. unfold to_master. rewrite Hw. cbn. rewrite app_nil_r. by apply cl_batch0. }
  unfold worth in Hskip. destruct ((bc_lock_mode ctrl =? DRC_LOCK_NULL) && negb (bc_is_edp ctrl)) eqn:E1; [exists ent, s1; split; [done | by apply Hskip] |].
  destruct (bool_decide (drc_get_page_master_id old_master (bc_page_id ctrl) = Some inst_id)) eqn:E2; cbn [negb]; [clear Hskip | exists ent, s1; split; [done | by apply Hskip]].
  set (m := drc_get_page_remaster_id new_master (bc_page_id ctrl)). assert (Hm : inst_ok m) by apply Hmaster.
  assert (Hto : forall m', infos_for m' (seen ++ [ctrl]) = infos_for m' seen ++ (if m =? m' then [ctrl_info ctrl] else [])).
  { intros m'. rewrite infos_for_app, infos_for_one. unfold to_master, worth. rewrite E1, E2. cbn [negb andb]. fold m. done. }
  unfold drc_cache_page_info. cbn [co_batch co_ctx co_sent co_reqs s1].
  destruct (lookupZ_is_Some (co_batch s) m) as [buf Hbuf]; [rewrite cl_len0; unfold inst_ok in Hm; lia |]. rewrite (arr_get_eq _ _ _ Hbuf). ostep.
  destruct (cl_batch0 m buf Hbuf) as [Hlen Hinf]. rewrite length_app. cbn [length].
  destruct (Z.eqb_spec (Z.of_nat (length buf + 1)) DRC_PAGE_CACHE_INFO_BATCH_CNT) as [Hfull | Hnot].
  - destruct (send_one c0 seen ent s m (buf ++ [ctrl_info ctrl]) Hc) as (c' & sent' & Hrun & Hmsgs & Hst & Htask & Hrec & Htold);
      [intros x Hx; apply Hsub; set_solver | done | by destruct buf | rewrite length_app; cbn; lia | |].
    { intros Em. rewrite Em, Z.eqb_refl in Hinf. rewrite (assoc_L (++)), <- Hinf. intros p Hp. apply (infos_incl m _ Hsub). rewrite Hto, Z.eqb_refl. by rewrite <- Em in *. }
    rewrite Hrun. ostep. rewrite bool_decide_eq_true_2 by done. unfold knl_panic. ostep. rewrite (arr_set_eq _ _ _ _ Hbuf). ostep.
    eexists (if m =? self_id then ent ++ (buf ++ [ctrl_info ctrl]) else ent), _. split; [reflexivity |]. constructor; cbn [co_batch co_sent co_ctx co_reqs]; try done.
    + by rewrite length_insertZ.
    + intros m' buf' Hb'. rewrite Hto. destruct (Z.eqb_spec m m') as [<- | Hne].
      * rewrite lookupZ_insertZ_eq in Hb' by (by eapply lookupZ_lt). injection Hb' as <-. split; [done |]. rewrite app_nil_r, Hinf.
        destruct (Z.eqb_spec m self_id) as [Em | Em]; [by rewrite (assoc_L (++)) |]. rewrite Htold, Z.eqb_refl by done. by rewrite (assoc_L (++)).
      * rewrite lookupZ_insertZ_ne in Hb' by done. destruct (cl_batch0 m' buf' Hb') as [Hl' ->]. split; [done |]. rewrite app_nil_r.
        destruct (Z.eqb_spec m' self_id) as [-> | Hns]; [by rewrite (proj2 (Z.eqb_neq m self_id)) |]. rewrite Htold by done.
        rewrite (proj2 (Z.eqb_neq m m')) by done. by rewrite app_nil_r.
  - rewrite (arr_set_eq _ _ _ _ Hbuf). ostep. eexists ent, _. split; [reflexivity |]. constructor; cbn [co_batch co_sent co_ctx co_reqs]; try done.
    + by rewrite length_insertZ.
    + intros m' buf' Hb'. rewrite Hto. destruct (Z.eqb_spec m m') as [<- | Hne].
      * rewrite lookupZ_insertZ_eq in Hb' by (by eapply lookupZ_lt). injection Hb' as <-. split; [rewrite length_app; cbn; lia |]. by rewrite Hinf, (assoc_L (++)).
      * rewrite lookupZ_insertZ_ne in Hb' by done. rewrite app_nil_r. by apply cl_batch0.
Qed.

(** ** Buffer sets *)

Definition ctrls_of (slots : list (option buf_ctrl)) : list buf_ctrl := omap (fun x => x) slots.

Lemma prefix_incl seen : seen `prefix_of` all -> seen ⊆ all /\ Z.of_nat (length (List.filter asking seen)) <= Z.of_nat (length (List.filter asking all)).
Proof. intros [rest ->]. rewrite List.filter_app, length_app. split; [set_solver | lia]. Qed.

Lemma prefix_left {A} (l1 l2 l : list A) : l1 ++ l2 `prefix_of` l -> l1 `prefix_of` l.
Proof. intros [r ->]. rewrite <- (assoc_L (++)). by apply prefix_app_r. Qed.

Lemma collect_set_spec c0 failed slots : forall i seen ent s,
  (forall i, failed i = false) -> ry_status c0 <> REMASTER_FAIL -> collecting c0 seen ent s -> seen ++ ctrls_of slots `prefix_of` all ->
  exists ent' s', collect_set self_id old_master new_master send_ok failed inst_id i slots s = Done (true, s') /\ collecting c0 (seen ++ ctrls_of slots) ent' s'.
Proof.
  induction slots as [| slot slots IH]; intros i seen ent s Hf Hst Hc Hpre.
  - exists ent, s. cbn. by rewrite app_nil_r.
  - cbn [collect_set]. rewrite Hf, bool_decide_eq_false_2 by (by rewrite (cl_status _ _ _ _ Hc)). cbn [orb]. destruct slot as [ctrl |].
    + cbn in Hpre. change (ctrls_of (Some ctrl :: slots)) with (ctrl :: ctrls_of slots). rewrite cons_middle, (assoc_L (++)) in *.
      destruct (prefix_incl (seen ++ [ctrl]) (prefix_left _ _ _ Hpre)) as [Hsub Hask].
      destruct (collect_one c0 seen ent s ctrl Hc Hsub Hask) as (ent1 & s1 & -> & Hc1). ostep. by apply (IH (i + 1) (seen ++ [ctrl]) ent1 s1).
    + cbn in Hpre |- *. by apply (IH (i + 1) seen ent s).
Qed.

Definition ctrls_in (sets : list (list (option buf_ctrl))) : list buf_ctrl := ctrls_of (concat sets).

Lemma ctrls_in_cons slots sets : ctrls_in (slots :: sets) = ctrls_of slots ++ ctrls_in sets.
Proof. unfold ctrls_in, ctrls_of. cbn. by rewrite omap_app. Qed.

Lemma ctrls_in_app l1 l2 : ctrls_in (l1 ++ l2) = ctrls_in l1 ++ ctrls_in l2.
Proof. unfold ctrls_in, ctrls_of. by rewrite concat_app, omap_app. Qed.

Lemma collect_sets_spec c0 failed sets n : forall j seen ent s,
  (forall j i, failed j i = false) -> ry_status c0 <> REMASTER_FAIL -> 0 <= j -> j + Z.of_nat n <= Z.of_nat (length sets) -> collecting c0 seen ent s ->
  seen ++ ctrls_in (slice j (j + Z.of_nat n) sets) `prefix_of` all ->
  exists ent' s', collect_sets self_id old_master new_master send_ok failed inst_id n j sets s = Done (true, s') /\
    collecting c0 (seen ++ ctrls_in (slice j (j + Z.of_nat n) sets)) ent' s'.
Proof.
  induction n as [| n IH]; intros j seen ent s Hf Hst Hj Hlen Hc Hpre.
  - exists ent, s. split; [done |]. rewrite Z.add_0_r, slice_nil. cbn. by rewrite app_nil_r.
  - destruct (lookup_lt_is_Some_2 sets (Z.to_nat j)) as [slots Hslots]; [lia |]. assert (Hz : sets.[j] = Some slots) by (by apply lookupZ_Some).
    rewrite (slice_cons j n sets slots Hj Hz), ctrls_in_cons, (assoc_L (++)) in *. cbn [collect_sets]. rewrite (arr_get_eq _ _ _ Hz). ostep.
    destruct (collect_set_spec c0 (failed j) slots 0 seen ent s (Hf j) Hst Hc (prefix_left _ _ _ Hpre)) as (ent1 & s1 & -> & Hc1). ostep. cbn [negb].
    apply (IH (j + 1) _ ent1 s1); try done; lia.
Qed.

(** The rest of the buffers. *)
Lemma send_rest_spec c0 seen n : forall i ent s,
  i + Z.of_nat n = CT_MAX_INSTANCES -> 0 <= i -> seen ⊆ all -> collecting c0 seen ent s -> (forall m, 0 <= m < i -> (co_batch s).[m] = Some []) ->
  exists ent' s', send_rest_loop self_id send_ok n i s = Done s' /\ collecting c0 seen ent' s' /\
    forall m, 0 <= m < CT_MAX_INSTANCES -> (co_batch s').[m] = Some [].
Proof.
  induction n as [| n IH]; intros i ent s Hin Hi Hsub Hc Hdone.
  - exists ent, s. split; [done |]. split; [done |]. intros m Hm. apply Hdone. lia.
  - pose proof Hc as []. assert (Hok : inst_ok i) by (unfold inst_ok; lia).
    destruct (lookupZ_is_Some (co_batch s) i) as [buf Hbuf]; [rewrite cl_len0; unfold CT_MAX_INSTANCES in *; lia |].
    cbn [send_rest_loop]. rewrite (arr_get_eq _ _ _ Hbuf). ostep. destruct (cl_batch0 i buf Hbuf) as [Hlen Hinf].
    destruct (Z.eqb_spec (Z.of_nat (length buf)) 0) as [Hz | Hz].
    + apply (IH (i + 1) ent s); try done; [lia | lia |]. intros m Hm. destruct (decide (m = i)) as [-> | Hne]; [| apply Hdone; lia].
      destruct buf; [done | cbn in Hz; lia].
    + destruct (send_one c0 seen ent s i buf Hc Hsub Hok) as (c' & sent' & Hrun & Hmsgs & Hst & Htask & Hrec & Htold); [intros -> ; by destruct Hz | lia | |].
      { intros Em. rewrite Em, Z.eqb_refl in Hinf. rewrite <- Hinf, <- Em. by apply infos_incl. }
      rewrite Hrun. ostep. rewrite (arr_set_eq _ _ _ _ Hbuf). ostep.
      apply (IH (i + 1) (if i =? self_id then ent ++ buf else ent)); [lia | lia | done | constructor; cbn [co_batch co_sent co_ctx co_reqs]; try done |].
      * by rewrite length_insertZ.
      * intros m' buf' Hb'. destruct (Z.eqb_spec i m') as [<- | Hne].
        -- rewrite lookupZ_insertZ_eq in Hb' by (by eapply lookupZ_lt). injection Hb' as <-. split; [done |]. rewrite app_nil_r, Hinf.
           destruct (Z.eqb_spec i self_id) as [Em | Em]; [done |]. by rewrite Htold, Z.eqb_refl.
        -- rewrite lookupZ_insertZ_ne in Hb' by done. destruct (cl_batch0 m' buf' Hb') as [Hl' ->]. split; [done |].
           destruct (Z.eqb_spec m' self_id) as [-> | Hns]; [by rewrite (proj2 (Z.eqb_neq i self_id)) |]. rewrite Htold by done.
           rewrite (proj2 (Z.eqb_neq i m')) by done. by rewrite app_nil_r.
      * cbn. intros m Hm. destruct (decide (m = i)) as [-> | Hne]; [apply lookupZ_insertZ_eq; by eapply lookupZ_lt |].
        rewrite lookupZ_insertZ_ne by done. apply Hdone. lia.
Qed.

(** All buffers are empty. *)
Definition flushed c0 seen ent s : Prop := collecting c0 seen ent (mk_collect (co_ctx s) drc_init_batch_buf (co_sent s) (co_reqs s)).

Lemma all_empty (batch : list (list page_info)) :
  length batch = Z.to_nat CT_MAX_INSTANCES -> (forall m, 0 <= m < CT_MAX_INSTANCES -> batch.[m] = Some []) -> batch = drc_init_batch_buf.
Proof.
  intros Hlen Hall. apply list_eq. intros j. unfold drc_init_batch_buf. destruct (decide (j < Z.to_nat CT_MAX_INSTANCES)%nat) as [Hj | Hj].
  - rewrite lookup_replicate_2 by done. specialize (Hall (Z.of_nat j)). rewrite <- (Nat2Z.id j). apply lookupZ_Some, Hall. lia.
  - rewrite !lookup_ge_None_2; [done | rewrite length_replicate; lia | lia].
Qed.

Lemma thread_spec c0 failed sets start cnt seen ent s :
  (forall j i, failed j i = false) -> ry_status c0 <> REMASTER_FAIL -> 0 <= start -> 0 <= cnt -> start + cnt <= Z.of_nat (length sets) -> flushed c0 seen ent s ->
  seen ++ ctrls_in (slice start (start + cnt) sets) `prefix_of` all ->
  exists ent' s', drc_collect_page_info self_id old_master new_master send_ok failed true inst_id start cnt sets s = Done s' /\
    flushed c0 (seen ++ ctrls_in (slice start (start + cnt) sets)) ent' s'.
Proof.
  intros Hf Hst Hs Hcnt Hlen Hc Hpre. unfold drc_collect_page_info. cbn [negb].
  destruct (collect_sets_spec c0 failed sets (Z.to_nat cnt) start seen ent _ Hf Hst Hs ltac:(lia) Hc) as (ent1 & s1 & -> & Hc1); rewrite Z2Nat.id in * by done; [done |].
  ostep. cbn [negb]. unfold drc_send_rest_page_info.
  destruct (send_rest_spec c0 _ (Z.to_nat CT_MAX_INSTANCES) 0 ent1 s1 ltac:(done) ltac:(done) (proj1 (prefix_incl _ Hpre)) Hc1) as (ent2 & s2 & -> & Hc2 & He2); [intros m Hm; lia |].
  exists ent2, s2. split; [done |]. unfold flushed. rewrite <- (all_empty (co_batch s2) (cl_len _ _ _ _ Hc2) He2). by destruct s2.
Qed.

(** The threads from number [i] on: they share out the buffer sets. *)
Lemma threads_spec c0 failed sets k : forall i seen ent s,
  (forall j i, failed j i = false) -> ry_status c0 <> REMASTER_FAIL -> 0 <= i -> i + Z.of_nat k = DRC_REMASTER_RCY_MAX_THREAD_NUM ->
  let n := Z.of_nat (length sets) in
  let start := if (k =? 0)%nat then n else i * (n / DRC_REMASTER_RCY_MAX_THREAD_NUM) in
  flushed c0 seen ent s -> seen ++ ctrls_in (slice start n sets) `prefix_of` all ->
  exists ent' s', collect_threads self_id old_master new_master send_ok failed true inst_id (replicate k true) i sets s = Done (CT_SUCCESS, s') /\
    flushed c0 (seen ++ ctrls_in (slice start n sets)) ent' s'.
Proof.
  induction k as [| k IH]; intros i seen ent s Hf Hst Hi Hik n start Hc Hpre; change DRC_REMASTER_RCY_MAX_THREAD_NUM with 16 in *.
  - exists ent, s. split; [done |]. subst start. cbn [Nat.eqb]. rewrite slice_nil. cbn. by rewrite app_nil_r.
  - assert (Hq : 0 <= n / 16) by (apply Z.div_pos; lia). pose proof (Z.div_mod n 16) as Hdm. pose proof (Z.mod_pos_bound n 16) as Hm.
    set (cnt := snd (rcy_thread_range n i)). set (nexts := if (k =? 0)%nat then n else (i + 1) * (n / 16)).
    assert (Hcnt : 0 <= cnt /\ i * (n / 16) + cnt = nexts /\ nexts <= n).
    { subst cnt nexts. unfold rcy_thread_range, DRC_REMASTER_RCY_MAX_THREAD_NUM. cbn [snd].
      destruct k; cbn [Nat.eqb]; (destruct (Z.eqb_spec i (16 - 1)); [try lia |]; try lia). }
    destruct Hcnt as (Hc0 & Hc1 & Hc2). subst start. cbn [Nat.eqb] in *.
    assert (Hsplit : ctrls_in (slice (i * (n / 16)) n sets) = ctrls_in (slice (i * (n / 16)) (i * (n / 16) + cnt) sets) ++ ctrls_in (slice nexts n sets)).
    { rewrite <- ctrls_in_app, Hc1, slice_app; [done | nia | done]. }
    rewrite Hsplit, (assoc_L (++)) in Hpre |- *.
    destruct (thread_spec c0 failed sets (i * (n / 16)) cnt seen ent s Hf Hst) as (ent1 & s1 & Hrun & Hf1);
      [nia | done | lia | done | exact (prefix_left _ _ _ Hpre) |].
    cbn [replicate collect_threads]. fold n. change (rcy_thread_range n i) with (i * (n / 16), cnt). cbv beta iota. rewrite Hrun. ostep.
    apply (IH (i + 1) _ ent1 s1); try done; lia.
Qed.

(** The whole report. *)
Lemma handle_buf_spec c0 failed sets :
  (forall j i, failed j i = false) -> ry_status c0 <> REMASTER_FAIL -> all = ctrls_in sets -> recovering pool g0 reps0 c0 ->
  exists ent s', drc_handle_buf_res_recovery self_id old_master new_master send_ok failed true (replicate 16 true) inst_id sets (mk_collect c0 drc_init_batch_buf [] reqs0) =
      Done (CT_SUCCESS, s') /\ flushed c0 all ent s'.
Proof.
  intros Hf Hst Hall Hrec.
  destruct (threads_spec c0 failed sets 16 0 [] [] (mk_collect c0 drc_init_batch_buf [] reqs0) Hf Hst ltac:(done) ltac:(done)) as (ent & s' & Hrun & Hfl).
  - constructor; cbn [co_batch co_sent co_ctx co_reqs]; try done.
    + intros m buf [_ Hb]%lookupZ_Some. apply lookup_replicate_1 in Hb as [-> _]. split; [done |]. by destruct (m =? self_id).
    + cbn. by rewrite app_nil_r.
    + cbn. lia.
    + cbn. by rewrite app_nil_r.
  - cbn [Nat.eqb app]. by rewrite Z.mul_0_l, slice_all, <- Hall.
  - cbn [Nat.eqb app] in Hfl. rewrite Z.mul_0_l, slice_all, <- Hall in Hfl. by exists ent, s'.
Qed.

(** What a report that is complete amounts to. *)
Lemma flushed_all c0 seen ent s m : flushed c0 seen ent s -> inst_ok m -> infos_for m seen = if m =? self_id then ent else told m (co_sent s).
Proof.
  intros Hfl Hm. destruct (cl_batch _ _ _ _ Hfl m []) as [_ H]; [| by rewrite app_nil_r in H]. cbn [co_batch]. unfold drc_init_batch_buf, inst_ok in *.
  apply lookupZ_Some. split; [lia |]. apply lookup_replicate_2. lia.
Qed.
End reporter.
End send.
