(* ===== verification/RcyThms.v ===== *)
(** * Recovery of the catalog: properties

    The instances that stay as a system of steps: each reports its buffer once,
    reports and acknowledgements are delivered in any order, and a report may
    be dropped for want of memory.  When every instance has its reports
    acknowledged, the catalogs say what the buffers of the cluster say; and
    that point can be reached from everywhere unless a report was dropped.
    Then the wait of the recovery step, and the recovery of locks.
    Source: src/pkg/src/cluster/dtc_drc.c. *)

From stdpp Require Import prelude list gmap relations.
From S2P Require Import Prelude Bitmap ResPool DrcList ResMap ConvertQ GlobalRes DrcTypes DrcPage PageInv BufCtrl DrcPart DrcMgrt MgrtProps DrcRcy RcyProps RcySend.

Open Scope Z_scope.
Open Scope drc_scope.

(** ** The instances that stay *)

(** [rn_done] have reported; [rn_net] and [rn_acks] are the reports and the
    acknowledgements (by their destination) under way, [rn_lost] the reports
    that were dropped by their receiver. *)
Record rcy_cluster := mk_rcl {
  rn_node : Z -> rcy_ctx; rn_done : list Z; rn_net : list (rcy_msg page_info); rn_acks : list Z; rn_lost : list (rcy_msg page_info);
}.

Definition node_put (i : Z) (c : rcy_ctx) (f : Z -> rcy_ctx) : Z -> rcy_ctx := fun j => if decide (j = i) then c else f j.

Lemma node_put_eq i c f : node_put i c f i = c.
Proof. unfold node_put. by rewrite decide_True. Qed.
Lemma node_put_ne i j c f : j <> i -> node_put i c f j = f j.
Proof. intros H. unfold node_put. by rewrite decide_False. Qed.

Section cluster.
Context `{HA : KernelAttr}.
Context (nodes : list Z) (cluster_nodes : Z) (rc : reform_status) (old_master new_master : Z -> Z) (aborted : Z).
Context (buffers : Z -> list (list (option buf_ctrl))).

Inductive rcy_step : rcy_cluster -> rcy_cluster -> Prop :=
| step_report i f don net acks lost st s :
    i ∈ nodes -> i ∉ don ->
    drc_handle_buf_res_recovery i old_master new_master (fun _ _ => true) (fun _ _ => false) true (replicate 16 true) aborted (buffers i)
      (mk_collect (f i) drc_init_batch_buf [] []) = Done (st, s) ->
    rcy_step (mk_rcl f don net acks lost) (mk_rcl (node_put i (co_ctx s) f) (i :: don) (net ++ co_sent s) acks lost)
| step_deliver m f don n1 n2 acks lost malloc_ok c (acked : bool) :
    drc_process_send_page_info cluster_nodes rc malloc_ok m (f (rm_dst m)) = Done (acked, c) ->
    rcy_step (mk_rcl f don (n1 ++ m :: n2) acks lost)
      (mk_rcl (node_put (rm_dst m) c f) don (n1 ++ n2) (if acked then rm_src m :: acks else acks) (if acked then lost else m :: lost))
| step_ack i f don net a1 a2 lost :
    rcy_step (mk_rcl f don net (a1 ++ i :: a2) lost)
      (mk_rcl (node_put i (drc_process_remaster_recovery_task_ack cluster_nodes rc (f i)) f) don net (a1 ++ a2) lost).

(** What the buffers say.  Instance [i], which stays, has [ctrl] for a page of
    the failed instance whose new master is [m], and has the page locked or an
    earlier dirty version of it. *)
Record held_at (m i : Z) (ctrl : buf_ctrl) : Prop := mk_held_at {
  ha_node : i ∈ nodes;
  ha_ctrl : ctrl ∈ ctrls_in (buffers i);
  ha_old : drc_get_page_master_id old_master (bc_page_id ctrl) = Some aborted;
  ha_new : drc_get_page_remaster_id new_master (bc_page_id ctrl) = m;
  ha_some : bc_lock_mode ctrl <> DRC_LOCK_NULL \/ bc_is_edp ctrl = true;
}.

(** Instance [i] has page [k] in a way that [Q] describes. *)
Definition buffered (Q : buf_ctrl -> Prop) (m : Z) (k : page_id_t) (i : Z) : Prop := exists ctrl, held_at m i ctrl /\ bc_page_id ctrl = k /\ Q ctrl.

(** Resource [b] of master [m] says of page [k] what the buffers say: the
    exclusive owner, the read-only copies, the earlier dirty pages, which of
    them is the latest, and the mode; nobody converts it. *)
Record page_recovered (m : Z) (k : page_id_t) (b : drc_buf_res) : Prop := mk_page_recovered {
  pr_page : br_page_id b = k;
  pr_owner : forall i, inst_ok i -> br_claimed_owner b = i <-> buffered (fun c => bc_lock_mode c = DRC_LOCK_EXCLUSIVE) m k i;
  pr_none : br_claimed_owner b = CT_INVALID_ID8 \/ inst_ok (br_claimed_owner b);
  pr_copies : forall i, i ∈ inst_set (br_readonly_copies b) <-> buffered (fun c => bc_lock_mode c = DRC_LOCK_SHARE) m k i;
  pr_edps : forall i, i ∈ inst_set (br_edp_map b) <-> buffered (fun c => bc_is_edp c = true) m k i;
  pr_latest : forall i c, held_at m i c -> bc_page_id c = k -> bc_is_edp c = true ->
    ph_lsn (bc_page c) <= br_latest_edp_lsn b /\
    buffered (fun c' => bc_is_edp c' = true /\ ph_lsn (bc_page c') = br_latest_edp_lsn b) m k (br_latest_edp b);
  pr_unwritten : (forall i, ~ buffered (fun c => bc_is_edp c = true) m k i) -> br_latest_edp b = CT_INVALID_ID8 /\ br_latest_edp_lsn b = 0;
  pr_mode : forall i c, held_at m i c -> bc_page_id c = k -> bc_lock_mode c <> DRC_LOCK_NULL -> br_mode b = bc_lock_mode c;
  pr_unlocked : (forall i c, held_at m i c -> bc_page_id c = k -> bc_lock_mode c = DRC_LOCK_NULL) -> br_mode b = DRC_LOCK_NULL;
  pr_idle : req_inst_id (converting_req b) = CT_INVALID_ID8;
}.

(** Each instance has a page in one of the three modes, exclusively only
    alone, and an earlier dirty page was written to. *)
Record coherent (m : Z) : Prop := mk_coherent {
  ch_mode : forall i c, held_at m i c -> bc_lock_mode c ∈ [DRC_LOCK_NULL; DRC_LOCK_SHARE; DRC_LOCK_EXCLUSIVE];
  ch_lsn : forall i c, held_at m i c -> bc_is_edp c = true -> 0 < ph_lsn (bc_page c);
  ch_excl : forall i c j d, held_at m i c -> held_at m j d -> bc_page_id c = bc_page_id d -> bc_lock_mode c = DRC_LOCK_EXCLUSIVE ->
    bc_lock_mode d <> DRC_LOCK_NULL -> i = j /\ bc_lock_mode d = DRC_LOCK_EXCLUSIVE;
}.

(** The reports for master [m]. *)
Definition holdings (m : Z) : list report :=
  flat_map (fun i => List.map (pair i) (infos_for old_master new_master aborted m (ctrls_in (buffers i)))) nodes.

Lemma elem_of_holdings m i p : (i, p) ∈ holdings m <-> i ∈ nodes /\ p ∈ infos_for old_master new_master aborted m (ctrls_in (buffers i)).
Proof.
  unfold holdings. rewrite list_elem_of_In, in_flat_map. setoid_rewrite in_map_iff. setoid_rewrite <- list_elem_of_In. split.
  - intros (j & Hj & q & [= -> ->] & Hp). done.
  - intros [Hi Hp]. exists i. split; [done |]. by exists p.
Qed.

Lemma to_master_spec m ctrl : to_master old_master new_master aborted m ctrl = true <->
  drc_get_page_master_id old_master (bc_page_id ctrl) = Some aborted /\ drc_get_page_remaster_id new_master (bc_page_id ctrl) = m /\
  (bc_lock_mode ctrl <> DRC_LOCK_NULL \/ bc_is_edp ctrl = true).
Proof.
  unfold to_master, worth. rewrite !andb_true_iff, negb_true_iff, bool_decide_eq_true, andb_false_iff, negb_false_iff, Z.eqb_neq, Z.eqb_eq. tauto.
Qed.

(** A report says what the control says. *)
Lemma holdings_held m i p : (i, p) ∈ holdings m <->
  exists c, held_at m i c /\ pf_page_id p = bc_page_id c /\ pf_lock_mode p = bc_lock_mode c /\ pf_is_edp p = bc_is_edp c /\ pf_lsn p = ph_lsn (bc_page c).
Proof.
  rewrite elem_of_holdings. unfold infos_for. rewrite (list_elem_of_In _ p), in_map_iff. setoid_rewrite filter_In. setoid_rewrite to_master_spec.
  setoid_rewrite <- list_elem_of_In. split.
  - intros (Hi & c & <- & Hc & Ho & Hn & Hs). exists c. split; [by constructor | done].
  - intros (c & [] & H1 & H2 & H3 & H4). split; [done |]. exists c. split; [destruct p; cbn in *; by subst | done].
Qed.

Lemma says_buffered Q Q' m k i :
  (forall p c, pf_lock_mode p = bc_lock_mode c -> pf_is_edp p = bc_is_edp c -> pf_lsn p = ph_lsn (bc_page c) -> Q p <-> Q' c) ->
  says Q (holdings m) k i <-> buffered Q' m k i.
Proof.
  intros HQ. split.
  - intros (p & (c & Hc & H1 & H2 & H3 & H4)%holdings_held & <- & Hq). exists c. split; [done |]. split; [done |]. by apply (HQ p c).
  - intros (c & Hc & <- & Hq). exists (ctrl_info c). split; [apply holdings_held; by exists c |]. split; [done |]. by apply (HQ _ c).
Qed.

Lemma reported_held m k : reported (holdings m) k <-> exists i c, held_at m i c /\ bc_page_id c = k.
Proof.
  split.
  - intros (i & p & (c & Hc & H1 & _)%holdings_held & <-). by exists i, c.
  - intros (i & c & Hc & <-). exists i, (ctrl_info c). split; [apply holdings_held; by exists c | done].
Qed.

Lemma tells_recovered m k b : tells (holdings m) k b -> page_recovered m k b.
Proof.
  intros []. assert (Hin : forall i c, held_at m i c -> (i, ctrl_info c) ∈ holdings m) by (intros i c Hc; apply holdings_held; by exists c).
  assert (Hx : forall i, says has_x (holdings m) k i <-> buffered (fun c => bc_lock_mode c = DRC_LOCK_EXCLUSIVE) m k i)
    by (intros i; apply says_buffered; unfold has_x; by intros p c -> _ _).
  assert (Hs : forall i, says has_s (holdings m) k i <-> buffered (fun c => bc_lock_mode c = DRC_LOCK_SHARE) m k i)
    by (intros i; apply says_buffered; unfold has_s; by intros p c -> _ _).
  assert (He : forall i, says has_edp (holdings m) k i <-> buffered (fun c => bc_is_edp c = true) m k i)
    by (intros i; apply says_buffered; unfold has_edp; by intros p c _ -> _).
  constructor; [done | | done | | | | | | | by apply te_idle].
  - intros i Hi. rewrite <- Hx. by apply te_owner.
  - intros i. rewrite <- Hs. apply te_copies.
  - intros i. rewrite <- He. apply te_edps.
  - intros i c Hc Hk Hec. destruct (te_latest i _ (Hin i c Hc) Hk Hec) as [Hle Hl]. split; [exact Hle |]. revert Hl. apply says_buffered.
    unfold has_edp. by intros p c' _ -> ->.
  - intros Hno. apply te_unwritten. intros i. by rewrite He.
  - intros i c Hc Hk. exact (te_mode i _ (Hin i c Hc) Hk).
  - intros Hno. apply te_unlocked. intros i p (c & Hc & H1 & -> & _)%holdings_held Hk. apply (Hno i c Hc). congruence.
Qed.

Lemma coherent_reports m : (forall i, i ∈ nodes -> inst_ok i) -> coherent m -> reports_ok (holdings m).
Proof.
  intros Hok []. constructor.
  - intros i p (c & [] & _)%holdings_held. by apply Hok.
  - intros i p (c & Hc & _ & Hm & _)%holdings_held. unfold has_s, has_x. rewrite Hm. pose proof (ch_mode0 i c Hc) as Hin.
    rewrite !elem_of_cons in Hin. destruct Hin as [? | [? | [? | []%not_elem_of_nil]]]; auto.
  - intros i p (c & [] & _ & -> & -> & _)%holdings_held E. by destruct ha_some0.
  - intros i p (c & Hc & _ & _ & -> & ->)%holdings_held. by apply (ch_lsn0 i).
  - intros i p j q (c & Hc & H1 & H2 & _)%holdings_held (d & Hd & H3 & H4 & _)%holdings_held. unfold has_x. rewrite H1, H2, H3, H4. by apply ch_excl0.
Qed.

Context (pool : Z -> lock_pool) (pages : Z -> list page_id_t) (init : Z -> rcy_ctx).

(** At the start: the masters have room, nothing of the pages and no report
    under way, and the buffers are coherent. *)
Record can_recover : Prop := mk_can_recover {
  cv_cluster : 2 < cluster_nodes;
  cv_node : forall i, i ∈ nodes -> inst_ok i /\ i < cluster_nodes;
  cv_master : forall h, new_master h ∈ nodes;
  cv_reform : reform_num REFORM_FROZEN <= reform_num rc < reform_num REFORM_RECOVER_DONE;
  cv_status : forall i, i ∈ nodes -> ry_status (init i) <> REMASTER_FAIL /\ ry_status (init i) <> REMASTER_DONE;
  cv_tasks : forall i, i ∈ nodes -> ry_task_num (init i) = 0 /\ ry_complete_num (init i) = 0;
  cv_room : forall i, i ∈ nodes -> can_rebuild (pool i) (ry_buf (init i)) (pages i) /\ forall j c, held_at i j c -> bc_page_id c ∈ pages i;
  cv_coherent : forall i, i ∈ nodes -> coherent i;
  cv_reqs : forall i, i ∈ nodes -> Z.of_nat (length (List.filter asking (ctrls_in (buffers i)))) <= CT_MAX_SESSIONS;
}.

Lemma can_about i : can_recover -> i ∈ nodes -> about (pages i) (holdings i).
Proof. intros [] Hi j p (c & Hc & -> & _)%holdings_held. by apply (proj2 (cv_room0 i Hi) j). Qed.

Lemma can_reports i : can_recover -> i ∈ nodes -> reports_ok (holdings i).
Proof. intros [] Hi. apply coherent_reports; [intros j Hj; by apply cv_node0 | by apply cv_coherent0]. Qed.

Definition rcy_init : rcy_cluster := mk_rcl init [] [] [] [].

(** *** The invariant *)

Definition from (i : Z) (msgs : list (rcy_msg page_info)) : Z := Z.of_nat (length (List.filter (fun m => rm_src m =? i) msgs)).
Definition acks_to (i : Z) (acks : list Z) : Z := Z.of_nat (length (List.filter (Z.eqb i) acks)).

(** A report under way or lost. *)
Definition carries (i m : Z) (p : page_info) (msgs : list (rcy_msg page_info)) : Prop :=
  exists x, x ∈ msgs /\ rm_src x = i /\ rm_dst x = m /\ p ∈ rm_infos x.

(** What master [m] has entered: [reps]. *)
Record node_ok (cl : rcy_cluster) (m : Z) : Prop := mk_node_ok {
  no_reps : exists reps, recovering (pool m) (ry_buf (init m)) reps (rn_node cl m) /\ reps ⊆ holdings m /\
    forall i p, (i, p) ∈ holdings m -> i ∈ rn_done cl -> (i, p) ∈ reps \/ carries i m p (rn_net cl ++ rn_lost cl);
  no_status : ry_status (rn_node cl m) = ry_status (init m);
  no_count : ry_task_num (rn_node cl m) = ry_complete_num (rn_node cl m) + from m (rn_net cl) + acks_to m (rn_acks cl) + from m (rn_lost cl);
}.

Definition msg_ok (x : rcy_msg page_info) : Prop :=
  rm_src x ∈ nodes /\ rm_dst x ∈ nodes /\ report_msg (rm_src x) x /\ List.map (pair (rm_src x)) (rm_infos x) ⊆ holdings (rm_dst x).

Record cluster_ok (cl : rcy_cluster) : Prop := mk_cluster_ok {
  co_nodes : forall m, m ∈ nodes -> node_ok cl m;
  co_net : Forall msg_ok (rn_net cl);
  co_acks : Forall (fun i => i ∈ nodes) (rn_acks cl);
}.

Lemma from_app i l1 l2 : from i (l1 ++ l2) = from i l1 + from i l2.
Proof. unfold from. rewrite List.filter_app, length_app. lia. Qed.
Lemma from_cons i x l : from i (x :: l) = (if rm_src x =? i then 1 else 0) + from i l.
Proof. unfold from. cbn. destruct (rm_src x =? i); cbn [length]; lia. Qed.
Lemma from_pos i l : 0 <= from i l.
Proof. unfold from. lia. Qed.
Lemma acks_to_app i l1 l2 : acks_to i (l1 ++ l2) = acks_to i l1 + acks_to i l2.
Proof. unfold acks_to. rewrite List.filter_app, length_app. lia. Qed.
Lemma acks_to_cons i x l : acks_to i (x :: l) = (if x =? i then 1 else 0) + acks_to i l.
Proof. unfold acks_to. cbn. rewrite Z.eqb_sym. destruct (x =? i); cbn [length]; lia. Qed.
Lemma acks_to_pos i l : 0 <= acks_to i l.
Proof. unfold acks_to. lia. Qed.

Lemma from_all i l : Forall (fun x => rm_src x = i) l -> from i l = Z.of_nat (length l).
Proof. induction 1 as [| x l Hx Hl IH]; [done |]. rewrite from_cons, Hx, Z.eqb_refl, IH. cbn [length]. lia. Qed.
Lemma from_none i j l : Forall (fun x => rm_src x = i) l -> i <> j -> from j l = 0.
Proof. intros Hl Hne. induction Hl as [| x l Hx Hl IH]; [done |]. rewrite from_cons, Hx, IH. by rewrite (proj2 (Z.eqb_neq i j)). Qed.

Lemma carries_mono i m p l l' : (forall x, x ∈ l -> x ∈ l') -> carries i m p l -> carries i m p l'.
Proof. intros Hsub (x & Hx & H). exists x. split; [by apply Hsub | done]. Qed.

Lemma cluster_init : can_recover -> cluster_ok rcy_init.
Proof.
  intros []. split; [| constructor | constructor]. intros m Hm. split; [| done |].
  - exists []. destruct (cv_room0 m Hm) as [Hcan _]. split; [by eapply recovering_init |]. split; [apply list_subseteq_nil |]. intros i p _ Hi. by apply not_elem_of_nil in Hi.
  - unfold from, acks_to. cbn. destruct (cv_tasks0 m Hm). lia.
Qed.

(** *** Each step *)

(** Delivering a report: entered and acknowledged, unless there is no memory. *)
Lemma report_delivered x reps c malloc_ok :
  can_recover -> msg_ok x -> ry_status c <> REMASTER_DONE -> recovering (pool (rm_dst x)) (ry_buf (init (rm_dst x))) reps c -> reps ⊆ holdings (rm_dst x) ->
  exists c', drc_process_send_page_info cluster_nodes rc malloc_ok x c = Done (malloc_ok, c') /\
    recovering (pool (rm_dst x)) (ry_buf (init (rm_dst x))) (if malloc_ok then reps ++ List.map (pair (rm_src x)) (rm_infos x) else reps) c' /\
    c' = rcy_set_buf (ry_buf c') c.
Proof.
  intros Hcr. pose proof (fun i => can_about i Hcr) as Habout. pose proof (fun i => can_reports i Hcr) as Hreports. destruct Hcr.
  intros (Hsrc & Hdst & (d & buf & Hx & Hd & Hne & _ & Hlen) & Hinf) Hst Hrec Hsub. set (src := rm_src x) in *. set (dst := rm_dst x) in *.
  assert (Hu : u16 (sizeof_msg_page_info + sizeof_page_info * Z.of_nat (length buf)) = sizeof_msg_page_info + sizeof_page_info * Z.of_nat (length buf)).
  { apply Z.mod_small. unfold sizeof_msg_page_info, sizeof_page_info in *. change DRC_PAGE_CACHE_INFO_BATCH_CNT with 1250 in Hlen. lia. }
  rewrite Hx in Hinf. cbn [rm_infos page_info_msg] in Hinf.
  unfold drc_process_send_page_info, dtc_check_send_page_info_msg. rewrite Hx. cbn [rm_size rm_count rm_buffer_len rm_infos rm_src page_info_msg]. rewrite Hu.
  unfold sizeof_msg_page_info, sizeof_page_info. rewrite (proj2 (Z.ltb_ge _ _)) by lia. rewrite (Z.mul_comm 24), Z.eqb_refl, Z.eqb_refl. cbn [negb].
  destruct (cv_node0 src Hsrc) as [_ Hsn]. rewrite (proj2 (Z.leb_gt cluster_nodes 2)) by lia. rewrite bool_decide_eq_false_2 by done.
  rewrite (proj2 (Z.ltb_ge (reform_num rc) _)), (proj2 (Z.leb_gt _ (reform_num rc))) by lia. rewrite (proj2 (Z.ltb_ge DRC_PAGE_CACHE_INFO_BATCH_CNT _)) by lia.
  rewrite (proj2 (Z.leb_gt cluster_nodes src)) by lia. cbn [orb negb]. destruct malloc_ok; cbn [negb]; [| exists c; split; [done |]; split; [done | by destruct c]].
  destruct (cv_room0 dst Hdst) as [Hcan _]. pose proof (Habout dst Hdst) as Hab.
  assert (Hall : reps ++ List.map (pair src) buf ⊆ holdings dst) by (intros r [Hr | Hr]%elem_of_app; [by apply Hsub | by apply Hinf]).
  destruct (recovering_step (pool dst) (ry_buf (init dst)) (pages dst) reps src buf c) as (c' & -> & Hrec' & Hc'); try done.
  { intros j q Hq. apply (Hab j), Hall, Hq. } { eapply reports_ok_sub; [exact Hall | by apply Hreports]. }
  ostep. by exists c'.
Qed.

(** Reporting: every page of the buffer in a report for its master. *)
Lemma report_spec i reps c :
  can_recover -> i ∈ nodes -> ry_status c <> REMASTER_FAIL -> recovering (pool i) (ry_buf (init i)) reps c -> reps ⊆ holdings i ->
  exists s, drc_handle_buf_res_recovery i old_master new_master (fun _ _ => true) (fun _ _ => false) true (replicate 16 true) aborted (buffers i)
      (mk_collect c drc_init_batch_buf [] []) = Done (CT_SUCCESS, s) /\
    let mine m := infos_for old_master new_master aborted m (ctrls_in (buffers i)) in
    recovering (pool i) (ry_buf (init i)) (reps ++ List.map (pair i) (mine i)) (co_ctx s) /\
    (forall m, inst_ok m -> m <> i -> told m (co_sent s) = mine m) /\ Forall (report_msg i) (co_sent s) /\
    ry_status (co_ctx s) = ry_status c /\ ry_complete_num (co_ctx s) = ry_complete_num c /\
    ry_task_num (co_ctx s) = ry_task_num c + Z.of_nat (length (co_sent s)).
Proof.
  intros Hcr. pose proof (fun i => can_about i Hcr) as Habout. pose proof (fun i => can_reports i Hcr) as Hreports. destruct Hcr.
  intros Hi Hst Hrec Hsub. destruct (cv_room0 i Hi) as [Hcan _]. pose proof (Habout i Hi) as Hab. destruct (cv_node0 i Hi) as [Hok _].
  assert (Hall : reps ++ List.map (pair i) (infos_for old_master new_master aborted i (ctrls_in (buffers i))) ⊆ holdings i).
  { intros r [Hr | Hr]%elem_of_app; [by apply Hsub |]. apply list_elem_of_In, in_map_iff in Hr as (p & <- & Hp). apply elem_of_holdings. split; [done |]. by apply list_elem_of_In. }
  destruct (handle_buf_spec i old_master new_master (fun _ _ => true) aborted Hok (fun h => proj1 (cv_node0 _ (cv_master0 h))) (fun _ _ => eq_refl)
    (pool i) (ry_buf (init i)) (pages i) reps (ctrls_in (buffers i)) [] Hcan) with (c0 := c) (failed := fun _ _ : Z => false) (sets := buffers i) as (ent & s & Hrun & Hfl); try done.
  { intros j q Hq. apply (Hab j), Hall, Hq. } { eapply reports_ok_sub; [exact Hall | by apply Hreports]. } { cbn [length]. specialize (cv_reqs0 i Hi). lia. }
  exists s. split; [done |]. intros mine. assert (Hm : forall m, inst_ok m -> mine m = if m =? i then ent else told m (co_sent s)).
  { intros m. apply (flushed_all _ _ _ _ _ _ _ (ctrls_in (buffers i)) _ _ _ _ _ _ Hfl). }
  destruct Hfl. cbn [co_ctx co_sent] in *. specialize (Hm i Hok) as Hi'. rewrite Z.eqb_refl in Hi'. rewrite Hi'. destruct cl_tasks.
  split; [done |]. split; [| done]. intros m Hmok Hne. rewrite Hm by done. by rewrite (proj2 (Z.eqb_neq m i)).
Qed.

Lemma elem_of_told m p msgs : p ∈ told m msgs <-> exists x, x ∈ msgs /\ rm_dst x = m /\ p ∈ rm_infos x.
Proof.
  unfold told. rewrite list_elem_of_In, in_concat. setoid_rewrite in_map_iff. setoid_rewrite filter_In. setoid_rewrite Z.eqb_eq. setoid_rewrite <- list_elem_of_In. split.
  - intros (l & (x & <- & Hx & Hd) & Hp). by exists x.
  - intros (x & Hx & Hd & Hp). exists (rm_infos x). split; [| done]. by exists x.
Qed.

Lemma elem_of_infos p m i : p ∈ infos_for old_master new_master aborted m (ctrls_in (buffers i)) -> exists h, new_master h = m.
Proof.
  unfold infos_for. rewrite list_elem_of_In, in_map_iff. intros (x & _ & [_ Hx]%filter_In). unfold to_master in Hx. apply andb_prop in Hx as [_ Hx%Z.eqb_eq].
  by eexists.
Qed.

(** The messages of a whole report. *)
Lemma report_msgs_ok i sent :
  can_recover -> i ∈ nodes -> Forall (report_msg i) sent ->
  (forall m, inst_ok m -> m <> i -> told m sent = infos_for old_master new_master aborted m (ctrls_in (buffers i))) -> Forall msg_ok sent /\ Forall (fun x => rm_src x = i) sent.
Proof.
  intros [] Hi Hmsgs Htold. rewrite Forall_forall in Hmsgs.
  split; apply Forall_forall; intros x Hx; destruct (Hmsgs x Hx) as (d & buf & E & Hd & Hne & Hbuf & Hlen); [| by rewrite E].
  assert (Hsrc : rm_src x = i) by (by rewrite E). assert (Hdst : rm_dst x = d) by (by rewrite E). assert (Hin : rm_infos x = buf) by (by rewrite E).
  assert (Hold : forall p, p ∈ buf -> p ∈ infos_for old_master new_master aborted d (ctrls_in (buffers i))).
  { intros p Hp. rewrite <- Htold by done. apply elem_of_told. exists x. by rewrite Hin. }
  unfold msg_ok. rewrite Hsrc, Hdst, Hin. split; [done |]. split.
  - destruct buf as [| p buf]; [done |]. destruct (elem_of_infos p d i) as [h <-]; [apply Hold; set_solver | done].
  - split; [by exists d, buf |]. intros r Hr. apply list_elem_of_In, in_map_iff in Hr as (p & <- & Hp). apply elem_of_holdings. split; [done |]. apply Hold. by apply list_elem_of_In.
Qed.

Lemma step_report_ok i f don net acks lost st s :
  can_recover -> cluster_ok (mk_rcl f don net acks lost) -> i ∈ nodes ->
  drc_handle_buf_res_recovery i old_master new_master (fun _ _ => true) (fun _ _ => false) true (replicate 16 true) aborted (buffers i)
    (mk_collect (f i) drc_init_batch_buf [] []) = Done (st, s) ->
  cluster_ok (mk_rcl (node_put i (co_ctx s) f) (i :: don) (net ++ co_sent s) acks lost).
Proof.
  intros Hcan [Hnodes Hnet Hacks] Hi Hrun. cbn [rn_net rn_acks] in *. destruct (Hnodes i Hi) as [(reps & Hrec & Hsub & Hhave) Hst Hcount]. cbn [rn_node rn_net rn_acks rn_lost rn_done] in *.
  destruct (report_spec i reps (f i) Hcan Hi) as (s' & Hrun' & Hrec' & Htold & Hmsgs & Hst' & Hcomp & Htask); [rewrite Hst; by apply Hcan | done | done |].
  rewrite Hrun' in Hrun. injection Hrun as <- <-. destruct (report_msgs_ok i (co_sent s') Hcan Hi Hmsgs Htold) as [Hok Hsrc].
  assert (Hmono : forall j m p, carries j m p (net ++ lost) -> carries j m p ((net ++ co_sent s') ++ lost)) by (intros j m p; apply carries_mono; set_solver).
  split; cbn [rn_net rn_acks]; [| by apply Forall_app | done]. intros m Hm. destruct (decide (m = i)) as [-> | Hne].
  - split; cbn [rn_node rn_net rn_acks rn_lost rn_done]; rewrite node_put_eq.
    + eexists. split; [exact Hrec' |]. split.
      * intros r [Hr | Hr]%elem_of_app; [by apply Hsub |]. apply list_elem_of_In, in_map_iff in Hr as (p & <- & Hp). apply elem_of_holdings. split; [done |]. by apply list_elem_of_In.
      * intros j p Hj [-> | Hd]%elem_of_cons.
        -- left. apply elem_of_holdings in Hj as [_ Hp]. apply elem_of_app. right. by apply (list_elem_of_fmap_2 (pair i)).
        -- destruct (Hhave j p Hj Hd) as [Hr | Hr]; [left; set_solver | right; by apply Hmono].
    + congruence.
    + rewrite Htask, Hcomp, Hcount, from_app, (from_all i (co_sent s')) by done. lia.
  - destruct (Hnodes m Hm) as [(reps' & Hrecm & Hsubm & Hhavem) Hstm Hcountm]. cbn [rn_node rn_net rn_acks rn_lost rn_done] in *.
    split; cbn [rn_node rn_net rn_acks rn_lost rn_done]; rewrite node_put_ne by done; [| done |].
    + exists reps'. split; [done |]. split; [done |]. intros j p Hj [-> | Hd]%elem_of_cons.
      * right. apply elem_of_holdings in Hj as [_ Hp]. rewrite <- Htold in Hp; [| by apply (cv_node Hcan) | done]. apply elem_of_told in Hp as (x & Hx & Hxd & Hp).
        exists x. split; [set_solver |]. split; [| done]. by eapply (proj1 (Forall_forall _ _) Hsrc).
      * destruct (Hhavem j p Hj Hd) as [Hr | Hr]; [by left | right; by apply Hmono].
    + rewrite Hcountm, from_app, (from_none i m (co_sent s')) by done. lia.
Qed.

Lemma deliver_ok x f don n1 n2 acks lost malloc_ok :
  can_recover -> cluster_ok (mk_rcl f don (n1 ++ x :: n2) acks lost) ->
  exists c, drc_process_send_page_info cluster_nodes rc malloc_ok x (f (rm_dst x)) = Done (malloc_ok, c) /\
  cluster_ok (mk_rcl (node_put (rm_dst x) c f) don (n1 ++ n2) (if malloc_ok then rm_src x :: acks else acks) (if malloc_ok then lost else x :: lost)).
Proof.
  intros Hcan [Hnodes Hnet Hacks]. cbn [rn_net rn_acks] in *. rewrite Forall_app, Forall_cons in Hnet. destruct Hnet as (Hn1 & Hx & Hn2).
  assert (Hdst : rm_dst x ∈ nodes) by apply Hx. destruct (Hnodes _ Hdst) as [(reps & Hrec & Hsub & Hhave) Hst _]. cbn [rn_node rn_net rn_acks rn_lost rn_done] in *.
  destruct (report_delivered x reps (f (rm_dst x)) malloc_ok Hcan Hx) as (c & Hrun & Hrec' & Hc); [rewrite Hst; by apply Hcan | done | done |].
  exists c. split; [done |]. split; cbn [rn_net rn_acks]; [| by apply Forall_app | destruct malloc_ok; [constructor; [apply Hx | done] | done]]. intros m Hm.
  assert (Hsame : ry_status (node_put (rm_dst x) c f m) = ry_status (f m) /\ ry_task_num (node_put (rm_dst x) c f m) = ry_task_num (f m) /\
    ry_complete_num (node_put (rm_dst x) c f m) = ry_complete_num (f m)).
  { destruct (decide (m = rm_dst x)) as [-> | Hne]; [rewrite node_put_eq, Hc; done | by rewrite node_put_ne]. }
  destruct Hsame as (Hs1 & Hs2 & Hs3). destruct (Hnodes m Hm) as [(repsm & Hrecm & Hsubm & Hhavem) Hstm Hcountm].
  assert (Hmove : forall j p, carries j m p ((n1 ++ x :: n2) ++ lost) ->
     (m = rm_dst x /\ malloc_ok = true /\ (j, p) ∈ List.map (pair (rm_src x)) (rm_infos x)) \/ carries j m p ((n1 ++ n2) ++ (if malloc_ok then lost else x :: lost))).
  { intros j p (y & Hy & Hsrc & Hyd & Hp). assert (Hor : y = x \/ y ∈ (n1 ++ n2) ++ lost) by set_solver. destruct Hor as [-> | Hy'].
    - destruct malloc_ok; [left | right; exists x; split; [set_solver | done]]. split; [done |]. split; [done |]. rewrite Hsrc. by apply (list_elem_of_fmap_2 (pair j)).
    - right. exists y. split; [destruct malloc_ok; set_solver | done]. }
  split; cbn [rn_node rn_net rn_acks rn_lost rn_done] in *; [| by rewrite Hs1 |].
  - destruct (decide (m = rm_dst x)) as [-> | Hne].
    + rewrite node_put_eq. eexists. split; [exact Hrec' |]. split; [destruct malloc_ok; [| done]; intros r [Hr | Hr]%elem_of_app; [by apply Hsub | by apply Hx] |].
      intros j p Hj Hd. destruct (Hhave j p Hj Hd) as [Hr | [(_ & -> & Hr) | Hr]%Hmove]; [left; destruct malloc_ok; set_solver | left; set_solver | by right].
    + rewrite node_put_ne by done. exists repsm. split; [done |]. split; [done |]. intros j p Hj Hd.
      destruct (Hhavem j p Hj Hd) as [Hr | [(? & _) | Hr]%Hmove]; [by left | done | by right].
  - rewrite Hs2, Hs3, Hcountm, !from_app, from_cons. destruct malloc_ok; [rewrite acks_to_cons | rewrite from_cons]; lia.
Qed.

Lemma ack_ok i f don net a1 a2 lost :
  can_recover -> cluster_ok (mk_rcl f don net (a1 ++ i :: a2) lost) ->
  cluster_ok (mk_rcl (node_put i (drc_process_remaster_recovery_task_ack cluster_nodes rc (f i)) f) don net (a1 ++ a2) lost).
Proof.
  intros Hcan [Hnodes Hnet Hacks]. cbn [rn_net rn_acks] in *. rewrite Forall_app, Forall_cons in Hacks. destruct Hacks as (Ha1 & Hi & Ha2).
  split; cbn [rn_net rn_acks]; [| done | by apply Forall_app]. intros m Hm. destruct (Hnodes m Hm) as [(reps & Hrec & Hsub & Hhave) Hst Hcount].
  cbn [rn_node rn_net rn_acks rn_lost rn_done] in *.
  rewrite acks_to_app, acks_to_cons in Hcount. destruct (decide (m = i)) as [-> | Hne].
  - pose proof Hcan as []. assert (E : drc_process_remaster_recovery_task_ack cluster_nodes rc (f i) = mk_rcy (ry_status (f i)) (ry_buf (f i)) (ry_task_num (f i)) (ry_complete_num (f i) + 1)).
    { unfold drc_process_remaster_recovery_task_ack. rewrite (proj2 (Z.leb_gt cluster_nodes 2)) by lia. rewrite bool_decide_eq_false_2 by (rewrite Hst; by apply cv_status0).
      by rewrite (proj2 (Z.ltb_ge (reform_num rc) _)), (proj2 (Z.leb_gt _ (reform_num rc))) by lia. }
    split; cbn [rn_node rn_net rn_acks rn_lost rn_done]; rewrite node_put_eq, E; cbn [ry_status ry_task_num ry_complete_num]; [| done |].
    + exists reps. split; [destruct Hrec; by constructor | done].
    + rewrite acks_to_app, Z.eqb_refl in *. lia.
  - split; cbn [rn_node rn_net rn_acks rn_lost rn_done]; rewrite node_put_ne by done; [by exists reps | done |].
    rewrite acks_to_app. rewrite (proj2 (Z.eqb_neq i m)) in Hcount by done. lia.
Qed.

Lemma step_ok cl cl' : can_recover -> cluster_ok cl -> rcy_step cl cl' -> cluster_ok cl'.
Proof.
  intros Hcan Hok Hstep. destruct Hstep as [i f don net acks lost st s Hi _ Hrun | x f don n1 n2 acks lost mo c acked Hrun | i f don net a1 a2 lost].
  - by eapply step_report_ok.
  - destruct (deliver_ok x f don n1 n2 acks lost mo Hcan Hok) as (c' & Hrun' & Hok'). rewrite Hrun in Hrun'. by injection Hrun' as -> ->.
  - by apply ack_ok.
Qed.

Lemma steps_ok cl cl' : can_recover -> rtc rcy_step cl cl' -> cluster_ok cl -> cluster_ok cl'.
Proof. intros Hcan Hsteps. induction Hsteps as [| x y z Hxy _ IH]; [done |]. intros Hx. by eapply IH, step_ok. Qed.

(** *** The end of recovery *)

(** Every instance has reported and its reports are acknowledged. *)
Definition all_complete (cl : rcy_cluster) : Prop := forall i, i ∈ nodes -> i ∈ rn_done cl /\ drc_remaster_recovery_is_complete (rn_node cl i) = true.

(** Only what is said counts, not how often or in which order. *)
Lemma rebuilt_ext p g0 reps reps' g : reps ⊆ reps' -> reps' ⊆ reps -> rebuilt p g0 reps g -> rebuilt p g0 reps' g.
Proof.
  intros H1 H2 [Hb1 Hb2]. assert (Hrep : forall k, reported reps k <-> reported reps' k) by (intros k; split; intros (i & q & Hq & Hk); exists i, q; auto).
  split; intros k Hk; rewrite <- Hrep in Hk; [| by apply Hb2]. destruct (Hb1 k Hk) as (b & Hb & Ht). exists b. split; [done |].
  eapply tells_ext; [| done]. intros i q _. split; [apply H1 | apply H2].
Qed.

Lemma complete_rebuilt cl m :
  cluster_ok cl -> all_complete cl -> m ∈ nodes ->
  catalog_ok (K := page_id_t) buf_inv (pool m) (ry_buf (rn_node cl m)) /\ rebuilt (pool m) (ry_buf (init m)) (holdings m) (ry_buf (rn_node cl m)).
Proof.
  intros Hok Hall Hm. destruct Hok as [Hnodes Hnet _]. destruct (Hnodes m Hm) as [(reps & [Hcok _ Hrb] & Hsub & Hhave) _ _]. split; [done |].
  eapply rebuilt_ext; [exact Hsub | | done]. intros [j p] Hj. pose proof Hj as [Hjn _]%elem_of_holdings. destruct (Hall j Hjn) as [Hd Hc].
  destruct (Hhave j p Hj Hd) as [| (x & Hx & Hsrc & _)]; [done |]. exfalso. destruct (Hnodes j Hjn) as [_ _ Hcount].
  unfold drc_remaster_recovery_is_complete in Hc. apply Z.leb_le in Hc. pose proof (acks_to_pos j (rn_acks cl)).
  assert (Hpos : 0 < from j (rn_net cl ++ rn_lost cl)).
  { apply list_elem_of_split in Hx as (l1 & l2 & ->). rewrite from_app, from_cons, Hsrc, Z.eqb_refl. pose proof (from_pos j l1). pose proof (from_pos j l2). lia. }
  rewrite from_app in Hpos. lia.
Qed.

(** *** Reaching the end *)

(** Everyone reports. *)
Lemma all_report todo : forall cl,
  can_recover -> cluster_ok cl -> todo ⊆ nodes ->
  exists cl', rtc rcy_step cl cl' /\ (forall i, i ∈ todo \/ i ∈ rn_done cl -> i ∈ rn_done cl') /\ rn_lost cl' = rn_lost cl.
Proof.
  induction todo as [| i todo IH]; intros cl Hcan Hok Hsub; [exists cl; split; [done |]; split; [set_solver | done] |].
  destruct (decide (i ∈ rn_done cl)) as [Hd | Hd].
  { destruct (IH cl Hcan Hok) as (cl' & Hr & Hdone & Hl); [set_solver |]. exists cl'. split; [done |]. split; [| done]. intros j Hj. apply Hdone. set_solver. }
  assert (Hi : i ∈ nodes) by set_solver. destruct cl as [f don net acks lost]. destruct (co_nodes _ Hok i Hi) as [(reps & Hrec & Hrs & _) Hst _].
  destruct (report_spec i reps (f i) Hcan Hi) as (s & Hrun & _); [cbn in Hst; rewrite Hst; by apply Hcan | done | done |].
  pose proof (step_report i f don net acks lost CT_SUCCESS s Hi Hd Hrun) as Hstep.
  destruct (IH _ Hcan (step_ok _ _ Hcan Hok Hstep)) as (cl' & Hr & Hdone & Hl); [set_solver |].
  exists cl'. split; [by eapply rtc_l |]. split; [| done]. intros j Hj. apply Hdone. cbn in *. set_solver.
Qed.

(** Every report under way is delivered, then every acknowledgement. *)
Lemma all_delivered n : forall cl, length (rn_net cl) = n ->
  can_recover -> cluster_ok cl -> exists cl', rtc rcy_step cl cl' /\ rn_net cl' = [] /\ rn_done cl' = rn_done cl /\ rn_lost cl' = rn_lost cl.
Proof.
  induction n as [| n IH]; intros [f don net acks lost] Hn Hcan Hok; [exists (mk_rcl f don net acks lost); by destruct net |]. destruct net as [| x net]; [done |].
  destruct (deliver_ok x f don [] net acks lost true Hcan Hok) as (c & Hrun & Hok'). pose proof (step_deliver x f don [] net acks lost true c true Hrun) as Hstep.
  destruct (IH (mk_rcl (node_put (rm_dst x) c f) don net (rm_src x :: acks) lost) ltac:(cbn in *; lia) Hcan Hok') as (cl' & Hr & H). exists cl'. split; [by eapply rtc_l | done].
Qed.

Lemma all_acked n : forall cl, length (rn_acks cl) = n ->
  exists cl', rtc rcy_step cl cl' /\ rn_acks cl' = [] /\ rn_net cl' = rn_net cl /\ rn_done cl' = rn_done cl /\ rn_lost cl' = rn_lost cl.
Proof.
  induction n as [| n IH]; intros [f don net acks lost] Hn; [exists (mk_rcl f don net acks lost); by destruct acks |]. destruct acks as [| i acks]; [done |].
  pose proof (step_ack i f don net [] acks lost) as Hstep.
  destruct (IH (mk_rcl (node_put i (drc_process_remaster_recovery_task_ack cluster_nodes rc (f i)) f) don net acks lost) ltac:(cbn in *; lia)) as (cl' & Hr & H).
  exists cl'. split; [by eapply rtc_l | done].
Qed.

Lemma can_complete cl :
  can_recover -> rtc rcy_step rcy_init cl -> rn_lost cl = [] -> exists cl', rtc rcy_step cl cl' /\ all_complete cl'.
Proof.
  intros Hcan Hsteps Hl. assert (Hok : cluster_ok cl) by (eapply steps_ok; [done | done | by apply cluster_init]).
  destruct (all_report nodes cl Hcan Hok) as (cl1 & Hr1 & Hd1 & Hl1); [done |]. pose proof (steps_ok _ _ Hcan Hr1 Hok) as Hok1.
  destruct (all_delivered _ cl1 eq_refl Hcan Hok1) as (cl2 & Hr2 & Hn2 & Hd2 & Hl2). pose proof (steps_ok _ _ Hcan Hr2 Hok1) as Hok2.
  destruct (all_acked _ cl2 eq_refl) as (cl3 & Hr3 & Ha3 & Hn3 & Hd3 & Hl3). pose proof (steps_ok _ _ Hcan Hr3 Hok2) as Hok3.
  exists cl3. split; [do 2 (etrans; [eassumption |]); exact Hr3 |]. intros i Hi. split; [rewrite Hd3, Hd2; apply Hd1; by left |].
  destruct (co_nodes _ Hok3 i Hi) as [_ _ Hcount]. rewrite Ha3, Hn3, Hn2, Hl3, Hl2, Hl1, Hl in Hcount. apply Z.leb_le. unfold from, acks_to in Hcount. cbn in Hcount. lia.
Qed.

(** C14: when every instance that stays has reported its buffer and has had
    its reports acknowledged, the catalog of every new master has, for every page of
    the failed instance that some buffer holds locked or as an earlier dirty page,
    a resource that says what the buffer controls say: who owns it exclusively,
    who has read-only copies and earlier dirty pages, which of these has the
    greatest lsn, and the mode; nothing else of the catalog has changed.  This
    holds in whatever order reports and acknowledgements arrived.  The masters
    have room for the pages, and the buffers are coherent to begin with. *)
Theorem recovery_complete_rebuilt cl m :
  can_recover -> rtc rcy_step rcy_init cl -> all_complete cl -> m ∈ nodes ->
  catalog_ok (K := page_id_t) buf_inv (pool m) (ry_buf (rn_node cl m)) /\
  forall k, ((exists i c, held_at m i c /\ bc_page_id c = k) ->
      exists b, res_view (pool m) (ry_buf (rn_node cl m)) k = Some (b, []) /\ page_recovered m k b) /\
    ((forall i c, held_at m i c -> bc_page_id c <> k) -> res_view (pool m) (ry_buf (rn_node cl m)) k = res_view (pool m) (ry_buf (init m)) k).
Proof.
  intros Hcan Hsteps Hall Hm. assert (Hok : cluster_ok cl) by (eapply steps_ok; [done | done | by apply cluster_init]).
  destruct (complete_rebuilt cl m Hok Hall Hm) as [Hcat [Htold Hrest]]. split; [done |]. intros k. split.
  - intros Hk%reported_held. destruct (Htold k Hk) as (b & Hb & Ht). exists b. split; [done | by apply tells_recovered].
  - intros Hno. apply Hrest. intros (i & c & Hc & Hk)%reported_held. by apply (Hno i c).
Qed.

(** C15: from every state that recovery gets into without dropping a
    report, it can go on to the state in which every instance has reported and
    all reports are acknowledged: no report crashes its sender or its receiver. *)
Theorem recovery_can_complete cl :
  can_recover -> rtc rcy_step rcy_init cl -> rn_lost cl = [] -> exists cl', rtc rcy_step cl cl' /\ all_complete cl'.
Proof. apply can_complete. Qed.
End cluster.

(** ** The wait of the recovery step *)

Section wait.
Context (polls : nat -> rcy_ctx).

(** Turn [j] ends the wait: no earlier turn did. *)
Definition waits_until (k0 j : nat) : Prop :=
  forall i, (k0 <= i < j)%nat -> drc_remaster_recovery_is_complete (polls i) = false /\ ry_status (polls i) <> REMASTER_FAIL.

(** 4000 turns of 5 ms. *)
Definition last_turn : nat := Z.to_nat (REMASTER_RECOVER_TIMEOUT / REMASTER_SLEEP_INTERVAL).

Lemma recover_wait_spec fuel : forall k, (k + fuel = S (S last_turn))%nat -> (k <= last_turn)%nat ->
  exists j, (k <= j <= last_turn)%nat /\ waits_until k j /\
    let complete := drc_remaster_recovery_is_complete (polls j) in
    recover_wait_loop fuel k polls (REMASTER_SLEEP_INTERVAL * Z.of_nat k) = Done (if complete then (CT_SUCCESS, polls j) else (CT_ERROR, rcy_fail (polls j))) /\
    (complete = false -> ry_status (polls j) = REMASTER_FAIL \/ j = last_turn).
Proof.
  assert (Hlast : Z.of_nat last_turn = 4000) by done. unfold REMASTER_SLEEP_INTERVAL, REMASTER_RECOVER_TIMEOUT in *.
  induction fuel as [| fuel IH]; intros k Hf Hk; [lia |]. cbn [recover_wait_loop].
  assert (Hnow : waits_until k k) by (intros i Hi; lia). destruct (drc_remaster_recovery_is_complete (polls k)) eqn:Hc.
  { exists k. split; [lia |]. split; [done |]. cbv zeta. rewrite Hc. done. }
  change (REMASTER_RECOVER_TIMEOUT) with 20000. destruct (decide (ry_status (polls k) = REMASTER_FAIL)) as [Hs | Hs].
  { rewrite (bool_decide_eq_true_2 _ Hs), orb_true_r. exists k. split; [lia |]. split; [done |]. cbv zeta. rewrite Hc. split; [done | by left]. }
  rewrite (bool_decide_eq_false_2 _ Hs), orb_false_r. destruct (Z.leb_spec 20000 (5 * Z.of_nat k)) as [Hle | Hlt].
  { exists k. split; [lia |]. split; [done |]. cbv zeta. rewrite Hc. split; [done | right; lia]. }
  change REMASTER_SLEEP_INTERVAL with 5. replace (u64 (5 * Z.of_nat k + 5)) with (5 * Z.of_nat (S k)) by (unfold u64; rewrite Z.mod_small; lia).
  destruct (IH (S k)) as (j & Hj & Hw & H); [lia | lia |]. exists j. split; [lia |]. split; [| done].
  intros i Hi. destruct (decide (i = k)) as [-> |]; [done |]. apply Hw. lia.
Qed.
End wait.

(** C30: the recovery step comes to an end, after at most 4001 looks at the
    counters (in a release build; a debug build waits for ten minutes).  It
    succeeds, and moves on to publish the new masters unless the remaster has
    failed meanwhile, exactly when the reports could be made, some look in time
    finds them all acknowledged and no look before it found the remaster failed,
    and the master of the reform was told; when it does not succeed, the remaster
    has failed.  The master of the reform is told of success at that look, of an
    error when the wait ends without it, and nothing when no report could be made. *)
Theorem step_recover_terminates recover polls ack_ok c st c1 :
  recover (drc_reset_remaster_recovery_task_num c) = Done (st, c1) ->
  exists ret acks c', drc_remaster_step_recover recover polls ack_ok c = Done (ret, acks, c') /\
    (ret = CT_ERROR -> ry_status c' = REMASTER_FAIL) /\
    (ret = CT_SUCCESS <-> st = CT_SUCCESS /\ ack_ok = true /\
       exists j, (j <= last_turn)%nat /\ waits_until (polls c1) 0 j /\ drc_remaster_recovery_is_complete (polls c1 j) = true /\
         c' = rcy_set_status REMASTER_PUBLISH (polls c1 j)) /\
    (acks = [] <-> st = CT_ERROR) /\
    (acks = [CT_SUCCESS] <-> st = CT_SUCCESS /\ exists j, (j <= last_turn)%nat /\ waits_until (polls c1) 0 j /\ drc_remaster_recovery_is_complete (polls c1 j) = true) /\
    acks ∈ [[]; [CT_SUCCESS]; [CT_ERROR]].
Proof.
  intros Hrec. unfold drc_remaster_step_recover. rewrite Hrec. ostep. destruct st.
  2: { eexists _, _, _. split; [reflexivity |]. split; [done |]. split; [split; [done | by intros [? _]] |]. split; [done |]. split; [split; [done | by intros [? _]] | left]. }
  destruct (recover_wait_spec (polls c1) (wait_turns REMASTER_RECOVER_TIMEOUT) 0) as (j & Hj & Hw & Hrun & Hend); [done | lia |].
  change (REMASTER_SLEEP_INTERVAL * Z.of_nat 0) with 0 in Hrun. rewrite Hrun. ostep. destruct (drc_remaster_recovery_is_complete (polls c1 j)) eqn:Hc.
  - assert (Hin : exists j, (j <= last_turn)%nat /\ waits_until (polls c1) 0 j /\ drc_remaster_recovery_is_complete (polls c1 j) = true) by (exists j; split; [lia | done]).
    destruct ack_ok; eexists _, _, _; (split; [reflexivity |]); (split; [done |]); (split; [| split; [split; discriminate | split; [split; [by split | reflexivity] | right; left]]]).
    + split; [| done]. intros _. split; [done |]. split; [done |]. exists j. split; [lia |]. done.
    + split; [done |]. by intros (_ & ? & _).
  - assert (Hno : ~ exists j, (j <= last_turn)%nat /\ waits_until (polls c1) 0 j /\ drc_remaster_recovery_is_complete (polls c1 j) = true).
    { intros (i & Hi & Hwi & Hci). destruct (decide (i < j)%nat) as [Hlt | Hge]; [destruct (Hw i) as [H _]; [lia | congruence] |].
      destruct (decide (i = j)) as [-> | Hne]; [congruence |]. destruct (Hwi j) as [_ Hs]; [lia |]. destruct (Hend eq_refl) as [? | ->]; [done | lia]. }
    eexists _, _, _. split; [reflexivity |]. split; [done |]. split; [split; [discriminate |] | split; [split; discriminate | split; [split; [discriminate |] | right; right; left]]].
    + intros (_ & _ & i & Hi & Hwi & Hci & _). destruct Hno. by exists i.
    + intros (_ & Hex). by destruct Hno.
Qed.
