(* ===== verification/RcyLock.v ===== *)
(** * Locks rebuilt from reports

    A master enters its own locks of a partition first and then the reports of
    the others, in whatever order: the catalog says of every lock which
    instances hold it and in which mode.
    Source: src/pkg/src/cluster/dtc_drc.c. *)

From stdpp Require Import prelude list gmap.
From S2P Require Import Prelude Bitmap ResPool DrcList ResMap ConvertQ KeyStore GlobalRes DrcTypes DrcPage PageInv DrcLock LockProps DrcLocal DrcPart DrcMgrt MgrtProps DrcRcy.

Open Scope Z_scope.
Open Scope drc_scope.

(** ** What reports say *)

Abbreviation lock_report := (Z * drc_recovery_lock_res)%type.

Implicit Types (reps : list lock_report) (k : drid_t) (c : lock_ctx).

Definition holds_lock reps k (i : Z) : Prop := exists l, (i, l) ∈ reps /\ lf_res_id l = k.
Definition lock_reported reps k : Prop := exists i, holds_lock reps k i.

(** An instance that has a lock exclusively has it alone. *)
Record lock_reports_ok reps : Prop := mk_lock_reports_ok {
  lo_inst : forall i l, (i, l) ∈ reps -> inst_ok i;
  lo_mode : forall i l, (i, l) ∈ reps -> lf_lock_mode l = DRC_LOCK_SHARE \/ lf_lock_mode l = DRC_LOCK_EXCLUSIVE;
  lo_excl : forall i l j l', (i, l) ∈ reps -> (j, l') ∈ reps -> lf_res_id l = lf_res_id l' -> lf_lock_mode l = lf_lock_mode l' /\ (lf_lock_mode l = DRC_LOCK_EXCLUSIVE -> i = j);
}.

Record lock_tells reps k (a : drc_master_res) : Prop := mk_lock_tells {
  lt_granted : forall i, i ∈ inst_set (mr_granted_map a) <-> holds_lock reps k i;
  lt_mode : forall i l, (i, l) ∈ reps -> lf_res_id l = k -> mr_mode a = lf_lock_mode l;
  lt_idle : req_inst_id (lock_conv a) = CT_INVALID_ID8;
}.

(** The catalog has grown out of [c0] by the reports. *)
Record locks_rebuilt (c0 : lock_ctx) reps c : Prop := mk_locks_rebuilt {
  lb_told : forall k, lock_reported reps k -> exists a, lock_view c k = Some (a, []) /\ lock_tells reps k a;
  lb_rest : forall k, ~ lock_reported reps k -> lock_view c k = lock_view c0 k;
}.

#[global] Instance holds_lock_dec reps k i : Decision (holds_lock reps k i).
Proof.
  destruct (decide (Exists (fun r => r.1 = i /\ lf_res_id r.2 = k) reps)) as [H | H].
  - left. apply Exists_exists in H as ([j l] & Hl & <- & Hk). by exists l.
  - right. intros (l & Hl & Hk). apply H, Exists_exists. by exists (i, l).
Defined.

#[global] Instance lock_reported_dec reps k : Decision (lock_reported reps k).
Proof.
  destruct (decide (Exists (fun r => lf_res_id r.2 = k) reps)) as [H | H].
  - left. apply Exists_exists in H as ([j l] & Hl & Hk). by exists j, l.
  - right. intros (i & l & Hl & Hk). apply H, Exists_exists. by exists (i, l).
Defined.

Lemma holds_lock_app reps i l k j : holds_lock (reps ++ [(i, l)]) k j <-> holds_lock reps k j \/ j = i /\ lf_res_id l = k.
Proof.
  unfold holds_lock. setoid_rewrite elem_of_app. setoid_rewrite list_elem_of_singleton. split.
  - intros (q & [Hq | [= -> ->]] & Hk); [left; by exists q | by right].
  - intros [(q & Hq & Hk) | [-> Hk]]; [exists q | exists l]; auto.
Qed.

Lemma lock_reported_app reps i l k : lock_reported (reps ++ [(i, l)]) k <-> lock_reported reps k \/ lf_res_id l = k.
Proof. unfold lock_reported. setoid_rewrite holds_lock_app. split; [intros (j & [H | [_ H]]); eauto | intros [(j & H) | H]; eauto]. Qed.

Lemma lock_reports_ok_sub reps reps' : reps' ⊆ reps -> lock_reports_ok reps -> lock_reports_ok reps'.
Proof. intros Hsub [H1 H2 H3]. constructor; eauto. Qed.

Lemma lock_tells_ext reps reps' k a : (forall i l, lf_res_id l = k -> (i, l) ∈ reps <-> (i, l) ∈ reps') -> lock_tells reps k a -> lock_tells reps' k a.
Proof.
  intros Heq [H1 H2 H3]. constructor; [| | done].
  - intros i. rewrite H1. split; intros (l & Hl & Hk); exists l; (split; [by apply (Heq i l Hk) | done]).
  - intros i l Hl Hk. apply (H2 i l); [by apply (Heq i l Hk) | done].
Qed.

(** ** Room in the catalog *)

Lemma put_room {A} (g g' : drc_global_res A) i a : gres_put g i a = Done g' -> room g' = room g.
Proof. unfold gres_put. intros H. outcome_inv. exact eq_refl. Qed.

Lemma map_add_room (g g' : lock_catalog) k i : gres_map_add g k i = Done g' -> room g' = room g.
Proof.
  unfold gres_map_add, map_add. generalize (drc_get_map_bucket (res_map g) k). intros h H. apply bind_Done in H as (m & Hm & [= <-]).
  apply bind_Done in Hm as (b & _ & Hm). apply bind_Done in Hm as (a & _ & Hm). destruct (drc_res_map_add b i) as [b' n].
  apply bind_Done in Hm as (items & _ & Hm). by apply bind_Done in Hm as (bs & _ & [= <-]).
Qed.

Lemma part_add_room (g g' : lock_catalog) i : gres_part_add g i = Done g' -> room g' = room g.
Proof. unfold gres_part_add. intros H. outcome_inv. exact eq_refl. Qed.

Lemma alloc_room (g g' : lock_catalog) i : 0 <= used_num (res_pool (res_map g)) -> gres_alloc g = Done (i, g') -> room g - 1 <= room g'.
Proof.
  unfold gres_alloc, drc_res_pool_alloc_item, room. intros Hu H. destruct (negb _); [outcome_inv; cbn; lia |].
  destruct (_ =? CT_INVALID_ID32); outcome_inv; cbn; [lia |]. pose proof (Z.mod_le (used_num (res_pool (res_map g)) + 1) (2 ^ 32) ltac:(lia) ltac:(lia)). unfold u32. lia.
Qed.

Lemma create_room (g g' : lock_catalog) k st : 0 <= used_num (res_pool (res_map g)) -> drc_create_lock_res k g = Done (st, g') -> room g - 1 <= room g'.
Proof.
  unfold drc_create_lock_res. intros Hu H. outcome_inv. pose proof (alloc_room _ _ _ Hu Hrun). destruct (_ =? CT_INVALID_ID32); outcome_inv; [lia |].
  repeat match goal with H : gres_put _ _ _ = Done _ |- _ => apply put_room in H | H : gres_map_add _ _ _ = Done _ |- _ => apply map_add_room in H
    | H : gres_part_add _ _ = Done _ |- _ => apply part_add_room in H end. lia.
Qed.

Lemma rcy_claim_room e k i inst sid mode rsn now c c' : rcy_claim_lock e k i inst sid mode rsn now c = Done c' -> room (lc_res c') = room (lc_res c).
Proof.
  unfold rcy_claim_lock, drc_claim_lock_owner. intros H. outcome_inv. destruct (drc_lock_bucket_and_stat_with_version_check _ _ _ _); outcome_inv.
  - destruct a1; outcome_inv. cbn in *. repeat match goal with H : gres_put _ _ _ = Done _ |- _ => apply put_room in H end. congruence.
  - cbn in *. by eapply put_room.
Qed.

(** ** Entering one lock *)

Section locks.
Context (Q : list Z -> list Z -> Prop).

(** The request made up for a report is claimed at once. *)
Lemma rcy_claim_spec e k i inst sid mode rsn now c a :
  lock_ok Q [] [] c -> lock_view c k = Some (a, []) -> gres_lookup (lc_res c) k = Done (Some i) -> inst_ok inst -> mode_ok mode ->
  inst ∉ inst_set (mr_granted_map a) ->
  exists c' a', rcy_claim_lock e k i inst sid mode rsn now c = Done c' /\ lock_ok Q [] [] c' /\ lock_same_but k c c' /\ lock_view c' k = Some (a', []) /\
    granted_after (mk_lclaim inst mode sid) a a' /\ req_inst_id (lock_conv a') = CT_INVALID_ID8.
Proof.
  intros Hok Hview Hl Hi Hm Hnot. pose proof (lock_view_cases Q _ _ _ k Hok) as Hv. rewrite Hview in Hv.
  destruct Hv as (gh & i0 & a0 & ids & Hst & Hl0 & Hin & Hget & Ha & Hids & Hk & -> & Hrs & Hinv & _). rewrite Hl in Hl0. injection Hl0 as <-.
  unfold rcy_claim_lock. rewrite Hget. ostep. set (r := rcy_lock_req _ _ _ _ _ _ _ _).
  destruct (lock_st_set Q gh [] [] c i a0 (set_lock_conv r a0) ids Hst Hin Ha Hids) as (g' & -> & Hst' & _ & Hsb & Hvk); [done | done | |].
  { rewrite <- Hrs. destruct Hinv. constructor; cbn; try done. right. by split. }
  ostep. rewrite Hk, <- Hrs in *.
  destruct (claim_lock_spec Q e k (mk_lclaim inst mode sid) (trigger_version e) true [] [] (lc_set_res c g') (strip (set_lock_conv r a0)) []) as (c' & a' & -> & Hok' & Hsb' & Hv' & Hga & Hn & _);
    [by eexists | done | | |].
  - unfold drc_lock_bucket_and_stat_with_version_check. by rewrite andb_false_r.
  - split; [done |]. split; [done |]. split; [by apply inst_ok_ne |]. right. by left.
  - ostep. exists c', a'. split; [done |]. split; [done |]. split; [intros k' Hk'; rewrite Hsb' by done; by apply Hsb |]. done.
Qed.

(** One holder more. *)
Lemma locks_rebuilt_step c0 reps c c' i l sid a a' :
  lock_reports_ok (reps ++ [(i, l)]) -> locks_rebuilt c0 reps c -> lock_same_but (lf_res_id l) c c' -> lock_view c' (lf_res_id l) = Some (a', []) ->
  (forall j, j ∈ inst_set (mr_granted_map a) <-> holds_lock reps (lf_res_id l) j) -> granted_after (mk_lclaim i (lf_lock_mode l) sid) a a' ->
  req_inst_id (lock_conv a') = CT_INVALID_ID8 -> locks_rebuilt c0 (reps ++ [(i, l)]) c'.
Proof.
  intros Hro [Htold Hrest] Hsb Hv Hgr [Hm Hg] Hidle. cbn [lk_mode lk_new_id] in *. assert (Hin : (i, l) ∈ reps ++ [(i, l)]) by (apply elem_of_app; right; by apply list_elem_of_singleton).
  assert (Hsame : forall j q, (j, q) ∈ reps ++ [(i, l)] -> lf_res_id q = lf_res_id l -> lf_lock_mode l = lf_lock_mode q /\ (lf_lock_mode l = DRC_LOCK_EXCLUSIVE -> i = j)).
  { intros j q Hq Hk. apply (lo_excl _ Hro i l j q); auto. }
  split.
  - intros k Hk. destruct (decide (lf_res_id l = k)) as [<- | Hne].
    + exists a'. split; [done |]. split; [| | done].
      * intros j. rewrite Hg, elem_of_union, elem_of_singleton, holds_lock_app. destruct (Z.eqb_spec (lf_lock_mode l) DRC_LOCK_EXCLUSIVE) as [Hx | Hx].
        -- split; [set_solver |]. intros [(q & Hq & Hqk) | [-> _]]; [| by left]. left. symmetry. by apply (Hsame j q); [set_solver | | ].
        -- rewrite Hgr. tauto.
      * intros j q Hq Hqk. rewrite Hm. by apply (Hsame j q).
    + apply lock_reported_app in Hk as [Hk | ?]; [| done]. destruct (Htold k Hk) as (b & Hb & Ht). exists b. split; [by rewrite Hsb |].
      eapply lock_tells_ext; [| done]. intros j q Hq. rewrite elem_of_app, list_elem_of_singleton. split; [auto |]. intros [? | [= -> ->]]; congruence || done.
  - intros k Hk. rewrite lock_reported_app in Hk. rewrite Hsb by (intros ->; tauto). apply Hrest. tauto.
Qed.

(** A holder that was known already. *)
Lemma locks_rebuilt_again c0 reps c i l :
  lock_reports_ok (reps ++ [(i, l)]) -> holds_lock reps (lf_res_id l) i -> locks_rebuilt c0 reps c -> locks_rebuilt c0 (reps ++ [(i, l)]) c.
Proof.
  intros Hro Hh [Htold Hrest]. assert (Hin : (i, l) ∈ reps ++ [(i, l)]) by (apply elem_of_app; right; by apply list_elem_of_singleton).
  assert (Hrep : forall k, lock_reported (reps ++ [(i, l)]) k <-> lock_reported reps k).
  { intros k. rewrite lock_reported_app. split; [| tauto]. intros [? | <-]; [done | by exists i]. }
  split; intros k Hk; rewrite Hrep in Hk; [| by apply Hrest]. destruct (Htold k Hk) as (b & Hb & [H1 H2 H3]). exists b. split; [done |]. split; [| | done].
  - intros j. rewrite H1, holds_lock_app. split; [tauto |]. intros [? | [-> <-]]; done.
  - intros j q [Hq | [= -> ->]%list_elem_of_singleton]%elem_of_app Hqk; [by apply (H2 j q) |]. destruct Hh as (q & Hq & Hqk'). rewrite (H2 i q Hq) by congruence.
    by apply (lo_excl _ Hro i q i l); [set_solver | |].
Qed.

Lemma lock_room c : lock_ok Q [] [] c -> 0 < room (lc_res c) -> free_list (res_pool (res_map (lc_res c))) <> CT_INVALID_ID32.
Proof.
  intros (gh & [Hwf _]) Hr E. rewrite (gwf_room lock_inv _ _ _ Hwf) in Hr. apply (free_list_nil _ _ (mw_pool _ _ _ _ (gw_map _ _ _ _ Hwf))) in E. rewrite E in Hr. cbn in Hr. lia.
Qed.

Lemma lock_used c : lock_ok Q [] [] c -> 0 <= used_num (res_pool (res_map (lc_res c))).
Proof. intros (gh & [Hwf _]). apply (pool_wf_fits _ _ (mw_pool _ _ _ _ (gw_map _ _ _ _ Hwf))). Qed.

(** A lock that is not there yet: created and granted. *)
Lemma enter_new_lock e l i sid rsn now c0 reps c :
  lock_ok Q [] [] c -> locks_rebuilt c0 reps c -> lock_reports_ok (reps ++ [(i, l)]) -> lock_view c0 (lf_res_id l) = None ->
  ~ lock_reported reps (lf_res_id l) -> 0 < room (lc_res c) ->
  gres_lookup (lc_res c) (lf_res_id l) = Done None /\
  exists g x c', drc_create_lock_res (lf_res_id l) (lc_res c) = Done (CT_SUCCESS, g) /\ gres_lookup g (lf_res_id l) = Done (Some x) /\
    rcy_claim_lock e (lf_res_id l) x i sid (lf_lock_mode l) rsn now (lc_set_res c g) = Done c' /\
    lock_ok Q [] [] c' /\ locks_rebuilt c0 (reps ++ [(i, l)]) c' /\ room (lc_res c) - 1 <= room (lc_res c').
Proof.
  intros Hok Hrb Hro Hnew Hrep Hroom. assert (Hin : (i, l) ∈ reps ++ [(i, l)]) by (apply elem_of_app; right; by apply list_elem_of_singleton).
  assert (Hview : lock_view c (lf_res_id l) = None) by (by rewrite (lb_rest _ _ _ Hrb)).
  pose proof (lock_view_cases Q _ _ _ (lf_res_id l) Hok) as Hv. rewrite Hview in Hv. split; [apply Hv |].
  destruct (create_lock_spec Q (lf_res_id l) [] [] c Hok Hview) as (st & g & Hcr & Hok1 & Hc). rewrite decide_False in Hc by (by apply lock_room).
  destruct Hc as (-> & Hsb1 & a & Hva & Hma & Hga & Hca). pose proof (create_room _ _ _ _ (lock_used c Hok) Hcr) as Hr1.
  pose proof (lock_view_cases Q _ _ _ (lf_res_id l) Hok1) as Hv1. rewrite Hva in Hv1. destruct Hv1 as (gh & x & a0 & ids & _ & Hl & _).
  assert (Hmo : mode_ok (lf_lock_mode l)) by (unfold mode_ok; destruct (lo_mode _ Hro i l Hin) as [-> | ->]; done).
  destruct (rcy_claim_spec e (lf_res_id l) x i sid (lf_lock_mode l) rsn now (lc_set_res c g) (strip a) Hok1 Hva Hl) as (c' & a' & Hrun & Hok' & Hsb' & Hv' & Hgr & Hidle);
    [by apply (lo_inst _ Hro i l) | done | |].
  { change (mr_granted_map (strip a)) with (mr_granted_map a). rewrite Hga, inst_set_0. set_solver. }
  pose proof (rcy_claim_room _ _ _ _ _ _ _ _ _ _ Hrun) as Hr2. cbn in Hr2.
  exists g, x, c'. split; [done |]. split; [done |]. split; [done |]. split; [done |]. split; [| lia].
  eapply (locks_rebuilt_step c0 reps c c' i l sid (strip a) a'); [done | done | | done | | done | done].
  - intros k' Hk'. rewrite Hsb' by done. by apply Hsb1.
  - intros j. change (mr_granted_map (strip a)) with (mr_granted_map a). rewrite Hga, inst_set_0. split; [set_solver |]. intros Hj. destruct Hrep. by exists j.
Qed.

(** A lock in a report. *)
Lemma rcy_lock_spec e l i c0 reps c :
  lock_ok Q [] [] c -> locks_rebuilt c0 reps c -> lock_reports_ok (reps ++ [(i, l)]) -> lock_view c0 (lf_res_id l) = None -> 0 < room (lc_res c) ->
  exists st c', drc_rcy_lock_res_info e l i c = Done (st, c') /\ lock_ok Q [] [] c' /\ locks_rebuilt c0 (reps ++ [(i, l)]) c' /\ room (lc_res c) - 1 <= room (lc_res c').
Proof.
  intros Hok Hrb Hro Hnew Hroom. assert (Hin : (i, l) ∈ reps ++ [(i, l)]) by (apply elem_of_app; right; by apply list_elem_of_singleton).
  unfold drc_rcy_lock_res_info. destruct (decide (lock_reported reps (lf_res_id l))) as [Hrep | Hrep].
  - destruct (lb_told _ _ _ Hrb _ Hrep) as (a & Hva & Ht). pose proof (lock_view_cases Q _ _ _ (lf_res_id l) Hok) as Hv. rewrite Hva in Hv.
    destruct Hv as (gh & x & a0 & ids & _ & Hl & _ & Hget & _ & _ & _ & -> & _ & Hinv & _). rewrite Hl. ostep. rewrite Hget. ostep.
    change (mr_granted_map (strip a0)) with (mr_granted_map a0) in *. destruct Ht as [Hgr Hmode Hidle].
    assert (Hii : inst_ok i) by (by apply (lo_inst _ Hro i l)). rewrite drc_bitmap64_exist_Done by (done || apply Hinv). ostep.
    assert (Hmo : mode_ok (lf_lock_mode l)) by (unfold mode_ok; destruct (lo_mode _ Hro i l Hin) as [-> | ->]; done).
    rewrite mode_compatible_spec by (done || apply Hinv). ostep. destruct (decide (holds_lock reps (lf_res_id l) i)) as [Hh | Hh].
    + rewrite bool_decide_eq_true_2 by (by apply Hgr). cbn [orb]. exists CT_ERROR, c. split; [done |]. split; [done |]. split; [| lia].
      by apply locks_rebuilt_again.
    + rewrite bool_decide_eq_false_2 by (by rewrite Hgr). cbn [orb].
      assert (Hcomp : compatible (lf_lock_mode l) (mr_mode a0) = true).
      { destruct Hrep as (j & q & Hq & Hqk). change (mr_mode (strip a0)) with (mr_mode a0) in Hmode. rewrite (Hmode j q Hq Hqk).
        destruct (lo_excl _ Hro i l j q Hin ltac:(set_solver) ltac:(congruence)) as [E Hx]. rewrite <- E.
        destruct (lo_mode _ Hro i l Hin) as [-> | Hm]; [done |]. destruct Hh. rewrite (Hx Hm). by exists q. }
      rewrite Hcomp. cbn [negb].
      destruct (rcy_claim_spec e (lf_res_id l) x i CT_INVALID_ID16 (lf_lock_mode l) 0 0 c (strip a0) Hok Hva Hl Hii Hmo) as (c' & a' & Hrun & Hok' & Hsb & Hv' & Hga & Hid); [by rewrite Hgr |].
      rewrite Hrun. ostep. exists CT_SUCCESS, c'. split; [done |]. split; [done |]. rewrite (rcy_claim_room _ _ _ _ _ _ _ _ _ _ Hrun). split; [| lia].
      by eapply (locks_rebuilt_step c0 reps c c' i l CT_INVALID_ID16 (strip a0) a').
  - destruct (enter_new_lock e l i CT_INVALID_ID16 0 0 c0 reps c Hok Hrb Hro Hnew Hrep Hroom) as (-> & g & x & c' & -> & Hl & Hrun & H). ostep. ostep. rewrite Hl. ostep. rewrite Hrun. ostep.
    by exists CT_SUCCESS, c'.
Qed.

(** ** Reports and the master's own locks *)

Lemma rcy_lock_loop_spec e i c0 todo : forall done_ reps c,
  lock_ok Q [] [] c -> locks_rebuilt c0 reps c -> lock_reports_ok (reps ++ List.map (pair i) todo) ->
  (forall l, l ∈ todo -> lock_view c0 (lf_res_id l) = None) -> Z.of_nat (length todo) <= room (lc_res c) ->
  exists c', rcy_lock_loop e (length todo) (Z.of_nat (length done_)) (done_ ++ todo) i c = Done c' /\ lock_ok Q [] [] c' /\
    locks_rebuilt c0 (reps ++ List.map (pair i) todo) c' /\ room (lc_res c) - Z.of_nat (length todo) <= room (lc_res c').
Proof.
  induction todo as [| l todo IH]; intros done_ reps c Hok Hrb Hro Hnew Hroom.
  - exists c. cbn. rewrite app_nil_r. split; [done |]. split; [done |]. split; [done | lia].
  - cbn [length rcy_lock_loop List.map] in *. rewrite (arr_get_eq _ _ _ (lookupZ_middle done_ todo l)). ostep. rewrite cons_middle, (assoc_L (++)) in Hro.
    destruct (rcy_lock_spec e l i c0 reps c Hok Hrb) as (st & c1 & -> & Hok1 & Hrb1 & Hr1); [eapply lock_reports_ok_sub; [| exact Hro]; set_solver | apply Hnew; set_solver | lia |]. ostep.
    replace (Z.of_nat (length done_) + 1) with (Z.of_nat (length (done_ ++ [l]))) by (rewrite length_app; cbn; lia). rewrite (cons_middle l done_ todo), (assoc_L (++)).
    destruct (IH (done_ ++ [l]) _ c1 Hok1 Hrb1 Hro) as (c' & Hrun & Hok' & Hrb' & Hr'); [intros q Hq; apply Hnew; set_solver | lia |].
    exists c'. split; [exact Hrun |]. split; [done |]. rewrite (cons_middle (i, l)), (assoc_L (++)). split; [done | lia].
Qed.

(** The master's own locks of partitions it takes over. *)
Definition own_report (self_id : Z) (r : drc_local_lock_res) : lock_report := (self_id, mk_linf (ll_res_id r) (lock_mode (latch_stat r))).

Fixpoint own_locks (e : dtc_env) (self_id : Z) (send_ok : nat -> Z -> bool) (sid rsn : Z) (own : list drc_local_lock_res) (s : lock_rcy) : outcome lock_rcy :=
  match own with
  | [] => Done s
  | r :: own => s ← drc_recovery_lockinfo e self_id send_ok sid rsn r self_id s; own_locks e self_id send_ok sid rsn own s
  end.

Lemma own_locks_spec e self_id send_ok sid rsn c0 own : forall reps s,
  lock_ok Q [] [] (lr_ctx s) -> locks_rebuilt c0 reps (lr_ctx s) -> lock_reports_ok (reps ++ List.map (own_report self_id) own) ->
  (forall r, r ∈ own -> lock_view c0 (ll_res_id r) = None /\ ~ lock_reported reps (ll_res_id r)) -> NoDup (List.map ll_res_id own) ->
  Z.of_nat (length own) <= room (lc_res (lr_ctx s)) ->
  exists c', own_locks e self_id send_ok sid rsn own s = Done (lr_set_ctx c' s) /\ lock_ok Q [] [] c' /\
    locks_rebuilt c0 (reps ++ List.map (own_report self_id) own) c' /\ room (lc_res (lr_ctx s)) - Z.of_nat (length own) <= room (lc_res c').
Proof.
  induction own as [| r own IH]; intros reps s Hok Hrb Hro Hnew Hnd Hroom.
  - exists (lr_ctx s). cbn. rewrite app_nil_r. split; [by destruct s |]. split; [done |]. split; [done | lia].
  - cbn [own_locks length List.map] in *. unfold drc_recovery_lockinfo. rewrite Z.eqb_refl. rewrite cons_middle, (assoc_L (++)) in Hro. apply NoDup_cons in Hnd as [Hnr Hnd].
    set (l := mk_linf (ll_res_id r) (lock_mode (latch_stat r))). destruct (Hnew r) as [Hv Hnrep]; [set_solver |].
    assert (Hin : (self_id, l) ∈ (reps ++ [own_report self_id r]) ++ List.map (own_report self_id) own) by (apply elem_of_app; left; apply elem_of_app; right; by apply list_elem_of_singleton).
    assert (Hne : lock_mode (latch_stat r) =? DRC_LOCK_NULL = false) by (apply Z.eqb_neq; intros E; destruct (lo_mode _ Hro _ _ Hin) as [H | H]; cbn in H; rewrite E in H; done).
    rewrite Hne.
    destruct (enter_new_lock e l self_id sid rsn (dtc_now e) c0 reps (lr_ctx s) Hok Hrb) as (_ & g & x & c1 & Hcr & Hl & Hrun & Hok1 & Hrb1 & Hr1);
      [eapply lock_reports_ok_sub; [| exact Hro]; set_solver | done | done | lia |].
    cbn [lf_res_id lf_lock_mode l] in Hcr, Hl, Hrun. rewrite Hcr. ostep. rewrite Hl. ostep. rewrite Hrun. ostep. ostep.
    destruct (IH (reps ++ [(self_id, l)]) (lr_set_ctx c1 s) Hok1 Hrb1 Hro) as (c' & Hrun' & Hok' & Hrb' & Hr').
    + intros q Hq. split; [apply Hnew; set_solver |]. rewrite lock_reported_app. cbn. intros [Hq' | E]; [by apply (Hnew q); [set_solver |] |]. apply Hnr. rewrite E. by apply (list_elem_of_fmap_2 ll_res_id).
    + done.
    + cbn. lia.
    + exists c'. split; [exact Hrun' |]. split; [done |]. rewrite cons_middle, (assoc_L (++)). split; [exact Hrb' | cbn in Hr'; lia].
Qed.

(** A report as its sender makes it. *)
Definition lock_msg_ok (m : rcy_msg drc_recovery_lock_res) : Prop :=
  exists src dst buf, m = lock_info_msg src dst buf /\ Z.of_nat (length buf) <= DRC_BATCH_BUF_SIZE / sizeof_recovery_lock_res.

Definition msg_reports (m : rcy_msg drc_recovery_lock_res) : list lock_report := List.map (pair (rm_src m)) (rm_infos m).

(** The reports of a list of messages, handled one after the other; how many were acknowledged. *)
Fixpoint handle_reports (e : dtc_env) (cluster_nodes : Z) (msgs : list (rcy_msg drc_recovery_lock_res)) (s : lock_rcy) : outcome (nat * lock_rcy) :=
  match msgs with
  | [] => Done (0%nat, s)
  | m :: msgs =>
      '(acked, s) ← drc_process_recovery_lock_res e cluster_nodes m s;
      '(n, s) ← handle_reports e cluster_nodes msgs s;
      Done (if (acked : bool) then S n else n, s)
  end.

Lemma process_lock_report e cluster_nodes m c0 reps s :
  2 < cluster_nodes -> lr_max_count s = DRC_BATCH_BUF_SIZE / sizeof_recovery_lock_res -> lock_msg_ok m ->
  lock_ok Q [] [] (lr_ctx s) -> locks_rebuilt c0 reps (lr_ctx s) -> lock_reports_ok (reps ++ msg_reports m) ->
  (forall i l, (i, l) ∈ msg_reports m -> lock_view c0 (lf_res_id l) = None) -> Z.of_nat (length (msg_reports m)) <= room (lc_res (lr_ctx s)) ->
  exists c', drc_process_recovery_lock_res e cluster_nodes m s = Done (true, lr_set_ctx c' s) /\ lock_ok Q [] [] c' /\
    locks_rebuilt c0 (reps ++ msg_reports m) c' /\ room (lc_res (lr_ctx s)) - Z.of_nat (length (msg_reports m)) <= room (lc_res c').
Proof.
  intros Hcn Hmax (src & dst & buf & -> & Hlen) Hok Hrb Hro Hnew Hroom. unfold msg_reports in *. cbn [rm_src rm_infos lock_info_msg] in *. rewrite length_map in *.
  assert (Hu : u16 (sizeof_recovery_lock_res_msg + sizeof_recovery_lock_res * Z.of_nat (length buf)) = sizeof_recovery_lock_res_msg + sizeof_recovery_lock_res * Z.of_nat (length buf)).
  { apply Z.mod_small. unfold sizeof_recovery_lock_res_msg. change (DRC_BATCH_BUF_SIZE / sizeof_recovery_lock_res) with 1071 in Hlen. unfold sizeof_recovery_lock_res. lia. }
  unfold drc_process_recovery_lock_res, drc_check_recovery_lock_res_msg. cbn [rm_size rm_count rm_buffer_len rm_infos rm_src lock_info_msg]. rewrite Hu, Hmax.
  rewrite (proj2 (Z.ltb_ge _ _)) by (unfold sizeof_recovery_lock_res_msg, sizeof_recovery_lock_res; lia). rewrite (Z.mul_comm sizeof_recovery_lock_res), !Z.eqb_refl. cbn [negb].
  rewrite (proj2 (Z.ltb_ge _ _)) by lia. rewrite (proj2 (Z.leb_gt cluster_nodes 2)) by lia. cbn [orb].
  destruct (rcy_lock_loop_spec e src c0 buf [] reps (lr_ctx s) Hok Hrb Hro) as (c' & Hrun & H).
  { intros l Hl. apply (Hnew src). by apply (list_elem_of_fmap_2 (pair src)). } { done. }
  rewrite Nat2Z.id. cbn [app length] in Hrun. change (Z.of_nat 0) with 0 in Hrun. rewrite Hrun. ostep. by exists c'.
Qed.

Lemma handle_reports_spec e cluster_nodes c0 msgs : forall reps s,
  2 < cluster_nodes -> lr_max_count s = DRC_BATCH_BUF_SIZE / sizeof_recovery_lock_res -> Forall lock_msg_ok msgs ->
  lock_ok Q [] [] (lr_ctx s) -> locks_rebuilt c0 reps (lr_ctx s) -> lock_reports_ok (reps ++ flat_map msg_reports msgs) ->
  (forall i l, (i, l) ∈ flat_map msg_reports msgs -> lock_view c0 (lf_res_id l) = None) -> Z.of_nat (length (flat_map msg_reports msgs)) <= room (lc_res (lr_ctx s)) ->
  exists c', handle_reports e cluster_nodes msgs s = Done (length msgs, lr_set_ctx c' s) /\ lock_ok Q [] [] c' /\ locks_rebuilt c0 (reps ++ flat_map msg_reports msgs) c'.
Proof.
  induction msgs as [| m msgs IH]; intros reps s Hcn Hmax Hmsgs Hok Hrb Hro Hnew Hroom.
  - exists (lr_ctx s). cbn. rewrite app_nil_r. split; [by destruct s | done].
  - apply Forall_cons in Hmsgs as [Hm Hmsgs]. cbn [flat_map handle_reports] in *. rewrite length_app in Hroom. rewrite (assoc_L (++)) in Hro.
    destruct (process_lock_report e cluster_nodes m c0 reps s Hcn Hmax Hm Hok Hrb) as (c1 & -> & Hok1 & Hrb1 & Hr1);
      [eapply lock_reports_ok_sub; [| exact Hro]; set_solver | intros i l Hl; apply (Hnew i); set_solver | lia |]. ostep.
    destruct (IH (reps ++ msg_reports m) (lr_set_ctx c1 s) Hcn Hmax Hmsgs Hok1 Hrb1 Hro) as (c' & -> & Hok' & Hrb'); [intros i l Hl; apply (Hnew i); set_solver | cbn; lia |]. ostep.
    exists c'. split; [done |]. split; [done |]. by rewrite (assoc_L (++)).
Qed.

(** C16: a master that enters its own locks of the partitions it takes
    over first, and then the reports of the other instances in whatever order
    they arrive, acknowledges every report and ends up with a catalog in which
    every reported lock is granted, in the mode they have it in, to exactly the
    instances that have it; all other locks are as they were. *)
Theorem lock_reports_rebuild e cluster_nodes self_id send_ok sid rsn own msgs s :
  2 < cluster_nodes -> lr_max_count s = DRC_BATCH_BUF_SIZE / sizeof_recovery_lock_res -> Forall lock_msg_ok msgs -> lock_ok Q [] [] (lr_ctx s) ->
  let reps := List.map (own_report self_id) own ++ flat_map msg_reports msgs in
  lock_reports_ok reps -> NoDup (List.map ll_res_id own) -> (forall i l, (i, l) ∈ reps -> lock_view (lr_ctx s) (lf_res_id l) = None) ->
  Z.of_nat (length reps) <= room (lc_res (lr_ctx s)) ->
  exists s1 s', own_locks e self_id send_ok sid rsn own s = Done s1 /\ handle_reports e cluster_nodes msgs s1 = Done (length msgs, s') /\
    lock_ok Q [] [] (lr_ctx s') /\ locks_rebuilt (lr_ctx s) reps (lr_ctx s').
Proof.
  intros Hcn Hmax Hmsgs Hok reps Hro Hnd Hnew Hroom. subst reps. rewrite length_app, length_map in Hroom.
  assert (Hnone : forall k, ~ lock_reported [] k) by (intros k (i & l & Hl & _); by apply not_elem_of_nil in Hl).
  assert (Hinit : locks_rebuilt (lr_ctx s) [] (lr_ctx s)) by (split; [intros k Hk; by destruct (Hnone k) | done]).
  destruct (own_locks_spec e self_id send_ok sid rsn (lr_ctx s) own [] s Hok Hinit) as (c1 & Hrun1 & Hok1 & Hrb1 & Hr1).
  - eapply lock_reports_ok_sub; [| exact Hro]. set_solver.
  - intros r Hr. split; [| apply Hnone]. apply (Hnew self_id (mk_linf (ll_res_id r) (lock_mode (latch_stat r)))). apply elem_of_app. left. by apply (list_elem_of_fmap_2 (own_report self_id)).
  - done.
  - lia.
  - destruct (handle_reports_spec e cluster_nodes (lr_ctx s) msgs _ (lr_set_ctx c1 s) Hcn Hmax Hmsgs Hok1 Hrb1 Hro) as (c' & Hrun2 & H); [intros i l Hl; apply (Hnew i); set_solver | cbn; lia |].
    exists (lr_set_ctx c1 s), (lr_set_ctx c' (lr_set_ctx c1 s)). done.
Qed.
End locks.

(** ** Threads share the buffer of reports *)

Lemma send_last_nothing self_id send_ok s n : forall i,
  lr_batch s = replicate (Z.to_nat CT_MAX_INSTANCES) [] -> 0 <= i -> i + Z.of_nat n <= CT_MAX_INSTANCES -> send_last_loop self_id send_ok n i s = Done (CT_SUCCESS, s).
Proof.
  induction n as [| n IH]; intros i Hb Hi Hn; [done |]. cbn [send_last_loop].
  assert (Hz : (lr_batch s).[i] = Some []) by (rewrite Hb; apply lookupZ_Some; split; [done |]; apply lookup_replicate_2; lia).
  rewrite (arr_get_eq _ _ _ Hz). ostep. cbn [length Z.of_nat Z.eqb]. apply IH; [done | lia | lia].
Qed.

(** C32: the threads of an instance share the buffers of lock reports, and
    each thread empties them when it starts.  A lock that one thread has put
    into the buffer of its new master is not in any message when another thread
    starts before the first one sends what is left: no error is raised, no
    report is counted as sent, and so recovery is taken to be complete without
    this lock. *)
Theorem lock_reports_lost self_id send_ok r dst s buf :
  lock_mode (latch_stat r) <> DRC_LOCK_NULL -> (lr_batch s).[dst] = Some buf -> lr_max_count s = DRC_BATCH_BUF_SIZE / sizeof_recovery_lock_res ->
  Z.of_nat (length buf) + 1 < lr_max_count s ->
  exists s1, drc_collect_and_send_lock_info self_id send_ok r dst s = Done (CT_SUCCESS, s1) /\
    (lr_batch s1).[dst] = Some (buf ++ [mk_linf (ll_res_id r) (lock_mode (latch_stat r))]) /\
    exists s2, drc_send_last_lock_info self_id send_ok (drc_reset_lock_batch_buf s1) = Done (CT_SUCCESS, s2) /\
      lr_sent s2 = lr_sent s /\ lr_rcy s2 = lr_rcy s /\ lr_ctx s2 = lr_ctx s.
Proof.
  intros Hm Hbuf Hmax Hlen. unfold drc_collect_and_send_lock_info. apply Z.eqb_neq in Hm. rewrite Hm, andb_false_r, Hm. rewrite (arr_get_eq _ _ _ Hbuf). ostep.
  change (DRC_BATCH_BUF_SIZE / sizeof_recovery_lock_res) with 1071 in Hmax. rewrite (proj2 (Z.ltb_ge _ _)) by (unfold DRC_BATCH_BUF_SIZE, sizeof_recovery_lock_res; lia).
  rewrite (arr_set_eq _ _ _ _ Hbuf). ostep. rewrite length_app. cbn [length lr_max_count lr_set_batch]. rewrite (proj2 (Z.leb_gt _ _)) by lia.
  eexists. split; [reflexivity |]. split; [apply lookupZ_insertZ_eq; by eapply lookupZ_lt |]. eexists.
  split; [apply send_last_nothing; [done | done | unfold CT_MAX_INSTANCES; lia] | done].
Qed.
