(* ===== verification/RcyDemo.v ===== *)
(** * Three instances recover the pages and locks of a fourth

    Instance 3 has failed; instance 0 takes its partitions over.  Instance 1
    has a page exclusively, of which instance 2 has an earlier dirty page, and
    instances 0 and 2 share another page.  The properties of recovery are
    applied to this cluster.
    Source: src/pkg/src/cluster/dtc_drc.c. *)

From stdpp Require Import prelude list gmap relations.
From S2P Require Import Prelude Bitmap ResPool DrcList ResMap ConvertQ KeyStore GlobalRes DrcTypes DrcPage PageInv PageProps PageThms DrcLock LockProps LockThms DrcLocal BufCtrl DrcPart DrcMgrt MgrtProps DrcRcy RcyProps RcySend RcyThms RcyLock.

Open Scope Z_scope.
Open Scope drc_scope.

Module RcyDemo.
Import Demo.

Definition outcome_or {A} (d : A) (o : outcome A) : A := match o with Done a => a | Crash _ => d end.

(** ** Pages *)

Definition pg2 : page_id_t := mk_page_id 1 200.
Definition ctl (pid : page_id_t) (mode : Z) (edp : bool) (lsn : Z) : buf_ctrl :=
  mk_ctrl pid false false false false false false BUF_IS_LOADED false mode edp false BUF_TRANS_NONE 0 0 0 false (mk_page pid lsn 0) 0.

Definition staying : list Z := [0; 1; 2].
Definition old_part (h : Z) : Z := 3.
Definition new_part (h : Z) : Z := 0.
Definition bufs (i : Z) : list (list (option buf_ctrl)) :=
  if i =? 0 then [[Some (ctl pg2 DRC_LOCK_SHARE false 5)]]
  else if i =? 1 then [[None; Some (ctl pg DRC_LOCK_EXCLUSIVE false 9)]]
  else [[Some (ctl pg DRC_LOCK_NULL true 7); Some (ctl pg2 DRC_LOCK_SHARE false 5)]].

Definition rpool : lock_pool := snd (outcome_or (CT_ERROR, raw_pool) (drc_res_pool_init raw_pool 56 3 true)).
Definition rpages : buf_catalog := snd (outcome_or (CT_ERROR, raw_catalog) (drc_global_res_init raw_catalog 1300 112 true true)).
Definition start (i : Z) : rcy_ctx := mk_rcy REMASTER_RECOVERY rpages 0 0.

Lemma rpages_ok : catalog_ok (K := page_id_t) buf_inv rpool rpages /\ room rpages = 1300 /\ forall k : page_id_t, res_view rpool rpages k = None.
Proof.
  destruct (gwf_init (K := page_id_t) buf_inv buf_inv_strip raw_catalog raw_pool 112 56 1300 3) as (g & p & Hg & Hp & Hwf & Hv);
    try reflexivity; try (unfold block_header_size, CT_INVALID_ID32; lia).
  unfold rpages, rpool. rewrite Hg, Hp. cbn [outcome_or snd]. split; [eexists; split; [exact Hwf | reflexivity] |]. split; [| exact Hv].
  rewrite (gwf_room buf_inv _ _ _ Hwf). cbn [gg_free]. rewrite length_seqZ. reflexivity.
Qed.

Ltac elem_cases H := repeat (apply elem_of_cons in H as [H | H]); [.. | by apply not_elem_of_nil in H].

(** What the buffers have: who, and which control. *)
Definition held : list (Z * buf_ctrl) :=
  [(0, ctl pg2 DRC_LOCK_SHARE false 5); (1, ctl pg DRC_LOCK_EXCLUSIVE false 9); (2, ctl pg DRC_LOCK_NULL true 7); (2, ctl pg2 DRC_LOCK_SHARE false 5)].

Abbreviation held_by := (held_at staying old_part new_part 3 bufs).

Lemma held_cases m i c : held_by m i c -> (i, c) ∈ held.
Proof.
  intros [Hi Hc _ _ _]. unfold staying in Hi. elem_cases Hi; subst i; unfold bufs, ctrls_in, ctrls_of in Hc; cbn in Hc; unfold held; elem_cases Hc; subst c; set_solver.
Qed.

Lemma held_is i c : (i, c) ∈ held -> held_by 0 i c.
Proof.
  unfold held. intros H. elem_cases H; simplify_eq; (constructor; [unfold staying; set_solver | unfold bufs, ctrls_in, ctrls_of; cbn; set_solver | reflexivity | reflexivity | cbn]);
    first [by left | by right].
Qed.

Lemma demo_coherent m : coherent staying old_part new_part 3 bufs m.
Proof.
  constructor.
  - intros i c H%held_cases. unfold held in H. elem_cases H; simplify_eq; cbn; set_solver.
  - intros i c H%held_cases. unfold held in H. elem_cases H; simplify_eq; done.
  - intros i c j d Hp%held_cases Hq%held_cases. unfold held in Hp, Hq. elem_cases Hp; elem_cases Hq; simplify_eq; cbn; intros; try done.
Qed.

Lemma staying_ok i : i ∈ staying -> inst_ok i /\ i < 4.
Proof. intros Hi. unfold staying in Hi. elem_cases Hi; subst; unfold inst_ok, CT_MAX_INSTANCES; lia. Qed.

Lemma demo_about m j c : held_by m j c -> bc_page_id c ∈ [pg; pg2].
Proof. intros H%held_cases. unfold held in H. elem_cases H; simplify_eq; cbn; set_solver. Qed.

Lemma demo_room : can_rebuild rpool rpages [pg; pg2].
Proof.
  destruct rpages_ok as (Hok & Hroom & Hnone). constructor; [exact Hok | intros k _; apply Hnone | rewrite Hroom; vm_compute; discriminate].
Qed.

Lemma demo_can_recover : can_recover staying 4 REFORM_FROZEN old_part new_part 3 bufs (fun _ => rpool) (fun _ => [pg; pg2]) start.
Proof.
  constructor.
  - reflexivity.
  - exact staying_ok.
  - intros h. unfold new_part, staying. set_solver.
  - vm_compute. split; [discriminate | reflexivity].
  - intros i _. split; discriminate.
  - intros i _. split; reflexivity.
  - intros i _. split; [exact demo_room | exact (demo_about i)].
  - intros i _. exact (demo_coherent i).
  - intros i Hi. unfold staying in Hi. elem_cases Hi; subst; vm_compute; discriminate.
Qed.

(** Recovery ends with instance 1 as the owner of the first page. *)
Lemma recovery_complete_rebuilt_witness :
  exists cl b, rtc (rcy_step staying 4 REFORM_FROZEN old_part new_part 3 bufs) (rcy_init start) cl /\
    res_view rpool (ry_buf (rn_node cl 0)) pg = Some (b, []) /\ br_claimed_owner b = 1 /\ br_latest_edp b = 2 /\ br_latest_edp_lsn b = 7.
Proof.
  destruct (can_complete _ _ _ _ _ _ _ _ _ _ (rcy_init start) demo_can_recover (rtc_refl _ _) eq_refl) as (cl & Hsteps & Hall).
  destruct (recovery_complete_rebuilt _ _ _ _ _ _ _ _ _ _ cl 0 demo_can_recover Hsteps Hall) as [_ Hpages]; [unfold staying; set_solver |].
  assert (Hin1 : held_by 0 1 (ctl pg DRC_LOCK_EXCLUSIVE false 9)) by (apply held_is; right; left).
  assert (Hin2 : held_by 0 2 (ctl pg DRC_LOCK_NULL true 7)) by (apply held_is; right; right; left).
  destruct (proj1 (Hpages pg)) as (b & Hb & Ht); [by eexists _, _ |]. exists cl, b. split; [exact Hsteps |]. split; [exact Hb |].
  split; [apply (pr_owner _ _ _ _ _ _ _ _ Ht 1); [unfold inst_ok, CT_MAX_INSTANCES; lia | by eexists] |].
  destruct (pr_latest _ _ _ _ _ _ _ _ Ht 2 _ Hin2 eq_refl eq_refl) as [_ (q & Hq%held_cases & Hqk & Hqe & Hql)]. revert Hqk Hqe Hql. unfold held in Hq.
  elem_cases Hq; simplify_eq; cbn; intros; done.
Defined.

(** From the start. *)
Lemma recovery_can_complete_witness :
  exists cl, rtc (rcy_step staying 4 REFORM_FROZEN old_part new_part 3 bufs) (rcy_init start) cl /\ all_complete staying cl.
Proof. exact (recovery_can_complete _ _ _ _ _ _ _ _ _ _ (rcy_init start) demo_can_recover (rtc_refl _ _) eq_refl). Defined.

(** One report goes out, and the third look finds it acknowledged. *)
Definition one_report (c : rcy_ctx) : outcome (status_t * rcy_ctx) := Done (CT_SUCCESS, rcy_sent c).
Definition waiting : rcy_ctx := mk_rcy REMASTER_RECOVERY raw_catalog 0 0.
Definition looks (c : rcy_ctx) (k : nat) : rcy_ctx := if (k <? 2)%nat then c else drc_process_remaster_recovery_task_ack 4 REFORM_FROZEN c.

Lemma step_recover_terminates_witness :
  exists c', drc_remaster_step_recover one_report looks true waiting = Done (CT_SUCCESS, [CT_SUCCESS], c') /\ ry_status c' = REMASTER_PUBLISH.
Proof.
  destruct (step_recover_terminates one_report looks true waiting CT_SUCCESS (rcy_sent waiting) eq_refl) as (ret & acks & c' & Hrun & _ & [_ Hok] & _ & [_ Hack] & _).
  assert (Hw : waits_until (looks (rcy_sent waiting)) 0 2).
  { intros i Hi. unfold looks. rewrite (proj2 (Nat.ltb_lt i 2)) by apply Hi. split; [reflexivity | discriminate]. }
  assert (Hl : (2 <= last_turn)%nat) by (unfold last_turn; vm_compute; lia).
  assert (Hc : c' = rcy_set_status REMASTER_PUBLISH (looks (rcy_sent waiting) 2)).
  { assert (E : Done (ret, acks, c') = Done (CT_SUCCESS, [CT_SUCCESS], rcy_set_status REMASTER_PUBLISH (looks (rcy_sent waiting) 2))) by (rewrite <- Hrun; reflexivity). by injection E. }
  exists c'. rewrite Hrun, Hok, Hack; [split; [reflexivity | by rewrite Hc] | |].
  - split; [reflexivity |]. exists 2%nat. split; [exact Hl |]. split; [exact Hw | reflexivity].
  - split; [reflexivity |]. split; [reflexivity |]. exists 2%nat. split; [exact Hl |]. split; [exact Hw |]. split; [reflexivity | exact Hc].
Defined.

(** ** Locks *)

Definition rcy0 : lock_rcy := drc_reset_lock_batch_buf (mk_lrcy LockDemo.lc0 waiting [] 0 []).
Definition shared_lock : drc_local_lock_res := mk_local 0 0 LockDemo.lk true false 0 0 0 (mk_latch 1 0 0 DRC_LOCK_SHARE).
Definition share_report : rcy_msg drc_recovery_lock_res := lock_info_msg 2 0 [mk_linf LockDemo.lk DRC_LOCK_SHARE].
Definition granted (s : lock_rcy) : Z := LockDemo.grants (lr_ctx s).

Definition demo_locks : list lock_report := [(0, mk_linf LockDemo.lk DRC_LOCK_SHARE); (2, mk_linf LockDemo.lk DRC_LOCK_SHARE)].

Lemma demo_locks_eq : List.map (own_report 0) [shared_lock] ++ flat_map msg_reports [share_report] = demo_locks.
Proof. reflexivity. Qed.

Lemma demo_locks_ok : lock_reports_ok demo_locks.
Proof.
  unfold demo_locks. constructor.
  - intros i l H. elem_cases H; simplify_eq; unfold inst_ok, CT_MAX_INSTANCES; lia.
  - intros i l H. elem_cases H; simplify_eq; by left.
  - intros i l j l' H H'. elem_cases H; elem_cases H'; simplify_eq; cbn; done.
Qed.

Lemma demo_holders i : holds_lock demo_locks LockDemo.lk i <-> i ∈ ({[0; 2]} : gset Z).
Proof.
  split.
  - intros (l & Hl & _). unfold demo_locks in Hl. elem_cases Hl; simplify_eq; set_solver.
  - intros Hi. exists (mk_linf LockDemo.lk DRC_LOCK_SHARE). split; [unfold demo_locks; set_solver | reflexivity].
Qed.

Lemma demo_reported : lock_reported demo_locks LockDemo.lk.
Proof. exists 0. apply demo_holders. set_solver. Qed.

(** Instance 0 enters its own lock, then the report of instance 2. *)
Lemma lock_reports_rebuild_witness :
  exists s', handle_reports LockDemo.env 4 [share_report] (outcome_or rcy0 (own_locks LockDemo.env 0 (fun _ _ => true) 7 8 [shared_lock] rcy0)) = Done (1%nat, s') /\
    exists a, lock_view (lr_ctx s') LockDemo.lk = Some (a, []) /\ inst_set (mr_granted_map a) = {[0; 2]}.
Proof.
  destruct (lock_reports_rebuild LockDemo.alone LockDemo.env 4 0 (fun _ _ => true) 7 8 [shared_lock] [share_report] rcy0) as (s1 & s' & H1 & H2 & _ & [Htold _]); try rewrite demo_locks_eq in *.
  - reflexivity.
  - reflexivity.
  - apply Forall_singleton. exists 2, 0, [mk_linf LockDemo.lk DRC_LOCK_SHARE]. split; [reflexivity | vm_compute; discriminate].
  - exact LockDemo.lc0_ok.
  - exact demo_locks_ok.
  - apply NoDup_singleton.
  - intros i l H. unfold demo_locks in H. elem_cases H; simplify_eq; vm_compute; reflexivity.
  - vm_compute. discriminate.
  - exists s'. rewrite H1. cbn [outcome_or]. split; [exact H2 |].
    destruct (Htold LockDemo.lk demo_reported) as (a & Ha & Ht). exists a. split; [exact Ha |].
    apply set_eq. intros i. rewrite (lt_granted _ _ _ Ht). apply demo_holders.
Defined.

(** When the report of another instance arrives before the master has
    gone through its own locks, the master creates a second resource for a lock
    that both share, and forgets the other instance: instance 2 has the lock but
    is not among the owners any more, and a request for the lock in exclusive
    mode is told that instance 0 is its only owner. *)
Theorem local_recovery_shadows_reports :
  exists s1 s2, drc_process_recovery_lock_res LockDemo.env 4 share_report rcy0 = Done (true, s1) /\
    drc_recovery_lockinfo LockDemo.env 0 (fun _ _ => true) 7 8 shared_lock 0 s1 = Done s2 /\
    granted s1 = Z.shiftl 1 2 /\ granted s2 = Z.shiftl 1 0 /\
    exists ans c, drc_request_lock_owner LockDemo.env [] LockDemo.lk (LockDemo.req 1 DRC_LOCK_EXCLUSIVE 100) LockDemo.ans0 1 (lr_ctx s2) = Done (Some ans, c) /\
      la_status ans = CT_SUCCESS /\ la_old_owner_map ans = Z.shiftl 1 0.
Proof.
  eexists _, _. split; [vm_compute; reflexivity |]. split; [vm_compute; reflexivity |]. split; [vm_compute; reflexivity |]. split; [vm_compute; reflexivity |].
  eexists _, _. split; [vm_compute; reflexivity |]. split; vm_compute; reflexivity.
Qed.

Lemma lock_reports_lost_witness :
  exists s1 s2, drc_collect_and_send_lock_info 1 (fun _ _ => true) shared_lock 0 rcy0 = Done (CT_SUCCESS, s1) /\
    (lr_batch s1).[0] = Some [mk_linf LockDemo.lk DRC_LOCK_SHARE] /\
    drc_send_last_lock_info 1 (fun _ _ => true) (drc_reset_lock_batch_buf s1) = Done (CT_SUCCESS, s2) /\ lr_sent s2 = [].
Proof.
  destruct (lock_reports_lost 1 (fun _ _ => true) shared_lock 0 rcy0 []) as (s1 & H1 & Hb & s2 & H2 & Hs & _); [discriminate | reflexivity | reflexivity | vm_compute; reflexivity |].
  exists s1, s2. split; [exact H1 |]. split; [exact Hb |]. split; [exact H2 | exact Hs].
Defined.
End RcyDemo.
