(* ===== verification/DrcAssign.v ===== *)
(** * Assignment of remaster tasks (dtc_drc.c)

    The reformer has planned which partitions move.  It keeps its own tasks and
    sends to every other instance of the reform the tasks of that instance,
    with the whole set of tasks; an instance that gets them goes on to migrate.
    Instances tell the reformer how far they are, and get the new table and the
    end of the remaster from it.

    A node is the part of drc_part_mngr_t and drc_remaster_mngr_t that these
    messages touch.  [link k] tells whether the [k]-th message could be sent and
    whether its answer came in time.  Log lines and SYNC_POINT hooks are left out.
    Source: src/pkg/src/cluster/dtc_drc.c, dtc_drc.h. *)

From stdpp Require Import prelude list.
From S2P Require Import Prelude Bitmap ResMap GlobalRes DrcTypes DrcPart DrcMgrt.

Open Scope Z_scope.
Open Scope drc_scope.

(** ** Data *)

Definition sizeof_remaster_task_msg : Z := 64.
Definition sizeof_part_map : Z := DRC_MAX_PART_NUM * 4.
Definition sizeof_inst_part_tbl : Z := CT_MAX_INSTANCES * 12.
Definition sizeof_remaster_task : Z := 8.
Definition sizeof_task_set : Z := DRC_MAX_PART_NUM * sizeof_remaster_task.

(** A message with tasks; [tm_tasks] are those of its receiver. *)
Record drc_remaster_task_msg := mk_tmsg {
  tm_src : Z; tm_dst : Z; tm_size : Z; tm_task_num : Z; tm_task_buffer_len : Z; tm_version : Z;
  tm_part_map : list drc_part; tm_inst_tbl : list drc_inst_part; tm_task_set : list drc_remaster_task; tm_tasks : list drc_remaster_task;
}.

(** [rs_task_nums] and [rs_drm] are the two fields of inst_drm_info. *)
Record remaster_node := mk_rnode {
  rs_mngr : drc_part_mngr; rs_version : Z;
  rs_local_set : list drc_remaster_task; rs_local_num : Z;
  rs_task_nums : list Z; rs_drm : list drc_remaster_status; rs_complete_num : Z;
  rs_sent : list drc_remaster_task_msg;
}.

Definition rs_set_mngr (m : drc_part_mngr) (s : remaster_node) : remaster_node :=
  mk_rnode m (rs_version s) (rs_local_set s) (rs_local_num s) (rs_task_nums s) (rs_drm s) (rs_complete_num s) (rs_sent s).
Definition rs_set_local (ts : list drc_remaster_task) (n : Z) (s : remaster_node) : remaster_node :=
  mk_rnode (rs_mngr s) (rs_version s) ts n (rs_task_nums s) (rs_drm s) (rs_complete_num s) (rs_sent s).
Definition rs_set_task_nums (ns : list Z) (s : remaster_node) : remaster_node :=
  mk_rnode (rs_mngr s) (rs_version s) (rs_local_set s) (rs_local_num s) ns (rs_drm s) (rs_complete_num s) (rs_sent s).
Definition rs_set_drm (d : list drc_remaster_status) (s : remaster_node) : remaster_node :=
  mk_rnode (rs_mngr s) (rs_version s) (rs_local_set s) (rs_local_num s) (rs_task_nums s) d (rs_complete_num s) (rs_sent s).
Definition rs_completed (s : remaster_node) : remaster_node :=
  mk_rnode (rs_mngr s) (rs_version s) (rs_local_set s) (rs_local_num s) (rs_task_nums s) (rs_drm s) (rs_complete_num s + 1) (rs_sent s).
Definition rs_send (m : drc_remaster_task_msg) (s : remaster_node) : remaster_node :=
  mk_rnode (rs_mngr s) (rs_version s) (rs_local_set s) (rs_local_num s) (rs_task_nums s) (rs_drm s) (rs_complete_num s) (rs_sent s ++ [m]).
Definition rs_status (s : remaster_node) : drc_remaster_status := pm_remaster_status (rs_mngr s).
Definition rs_update (st : drc_remaster_status) (s : remaster_node) : remaster_node :=
  rs_set_mngr (drc_update_remaster_local_status st (rs_mngr s)) s.

(** The set of tasks of a node. *)
Definition rs_tasks (s : remaster_node) : list drc_remaster_task := remaster_task_set (remaster_mngr (rs_mngr s)).

(** Not used by the program. *)
Definition drc_get_task_owner (t : drc_remaster_task) : Z := if task_status t =? PART_WAIT_MIGRATE then export_inst t else import_inst t.

(** ** The reformer *)

Section assign.
Context (self_id : Z) (link : nat -> bool * bool).

Definition task_msg (dst : Z) (body : list drc_remaster_task) (s : remaster_node) : drc_remaster_task_msg :=
  let rm := remaster_mngr (rs_mngr s) in
  let num := Z.of_nat (length body) in
  mk_tmsg self_id dst (u32 (sizeof_remaster_task_msg + sizeof_part_map + sizeof_inst_part_tbl + sizeof_task_set + num * sizeof_remaster_task))
    num (num * sizeof_remaster_task) (rs_version s) (target_part_map rm) (target_inst_part_tbl rm) (remaster_task_set rm) body.

(** The body is the [num] tasks of the set from [pos] on. *)
Definition drc_send_remaster_task_msg (pos num dst : Z) (s : remaster_node) : outcome (status_t * remaster_node) :=
  if self_id =? dst then Done (CT_SUCCESS, s)
  else if Z.of_nat (length (rs_tasks s)) <? pos + num then Crash OutOfBounds
  else
    let body := slice pos (pos + num) (rs_tasks s) in
    let '(sent, answered) := link (length (rs_sent s)) in
    if negb sent then Done (CT_ERROR, s)
    else Done (if (answered : bool) then CT_SUCCESS else CT_ERROR, rs_send (task_msg dst body s) s).

(** The task at [pos] becomes a local one. *)
Definition put_local (pos : Z) (s : remaster_node) : outcome remaster_node :=
  t ← arr_get (rs_tasks s) pos;
  ts ← arr_set (rs_local_set s) (rs_local_num s) t;
  Done (rs_set_local ts (u32 (rs_local_num s + 1)) s).

(** The tasks of [cur_inst] from [cur_pos] on are complete. *)
Definition assign_run (cur_inst cur_pos inst_part_num : Z) (s : remaster_node) : outcome (status_t * remaster_node) :=
  if cur_inst =? self_id then s ← put_local cur_pos s; Done (CT_SUCCESS, s)
  else
    '(ret, s) ← drc_send_remaster_task_msg cur_pos inst_part_num cur_inst s;
    match (ret : status_t) with
    | CT_ERROR => Done (CT_ERROR, s)
    | CT_SUCCESS => ns ← arr_set (rs_task_nums s) cur_inst (u16 inst_part_num); Done (CT_SUCCESS, rs_set_task_nums ns s)
    end.

(** [n] tasks from number [i] on; the last run is left to the caller. *)
Fixpoint assign_loop (n : nat) (i cur_inst cur_pos inst_part_num : Z) (s : remaster_node) : outcome (status_t * (Z * Z * Z) * remaster_node) :=
  match n with
  | O => Done (CT_SUCCESS, (cur_inst, cur_pos, inst_part_num), s)
  | S n =>
      t ← arr_get (rs_tasks s) i;
      if negb (cur_inst =? export_inst t) then
        '(ret, s) ← assign_run cur_inst cur_pos inst_part_num s;
        match (ret : status_t) with
        | CT_ERROR => Done (CT_ERROR, (cur_inst, cur_pos, inst_part_num), s)
        | CT_SUCCESS => assign_loop n (i + 1) (export_inst t) (u32 (cur_pos + inst_part_num)) 1 s
        end
      else if cur_inst =? self_id then
        s ← put_local cur_pos s;
        assign_loop n (i + 1) (export_inst t) (u32 (cur_pos + inst_part_num)) 1 s
      else assign_loop n (i + 1) cur_inst cur_pos (u32 (inst_part_num + 1)) s
  end.

(** Instances without tasks are told so. *)
Fixpoint tell_idle (ids : list Z) (s : remaster_node) : outcome (status_t * remaster_node) :=
  match ids with
  | [] => Done (CT_SUCCESS, s)
  | id :: ids =>
      n ← arr_get (rs_task_nums s) id;
      if n =? 0 then
        '(ret, s) ← drc_send_remaster_task_msg 0 0 id s;
        match (ret : status_t) with CT_ERROR => Done (CT_ERROR, s) | CT_SUCCESS => tell_idle ids s end
      else tell_idle ids s
  end.

Definition drc_assign_remaster_task (rf : reform_info) (s : remaster_node) : outcome (status_t * remaster_node) :=
  let num := task_num (remaster_mngr (rs_mngr s)) in
  '(ret, s) ← (if 0 <? num then
                 t ← arr_get (rs_tasks s) 0;
                 '(ret, (cur_inst, cur_pos, inst_part_num), s) ← assign_loop (Z.to_nat (num - 1)) 1 (export_inst t) 0 1 s;
                 match (ret : status_t) with CT_ERROR => Done (CT_ERROR, s) | CT_SUCCESS => assign_run cur_inst cur_pos inst_part_num s end
               else Done (CT_SUCCESS, s));
  match (ret : status_t) with
  | CT_ERROR => Done (CT_ERROR, s)
  | CT_SUCCESS =>
      ns ← arr_set (rs_task_nums s) self_id (u16 (rs_local_num s));
      '(ret, s) ← tell_idle (rf_ids (rf_after rf)) (rs_set_task_nums ns s);
      match (ret : status_t) with CT_ERROR => Done (CT_ERROR, s) | CT_SUCCESS => tell_idle (rf_ids (rf_leave rf)) s end
  end.
End assign.

(** ** The instances *)

(** The checks of the reform that all these messages share. *)
Definition out_of_reform (rc : reform_status) : bool := (reform_num REFORM_RECOVER_DONE <=? reform_num rc) || (reform_num rc <? reform_num REFORM_FROZEN).

Definition drc_accept_remaster_task_parameter_check (rc : reform_status) (m : drc_remaster_task_msg) (s : remaster_node) : status_t :=
  if bool_decide (rs_status s = REMASTER_DONE) || out_of_reform rc || negb (tm_task_buffer_len m =? tm_task_num m * sizeof_remaster_task) ||
     negb (tm_version m =? rs_version s) || (DRC_MAX_PART_NUM <? tm_task_num m)
  then CT_ERROR else CT_SUCCESS.

Definition drc_check_accept_remaster_task_msg (rc : reform_status) (m : drc_remaster_task_msg) (s : remaster_node) : status_t :=
  if tm_size m <? sizeof_remaster_task_msg then CT_ERROR
  else if negb (sizeof_remaster_task_msg + sizeof_part_map + sizeof_task_set + sizeof_inst_part_tbl + tm_task_num m * sizeof_remaster_task =? tm_size m) then CT_ERROR
  else drc_accept_remaster_task_parameter_check rc m s.

(** [true] when the message is acknowledged. *)
Definition drc_accept_remaster_task (rc : reform_status) (m : drc_remaster_task_msg) (s : remaster_node) : bool * remaster_node :=
  match drc_check_accept_remaster_task_msg rc m s with
  | CT_ERROR => (false, s)
  | CT_SUCCESS =>
      let s := rs_set_local (rs_local_set s) (tm_task_num m) s in
      if negb (bool_decide (rs_status s = REMASTER_ASSIGN_TASK)) then (true, s)
      else
        let s := rs_update REMASTER_MIGRATE s in
        let rm := remaster_mngr (rs_mngr s) in
        let s := rs_set_mngr (pm_set_remaster (rs_mngr s) (rm_set_tasks rm (tm_task_set m) (task_num rm))) s in
        if tm_task_num m =? 0 then (true, s)
        else (true, rs_set_local (tm_tasks m ++ drop (Z.to_nat (tm_task_num m)) (rs_local_set s)) (rs_local_num s) s)
  end.

(** An instance has done its tasks: the reformer itself counts, the others send. *)
Definition drc_remaster_task_ack (self_id : Z) (send_ok : bool) (s : remaster_node) : outcome (status_t * remaster_node) :=
  if self_id =? remaster_inst (rs_mngr s) then
    let s := rs_completed s in
    '(_, drm) ← drc_master_update_inst_remaster_status (remaster_inst (rs_mngr s)) REMASTER_PUBLISH (rs_drm s);
    Done (CT_SUCCESS, rs_set_drm drm s)
  else Done (if send_ok then CT_SUCCESS else CT_ERROR, s).

(** The reformer gets such a message of [src]. *)
Definition drc_process_remaster_task_ack (rc : reform_status) (node_count src : Z) (st : status_t) (ver : Z) (s : remaster_node) : outcome remaster_node :=
  if bool_decide (rs_status s = REMASTER_DONE) || out_of_reform rc || (node_count <? src) || negb (ver =? rs_version s) then Done s
  else
    match st with
    | CT_ERROR => Done s
    | CT_SUCCESS =>
        d ← arr_get (rs_drm s) src;
        if decide (d = REMASTER_PUBLISH) then Done s
        else
          '(_, drm) ← drc_master_update_inst_remaster_status src REMASTER_PUBLISH (rs_drm s);
          Done (rs_set_drm drm (rs_completed s))
    end.

Definition drc_process_remaster_status_notify (rc : reform_status) (src : Z) (st : drc_remaster_status) (ver : Z) (s : remaster_node) : outcome remaster_node :=
  if out_of_reform rc || negb (ver =? rs_version s) then Done s
  else if CT_MAX_INSTANCES <=? src then Done s
  else
    drm ← arr_set (rs_drm s) src st;
    let s := rs_set_drm drm s in
    Done (if decide (st = REMASTER_FAIL) then rs_update REMASTER_FAIL s else s).

(** *** The new table *)

Record drc_remaster_target_part_msg := mk_pmsg {
  pg_status : status_t; pg_version : Z; pg_buffer_len : Z; pg_part_map : list drc_part; pg_inst_tbl : list drc_inst_part;
}.

(** The message of a remaster that succeeded. *)
Definition target_part_msg (s : remaster_node) : drc_remaster_target_part_msg :=
  mk_pmsg CT_SUCCESS (rs_version s) (sizeof_part_map + sizeof_inst_part_tbl) (target_part_map (remaster_mngr (rs_mngr s))) (target_inst_part_tbl (remaster_mngr (rs_mngr s))).

Definition drc_update_target_part (m : drc_remaster_target_part_msg) (p : drc_part_mngr) : drc_part_mngr :=
  mk_mngr (version p) (pm_inited p) (inst_num p) (pm_remaster_status p) (is_reentrant p) (remaster_inst p) (mgrt_fail_list p)
    (pg_part_map m) (pg_inst_tbl m) (remaster_mngr p).

Definition drc_accept_target_part_parameter_check (rc : reform_status) (m : drc_remaster_target_part_msg) (s : remaster_node) : status_t :=
  if bool_decide (rs_status s = REMASTER_DONE) || out_of_reform rc || negb (pg_buffer_len m =? sizeof_part_map + sizeof_inst_part_tbl) || negb (pg_version m =? rs_version s)
  then CT_ERROR else CT_SUCCESS.

(** The status of the answer, [None] when there is none, the deposit map and the node. *)
Definition drc_accept_target_part (rc : reform_status) (rf : reform_info) (dm : list Z) (m : drc_remaster_target_part_msg) (s : remaster_node)
    : outcome (option status_t * list Z * remaster_node) :=
  if decide (rs_status s = REMASTER_FAIL) then Done (None, dm, s)
  else
    match pg_status m with
    | CT_ERROR => Done (None, dm, rs_update REMASTER_FAIL s)
    | CT_SUCCESS =>
        match drc_accept_target_part_parameter_check rc m s with
        | CT_ERROR => Done (Some CT_ERROR, dm, s)
        | CT_SUCCESS =>
            dm ← drc_remaster_inst_list rf dm;
            Done (Some CT_SUCCESS, dm, rs_set_mngr (drc_update_target_part m (rs_mngr s)) s)
        end
    end.

(** The remaster is over; [true] when the message is answered. *)
Definition drc_accept_remaster_done (rc : reform_status) (ver : Z) (s : remaster_node) : bool * remaster_node :=
  if bool_decide (rs_status s = REMASTER_DONE) || out_of_reform rc || negb (ver =? rs_version s) then (false, s)
  else if decide (rs_status s = REMASTER_FAIL) then (false, s)
  else if negb (bool_decide (rs_status s = REMASTER_PUBLISH)) then (false, s)
  else (true, rs_update REMASTER_DONE s).
