(* ===== verification/AssignThms.v ===== *)
(** * Assignment of remaster tasks: properties

    When the tasks of an instance follow one another in the set, as they do
    after a join or a departure, every instance gets exactly its tasks; when
    they do not, as after a reform with both, tasks are lost.
    Source: src/pkg/src/cluster/dtc_drc.c. *)

From Stdlib Require Import Sorted.
From stdpp Require Import prelude list.
From S2P Require Import Prelude Bitmap ResMap GlobalRes DrcTypes DrcPart DrcMgrt PartProps PartThms DrcAssign.

Open Scope Z_scope.
Open Scope drc_scope.

Implicit Types (T pre run post : list drc_remaster_task) (s : remaster_node).

(** ** Tasks and messages *)

Definition tasks_of (d : Z) T : list drc_remaster_task := List.filter (fun t => export_inst t =? d) T.

Definition msgs_to (d : Z) (sent : list drc_remaster_task_msg) : list drc_remaster_task_msg := List.filter (fun m => tm_dst m =? d) sent.

(** The tasks of an instance follow one another. *)
Definition grouped T : Prop :=
  forall (i j k : nat) a b c, (i < j < k)%nat -> T !! i = Some a -> T !! j = Some b -> T !! k = Some c -> export_inst a = export_inst c -> export_inst b = export_inst a.

Definition all_from (x : Z) run : Prop := Forall (fun t => export_inst t = x) run.

Lemma tasks_of_app d l1 l2 : tasks_of d (l1 ++ l2) = tasks_of d l1 ++ tasks_of d l2.
Proof. apply List.filter_app. Qed.

Lemma tasks_of_run x d run : all_from x run -> tasks_of d run = if x =? d then run else [].
Proof.
  induction 1 as [| t run Ht _ IH]; [by destruct (x =? d) |]. unfold tasks_of in *. cbn. rewrite Ht, IH. by destruct (x =? d).
Qed.

Lemma tasks_of_nil d T : (forall t, t ∈ T -> export_inst t <> d) -> tasks_of d T = [].
Proof.
  induction T as [| t T IH]; intros H; [done |]. unfold tasks_of in *. cbn. rewrite (proj2 (Z.eqb_neq _ _)) by (apply H; set_solver). apply IH. intros u Hu. apply H. set_solver.
Qed.

Lemma msgs_to_app d l1 l2 : msgs_to d (l1 ++ l2) = msgs_to d l1 ++ msgs_to d l2.
Proof. apply List.filter_app. Qed.

Lemma tasks_of_length d T : (length (tasks_of d T) <= length T)%nat.
Proof. unfold tasks_of. apply filter_length_le. Qed.

(** A run that starts with another instance than the one before has not been there before. *)
Lemma grouped_new T pre run t post x :
  grouped T -> T = pre ++ run ++ t :: post -> run <> [] -> all_from x run -> export_inst t <> x -> tasks_of (export_inst t) (pre ++ run) = [].
Proof.
  intros Hg -> Hne Hrun Hx. rewrite tasks_of_app, (tasks_of_run x _ run Hrun), (proj2 (Z.eqb_neq x _)) by done. rewrite app_nil_r.
  apply tasks_of_nil. intros u Hu E. apply list_elem_of_lookup in Hu as [i Hi]. destruct run as [| r run]; [done |].
  apply Forall_cons in Hrun as [Hr _]. pose proof (lookup_lt_Some _ _ _ Hi) as Hlt.
  specialize (Hg i (length pre) (length pre + S (length run))%nat u r t). rewrite Hr, E in Hg. apply Hx. symmetry. apply Hg; try done; [lia | | |].
  - by rewrite lookup_app_l.
  - rewrite <- app_comm_cons. by apply list_lookup_middle.
  - rewrite lookup_app_r by lia. replace (length pre + S (length run) - length pre)%nat with (length (r :: run)) by (cbn; lia). by rewrite list_lookup_middle.
Qed.

Lemma insertZ_nat {A} (l : list A) (n : nat) x : (n < length l)%nat -> l.[Z.of_nat n <- x] = <[n := x]> l.
Proof. intros Hn. unfold insertZ. rewrite Nat2Z.id. by rewrite (proj2 (Z.leb_le _ _)), (proj2 (Z.ltb_lt _ _)) by lia. Qed.

(** ** The reformer *)

Section assign.
Context (self_id : Z) (link : nat -> bool * bool) (Hlink : forall k, link k = (true, true)).
Context (s0 : remaster_node) (T rest : list drc_remaster_task).
Context (Htasks : rs_tasks s0 = T ++ rest) (Hmax : (length T <= Z.to_nat DRC_MAX_PART_NUM)%nat).
Context (Hids : forall t, t ∈ T -> 0 <= export_inst t < CT_MAX_INSTANCES) (Hself : 0 <= self_id < CT_MAX_INSTANCES).

(** What instance [d] is told of tasks [l]. *)
Definition told_tasks (d : Z) (l : list drc_remaster_task) : list drc_remaster_task_msg := match l with [] => [] | _ => [task_msg self_id d l s0] end.

(** The tasks [pre] are assigned. *)
Record assigning pre s : Prop := mk_assigning {
  ai_mngr : rs_mngr s = rs_mngr s0 /\ rs_version s = rs_version s0;
  ai_len : length (rs_local_set s) = Z.to_nat DRC_MAX_PART_NUM;
  ai_num : rs_local_num s = Z.of_nat (length (tasks_of self_id pre));
  ai_local : take (length (tasks_of self_id pre)) (rs_local_set s) = tasks_of self_id pre;
  ai_self : msgs_to self_id (rs_sent s) = [];
  ai_sent : forall d, d <> self_id -> msgs_to d (rs_sent s) = told_tasks d (tasks_of d pre);
  ai_nlen : length (rs_task_nums s) = Z.to_nat CT_MAX_INSTANCES;
  ai_nums : forall d, 0 <= d < CT_MAX_INSTANCES -> d <> self_id -> (rs_task_nums s).[d] = Some (Z.of_nat (length (tasks_of d pre)));
}.

Lemma assigning_tasks pre s : assigning pre s -> rs_tasks s = T ++ rest.
Proof. intros []. unfold rs_tasks. destruct ai_mngr0 as [-> _]. exact Htasks. Qed.

(** One task more for the reformer. *)
Lemma put_local_spec pre t post s :
  assigning pre s -> T = pre ++ t :: post -> export_inst t = self_id ->
  exists s', put_local (Z.of_nat (length pre)) s = Done s' /\ assigning (pre ++ [t]) s'.
Proof.
  intros Ha HT Ht. pose proof (assigning_tasks _ _ Ha) as Hts. destruct Ha. unfold put_local. rewrite Hts, HT, <- (assoc_L (++)). cbn [app].
  rewrite (arr_get_eq _ _ _ (lookupZ_middle pre (post ++ rest) t)). ostep.
  assert (Hlt : (length (tasks_of self_id pre) < Z.to_nat DRC_MAX_PART_NUM)%nat).
  { pose proof (tasks_of_length self_id pre). rewrite HT, length_app in Hmax. cbn in Hmax. lia. }
  destruct (lookupZ_is_Some (rs_local_set s) (rs_local_num s)) as [old Hold]; [rewrite ai_len0, ai_num0; unfold DRC_MAX_PART_NUM in *; lia |].
  rewrite (arr_set_eq _ _ _ _ Hold). ostep. eexists. split; [reflexivity |].
  assert (Hof : tasks_of self_id (pre ++ [t]) = tasks_of self_id pre ++ [t]) by (rewrite tasks_of_app; cbn; by rewrite Ht, Z.eqb_refl).
  assert (Hoth : forall d, d <> self_id -> tasks_of d (pre ++ [t]) = tasks_of d pre).
  { intros d Hd. rewrite tasks_of_app. cbn. rewrite Ht, (proj2 (Z.eqb_neq self_id d)) by done. apply app_nil_r. }
  constructor; cbn [rs_mngr rs_version rs_local_set rs_local_num rs_sent rs_task_nums rs_set_local]; try done.
  - by rewrite length_insertZ.
  - rewrite Hof, length_app, ai_num0, u32_small; [cbn; lia | unfold DRC_MAX_PART_NUM in *; lia].
  - rewrite Hof, length_app. cbn [length]. rewrite ai_num0. apply lookupZ_Some in Hold as [_ Hold]. rewrite ai_num0, Nat2Z.id in Hold.
    rewrite insertZ_nat by lia. rewrite Nat.add_1_r, (take_S_r _ _ t) by (apply list_lookup_insert_eq; lia). rewrite take_insert_ge by lia. by rewrite ai_local0.
  - intros d Hd. rewrite Hoth by done. by apply ai_sent0.
  - intros d Hr Hd. rewrite Hoth by done. by apply ai_nums0.
Qed.

Lemma slice_middle {A} (l1 l2 l3 : list A) : slice (Z.of_nat (length l1)) (Z.of_nat (length l1) + Z.of_nat (length l2)) (l1 ++ l2 ++ l3) = l2.
Proof.
  unfold slice. rewrite Nat2Z.id, drop_app_length. replace (Z.to_nat (Z.of_nat (length l1) + Z.of_nat (length l2) - Z.of_nat (length l1))) with (length l2) by lia.
  by rewrite take_app_length.
Qed.

Lemma task_msg_same d l s : rs_mngr s = rs_mngr s0 /\ rs_version s = rs_version s0 -> task_msg self_id d l s = task_msg self_id d l s0.
Proof. unfold task_msg. by intros [-> ->]. Qed.

Lemma send_spec l1 l2 l3 d s :
  rs_tasks s = l1 ++ l2 ++ l3 -> rs_mngr s = rs_mngr s0 /\ rs_version s = rs_version s0 -> d <> self_id ->
  drc_send_remaster_task_msg self_id link (Z.of_nat (length l1)) (Z.of_nat (length l2)) d s = Done (CT_SUCCESS, rs_send (task_msg self_id d l2 s0) s).
Proof.
  intros Hts Hm Hd. unfold drc_send_remaster_task_msg. rewrite (proj2 (Z.eqb_neq _ _)) by done. rewrite (proj2 (Z.ltb_ge _ _)) by (rewrite Hts, !length_app; lia).
  rewrite Hlink, Hts, slice_middle. cbn [negb]. by rewrite task_msg_same.
Qed.

(** A run of tasks of one instance. *)
Record run_ok (x : Z) pre run : Prop := mk_run_ok {
  ru_ne : run <> [];
  ru_all : all_from x run;
  ru_self : x = self_id -> length run = 1%nat;
  ru_new : x <> self_id -> tasks_of x pre = [];
}.

Lemma assign_run_spec x pre run post s :
  assigning pre s -> T = pre ++ run ++ post -> run_ok x pre run ->
  exists s', assign_run self_id link x (Z.of_nat (length pre)) (Z.of_nat (length run)) s = Done (CT_SUCCESS, s') /\ assigning (pre ++ run) s'.
Proof.
  intros Ha HT []. unfold assign_run. destruct (Z.eqb_spec x self_id) as [-> | Hne].
  - specialize (ru_self0 eq_refl). destruct run as [| t run]; [done |]. destruct run; [| done]. apply Forall_cons in ru_all0 as [Ht _].
    destruct (put_local_spec pre t post s Ha HT Ht) as (s' & -> & Ha'). ostep. by exists s'.
  - specialize (ru_new0 Hne). pose proof (assigning_tasks _ _ Ha) as Hts. destruct Ha.
    assert (Hx : 0 <= x < CT_MAX_INSTANCES).
    { destruct run as [| t run]; [done |]. apply Forall_cons in ru_all0 as [<- _]. apply Hids. rewrite HT. set_solver. }
    rewrite (send_spec pre run (post ++ rest) x s); [| rewrite Hts, HT, <- !app_assoc; reflexivity | done | done]. ostep. cbn [rs_task_nums rs_send].
    rewrite (arr_set_eq _ _ _ _ (ai_nums0 x Hx Hne)). ostep. eexists. split; [reflexivity |].
    assert (Hof : forall d, tasks_of d (pre ++ run) = tasks_of d pre ++ if x =? d then run else []) by (intros d; rewrite tasks_of_app; by rewrite (tasks_of_run x d run)).
    assert (Hlr : (length run <= Z.to_nat DRC_MAX_PART_NUM)%nat) by (rewrite HT, !length_app in Hmax; lia).
    constructor; cbn [rs_mngr rs_version rs_local_set rs_local_num rs_sent rs_task_nums rs_set_task_nums rs_send]; try done.
    + by rewrite Hof, (proj2 (Z.eqb_neq x self_id)), app_nil_r.
    + by rewrite Hof, (proj2 (Z.eqb_neq x self_id)), app_nil_r.
    + rewrite msgs_to_app, ai_self0. cbn. by rewrite (proj2 (Z.eqb_neq x self_id)).
    + intros d Hd. rewrite msgs_to_app, Hof, ai_sent0 by done. cbn. destruct (Z.eqb_spec x d) as [<- | Hxd]; [| by rewrite !app_nil_r].
      rewrite ru_new0. cbn. unfold told_tasks. by destruct run.
    + by rewrite length_insertZ.
    + intros d Hr Hd. rewrite Hof. destruct (Z.eqb_spec x d) as [<- | Hxd].
      * rewrite lookupZ_insertZ_eq by (rewrite ai_nlen0; lia). rewrite ru_new0. cbn [app]. f_equal. apply Z.mod_small. unfold DRC_MAX_PART_NUM in Hlr. lia.
      * rewrite lookupZ_insertZ_ne by done. rewrite app_nil_r. by apply ai_nums0.
Qed.

Context (Hgroup : grouped T).

Lemma assign_loop_spec post : forall pre run x s,
  assigning pre s -> T = pre ++ run ++ post -> run_ok x pre run ->
  exists x' pre' run' s', assign_loop self_id link (length post) (Z.of_nat (length (pre ++ run))) x (Z.of_nat (length pre)) (Z.of_nat (length run)) s =
      Done (CT_SUCCESS, (x', Z.of_nat (length pre'), Z.of_nat (length run')), s') /\
    assigning pre' s' /\ T = pre' ++ run' /\ run_ok x' pre' run'.
Proof.
  induction post as [| t post IH]; intros pre run x s Ha HT Hr.
  - exists x, pre, run, s. split; [done |]. split; [done |]. split; [by rewrite app_nil_r in HT | done].
  - cbn [length assign_loop]. pose proof (assigning_tasks _ _ Ha) as Hts. 
    assert (Hget : arr_get (rs_tasks s) (Z.of_nat (length (pre ++ run))) = Done t).
    { apply arr_get_eq. rewrite Hts, HT, (assoc_L (++) pre), <- (assoc_L (++) _ _ rest). apply lookupZ_middle. }
    rewrite Hget. ostep.
    assert (HT' : T = (pre ++ run) ++ [t] ++ post) by (by rewrite HT, <- (assoc_L (++))).
    assert (Hpos : u32 (Z.of_nat (length pre) + Z.of_nat (length run)) = Z.of_nat (length (pre ++ run))).
    { rewrite length_app, u32_small; [lia |]. rewrite HT, !length_app in Hmax. unfold DRC_MAX_PART_NUM in Hmax. lia. }
    assert (Hnext : Z.of_nat (length (pre ++ run)) + 1 = Z.of_nat (length ((pre ++ run) ++ [t]))) by (rewrite (length_app _ [t]); cbn; lia).
    destruct (Z.eqb_spec x (export_inst t)) as [Hx | Hx]; cbn [negb].
    + destruct (Z.eqb_spec x self_id) as [Hs | Hs].
      * destruct Hr as [Hne Hall Hone _]. specialize (Hone Hs). destruct run as [| u [|]]; [done | | done]. apply Forall_cons in Hall as [Hu _].
        destruct (put_local_spec pre u (t :: post) s Ha HT) as (s' & -> & Ha'); [congruence |]. ostep. rewrite Hpos, Hnext. change 1 with (Z.of_nat (length [t])).
        apply (IH (pre ++ [u]) [t] (export_inst t) s' Ha' HT'). constructor; [done | by constructor | done | congruence].
      * assert (HT2 : T = pre ++ (run ++ [t]) ++ post) by (by rewrite HT, <- (assoc_L (++) run)).
        replace (u32 (Z.of_nat (length run) + 1)) with (Z.of_nat (length (run ++ [t]))).
        2: { rewrite length_app, u32_small; [cbn; lia |]. rewrite HT, !length_app in Hmax. unfold DRC_MAX_PART_NUM in Hmax. lia. }
        rewrite Hnext, <- (assoc_L (++)). apply (IH pre (run ++ [t]) x s Ha HT2). destruct Hr as [Hne Hall _ Hnew]. constructor; [by destruct run | | done | done].
        apply Forall_app. split; [done |]. by constructor.
    + destruct (assign_run_spec x pre run (t :: post) s Ha HT Hr) as (s' & -> & Ha'). ostep. rewrite Hpos, Hnext. change 1 with (Z.of_nat (length [t])).
      apply (IH (pre ++ run) [t] (export_inst t) s' Ha' HT'). constructor; [done | by constructor | done |].
      intros _. apply (grouped_new T pre run t post x); try done; [apply Hr | apply Hr].
Qed.

(** All tasks are assigned, and the instances [ids] that have none are told so. *)
Record assigned (ids : list Z) s : Prop := mk_assigned {
  ad_mngr : rs_mngr s = rs_mngr s0 /\ rs_version s = rs_version s0;
  ad_local : rs_local_num s = Z.of_nat (length (tasks_of self_id T)) /\ take (length (tasks_of self_id T)) (rs_local_set s) = tasks_of self_id T;
  ad_self : msgs_to self_id (rs_sent s) = [];
  ad_sent : forall d, d <> self_id ->
    msgs_to d (rs_sent s) = if decide (tasks_of d T <> [] \/ d ∈ ids) then [task_msg self_id d (tasks_of d T) s0] else [];
  ad_nums : forall d, 0 <= d < CT_MAX_INSTANCES -> (rs_task_nums s).[d] = Some (Z.of_nat (length (tasks_of d T)));
}.

Lemma tell_idle_spec ids : forall told s,
  assigned told s -> NoDup (told ++ ids) -> (forall d, d ∈ ids -> 0 <= d < CT_MAX_INSTANCES) ->
  exists s', tell_idle self_id link ids s = Done (CT_SUCCESS, s') /\ assigned (told ++ ids) s'.
Proof.
  induction ids as [| d ids IH]; intros told s Ha Hnd Hv; [exists s; split; [done | by rewrite app_nil_r] |]. cbn [tell_idle].
  rewrite cons_middle, (assoc_L (++)) in Hnd |- *. assert (Hd : 0 <= d < CT_MAX_INSTANCES) by (apply Hv; set_solver).
  assert (Hnew : d ∉ told) by (apply NoDup_app in Hnd as (Hnd & _ & _); apply NoDup_app in Hnd as (_ & Hn & _); intros Hin; apply (Hn d Hin); set_solver).
  rewrite (arr_get_eq _ _ _ (ad_nums _ _ Ha d Hd)). ostep. destruct Ha.
  assert (Hgo : forall s1, assigned (told ++ [d]) s1 -> exists s', tell_idle self_id link ids s1 = Done (CT_SUCCESS, s') /\ assigned ((told ++ [d]) ++ ids) s').
  { intros s1 H1. apply IH; [done | done |]. intros x Hx. apply Hv. set_solver. }
  assert (Hkeep : tasks_of d T <> [] \/ d = self_id -> assigned (told ++ [d]) s).
  { intros Hk. constructor; try done. intros x Hx. rewrite ad_sent0 by done. destruct (decide (tasks_of x T <> [] \/ x ∈ told)) as [Hy | Hy].
    - rewrite decide_True; [done | set_solver].
    - rewrite decide_False; [done |]. intros [? | [? | ->%list_elem_of_singleton]%elem_of_app]; [tauto | tauto |]. destruct Hk; [tauto | done]. }
  destruct (Z.eqb_spec (Z.of_nat (length (tasks_of d T))) 0) as [Hz | Hz].
  - assert (Hnil : tasks_of d T = []) by (apply nil_length_inv; lia). destruct (decide (d = self_id)) as [-> | Hne].
    + unfold drc_send_remaster_task_msg. rewrite Z.eqb_refl. ostep. apply Hgo, Hkeep. by right.
    + pose proof (send_spec [] [] (T ++ rest) d s) as Hsend. cbn [length] in Hsend. change (Z.of_nat 0) with 0 in Hsend. rewrite Hsend; [| unfold rs_tasks; destruct ad_mngr0 as [-> _]; exact Htasks | done | done]. ostep.
      apply Hgo. constructor; cbn [rs_mngr rs_version rs_local_set rs_local_num rs_sent rs_task_nums rs_send]; try done.
      * rewrite msgs_to_app, ad_self0. cbn. by rewrite (proj2 (Z.eqb_neq d self_id)).
      * intros x Hx. rewrite msgs_to_app, ad_sent0 by done. cbn. destruct (Z.eqb_spec d x) as [<- | Hdx].
        -- rewrite decide_False by (rewrite Hnil; tauto). rewrite decide_True by (right; apply elem_of_app; right; by apply list_elem_of_singleton). by rewrite Hnil.
        -- rewrite app_nil_r. destruct (decide (tasks_of x T <> [] \/ x ∈ told)); [rewrite decide_True; [done | set_solver] |]. rewrite decide_False; [done | set_solver].
  - apply Hgo, Hkeep. left. intros E. rewrite E in Hz. cbn in Hz. lia.
Qed.

(** The node of the reformer before it assigns. *)
Record assign_ready : Prop := mk_assign_ready {
  ar_num : task_num (remaster_mngr (rs_mngr s0)) = Z.of_nat (length T);
  ar_len : length (rs_local_set s0) = Z.to_nat DRC_MAX_PART_NUM;
  ar_local : rs_local_num s0 = 0;
  ar_sent : rs_sent s0 = [];
  ar_nums : rs_task_nums s0 = replicate (Z.to_nat CT_MAX_INSTANCES) 0;
}.

Lemma assigning_init : assign_ready -> assigning [] s0.
Proof.
  intros []. constructor; cbn; try done.
  - by rewrite ar_sent0.
  - intros d _. by rewrite ar_sent0.
  - by rewrite ar_nums0.
  - intros d Hd _. rewrite ar_nums0. apply lookupZ_Some. split; [lia |]. apply lookup_replicate_2. lia.
Qed.

Lemma assign_all : assign_ready ->
  exists s, (if 0 <? task_num (remaster_mngr (rs_mngr s0)) then
               t ← arr_get (rs_tasks s0) 0;
               '(ret, (cur_inst, cur_pos, inst_part_num), s) ← assign_loop self_id link (Z.to_nat (task_num (remaster_mngr (rs_mngr s0)) - 1)) 1 (export_inst t) 0 1 s0;
               match (ret : status_t) with CT_ERROR => Done (CT_ERROR, s) | CT_SUCCESS => assign_run self_id link cur_inst cur_pos inst_part_num s end
             else Done (CT_SUCCESS, s0)) = Done (CT_SUCCESS, s) /\ assigning T s.
Proof.
  intros Hr. pose proof (assigning_init Hr) as Ha. rewrite (ar_num Hr). destruct (Z.ltb_spec 0 (Z.of_nat (length T))) as [Hlt | Hge].
  2: { assert (E : T = []) by (apply nil_length_inv; lia). exists s0. split; [done |]. by rewrite E. }
  assert (Hcase : exists t post, T = t :: post) by (destruct T as [| t post]; [cbn in Hlt; lia | by exists t, post]). destruct Hcase as (t & post & HT).
  assert (Hget : arr_get (rs_tasks s0) 0 = Done t) by (apply arr_get_eq; rewrite Htasks, HT; by apply (lookupZ_middle [] (post ++ rest) t)). rewrite Hget. ostep.
  replace (Z.to_nat (Z.of_nat (length T) - 1)) with (length post) by (rewrite HT; cbn; lia).
  destruct (assign_loop_spec post [] [t] (export_inst t) s0 Ha HT) as (x & pre & run & s1 & Hrun & Ha1 & HT1 & Hr1); [constructor; [done | by constructor | done | done] |].
  cbn [app length] in Hrun. change (Z.of_nat 1) with 1 in Hrun. change (Z.of_nat 0) with 0 in Hrun. rewrite Hrun. ostep.
  destruct (assign_run_spec x pre run [] s1 Ha1) as (s2 & -> & Ha2); [by rewrite app_nil_r | done |]. exists s2. split; [done |]. by rewrite HT1.
Qed.

Lemma assign_spec rf : assign_ready -> NoDup (rf_ids (rf_after rf) ++ rf_ids (rf_leave rf)) ->
  (forall d, d ∈ rf_ids (rf_after rf) ++ rf_ids (rf_leave rf) -> 0 <= d < CT_MAX_INSTANCES) ->
  exists s, drc_assign_remaster_task self_id link rf s0 = Done (CT_SUCCESS, s) /\ assigned (rf_ids (rf_after rf) ++ rf_ids (rf_leave rf)) s.
Proof.
  intros Hr Hnd Hv. unfold drc_assign_remaster_task. destruct (assign_all Hr) as (s1 & -> & []). ostep.
  destruct (lookupZ_is_Some (rs_task_nums s1) self_id) as [old Hold]; [rewrite ai_nlen0; lia |]. rewrite (arr_set_eq _ _ _ _ Hold). ostep.
  set (s2 := rs_set_task_nums _ s1). assert (Ha2 : assigned [] s2).
  { constructor; try done.
    - intros d Hd. cbn [rs_sent rs_set_task_nums s2]. rewrite ai_sent0 by done. unfold told_tasks. destruct (tasks_of d T); [rewrite decide_False; [done | set_solver] | by rewrite decide_True by (by left)].
    - intros d Hd. cbn [rs_task_nums rs_set_task_nums s2]. destruct (decide (d = self_id)) as [-> | Hne].
      + rewrite lookupZ_insertZ_eq by (rewrite ai_nlen0; lia). f_equal. rewrite ai_num0. apply Z.mod_small. pose proof (tasks_of_length self_id T). unfold DRC_MAX_PART_NUM in Hmax. lia.
      + rewrite lookupZ_insertZ_ne by done. by apply ai_nums0. }
  destruct (tell_idle_spec (rf_ids (rf_after rf)) [] s2 Ha2) as (s3 & -> & Ha3); [by apply NoDup_app in Hnd as (? & _) | intros d Hd; apply Hv; set_solver |]. ostep.
  apply (tell_idle_spec (rf_ids (rf_leave rf)) _ s3 Ha3 Hnd). intros d Hd. apply Hv. set_solver.
Qed.
End assign.

(** ** The other instances *)

(** An instance that waits for its tasks. *)
Record awaits_tasks (rc : reform_status) (ver : Z) s : Prop := mk_awaits {
  aw_status : rs_status s = REMASTER_ASSIGN_TASK;
  aw_reform : reform_num REFORM_FROZEN <= reform_num rc < reform_num REFORM_RECOVER_DONE;
  aw_version : rs_version s = ver;
}.

(** The local tasks of a node. *)
Definition local_tasks s : list drc_remaster_task := take (Z.to_nat (rs_local_num s)) (rs_local_set s).

Lemma accept_checks rc self_id d l s0 s :
  (length l <= Z.to_nat DRC_MAX_PART_NUM)%nat -> rs_status s <> REMASTER_DONE -> reform_num REFORM_FROZEN <= reform_num rc < reform_num REFORM_RECOVER_DONE ->
  rs_version s = rs_version s0 -> drc_check_accept_remaster_task_msg rc (task_msg self_id d l s0) s = CT_SUCCESS.
Proof.
  intros Hl Hs Hrc Hv. unfold drc_check_accept_remaster_task_msg, drc_accept_remaster_task_parameter_check, out_of_reform. cbn [tm_size tm_task_num tm_task_buffer_len tm_version task_msg].
  change (sizeof_remaster_task_msg + sizeof_part_map + sizeof_inst_part_tbl + sizeof_task_set) with 13120.
  change (sizeof_remaster_task_msg + sizeof_part_map + sizeof_task_set + sizeof_inst_part_tbl) with 13120.
  assert (Hu : u32 (13120 + Z.of_nat (length l) * sizeof_remaster_task) = 13120 + Z.of_nat (length l) * sizeof_remaster_task).
  { apply Z.mod_small. unfold sizeof_remaster_task, DRC_MAX_PART_NUM in *. lia. }
  rewrite Hu, Hv, !Z.eqb_refl. unfold sizeof_remaster_task_msg, sizeof_remaster_task. rewrite (proj2 (Z.ltb_ge _ 64)) by lia. cbn [negb].
  rewrite bool_decide_eq_false_2 by done. rewrite (proj2 (Z.leb_gt _ (reform_num rc))), (proj2 (Z.ltb_ge (reform_num rc) _)) by lia.
  rewrite (proj2 (Z.ltb_ge _ _)) by (unfold DRC_MAX_PART_NUM in *; lia). done.
Qed.

Lemma accept_spec rc self_id d l s0 s :
  (length l <= Z.to_nat DRC_MAX_PART_NUM)%nat -> awaits_tasks rc (rs_version s0) s ->
  exists s', drc_accept_remaster_task rc (task_msg self_id d l s0) s = (true, s') /\ rs_status s' = REMASTER_MIGRATE /\ local_tasks s' = l /\ rs_tasks s' = rs_tasks s0.
Proof.
  intros Hl [Hs Hrc Hv]. unfold drc_accept_remaster_task. rewrite accept_checks; [| done | by rewrite Hs | done | done].
  change (rs_status (rs_set_local (rs_local_set s) (tm_task_num (task_msg self_id d l s0)) s)) with (rs_status s). rewrite bool_decide_eq_true_2 by done. cbn [negb].
  assert (Hst : pm_remaster_status (drc_update_remaster_local_status REMASTER_MIGRATE (rs_mngr s)) = REMASTER_MIGRATE).
  { unfold drc_update_remaster_local_status. rewrite decide_True; [done |]. unfold rs_status in Hs. by rewrite Hs. }
  cbn [tm_task_num task_msg]. destruct (Z.eqb_spec (Z.of_nat (length l)) 0) as [Hz | Hz].
  - eexists. split; [reflexivity |]. split; [exact Hst |]. split; [| done]. unfold local_tasks. cbn. rewrite Hz. symmetry. apply nil_length_inv. lia.
  - eexists. split; [reflexivity |]. split; [exact Hst |]. split; [| done]. unfold local_tasks. cbn [rs_local_num rs_local_set rs_set_local rs_set_mngr rs_update tm_tasks task_msg].
    rewrite Nat2Z.id. apply take_app_length.
Qed.

(** When the tasks of an instance follow one another in the task set,
    the reformer keeps exactly its own tasks and sends one message to every
    other instance that takes part in the reform, and an instance that waits for
    its tasks accepts the message, has then exactly the tasks in which it is the
    exporter, in their order, and the whole set, and goes on to migrate. *)
Lemma assign_reaches self_id link s0 T rest rf :
  (forall k, link k = (true, true)) -> rs_tasks s0 = T ++ rest -> (length T <= Z.to_nat DRC_MAX_PART_NUM)%nat ->
  (forall t, t ∈ T -> 0 <= export_inst t < CT_MAX_INSTANCES) -> 0 <= self_id < CT_MAX_INSTANCES -> grouped T -> assign_ready s0 T ->
  let ids := rf_ids (rf_after rf) ++ rf_ids (rf_leave rf) in
  NoDup ids -> (forall d, d ∈ ids -> 0 <= d < CT_MAX_INSTANCES) ->
  exists s, drc_assign_remaster_task self_id link rf s0 = Done (CT_SUCCESS, s) /\ local_tasks s = tasks_of self_id T /\
    forall d, d <> self_id -> d ∈ ids \/ tasks_of d T <> [] ->
      exists m, msgs_to d (rs_sent s) = [m] /\
        forall rc n, awaits_tasks rc (rs_version s0) n ->
          exists n', drc_accept_remaster_task rc m n = (true, n') /\ rs_status n' = REMASTER_MIGRATE /\ local_tasks n' = tasks_of d T /\ rs_tasks n' = rs_tasks s0.
Proof.
  intros Hlink Htasks Hmax Hids Hself Hg Hr ids Hnd Hv. destruct (assign_spec self_id link Hlink s0 T rest Htasks Hmax Hids Hself Hg rf Hr Hnd Hv) as (s & Hrun & []).
  exists s. split; [done |]. split; [unfold local_tasks; destruct ad_local0 as [-> H]; by rewrite Nat2Z.id |].
  intros d Hd Hin. eexists. split; [rewrite ad_sent0 by done; rewrite decide_True; [reflexivity |]; destruct Hin; [by right | by left] |].
  intros rc n Hn. apply accept_spec; [| done]. pose proof (tasks_of_length d T). lia.
Qed.

(** C34: a second message with tasks for an instance that has started to
    migrate is acknowledged, but only its number of tasks is taken over: the
    instance goes on with the tasks of the first message, cut or extended to
    the length of the second. *)
Theorem second_task_message_lost rc self_id d l1 l2 s0 s :
  (length l1 <= Z.to_nat DRC_MAX_PART_NUM)%nat -> (length l2 <= Z.to_nat DRC_MAX_PART_NUM)%nat -> awaits_tasks rc (rs_version s0) s -> l1 <> [] ->
  exists s1 s2, drc_accept_remaster_task rc (task_msg self_id d l1 s0) s = (true, s1) /\ drc_accept_remaster_task rc (task_msg self_id d l2 s0) s1 = (true, s2) /\
    local_tasks s2 = take (length l2) (l1 ++ drop (length l1) (rs_local_set s)).
Proof.
  intros H1 H2 Haw Hne. destruct (accept_spec rc self_id d l1 s0 s H1 Haw) as (s1 & Hrun & Hst & _). destruct Haw as [Hs Hrc Hv].
  assert (Hloc : rs_local_set s1 = l1 ++ drop (length l1) (rs_local_set s) /\ rs_version s1 = rs_version s).
  { revert Hrun. unfold drc_accept_remaster_task. rewrite accept_checks; [| done | by rewrite Hs | done | done].
    change (rs_status (rs_set_local (rs_local_set s) (tm_task_num (task_msg self_id d l1 s0)) s)) with (rs_status s). rewrite bool_decide_eq_true_2 by done. cbn [negb tm_task_num task_msg].
    rewrite (proj2 (Z.eqb_neq _ _)) by (destruct l1; [done | cbn; lia]). intros [= <-]. by rewrite Nat2Z.id. }
  destruct Hloc as [Hloc Hver]. exists s1. eexists. split; [done |]. split.
  - unfold drc_accept_remaster_task. rewrite accept_checks; [| done | by rewrite Hst | done | congruence].
    change (rs_status (rs_set_local (rs_local_set s1) (tm_task_num (task_msg self_id d l2 s0)) s1)) with (rs_status s1). rewrite bool_decide_eq_false_2 by (by rewrite Hst). reflexivity.
  - unfold local_tasks. cbn. by rewrite Nat2Z.id, Hloc.
Qed.

(** ** The plans group the tasks *)

Definition planned (rm : drc_remaster_mngr) : list drc_remaster_task := take (Z.to_nat (task_num rm)) (remaster_task_set rm).

(** The exporters of the tasks so far, in increasing order and below [i]. *)
Record exports_upto (i : Z) (rm : drc_remaster_mngr) : Prop := mk_exports {
  ex_len : length (remaster_task_set rm) = Z.to_nat DRC_MAX_PART_NUM;
  ex_num : 0 <= task_num rm <= DRC_MAX_PART_NUM;
  ex_pos : 0 <= i;
  ex_sorted : StronglySorted Z.le (List.map export_inst (planned rm));
  ex_below : Forall (fun e => 0 <= e < i) (List.map export_inst (planned rm));
}.

Lemma exports_weaken i j rm : i <= j -> exports_upto i rm -> exports_upto j rm.
Proof. intros Hij []. constructor; try done; [lia |]. eapply Forall_impl; [done |]. cbn. intros; lia. Qed.

Lemma sorted_snoc (l : list Z) x : StronglySorted Z.le l -> Forall (fun y => 0 <= y < x + 1) l -> StronglySorted Z.le (l ++ [x]).
Proof.
  induction l as [| a l IH]; intros Hs Hb; [repeat constructor |]. apply StronglySorted_inv in Hs as [Hs Ha]. apply Forall_cons in Hb as [Hax Hb]. cbn. constructor; [by apply IH |].
  apply Forall_app. split; [done |]. constructor; [lia | done].
Qed.

(** Tasks of instance [i] are appended. *)
Lemma export_loop_exports n : forall current i pm rm c rm',
  0 <= i -> exports_upto (i + 1) rm -> export_loop n current i pm rm = Done (c, rm') -> exports_upto (i + 1) rm' /\ target_inst_part_tbl rm' = target_inst_part_tbl rm.
Proof.
  induction n as [| n IH]; intros current i pm rm c rm' Hi Hex Hrun; cbn [export_loop] in Hrun; [by injection Hrun as _ <- |].
  apply bind_Done in Hrun as (t & Ht & Hrun). apply bind_Done in Hrun as (ts & Hts & Hrun). apply bind_Done in Hrun as (a & _ & Hrun).
  apply arr_get_Done in Ht. rewrite (arr_set_eq _ _ _ _ Ht) in Hts. injection Hts as <-. destruct Hex. pose proof (lookupZ_lt _ _ _ Ht) as Hlt. rewrite ex_len0 in Hlt.
  apply IH in Hrun; [done | done |]. unfold DRC_MAX_PART_NUM in *. constructor; cbn [remaster_task_set task_num rm_set_tasks].
  - by rewrite length_insertZ.
  - unfold DRC_MAX_PART_NUM. rewrite u32_small by lia. lia.
  - lia.
  - unfold planned. cbn [remaster_task_set task_num rm_set_tasks]. rewrite u32_small by lia. rewrite <- (Z2Nat.id (task_num rm)) at 2 by lia.
    rewrite insertZ_nat by lia. replace (Z.to_nat (task_num rm + 1)) with (S (Z.to_nat (task_num rm))) by lia.
    rewrite (take_S_r _ _ (mk_task i (import_inst t) current (task_status t))) by (apply list_lookup_insert_eq; lia). rewrite take_insert_ge, List.map_app by lia. by apply sorted_snoc.
  - unfold planned. cbn [remaster_task_set task_num rm_set_tasks]. rewrite u32_small by lia. rewrite <- (Z2Nat.id (task_num rm)) at 2 by lia.
    rewrite insertZ_nat by lia. replace (Z.to_nat (task_num rm + 1)) with (S (Z.to_nat (task_num rm))) by lia.
    rewrite (take_S_r _ _ (mk_task i (import_inst t) current (task_status t))) by (apply list_lookup_insert_eq; lia). rewrite take_insert_ge, List.map_app by lia.
    apply Forall_app. split; [done |]. constructor; [cbn; lia | done].
Qed.

Lemma export_inst_exports i rm rm' : exports_upto i rm -> drc_set_remaster_taskset_export_inst i rm = Done rm' -> exports_upto (i + 1) rm'.
Proof.
  intros Hex Hrun. pose proof (ex_pos _ _ Hex). apply (exports_weaken i (i + 1)) in Hex; [| lia]. unfold drc_set_remaster_taskset_export_inst in Hrun. apply bind_Done in Hrun as (e & _ & Hrun).
  destruct (ip_expected e <? ip_count e); [| by injection Hrun as <-]. apply bind_Done in Hrun as ([cur rm1] & Hloop & Hrun). apply bind_Done in Hrun as (tbl & _ & Hrun).
  injection Hrun as <-. destruct (export_loop_exports _ _ _ _ _ _ _ H Hex Hloop) as [[] _]. by constructor.
Qed.

Lemma exports_tbl i rm tbl : exports_upto i rm -> exports_upto i (rm_set_tbl rm tbl).
Proof. intros []. by constructor. Qed.

Lemma taskset_exports n : forall i seq avg remain rm rm', exports_upto i rm -> taskset_loop n i seq avg remain rm = Done rm' -> exports_upto (i + Z.of_nat n) rm'.
Proof.
  induction n as [| n IH]; intros i seq avg remain rm rm' Hex Hrun; cbn [taskset_loop] in Hrun; [injection Hrun as <-; by rewrite Z.add_0_r |].
  apply bind_Done in Hrun as (e & _ & Hrun). replace (i + Z.of_nat (S n)) with (i + 1 + Z.of_nat n) by lia. destruct (ip_used e).
  - apply bind_Done in Hrun as (tbl & _ & Hrun). apply bind_Done in Hrun as (rm1 & Hexp & Hrun). eapply IH; [| done]. eapply export_inst_exports; [| done]. by apply exports_tbl.
  - eapply IH; [| done]. eapply exports_weaken; [| done]. lia.
Qed.

Lemma reformer_exports n : forall i reformer rm rm', exports_upto i rm -> taskset_reformer_loop n i reformer rm = Done rm' -> exports_upto (i + Z.of_nat n) rm'.
Proof.
  induction n as [| n IH]; intros i reformer rm rm' Hex Hrun; cbn [taskset_reformer_loop] in Hrun; [injection Hrun as <-; by rewrite Z.add_0_r |].
  apply bind_Done in Hrun as (e & _ & Hrun). apply bind_Done in Hrun as (rm1 & Hstep & Hrun). replace (i + Z.of_nat (S n)) with (i + 1 + Z.of_nat n) by lia.
  eapply IH; [| done]. destruct (ip_used e); [| injection Hstep as <-; eapply exports_weaken; [| done]; lia].
  apply bind_Done in Hstep as (tbl & _ & Hstep). eapply export_inst_exports; [| done]. by apply exports_tbl.
Qed.

Lemma scalein_exports n : forall i seq avg remain pm rm rm', exports_upto i rm -> scalein_export n i seq avg remain pm rm = Done rm' -> exports_upto (i + Z.of_nat n) rm'.
Proof.
  induction n as [| n IH]; intros i seq avg remain pm rm rm' Hex Hrun; cbn [scalein_export] in Hrun; [injection Hrun as <-; by rewrite Z.add_0_r |].
  apply bind_Done in Hrun as (e & _ & Hrun). replace (i + Z.of_nat (S n)) with (i + 1 + Z.of_nat n) by lia. pose proof (ex_pos _ _ Hex). apply (exports_weaken i (i + 1)) in Hex; [| lia].
  destruct (ip_used e); [| destruct (0 <? ip_count e)].
  - apply bind_Done in Hrun as (tbl & _ & Hrun). eapply IH; [| done]. by apply exports_tbl.
  - apply bind_Done in Hrun as ([c rm1] & Hloop & Hrun). apply bind_Done in Hrun as (tbl & _ & Hrun). eapply IH; [| done]. apply exports_tbl. by eapply export_loop_exports.
  - by eapply IH.
Qed.

(** Importers are filled in without a change of the exporters. *)
Lemma import_task_exports i inst status rm rm' :
  import_task i inst status rm = Done rm' -> task_num rm' = task_num rm /\ List.map export_inst (remaster_task_set rm') = List.map export_inst (remaster_task_set rm).
Proof.
  unfold import_task. intros H. apply bind_Done in H as (t & Ht & H). apply bind_Done in H as (ts & Hts & H). apply bind_Done in H as (e & _ & H).
  apply bind_Done in H as (pm & _ & H). apply bind_Done in H as (tbl & _ & H). injection H as <-. cbn. split; [done |].
  apply arr_get_Done in Ht. rewrite (arr_set_eq _ _ _ _ Ht) in Hts. injection Hts as <-. unfold insertZ. pose proof (lookupZ_lt _ _ _ Ht).
  rewrite (proj2 (Z.leb_le _ _)), (proj2 (Z.ltb_lt _ _)) by lia. cbn [andb]. apply lookupZ_Some in Ht as [_ Ht].
  change (List.map export_inst) with (fmap (M := list) export_inst). rewrite list_fmap_insert. cbn. apply list_insert_id. by rewrite list_lookup_fmap, Ht.
Qed.

Lemma scaleout_import_exports n : forall i loop ids rm rm',
  scaleout_import n i loop ids rm = Done rm' -> task_num rm' = task_num rm /\ List.map export_inst (remaster_task_set rm') = List.map export_inst (remaster_task_set rm).
Proof.
  induction n as [| n IH]; intros i loop ids rm rm' H; cbn [scaleout_import] in H; [by injection H as <- |].
  apply bind_Done in H as (id & _ & H). apply bind_Done in H as (e & _ & H). apply bind_Done in H as (id' & _ & H). apply bind_Done in H as (rm1 & H1 & H).
  apply import_task_exports in H1 as [? ?]. apply IH in H as [? ?]. split; congruence.
Qed.

Lemma scalein_import_exports n : forall i loop status rm rm',
  scalein_import n i loop status rm = Done rm' -> task_num rm' = task_num rm /\ List.map export_inst (remaster_task_set rm') = List.map export_inst (remaster_task_set rm).
Proof.
  induction n as [| n IH]; intros i loop status rm rm' H; cbn [scalein_import] in H; [by injection H as <- |].
  apply bind_Done in H as (l & _ & H). apply bind_Done in H as (rm1 & H1 & H). apply import_task_exports in H1 as [? ?]. apply IH in H as [? ?]. split; congruence.
Qed.

Lemma sorted_grouped T : StronglySorted Z.le (List.map export_inst T) -> grouped T.
Proof.
  intros Hs i j k a b c Hijk Ha Hb Hc E.
  assert (Hle : forall p q x y, (p < q)%nat -> T !! p = Some x -> T !! q = Some y -> export_inst x <= export_inst y).
  { clear -Hs. intros p q x y Hpq Hx Hy. revert p q Hpq Hx Hy. induction T as [| t T IH]; intros p q Hpq Hx Hy; [done |]. cbn in Hs. apply StronglySorted_inv in Hs as [Hs Ht].
    destruct q as [| q]; [lia |]. destruct p as [| p]; [| apply (IH Hs p q); [lia | done | done]]. injection Hx as ->. rewrite Forall_forall in Ht. apply Ht.
    apply (list_elem_of_fmap_2 export_inst). by eapply list_elem_of_lookup_2. }
  pose proof (Hle i j a b ltac:(lia) Ha Hb). pose proof (Hle j k b c ltac:(lia) Hb Hc). lia.
Qed.

Lemma planned_exports rm rm' : task_num rm' = task_num rm -> List.map export_inst (remaster_task_set rm') = List.map export_inst (remaster_task_set rm) ->
  List.map export_inst (planned rm') = List.map export_inst (planned rm).
Proof. intros H1 H2. unfold planned. by rewrite <- !firstn_map, H1, H2. Qed.

Lemma exports_target m : length (remaster_task_set (remaster_mngr m)) = Z.to_nat DRC_MAX_PART_NUM -> exports_upto 0 (remaster_mngr (drc_int_remaster_target m)).
Proof. intros Hlen. constructor; cbn; [done | unfold DRC_MAX_PART_NUM; lia | done | constructor | constructor]. Qed.

#[local] Opaque taskset_loop taskset_reformer_loop scaleout_import all_new mark_new scalein_export scalein_import.

(** Neither mode of a plan for instances that join leaves the order. *)
Lemma set_taskset_exports num m m' : exports_upto 0 (remaster_mngr m) -> drc_set_remaster_taskset num m = Done m' -> exports_upto CT_MAX_INSTANCES (remaster_mngr m').
Proof.
  intros Hex Hrun. unfold drc_set_remaster_taskset in Hrun. apply bind_Done in Hrun as (rm & Hloop & Hrun). apply taskset_exports in Hloop; [| done].
  apply Done_inj in Hrun. subst m'. exact Hloop.
Qed.

Lemma set_taskset_reformer_exports m m' : exports_upto 0 (remaster_mngr m) -> drc_set_remaster_taskset_drc_in_reformer_mode m = Done m' -> exports_upto CT_MAX_INSTANCES (remaster_mngr m').
Proof.
  intros Hex Hrun. unfold drc_set_remaster_taskset_drc_in_reformer_mode in Hrun. apply bind_Done in Hrun as (rm & Hloop & Hrun). apply reformer_exports in Hloop; [| done].
  apply Done_inj in Hrun. subst m'. exact Hloop.
Qed.

#[local] Opaque drc_set_remaster_taskset drc_set_remaster_taskset_drc_in_reformer_mode.

(** What a plan leaves for the assignment. *)
Definition plan_ok (m : drc_part_mngr) : Prop :=
  let T := planned (remaster_mngr m) in
  grouped T /\ Z.of_nat (length T) = task_num (remaster_mngr m) /\ (length T <= Z.to_nat DRC_MAX_PART_NUM)%nat /\ forall t, t ∈ T -> 0 <= export_inst t < CT_MAX_INSTANCES.

Lemma exports_plan m rm' : exports_upto CT_MAX_INSTANCES rm' -> task_num (remaster_mngr m) = task_num rm' ->
  List.map export_inst (remaster_task_set (remaster_mngr m)) = List.map export_inst (remaster_task_set rm') -> plan_ok m.
Proof.
  intros [] H1 H2. pose proof (planned_exports _ _ H1 H2) as H. unfold DRC_MAX_PART_NUM in *.
  assert (Hlen : Z.of_nat (length (planned (remaster_mngr m))) = task_num (remaster_mngr m)).
  { unfold planned. rewrite <- (length_map export_inst), <- firstn_map, H2, length_take, length_map, ex_len0, H1. lia. }
  unfold plan_ok, DRC_MAX_PART_NUM. split; [apply sorted_grouped; by rewrite H |]. split; [done |]. split; [lia |].
  intros t Ht. rewrite <- H, Forall_forall in ex_below0. apply ex_below0. by apply (list_elem_of_fmap_2 export_inst).
Qed.

Lemma scaleout_plan m mode arr num st m' : exports_upto 0 (remaster_mngr m) -> drc_scaleout_remaster mode arr num m = Done (st, m') -> plan_ok m'.
Proof.
  intros Hex Hrun. unfold drc_scaleout_remaster in Hrun.
  destruct (num =? 0); [apply Done_inj in Hrun; injection Hrun as _ <-; apply (exports_plan _ (remaster_mngr m)); [| done | done]; by apply (exports_weaken 0) |].
  apply bind_Done in Hrun as (u & _ & Hrun). apply bind_Done in Hrun as (tbl & _ & Hrun). apply bind_Done in Hrun as (m1 & Htask & Hrun). apply bind_Done in Hrun as (rm & Himp & Hrun).
  apply Done_inj in Hrun. injection Hrun as _ <-. apply scaleout_import_exports in Himp as [H1 H2]. apply (exports_plan _ (remaster_mngr m1)); [| done | done].
  apply (exports_tbl _ _ tbl) in Hex. destruct mode; cbn [negb] in Htask.
  - by apply set_taskset_reformer_exports in Htask.
  - by apply set_taskset_exports in Htask.
Qed.

Lemma scalein_plan m arr num is_abort st m' :
  exports_upto 0 (remaster_mngr m) -> task_num (remaster_mngr m) = 0 -> drc_scalein_remaster arr num is_abort m = Done (st, m') -> plan_ok m'.
Proof.
  intros Hex Hz Hrun. unfold drc_scalein_remaster in Hrun. apply bind_Done in Hrun as (u & _ & Hrun). apply bind_Done in Hrun as (u' & _ & Hrun).
  apply bind_Done in Hrun as (tbl & _ & Hrun). apply bind_Done in Hrun as (rm1 & Hexp & Hrun). apply bind_Done in Hrun as (rm & Himp & Hrun). apply Done_inj in Hrun. injection Hrun as _ <-.
  apply scalein_import_exports in Himp as [H1 H2]. destruct is_abort.
  { unfold plan_ok, planned. cbn [remaster_mngr pm_set_inst_num pm_set_remaster rm_set_tasks task_num rm_set_tbl]. rewrite Hz. cbn.
    split; [by intros ? |]. split; [done |]. split; [apply Nat.le_0_l |]. by intros t ?%not_elem_of_nil. }
  apply (exports_plan _ rm1); [| done | done]. apply (exports_tbl _ _ tbl) in Hex. exact (scalein_exports _ _ _ _ _ _ _ _ Hex Hexp).
Qed.

#[local] Opaque drc_scaleout_remaster drc_scalein_remaster drc_int_remaster_target.

Lemma execute_plan m rf : mngr_ok m -> one_kind m rf -> exists m', drc_execute_remaster false rf m = Done (CT_SUCCESS, m') /\ plan_ok m'.
Proof.
  intros Hm Hk. destruct (execute_ok m rf Hm Hk) as (m' & Hrun & _). exists m'. split; [done |]. pose proof (exports_target m ltac:(destruct Hm; lia)) as Hex.
  assert (Hz : task_num (remaster_mngr (drc_int_remaster_target m)) = 0) by done. revert Hrun. unfold drc_execute_remaster. generalize dependent (drc_int_remaster_target m). intros m0 Hex Hz.
  destruct Hk as [news Hcj Hpre Hc H1 H2 H3 | dels Hcl Hpre Hc H1 H2 H3 | dels Hcl Hpre Hmg Hc H1 H2 H3 | dels Hcl Hpre Hmg Hc H1 H2 H3];
    rewrite Hc, H1, H2, H3, ltb_length by apply Hcj || apply Hcl; cbn [Z.ltb Z.compare];
    osteps; intros Hrun.
  - apply bind_Done in Hrun as ([st m1] & Hout & Hrun). revert Hrun. osteps. intros Hrun. apply Done_inj in Hrun. injection Hrun as <-. exact (scaleout_plan _ _ _ _ _ _ Hex Hout).
  - apply bind_Done in Hrun as ([st m1] & Hin & Hrun). revert Hrun. osteps. intros Hrun. apply Done_inj in Hrun. injection Hrun as <-. exact (scalein_plan _ _ _ _ _ _ Hex Hz Hin).
  - apply bind_Done in Hrun as ([st m1] & Hin & Hrun). revert Hrun. osteps. intros Hrun. apply Done_inj in Hrun. injection Hrun as <-. destruct (mgrt_fail_list m0).
    + exact (scalein_plan _ _ _ _ _ _ Hex Hz Hin).
    + apply Done_inj in Hin. injection Hin as _ <-. apply (exports_plan _ (remaster_mngr m0)); [| done | done]. by apply (exports_weaken 0).
  - apply bind_Done in Hrun as ([st m1] & Hin & Hrun). revert Hrun. osteps. intros Hrun. apply Done_inj in Hrun. injection Hrun as <-. destruct (mgrt_fail_list m0).
    + exact (scalein_plan _ _ _ _ _ _ Hex Hz Hin).
    + apply Done_inj in Hin. injection Hin as _ <-. apply (exports_plan _ (remaster_mngr m0)); [| done | done]. by apply (exports_weaken 0).
Qed.

(** The node of a reformer that has assigned nothing yet. *)
Record unassigned s : Prop := mk_unassigned {
  un_len : length (rs_local_set s) = Z.to_nat DRC_MAX_PART_NUM;
  un_local : rs_local_num s = 0;
  un_sent : rs_sent s = [];
  un_nums : rs_task_nums s = replicate (Z.to_nat CT_MAX_INSTANCES) 0;
}.

(** C17: in a reform of one kind - all its instances join, or leave, or
    aborted, or failed - outside of reformer mode, and when every message is
    sent and answered, the reformer makes its plan, keeps exactly its own tasks
    of it and sends one message to every other instance that takes part; an
    instance that waits for its tasks accepts that message, has then exactly the
    tasks of the plan in which it is the exporter, in their order, and the whole
    set, and goes on to migrate.  A reform in which some instances join and
    others leave is not covered: for it the claim is false. *)
Theorem plan_reaches_instances self_id link rf m s0 :
  (forall k, link k = (true, true)) -> mngr_ok m -> one_kind m rf -> unassigned s0 -> 0 <= self_id < CT_MAX_INSTANCES ->
  let ids := rf_ids (rf_after rf) ++ rf_ids (rf_leave rf) in
  NoDup ids -> (forall d, d ∈ ids -> 0 <= d < CT_MAX_INSTANCES) ->
  exists m' s, drc_execute_remaster false rf m = Done (CT_SUCCESS, m') /\ drc_assign_remaster_task self_id link rf (rs_set_mngr m' s0) = Done (CT_SUCCESS, s) /\
    let T := planned (remaster_mngr m') in
    local_tasks s = tasks_of self_id T /\
    forall d, d <> self_id -> d ∈ ids \/ tasks_of d T <> [] ->
      exists msg, msgs_to d (rs_sent s) = [msg] /\
        forall rc n, awaits_tasks rc (rs_version s0) n ->
          exists n', drc_accept_remaster_task rc msg n = (true, n') /\ rs_status n' = REMASTER_MIGRATE /\ local_tasks n' = tasks_of d T /\
            rs_tasks n' = remaster_task_set (remaster_mngr m').
Proof.
  intros Hlink Hm Hk [] Hself ids Hnd Hv. destruct (execute_plan m rf Hm Hk) as (m' & Hrun & Hg & Hnum & Hmax & Hids). set (T := planned (remaster_mngr m')) in *.
  assert (Ht : rs_tasks (rs_set_mngr m' s0) = T ++ drop (Z.to_nat (task_num (remaster_mngr m'))) (remaster_task_set (remaster_mngr m'))) by (symmetry; apply take_drop).
  assert (Hr : assign_ready (rs_set_mngr m' s0) T) by (by constructor).
  destruct (assign_reaches self_id link _ T _ rf Hlink Ht Hmax Hids Hself Hg Hr Hnd Hv) as (s & Hs & Hloc & Hall). exists m', s. split; [done |]. split; [done |]. split; [done |]. exact Hall.
Qed.
