(* ===== verification/AssignDemo.v ===== *)
(** * Assignment of remaster tasks on a small cluster

    The cluster of the partition table demo: instances 0, 1 and 2, the
    reformer is 0.  The properties of the assignment are applied to it, and a
    reform with a join and a departure is shown in which tasks are lost.
    Source: src/pkg/src/cluster/dtc_drc.c. *)

From stdpp Require Import prelude list.
From S2P Require Import Prelude Bitmap ResMap GlobalRes DrcTypes DrcPart DrcMgrt PartProps PartThms PartDemo DrcAssign AssignThms.

Open Scope Z_scope.
Open Scope drc_scope.

Module AssignDemo.
Import PartDemo.

(** Every message is sent and answered. *)
Definition good_link (k : nat) : bool * bool := (true, true).

Definition no_task : drc_remaster_task := mk_task 0 0 0 0.

(** A node before tasks are assigned. *)
Definition node (m : drc_part_mngr) : remaster_node := mk_rnode m 7 (replicate 1024 no_task) 0 (replicate 64 0) (replicate 64 REMASTER_ASSIGN_TASK) 0 [].

Definition waiting (m : drc_part_mngr) : drc_part_mngr :=
  mk_mngr (version m) (pm_inited m) (inst_num m) REMASTER_ASSIGN_TASK (is_reentrant m) (remaster_inst m) (mgrt_fail_list m) (part_map m) (inst_part_tbl m) (remaster_mngr m).

(** Instance 1 leaves. *)
Definition departure : reform_info := mk_reform 0 (mk_rlist [0; 2] 2) none (mk_rlist [1] 1) none none.

Lemma departure_kind : one_kind m3 departure.
Proof. refine (leave_only m3 departure [1] leavers _ _ _ _ _); try reflexivity; exists []; reflexivity. Qed.

Lemma node_unassigned m : unassigned (node m).
Proof. constructor; reflexivity. Qed.

Lemma departure_ids : NoDup (rf_ids (rf_after departure) ++ rf_ids (rf_leave departure)) /\
  forall d, d ∈ rf_ids (rf_after departure) ++ rf_ids (rf_leave departure) -> 0 <= d < CT_MAX_INSTANCES.
Proof.
  split; [apply (bool_decide_unpack _); vm_compute; exact I |]. change (rf_ids (rf_after departure) ++ rf_ids (rf_leave departure)) with [0; 2; 1].
  unfold CT_MAX_INSTANCES. intros d [-> | [-> | [-> | []%not_elem_of_nil]%elem_of_cons]%elem_of_cons]%elem_of_cons; lia.
Qed.

Lemma node_waits m : awaits_tasks REFORM_FROZEN 7 (node (waiting m)).
Proof. constructor; [reflexivity | cbn; lia | reflexivity]. Qed.

Lemma plan_reaches_instances_witness :
  exists m' s msg n', drc_execute_remaster false departure m3 = Done (CT_SUCCESS, m') /\ drc_assign_remaster_task 0 good_link departure (node m') = Done (CT_SUCCESS, s) /\
    msgs_to 1 (rs_sent s) = [msg] /\ drc_accept_remaster_task REFORM_FROZEN msg (node (waiting m3)) = (true, n') /\ local_tasks n' = tasks_of 1 (planned (remaster_mngr m')).
Proof.
  destruct (plan_reaches_instances 0 good_link departure m3 (node m3) (fun _ => eq_refl) m3_ok departure_kind (node_unassigned m3) zero_ok (proj1 departure_ids) (proj2 departure_ids))
    as (m' & s & Hrun & Hassign & Hloc & Hall).
  destruct (Hall 1) as (msg & Hmsg & Hacc); [discriminate | left; apply (bool_decide_unpack _); vm_compute; exact I |].
  destruct (Hacc REFORM_FROZEN (node (waiting m3)) (node_waits m3)) as (n' & Hn & _ & Hl & _). exists m', s, msg, n'.
  split; [exact Hrun |]. split; [exact Hassign |]. split; [exact Hmsg |]. split; [exact Hn | exact Hl].
Defined.

Lemma second_task_message_lost_witness :
  exists s1 s2, drc_accept_remaster_task REFORM_FROZEN (task_msg 0 1 [mk_task 1 3 0 2] (node m0)) (node (waiting m0)) = (true, s1) /\
    drc_accept_remaster_task REFORM_FROZEN (task_msg 0 1 [mk_task 1 0 1 2; mk_task 1 2 2 2] (node m0)) s1 = (true, s2) /\
    local_tasks s2 = [mk_task 1 3 0 2; no_task].
Proof.
  destruct (second_task_message_lost REFORM_FROZEN 0 1 [mk_task 1 3 0 2] [mk_task 1 0 1 2; mk_task 1 2 2 2] (node m0) (node (waiting m0))) as (s1 & s2 & H1 & H2 & H3);
    [cbn; apply (bool_decide_unpack _); vm_compute; exact I | apply (bool_decide_unpack _); vm_compute; exact I | exact (node_waits m0) | discriminate |].
  exists s1, s2. split; [exact H1 |]. split; [exact H2 |]. rewrite H3. reflexivity.
Defined.

(** ** A reform with both *)

(** Instance 3 joins and instance 1 leaves. *)
Definition both : reform_info := mk_reform 0 (mk_rlist [0; 2; 3] 3) (mk_rlist [3] 1) (mk_rlist [1] 1) none none.

(** The messages are taken in the order in which they are sent. *)
Definition accept_all (msgs : list drc_remaster_task_msg) (n : remaster_node) : remaster_node :=
  fold_left (fun n msg => snd (drc_accept_remaster_task REFORM_FROZEN msg n)) msgs n.

(** The reformer plans and assigns, and instance [d] takes its messages. *)
Definition reform_and_take (rf : reform_info) (m : drc_part_mngr) (d : Z) : option (drc_part_mngr * remaster_node * remaster_node) :=
  match drc_execute_remaster false rf m with
  | Crash _ => None
  | Done (_, m') =>
      match drc_assign_remaster_task 0 good_link rf (node m') with
      | Crash _ => None
      | Done (_, s) => Some (m', s, accept_all (msgs_to d (rs_sent s)) (node (waiting m)))
      end
  end.

(** When one instance joins and another leaves in one reform, the
    plan lists the tasks of the leaving instance in two places: it has 341 tasks
    in the plan, gets two messages, of 85 and 256 tasks, takes the number of
    tasks of the second and the tasks of the first, and has 85 of its tasks and
    171 entries that are no task of the plan. *)
Theorem join_and_leave_loses_tasks :
  match reform_and_take both m3 1 with
  | Some (m', s, n) =>
      length (tasks_of 1 (planned (remaster_mngr m'))) = 341%nat /\
      List.map (fun msg => length (tm_tasks msg)) (msgs_to 1 (rs_sent s)) = [85%nat; 256%nat] /\
      length (tasks_of 1 (local_tasks n)) = 85%nat /\ local_tasks n = tasks_of 1 (local_tasks n) ++ replicate 171 no_task
  | None => False
  end.
Proof. vm_compute. repeat split. Qed.

End AssignDemo.
